(* ===== verification/_CoqProject ===== *)
-Q . S2P
Prelude.v
GoStr.v
GoCsv.v
GoTime.v
Schema.v
Eff.v
Http.v
Respect.v
Demo.v
Tables.v
Capability.v
InvModel.v
Contacts.v
InvStore.v
InvResponse.v
InvOpen.v
InvRecovery.v
InvManage.v
History.v
Integrity.v
Complete.v
InvCsv.v
InvExport.v
InvService.v
System.v
Submission.v
Sessions.v
Enrollment.v
Answers.v
RecoveryFacts.v
ImportFacts.v
InvHandler.v
Tenancy.v
HandlerFacts.v
ServiceFacts.v
RateLimit.v
Csrf.v
TrustedProxy.v
Config.v
Migrate.v
Files.v
Backup.v
Auth.v
AccountDelete.v
AuthHandler.v
UserAdmin.v
Event.v
EventHandler.v
Series.v
Instance.v
EventAdmin.v
AccountSteps.v
EventSteps.v
AccountSystem.v
AccountFacts.v
AccountDemo.v
LoginFacts.v
AdminFacts.v
EventAdminFacts.v
SetupFacts.v
AccountDeleteFacts.v
AccountExport.v
EventFacts.v
SeriesFacts.v
Reminders.v
Cards.v
Webhook.v
Suppression.v
Notification.v
ReminderFacts.v
Cleanup.v
NotificationFacts.v
WebhookFacts.v
Questions.v
Rewrite.v
Ics.v
CardFacts.v
Stats.v
Outbound.v
Server.v
