(* ===== verification/Prelude.v ===== *)
(** * Owl Invites: a verification development

    Owl Invites is a Go server for event invitations: organizers log in with magic
    links, create events and series of events, invite households by private links or
    one open link, and households answer through sessions.  This library models the
    server's packages (src/internal) as functions and proves what they promise.

    ** How the program is modelled

    - Effects ([Eff]).  Every Go function that reads or writes is a program of the
      monad [M]: it takes a [World] (the database, the list of driver faults still to
      come, and counters for the clock, UUIDs and random bytes) and gives a value or
      an error and the new world.  Every SQL statement consumes one fault, so a run
      under all fault lists covers every point where the database can fail;
      [with_tx] undoes a failed transaction.  [Env] collects what the program calls
      and does not define: clock, random source, SHA-256, HMAC, JSON, templates,
      address parsing.  An error is a value of [err], whose constructors are the
      program's sentinel errors, validation errors with their texts, and [EInternal].
    - Database ([Schema]).  A table is a finite map from primary key to row; a
      statement that breaks a PRIMARY KEY, UNIQUE, CHECK or REFERENCES constraint of
      the migrations fails.  Time columns hold the text the program writes.
    - Go's library ([GoStr], [GoTime], [GoCsv]).  Strings are byte strings; RFC 3339
      texts are formatted, parsed and compared as bytes; the civil calendar and
      [encoding/csv] are executable definitions.  Integers are [Z]; where the program
      multiplies durations they wrap at 64 bits.
    - HTTP ([Http]).  Handlers get decoded bodies, path parameters and the signed-in
      user as arguments and end in a reply with status, body and cookies.
    - Files ([Files]).  Packages os and path/filepath over a tree of directories,
      files and links, in a monad [IO] of its own: every call of the system consumes a
      fault and can fail, deferred clean-up runs on every way out.

    ** Files and sources

    - invitations (internal/invitation): [Capability] capability.go; [InvModel]
      model.go and pure helpers; [InvStore] store.go and event_store.go;
      [InvResponse] response_store.go; [InvOpen] open_store.go; [InvRecovery]
      recovery_store.go; [InvManage] management.go and management_store.go; [InvCsv]
      csv.go; [InvExport] export.go; [InvService] service.go; [InvHandler] handler.go;
    - identities: [Auth] and [AuthHandler] internal/auth; [AccountDelete] and
      [AccountExport] the deletion and the export of auth/store.go; [UserAdmin]
      internal/useradmin; [Instance] internal/instanceconfig;
    - events: [Event] and [EventHandler] internal/event (events and cohosts);
      [Series] internal/event/series_*.go; [EventAdmin] internal/eventadmin and the
      recovery of internal/admincli; [Questions] internal/question; [Cards]
      internal/invite; [Stats] internal/stats; [Ics] internal/calendar;
    - messages: [Notification] internal/notification; [Outbound] the providers
      (internal/notification/email and sms) and internal/feedback; [Suppression]
      internal/suppression; [Webhook] internal/webhook;
    - jobs (internal/scheduler): [Reminders] reminder*.go and handler.go; [Cleanup]
      cleanup.go, series_job.go and scheduler.go, whose goroutines are a step relation;
    - security (internal/security): [RateLimit] ratelimit.go, [Csrf] csrf.go,
      [TrustedProxy] trustedproxy.go and the remaining middleware;
    - operation: [Config] internal/config; [Migrate] internal/database/migrate.go and
      the migrate command; [Rewrite] internal/database/rewrite.go; [Backup]
      internal/backup and internal/secretkey;
    - [Server] internal/server: the providers chosen, the callbacks through which the
      packages meet, the services put together, the jobs, and the routes of all handlers.

    Names follow the Go names; where two types of a package share a method name it
    is prefixed ([Store_Update], [SeriesStore_Update]).  Packages that do not import
    each other meet through callbacks, which are arguments of the operations here as
    they are fields there; their theorems hold for any callback that keeps off the
    tables of the package ([CallbacksOutside], [outside_reads]), and [Server] shows
    that the callbacks it sets do.

    ** What is proved

    - [Respect] and [Tables] are the proof rules: a relation that every statement
      keeps is kept by every program, under all faults; weakest preconditions for
      what a run returns; the rules for the guards of handlers.  [History],
      [Integrity] and [Complete] state the invariants of the invitation tables,
      [System] a run of any store operations; there: the store stays sound, rotation
      and revocation are final.  [Submission], [Answers], [Sessions], [Enrollment],
      [RecoveryFacts]: what submissions, sessions, open enrollment and recovery
      promise.  [Tenancy], [HandlerFacts], [ServiceFacts]: events are kept apart, what
      handlers answer, whom broadcasts reach, what a creation writes.  [Contacts],
      [ImportFacts], [InvExport]: contacts, CSV import and export.
    - [AccountSteps] and [EventSteps] break the operations of identities, events and
      series into steps; [AccountFacts] proves invariants by induction on steps;
      [AccountSystem] is a run of any requests to these services, [Server] the same
      run of the server as it is wired.  [LoginFacts]: invariants, single use of magic
      links, the session gate, the last administrator, the life of an event.
      [AdminFacts] and [EventAdminFacts]: disabling, account invitations, transfer of
      events, recovery of an administrator.  [SetupFacts]: the one-time setup and the
      cohost limit.  [AccountDeleteFacts] and [AccountExport]: what a deletion erases
      and spares, what an export holds.  [EventFacts]: who may change an event, the
      round trip of a created one, the cohost limiter.  [SeriesFacts]: the dates and
      the window of a series.
    - [NotificationFacts]: unsubscribing works, every message is logged, the status of
      a delivery moves forward.  [Outbound]: the header of a mail, escaping in
      feedback.  [WebhookFacts]: stored endpoints, the end of a delivery.
      [ReminderFacts]: the life of a reminder.  [CardFacts]: stored and shown cards.
    - The remaining files carry their theorems themselves, among them: the rate
      limiter refines a sliding window, the rewriter of placeholders agrees with a
      grammar of queries, retention deletes what is due and nothing else, the
      statistics are those of the tables, a backup overwrites nothing and comes back
      as it was, a loaded configuration is in its bounds, the scheduler stops, and no
      route that acts with a session is exempt from the CSRF check.
    - [Demo] and [AccountDemo] are concrete worlds; the lemmas named [..._witness] run
      the theorems on them.  Examples run what the program does where that is not
      what it means to do.

    ** Bounds

    Nearly all recursion is structural.  Functions with fuel: [GoStr.ndigits_go] (the
    binary logarithm of the number), [GoStr.trim_left_go], [Ics.fold_rest],
    [Config.duration_loop] and [Outbound.wrap76] (the length of the text, of which
    every turn takes a part), [Webhook.deliver_loop] (four turns; [deliver_terminates]
    shows that more change nothing), [Files.mkdir_temp] (the ten thousand attempts
    of [os.MkdirTemp] itself).

    ** Not modelled

    - Panics are [EInternal] errors.  Go's map iteration order is fixed to key order
      where a loop over a map has effects; where it decides what is read first, as in
      the export of an account, it is an argument.
    - Requests run one after the other, each statement against the database the last
      one left; interleaving is at the calls of a store.  Goroutines run where they
      are started, those of the scheduler apart.  Response-time padding, the mutex per event and the rate limiter's
      background goroutine are left out.
    - The PostgreSQL variants of the statements; SQLite's own checks and VACUUM INTO,
      the migration library, HTTP, SMTP and SNS clients and the HTML of the mails are
      parameters.
    - The order of the middleware in router.go, flags and process start ([src/cmd]), the
      connection tests of SMTP and SNS, and opening database connections only call
      libraries.  Which route serves a request is package chi's choice, a parameter.  Test helpers
      (internal/testutil, internal/backup/testfixture) and the web client (src/web)
      are not part of the server. *)

From stdpp Require Export base tactics list strings gmap fin_maps sorting relations.
From Stdlib Require Export ZArith Lia Ascii.

(** ** Scopes, hint databases and tactics of the development *)

Declare Scope owl_scope.
Delimit Scope owl_scope with owl.

Create HintDb owl.
Create Rewrite HintDb owl_rw.

(** Split every [match]/[if] scrutinee of the goal or of a hypothesis. *)
Ltac cases :=
  repeat (case_match || case_decide || case_bool_decide); simplify_eq/=.

(** ** Lists *)

Lemma Forall2_elem_l {A B} (P : A -> B -> Prop) l k x :
  Forall2 P l k -> x ∈ l -> exists y, y ∈ k /\ P x y.
Proof.
  intros HF [i Hi]%list_elem_of_lookup. eapply Forall2_lookup_l in HF as (y & Hy & HP); [|done].
  exists y. split; [|done]. by eapply list_elem_of_lookup_2.
Qed.
Lemma Forall2_elem_r {A B} (P : A -> B -> Prop) l k y :
  Forall2 P l k -> y ∈ k -> exists x, x ∈ l /\ P x y.
Proof.
  intros HF [i Hi]%list_elem_of_lookup. eapply Forall2_lookup_r in HF as (x & Hx & HP); [|done].
  exists x. split; [|done]. by eapply list_elem_of_lookup_2.
Qed.
