(* ===== verification/GoStr.v ===== *)
(** * The Go standard library functions on strings the program uses

    A Go [string] is a byte sequence: Rocq's [string] (a list of 8-bit
    [ascii]s).  [len] is the byte length.  The functions follow the documented
    behaviour of packages [strings], [strconv], [encoding/base64] and
    [encoding/hex]; the Unicode lower-casing table is a parameter. *)

From S2P Require Import Prelude.

Local Open Scope Z_scope.

Abbreviation bytes := (list ascii).

Definition to_bytes (s : string) : bytes := String.list_ascii_of_string s.
Definition of_bytes (b : bytes) : string := String.string_of_list_ascii b.

Definition len (s : string) : Z := Z.of_nat (String.length s).

Definition byte_val (c : ascii) : Z := Z.of_N (N_of_ascii c).
Definition byte_of (z : Z) : ascii := ascii_of_N (Z.to_N z).

(** ** Decimal digits and numbers *)

Definition is_digit (c : ascii) : bool := (48 <=? byte_val c) && (byte_val c <=? 57).
Definition digit_val (c : ascii) : Z := byte_val c - 48.
Definition digit_of (n : Z) : ascii := byte_of (48 + n).

(** Exactly [w] decimal digits of [n], most significant first. *)
Fixpoint pad (w : nat) (n : Z) : bytes :=
  match w with
  | O => []
  | S w' => pad w' (n / 10) ++ [digit_of (n mod 10)]
  end.

(** The value of a run of digits. *)
Definition digits_val (l : bytes) : Z :=
  fold_left (fun acc c => 10 * acc + digit_val c) l 0.

Fixpoint ndigits_go (fuel : nat) (n : Z) : nat :=
  match fuel with
  | O => 1
  | S f => if n <? 10 then 1 else S (ndigits_go f (n / 10))
  end.
Definition ndigits (n : Z) : nat := ndigits_go (Z.to_nat (Z.log2 n)) n.

Definition utoa (n : Z) : bytes := pad (ndigits n) n.

(** [strconv.Itoa]. *)
Definition itoa_bytes (n : Z) : bytes :=
  if n <? 0 then "-"%char :: utoa (- n) else utoa n.
Definition itoa (n : Z) : string := of_bytes (itoa_bytes n).

Definition int64_min : Z := - 2 ^ 63.
Definition int64_max : Z := 2 ^ 63 - 1.
Definition in_int64 (z : Z) : bool := (int64_min <=? z) && (z <=? int64_max).

(** [strconv.Atoi]: an optional sign, at least one digit, the value in range. *)
Definition atou (l : bytes) : option Z :=
  match l with
  | [] => None
  | _ => if forallb is_digit l then Some (digits_val l) else None
  end.
Definition atoi_bytes (l : bytes) : option Z :=
  let r := match l with
           | c :: t => if ascii_dec c "-" then Z.opp <$> atou t
                       else if ascii_dec c "+" then atou t else atou l
           | [] => None
           end in
  match r with Some z => if in_int64 z then Some z else None | None => None end.
Definition atoi (s : string) : option Z := atoi_bytes (to_bytes s).

(** ** Splitting, joining, searching *)

(** [strings.Split(s, sep)] for a one-byte separator. *)
Fixpoint split_bytes (c : ascii) (s : bytes) : list bytes :=
  match s with
  | [] => [[]]
  | x :: t => if ascii_dec x c then [] :: split_bytes c t
              else match split_bytes c t with
                   | [] => [[x]]
                   | h :: r => (x :: h) :: r
                   end
  end.
Definition split (s : string) (c : ascii) : list string :=
  of_bytes <$> split_bytes c (to_bytes s).

(** [strings.Join]. *)
Fixpoint join (parts : list string) (sep : string) : string :=
  match parts with
  | [] => ""
  | [p] => p
  | p :: t => p +:+ sep +:+ join t sep
  end.

Fixpoint bytes_prefix (p s : bytes) : bool :=
  match p, s with
  | [], _ => true
  | _ :: _, [] => false
  | x :: p', y :: s' => if ascii_dec x y then bytes_prefix p' s' else false
  end.

(** [html.EscapeString]. *)
Definition html_escape_byte (c : ascii) : bytes :=
  if bool_decide (c = "&"%char) then to_bytes "&amp;"
  else if bool_decide (c = "'"%char) then to_bytes "&#39;"
  else if bool_decide (c = "<"%char) then to_bytes "&lt;"
  else if bool_decide (c = ">"%char) then to_bytes "&gt;"
  else if bool_decide (c = byte_of 34) then to_bytes "&#34;"
  else [c].
Definition html_escape (s : string) : string := of_bytes (mbind html_escape_byte (to_bytes s)).

Definition dq : string := of_bytes [byte_of 34].
Definition nl : string := of_bytes [byte_of 10].

(** [strings.HasPrefix] and [strings.Contains]. *)
Definition has_prefix (s p : string) : bool := bytes_prefix (to_bytes p) (to_bytes s).
Fixpoint bytes_contains (s p : bytes) : bool :=
  bytes_prefix p s || match s with [] => false | _ :: t => bytes_contains t p end.
Definition contains (s p : string) : bool := bytes_contains (to_bytes s) (to_bytes p).

(** [strings.TrimPrefix]. *)
Definition trim_prefix (s p : string) : string :=
  if has_prefix s p then of_bytes (drop (String.length p) (to_bytes s)) else s.

(** ** Trimming *)

(** Remove the first of the byte sequences [ps] that starts [s], if any. *)
Fixpoint strip_one (ps : list bytes) (s : bytes) : option bytes :=
  match ps with
  | [] => None
  | p :: ps' => if bytes_prefix p s then Some (drop (length p) s) else strip_one ps' s
  end.
Fixpoint trim_left_go (fuel : nat) (ps : list bytes) (s : bytes) : bytes :=
  match fuel with
  | O => s
  | S f => match strip_one ps s with Some r => trim_left_go f ps r | None => s end
  end.
Definition trim_left_bytes (ps : list bytes) (s : bytes) : bytes :=
  trim_left_go (length s) ps s.
Definition trim_right_bytes (ps : list bytes) (s : bytes) : bytes :=
  reverse (trim_left_bytes (reverse <$> ps) (reverse s)).
Definition trim_bytes (ps : list bytes) (s : bytes) : bytes :=
  trim_right_bytes ps (trim_left_bytes ps s).

(** The UTF-8 encodings of the runes for which [unicode.IsSpace] holds. *)
Definition space_runes : list bytes :=
  map byte_of <$>
    ([[9]; [10]; [11]; [12]; [13]; [32]; [194; 133]; [194; 160]; [225; 154; 128];
      [226; 128; 128]; [226; 128; 129]; [226; 128; 130]; [226; 128; 131];
      [226; 128; 132]; [226; 128; 133]; [226; 128; 134]; [226; 128; 135];
      [226; 128; 136]; [226; 128; 137]; [226; 128; 138]; [226; 128; 168];
      [226; 128; 169]; [226; 128; 175]; [226; 129; 159]; [227; 128; 128]] : list (list Z)).

(** [strings.TrimSpace]. *)
Definition trim_space (s : string) : string :=
  of_bytes (trim_bytes space_runes (to_bytes s)).

(** [strings.TrimLeft(s, cutset)] and [strings.TrimRight(s, cutset)] for ASCII
    cutsets. *)
Definition trim_left_set (s : string) (cut : bytes) : string :=
  of_bytes (trim_left_bytes ((fun c => [c]) <$> cut) (to_bytes s)).
Definition trim_right_set (s : string) (cut : bytes) : string :=
  of_bytes (trim_right_bytes ((fun c => [c]) <$> cut) (to_bytes s)).

(** ** Lower case *)

Definition is_ascii_byte (c : ascii) : bool := byte_val c <? 128.
Definition lower_byte (c : ascii) : ascii :=
  if (65 <=? byte_val c) && (byte_val c <=? 90) then byte_of (byte_val c + 32) else c.
Definition lower_ascii (s : string) : string := of_bytes (lower_byte <$> to_bytes s).
Definition is_ascii (s : string) : bool := forallb is_ascii_byte (to_bytes s).

(** ** Base64 (raw URL alphabet) and hexadecimal *)

Definition b64_char (n : Z) : ascii :=
  if n <? 26 then byte_of (65 + n)
  else if n <? 52 then byte_of (97 + (n - 26))
  else if n <? 62 then byte_of (48 + (n - 52))
  else if n =? 62 then "-"%char else "_"%char.

Fixpoint b64_go (l : bytes) : bytes :=
  match l with
  | [] => []
  | [a] => let x := byte_val a in [b64_char (x / 4); b64_char ((x mod 4) * 16)]
  | [a; b] => let x := byte_val a in let y := byte_val b in
      [b64_char (x / 4); b64_char ((x mod 4) * 16 + y / 16); b64_char ((y mod 16) * 4)]
  | a :: b :: c :: t =>
      let x := byte_val a in let y := byte_val b in let z := byte_val c in
      b64_char (x / 4) :: b64_char ((x mod 4) * 16 + y / 16)
        :: b64_char ((y mod 16) * 4 + z / 64) :: b64_char (z mod 64) :: b64_go t
  end.
Definition base64_raw_url (s : string) : string := of_bytes (b64_go (to_bytes s)).

Definition hex_char (n : Z) : ascii :=
  if n <? 10 then byte_of (48 + n) else byte_of (97 + (n - 10)).
Definition hex_encode (s : string) : string :=
  of_bytes (flat_map (fun c => [hex_char (byte_val c / 16); hex_char (byte_val c mod 16)])
                     (to_bytes s)).

Example itoa_ex : itoa 1205 = "1205" /\ itoa 0 = "0" /\ itoa (-37) = "-37".
Proof. by vm_compute. Qed.
Example atoi_ex : atoi "+0042" = Some 42 /\ atoi "" = None /\ atoi "4x" = None
  /\ atoi "9223372036854775808" = None /\ atoi "-9223372036854775808" = Some (- 2^63).
Proof. by vm_compute. Qed.
Example trim_ex : trim_space "  a b  " = "a b" /\ trim_space "   " = "".
Proof. by vm_compute. Qed.
Example b64_ex : base64_raw_url "hello" = "aGVsbG8" /\ hex_encode "az" = "617a".
Proof. by vm_compute. Qed.
Example split_ex : split "a..b" "." = ["a"; ""; "b"] /\ split "" "." = [""].
Proof. by vm_compute. Qed.

(** ** Lemmas *)

Lemma to_of_bytes b : to_bytes (of_bytes b) = b.
Proof. apply String.list_ascii_of_string_of_list_ascii. Qed.
Lemma of_to_bytes s : of_bytes (to_bytes s) = s.
Proof. apply String.string_of_list_ascii_of_string. Qed.
Lemma to_bytes_app s t : to_bytes (s +:+ t) = to_bytes s ++ to_bytes t.
Proof. induction s; simpl; [done|]. unfold to_bytes in *. simpl. by f_equal. Qed.
Lemma of_bytes_app s t : of_bytes (s ++ t) = of_bytes s +:+ of_bytes t.
Proof.
  rewrite <- (of_to_bytes (of_bytes s +:+ of_bytes t)), to_bytes_app. by rewrite !to_of_bytes.
Qed.
Lemma to_bytes_inj s t : to_bytes s = to_bytes t -> s = t.
Proof. intros H. rewrite <- (of_to_bytes s), H. apply of_to_bytes. Qed.
Lemma of_bytes_inj s t : of_bytes s = of_bytes t -> s = t.
Proof. intros H. rewrite <- (to_of_bytes s), H. apply to_of_bytes. Qed.
Lemma len_bytes s : len s = Z.of_nat (length (to_bytes s)).
Proof. unfold len. f_equal. induction s; simpl; congruence. Qed.
Lemma len_nonneg s : 0 <= len s.
Proof. unfold len. lia. Qed.

#[export] Hint Rewrite to_of_bytes of_to_bytes to_bytes_app of_bytes_app : owl_rw.

Lemma byte_val_range c : 0 <= byte_val c < 256.
Proof. unfold byte_val. pose proof (N_ascii_bounded c). lia. Qed.
Lemma byte_val_of z : 0 <= z < 256 -> byte_val (byte_of z) = z.
Proof. intros. unfold byte_val, byte_of. rewrite N_ascii_embedding; lia. Qed.
Lemma byte_of_val c : byte_of (byte_val c) = c.
Proof. unfold byte_val, byte_of. rewrite N2Z.id. apply ascii_N_embedding. Qed.
Lemma byte_val_inj c d : byte_val c = byte_val d -> c = d.
Proof. intros H. by rewrite <- (byte_of_val c), H, byte_of_val. Qed.

Lemma digit_val_of n : 0 <= n < 10 -> digit_val (digit_of n) = n.
Proof. intros. unfold digit_val, digit_of. rewrite byte_val_of; lia. Qed.
Lemma is_digit_of n : 0 <= n < 10 -> is_digit (digit_of n) = true.
Proof. intros. unfold is_digit, digit_of. rewrite byte_val_of; lia. Qed.
Lemma is_digit_val c : is_digit c = true -> 0 <= digit_val c < 10.
Proof. unfold is_digit, digit_val. rewrite andb_true_iff, !Z.leb_le. lia. Qed.

Lemma length_pad w n : length (pad w n) = w.
Proof. revert n; induction w; intros; simpl; [done|]. rewrite length_app, IHw. simpl. lia. Qed.
Lemma forallb_pad w n : forallb is_digit (pad w n) = true.
Proof.
  revert n; induction w; intros; simpl; [done|].
  rewrite forallb_app, IHw. simpl. rewrite is_digit_of; [done|].
  apply Z.mod_pos_bound; lia.
Qed.
Lemma digits_val_app l c : digits_val (l ++ [c]) = 10 * digits_val l + digit_val c.
Proof. unfold digits_val. by rewrite fold_left_app. Qed.

Lemma digits_val_pad w n : 0 <= n < 10 ^ Z.of_nat w -> digits_val (pad w n) = n.
Proof.
  revert n; induction w as [|w IH]; intros n Hn; [change (10 ^ Z.of_nat 0) with 1 in Hn; unfold digits_val; simpl; lia|].
  rewrite Nat2Z.inj_succ, Z.pow_succ_r in Hn by lia.
  simpl. rewrite digits_val_app, IH, digit_val_of.
  - pose proof (Z.div_mod n 10). lia.
  - apply Z.mod_pos_bound. lia.
  - split; [apply Z.div_pos; lia | apply Z.div_lt_upper_bound; lia].
Qed.

Lemma ndigits_bound n : 0 <= n -> n < 10 ^ Z.of_nat (ndigits n).
Proof.
  unfold ndigits. intros Hn.
  assert (H : n < 2 ^ (Z.of_nat (Z.to_nat (Z.log2 n)) + 1)).
  { rewrite Z2Nat.id by apply Z.log2_nonneg.
    destruct (Z.eq_dec n 0) as [->|]; [by vm_compute|].
    pose proof (Z.log2_spec n). replace (Z.log2 n + 1) with (Z.succ (Z.log2 n)) by lia. lia. }
  remember (Z.to_nat (Z.log2 n)) as fuel eqn:Ef. clear Ef. revert n Hn H.
  assert (Hone : forall n, n < 10 -> n < 10 ^ Z.of_nat 1) by (intros; by vm_compute).
  induction fuel as [|f IH]; intros n Hn H; simpl ndigits_go.
  - apply Hone. change (2 ^ (Z.of_nat 0 + 1)) with 2 in H. lia.
  - destruct (Z.ltb_spec n 10); [by apply Hone|].
    rewrite Nat2Z.inj_succ, Z.pow_succ_r by lia.
    assert (n / 10 < 10 ^ Z.of_nat (ndigits_go f (n / 10))).
    { apply IH; [apply Z.div_pos; lia|].
      apply Z.div_lt_upper_bound; [lia|].
      rewrite Nat2Z.inj_succ in H.
      replace (Z.succ (Z.of_nat f) + 1) with (Z.succ (Z.of_nat f + 1)) in H by lia.
      rewrite Z.pow_succ_r in H by lia.
      pose proof (Z.pow_pos_nonneg 2 (Z.of_nat f + 1)). lia. }
    pose proof (Z.div_mod n 10). pose proof (Z.mod_pos_bound n 10). lia.
Qed.

Lemma ndigits_pos n : (0 < ndigits n)%nat.
Proof. unfold ndigits. destruct (Z.to_nat _); simpl; [lia|]. destruct (_ <? _); lia. Qed.

Lemma atou_utoa n : 0 <= n -> atou (utoa n) = Some n.
Proof.
  intros Hn. unfold atou, utoa.
  pose proof (length_pad (ndigits n) n) as Hl. pose proof (ndigits_pos n).
  rewrite forallb_pad, digits_val_pad by (pose proof (ndigits_bound n); lia).
  destruct (pad _ _); [simpl in Hl; lia|done].
Qed.

Lemma utoa_not_sign n c t : utoa n = c :: t -> is_digit c = true.
Proof.
  unfold utoa. intros H. pose proof (forallb_pad (ndigits n) n) as Hf.
  rewrite H in Hf. simpl in Hf. by apply andb_true_iff in Hf as [? _].
Qed.

(** Formatting and re-reading a 64-bit integer is the identity. *)
Lemma atoi_itoa_bytes n : in_int64 n = true -> atoi_bytes (itoa_bytes n) = Some n.
Proof.
  intros Hr. unfold atoi_bytes, itoa_bytes.
  destruct (Z.ltb_spec n 0).
  - simpl. rewrite atou_utoa by lia. simpl. by rewrite Z.opp_involutive, Hr.
  - pose proof (atou_utoa n ltac:(lia)) as Hu.
    destruct (utoa n) as [|c t] eqn:E; [done|].
    apply utoa_not_sign in E.
    destruct (ascii_dec c "-") as [->|]; [by vm_compute in E|].
    destruct (ascii_dec c "+") as [->|]; [by vm_compute in E|].
    by rewrite Hu, Hr.
Qed.
Lemma atoi_itoa n : in_int64 n = true -> atoi (itoa n) = Some n.
Proof. intros. unfold atoi, itoa. rewrite to_of_bytes. by apply atoi_itoa_bytes. Qed.

Lemma itoa_bytes_chars n c : c ∈ itoa_bytes n -> c = "-"%char \/ is_digit c = true.
Proof.
  assert (Hd : forall m, c ∈ utoa m -> is_digit c = true).
  { intros m Hc. pose proof (forallb_pad (ndigits m) m) as Hf.
    rewrite forallb_forall in Hf. apply Hf. by apply list_elem_of_In. }
  unfold itoa_bytes. destruct (n <? 0); rewrite ?elem_of_cons; naive_solver.
Qed.

(** ** Splitting what was joined *)

Lemma split_bytes_nosep c s : c ∉ s -> split_bytes c s = [s].
Proof.
  induction s as [|x t IH]; simpl; [done|]. rewrite not_elem_of_cons. intros [? ?].
  destruct (ascii_dec x c); [congruence|]. by rewrite IH.
Qed.
Lemma split_bytes_cons c s t : c ∉ s -> split_bytes c (s ++ c :: t) = s :: split_bytes c t.
Proof.
  induction s as [|x s IH]; simpl; intros Hn.
  - by destruct (ascii_dec c c).
  - apply not_elem_of_cons in Hn as [? ?].
    destruct (ascii_dec x c); [congruence|]. by rewrite IH.
Qed.

(** Conversely the parts of a split carry no separator and join back. *)
Lemma split_bytes_inv c s parts :
  split_bytes c s = parts ->
  Forall (fun p => c ∉ p) parts /\
  exists h t, parts = h :: t /\ s = h ++ concat ((fun p => c :: p) <$> t).
Proof.
  revert parts; induction s as [|x s IH]; intros parts <-; simpl.
  - split; [repeat constructor; set_solver|]. by exists [], [].
  - destruct (IH _ eq_refl) as [Hf (h & t & Hp & Hs)].
    rewrite Hp in Hf |- *. destruct (ascii_dec x c) as [->|].
    + split; [constructor; [set_solver|done]|].
      exists [], (h :: t). split; [done|]. simpl. by rewrite Hs at 1.
    + apply Forall_cons in Hf as [? ?].
      split; [constructor; [set_solver|done]|].
      exists (x :: h), t. split; [done|]. simpl. by rewrite Hs at 1.
Qed.

(** ** Trimming is idempotent *)

Lemma bytes_prefix_spec p s : bytes_prefix p s = true <-> p `prefix_of` s.
Proof.
  revert s; induction p as [|x p IH]; intros s; simpl.
  - split; [intros; apply prefix_nil | done].
  - destruct s as [|y s]; [split; [done|intros [? ?]; done]|].
    destruct (ascii_dec x y) as [->|]; [rewrite IH; split|split; [done|]].
    + intros [k ->]. by exists k.
    + intros [k Hk]. simpl in Hk. simplify_eq. by exists k.
    + intros [k Hk]. simpl in Hk. by simplify_eq.
Qed.

Section trimming.
Context (ps : list bytes) (Hne : Forall (fun p => p <> []) ps).

Lemma strip_one_None s : strip_one ps s = None <-> Forall (fun p => ~ p `prefix_of` s) ps.
Proof.
  clear Hne. induction ps as [|p l IH]; simpl; [split; [constructor|done]|].
  rewrite Forall_cons, <- IH, <- bytes_prefix_spec.
  destruct (bytes_prefix p s); naive_solver.
Qed.

Lemma strip_one_Some s r :
  strip_one ps s = Some r -> exists p, p <> [] /\ s = p ++ r.
Proof.
  revert Hne. induction ps as [|p l IH]; simpl; intros Hf; [done|].
  apply Forall_cons in Hf as [Hp Hl].
  destruct (bytes_prefix p s) eqn:E; [|eauto].
  intros [= <-]. exists p. split; [done|].
  apply bytes_prefix_spec in E as [k ->]. by rewrite drop_app_length.
Qed.

Lemma trim_left_go_None fuel s :
  (length s <= fuel)%nat -> strip_one ps (trim_left_go fuel ps s) = None.
Proof.
  revert s; induction fuel as [|f IH]; intros s Hl; simpl.
  - destruct s; [|simpl in Hl; lia]. apply strip_one_None.
    eapply Forall_impl; [exact Hne|]. intros p Hp [k Hk].
    by destruct p; simplify_eq/=.
  - destruct (strip_one ps s) as [r|] eqn:E; [|done].
    apply IH. apply strip_one_Some in E as (p & Hp & ->).
    rewrite length_app in Hl. destruct p; [done|]. simpl in Hl. lia.
Qed.
Lemma trim_left_None s : strip_one ps (trim_left_bytes ps s) = None.
Proof. apply trim_left_go_None. done. Qed.

Lemma trim_left_fix s : strip_one ps s = None -> trim_left_bytes ps s = s.
Proof. intros H. unfold trim_left_bytes. destruct s; simpl; [done|]. by rewrite H. Qed.

Lemma trim_left_suffix s : trim_left_bytes ps s `suffix_of` s.
Proof.
  unfold trim_left_bytes. generalize (length s) as f. intros f. revert s.
  induction f as [|f IH]; intros s; simpl; [done|].
  destruct (strip_one ps s) as [r|] eqn:E; [|done].
  apply strip_one_Some in E as (p & _ & ->). etrans; [apply IH|]. by exists p.
Qed.
End trimming.

Lemma reverse_ne_Forall (ps : list bytes) :
  Forall (fun p => p <> []) ps -> Forall (fun p => p <> []) (reverse <$> ps).
Proof.
  intros Hf. apply Forall_fmap. eapply Forall_impl; [exact Hf|]. intros p Hp. simpl.
  intros H%(f_equal reverse). by rewrite reverse_involutive in H.
Qed.

Lemma trim_right_prefix ps s :
  Forall (fun p => p <> []) ps -> trim_right_bytes ps s `prefix_of` s.
Proof.
  intros Hne. unfold trim_right_bytes.
  destruct (trim_left_suffix _ (reverse_ne_Forall _ Hne) (reverse s)) as [k Hk].
  exists (reverse k). rewrite <- reverse_app, <- Hk. by rewrite reverse_involutive.
Qed.

Lemma trim_bytes_idemp ps s :
  Forall (fun p => p <> []) ps -> trim_bytes ps (trim_bytes ps s) = trim_bytes ps s.
Proof.
  intros Hne. unfold trim_bytes at 1.
  rewrite (trim_left_fix ps (trim_bytes ps s)).
  - unfold trim_bytes, trim_right_bytes at 1. rewrite trim_left_fix; [by rewrite reverse_involutive|].
    unfold trim_right_bytes. rewrite reverse_involutive.
    apply trim_left_None. by apply reverse_ne_Forall.
  - apply strip_one_None.
    pose proof (trim_left_None ps Hne s) as H%strip_one_None.
    eapply Forall_impl; [exact H|]. intros p Hp Hpre. apply Hp.
    etrans; [exact Hpre|]. by apply trim_right_prefix.
Qed.

Lemma space_runes_ne : Forall (fun p => p <> []) space_runes.
Proof. vm_compute. repeat constructor; done. Qed.

Lemma trim_space_idemp s : trim_space (trim_space s) = trim_space s.
Proof.
  unfold trim_space. rewrite to_of_bytes, trim_bytes_idemp; [done|]. apply space_runes_ne.
Qed.
#[export] Hint Rewrite trim_space_idemp : owl_rw.

(** ** Base64 output never holds a dot *)

Lemma b64_char_no_dot n : 0 <= n < 64 -> b64_char n <> "."%char.
Proof.
  intros Hn. unfold b64_char. intros H.
  apply (f_equal byte_val) in H. change (byte_val ".") with 46 in H.
  repeat match type of H with context [if ?b then _ else _] => destruct b eqn:? end;
    try (rewrite byte_val_of in H; lia); by vm_compute in H.
Qed.
Lemma b64_no_dot l : "."%char ∉ b64_go l.
Proof.
  assert (G : forall n l, (length l <= n)%nat -> "."%char ∉ b64_go l).
  2: { by eapply G. }
  clear l. induction n as [|n IH]; intros l Hl.
  { destruct l; simpl in *; [set_solver|lia]. }
  destruct l as [|a [|b [|c t]]]; simpl in *; [set_solver|..].
  all: pose proof (byte_val_range a) as Ha.
  2,3: pose proof (byte_val_range b) as Hb.
  3: pose proof (byte_val_range c) as Hc.
  all: rewrite ?not_elem_of_cons; repeat split; try (apply not_eq_sym, b64_char_no_dot);
    try (apply not_elem_of_nil); try (apply IH; lia).
  all: Z.div_mod_to_equations; lia.
Qed.

(** ** Byte order *)

(** [a < b] on byte sequences, the order of SQLite's BINARY collation and of Go's
    [<] on strings. *)
Fixpoint bytes_lt (a b : bytes) : bool :=
  match a, b with
  | _, [] => false
  | [], _ :: _ => true
  | x :: a', y :: b' =>
      if byte_val x <? byte_val y then true
      else if byte_val x =? byte_val y then bytes_lt a' b' else false
  end.
Definition str_lt (s t : string) : bool := bytes_lt (to_bytes s) (to_bytes t).

Lemma bytes_lt_app_same p a b : bytes_lt (p ++ a) (p ++ b) = bytes_lt a b.
Proof. induction p as [|x p IH]; simpl; [done|]. by rewrite Z.ltb_irrefl, Z.eqb_refl. Qed.
Lemma bytes_lt_irrefl a : bytes_lt a a = false.
Proof. induction a; simpl; [done|]. by rewrite Z.ltb_irrefl, Z.eqb_refl. Qed.

Lemma bytes_lt_asym a b : bytes_lt a b = true -> bytes_lt b a = false.
Proof.
  revert b. induction a as [|x a IH]; intros [|y b]; simpl; try done.
  repeat case_match; try done; rewrite ?Z.ltb_lt, ?Z.ltb_ge, ?Z.eqb_eq, ?Z.eqb_neq in *;
    first [lia | by apply IH].
Qed.
(** [b <= a] and [c <= b] give [c <= a]. *)
Lemma bytes_le_trans a b c : bytes_lt a b = false -> bytes_lt b c = false -> bytes_lt a c = false.
Proof.
  revert b c. induction a as [|x a IH]; intros [|y b] [|z c]; simpl; try done.
  repeat case_match; try done; rewrite ?Z.ltb_lt, ?Z.ltb_ge, ?Z.eqb_eq, ?Z.eqb_neq in *;
    first [lia | by eapply IH].
Qed.

Lemma bytes_lt_pad w a b s t :
  0 <= a < 10 ^ Z.of_nat w -> 0 <= b < 10 ^ Z.of_nat w ->
  bytes_lt (pad w a ++ s) (pad w b ++ t) =
    if a <? b then true else if a =? b then bytes_lt s t else false.
Proof.
  revert a b s t; induction w as [|w IH]; intros a b s t Ha Hb.
  { change (10 ^ Z.of_nat 0) with 1 in *. assert (a = 0) as -> by lia.
    assert (b = 0) as -> by lia. done. }
  rewrite Nat2Z.inj_succ, Z.pow_succ_r in Ha, Hb by lia.
  assert (forall x, 0 <= x < 10 * 10 ^ Z.of_nat w -> 0 <= x / 10 < 10 ^ Z.of_nat w).
  { intros. split; [apply Z.div_pos; lia | apply Z.div_lt_upper_bound; lia]. }
  simpl. rewrite <- !app_assoc, IH by auto. simpl.
  pose proof (Z.mod_pos_bound a 10). pose proof (Z.mod_pos_bound b 10).
  unfold digit_of. rewrite !byte_val_of by lia.
  pose proof (Z.div_mod a 10). pose proof (Z.div_mod b 10).
  destruct (Z.ltb_spec (a / 10) (b / 10)); destruct (Z.ltb_spec a b); try lia; try done.
  - destruct (Z.eqb_spec (a / 10) (b / 10)); [|lia].
    destruct (Z.ltb_spec (48 + a mod 10) (48 + b mod 10)); [done|lia].
  - destruct (Z.eqb_spec (a / 10) (b / 10)).
    + destruct (Z.ltb_spec (48 + a mod 10) (48 + b mod 10)); [lia|].
      destruct (Z.eqb_spec (48 + a mod 10) (48 + b mod 10));
      destruct (Z.eqb_spec a b); try lia; done.
    + destruct (Z.eqb_spec a b); [subst; lia|done].
Qed.

(** ** Trimmed strings *)

(** Every space rune is one byte below [33], or starts (and ends) above ASCII. *)
Definition rune_heads (ps : list bytes) : Prop :=
  Forall (fun p => exists c t, p = c :: t /\ (128 <= byte_val c \/ (t = [] /\ byte_val c < 33))) ps.
Definition rune_head (p : bytes) : bool :=
  match p with
  | c :: t => (128 <=? byte_val c) || (bool_decide (t = []) && (byte_val c <? 33))
  | [] => false
  end.
Lemma rune_heads_dec ps : forallb rune_head ps = true -> rune_heads ps.
Proof.
  unfold rune_heads. rewrite forallb_forall, Forall_forall. intros H p Hp%list_elem_of_In.
  specialize (H p Hp). destruct p as [|c t]; [done|]. exists c, t. split; [done|]. simpl in H.
  rewrite orb_true_iff, andb_true_iff, bool_decide_eq_true, Z.leb_le, Z.ltb_lt in H. done.
Qed.
Lemma space_rune_heads : rune_heads space_runes.
Proof. apply rune_heads_dec. reflexivity. Qed.
Lemma space_rune_rev_heads : rune_heads (reverse <$> space_runes).
Proof. apply rune_heads_dec. reflexivity. Qed.

(** A visible ASCII byte starts no space. *)
Lemma strip_one_visible ps c t :
  rune_heads ps -> 33 <= byte_val c < 128 -> strip_one ps (c :: t) = None.
Proof.
  intros Hps Hc. apply strip_one_None. eapply Forall_impl; [exact Hps|].
  intros p (c' & t' & -> & H) [k Hk]. injection Hk as -> _. lia.
Qed.

Lemma lower_byte_space c : byte_val (lower_byte c) < 33 -> lower_byte c = c.
Proof.
  unfold lower_byte. destruct (_ && _) eqn:E; [|done].
  apply andb_true_iff in E as [H1%Z.leb_le H2%Z.leb_le]. rewrite byte_val_of by lia. lia.
Qed.
Lemma lower_byte_ascii c : is_ascii_byte c = true -> is_ascii_byte (lower_byte c) = true.
Proof.
  unfold is_ascii_byte, lower_byte. rewrite !Z.ltb_lt. intros H. destruct (_ && _) eqn:E; [|done].
  apply andb_true_iff in E as [H1%Z.leb_le H2%Z.leb_le]. rewrite byte_val_of; lia.
Qed.
Lemma lower_byte_idemp c : lower_byte (lower_byte c) = lower_byte c.
Proof.
  unfold lower_byte at 2 3. destruct (_ && _) eqn:E; [|unfold lower_byte; by rewrite E].
  apply andb_true_iff in E as [H1%Z.leb_le H2%Z.leb_le]. unfold lower_byte.
  rewrite byte_val_of by lia. destruct (Z.leb_spec (byte_val c + 32) 90); [lia|].
  by rewrite andb_false_r.
Qed.

Lemma strip_one_lower ps s :
  rune_heads ps -> forallb is_ascii_byte s = true -> strip_one ps s = None ->
  strip_one ps (lower_byte <$> s) = None.
Proof.
  intros Hps Ha Hs. rewrite strip_one_None in Hs |- *.
  unfold rune_heads in Hps. rewrite Forall_forall in Hps, Hs |- *.
  intros p Hp Hpre. destruct (Hps p Hp) as (c & t & -> & Hc).
  destruct s as [|x s]; simpl in Hpre; [by apply prefix_nil_not in Hpre|].
  pose proof (prefix_cons_inv_1 _ _ _ _ Hpre) as ->. simpl in Ha. apply andb_true_iff in Ha as [Hx _].
  apply lower_byte_ascii in Hx. unfold is_ascii_byte in Hx. rewrite Z.ltb_lt in Hx.
  destruct Hc as [Hc|[-> Hc]]; [lia|]. apply (Hs _ Hp).
  rewrite lower_byte_space by done. by exists s.
Qed.

Lemma trimmed_iff s :
  trim_space s = s <->
  strip_one space_runes (to_bytes s) = None /\
  strip_one (reverse <$> space_runes) (reverse (to_bytes s)) = None.
Proof.
  split.
  - intros H. apply (f_equal to_bytes) in H. unfold trim_space in H. rewrite to_of_bytes in H.
    unfold trim_bytes, trim_right_bytes in H. split.
    + pose proof (trim_left_None _ space_runes_ne (to_bytes s)) as Hn.
      assert (trim_left_bytes space_runes (to_bytes s) = to_bytes s) as <-; [|done].
      pose proof (trim_left_suffix space_runes space_runes_ne (to_bytes s)) as Hsuf.
      pose proof (trim_right_prefix space_runes (trim_left_bytes space_runes (to_bytes s)) space_runes_ne) as Hpre.
      unfold trim_right_bytes in Hpre. rewrite H in Hpre.
      apply suffix_length in Hsuf as Hl1. apply prefix_length in Hpre as Hl2.
      destruct Hsuf as [k Hk]. assert (k = []) as ->; [|done].
      apply (f_equal length) in Hk as Hk'. rewrite length_app in Hk'. destruct k; [done|]. simpl in Hk'. lia.
    + rewrite <- H, reverse_involutive. apply trim_left_None, reverse_ne_Forall, space_runes_ne.
  - intros [H1 H2]. apply to_bytes_inj. unfold trim_space. rewrite to_of_bytes. unfold trim_bytes.
    rewrite (trim_left_fix _ _ H1). unfold trim_right_bytes. by rewrite (trim_left_fix _ _ H2), reverse_involutive.
Qed.

Lemma trim_lower_ascii s :
  is_ascii s = true -> trim_space s = s -> trim_space (lower_ascii s) = lower_ascii s.
Proof.
  rewrite !trimmed_iff. unfold is_ascii, lower_ascii. rewrite to_of_bytes. intros Ha [H1 H2]. split.
  - by apply strip_one_lower; [apply space_rune_heads|..].
  - rewrite <- fmap_reverse. apply strip_one_lower; [apply space_rune_rev_heads| |done].
    rewrite forallb_forall in Ha |- *. intros x Hx. apply Ha.
    apply list_elem_of_In, elem_of_reverse, list_elem_of_In. done.
Qed.
Lemma lower_ascii_idemp s : lower_ascii (lower_ascii s) = lower_ascii s.
Proof.
  unfold lower_ascii. rewrite to_of_bytes, <- list_fmap_compose. f_equal.
  apply list_fmap_ext. intros i x _. simpl. apply lower_byte_idemp.
Qed.
Lemma lower_ascii_ascii s : is_ascii s = true -> is_ascii (lower_ascii s) = true.
Proof.
  unfold is_ascii, lower_ascii. rewrite to_of_bytes, !forallb_forall. intros H x Hx.
  apply in_map_iff in Hx as (y & <- & Hy). by apply lower_byte_ascii, H.
Qed.

(** A string whose first and last bytes are visible is trimmed. *)
Lemma trimmed_visible s c d t :
  to_bytes s = c :: t -> last (to_bytes s) = Some d ->
  33 <= byte_val c < 128 -> 33 <= byte_val d < 128 -> trim_space s = s.
Proof.
  intros Hs Hl Hc Hd. apply trimmed_iff. split.
  - rewrite Hs. by apply strip_one_visible; [apply space_rune_heads|].
  - apply last_Some in Hl as [l Hl]. rewrite Hl, reverse_app.
    change (reverse [d] ++ reverse l) with (d :: reverse l).
    by apply strip_one_visible; [apply space_rune_rev_heads|].
Qed.
