(* ===== verification/GoCsv.v ===== *)
(** * The parts of [encoding/csv] and [unicode/utf8] the program uses

    The reader as the program configures it (comma, no comment character, strict
    quotes, any number of fields) as one pass over the bytes, and the writer with
    its default settings. *)

From S2P Require Import Prelude.
From S2P Require Import GoStr.

Local Open Scope Z_scope.

Definition LF : ascii := byte_of 10.
Definition CR : ascii := byte_of 13.
Definition QUOTE : ascii := byte_of 34.
Definition COMMA : ascii := ","%char.

(** ** UTF-8 *)

Definition in_range (lo hi : Z) (c : ascii) : bool := (lo <=? byte_val c) && (byte_val c <=? hi).
Definition cont_byte : ascii -> bool := in_range 128 191.

(** [utf8.Valid]: shortest encodings, no surrogates, up to U+10FFFF. *)
Fixpoint utf8_valid (s : bytes) : bool :=
  match s with
  | [] => true
  | b0 :: t0 =>
      if byte_val b0 <? 128 then utf8_valid t0
      else match t0 with
      | [] => false
      | b1 :: t1 =>
          if in_range 194 223 b0 then cont_byte b1 && utf8_valid t1
          else match t1 with
          | [] => false
          | b2 :: t2 =>
              if (byte_val b0 =? 224) then in_range 160 191 b1 && cont_byte b2 && utf8_valid t2
              else if (byte_val b0 =? 237) then in_range 128 159 b1 && cont_byte b2 && utf8_valid t2
              else if in_range 225 239 b0 then cont_byte b1 && cont_byte b2 && utf8_valid t2
              else match t2 with
              | [] => false
              | b3 :: t3 =>
                  if (byte_val b0 =? 240)
                  then in_range 144 191 b1 && cont_byte b2 && cont_byte b3 && utf8_valid t3
                  else if in_range 241 243 b0
                  then cont_byte b1 && cont_byte b2 && cont_byte b3 && utf8_valid t3
                  else if (byte_val b0 =? 244)
                  then in_range 128 143 b1 && cont_byte b2 && cont_byte b3 && utf8_valid t3
                  else false
              end
          end
      end
  end.

Lemma utf8_valid_ascii s t :
  forallb (fun c => byte_val c <? 128) s = true -> utf8_valid (s ++ t) = utf8_valid t.
Proof. induction s as [|c s IH]; simpl; [done|]. intros [-> H]%andb_true_iff. by apply IH. Qed.
(** What follows valid text decides whether the whole is valid. *)
Lemma utf8_valid_app s t : utf8_valid s = true -> utf8_valid (s ++ t) = utf8_valid t.
Proof.
  enough (forall n s, (length s <= n)%nat -> utf8_valid s = true -> utf8_valid (s ++ t) = utf8_valid t)
    as H by (by apply (H (length s))).
  clear s. induction n as [|n IH]; intros [|b0 t0] Hn Hs; [done|simpl in Hn; lia|done|]. simpl in Hn.
  assert (forall l b, (length l <= n)%nat -> b && utf8_valid l = true ->
            b && utf8_valid (l ++ t) = utf8_valid t) as Hgo.
  { intros l b Hl [-> Hv]%andb_true_iff. by apply IH. }
  simpl in Hs |- *. destruct (byte_val b0 <? 128); [apply IH; [lia|done]|].
  destruct t0 as [|b1 t1]; [done|]. simpl in Hn |- *. destruct (in_range 194 223 b0); [apply Hgo; [lia|done]|].
  destruct t1 as [|b2 t2]; [done|]. simpl in Hn |- *.
  destruct (byte_val b0 =? 224); [apply Hgo; [lia|done]|].
  destruct (byte_val b0 =? 237); [apply Hgo; [lia|done]|].
  destruct (in_range 225 239 b0); [apply Hgo; [lia|done]|].
  destruct t2 as [|b3 t3]; [done|]. simpl in Hn |- *.
  destruct (byte_val b0 =? 240); [apply Hgo; [lia|done]|].
  destruct (in_range 241 243 b0); [apply Hgo; [lia|done]|].
  destruct (byte_val b0 =? 244); [apply Hgo; [lia|done]|done].
Qed.

(** ** Reader *)

(** Line ends: CR LF becomes LF, and a CR that ends the input is dropped. *)
Fixpoint csv_lines (s : bytes) : bytes :=
  match s with
  | [] => []
  | c :: t =>
      match t with
      | [] => if bool_decide (c = CR) then [] else [c]
      | c' :: _ => if bool_decide (c = CR) && bool_decide (c' = LF) then csv_lines t
                   else c :: csv_lines t
      end
  end.

(** What successive calls of [Read] give: records, then an error or the end. *)
Inductive csv_item := CsvRecord (fields : list string) | CsvError (msg : string).

Definition bare_quote_msg : string :=
  "bare " +:+ of_bytes [QUOTE] +:+ " in non-quoted-field".
Definition quote_msg : string :=
  "extraneous or missing " +:+ of_bytes [QUOTE] +:+ " in quoted-field".

(** [ParseError.Error]. *)
Definition parse_error (start line col : Z) (msg : string) : string :=
  (if start =? line then "" else "record on line " +:+ itoa start +:+ "; ")
  +:+ "parse error on line " +:+ itoa line +:+ ", column " +:+ itoa col +:+ ": " +:+ msg.

(** Where the reader is: between records, at the start of a field, inside a plain
    field, inside a quoted field, after a quote of a quoted field. *)
Inductive csv_state := SRecord | SField | SPlain | SQuoted | SQuote.

(** [fld] is the field so far and [rec] the fields before it, both reversed;
    [start] is the line the record starts on, [line] and [col] the position. *)
Fixpoint csv_read (st : csv_state) (start line col : Z) (fld : bytes) (rec : list string)
    (s : bytes) {struct s} : list csv_item :=
  let field := of_bytes (reverse fld) in
  let record := CsvRecord (reverse (field :: rec)) in
  match s with
  | [] =>
      match st with
      | SRecord => []
      | SQuoted => [CsvError (parse_error start line col quote_msg)]
      | _ => [record]
      end
  | c :: t =>
      let plain (start line col : Z) :=
        if bool_decide (c = COMMA) then csv_read SField start line (col + 1) [] (field :: rec) t
        else if bool_decide (c = LF) then record :: csv_read SRecord (line + 1) (line + 1) 1 [] [] t
        else if bool_decide (c = QUOTE) then [CsvError (parse_error start line col bare_quote_msg)]
        else csv_read SPlain start line (col + 1) (c :: fld) rec t in
      match st with
      | SRecord =>
          if bool_decide (c = LF) then csv_read SRecord (line + 1) (line + 1) 1 [] [] t
          else if bool_decide (c = QUOTE) then csv_read SQuoted start line (col + 1) [] rec t
          else plain start line col
      | SField =>
          if bool_decide (c = QUOTE) then csv_read SQuoted start line (col + 1) [] rec t
          else plain start line col
      | SPlain => plain start line col
      | SQuoted =>
          if bool_decide (c = QUOTE) then csv_read SQuote start line (col + 1) fld rec t
          else if bool_decide (c = LF) then
            match t with
            | [] => [CsvError (parse_error start line (col + 1) quote_msg)]
            | _ => csv_read SQuoted start (line + 1) 1 (c :: fld) rec t
            end
          else csv_read SQuoted start line (col + 1) (c :: fld) rec t
      | SQuote =>
          if bool_decide (c = QUOTE) then csv_read SQuoted start line (col + 1) (c :: fld) rec t
          else if bool_decide (c = COMMA) then csv_read SField start line (col + 1) [] (field :: rec) t
          else if bool_decide (c = LF) then record :: csv_read SRecord (line + 1) (line + 1) 1 [] [] t
          else [CsvError (parse_error start line (col - 1) quote_msg)]
      end
  end.

Definition csv_items (data : string) : list csv_item :=
  csv_read SRecord 1 1 1 [] [] (csv_lines (to_bytes data)).

(** ** Writer *)

Definition special_byte (c : ascii) : bool :=
  bool_decide (c = LF) || bool_decide (c = CR) || bool_decide (c = QUOTE) || bool_decide (c = COMMA).

(** Whether the field starts with a space rune. *)
Definition leading_space (l : bytes) : bool :=
  match strip_one space_runes l with Some _ => true | None => false end.

Definition fieldNeedsQuotes (l : bytes) : bool :=
  match l with
  | [] => false
  | _ => bool_decide (of_bytes l = "\.") || existsb special_byte l || leading_space l
  end.

Fixpoint escape_quotes (l : bytes) : bytes :=
  match l with
  | [] => []
  | c :: t => (if bool_decide (c = QUOTE) then [QUOTE; QUOTE] else [c]) ++ escape_quotes t
  end.

Definition write_field (l : bytes) : bytes :=
  if fieldNeedsQuotes l then QUOTE :: escape_quotes l ++ [QUOTE] else l.

Fixpoint write_fields (r : list string) : bytes :=
  match r with
  | [] => []
  | [f] => write_field (to_bytes f)
  | f :: t => write_field (to_bytes f) ++ COMMA :: write_fields t
  end.

Definition csv_write (r : list string) : bytes := write_fields r ++ [LF].
Definition csv_write_all (rs : list (list string)) : bytes := concat (csv_write <$> rs).

(** ** What the writer writes, the reader reads *)

Definition no_cr (l : bytes) : Prop := CR ∉ l.

Lemma csv_lines_no_cr s : no_cr s -> csv_lines s = s.
Proof.
  unfold no_cr. induction s as [|c t IH]; [done|]. rewrite not_elem_of_cons. intros [Hc Ht].
  simpl. rewrite (bool_decide_eq_false_2 (c = CR)) by congruence. simpl.
  destruct t; [done|]. by rewrite IH.
Qed.

Lemma csv_read_SRecord start line col rec c t :
  c <> LF -> csv_read SRecord start line col [] rec (c :: t)
             = csv_read SField start line col [] rec (c :: t).
Proof. intros H. simpl. by rewrite (bool_decide_eq_false_2 (c = LF)). Qed.

(** The end of a field: a comma goes on with the next field, a line end closes the
    record; both after plain text and after a closing quote. *)
Definition field_end (st : csv_state) : Prop := st = SPlain \/ st = SQuote \/ st = SField.

Lemma csv_read_comma st start line col fld rec t :
  field_end st ->
  csv_read st start line col fld rec (COMMA :: t)
  = csv_read SField start line (col + 1) [] (of_bytes (reverse fld) :: rec) t.
Proof. intros [-> | [-> | ->]]; done. Qed.
Lemma csv_read_LF st start line col fld rec t :
  field_end st ->
  csv_read st start line col fld rec (LF :: t)
  = CsvRecord (reverse (of_bytes (reverse fld) :: rec))
    :: csv_read SRecord (line + 1) (line + 1) 1 [] [] t.
Proof. intros [-> | [-> | ->]]; done. Qed.

Lemma csv_read_plain start line col fld rec l t :
  existsb special_byte l = false ->
  exists col', csv_read SPlain start line col fld rec (l ++ t)
               = csv_read SPlain start line col' (reverse l ++ fld) rec t.
Proof.
  revert col fld. induction l as [|c l IH]; intros col fld H; simpl; [by eexists|].
  simpl in H. apply orb_false_iff in H as [Hc Hl].
  unfold special_byte in Hc. rewrite !orb_false_iff, !bool_decide_eq_false in Hc.
  destruct Hc as [[[H1 H2] H3] H4].
  rewrite (bool_decide_eq_false_2 (c = COMMA)), (bool_decide_eq_false_2 (c = LF)),
    (bool_decide_eq_false_2 (c = QUOTE)) by done.
  destruct (IH (col + 1) (c :: fld) Hl) as [col' E]. exists col'. rewrite E.
  by rewrite reverse_cons, <- app_assoc.
Qed.

(** Inside quotes: the escaped text up to the closing quote. *)
Lemma csv_read_quoted start line col fld rec l t :
  exists line' col', csv_read SQuoted start line col fld rec (escape_quotes l ++ QUOTE :: t)
               = csv_read SQuote start line' col' (reverse l ++ fld) rec t.
Proof.
  revert line col fld. induction l as [|c l IH]; intros line col fld.
  - simpl. by eexists _, _.
  - rewrite reverse_cons, <- app_assoc. cbn [escape_quotes].
    destruct (decide (c = QUOTE)) as [->|Hq].
    + rewrite bool_decide_eq_true_2 by done. cbn [app csv_read].
      rewrite !bool_decide_eq_true_2 by done. apply IH.
    + rewrite bool_decide_eq_false_2 by done. cbn [app csv_read].
      rewrite (bool_decide_eq_false_2 (c = QUOTE)) by done.
      destruct (decide (c = LF)) as [->|Hl].
      * rewrite bool_decide_eq_true_2 by done.
        destruct (escape_quotes l ++ QUOTE :: t) as [|x y] eqn:E.
        { by destruct (escape_quotes l). }
        apply (IH (line + 1) 1 (LF :: fld)).
      * rewrite bool_decide_eq_false_2 by done. apply (IH line (col + 1) (c :: fld)).
Qed.

(** One written field, from the start of a field up to its end. *)
Lemma csv_read_field start line col rec l t :
  (forall x t', l ++ t = x :: t' -> l = [] -> x <> QUOTE) ->
  exists st line' col', field_end st /\
    csv_read SField start line col [] rec (write_field l ++ t)
    = csv_read st start line' col' (reverse l) rec t.
Proof.
  intros Hne. unfold write_field. destruct (fieldNeedsQuotes l) eqn:Eq.
  - rewrite <- app_comm_cons, <- app_assoc. cbn [app csv_read].
    rewrite bool_decide_eq_true_2 by done.
    destruct (csv_read_quoted start line (col + 1) [] rec l t) as (line' & col' & E).
    exists SQuote, line', col'. split; [by right; left|]. rewrite E. by rewrite app_nil_r.
  - destruct l as [|c l].
    + exists SField, line, col. split; [by right; right|done].
    + simpl in Eq. rewrite !orb_false_iff in Eq. destruct Eq as [[_ [Hc Hl]] _].
      destruct (csv_read_plain start line col [] rec (c :: l) t) as [col' E].
      { simpl. by rewrite Hc. }
      exists SPlain, line, col'. split; [by left|]. rewrite app_nil_r in E. rewrite <- E.
      unfold special_byte in Hc. rewrite !orb_false_iff, !bool_decide_eq_false in Hc.
      simpl. by rewrite (bool_decide_eq_false_2 (c = QUOTE)) by tauto.
Qed.

Lemma csv_read_fields r start line rec col t :
  r <> [] ->
  exists line', csv_read SField start line col [] rec (write_fields r ++ LF :: t)
         = CsvRecord (reverse rec ++ r) :: csv_read SRecord (line' + 1) (line' + 1) 1 [] [] t.
Proof.
  revert line rec col. induction r as [|f r IH]; intros line rec col Hr; [done|].
  destruct r as [|f' r].
  - cbn [write_fields].
    destruct (csv_read_field start line col rec (to_bytes f) (LF :: t)) as (st & l' & c' & He & E).
    { intros x t' H Hn. rewrite Hn in H. by injection H as <- _. }
    exists l'. rewrite E, csv_read_LF by done. by rewrite reverse_involutive, of_to_bytes, reverse_cons.
  - change (write_fields (f :: f' :: r))
      with (write_field (to_bytes f) ++ COMMA :: write_fields (f' :: r)).
    rewrite <- app_assoc, <- app_comm_cons.
    destruct (csv_read_field start line col rec (to_bytes f)
                (COMMA :: write_fields (f' :: r) ++ LF :: t)) as (st & l' & c' & He & E).
    { intros x t' H Hn. rewrite Hn in H. by injection H as <- _. }
    rewrite E, csv_read_comma by done.
    destruct (IH l' (of_bytes (reverse (reverse (to_bytes f))) :: rec) (c' + 1)) as [line' E']; [done|].
    exists line'. rewrite E'. by rewrite reverse_involutive, of_to_bytes, reverse_cons, <- app_assoc.
Qed.

(** A written record of two fields or more starts no empty line. *)
Lemma csv_write_head r t :
  (2 <= length r)%nat -> exists c s, csv_write r ++ t = c :: s /\ c <> LF.
Proof.
  destruct r as [|f [|f' r]]; simpl; [lia..|]. intros _. unfold csv_write.
  change (write_fields (f :: f' :: r))
    with (write_field (to_bytes f) ++ COMMA :: write_fields (f' :: r)).
  rewrite <- !app_assoc. unfold write_field. destruct (fieldNeedsQuotes (to_bytes f)) eqn:E.
  - rewrite <- app_comm_cons. by eexists _, _.
  - destruct (to_bytes f) as [|c s]; simpl; [by eexists _, _|].
    eexists _, _. split; [done|]. intros ->. cbn [fieldNeedsQuotes existsb] in E.
    by rewrite !orb_false_iff in E; destruct E as [[_ [? _]] _].
Qed.

Lemma csv_read_all rs line :
  Forall (fun r => (2 <= length r)%nat) rs ->
  csv_read SRecord line line 1 [] [] (csv_write_all rs) = CsvRecord <$> rs.
Proof.
  unfold csv_write_all. revert line. induction rs as [|r rs IH]; intros line H; [done|].
  apply Forall_cons in H as [Hr Hrs]. rewrite fmap_cons. cbn [concat].
  destruct (csv_write_head r (concat (csv_write <$> rs)) Hr) as (c & s & E & Hc).
  rewrite E, csv_read_SRecord, <- E by done. unfold csv_write at 1. rewrite <- app_assoc.
  change ([LF] ++ concat (csv_write <$> rs)) with (LF :: concat (csv_write <$> rs)).
  destruct (csv_read_fields r line line [] 1 (concat (csv_write <$> rs))) as [line' E'].
  { by destruct r; simpl in Hr; [lia|]. }
  rewrite E'. by rewrite IH.
Qed.

Lemma escape_no_cr l : no_cr l -> no_cr (escape_quotes l).
Proof.
  unfold no_cr. induction l as [|c l IH]; [done|]. rewrite not_elem_of_cons. intros [Hc Hl].
  simpl. rewrite not_elem_of_app. split; [|auto].
  destruct (bool_decide (c = QUOTE)); rewrite ?not_elem_of_cons; repeat split; try done;
    apply not_elem_of_nil.
Qed.
Lemma write_field_no_cr l : no_cr l -> no_cr (write_field l).
Proof.
  intros H. unfold write_field. destruct (fieldNeedsQuotes l); [|done]. unfold no_cr.
  rewrite not_elem_of_cons, not_elem_of_app, list_elem_of_singleton.
  split; [done|]. split; [by apply escape_no_cr|done].
Qed.
Lemma write_fields_no_cr r : Forall (fun f => no_cr (to_bytes f)) r -> no_cr (write_fields r).
Proof.
  unfold no_cr. induction 1 as [|f r Hf Hr IH]; [apply not_elem_of_nil|].
  destruct r as [|f' r]; [by apply write_field_no_cr|].
  change (write_fields (f :: f' :: r))
    with (write_field (to_bytes f) ++ COMMA :: write_fields (f' :: r)).
  rewrite not_elem_of_app, not_elem_of_cons. split; [by apply write_field_no_cr|done].
Qed.

Lemma csv_roundtrip rs :
  Forall (fun r => (2 <= length r)%nat /\ Forall (fun f => no_cr (to_bytes f)) r) rs ->
  csv_items (of_bytes (csv_write_all rs)) = CsvRecord <$> rs.
Proof.
  intros H. unfold csv_items. rewrite to_of_bytes, csv_lines_no_cr.
  - apply csv_read_all. eapply Forall_impl; [done|]. by intros ? [? _].
  - unfold csv_write_all. induction H as [|r rs [_ Hr] _ IH]; [apply not_elem_of_nil|].
    unfold no_cr in *. rewrite fmap_cons. cbn [concat]. unfold csv_write at 1.
    rewrite !not_elem_of_app, list_elem_of_singleton.
    split; [split; [by apply write_fields_no_cr|done]|done].
Qed.
