(* ===== verification/GoTime.v ===== *)
(** * Instants, the civil calendar and RFC 3339 text

    A [time.Time] is an instant: nanoseconds since the Unix epoch.  The program
    stores instants as text ([Format(time.RFC3339Nano)] of a UTC time), reads
    them back with [time.Parse] and lets the database compare the text.  This
    file models the formatter and the parser of package [time] for that layout
    and relates the order of the text to the order of the instants. *)

From S2P Require Import Prelude.
From S2P Require Import GoStr.

Local Open Scope Z_scope.

Abbreviation time := Z.

Definition ns_per_sec : Z := 1000000000.
Definition minute : Z := 60 * ns_per_sec.
Definition hour : Z := 60 * minute.

Definition sec_of (t : time) : Z := t / ns_per_sec.
Definition nanos_of (t : time) : Z := t mod ns_per_sec.

(** ** The proleptic Gregorian calendar *)

Definition is_leap (y : Z) : bool :=
  (y mod 4 =? 0) && (negb (y mod 100 =? 0) || (y mod 400 =? 0)).
Definition days_in (m y : Z) : Z :=
  if m =? 2 then (if is_leap y then 29 else 28)
  else if (m =? 4) || (m =? 6) || (m =? 9) || (m =? 11) then 30 else 31.

(** Position within a 400-year era that starts on 1 March: (year of the era,
    month counted from March, day of the month). *)
Definition era_fields (doe : Z) : Z * Z * Z :=
  let yoe := (doe - doe / 1460 + doe / 36524 - doe / 146096) / 365 in
  let doy := doe - (365 * yoe + yoe / 4 - yoe / 100) in
  let mp := (5 * doy + 2) / 153 in
  (yoe, mp, doy - (153 * mp + 2) / 5 + 1).
Definition era_day (yoe mp d : Z) : Z :=
  365 * yoe + yoe / 4 - yoe / 100 + (153 * mp + 2) / 5 + d - 1.

(** The month index (12 * year + month - 1) and the day of the month of a day
    number counted from the epoch. *)
Definition month_day (days : Z) : Z * Z :=
  let z := days + 719468 in
  let '(yoe, mp, d) := era_fields (z mod 146097) in
  ((z / 146097 * 400 + yoe) * 12 + mp + 2, d).

(** [Time.Date] of a UTC day. *)
Definition civil (days : Z) : Z * Z * Z :=
  let '(t, d) := month_day days in (t / 12, t mod 12 + 1, d).

Definition days_of_civil (y m d : Z) : Z :=
  let t := y * 12 + (m - 1) - 2 in
  let y' := t / 12 in
  y' / 400 * 146097 + era_day (y' mod 400) (t mod 12) d - 719468.

(** ** [Format(time.RFC3339Nano)] *)

Definition year_bytes (y : Z) : bytes :=
  if y <? 0 then "-"%char :: pad (Nat.max 4 (ndigits (- y))) (- y)
  else pad (Nat.max 4 (ndigits y)) y.

Fixpoint drop_zeros (l : bytes) : bytes :=
  match l with
  | c :: t => if ascii_dec c "0" then drop_zeros t else l
  | [] => []
  end.
Definition trim_zeros (l : bytes) : bytes := reverse (drop_zeros (reverse l)).

Definition frac_bytes (n : Z) : bytes :=
  if n =? 0 then [] else "."%char :: trim_zeros (pad 9 n).

Definition clock_bytes (sod : Z) : bytes :=
  pad 2 (sod / 3600) ++ ":"%char :: pad 2 (sod / 60 mod 60)
    ++ ":"%char :: pad 2 (sod mod 60).

Definition date_bytes (days : Z) : bytes :=
  let '(y, m, d) := civil days in
  year_bytes y ++ "-"%char :: pad 2 m ++ "-"%char :: pad 2 d.

Definition format_bytes (t : time) : bytes :=
  let s := sec_of t in
  date_bytes (s / 86400) ++ "T"%char :: clock_bytes (s mod 86400)
    ++ frac_bytes (nanos_of t) ++ ["Z"%char].

(** [t.UTC().Format(time.RFC3339Nano)]. *)
Definition format_nano (t : time) : string := of_bytes (format_bytes t).

(** ** [time.Parse(time.RFC3339Nano, value)]

    The general parser of package [time]: one- or two-digit hours, a comma or a
    period before the fraction, zone offsets up to 24:60. *)

Definition getnum (fixed : bool) (s : bytes) : option (Z * bytes) :=
  match s with
  | a :: r =>
      if is_digit a then
        match r with
        | b :: r' => if is_digit b then Some (10 * digit_val a + digit_val b, r')
                     else if fixed then None else Some (digit_val a, r)
        | [] => if fixed then None else Some (digit_val a, [])
        end
      else None
  | [] => None
  end.

Definition skip (c : ascii) (s : bytes) : option bytes :=
  match s with x :: r => if ascii_dec x c then Some r else None | [] => None end.

Definition in_range (lo hi : Z) (x : Z) : option unit :=
  if (lo <=? x) && (x <=? hi) then Some () else None.

Definition parse_year (s : bytes) : option (Z * bytes) :=
  match s with
  | a :: b :: c :: d :: r =>
      if forallb is_digit [a; b; c; d] then Some (digits_val [a; b; c; d], r) else None
  | _ => None
  end.

Fixpoint take_digits (s : bytes) : bytes * bytes :=
  match s with
  | c :: r => if is_digit c then let '(d, t) := take_digits r in (c :: d, t) else ([], s)
  | [] => ([], [])
  end.

(** The first nine digits of the fraction, scaled to nanoseconds. *)
Definition frac_val (ds : bytes) : Z :=
  let ds := take 9 ds in digits_val ds * 10 ^ Z.of_nat (9 - length ds).

Definition parse_frac (s : bytes) : Z * bytes :=
  match s with
  | p :: ((c :: _) as r) =>
      if (bool_decide (p = "."%char) || bool_decide (p = ","%char)) && is_digit c
      then let '(ds, t) := take_digits r in (frac_val ds, t) else (0, s)
  | _ => (0, s)
  end.

Definition parse_zone (s : bytes) : option (Z * bytes) :=
  match s with
  | c :: r =>
      if ascii_dec c "Z" then Some (0, r)
      else
        let sign := if ascii_dec c "+" then Some 1 else if ascii_dec c "-" then Some (-1) else None in
        g ← sign;
        '(hh, r) ← getnum true r; r ← skip ":" r;
        '(mm, r) ← getnum true r;
        _ ← in_range 0 24 hh; _ ← in_range 0 60 mm;
        Some (g * (hh * 60 + mm) * 60, r)
  | [] => None
  end.

Definition parse_bytes (s : bytes) : option time :=
  '(y, s) ← parse_year s; s ← skip "-" s;
  '(mo, s) ← getnum true s; _ ← in_range 1 12 mo; s ← skip "-" s;
  '(d, s) ← getnum true s; s ← skip "T" s;
  '(h, s) ← getnum false s; _ ← in_range 0 23 h; s ← skip ":" s;
  '(mi, s) ← getnum true s; _ ← in_range 0 59 mi; s ← skip ":" s;
  '(se, s) ← getnum true s; _ ← in_range 0 59 se;
  let '(ns, s) := parse_frac s in
  '(off, s) ← parse_zone s;
  _ ← in_range 1 (days_in mo y) d;
  match s with
  | [] => Some ((days_of_civil y mo d * 86400 + h * 3600 + mi * 60 + se - off) * ns_per_sec + ns)
  | _ => None
  end.

Definition parse_nano (s : string) : option time := parse_bytes (to_bytes s).

Example format_ex :
  format_nano (1767225600 * ns_per_sec + 120000000) = "2026-01-01T00:00:00.12Z" /\
  format_nano (951782400 * ns_per_sec) = "2000-02-29T00:00:00Z" /\
  format_nano (-1) = "1969-12-31T23:59:59.999999999Z".
Proof. by vm_compute. Qed.
Example parse_ex :
  parse_nano "2026-01-01T02:00:00.12+02:00" = Some (1767225600 * ns_per_sec + 120000000) /\
  parse_nano "2026-01-01T0:00:00Z" = Some (1767225600 * ns_per_sec) /\
  parse_nano "2026-02-29T00:00:00Z" = None.
Proof. by vm_compute. Qed.

(** ** The calendar is a bijection and respects the order of days *)

Definition era_key (doe : Z) : Z :=
  let '(yoe, mp, d) := era_fields doe in (yoe * 12 + mp) * 32 + d.

(** The longest the month may be; February belongs to the year after the one
    the March-based count is in. *)
Definition era_month_len (yoe mp : Z) : Z :=
  days_in ((mp + 2) mod 12 + 1) (yoe + (mp + 2) / 12).

Lemma yoe_bounds doe :
  0 <= doe < 146097 ->
  let yoe := (doe - doe / 1460 + doe / 36524 - doe / 146096) / 365 in
  0 <= yoe < 400 /\ 0 <= doe - (365 * yoe + yoe / 4 - yoe / 100) <= 365 /\
  (doe - (365 * yoe + yoe / 4 - yoe / 100) = 365 -> is_leap (yoe + 1) = true).
Proof.
  intros H yoe.
  assert (0 <= yoe < 400 /\ 0 <= doe - (365 * yoe + yoe / 4 - yoe / 100) <= 365) as [? ?]
    by (unfold yoe; Z.div_mod_to_equations; lia).
  split; [done|]. split; [done|]. unfold is_leap.
  rewrite andb_true_iff, orb_true_iff, negb_true_iff, Z.eqb_neq, !Z.eqb_eq.
  unfold yoe in *. Z.div_mod_to_equations. lia.
Qed.

Lemma mp_bounds doy :
  0 <= doy <= 365 ->
  let mp := (5 * doy + 2) / 153 in
  0 <= mp < 12 /\ 1 <= doy - (153 * mp + 2) / 5 + 1 <= 31.
Proof. intros H mp. unfold mp. Z.div_mod_to_equations. lia. Qed.

Lemma month_len_bound doy y :
  0 <= doy <= 365 -> (doy = 365 -> is_leap (y + 1) = true) ->
  let mp := (5 * doy + 2) / 153 in
  doy - (153 * mp + 2) / 5 + 1 <= era_month_len y mp.
Proof.
  intros H Hl mp. pose proof (mp_bounds doy H) as [Hm _]. fold mp in Hm.
  assert (Hmp : mp = (5 * doy + 2) / 153) by done. clearbody mp.
  unfold era_month_len, days_in.
  assert (mp = 0 \/ mp = 1 \/ mp = 2 \/ mp = 3 \/ mp = 4 \/ mp = 5 \/ mp = 6 \/ mp = 7
    \/ mp = 8 \/ mp = 9 \/ mp = 10 \/ mp = 11) as Hc by lia.
  destruct_or!; subst mp; rewrite Hc; simpl;
    try (Z.div_mod_to_equations; lia).
  change ((11 + 2) / 12) with 1. change ((11 + 2) mod 12 + 1) with 2.
  change ((153 * 11 + 2) / 5) with 337. simpl.
  destruct (Z.eq_dec doy 365) as [->|]; [rewrite Hl by done; lia|].
  destruct (is_leap _); lia.
Qed.

Lemma era_facts doe yoe mp d :
  0 <= doe < 146097 -> era_fields doe = (yoe, mp, d) ->
  0 <= yoe < 400 /\ 0 <= mp < 12 /\ 1 <= d <= era_month_len yoe mp /\
  era_day yoe mp d = doe.
Proof.
  intros Hd. unfold era_fields, era_day. intros [= <- <- <-].
  pose proof (yoe_bounds doe Hd) as (? & Hy & Hl).
  pose proof (mp_bounds _ Hy) as [? ?].
  pose proof (month_len_bound _ _ Hy Hl). cbv zeta in *.
  set (yoe := _ / 365) in *. set (mp := _ / 153) in *.
  clearbody yoe. repeat split; lia.
Qed.

Lemma era_key_mono a b : 0 <= a < b -> b < 146097 -> era_key a < era_key b.
Proof.
  intros Hab Hb. unfold era_key, era_fields.
  pose proof (yoe_bounds a ltac:(lia)) as (? & Ha & _).
  pose proof (yoe_bounds b ltac:(lia)) as (? & Hb' & _).
  set (ya := _ / 365) in *. set (yb := (b - _ + _ - _) / 365) in *.
  assert (ya <= yb) as Hle.
  { subst ya yb. apply Z.div_le_mono; [lia|]. Z.div_mod_to_equations. lia. }
  clearbody ya yb.
  pose proof (mp_bounds _ Ha) as [? ?]. pose proof (mp_bounds _ Hb') as [? ?].
  destruct (Z.eq_dec ya yb) as [->|]; [|lia].
  set (da := a - _) in *. set (db := b - _) in *.
  assert (da < db) by lia. clearbody da db.
  Z.div_mod_to_equations. lia.
Qed.

Lemma days_in_bounds m y : 28 <= days_in m y <= 31.
Proof. unfold days_in. repeat case_match; lia. Qed.

(** The day of the month and the year-month of a day, from its era fields. *)
Lemma month_day_facts days t d :
  month_day days = (t, d) ->
  exists era yoe mp, 0 <= yoe < 400 /\ 0 <= mp < 12 /\ 1 <= d <= era_month_len yoe mp /\
    t = (era * 400 + yoe) * 12 + mp + 2 /\ days + 719468 = era * 146097 + era_day yoe mp d.
Proof.
  unfold month_day. set (z := days + 719468).
  pose proof (Z.mod_pos_bound z 146097 ltac:(lia)) as Hb.
  pose proof (Z.div_mod z 146097 ltac:(lia)) as Hz.
  destruct (era_fields (z mod 146097)) as [[yoe mp] dd] eqn:E. intros [= <- <-].
  pose proof (era_facts _ _ _ _ Hb E) as (? & ? & ? & Hday).
  exists (z / 146097), yoe, mp. rewrite Hday. lia.
Qed.

Lemma is_leap_era y e : is_leap (e * 400 + y) = is_leap y.
Proof.
  unfold is_leap.
  assert (forall k, (k | 400) -> 0 < k -> (e * 400 + y) mod k = y mod k) as H.
  { intros k [q Hq] Hk. rewrite Hq, Z.mul_assoc, (Z.add_comm (e * q * k)), Z.mod_add; lia. }
  rewrite (H 4), (H 100), (H 400)
    by first [lia | by exists 100 | by exists 4 | by exists 1]. done.
Qed.

Lemma civil_facts days y m d :
  civil days = (y, m, d) ->
  1 <= m <= 12 /\ 1 <= d <= days_in m y /\ days_of_civil y m d = days.
Proof.
  unfold civil. destruct (month_day days) as [t d'] eqn:E. intros [= <- <- <-].
  apply month_day_facts in E as (era & yoe & mp & Hy & Hm & Hd & -> & Hz).
  pose proof (Z.mod_pos_bound ((era * 400 + yoe) * 12 + mp + 2) 12 ltac:(lia)).
  set (t := (era * 400 + yoe) * 12 + mp + 2) in *.
  assert (Ht : t / 12 = era * 400 + (yoe + (mp + 2) / 12) /\ t mod 12 = (mp + 2) mod 12).
  { unfold t. replace ((era * 400 + yoe) * 12 + mp + 2) with (mp + 2 + (era * 400 + yoe) * 12) by lia.
    rewrite Z.div_add, Z.mod_add by lia. lia. }
  destruct Ht as [Ht1 Ht2].
  split; [lia|]. split.
  - rewrite Ht1, Ht2. unfold era_month_len in Hd.
    unfold days_in in *. rewrite is_leap_era. exact Hd.
  - unfold days_of_civil.
    replace (t / 12 * 12 + (t mod 12 + 1 - 1) - 2) with (mp + (era * 400 + yoe) * 12)
      by (pose proof (Z.div_mod t 12); lia).
    rewrite Z.div_add, Z.mod_add, (Z.div_small mp 12), (Z.mod_small mp 12), Z.add_0_l by lia.
    replace (era * 400 + yoe) with (yoe + era * 400) by lia.
    rewrite Z.div_add, Z.mod_add, (Z.div_small yoe 400), (Z.mod_small yoe 400) by lia. lia.
Qed.

Definition day_key (days : Z) : Z := let '(t, d) := month_day days in t * 32 + d.

Lemma era_key_range doe : 0 <= doe < 146097 -> 0 < era_key doe < 4800 * 32.
Proof.
  intros Hd. unfold era_key. destruct (era_fields doe) as [[yoe mp] d] eqn:E.
  pose proof (era_facts _ _ _ _ Hd E) as (? & ? & Hdd & ?).
  pose proof (days_in_bounds ((mp + 2) mod 12 + 1) (yoe + (mp + 2) / 12)).
  unfold era_month_len in Hdd. lia.
Qed.

Lemma day_key_eq days :
  day_key days = (days + 719468) / 146097 * (4800 * 32) + 64 + era_key ((days + 719468) mod 146097).
Proof.
  unfold day_key, month_day, era_key.
  destruct (era_fields ((days + 719468) mod 146097)) as [[yoe mp] d]. lia.
Qed.

(** Later days have later dates. *)
Lemma day_key_mono a b : a < b -> day_key a < day_key b.
Proof.
  intros Hab. rewrite !day_key_eq.
  set (x := a + 719468). set (y := b + 719468). assert (x < y) by lia.
  pose proof (Z.mod_pos_bound x 146097 ltac:(lia)).
  pose proof (Z.mod_pos_bound y 146097 ltac:(lia)).
  pose proof (Z.div_mod x 146097 ltac:(lia)). pose proof (Z.div_mod y 146097 ltac:(lia)).
  pose proof (era_key_range (x mod 146097) ltac:(lia)).
  pose proof (era_key_range (y mod 146097) ltac:(lia)).
  assert (x / 146097 <= y / 146097) by (apply Z.div_le_mono; lia).
  destruct (Z.eq_dec (x / 146097) (y / 146097)) as [e|]; [|lia].
  rewrite e. pose proof (era_key_mono (x mod 146097) (y mod 146097)). lia.
Qed.

(** ** Instants the four-digit year can express *)

Definition time_ok (t : time) : bool :=
  (-62167219200 <=? sec_of t) && (sec_of t <? 253402300800).

Lemma time_ok_days t :
  time_ok t = true -> -719528 <= sec_of t / 86400 <= 2932896.
Proof.
  unfold time_ok. rewrite andb_true_iff, Z.leb_le, Z.ltb_lt. intros.
  Z.div_mod_to_equations. lia.
Qed.

Lemma civil_year days y m d :
  -719528 <= days <= 2932896 -> civil days = (y, m, d) -> 0 <= y <= 9999.
Proof.
  intros Hd. unfold civil. destruct (month_day days) as [t d'] eqn:E. intros [= <- _ _].
  assert (Hk : 1 <= t * 32 + d' <= 119999 * 32 + 31).
  { change (t * 32 + d') with (let '(t, d) := (t, d') in t * 32 + d).
    rewrite <- E. fold (day_key days).
    assert (day_key (-719528) = 1) as H1 by done.
    assert (day_key 2932896 = 119999 * 32 + 31) as H2 by done.
    pose proof (day_key_mono (-719528) days). pose proof (day_key_mono days 2932896).
    destruct (Z.eq_dec days (-719528)) as [->|]; [lia|].
    destruct (Z.eq_dec days 2932896) as [->|]; lia. }
  apply month_day_facts in E as (era & yoe & mp & ? & ? & Hl & ? & ?).
  pose proof (days_in_bounds ((mp + 2) mod 12 + 1) (yoe + (mp + 2) / 12)).
  unfold era_month_len in Hl. Z.div_mod_to_equations. lia.
Qed.

Lemma ndigits_go_le fuel n k :
  0 <= n < 10 ^ Z.of_nat k -> (0 < k)%nat -> (ndigits_go fuel n <= k)%nat.
Proof.
  revert n k; induction fuel as [|f IH]; intros n k Hn Hk; simpl; [lia|].
  destruct (Z.ltb_spec n 10); [lia|].
  destruct k as [|[|k]]; [lia|change (10 ^ Z.of_nat 1) with 10 in Hn; lia|].
  apply le_n_S, IH; [|lia].
  rewrite (Nat2Z.inj_succ (S k)), Z.pow_succ_r in Hn by lia.
  split; [apply Z.div_pos; lia|apply Z.div_lt_upper_bound; lia].
Qed.

Lemma year_bytes_pad y : 0 <= y <= 9999 -> year_bytes y = pad 4 y.
Proof.
  intros Hy. unfold year_bytes. destruct (Z.ltb_spec y 0); [lia|].
  f_equal. apply Nat.max_l. apply ndigits_go_le; [|lia].
  change (10 ^ Z.of_nat 4) with 10000. lia.
Qed.

(** ** Reading back what was written *)

Lemma parse_year_pad y r : 0 <= y <= 9999 -> parse_year (pad 4 y ++ r) = Some (y, r).
Proof.
  intros Hy. pose proof (length_pad 4 y). pose proof (forallb_pad 4 y).
  pose proof (digits_val_pad 4 y ltac:(change (10 ^ Z.of_nat 4) with 10000; lia)).
  destruct (pad 4 y) as [|a [|b [|c [|d [|]]]]]; try done.
  unfold parse_year. simpl app. cbv iota. by rewrite H0, H1.
Qed.

Lemma getnum_pad fixed n r : 0 <= n < 100 -> getnum fixed (pad 2 n ++ r) = Some (n, r).
Proof.
  intros Hn. pose proof (length_pad 2 n). pose proof (forallb_pad 2 n) as Hf.
  pose proof (digits_val_pad 2 n ltac:(change (10 ^ Z.of_nat 2) with 100; lia)) as Hv.
  destruct (pad 2 n) as [|a [|b [|]]]; try done.
  simpl in Hf. rewrite !andb_true_iff in Hf. destruct Hf as (Ha & Hb & _).
  simpl. rewrite Ha, Hb. unfold digits_val in Hv. simpl in Hv. do 2 f_equal. lia.
Qed.

Lemma skip_cons c r : skip c (c :: r) = Some r.
Proof. simpl. by destruct (ascii_dec c c). Qed.

Lemma in_range_true lo hi x : lo <= x <= hi -> in_range lo hi x = Some ().
Proof. intros. unfold in_range. by rewrite (proj2 (andb_true_iff _ _)) by lia. Qed.

Lemma take_digits_app ds c r :
  forallb is_digit ds = true -> is_digit c = false ->
  take_digits (ds ++ c :: r) = (ds, c :: r).
Proof.
  intros Hd Hc. induction ds as [|x ds IH]; simpl in *; [by rewrite Hc|].
  apply andb_true_iff in Hd as [-> Hd]. by rewrite IH.
Qed.

Lemma drop_zeros_spec l : exists k, l = replicate k "0"%char ++ drop_zeros l.
Proof.
  induction l as [|c t [k IH]]; simpl; [by exists 0%nat|].
  destruct (ascii_dec c "0") as [->|]; [exists (S k); simpl; by rewrite <- IH|by exists 0%nat].
Qed.

Lemma trim_zeros_spec l : exists k, l = trim_zeros l ++ replicate k "0"%char.
Proof.
  destruct (drop_zeros_spec (reverse l)) as [k Hk]. exists k.
  unfold trim_zeros. rewrite <- (reverse_replicate k), <- reverse_app, <- Hk.
  by rewrite reverse_involutive.
Qed.

Lemma digits_val_zeros ds k :
  digits_val (ds ++ replicate k "0"%char) = digits_val ds * 10 ^ Z.of_nat k.
Proof.
  induction k as [|k IH]; [rewrite app_nil_r; simpl; lia|].
  rewrite replicate_S_end, app_assoc, digits_val_app, IH, Nat2Z.inj_succ, Z.pow_succ_r by lia.
  change (digit_val "0") with 0. lia.
Qed.

Lemma trim_zeros_facts n :
  0 < n < 10 ^ 9 ->
  let ds := trim_zeros (pad 9 n) in
  forallb is_digit ds = true /\ ds <> [] /\ (length ds <= 9)%nat /\ frac_val ds = n.
Proof.
  intros Hn ds. destruct (trim_zeros_spec (pad 9 n)) as [k Hk]. fold ds in Hk.
  pose proof (forallb_pad 9 n) as Hf. pose proof (length_pad 9 n) as Hl.
  pose proof (digits_val_pad 9 n ltac:(lia)) as Hv.
  rewrite Hk in Hf, Hl, Hv. rewrite forallb_app, andb_true_iff in Hf.
  rewrite length_app, length_replicate in Hl. rewrite digits_val_zeros in Hv.
  split; [tauto|]. split; [intros E; rewrite E in Hv; unfold digits_val in Hv; simpl in Hv; lia|].
  split; [lia|]. unfold frac_val. rewrite take_ge by lia.
  replace (9 - length ds)%nat with k by lia. done.
Qed.

Lemma parse_frac_bytes n r :
  0 <= n < ns_per_sec ->
  parse_frac (frac_bytes n ++ "Z"%char :: r) = (n, "Z"%char :: r).
Proof.
  intros Hn. unfold frac_bytes. destruct (Z.eqb_spec n 0) as [->|].
  - simpl. destruct r; done.
  - destruct (trim_zeros_facts n ltac:(unfold ns_per_sec in Hn; lia)) as (Hf & Hne & _ & Hv).
    pose proof (take_digits_app _ "Z" r Hf eq_refl) as Ht.
    set (l := trim_zeros (pad 9 n)) in *. clearbody l.
    destruct l as [|c ds]; [done|]. simpl in Hf. apply andb_true_iff in Hf as [Hc _].
    simpl app in Ht |- *. unfold parse_frac. rewrite Hc, Ht, Hv. done.
Qed.

Lemma obind_Some {A B} (x : A) (f : A -> option B) : (Some x ≫= f) = f x.
Proof. done. Qed.

(** Run one parser step whose input is known to start with what it expects. *)
Ltac pstep :=
  lazymatch goal with
  | |- (parse_year _ ≫= _) = _ => rewrite parse_year_pad by lia
  | |- (getnum _ _ ≫= _) = _ => rewrite getnum_pad by lia
  | |- (in_range _ _ _ ≫= _) = _ => rewrite in_range_true by lia
  | |- (skip _ _ ≫= _) = _ => rewrite skip_cons
  end; rewrite obind_Some; cbv beta iota.

Lemma parse_clock_bytes sod r :
  0 <= sod < 86400 ->
  ('(h, s) ← getnum false (clock_bytes sod ++ r); _ ← in_range 0 23 h; s ← skip ":" s;
   '(mi, s) ← getnum true s; _ ← in_range 0 59 mi; s ← skip ":" s;
   '(se, s) ← getnum true s; _ ← in_range 0 59 se;
   Some (h * 3600 + mi * 60 + se, s)) = Some (sod, r).
Proof.
  intros Hs. unfold clock_bytes.
  assert (0 <= sod / 3600 <= 23 /\ 0 <= sod / 60 mod 60 <= 59 /\ 0 <= sod mod 60 <= 59
    /\ sod / 3600 * 3600 + sod / 60 mod 60 * 60 + sod mod 60 = sod) as (? & ? & ? & He)
    by (Z.div_mod_to_equations; lia).
  rewrite <- app_assoc, <- app_comm_cons, <- app_assoc, <- app_comm_cons.
  do 8 pstep. by rewrite He.
Qed.

(** Every instant of the years 0 to 9999 survives a round trip through the
    database's text. *)
Lemma parse_format_bytes t : time_ok t = true -> parse_bytes (format_bytes t) = Some t.
Proof.
  intros Hok. pose proof (time_ok_days t Hok) as Hd.
  unfold format_bytes, date_bytes. set (s := sec_of t) in *.
  destruct (civil (s / 86400)) as [[y m] d] eqn:Ec.
  pose proof (civil_year _ _ _ _ Hd Ec) as Hy.
  pose proof (civil_facts _ _ _ _ Ec) as (Hm & Hdd & Hdays).
  pose proof (days_in_bounds m y).
  rewrite year_bytes_pad by done. unfold parse_bytes.
  rewrite <- app_assoc, <- app_comm_cons, <- app_assoc, <- app_comm_cons.
  do 7 pstep.
  pose proof (parse_clock_bytes (s mod 86400) (frac_bytes (nanos_of t) ++ ["Z"%char])
    (Z.mod_pos_bound s 86400 ltac:(lia))) as Hc.
  destruct (getnum false _) as [[h s1]|]; [|done]. simpl in Hc |- *.
  destruct (in_range 0 23 h); [|done]. simpl in Hc |- *.
  destruct (skip ":" s1) as [s2|]; [|done]. simpl in Hc |- *.
  destruct (getnum true s2) as [[mi s3]|]; [|done]. simpl in Hc |- *.
  destruct (in_range 0 59 mi); [|done]. simpl in Hc |- *.
  destruct (skip ":" s3) as [s4|]; [|done]. simpl in Hc |- *.
  destruct (getnum true s4) as [[se s5]|]; [|done]. simpl in Hc |- *.
  destruct (in_range 0 59 se); [|done]. simpl in Hc |- *.
  injection Hc as Hsod ->.
  rewrite parse_frac_bytes by (apply Z.mod_pos_bound; done). simpl.
  rewrite in_range_true by lia. simpl. rewrite Hdays.
  f_equal. unfold nanos_of. pose proof (Z.div_mod t ns_per_sec ltac:(done)).
  pose proof (Z.div_mod s 86400 ltac:(lia)). unfold s, sec_of in *. lia.
Qed.

Lemma parse_format t : time_ok t = true -> parse_nano (format_nano t) = Some t.
Proof. intros. unfold parse_nano, format_nano. rewrite to_of_bytes. by apply parse_format_bytes. Qed.
#[export] Hint Resolve parse_format : owl.

(** ** The order of the text *)

Lemma bytes_lt_cons c a b : bytes_lt (c :: a) (c :: b) = bytes_lt a b.
Proof. simpl. by rewrite Z.ltb_irrefl, Z.eqb_refl. Qed.

Lemma day_key_lt a b : day_key a < day_key b <-> a < b.
Proof.
  split; [|apply day_key_mono]. intros Hk.
  destruct (Z.lt_trichotomy a b) as [?|[->|H]]; [done|lia|].
  apply day_key_mono in H. lia.
Qed.

Lemma day_key_civil days y m d :
  civil days = (y, m, d) -> day_key days = (y * 12 + (m - 1)) * 32 + d.
Proof.
  unfold civil, day_key. destruct (month_day days) as [t d'].
  intros [= <- <- <-]. pose proof (Z.div_mod t 12). lia.
Qed.

Lemma date_bytes_lt a b u v :
  -719528 <= a <= 2932896 -> -719528 <= b <= 2932896 ->
  bytes_lt (date_bytes a ++ u) (date_bytes b ++ v) =
    if a <? b then true else if a =? b then bytes_lt u v else false.
Proof.
  intros Ha Hb. unfold date_bytes.
  destruct (civil a) as [[y m] d] eqn:Ea. destruct (civil b) as [[y' m'] d'] eqn:Eb.
  pose proof (civil_year _ _ _ _ Ha Ea) as Hy. pose proof (civil_year _ _ _ _ Hb Eb) as Hy'.
  pose proof (civil_facts _ _ _ _ Ea) as (? & ? & _).
  pose proof (civil_facts _ _ _ _ Eb) as (? & ? & _).
  pose proof (days_in_bounds m y). pose proof (days_in_bounds m' y').
  pose proof (day_key_lt a b) as Hab. pose proof (day_key_lt b a) as Hba.
  rewrite (day_key_civil _ _ _ _ Ea), (day_key_civil _ _ _ _ Eb) in Hab, Hba.
  rewrite !year_bytes_pad by done.
  change (10 ^ Z.of_nat 4) with 10000.
  rewrite <- !app_assoc, <- !app_comm_cons, <- !app_assoc, <- !app_comm_cons.
  rewrite bytes_lt_pad by (change (10 ^ Z.of_nat 4) with 10000; lia).
  rewrite bytes_lt_cons, bytes_lt_pad by (change (10 ^ Z.of_nat 2) with 100; lia).
  rewrite bytes_lt_cons, bytes_lt_pad by (change (10 ^ Z.of_nat 2) with 100; lia).
  destruct (Z.ltb_spec a b), (Z.eqb_spec a b), (Z.ltb_spec y y'), (Z.eqb_spec y y'),
    (Z.ltb_spec m m'), (Z.eqb_spec m m'), (Z.ltb_spec d d'), (Z.eqb_spec d d');
    try done; exfalso; lia.
Qed.

Lemma clock_bytes_lt a b u v :
  0 <= a < 86400 -> 0 <= b < 86400 ->
  bytes_lt (clock_bytes a ++ u) (clock_bytes b ++ v) =
    if a <? b then true else if a =? b then bytes_lt u v else false.
Proof.
  intros Ha Hb. unfold clock_bytes.
  rewrite <- !app_assoc, <- !app_comm_cons, <- !app_assoc, <- !app_comm_cons.
  assert (forall x, 0 <= x < 86400 ->
    0 <= x / 3600 < 24 /\ 0 <= x / 60 mod 60 < 60 /\ 0 <= x mod 60 < 60 /\
    x = x / 3600 * 3600 + x / 60 mod 60 * 60 + x mod 60) as Hx
    by (intros; Z.div_mod_to_equations; lia).
  pose proof (Hx a Ha) as (? & ? & ? & Hea). pose proof (Hx b Hb) as (? & ? & ? & Heb).
  rewrite bytes_lt_pad by (change (10 ^ Z.of_nat 2) with 100; lia).
  rewrite bytes_lt_cons, bytes_lt_pad by (change (10 ^ Z.of_nat 2) with 100; lia).
  rewrite bytes_lt_cons, bytes_lt_pad by (change (10 ^ Z.of_nat 2) with 100; lia).
  set (h := a / 3600) in *. set (h' := b / 3600) in *.
  set (m := a / 60 mod 60) in *. set (m' := b / 60 mod 60) in *.
  set (s := a mod 60) in *. set (s' := b mod 60) in *. clearbody h h' m m' s s'.
  destruct (Z.ltb_spec a b), (Z.eqb_spec a b), (Z.ltb_spec h h'), (Z.eqb_spec h h'),
    (Z.ltb_spec m m'), (Z.eqb_spec m m'), (Z.ltb_spec s s'), (Z.eqb_spec s s');
    try done; exfalso; lia.
Qed.

(** The text is ordered by whole seconds; within one second by what follows. *)
Lemma format_bytes_lt a b :
  time_ok a = true -> time_ok b = true ->
  bytes_lt (format_bytes a) (format_bytes b) =
    if sec_of a <? sec_of b then true
    else if sec_of a =? sec_of b
         then bytes_lt (frac_bytes (nanos_of a) ++ ["Z"%char]) (frac_bytes (nanos_of b) ++ ["Z"%char])
         else false.
Proof.
  intros Ha Hb. unfold format_bytes.
  rewrite date_bytes_lt by (by apply time_ok_days).
  rewrite bytes_lt_cons, clock_bytes_lt by (apply Z.mod_pos_bound; lia).
  set (s := sec_of a). set (s' := sec_of b).
  pose proof (Z.div_mod s 86400 ltac:(lia)). pose proof (Z.div_mod s' 86400 ltac:(lia)).
  pose proof (Z.mod_pos_bound s 86400 ltac:(lia)). pose proof (Z.mod_pos_bound s' 86400 ltac:(lia)).
  destruct (Z.ltb_spec (s / 86400) (s' / 86400)), (Z.eqb_spec (s / 86400) (s' / 86400)),
    (Z.ltb_spec (s mod 86400) (s' mod 86400)), (Z.eqb_spec (s mod 86400) (s' mod 86400)),
    (Z.ltb_spec s s'), (Z.eqb_spec s s'); try done; exfalso; lia.
Qed.

Lemma sec_of_lt_inv a b : sec_of a < sec_of b -> a < b.
Proof. unfold sec_of, ns_per_sec. intros. Z.div_mod_to_equations. lia. Qed.

(** Instants of different seconds: the database's text comparison is the
    chronological one. *)
Lemma str_lt_format a b :
  time_ok a = true -> time_ok b = true -> sec_of a <> sec_of b ->
  str_lt (format_nano a) (format_nano b) = (a <? b).
Proof.
  intros Ha Hb Hne. unfold str_lt, format_nano. rewrite !to_of_bytes, format_bytes_lt by done.
  pose proof (sec_of_lt_inv a b). pose proof (sec_of_lt_inv b a).
  destruct (Z.ltb_spec (sec_of a) (sec_of b)), (Z.eqb_spec (sec_of a) (sec_of b)),
    (Z.ltb_spec a b); try done; lia.
Qed.

(** In general the text order may be wrong by less than one second. *)
Lemma str_lt_format_sound a b :
  time_ok a = true -> time_ok b = true ->
  str_lt (format_nano a) (format_nano b) = true -> a < b + ns_per_sec.
Proof.
  intros Ha Hb. unfold str_lt, format_nano. rewrite !to_of_bytes, format_bytes_lt by done.
  destruct (Z.ltb_spec (sec_of a) (sec_of b)), (Z.eqb_spec (sec_of a) (sec_of b)); [..|done];
    intros _; unfold sec_of, ns_per_sec in *; Z.div_mod_to_equations; lia.
Qed.
Lemma str_lt_format_complete a b :
  time_ok a = true -> time_ok b = true ->
  a + ns_per_sec <= b -> str_lt (format_nano a) (format_nano b) = true.
Proof.
  intros Ha Hb Hab.
  assert (sec_of a < sec_of b) by (unfold sec_of, ns_per_sec in *; Z.div_mod_to_equations; lia).
  rewrite str_lt_format by (done || lia). apply Z.ltb_lt. unfold ns_per_sec in *. lia.
Qed.

(** ** Second precision: [time.RFC3339] *)

Definition format_rfc3339 (t : time) : string :=
  let s := sec_of t in
  of_bytes (date_bytes (s / 86400) ++ "T"%char :: clock_bytes (s mod 86400) ++ ["Z"%char]).

(** [time.Parse(time.RFC3339, value)] accepts the same texts: a fraction may
    follow the seconds although the layout names none. *)
Definition parse_rfc3339 (s : string) : option time := parse_nano s.

(** What second precision keeps of an instant. *)
Definition floor_sec (t : time) : time := sec_of t * ns_per_sec.

Lemma sec_of_floor t : sec_of (floor_sec t) = sec_of t.
Proof. unfold floor_sec, sec_of, ns_per_sec. apply Z.div_mul. lia. Qed.
Lemma floor_sec_le t : floor_sec t <= t < floor_sec t + ns_per_sec.
Proof. unfold floor_sec, sec_of, ns_per_sec. Z.div_mod_to_equations. lia. Qed.
Lemma floor_sec_lt a b : sec_of a < sec_of b <-> a < floor_sec b.
Proof. unfold floor_sec, sec_of, ns_per_sec. split; intros; Z.div_mod_to_equations; lia. Qed.
Lemma format_rfc3339_nano t : format_rfc3339 t = format_nano (floor_sec t).
Proof.
  unfold format_rfc3339, format_nano, format_bytes. rewrite sec_of_floor.
  replace (nanos_of (floor_sec t)) with 0; [done|].
  unfold nanos_of, floor_sec. by rewrite Z.mod_mul.
Qed.
Lemma time_ok_floor t : time_ok t = true -> time_ok (floor_sec t) = true.
Proof.
  unfold time_ok, floor_sec, sec_of, ns_per_sec. rewrite !andb_true_iff, ?Z.leb_le, ?Z.ltb_lt.
  intros. split; Z.div_mod_to_equations; lia.
Qed.
Lemma parse_rfc3339_format t :
  time_ok t = true -> parse_rfc3339 (format_rfc3339 t) = Some (floor_sec t).
Proof.
  intros Ht. unfold parse_rfc3339. rewrite format_rfc3339_nano. by apply parse_format, time_ok_floor.
Qed.
Lemma str_lt_rfc3339 a b :
  time_ok a = true -> time_ok b = true ->
  str_lt (format_rfc3339 a) (format_rfc3339 b) = (sec_of a <? sec_of b).
Proof.
  intros Ha Hb. rewrite !format_rfc3339_nano. unfold str_lt, format_nano. rewrite !to_of_bytes.
  rewrite format_bytes_lt by by apply time_ok_floor. rewrite !sec_of_floor.
  destruct (sec_of a <? sec_of b) eqn:Hs; [done|]. destruct (sec_of a =? sec_of b) eqn:He; [|done].
  replace (nanos_of (floor_sec a)) with (nanos_of (floor_sec b)); [apply bytes_lt_irrefl|].
  unfold nanos_of, floor_sec. by rewrite !Z.mod_mul.
Qed.

(** ** Layouts without a zone: [2006-01-02T15:04:05] and [2006-01-02T15:04] *)

Definition parse_date_minutes (s : bytes) : option (Z * Z * Z * Z * Z * bytes) :=
  '(y, s) ← parse_year s; s ← skip "-" s;
  '(mo, s) ← getnum true s; _ ← in_range 1 12 mo; s ← skip "-" s;
  '(d, s) ← getnum true s; s ← skip "T" s;
  '(h, s) ← getnum false s; _ ← in_range 0 23 h; s ← skip ":" s;
  '(mi, s) ← getnum true s; _ ← in_range 0 59 mi;
  _ ← in_range 1 (days_in mo y) d;
  Some (y, mo, d, h, mi, s).
Definition parse_local_seconds (s : string) : option time :=
  '(y, mo, d, h, mi, s) ← parse_date_minutes (to_bytes s); s ← skip ":" s;
  '(se, s) ← getnum true s; _ ← in_range 0 59 se;
  let '(ns, s) := parse_frac s in
  match s with
  | [] => Some ((days_of_civil y mo d * 86400 + h * 3600 + mi * 60 + se) * ns_per_sec + ns)
  | _ => None
  end.
Definition parse_local_minutes (s : string) : option time :=
  '(y, mo, d, h, mi, s) ← parse_date_minutes (to_bytes s);
  match s with
  | [] => Some ((days_of_civil y mo d * 86400 + h * 3600 + mi * 60) * ns_per_sec)
  | _ => None
  end.

Example local_ex :
  parse_local_seconds "2026-01-01T00:00:10" = Some (1767225610 * ns_per_sec) /\
  parse_local_minutes "2026-01-01T00:01" = Some (1767225660 * ns_per_sec) /\
  parse_local_minutes "2026-02-30T00:01" = None.
Proof. by vm_compute. Qed.

(** ** [time.Duration] arithmetic and [time.Date] *)

(** An [int64]. *)
Definition wrap64 (z : Z) : Z := (z + 2 ^ 63) mod 2 ^ 64 - 2 ^ 63.
(** [time.Duration(n) * unit] *)
Definition duration (n unit : Z) : Z := wrap64 (n * unit).

Definition ns_per_day : Z := 86400 * ns_per_sec.
(** [Time.Date], [Time.Day] and the time within the day, of a UTC time. *)
Definition date_of (t : time) : Z * Z * Z := civil (t / ns_per_day).
Definition day_of (t : time) : Z := (date_of t).2.
(** [time.Date(y, m, d, hour, min, sec, 0, time.UTC)]; months and days outside
    their range carry over. *)
Definition time_date (y m d second_of_day : Z) : time :=
  (days_of_civil y m d * 86400 + second_of_day) * ns_per_sec.
(** [Hour], [Minute] and [Second] as seconds of the day. *)
Definition second_of_day (t : time) : Z := sec_of t mod 86400.

(** ** Months of the calendar

    The first days of the months follow each other at the months' lengths, so a
    valid date and its day number determine each other. *)

(** The first day of the month with index [t] (12 * year + month - 1). *)
Definition month_start (t : Z) : Z := days_of_civil (t / 12) (t mod 12 + 1) 1.
Definition month_len (t : Z) : Z := days_in (t mod 12 + 1) (t / 12).

Lemma month_index y m :
  1 <= m <= 12 -> (y * 12 + (m - 1)) / 12 = y /\ (y * 12 + (m - 1)) mod 12 = m - 1.
Proof.
  intros Hm. rewrite (Z.add_comm (y * 12)), Z.div_add, Z.mod_add by lia.
  rewrite (Z.div_small (m - 1)), (Z.mod_small (m - 1)) by lia. lia.
Qed.

Lemma days_of_civil_start y m d :
  1 <= m <= 12 -> days_of_civil y m d = month_start (y * 12 + (m - 1)) + d - 1.
Proof.
  intros Hm. unfold month_start. destruct (month_index y m Hm) as [-> ->].
  unfold days_of_civil, era_day.
  replace (m - 1 + 1) with m by lia. lia.
Qed.

(** The same for month 13, which is the next January. *)
Lemma days_of_civil_next y m d :
  1 <= m <= 12 -> days_of_civil y (m + 1) d = month_start (y * 12 + (m - 1) + 1) + d - 1.
Proof.
  intros Hm. destruct (Z.eq_dec m 12) as [->|Hn].
  - transitivity (days_of_civil (y + 1) 1 d).
    + unfold days_of_civil. f_equal. replace (y * 12 + (12 + 1 - 1) - 2) with ((y + 1) * 12 + (1 - 1) - 2) by lia.
      done.
    + rewrite days_of_civil_start by lia. do 3 f_equal. lia.
  - rewrite days_of_civil_start by lia. do 3 f_equal. lia.
Qed.

(** Consecutive months. *)
Lemma month_start_next t : month_start (t + 1) = month_start t + month_len t.
Proof.
  unfold month_start, month_len, days_of_civil.
  set (u := t - 2). assert (Hu : forall s, s / 12 * 12 + (s mod 12 + 1 - 1) - 2 = s - 2).
  { intros s. pose proof (Z.div_mod s 12). lia. }
  rewrite !Hu. replace (t + 1 - 2) with (u + 1) by (unfold u; lia). fold u.
  replace (t / 12) with ((u + 2) / 12) by (f_equal; unfold u; lia).
  replace (t mod 12) with ((u + 2) mod 12) by (f_equal; unfold u; lia). clear Hu. clearbody u. clear t.
  pose proof (Z.div_mod u 12 ltac:(lia)) as Hd. pose proof (Z.mod_pos_bound u 12 ltac:(lia)) as Hm.
  set (y := u / 12) in *. set (mp := u mod 12) in *.
  assert (H2 : (u + 2) / 12 = y + (mp + 2) / 12 /\ (u + 2) mod 12 = (mp + 2) mod 12).
  { rewrite Hd. replace (12 * y + mp + 2) with (mp + 2 + y * 12) by lia.
    rewrite Z.div_add, Z.mod_add by lia. lia. }
  destruct H2 as [-> ->].
  assert (Hy : y mod 400 + y / 400 * 400 = y) by (pose proof (Z.div_mod y 400); lia).
  assert (H1 : (mp < 11 /\ (u + 1) / 12 = y /\ (u + 1) mod 12 = mp + 1)
            \/ (mp = 11 /\ (u + 1) / 12 = y + 1 /\ (u + 1) mod 12 = 0)).
  { clear -Hd Hm. clearbody y mp. Z.div_mod_to_equations. lia. }
  destruct H1 as [(Hlt & -> & ->)|(-> & -> & ->)].
  - clearbody y mp. clear Hd u. unfold era_day.
    assert (mp = 0 \/ mp = 1 \/ mp = 2 \/ mp = 3 \/ mp = 4 \/ mp = 5 \/ mp = 6 \/ mp = 7
      \/ mp = 8 \/ mp = 9 \/ mp = 10) as Hc by lia.
    destruct_or!; subst mp; simpl; unfold days_in; simpl;
      generalize (y / 400) (y mod 400 / 4) (y mod 400 / 100) (y mod 400); intros;
      Z.div_mod_to_equations; lia.
  - clearbody y. clear Hd u Hm. unfold era_day.
    change ((11 + 2) / 12) with 1. change ((11 + 2) mod 12 + 1) with 2.
    unfold days_in, is_leap. simpl.
    destruct ((y + 1) mod 4 =? 0) eqn:E4, ((y + 1) mod 100 =? 0) eqn:E1, ((y + 1) mod 400 =? 0) eqn:E0;
      rewrite ?Z.eqb_eq, ?Z.eqb_neq in *; simpl; clear Hy; Z.div_mod_to_equations; lia.
Qed.

Lemma month_len_bounds t : 28 <= month_len t <= 31.
Proof. apply days_in_bounds. Qed.

Lemma month_start_le t n : month_start t + 28 * Z.of_nat n <= month_start (t + Z.of_nat n).
Proof.
  induction n as [|n IH]; [by rewrite !Z.add_0_r|].
  rewrite Nat2Z.inj_succ. replace (t + Z.succ (Z.of_nat n)) with (t + Z.of_nat n + 1) by lia.
  rewrite month_start_next. pose proof (month_len_bounds (t + Z.of_nat n)). lia.
Qed.
(** An earlier month ends before a later one starts. *)
Lemma month_start_lt t u : t < u -> month_start t + month_len t <= month_start u.
Proof.
  intros H. rewrite <- month_start_next. pose proof (month_start_le (t + 1) (Z.to_nat (u - t - 1))) as Hle.
  rewrite Z2Nat.id in Hle by lia. replace (t + 1 + (u - t - 1)) with u in Hle by lia. lia.
Qed.

(** The date of a day that was given by its date. *)
Lemma civil_start t d :
  1 <= d <= month_len t -> civil (month_start t + d - 1) = (t / 12, t mod 12 + 1, d).
Proof.
  intros Hd. destruct (civil (month_start t + d - 1)) as [[y m] d'] eqn:E.
  apply civil_facts in E as (Hm & Hd' & E). rewrite days_of_civil_start in E by done.
  set (u := y * 12 + (m - 1)) in *.
  destruct (month_index y m Hm) as [Hy Hmm]. fold u in Hy, Hmm.
  assert (month_len u = days_in m y) as Hlen by (unfold month_len; rewrite Hy, Hmm; f_equal; lia).
  destruct (Z.lt_trichotomy t u) as [Hlt|[->|Hlt]].
  - apply month_start_lt in Hlt. lia.
  - rewrite Hy, Hmm. assert (d = d') as -> by lia. repeat f_equal. lia.
  - apply month_start_lt in Hlt. lia.
Qed.
Lemma civil_days_of_civil y m d :
  1 <= m <= 12 -> 1 <= d <= days_in m y -> civil (days_of_civil y m d) = (y, m, d).
Proof.
  intros Hm Hd. rewrite days_of_civil_start by done. set (t := y * 12 + (m - 1)).
  destruct (month_index y m Hm) as [Hy Hmm]. fold t in Hy, Hmm.
  rewrite civil_start; rewrite ?Hy, ?Hmm; [repeat f_equal; lia|].
  unfold month_len. rewrite Hy, Hmm. by replace (m - 1 + 1) with m by lia.
Qed.

(** [time.Date] and [Time.Date]. *)
Lemma date_of_time_date y m d s :
  1 <= m <= 12 -> 1 <= d <= days_in m y -> 0 <= s < 86400 ->
  date_of (time_date y m d s) = (y, m, d) /\ second_of_day (time_date y m d s) = s.
Proof.
  intros Hm Hd Hs. unfold date_of, time_date, second_of_day, sec_of, ns_per_day.
  rewrite Z.div_mul by done. split.
  - rewrite <- (civil_days_of_civil y m d) by done. f_equal.
    rewrite Z.div_mul_cancel_r by done.
    rewrite Z.add_comm, Z.div_add by done. rewrite (Z.div_small s) by done. lia.
  - rewrite Z.add_comm, Z.mod_add by done. by apply Z.mod_small.
Qed.
Lemma second_of_day_bound t : 0 <= second_of_day t < 86400.
Proof. by apply Z.mod_pos_bound. Qed.
Lemma day_of_last y m : 1 <= m <= 12 -> day_of (time_date y (m + 1) 0 0) = days_in m y.
Proof.
  intros Hm. unfold day_of, date_of, time_date, ns_per_day. rewrite Z.div_mul_cancel_r by done.
  rewrite Z.add_0_r, Z.div_mul by done. rewrite days_of_civil_next by done.
  rewrite month_start_next. set (t := y * 12 + (m - 1)).
  destruct (month_index y m Hm) as [Hy Hmm]. fold t in Hy, Hmm.
  assert (month_len t = days_in m y) as Hlen
    by (unfold month_len; rewrite Hy, Hmm; f_equal; lia).
  replace (month_start t + month_len t + 0 - 1) with (month_start t + month_len t - 1) by lia.
  pose proof (month_len_bounds t). rewrite civil_start by lia. simpl. done.
Qed.
