(* ===== verification/Schema.v ===== *)
(** * The database: tables, rows and the SQL statements of the invitation domain

    Each table is a finite map from the primary key to the row's other columns,
    as the migrations under [internal/database/migrations] create it; time
    columns hold the text the program writes.  A statement that violates a
    PRIMARY KEY, UNIQUE, CHECK or (with [_foreign_keys=ON]) REFERENCES
    constraint has no result. *)

From S2P Require Import Prelude.
From S2P Require Import GoStr.
From S2P Require Import GoTime.

Local Open Scope Z_scope.

(** ** Rows *)

Record UserRow := {
  u_email : string; u_norm_email : string; u_display_name : string; u_timezone : string;
  u_role : string; u_status : string; u_invited_by : option string;
  u_activated_at : option string; u_last_login_at : option string;
  u_created_at : string; u_updated_at : string }.

Record MagicLinkRow := {
  ml_token_hash : string; ml_user_id : string; ml_expires_at : string;
  ml_used_at : option string; ml_created_at : string }.

Record UserSessionRow := {
  us_token_hash : string; us_user_id : string; us_expires_at : string;
  us_created_at : string }.

Record EventRow := {
  e_title : string; e_description : string; e_event_date : string;
  e_end_date : option string; e_location : string; e_timezone : string;
  e_status : string; e_retention_days : Z; e_show_headcount : bool; e_show_guest_list : bool;
  e_rsvp_deadline : option string; e_series_id : option string; e_series_index : option Z;
  e_series_override : bool; e_created_at : string; e_updated_at : string }.

Record QuestionRow := {
  q_event_id : string; q_label : string; q_type : string; q_options : string;
  q_required : bool; q_scope : string; q_sort_order : Z; q_deleted : bool;
  q_created_at : string; q_updated_at : string }.

Record OpenRow := {
  o_event_id : string; o_access_id : string; o_token_version : Z; o_enabled : bool;
  o_opens_at : option string; o_closes_at : option string; o_max_party_size : Z;
  o_capacity : option Z; o_created_by : option string; o_revoked_at : option string;
  o_created_at : string; o_updated_at : string }.

Record InvitationRow := {
  i_event_id : string; i_label : string; i_contact_email : option string;
  i_norm_email : option string; i_contact_phone : option string;
  i_norm_phone : option string; i_method : string; i_allowance : Z;
  i_source : string; i_open_id : option string; i_access_id : string;
  i_token_version : Z; i_created_by : option string; i_revoked_at : option string;
  i_reason : option string; i_created_at : string; i_updated_at : string }.

Record GuestRow := {
  g_invitation_id : string; g_name : string; g_origin : string; g_sort_order : Z;
  g_removed_at : option string; g_created_at : string; g_updated_at : string }.

Record ResponseRow := {
  r_invitation_id : string; r_version : Z; r_submitted_at : option string;
  r_created_at : string; r_updated_at : string }.

Record GuestResponseRow := {
  gr_response_id : string; gr_guest_id : string; gr_attendance : string;
  gr_created_at : string; gr_updated_at : string }.

Record InvAnswerRow := {
  ia_invitation_id : string; ia_question_id : string; ia_answer : string;
  ia_created_at : string; ia_updated_at : string }.

Record GuestAnswerRow := {
  ga_guest_id : string; ga_question_id : string; ga_answer : string;
  ga_created_at : string; ga_updated_at : string }.

Record SessionRow := {
  s_invitation_id : string; s_token_hash : string; s_issued_version : Z;
  s_expires_at : string; s_last_used_at : option string; s_revoked_at : option string;
  s_created_at : string }.

Record RecoveryTokenRow := {
  rt_invitation_id : string; rt_token_hash : string; rt_destination : string;
  rt_expires_at : string; rt_consumed_at : option string; rt_created_at : string }.

Record RecoveryAttemptRow := {
  ra_event_id : string; ra_source : string; ra_destination : string;
  ra_created_at : string }.

Record MessageRow := {
  m_event_id : string; m_sender : option string; m_group : string;
  m_subject : string; m_body : string; m_created_at : string }.

Record CardRow := {
  c_event_id : string; c_template : string; c_heading : string; c_body : string;
  c_footer : string; c_primary : string; c_secondary : string; c_font : string;
  c_custom : string; c_created_at : string; c_updated_at : string }.

Record LogRow := {
  l_event_id : string; l_invitation_id : option string; l_channel : string; l_provider : string;
  l_status : string; l_error : option string; l_sent_at : option string; l_created_at : string;
  l_recipient : string; l_subject : string; l_message_id : option string;
  l_delivery_status : string; l_delivered_at : option string; l_opened_at : option string;
  l_clicked_at : option string; l_bounced_at : option string; l_bounce_type : option string;
  l_complaint_at : option string }.

Record MembershipRow := {
  em_event_id : string; em_user_id : string; em_role : string; em_granted_by : string;
  em_created_at : string; em_updated_at : string }.

Record AccountInviteRow := {
  ai_target : string; ai_norm_email : string; ai_token_hash : string; ai_invited_by : string;
  ai_event_id : option string; ai_event_role : option string; ai_expires_at : string;
  ai_accepted_at : option string; ai_revoked_at : option string; ai_created_at : string }.

Record AuditRow := {
  al_actor : option string; al_actor_kind : string; al_action : string;
  al_target : option string; al_event : option string; al_metadata : string;
  al_created_at : string }.

Record InstanceRow := {
  in_name : string; in_timezone : string; in_allow_signups : bool; in_support_email : string;
  in_setup_completed_at : option string; in_created_at : string; in_updated_at : string }.

Record SeriesRow := {
  sr_owner : string; sr_title : string; sr_description : string; sr_location : string;
  sr_timezone : string; sr_event_time : string; sr_duration : option Z; sr_rule : string;
  sr_end : option string; sr_max : option Z; sr_status : string; sr_retention_days : Z;
  sr_show_headcount : bool; sr_show_guest_list : bool; sr_deadline_hours : option Z;
  sr_created_at : string; sr_updated_at : string }.

Record ReminderRow := {
  rm_event_id : string; rm_remind_at : string; rm_group : string; rm_message : string;
  rm_status : string; rm_created_at : string; rm_updated_at : string }.

Record WebhookRow := {
  wh_event_id : string; wh_url : string; wh_secret : string; wh_types : string;
  wh_description : string; wh_enabled : bool; wh_created_at : string; wh_updated_at : string }.

Record DeliveryRow := {
  wd_webhook_id : string; wd_event_type : string; wd_payload : string;
  wd_response_status : option Z; wd_response_body : option string; wd_error : option string;
  wd_attempt : Z; wd_delivered_at : option string; wd_created_at : string }.

Record SuppressionRow := {
  sp_email : string; sp_event_id : option string; sp_reason : string; sp_created_at : string }.

Record UnsubscribeRow := {
  ut_token_hash : string; ut_email : string; ut_event_id : option string;
  ut_created_at : string }.

(** ** The database *)

Record Database := MkDatabase {
  users : gmap string UserRow;
  events : gmap string EventRow;
  event_questions : gmap string QuestionRow;
  open_enrollments : gmap string OpenRow;
  invitations : gmap string InvitationRow;
  guests : gmap string GuestRow;
  rsvp_responses : gmap string ResponseRow;
  guest_responses : gmap string GuestResponseRow;
  invitation_answers : gmap string InvAnswerRow;
  guest_answers : gmap string GuestAnswerRow;
  invitation_sessions : gmap string SessionRow;
  invitation_recovery_tokens : gmap string RecoveryTokenRow;
  invitation_recovery_attempts : gmap string RecoveryAttemptRow;
  invitation_messages : gmap string MessageRow;
  invite_cards : gmap string CardRow;
  notification_log : gmap string LogRow;
  magic_links : gmap string MagicLinkRow;
  sessions : gmap string UserSessionRow;
  event_memberships : gmap string MembershipRow;
  account_invites : gmap string AccountInviteRow;
  admin_audit_log : gmap string AuditRow;
  instances : gmap string InstanceRow;
  event_series : gmap string SeriesRow;
  reminders : gmap string ReminderRow;
  webhooks : gmap string WebhookRow;
  webhook_deliveries : gmap string DeliveryRow;
  email_suppressions : gmap string SuppressionRow;
  unsubscribe_tokens : gmap string UnsubscribeRow
}.

Definition set_users (f : gmap string UserRow -> gmap string UserRow) (d : Database) : Database :=
  MkDatabase (f (d.(users))) d.(events) d.(event_questions) d.(open_enrollments) d.(invitations)
    d.(guests) d.(rsvp_responses) d.(guest_responses) d.(invitation_answers) d.(guest_answers)
    d.(invitation_sessions) d.(invitation_recovery_tokens) d.(invitation_recovery_attempts)
    d.(invitation_messages) d.(invite_cards) d.(notification_log) d.(magic_links) d.(sessions)
    d.(event_memberships) d.(account_invites) d.(admin_audit_log) d.(instances) d.(event_series)
    d.(reminders) d.(webhooks) d.(webhook_deliveries) d.(email_suppressions)
    d.(unsubscribe_tokens).
Definition set_events (f : gmap string EventRow -> gmap string EventRow)
    (d : Database) : Database :=
  MkDatabase d.(users) (f (d.(events))) d.(event_questions) d.(open_enrollments) d.(invitations)
    d.(guests) d.(rsvp_responses) d.(guest_responses) d.(invitation_answers) d.(guest_answers)
    d.(invitation_sessions) d.(invitation_recovery_tokens) d.(invitation_recovery_attempts)
    d.(invitation_messages) d.(invite_cards) d.(notification_log) d.(magic_links) d.(sessions)
    d.(event_memberships) d.(account_invites) d.(admin_audit_log) d.(instances) d.(event_series)
    d.(reminders) d.(webhooks) d.(webhook_deliveries) d.(email_suppressions)
    d.(unsubscribe_tokens).
Definition set_magic_links (f : gmap string MagicLinkRow -> gmap string MagicLinkRow)
    (d : Database) : Database :=
  MkDatabase d.(users) d.(events) d.(event_questions) d.(open_enrollments) d.(invitations)
    d.(guests) d.(rsvp_responses) d.(guest_responses) d.(invitation_answers) d.(guest_answers)
    d.(invitation_sessions) d.(invitation_recovery_tokens) d.(invitation_recovery_attempts)
    d.(invitation_messages) d.(invite_cards) d.(notification_log) (f (d.(magic_links)))
    d.(sessions) d.(event_memberships) d.(account_invites) d.(admin_audit_log) d.(instances)
    d.(event_series) d.(reminders) d.(webhooks) d.(webhook_deliveries) d.(email_suppressions)
    d.(unsubscribe_tokens).
Definition set_sessions (f : gmap string UserSessionRow -> gmap string UserSessionRow)
    (d : Database) : Database :=
  MkDatabase d.(users) d.(events) d.(event_questions) d.(open_enrollments) d.(invitations)
    d.(guests) d.(rsvp_responses) d.(guest_responses) d.(invitation_answers) d.(guest_answers)
    d.(invitation_sessions) d.(invitation_recovery_tokens) d.(invitation_recovery_attempts)
    d.(invitation_messages) d.(invite_cards) d.(notification_log) d.(magic_links)
    (f (d.(sessions))) d.(event_memberships) d.(account_invites) d.(admin_audit_log) d.(instances)
    d.(event_series) d.(reminders) d.(webhooks) d.(webhook_deliveries) d.(email_suppressions)
    d.(unsubscribe_tokens).
Definition set_event_memberships (f : gmap string MembershipRow -> gmap string MembershipRow)
    (d : Database) : Database :=
  MkDatabase d.(users) d.(events) d.(event_questions) d.(open_enrollments) d.(invitations)
    d.(guests) d.(rsvp_responses) d.(guest_responses) d.(invitation_answers) d.(guest_answers)
    d.(invitation_sessions) d.(invitation_recovery_tokens) d.(invitation_recovery_attempts)
    d.(invitation_messages) d.(invite_cards) d.(notification_log) d.(magic_links) d.(sessions)
    (f (d.(event_memberships))) d.(account_invites) d.(admin_audit_log) d.(instances)
    d.(event_series) d.(reminders) d.(webhooks) d.(webhook_deliveries) d.(email_suppressions)
    d.(unsubscribe_tokens).
Definition set_account_invites (f : gmap string AccountInviteRow -> gmap string AccountInviteRow)
    (d : Database) : Database :=
  MkDatabase d.(users) d.(events) d.(event_questions) d.(open_enrollments) d.(invitations)
    d.(guests) d.(rsvp_responses) d.(guest_responses) d.(invitation_answers) d.(guest_answers)
    d.(invitation_sessions) d.(invitation_recovery_tokens) d.(invitation_recovery_attempts)
    d.(invitation_messages) d.(invite_cards) d.(notification_log) d.(magic_links) d.(sessions)
    d.(event_memberships) (f (d.(account_invites))) d.(admin_audit_log) d.(instances)
    d.(event_series) d.(reminders) d.(webhooks) d.(webhook_deliveries) d.(email_suppressions)
    d.(unsubscribe_tokens).
Definition set_admin_audit_log (f : gmap string AuditRow -> gmap string AuditRow)
    (d : Database) : Database :=
  MkDatabase d.(users) d.(events) d.(event_questions) d.(open_enrollments) d.(invitations)
    d.(guests) d.(rsvp_responses) d.(guest_responses) d.(invitation_answers) d.(guest_answers)
    d.(invitation_sessions) d.(invitation_recovery_tokens) d.(invitation_recovery_attempts)
    d.(invitation_messages) d.(invite_cards) d.(notification_log) d.(magic_links) d.(sessions)
    d.(event_memberships) d.(account_invites) (f (d.(admin_audit_log))) d.(instances)
    d.(event_series) d.(reminders) d.(webhooks) d.(webhook_deliveries) d.(email_suppressions)
    d.(unsubscribe_tokens).
Definition set_instances (f : gmap string InstanceRow -> gmap string InstanceRow)
    (d : Database) : Database :=
  MkDatabase d.(users) d.(events) d.(event_questions) d.(open_enrollments) d.(invitations)
    d.(guests) d.(rsvp_responses) d.(guest_responses) d.(invitation_answers) d.(guest_answers)
    d.(invitation_sessions) d.(invitation_recovery_tokens) d.(invitation_recovery_attempts)
    d.(invitation_messages) d.(invite_cards) d.(notification_log) d.(magic_links) d.(sessions)
    d.(event_memberships) d.(account_invites) d.(admin_audit_log) (f (d.(instances)))
    d.(event_series) d.(reminders) d.(webhooks) d.(webhook_deliveries) d.(email_suppressions)
    d.(unsubscribe_tokens).
Definition set_event_series (f : gmap string SeriesRow -> gmap string SeriesRow)
    (d : Database) : Database :=
  MkDatabase d.(users) d.(events) d.(event_questions) d.(open_enrollments) d.(invitations)
    d.(guests) d.(rsvp_responses) d.(guest_responses) d.(invitation_answers) d.(guest_answers)
    d.(invitation_sessions) d.(invitation_recovery_tokens) d.(invitation_recovery_attempts)
    d.(invitation_messages) d.(invite_cards) d.(notification_log) d.(magic_links) d.(sessions)
    d.(event_memberships) d.(account_invites) d.(admin_audit_log) d.(instances)
    (f (d.(event_series))) d.(reminders) d.(webhooks) d.(webhook_deliveries)
    d.(email_suppressions) d.(unsubscribe_tokens).
Definition set_open_enrollments (f : gmap string OpenRow -> gmap string OpenRow)
    (d : Database) : Database :=
  MkDatabase d.(users) d.(events) d.(event_questions) (f (d.(open_enrollments))) d.(invitations)
    d.(guests) d.(rsvp_responses) d.(guest_responses) d.(invitation_answers) d.(guest_answers)
    d.(invitation_sessions) d.(invitation_recovery_tokens) d.(invitation_recovery_attempts)
    d.(invitation_messages) d.(invite_cards) d.(notification_log) d.(magic_links) d.(sessions)
    d.(event_memberships) d.(account_invites) d.(admin_audit_log) d.(instances) d.(event_series)
    d.(reminders) d.(webhooks) d.(webhook_deliveries) d.(email_suppressions)
    d.(unsubscribe_tokens).
Definition set_invitations (f : gmap string InvitationRow -> gmap string InvitationRow)
    (d : Database) : Database :=
  MkDatabase d.(users) d.(events) d.(event_questions) d.(open_enrollments) (f (d.(invitations)))
    d.(guests) d.(rsvp_responses) d.(guest_responses) d.(invitation_answers) d.(guest_answers)
    d.(invitation_sessions) d.(invitation_recovery_tokens) d.(invitation_recovery_attempts)
    d.(invitation_messages) d.(invite_cards) d.(notification_log) d.(magic_links) d.(sessions)
    d.(event_memberships) d.(account_invites) d.(admin_audit_log) d.(instances) d.(event_series)
    d.(reminders) d.(webhooks) d.(webhook_deliveries) d.(email_suppressions)
    d.(unsubscribe_tokens).
Definition set_guests (f : gmap string GuestRow -> gmap string GuestRow)
    (d : Database) : Database :=
  MkDatabase d.(users) d.(events) d.(event_questions) d.(open_enrollments) d.(invitations)
    (f (d.(guests))) d.(rsvp_responses) d.(guest_responses) d.(invitation_answers)
    d.(guest_answers) d.(invitation_sessions) d.(invitation_recovery_tokens)
    d.(invitation_recovery_attempts) d.(invitation_messages) d.(invite_cards) d.(notification_log)
    d.(magic_links) d.(sessions) d.(event_memberships) d.(account_invites) d.(admin_audit_log)
    d.(instances) d.(event_series) d.(reminders) d.(webhooks) d.(webhook_deliveries)
    d.(email_suppressions) d.(unsubscribe_tokens).
Definition set_rsvp_responses (f : gmap string ResponseRow -> gmap string ResponseRow)
    (d : Database) : Database :=
  MkDatabase d.(users) d.(events) d.(event_questions) d.(open_enrollments) d.(invitations)
    d.(guests) (f (d.(rsvp_responses))) d.(guest_responses) d.(invitation_answers)
    d.(guest_answers) d.(invitation_sessions) d.(invitation_recovery_tokens)
    d.(invitation_recovery_attempts) d.(invitation_messages) d.(invite_cards) d.(notification_log)
    d.(magic_links) d.(sessions) d.(event_memberships) d.(account_invites) d.(admin_audit_log)
    d.(instances) d.(event_series) d.(reminders) d.(webhooks) d.(webhook_deliveries)
    d.(email_suppressions) d.(unsubscribe_tokens).
Definition set_guest_responses (f : gmap string GuestResponseRow -> gmap string GuestResponseRow)
    (d : Database) : Database :=
  MkDatabase d.(users) d.(events) d.(event_questions) d.(open_enrollments) d.(invitations)
    d.(guests) d.(rsvp_responses) (f (d.(guest_responses))) d.(invitation_answers)
    d.(guest_answers) d.(invitation_sessions) d.(invitation_recovery_tokens)
    d.(invitation_recovery_attempts) d.(invitation_messages) d.(invite_cards) d.(notification_log)
    d.(magic_links) d.(sessions) d.(event_memberships) d.(account_invites) d.(admin_audit_log)
    d.(instances) d.(event_series) d.(reminders) d.(webhooks) d.(webhook_deliveries)
    d.(email_suppressions) d.(unsubscribe_tokens).
Definition set_invitation_answers (f : gmap string InvAnswerRow -> gmap string InvAnswerRow)
    (d : Database) : Database :=
  MkDatabase d.(users) d.(events) d.(event_questions) d.(open_enrollments) d.(invitations)
    d.(guests) d.(rsvp_responses) d.(guest_responses) (f (d.(invitation_answers)))
    d.(guest_answers) d.(invitation_sessions) d.(invitation_recovery_tokens)
    d.(invitation_recovery_attempts) d.(invitation_messages) d.(invite_cards) d.(notification_log)
    d.(magic_links) d.(sessions) d.(event_memberships) d.(account_invites) d.(admin_audit_log)
    d.(instances) d.(event_series) d.(reminders) d.(webhooks) d.(webhook_deliveries)
    d.(email_suppressions) d.(unsubscribe_tokens).
Definition set_guest_answers (f : gmap string GuestAnswerRow -> gmap string GuestAnswerRow)
    (d : Database) : Database :=
  MkDatabase d.(users) d.(events) d.(event_questions) d.(open_enrollments) d.(invitations)
    d.(guests) d.(rsvp_responses) d.(guest_responses) d.(invitation_answers)
    (f (d.(guest_answers))) d.(invitation_sessions) d.(invitation_recovery_tokens)
    d.(invitation_recovery_attempts) d.(invitation_messages) d.(invite_cards) d.(notification_log)
    d.(magic_links) d.(sessions) d.(event_memberships) d.(account_invites) d.(admin_audit_log)
    d.(instances) d.(event_series) d.(reminders) d.(webhooks) d.(webhook_deliveries)
    d.(email_suppressions) d.(unsubscribe_tokens).
Definition set_invitation_sessions (f : gmap string SessionRow -> gmap string SessionRow)
    (d : Database) : Database :=
  MkDatabase d.(users) d.(events) d.(event_questions) d.(open_enrollments) d.(invitations)
    d.(guests) d.(rsvp_responses) d.(guest_responses) d.(invitation_answers) d.(guest_answers)
    (f (d.(invitation_sessions))) d.(invitation_recovery_tokens) d.(invitation_recovery_attempts)
    d.(invitation_messages) d.(invite_cards) d.(notification_log) d.(magic_links) d.(sessions)
    d.(event_memberships) d.(account_invites) d.(admin_audit_log) d.(instances) d.(event_series)
    d.(reminders) d.(webhooks) d.(webhook_deliveries) d.(email_suppressions)
    d.(unsubscribe_tokens).
Definition set_invitation_recovery_tokens (f : gmap string RecoveryTokenRow -> gmap string RecoveryTokenRow)
    (d : Database) : Database :=
  MkDatabase d.(users) d.(events) d.(event_questions) d.(open_enrollments) d.(invitations)
    d.(guests) d.(rsvp_responses) d.(guest_responses) d.(invitation_answers) d.(guest_answers)
    d.(invitation_sessions) (f (d.(invitation_recovery_tokens))) d.(invitation_recovery_attempts)
    d.(invitation_messages) d.(invite_cards) d.(notification_log) d.(magic_links) d.(sessions)
    d.(event_memberships) d.(account_invites) d.(admin_audit_log) d.(instances) d.(event_series)
    d.(reminders) d.(webhooks) d.(webhook_deliveries) d.(email_suppressions)
    d.(unsubscribe_tokens).
Definition set_invitation_recovery_attempts (f : gmap string RecoveryAttemptRow -> gmap string RecoveryAttemptRow)
    (d : Database) : Database :=
  MkDatabase d.(users) d.(events) d.(event_questions) d.(open_enrollments) d.(invitations)
    d.(guests) d.(rsvp_responses) d.(guest_responses) d.(invitation_answers) d.(guest_answers)
    d.(invitation_sessions) d.(invitation_recovery_tokens) (f (d.(invitation_recovery_attempts)))
    d.(invitation_messages) d.(invite_cards) d.(notification_log) d.(magic_links) d.(sessions)
    d.(event_memberships) d.(account_invites) d.(admin_audit_log) d.(instances) d.(event_series)
    d.(reminders) d.(webhooks) d.(webhook_deliveries) d.(email_suppressions)
    d.(unsubscribe_tokens).
Definition set_invitation_messages (f : gmap string MessageRow -> gmap string MessageRow)
    (d : Database) : Database :=
  MkDatabase d.(users) d.(events) d.(event_questions) d.(open_enrollments) d.(invitations)
    d.(guests) d.(rsvp_responses) d.(guest_responses) d.(invitation_answers) d.(guest_answers)
    d.(invitation_sessions) d.(invitation_recovery_tokens) d.(invitation_recovery_attempts)
    (f (d.(invitation_messages))) d.(invite_cards) d.(notification_log) d.(magic_links)
    d.(sessions) d.(event_memberships) d.(account_invites) d.(admin_audit_log) d.(instances)
    d.(event_series) d.(reminders) d.(webhooks) d.(webhook_deliveries) d.(email_suppressions)
    d.(unsubscribe_tokens).
Definition set_event_questions (f : gmap string QuestionRow -> gmap string QuestionRow)
    (d : Database) : Database :=
  MkDatabase d.(users) d.(events) (f (d.(event_questions))) d.(open_enrollments) d.(invitations)
    d.(guests) d.(rsvp_responses) d.(guest_responses) d.(invitation_answers) d.(guest_answers)
    d.(invitation_sessions) d.(invitation_recovery_tokens) d.(invitation_recovery_attempts)
    d.(invitation_messages) d.(invite_cards) d.(notification_log) d.(magic_links) d.(sessions)
    d.(event_memberships) d.(account_invites) d.(admin_audit_log) d.(instances) d.(event_series)
    d.(reminders) d.(webhooks) d.(webhook_deliveries) d.(email_suppressions)
    d.(unsubscribe_tokens).
Definition set_invite_cards (f : gmap string CardRow -> gmap string CardRow)
    (d : Database) : Database :=
  MkDatabase d.(users) d.(events) d.(event_questions) d.(open_enrollments) d.(invitations)
    d.(guests) d.(rsvp_responses) d.(guest_responses) d.(invitation_answers) d.(guest_answers)
    d.(invitation_sessions) d.(invitation_recovery_tokens) d.(invitation_recovery_attempts)
    d.(invitation_messages) (f (d.(invite_cards))) d.(notification_log) d.(magic_links)
    d.(sessions) d.(event_memberships) d.(account_invites) d.(admin_audit_log) d.(instances)
    d.(event_series) d.(reminders) d.(webhooks) d.(webhook_deliveries) d.(email_suppressions)
    d.(unsubscribe_tokens).
Definition set_notification_log (f : gmap string LogRow -> gmap string LogRow)
    (d : Database) : Database :=
  MkDatabase d.(users) d.(events) d.(event_questions) d.(open_enrollments) d.(invitations)
    d.(guests) d.(rsvp_responses) d.(guest_responses) d.(invitation_answers) d.(guest_answers)
    d.(invitation_sessions) d.(invitation_recovery_tokens) d.(invitation_recovery_attempts)
    d.(invitation_messages) d.(invite_cards) (f (d.(notification_log))) d.(magic_links)
    d.(sessions) d.(event_memberships) d.(account_invites) d.(admin_audit_log) d.(instances)
    d.(event_series) d.(reminders) d.(webhooks) d.(webhook_deliveries) d.(email_suppressions)
    d.(unsubscribe_tokens).
Definition set_reminders (f : gmap string ReminderRow -> gmap string ReminderRow)
    (d : Database) : Database :=
  MkDatabase d.(users) d.(events) d.(event_questions) d.(open_enrollments) d.(invitations)
    d.(guests) d.(rsvp_responses) d.(guest_responses) d.(invitation_answers) d.(guest_answers)
    d.(invitation_sessions) d.(invitation_recovery_tokens) d.(invitation_recovery_attempts)
    d.(invitation_messages) d.(invite_cards) d.(notification_log) d.(magic_links) d.(sessions)
    d.(event_memberships) d.(account_invites) d.(admin_audit_log) d.(instances) d.(event_series)
    (f (d.(reminders))) d.(webhooks) d.(webhook_deliveries) d.(email_suppressions)
    d.(unsubscribe_tokens).
Definition set_webhooks (f : gmap string WebhookRow -> gmap string WebhookRow)
    (d : Database) : Database :=
  MkDatabase d.(users) d.(events) d.(event_questions) d.(open_enrollments) d.(invitations)
    d.(guests) d.(rsvp_responses) d.(guest_responses) d.(invitation_answers) d.(guest_answers)
    d.(invitation_sessions) d.(invitation_recovery_tokens) d.(invitation_recovery_attempts)
    d.(invitation_messages) d.(invite_cards) d.(notification_log) d.(magic_links) d.(sessions)
    d.(event_memberships) d.(account_invites) d.(admin_audit_log) d.(instances) d.(event_series)
    d.(reminders) (f (d.(webhooks))) d.(webhook_deliveries) d.(email_suppressions)
    d.(unsubscribe_tokens).
Definition set_webhook_deliveries (f : gmap string DeliveryRow -> gmap string DeliveryRow)
    (d : Database) : Database :=
  MkDatabase d.(users) d.(events) d.(event_questions) d.(open_enrollments) d.(invitations)
    d.(guests) d.(rsvp_responses) d.(guest_responses) d.(invitation_answers) d.(guest_answers)
    d.(invitation_sessions) d.(invitation_recovery_tokens) d.(invitation_recovery_attempts)
    d.(invitation_messages) d.(invite_cards) d.(notification_log) d.(magic_links) d.(sessions)
    d.(event_memberships) d.(account_invites) d.(admin_audit_log) d.(instances) d.(event_series)
    d.(reminders) d.(webhooks) (f (d.(webhook_deliveries))) d.(email_suppressions)
    d.(unsubscribe_tokens).
Definition set_email_suppressions (f : gmap string SuppressionRow -> gmap string SuppressionRow)
    (d : Database) : Database :=
  MkDatabase d.(users) d.(events) d.(event_questions) d.(open_enrollments) d.(invitations)
    d.(guests) d.(rsvp_responses) d.(guest_responses) d.(invitation_answers) d.(guest_answers)
    d.(invitation_sessions) d.(invitation_recovery_tokens) d.(invitation_recovery_attempts)
    d.(invitation_messages) d.(invite_cards) d.(notification_log) d.(magic_links) d.(sessions)
    d.(event_memberships) d.(account_invites) d.(admin_audit_log) d.(instances) d.(event_series)
    d.(reminders) d.(webhooks) d.(webhook_deliveries) (f (d.(email_suppressions)))
    d.(unsubscribe_tokens).
Definition set_unsubscribe_tokens (f : gmap string UnsubscribeRow -> gmap string UnsubscribeRow)
    (d : Database) : Database :=
  MkDatabase d.(users) d.(events) d.(event_questions) d.(open_enrollments) d.(invitations)
    d.(guests) d.(rsvp_responses) d.(guest_responses) d.(invitation_answers) d.(guest_answers)
    d.(invitation_sessions) d.(invitation_recovery_tokens) d.(invitation_recovery_attempts)
    d.(invitation_messages) d.(invite_cards) d.(notification_log) d.(magic_links) d.(sessions)
    d.(event_memberships) d.(account_invites) d.(admin_audit_log) d.(instances) d.(event_series)
    d.(reminders) d.(webhooks) d.(webhook_deliveries) d.(email_suppressions)
    (f (d.(unsubscribe_tokens))).

Definition empty_db : Database :=
  MkDatabase ∅ ∅ ∅ ∅ ∅ ∅ ∅ ∅ ∅ ∅ ∅ ∅ ∅ ∅ ∅ ∅ ∅ ∅ ∅ ∅ ∅ ∅ ∅ ∅ ∅ ∅ ∅ ∅.

(** The tables of identities, event access and the instance. *)
Definition accounts (d : Database) :=
  (d.(users), d.(magic_links), d.(sessions), d.(event_memberships), d.(account_invites),
   d.(admin_audit_log), d.(instances), d.(event_series)).

(** ** SELECT, UPDATE and DELETE on one table *)

(** [column IS NULL] *)
Definition is_null (c : option string) : bool := bool_decide (c = None).

Section table.
Context {R : Type}.
Implicit Types (t : gmap string R) (P : string -> R -> bool) (Q : R -> bool).

(** The rows [WHERE P], in the order of the primary key's encoding. *)
Definition select P t : list (string * R) :=
  List.filter (fun kr => P kr.1 kr.2) (map_to_list t).

(** [QueryRow]: the first row. *)
Definition select_row P t : option (string * R) := head (select P t).

Definition count P t : Z := Z.of_nat (length (select P t)).

(** [UPDATE ... WHERE P] and its number of rows. *)
Definition update_where P (f : R -> R) t : gmap string R :=
  map_imap (fun k r => Some (if P k r then f r else r)) t.

(** [UPDATE ... WHERE id = ? AND Q]. *)
Definition update_id (id : string) Q (f : R -> R) t : gmap string R * Z :=
  match t !! id with
  | Some r => if Q r then (<[id := f r]> t, 1) else (t, 0)
  | None => (t, 0)
  end.

Definition delete_where P t : gmap string R :=
  map_imap (fun k r => if P k r then None else Some r) t.

Definition unique {C} `{EqDecision C} (col : R -> C) (c : C) t : bool :=
  forallb (fun kr => negb (bool_decide (col kr.2 = c))) (map_to_list t).

Definition has (id : string) t : bool := bool_decide (is_Some (t !! id)).
Definition has_opt (id : option string) t : bool :=
  match id with Some i => has i t | None => true end.

Lemma elem_of_select P t k r :
  (k, r) ∈ select P t <-> t !! k = Some r /\ P k r = true.
Proof.
  unfold select. rewrite list_elem_of_In, filter_In, <- list_elem_of_In.
  by rewrite elem_of_map_to_list.
Qed.
Lemma NoDup_select P t : NoDup (select P t).*1.
Proof.
  unfold select. pose proof (NoDup_fst_map_to_list t) as H.
  induction (map_to_list t) as [|[k r] l IH]; simpl in *; [constructor|].
  apply NoDup_cons in H as [Hk Hl].
  destruct (P k r); simpl; [|auto]. constructor; [|auto].
  rewrite list_elem_of_fmap. intros ([k' r'] & -> & Hin). apply Hk.
  rewrite list_elem_of_In, filter_In, <- list_elem_of_In in Hin.
  apply list_elem_of_fmap. exists (k', r'). tauto.
Qed.

Lemma select_row_Some P t k r :
  select_row P t = Some (k, r) -> t !! k = Some r /\ P k r = true.
Proof.
  unfold select_row. intros H. apply elem_of_select.
  destruct (select P t); simplify_eq/=. constructor.
Qed.
Lemma select_row_None P t k r : select_row P t = None -> t !! k = Some r -> P k r = false.
Proof.
  unfold select_row. intros H Hk. apply not_true_is_false. intros HP.
  assert ((k, r) ∈ select P t) as Hin by (by apply elem_of_select).
  destruct (select P t); [by apply not_elem_of_nil in Hin|done].
Qed.
(** At most one row satisfies [P]: the query finds it. *)
Lemma select_row_unique P t k r :
  t !! k = Some r -> P k r = true ->
  (forall k' r', t !! k' = Some r' -> P k' r' = true -> k' = k) ->
  select_row P t = Some (k, r).
Proof.
  intros Hk HP Hu. destruct (select_row P t) as [[k' r']|] eqn:E.
  - apply select_row_Some in E as [Hk' HP']. assert (k' = k) as -> by eauto. congruence.
  - eapply select_row_None in E; [|done]. congruence.
Qed.

Lemma lookup_update_where P f t k :
  update_where P f t !! k = (fun r => if P k r then f r else r) <$> t !! k.
Proof. unfold update_where. rewrite map_lookup_imap. by destruct (t !! k). Qed.
Lemma lookup_delete_where P t k r :
  delete_where P t !! k = Some r <-> t !! k = Some r /\ P k r = false.
Proof.
  unfold delete_where. rewrite map_lookup_imap.
  destruct (t !! k) as [r'|]; simpl; [|naive_solver].
  destruct (P k r') eqn:E; naive_solver congruence.
Qed.

Lemma unique_spec {C} `{EqDecision C} (col : R -> C) c t :
  unique col c t = true <-> forall k r, t !! k = Some r -> col r <> c.
Proof.
  unfold unique. rewrite forallb_forall. split.
  - intros H k r Hk. specialize (H (k, r)).
    rewrite <- list_elem_of_In, elem_of_map_to_list in H. specialize (H Hk).
    by rewrite negb_true_iff, bool_decide_eq_false in H.
  - intros H [k r] Hin. rewrite <- list_elem_of_In, elem_of_map_to_list in Hin.
    rewrite negb_true_iff, bool_decide_eq_false. eauto.
Qed.
Lemma has_spec id t : has id t = true <-> is_Some (t !! id).
Proof. unfold has. by rewrite bool_decide_eq_true. Qed.

Lemma update_id_cases id Q f t t' n :
  update_id id Q f t = (t', n) ->
  (n = 1 /\ exists r, t !! id = Some r /\ Q r = true /\ t' = <[id := f r]> t) \/
  (n = 0 /\ t' = t /\ forall r, t !! id = Some r -> Q r = false).
Proof.
  unfold update_id. destruct (t !! id) as [r|] eqn:E; [destruct (Q r) eqn:EQ|];
    intros [= <- <-]; [left|right..]; naive_solver.
Qed.
End table.

(** ** Ordering of result rows *)

(** [ORDER BY] keys compared column by column. *)
Definition text_le (a b : string) : bool := negb (str_lt b a).

Section order_by.
Context {A : Type} (le : A -> A -> bool).
Fixpoint insert_sorted (x : A) (l : list A) : list A :=
  match l with
  | [] => [x]
  | y :: t => if le x y then x :: l else y :: insert_sorted x t
  end.
Definition order_by (l : list A) : list A := fold_right insert_sorted [] l.

Lemma insert_sorted_perm x l : insert_sorted x l ≡ₚ x :: l.
Proof.
  induction l as [|y t IH]; simpl; [done|]. destruct (le x y); [done|].
  rewrite IH. constructor.
Qed.
Lemma order_by_perm l : order_by l ≡ₚ l.
Proof. induction l as [|x l IH]; simpl; [done|]. by rewrite insert_sorted_perm, IH. Qed.

(** The last of the rows in order is the greatest. *)
Context (le_trans : forall a b c, le a b = true -> le b c = true -> le a c = true)
  (le_total : forall a b, le a b = false -> le b a = true).
Lemma insert_sorted_Sorted x l :
  StronglySorted (fun a b => le a b = true) l ->
  StronglySorted (fun a b => le a b = true) (insert_sorted x l).
Proof.
  induction 1 as [|y t Ht IH Hy]; simpl; [repeat constructor|].
  destruct (le x y) eqn:E.
  - constructor; [by constructor|]. constructor; [done|]. eapply Forall_impl; eauto.
  - constructor; [done|]. rewrite insert_sorted_perm. constructor; auto.
Qed.
Lemma order_by_last l x y : last (order_by l) = Some x -> y ∈ l -> y = x \/ le y x = true.
Proof.
  intros Hx Hy. rewrite <- order_by_perm in Hy.
  assert (StronglySorted (fun a b => le a b = true) (order_by l)) as Hs.
  { clear Hx Hy. induction l; simpl; [constructor|]. by apply insert_sorted_Sorted. }
  induction Hs as [|z t Ht IH Hz]; [by apply not_elem_of_nil in Hy|].
  apply elem_of_cons in Hy as [->|Hy].
  - destruct t as [|u t]; [left; by injection Hx|right]. rewrite last_cons_cons in Hx.
    apply last_Some_elem_of in Hx. rewrite Forall_forall in Hz. by apply Hz.
  - destruct t as [|u t]; [by apply not_elem_of_nil in Hy|]. rewrite last_cons_cons in Hx. by apply IH.
Qed.
End order_by.

Lemma text_le_trans a b c : text_le a b = true -> text_le b c = true -> text_le a c = true.
Proof.
  unfold text_le, str_lt. rewrite !negb_true_iff. intros Hab Hbc. by eapply bytes_le_trans.
Qed.
Lemma text_le_total a b : text_le a b = false -> text_le b a = true.
Proof. unfold text_le, str_lt. rewrite negb_false_iff, negb_true_iff. apply bytes_lt_asym. Qed.

Definition lex_text {A} (f : A -> string) (next : A -> A -> bool) (a b : A) : bool :=
  if str_lt (f a) (f b) then true else if str_lt (f b) (f a) then false else next a b.
Definition lex_int {A} (f : A -> Z) (next : A -> A -> bool) (a b : A) : bool :=
  if f a <? f b then true else if f b <? f a then false else next a b.

(** ** INSERT statements with their constraints *)

Definition one_of (s : string) (l : list string) : bool := bool_decide (s ∈ l).
Definition valid_method (s : string) : bool := one_of s ["email"; "sms"; "none"].

Definition invitation_check (r : InvitationRow) : bool :=
  valid_method r.(i_method) && (0 <=? r.(i_allowance)) && (0 <? r.(i_token_version))
  && ((bool_decide (r.(i_source) = "private") && bool_decide (r.(i_open_id) = None))
      || (bool_decide (r.(i_source) = "open") && bool_decide (r.(i_open_id) <> None))).

Definition insert_invitation (id : string) (r : InvitationRow) (d : Database) : option Database :=
  if negb (has id d.(invitations)) && has r.(i_event_id) d.(events)
     && has_opt r.(i_open_id) d.(open_enrollments) && has_opt r.(i_created_by) d.(users)
     && unique i_access_id r.(i_access_id) d.(invitations) && invitation_check r
  then Some (set_invitations <[id := r]> d) else None.

Definition insert_response (id : string) (r : ResponseRow) (d : Database) : option Database :=
  if negb (has id d.(rsvp_responses)) && has r.(r_invitation_id) d.(invitations)
     && unique r_invitation_id r.(r_invitation_id) d.(rsvp_responses) && (0 <? r.(r_version))
  then Some (set_rsvp_responses <[id := r]> d) else None.

Definition insert_guest (id : string) (r : GuestRow) (d : Database) : option Database :=
  if negb (has id d.(guests)) && has r.(g_invitation_id) d.(invitations)
     && one_of r.(g_origin) ["assigned"; "additional"]
  then Some (set_guests <[id := r]> d) else None.

Definition valid_attendance_col (s : string) : bool :=
  one_of s ["pending"; "attending"; "maybe"; "declined"].

Definition insert_guest_response (id : string) (r : GuestResponseRow) (d : Database)
    : option Database :=
  if negb (has id d.(guest_responses)) && has r.(gr_response_id) d.(rsvp_responses)
     && has r.(gr_guest_id) d.(guests)
     && unique gr_guest_id r.(gr_guest_id) d.(guest_responses)
     && valid_attendance_col r.(gr_attendance)
  then Some (set_guest_responses <[id := r]> d) else None.

Definition insert_inv_answer (id : string) (r : InvAnswerRow) (d : Database) : option Database :=
  if negb (has id d.(invitation_answers)) && has r.(ia_invitation_id) d.(invitations)
     && has r.(ia_question_id) d.(event_questions)
     && unique (fun x => (x.(ia_invitation_id), x.(ia_question_id)))
               (r.(ia_invitation_id), r.(ia_question_id)) d.(invitation_answers)
  then Some (set_invitation_answers <[id := r]> d) else None.

Definition insert_guest_answer (id : string) (r : GuestAnswerRow) (d : Database)
    : option Database :=
  if negb (has id d.(guest_answers)) && has r.(ga_guest_id) d.(guests)
     && has r.(ga_question_id) d.(event_questions)
     && unique (fun x => (x.(ga_guest_id), x.(ga_question_id)))
               (r.(ga_guest_id), r.(ga_question_id)) d.(guest_answers)
  then Some (set_guest_answers <[id := r]> d) else None.

Definition insert_session (id : string) (r : SessionRow) (d : Database) : option Database :=
  if negb (has id d.(invitation_sessions)) && has r.(s_invitation_id) d.(invitations)
     && unique s_token_hash r.(s_token_hash) d.(invitation_sessions)
     && (0 <? r.(s_issued_version))
  then Some (set_invitation_sessions <[id := r]> d) else None.

Definition insert_recovery_token (id : string) (r : RecoveryTokenRow) (d : Database)
    : option Database :=
  if negb (has id d.(invitation_recovery_tokens)) && has r.(rt_invitation_id) d.(invitations)
     && unique rt_token_hash r.(rt_token_hash) d.(invitation_recovery_tokens)
     && one_of r.(rt_destination) ["email"; "sms"]
  then Some (set_invitation_recovery_tokens <[id := r]> d) else None.

Definition insert_recovery_attempt (id : string) (r : RecoveryAttemptRow) (d : Database)
    : option Database :=
  if negb (has id d.(invitation_recovery_attempts)) && has r.(ra_event_id) d.(events)
  then Some (set_invitation_recovery_attempts <[id := r]> d) else None.

Definition insert_message (id : string) (r : MessageRow) (d : Database) : option Database :=
  if negb (has id d.(invitation_messages)) && has r.(m_event_id) d.(events)
     && has_opt r.(m_sender) d.(users)
     && one_of r.(m_group) ["all"; "attending"; "maybe"; "declined"; "pending"]
  then Some (set_invitation_messages <[id := r]> d) else None.

(** A text CHECK: it passes when an operand is NULL. *)
Definition opens_before_closes (r : OpenRow) : bool :=
  match r.(o_opens_at), r.(o_closes_at) with
  | Some a, Some b => str_lt a b
  | _, _ => true
  end.
Definition open_check (r : OpenRow) : bool :=
  (0 <? r.(o_token_version)) && (0 <? r.(o_max_party_size))
  && match r.(o_capacity) with Some c => 0 <? c | None => true end
  && opens_before_closes r.

Definition user_check (r : UserRow) : bool :=
  one_of r.(u_role) ["admin"; "user"] && one_of r.(u_status) ["invited"; "active"; "disabled"].
Definition insert_user (id : string) (r : UserRow) (d : Database) : option Database :=
  if negb (has id d.(users)) && unique u_norm_email r.(u_norm_email) d.(users)
     && has_opt r.(u_invited_by) (<[id := r]> d.(users)) && user_check r
  then Some (set_users <[id := r]> d) else None.

Definition insert_magic_link (id : string) (r : MagicLinkRow) (d : Database) : option Database :=
  if negb (has id d.(magic_links)) && has r.(ml_user_id) d.(users)
     && unique ml_token_hash r.(ml_token_hash) d.(magic_links)
  then Some (set_magic_links <[id := r]> d) else None.

Definition insert_user_session (id : string) (r : UserSessionRow) (d : Database)
    : option Database :=
  if negb (has id d.(sessions)) && has r.(us_user_id) d.(users)
     && unique us_token_hash r.(us_token_hash) d.(sessions)
  then Some (set_sessions <[id := r]> d) else None.

Definition valid_event_status (s : string) : bool :=
  one_of s ["draft"; "published"; "cancelled"; "archived"; "retention_warning"].
Definition insert_event (id : string) (r : EventRow) (d : Database) : option Database :=
  if negb (has id d.(events)) && valid_event_status r.(e_status)
     && has_opt r.(e_series_id) d.(event_series)
  then Some (set_events <[id := r]> d) else None.

Definition series_check (r : SeriesRow) : bool :=
  one_of r.(sr_rule) ["weekly"; "biweekly"; "monthly"] && one_of r.(sr_status) ["active"; "stopped"].
Definition insert_series (id : string) (r : SeriesRow) (d : Database) : option Database :=
  if negb (has id d.(event_series)) && has r.(sr_owner) d.(users) && series_check r
  then Some (set_event_series <[id := r]> d) else None.

(** [DELETE FROM event_series WHERE id = ?]; the events keep a NULL series. *)
Definition unlink_series (r : EventRow) : EventRow :=
  {| e_title := r.(e_title); e_description := r.(e_description);
     e_event_date := r.(e_event_date); e_end_date := r.(e_end_date);
     e_location := r.(e_location); e_timezone := r.(e_timezone); e_status := r.(e_status);
     e_retention_days := r.(e_retention_days); e_show_headcount := r.(e_show_headcount);
     e_show_guest_list := r.(e_show_guest_list); e_rsvp_deadline := r.(e_rsvp_deadline);
     e_series_id := None; e_series_index := r.(e_series_index);
     e_series_override := r.(e_series_override); e_created_at := r.(e_created_at);
     e_updated_at := r.(e_updated_at) |}.
Definition delete_series (id : string) (d : Database) : Database :=
  set_events (update_where (fun _ r => bool_decide (r.(e_series_id) = Some id)) unlink_series)
    (set_event_series (delete id) d).

(** [UNIQUE(event_id, user_id)], and one owner per event. *)
Definition insert_membership (id : string) (r : MembershipRow) (d : Database) : option Database :=
  if negb (has id d.(event_memberships)) && has r.(em_event_id) d.(events)
     && has r.(em_user_id) d.(users) && has r.(em_granted_by) d.(users)
     && one_of r.(em_role) ["owner"; "cohost"]
     && unique (fun x => (x.(em_event_id), x.(em_user_id)))
               (r.(em_event_id), r.(em_user_id)) d.(event_memberships)
     && (negb (bool_decide (r.(em_role) = "owner"))
         || unique (fun x => (x.(em_event_id), x.(em_role)))
                   (r.(em_event_id), "owner") d.(event_memberships))
  then Some (set_event_memberships <[id := r]> d) else None.

Definition insert_account_invite (id : string) (r : AccountInviteRow) (d : Database)
    : option Database :=
  if negb (has id d.(account_invites)) && has r.(ai_target) d.(users)
     && unique ai_token_hash r.(ai_token_hash) d.(account_invites)
     && has r.(ai_invited_by) d.(users) && has_opt r.(ai_event_id) d.(events)
     && match r.(ai_event_role) with Some x => bool_decide (x = "cohost") | None => true end
  then Some (set_account_invites <[id := r]> d) else None.

Definition insert_audit (id : string) (r : AuditRow) (d : Database) : option Database :=
  if negb (has id d.(admin_audit_log)) && has_opt r.(al_actor) d.(users)
     && one_of r.(al_actor_kind) ["user"; "cli"; "system"]
     && has_opt r.(al_target) d.(users) && has_opt r.(al_event) d.(events)
  then Some (set_admin_audit_log <[id := r]> d) else None.

Definition question_check (r : QuestionRow) : bool :=
  one_of r.(q_type) ["text"; "select"; "checkbox"] && one_of r.(q_scope) ["invitation"; "guest"].
Definition insert_question (id : string) (r : QuestionRow) (d : Database) : option Database :=
  if negb (has id d.(event_questions)) && has r.(q_event_id) d.(events) && question_check r
  then Some (set_event_questions <[id := r]> d) else None.

Definition insert_card (id : string) (r : CardRow) (d : Database) : option Database :=
  if negb (has id d.(invite_cards)) && has r.(c_event_id) d.(events)
     && unique c_event_id r.(c_event_id) d.(invite_cards)
  then Some (set_invite_cards <[id := r]> d) else None.

Definition log_check (r : LogRow) : bool :=
  one_of r.(l_channel) ["email"; "sms"] && one_of r.(l_status) ["pending"; "sent"; "failed"].
Definition insert_log (id : string) (r : LogRow) (d : Database) : option Database :=
  if negb (has id d.(notification_log)) && has r.(l_event_id) d.(events)
     && has_opt r.(l_invitation_id) d.(invitations) && log_check r
  then Some (set_notification_log <[id := r]> d) else None.

Definition reminder_check (r : ReminderRow) : bool :=
  one_of r.(rm_group) ["all"; "attending"; "maybe"; "declined"; "pending"]
  && one_of r.(rm_status) ["scheduled"; "processing"; "sent"; "cancelled"; "failed"].
Definition insert_reminder (id : string) (r : ReminderRow) (d : Database) : option Database :=
  if negb (has id d.(reminders)) && has r.(rm_event_id) d.(events) && reminder_check r
  then Some (set_reminders <[id := r]> d) else None.

Definition insert_webhook (id : string) (r : WebhookRow) (d : Database) : option Database :=
  if negb (has id d.(webhooks)) && has r.(wh_event_id) d.(events)
  then Some (set_webhooks <[id := r]> d) else None.
Definition insert_delivery (id : string) (r : DeliveryRow) (d : Database) : option Database :=
  if negb (has id d.(webhook_deliveries)) && has r.(wd_webhook_id) d.(webhooks)
  then Some (set_webhook_deliveries <[id := r]> d) else None.

(** [UNIQUE(email, event_id)], where a NULL equals nothing. *)
Definition insert_suppression (id : string) (r : SuppressionRow) (d : Database) : option Database :=
  if negb (has id d.(email_suppressions)) && has_opt r.(sp_event_id) d.(events)
     && (is_null r.(sp_event_id)
         || unique (fun x => (x.(sp_email), x.(sp_event_id))) (r.(sp_email), r.(sp_event_id))
              d.(email_suppressions))
  then Some (set_email_suppressions <[id := r]> d) else None.
Definition insert_unsubscribe (id : string) (r : UnsubscribeRow) (d : Database) : option Database :=
  if negb (has id d.(unsubscribe_tokens)) && has_opt r.(ut_event_id) d.(events)
     && unique ut_token_hash r.(ut_token_hash) d.(unsubscribe_tokens)
  then Some (set_unsubscribe_tokens <[id := r]> d) else None.
