(* ===== verification/Eff.v ===== *)
(** * Effects: errors, the outside world, statements and transactions

    [M A] is the program's effect: it reads and writes a [World] and returns a
    value or an error.  The world holds the database, the list of driver faults
    still to come (each statement consumes one; [true] makes it fail) and the
    counters of the clock, UUID and random sources.  What the program calls and
    does not define is the class [Env]. *)

From S2P Require Import Prelude.
From S2P Require Import GoStr.
From S2P Require Import GoTime.
From S2P Require Import Schema.

Local Open Scope Z_scope.

(** ** Errors *)

(** The sentinels of the packages [invitation],
    [auth], [event], [useradmin] and [instanceconfig], validation errors of [errcode] with
    their message, other errors whose whole text the program chooses, and errors of the
    driver or a library with the context they are wrapped in. *)
Inductive err :=
| EValidation (msg : string)
| ErrNotFound
| ErrConflict
| ErrAllowance
| ErrCapacity
| ErrDeliverySuppressed
| ErrInvalidCapability
| ErrInvalidEmail
| ErrInvalidToken
| ErrSessionNotFound
| ErrEventNotFound
| ErrForbidden
| ErrSeriesNotFound
| ErrSeriesForbidden
| ErrInvalidInvite
| ErrUserExists
| ErrUserNotFound
| ErrLastAdmin
| ErrInvalidTransition
| ErrEmailUnavailable
| ErrCohostLimit
| ErrBootstrapUnauthorized
| ErrSetupComplete
| EText (text : string)
| EInternal (context : string).

#[global] Instance err_eq_dec : EqDecision err.
Proof. solve_decision. Defined.

Inductive res (A : Type) := Ok (a : A) | Err (e : err).
Arguments Ok {A} a.
Arguments Err {A} e.

(** ** What the program calls and does not define *)

Class Env := {
  (** the n-th reading of [time.Now().UTC()] *)
  clock : nat -> time;
  (** the n-th [uuid.NewV7().String()] *)
  uuid_v7 : nat -> string;
  (** the n-th [rand.Read] into a buffer of the given length *)
  rand_read : nat -> nat -> option string;
  hmac_sha256 : string -> string -> string;
  sha256 : string -> string;
  (** [strings.ToLower] of a string that has a non-ASCII byte *)
  unicode_lower : string -> string;
  (** [json.Unmarshal] into a [[]string] *)
  json_strings : string -> option (list string);
  (** [json.Unmarshal] of a card's custom data: its [backgroundImage] *)
  json_background : string -> option string;
  (** the [Scheme] of [url.Parse] *)
  url_scheme : string -> option string;
  (** the [%q] verb *)
  go_quote : string -> string;
  (** the household e-mail's HTML template *)
  render_invitation_html : string -> string -> string -> string -> option string;
  (** the magic-link e-mail's HTML template: URL, minutes *)
  render_magic_link_html : string -> Z -> option string;
  (** an instant in a named zone, laid out for an e-mail *)
  format_event_date : string -> time -> string;
  (** [json.Marshal] of a map of texts *)
  json_object : list (string * string) -> string;
  (** [json.Marshal] of a [[]string] *)
  json_list : list string -> string;
  (** [json.Marshal] of a [WebhookPayload]: event type, timestamp and data as JSON *)
  json_payload : string -> string -> string -> string;
  (** the [Address] of [mail.ParseAddress] *)
  mail_address : string -> option string;
  (** [database.DB.Dialect] *)
  dialect : string
}.

(** Whether [mail.ParseAddress] accepts. *)
Definition mail_address_ok `{E : Env} (s : string) : bool :=
  match mail_address s with Some _ => true | None => false end.

(** [strings.ToLower]. *)
Definition to_lower `{E : Env} (s : string) : string :=
  if is_ascii s then lower_ascii s else unicode_lower s.

Record World := MkWorld {
  w_db : Database;
  w_faults : list bool;
  w_clock : nat;
  w_uuids : nat;
  w_draws : nat }.

Definition with_db (d : Database) (w : World) : World :=
  MkWorld d w.(w_faults) w.(w_clock) w.(w_uuids) w.(w_draws).

Definition M (A : Type) : Type := World -> res A * World.

Definition ret {A} (a : A) : M A := fun w => (Ok a, w).
Definition fail {A} (e : err) : M A := fun w => (Err e, w).
Definition bind {A B} (m : M A) (f : A -> M B) : M B :=
  fun w => match m w with (Ok a, w') => f a w' | (Err e, w') => (Err e, w') end.

Notation "x <- m ;; k" := (bind m (fun x => k))
  (at level 100, m at level 99, right associativity) : owl_scope.
Notation "'let*' p := m 'in' k" := (bind m (fun x => match x with p => k end))
  (at level 10, p pattern, m at level 99, k at level 200) : owl_scope.
Notation "m ;;; k" := (bind m (fun _ => k)) (at level 100, right associativity) : owl_scope.
Open Scope owl_scope.

Definition res_bind {A B} (r : res A) (f : A -> res B) : res B :=
  match r with Ok a => f a | Err e => Err e end.
Notation "x <-r r ;; k" := (res_bind r (fun x => k))
  (at level 100, r at level 99, right associativity) : owl_scope.

Definition of_res {A} (r : res A) : M A := fun w => (r, w).
Definition of_option {A} (e : err) (o : option A) : M A :=
  match o with Some a => ret a | None => fail e end.
Definition require (b : bool) (e : err) : M () := if b then ret () else fail e.

(** [_, _ = call()]: the error is dropped. *)
Definition ignore_err {A} (m : M A) : M () := fun w => (Ok (), (m w).2).

(** [if err := call(); err != nil]: the error as a value. *)
Definition attempt {A} (m : M A) : M (res A) := fun w => let '(r, w') := m w in (Ok r, w').

(** [if err := call(); err != nil { return e }] *)
Definition or_err {A} (e : err) (m : M A) : M A :=
  fun w => match m w with (Ok a, w') => (Ok a, w') | (Err _, w') => (Err e, w') end.

Fixpoint foldM {A S} (f : S -> A -> M S) (s : S) (l : list A) : M S :=
  match l with [] => ret s | x :: t => s' <- f s x ;; foldM f s' t end.
Definition forM {A} (l : list A) (f : A -> M ()) : M () := foldM (fun _ x => f x) () l.
Fixpoint mapM {A B} (f : A -> M B) (l : list A) : M (list B) :=
  match l with [] => ret [] | x :: t => y <- f x ;; r <- mapM f t ;; ret (y :: r) end.

Section effects.
Context `{E : Env}.

(** [time.Now().UTC()]. *)
Definition now : M time := fun w =>
  (Ok (clock w.(w_clock)),
   MkWorld w.(w_db) w.(w_faults) (S w.(w_clock)) w.(w_uuids) w.(w_draws)).
(** [time.Now().UTC().Format(time.RFC3339)] *)
Definition now_text : M string := t <- now ;; ret (format_rfc3339 t).

(** [uuid.Must(uuid.NewV7()).String()]. *)
Definition new_uuid : M string := fun w =>
  (Ok (uuid_v7 w.(w_uuids)),
   MkWorld w.(w_db) w.(w_faults) w.(w_clock) (S w.(w_uuids)) w.(w_draws)).

Definition read_random (n : nat) : M (option string) := fun w =>
  (Ok (rand_read w.(w_draws) n),
   MkWorld w.(w_db) w.(w_faults) w.(w_clock) w.(w_uuids) (S w.(w_draws))).

(** The driver's answer to one statement. *)
Definition driver : M bool := fun w =>
  match w.(w_faults) with
  | [] => (Ok false, w)
  | b :: fs => (Ok b, MkWorld w.(w_db) fs w.(w_clock) w.(w_uuids) w.(w_draws))
  end.
End effects.

(** A statement: it may fail in the driver or violate a constraint; both are
    errors wrapped with [ctx] and leave the database as it was. *)
Definition stmt {A} (ctx : string) (f : Database -> option (A * Database)) : M A :=
  b <- driver ;;
  fun w => if b : bool then (Err (EInternal ctx), w)
           else match f w.(w_db) with
                | Some (a, d) => (Ok a, with_db d w)
                | None => (Err (EInternal ctx), w)
                end.

Definition exec (ctx : string) (f : Database -> option Database) : M () :=
  stmt ctx (fun d => (fun d' => ((), d')) <$> f d).
Definition query {A} (ctx : string) (f : Database -> A) : M A :=
  stmt ctx (fun d => Some (f d, d)).

(** [BeginTx ... defer Rollback ... Commit]: an error of the body or of the
    commit restores the database. *)
Definition with_tx {A} (begin_ctx commit_ctx : string) (body : M A) : M A :=
  b <- driver ;;
  if b : bool then fail (EInternal begin_ctx) else
  fun w =>
    match body w with
    | (Ok a, w1) =>
        match driver w1 with
        | (Ok false, w2) => (Ok a, w2)
        | (_, w2) => (Err (EInternal commit_ctx), with_db w.(w_db) w2)
        end
    | (Err e, w1) => (Err e, with_db w.(w_db) w1)
    end.

(** A transaction whose body may also return before the commit: the value is
    returned and the deferred rollback undoes what the body wrote. *)
Inductive outcome (A : Type) := Commit (a : A) | Rollback (a : A).
Arguments Commit {A} a.
Arguments Rollback {A} a.

Definition with_tx_early {A} (begin_ctx commit_ctx : string) (body : M (outcome A)) : M A :=
  b <- driver ;;
  if b : bool then fail (EInternal begin_ctx) else
  fun w =>
    match body w with
    | (Ok (Commit a), w1) =>
        match driver w1 with
        | (Ok false, w2) => (Ok a, w2)
        | (_, w2) => (Err (EInternal commit_ctx), with_db w.(w_db) w2)
        end
    | (Ok (Rollback a), w1) => (Ok a, with_db w.(w_db) w1)
    | (Err e, w1) => (Err e, with_db w.(w_db) w1)
    end.

(** ** Programs that agree *)

Lemma bind_ext {A B} (m : M A) (f g : A -> M B) w :
  (forall a w', f a w' = g a w') -> bind m f w = bind m g w.
Proof. intros H. unfold bind. destruct (m w) as [[]]; auto. Qed.
Lemma with_tx_ext {A} bc cc (b b' : M A) w :
  (forall w', b w' = b' w') -> with_tx bc cc b w = with_tx bc cc b' w.
Proof.
  intros H. unfold with_tx. apply bind_ext. intros [] w'; [done|]. by rewrite H.
Qed.

(** ** Weakest preconditions

    [wp m Q w]: running [m] from [w] ends in a result and a world that [Q]
    accepts.  The rules below step through a program; the one for statements
    keeps of the next world its database, that no fault is left when none was
    left before, and that the clock has not gone back. *)

Definition wp {A} (m : M A) (Q : res A -> World -> Prop) (w : World) : Prop :=
  Q (m w).1 (m w).2.

(** [w'] comes after [w] and holds database [d]. *)
Definition follows (w : World) (d : Database) (w' : World) : Prop :=
  w'.(w_db) = d /\ (w.(w_faults) = [] -> w'.(w_faults) = []) /\
  (w.(w_clock) <= w'.(w_clock))%nat.

Lemma follows_refl w : follows w w.(w_db) w.
Proof. done. Qed.
Lemma follows_trans w d w1 d1 w2 : follows w d w1 -> follows w1 d1 w2 -> follows w d1 w2.
Proof. intros (_ & F1 & C1) (D2 & F2 & C2). repeat split; auto; lia. Qed.
Lemma follows_with_db w d w' d' : follows w d w' -> follows w d' (with_db d' w').
Proof. intros (_ & ? & ?). done. Qed.
#[export] Hint Resolve follows_refl : owl.

Section rules.
Context {A B : Type}.
Implicit Types (w : World).

Lemma wp_ret (a : A) Q w : Q (Ok a) w -> wp (ret a) Q w.
Proof. done. Qed.
Lemma wp_fail e (Q : res A -> World -> Prop) w : Q (Err e) w -> wp (fail e) Q w.
Proof. done. Qed.
Lemma wp_bind (m : M A) (f : A -> M B) Q w :
  wp m (fun r w' => match r with Ok a => wp (f a) Q w' | Err e => Q (Err e) w' end) w ->
  wp (bind m f) Q w.
Proof. unfold wp, bind. destruct (m w) as [[a|e] w']; simpl; done. Qed.
Lemma wp_mono (m : M A) (Q Q' : res A -> World -> Prop) w :
  wp m Q w -> (forall r w', Q r w' -> Q' r w') -> wp m Q' w.
Proof. unfold wp. eauto. Qed.
Lemma wp_inv (m : M A) Q w r w' : wp m Q w -> m w = (r, w') -> Q r w'.
Proof. unfold wp. intros H E. by rewrite E in H. Qed.

End rules.

Section statement_rules.
Context {A : Type}.

Lemma wp_driver (Q : res bool -> World -> Prop) w :
  (forall b w', follows w w.(w_db) w' -> (w.(w_faults) = [] -> b = false) -> Q (Ok b) w') ->
  wp driver Q w.
Proof.
  intros H. unfold wp, driver. destruct (w_faults w) as [|b fs] eqn:E; apply H; try done.
  split; [done|]. split; [by rewrite E|done].
Qed.

Lemma wp_stmt ctx (f : Database -> option (A * Database)) Q w :
  (forall w', follows w w.(w_db) w' -> (w.(w_faults) = [] -> f w.(w_db) = None) ->
     Q (Err (EInternal ctx)) w') ->
  (forall a d w', f w.(w_db) = Some (a, d) -> follows w d w' -> Q (Ok a) w') ->
  wp (stmt ctx f) Q w.
Proof.
  intros Herr Hok. apply wp_bind, wp_driver. intros b w' Hf Hb. unfold wp.
  destruct b; [apply Herr; [done|intros Hn; by specialize (Hb Hn)]|].
  pose proof Hf as (Hd & Hff & Hc). rewrite Hd.
  destruct (f (w_db w)) as [[a d]|] eqn:Ef; simpl.
  - eapply Hok; [done|]. eapply follows_with_db, Hf.
  - by apply Herr.
Qed.
End statement_rules.

Lemma wp_exec ctx f Q w :
  (forall w', follows w w.(w_db) w' -> (w.(w_faults) = [] -> f w.(w_db) = None) ->
     Q (Err (EInternal ctx)) w') ->
  (forall d w', f w.(w_db) = Some d -> follows w d w' -> Q (Ok ()) w') ->
  wp (exec ctx f) Q w.
Proof.
  intros Herr Hok. apply wp_stmt.
  - intros w' Hf Hn. apply Herr; [done|]. intros H%Hn. by destruct (f (w_db w)).
  - intros [] d w' Hs Hf. destruct (f (w_db w)) eqn:E; simplify_eq/=. by eapply Hok.
Qed.

Lemma wp_query {A} ctx (f : Database -> A) Q w :
  (forall w', follows w w.(w_db) w' -> w.(w_faults) <> [] -> Q (Err (EInternal ctx)) w') ->
  (forall w', follows w w.(w_db) w' -> Q (Ok (f w.(w_db))) w') ->
  wp (query ctx f) Q w.
Proof.
  intros Herr Hok. apply wp_stmt.
  - intros w' Hf Hn. apply Herr; [done|]. intros H%Hn. done.
  - intros a d w' [= <- <-] Hf. auto.
Qed.

Lemma wp_with_tx {A} bc cc (body : M A) Q w :
  (forall c w', follows w w.(w_db) w' -> w.(w_faults) <> [] -> Q (Err (EInternal c)) w') ->
  (forall w0, follows w w.(w_db) w0 ->
     wp body (fun r w1 =>
       (w.(w_faults) = [] -> w1.(w_faults) = []) /\ (w.(w_clock) <= w1.(w_clock))%nat /\
       match r with
       | Ok a => forall w2, follows w w1.(w_db) w2 -> Q (Ok a) w2
       | Err e => forall w2, follows w w.(w_db) w2 -> Q (Err e) w2
       end) w0) ->
  wp (with_tx bc cc body) Q w.
Proof.
  intros Herr Hbody. apply wp_bind, wp_driver. intros b w0 Hf Hb. destruct b.
  - apply wp_fail. apply Herr; [done|]. intros Hn. by specialize (Hb Hn).
  - specialize (Hbody w0 Hf). unfold wp in Hbody |- *.
    pose proof Hf as (Hd & _ & _).
    destruct (body w0) as [[a|e] w1]; simpl in *; destruct Hbody as (Hf1 & Hc1 & HQ).
    + unfold driver. destruct (w_faults w1) as [|b fs] eqn:E1; simpl.
      * apply HQ. split; [done|]. by rewrite E1.
      * destruct b; simpl.
        -- apply Herr; [|intros Hn; by specialize (Hf1 Hn)].
           split; [done|]. split; [|done]. intros Hn. by specialize (Hf1 Hn).
        -- apply HQ. split; [done|]. split; [|done]. intros Hn. by specialize (Hf1 Hn).
    + apply HQ. split; [simpl; done|]. done.
Qed.

Lemma wp_with_tx_early {A} bc cc (body : M (outcome A)) Q w :
  (forall c w', follows w w.(w_db) w' -> w.(w_faults) <> [] -> Q (Err (EInternal c)) w') ->
  (forall w0, follows w w.(w_db) w0 ->
     wp body (fun r w1 =>
       (w.(w_faults) = [] -> w1.(w_faults) = []) /\ (w.(w_clock) <= w1.(w_clock))%nat /\
       match r with
       | Ok (Commit a) => forall w2, follows w w1.(w_db) w2 -> Q (Ok a) w2
       | Ok (Rollback a) => forall w2, follows w w.(w_db) w2 -> Q (Ok a) w2
       | Err e => forall w2, follows w w.(w_db) w2 -> Q (Err e) w2
       end) w0) ->
  wp (with_tx_early bc cc body) Q w.
Proof.
  intros Herr Hbody. apply wp_bind, wp_driver. intros b w0 Hf Hb. destruct b.
  - apply wp_fail. apply Herr; [done|]. intros Hn. by specialize (Hb Hn).
  - specialize (Hbody w0 Hf). unfold wp in Hbody |- *.
    pose proof Hf as (Hd & _ & _).
    destruct (body w0) as [[[a|a]|e] w1]; simpl in *; destruct Hbody as (Hf1 & Hc1 & HQ).
    + unfold driver. destruct (w_faults w1) as [|b fs] eqn:E1; simpl.
      * apply HQ. split; [done|]. by rewrite E1.
      * destruct b; simpl; [apply Herr; [|intros Hn; by specialize (Hf1 Hn)]|apply HQ];
          (split; [done|]; split; [|done]; intros Hn; by specialize (Hf1 Hn)).
    + apply HQ. split; [simpl; done|]. done.
    + apply HQ. split; [simpl; done|]. done.
Qed.

(** Whatever the body does, a failed transaction leaves the database alone. *)
Lemma with_tx_err {A} bc cc (body : M A) w e w' :
  with_tx bc cc body w = (Err e, w') -> w'.(w_db) = w.(w_db).
Proof.
  unfold with_tx, bind, driver. destruct (w_faults w) as [|[] fs]; simpl.
  - destruct (body w) as [[a|e'] w1]; [destruct (w_faults w1) as [|[] ?]|]; simpl; naive_solver.
  - unfold fail. naive_solver.
  - destruct (body _) as [[a|e'] w1]; [destruct (w_faults w1) as [|[] ?]|]; simpl; naive_solver.
Qed.

Lemma with_tx_early_err {A} bc cc (body : M (outcome A)) w e w' :
  with_tx_early bc cc body w = (Err e, w') -> w'.(w_db) = w.(w_db).
Proof.
  unfold with_tx_early, bind, driver, fail. destruct (w_faults w) as [|[] fs]; simpl; [|naive_solver|];
    (destruct (body _) as [[[a|a]|e'] w1]; [destruct (w_faults w1) as [|[] ?]| |]; simpl; naive_solver).
Qed.

Lemma res_bind_ok {A B} (r : res A) (f : A -> res B) b :
  res_bind r f = Ok b -> exists a, r = Ok a /\ f a = Ok b.
Proof. destruct r; [|done]. eauto. Qed.

Section env_rules.
Context `{E : Env}.

Lemma wp_now Q w :
  (forall w', follows w w.(w_db) w' -> w'.(w_clock) = S w.(w_clock) ->
     Q (Ok (clock w.(w_clock))) w') -> wp now Q w.
Proof. intros H. apply H; [|done]. repeat split; simpl; auto. Qed.
Lemma wp_new_uuid Q w :
  (forall w', follows w w.(w_db) w' -> Q (Ok (uuid_v7 w.(w_uuids))) w') -> wp new_uuid Q w.
Proof. intros H. apply H. by repeat split. Qed.
Lemma wp_read_random n Q w :
  (forall w', follows w w.(w_db) w' -> Q (Ok (rand_read w.(w_draws) n)) w') ->
  wp (read_random n) Q w.
Proof. intros H. apply H. by repeat split. Qed.
End env_rules.

Lemma wp_require b e Q w :
  (b = true -> Q (Ok ()) w) -> (b = false -> Q (Err e) w) -> wp (require b e) Q w.
Proof. destruct b; unfold wp; simpl; auto. Qed.
Lemma wp_of_option {A} e (o : option A) Q w :
  (forall a, o = Some a -> Q (Ok a) w) -> (o = None -> Q (Err e) w) -> wp (of_option e o) Q w.
Proof. destruct o; unfold wp; simpl; auto. Qed.
Lemma wp_of_res {A} (r : res A) Q w : Q r w -> wp (of_res r) Q w.
Proof. done. Qed.

Lemma wp_ignore_err {A} (m : M A) Q w :
  wp m (fun _ w' => Q (Ok ()) w') w -> wp (ignore_err m) Q w.
Proof. done. Qed.

Lemma wp_attempt {A} (m : M A) Q w :
  wp m (fun r w' => Q (Ok r) w') w -> wp (attempt m) Q w.
Proof. unfold wp, attempt. by destruct (m w). Qed.

(** Loops: an invariant over the elements done, the state and the world. *)
Lemma wp_foldM {A S} (I : list A -> S -> World -> Prop) (f : S -> A -> M S) l s Q w :
  I [] s w ->
  (forall pre x post s w, l = pre ++ x :: post -> I pre s w ->
     wp (f s x) (fun r w' => match r with
                             | Ok s' => I (pre ++ [x]) s' w'
                             | Err e => Q (Err e) w'
                             end) w) ->
  (forall s w, I l s w -> Q (Ok s) w) ->
  wp (foldM f s l) Q w.
Proof.
  intros H0 Hstep Hend.
  assert (G : forall post pre s w, l = pre ++ post -> I pre s w -> wp (foldM f s post) Q w).
  { induction post as [|x post IH]; intros pre s' w' -> HI; simpl.
    - apply Hend. by rewrite app_nil_r.
    - apply wp_bind. eapply wp_mono; [by eapply Hstep|].
      intros [s''|e] w'' HQ; [|done]. eapply (IH (pre ++ [x])); [|done].
      by rewrite <- app_assoc. }
  by eapply (G l []).
Qed.

Lemma wp_mapM {A B} (I : list A -> list B -> World -> Prop) (f : A -> M B) l Q w :
  I [] [] w ->
  (forall pre x post ys w, l = pre ++ x :: post -> I pre ys w ->
     wp (f x) (fun r w' => match r with
                           | Ok y => I (pre ++ [x]) (ys ++ [y]) w'
                           | Err e => Q (Err e) w'
                           end) w) ->
  (forall ys w, I l ys w -> Q (Ok ys) w) ->
  wp (mapM f l) Q w.
Proof.
  intros H0 Hstep Hend.
  assert (G : forall post pre ys w (Q' : res (list B) -> World -> Prop), l = pre ++ post -> I pre ys w ->
    (forall zs w', I l (ys ++ zs) w' -> Q' (Ok zs) w') ->
    (forall e w', Q (Err e) w' -> Q' (Err e) w') ->
    wp (mapM f post) Q' w).
  { induction post as [|x post IH]; intros pre ys w' Q' -> HI Hok Herr; simpl.
    - apply Hok. by rewrite !app_nil_r.
    - apply wp_bind. eapply wp_mono; [by eapply Hstep|].
      intros [y|e] w'' HQ; [|by apply Herr].
      apply wp_bind. eapply (IH (pre ++ [x]) (ys ++ [y])); [by rewrite <- app_assoc|done|..].
      + intros zs w3 HI3. apply Hok. by rewrite <- app_assoc in HI3.
      + done. }
  by eapply (G l [] []); [..|eauto].
Qed.

(** One step of symbolic execution. *)
Ltac wp1 :=
  lazymatch goal with
  | |- wp (bind _ _) _ _ => apply wp_bind
  | |- wp (ret _) _ _ => apply wp_ret
  | |- wp (fail _) _ _ => apply wp_fail
  | |- wp (require _ _) _ _ => apply wp_require; intros ?
  | |- wp (of_option _ _) _ _ => apply wp_of_option; [intros ? ?|intros ?]
  | |- wp (of_res _) _ _ => apply wp_of_res
  | |- wp (ignore_err _) _ _ => apply wp_ignore_err
  | |- wp (attempt _) _ _ => apply wp_attempt
  | |- wp now _ _ => apply wp_now; intros ? ? ?
  | |- wp new_uuid _ _ => apply wp_new_uuid; intros ? ?
  | |- wp (read_random _) _ _ => apply wp_read_random; intros ? ?
  | |- wp (exec _ _) _ _ => apply wp_exec; [intros ? ? ?|intros ? ? ? ?]
  | |- wp (query _ _) _ _ => apply wp_query; [intros ? ? ?|intros ? ?]
  | |- wp (stmt _ _) _ _ => apply wp_stmt; [intros ? ? ?|intros ? ? ? ? ?]
  end.

(** ** Successful runs

    What a run that returned a value says about its parts. *)

Section ok_runs.
Context {A B : Type}.

Lemma bind_ok (m : M A) (f : A -> M B) w b w' :
  bind m f w = (Ok b, w') -> exists a w1, m w = (Ok a, w1) /\ f a w1 = (Ok b, w').
Proof. unfold bind. destruct (m w) as [[a|e] w1]; [|done]. eauto. Qed.
Lemma ret_ok (a b : A) w w' : ret a w = (Ok b, w') -> a = b /\ w = w'.
Proof. by intros [= -> ->]. Qed.
Lemma of_res_ok (r : res A) w a w' : of_res r w = (Ok a, w') -> r = Ok a /\ w = w'.
Proof. by intros [= -> ->]. Qed.
Lemma of_option_ok e (o : option A) w a w' :
  of_option e o w = (Ok a, w') -> o = Some a /\ w = w'.
Proof. destruct o; [|done]. by intros [= -> ->]. Qed.
Lemma stmt_ok ctx (f : Database -> option (A * Database)) w a w' :
  stmt ctx f w = (Ok a, w') ->
  f w.(w_db) = Some (a, w'.(w_db)) /\ w'.(w_clock) = w.(w_clock) /\ w'.(w_uuids) = w.(w_uuids).
Proof.
  unfold stmt, bind, driver. destruct (w_faults w) as [|[] fs]; [|done|];
    simpl; destruct (f (w_db w)) as [[x d]|]; intros [= <- <-]; done.
Qed.
Lemma query_ok ctx (f : Database -> A) w a w' :
  query ctx f w = (Ok a, w') ->
  a = f w.(w_db) /\ w'.(w_db) = w.(w_db) /\ w'.(w_clock) = w.(w_clock) /\ w'.(w_uuids) = w.(w_uuids).
Proof. intros ([= <- <-] & ? & ?)%stmt_ok. done. Qed.
Lemma with_tx_ok bc cc (body : M A) w a w' :
  with_tx bc cc body w = (Ok a, w') ->
  exists w1 w2, body w1 = (Ok a, w2) /\ w1.(w_db) = w.(w_db) /\ w'.(w_db) = w2.(w_db) /\
    w1.(w_clock) = w.(w_clock) /\ w1.(w_uuids) = w.(w_uuids).
Proof.
  unfold with_tx, bind, driver. destruct (w_faults w) as [|[] fs]; [|done|]; simpl.
  - destruct (body w) as [[x|e] w1] eqn:Eb; [|done].
    destruct (w_faults w1) as [|[] ?]; intros [= <- <-]; by exists w, w1.
  - set (w0 := MkWorld _ _ _ _ _). destruct (body w0) as [[x|e] w1] eqn:Eb; [|done].
    destruct (w_faults w1) as [|[] ?]; intros [= <- <-]; by exists w0, w1.
Qed.
Lemma with_tx_early_ok bc cc (body : M (outcome A)) w a w' :
  with_tx_early bc cc body w = (Ok a, w') ->
  exists w1 w2, w1.(w_db) = w.(w_db) /\ w1.(w_clock) = w.(w_clock) /\
    ((body w1 = (Ok (Commit a), w2) /\ w'.(w_db) = w2.(w_db)) \/
     (body w1 = (Ok (Rollback a), w2) /\ w'.(w_db) = w.(w_db))).
Proof.
  unfold with_tx_early, bind, driver. destruct (w_faults w) as [|[] fs]; [|done|]; simpl.
  - destruct (body w) as [[[x|x]|e] w1] eqn:Eb; [| |done].
    + destruct (w_faults w1) as [|[] ?]; intros [= <- <-]; exists w, w1; eauto.
    + intros [= <- <-]. exists w, w1. eauto.
  - set (w0 := MkWorld _ _ _ _ _). destruct (body w0) as [[[x|x]|e] w1] eqn:Eb; [| |done].
    + destruct (w_faults w1) as [|[] ?]; intros [= <- <-]; exists w0, w1; eauto.
    + intros [= <- <-]. exists w0, w1. eauto.
Qed.
End ok_runs.

Lemma exec_ok ctx f w u w' :
  exec ctx f w = (Ok u, w') ->
  f w.(w_db) = Some w'.(w_db) /\ w'.(w_clock) = w.(w_clock) /\ w'.(w_uuids) = w.(w_uuids).
Proof.
  intros (H & ? & ?)%stmt_ok. destruct (f (w_db w)); [|done]. injection H as _ <-. done.
Qed.
Lemma require_ok b e w u w' : require b e w = (Ok u, w') -> b = true /\ w = w'.
Proof. destruct b; [|done]. by intros [= _ ->]. Qed.
Lemma now_ok `{E : Env} w t w' :
  now w = (Ok t, w') -> t = clock w.(w_clock) /\ w'.(w_db) = w.(w_db) /\ w'.(w_clock) = S w.(w_clock).
Proof. by intros [= <- <-]. Qed.
Lemma new_uuid_ok `{E : Env} w u w' :
  new_uuid w = (Ok u, w') ->
  u = uuid_v7 w.(w_uuids) /\ w'.(w_db) = w.(w_db) /\ w'.(w_clock) = w.(w_clock).
Proof. by intros [= <- <-]. Qed.

(** Take a successful run apart. *)
Ltac run_ok1 :=
  match goal with
  | H : bind _ _ _ = (Ok _, _) |- _ => apply bind_ok in H as (? & ? & ? & H); cbv beta in H
  | H : ret _ _ = (Ok _, _) |- _ => apply ret_ok in H as [? ?]
  | H : of_res _ _ = (Ok _, _) |- _ => apply of_res_ok in H as [? ?]
  | H : of_option _ _ _ = (Ok _, _) |- _ => apply of_option_ok in H as [? ?]
  | H : require _ _ _ = (Ok _, _) |- _ => apply require_ok in H as [? ?]
  | H : exec _ _ _ = (Ok _, _) |- _ => apply exec_ok in H as (? & ? & ?)
  | H : query _ _ _ = (Ok _, _) |- _ => apply query_ok in H as (? & ? & ? & ?)
  | H : stmt _ _ _ = (Ok _, _) |- _ => apply stmt_ok in H as (? & ? & ?)
  | H : now _ = (Ok _, _) |- _ => apply now_ok in H as (? & ? & ?)
  | H : new_uuid _ = (Ok _, _) |- _ => apply new_uuid_ok in H as (? & ? & ?)
  | H : with_tx _ _ _ _ = (Ok _, _) |- _ => apply with_tx_ok in H as (? & ? & H & ? & ? & ? & ?)
  end.
Ltac run_ok := repeat run_ok1; simplify_eq/=.

(** The databases of a run taken apart, in terms of the first one. *)
Ltac dbs :=
  repeat (match goal with
          | H : w_db ?x = _ |- context [w_db ?x] => rewrite H
          | H : ?f _ _ = w_db ?x |- context [w_db ?x] => rewrite <- H
          end; simpl).

(** The unit values of loops. *)
Ltac units := repeat match goal with u : () |- _ => destruct u end.

Lemma mapM_ok {A B} (f : A -> M B) l w ys w' :
  mapM f l w = (Ok ys, w') -> Forall2 (fun x y => exists w1 w2, f x w1 = (Ok y, w2)) l ys.
Proof.
  revert w ys. induction l as [|x l IH]; intros w ys H; simpl in H; run_ok; [constructor|].
  constructor; [eauto|]. by eapply IH.
Qed.

(** ** Runs without driver faults *)

Section no_faults.
Context {A B : Type}.
Implicit Types w : World.

Lemma bind_run (m : M A) (f : A -> M B) w a w1 : m w = (Ok a, w1) -> bind m f w = f a w1.
Proof. unfold bind. by intros ->. Qed.
Lemma bind_fails (m : M A) (f : A -> M B) w e w1 : m w = (Err e, w1) -> bind m f w = (Err e, w1).
Proof. unfold bind. by intros ->. Qed.
Lemma stmt_run ctx (f : Database -> option (A * Database)) w a d :
  w.(w_faults) = [] -> f w.(w_db) = Some (a, d) -> stmt ctx f w = (Ok a, with_db d w).
Proof. unfold stmt, bind, driver. intros -> H. simpl. by rewrite H. Qed.
Lemma query_run ctx (f : Database -> A) w :
  w.(w_faults) = [] -> query ctx f w = (Ok (f w.(w_db)), w).
Proof. intros H. unfold query. erewrite stmt_run by done. by destruct w. Qed.
Lemma with_tx_run bc cc (body : M A) w a w1 :
  w.(w_faults) = [] -> body w = (Ok a, w1) -> w1.(w_faults) = [] ->
  with_tx bc cc body w = (Ok a, w1).
Proof. unfold with_tx, bind, driver. intros -> Hb Hf. simpl. rewrite Hb. simpl. by rewrite Hf. Qed.
Lemma with_tx_fails bc cc (body : M A) w e w1 :
  w.(w_faults) = [] -> body w = (Err e, w1) ->
  with_tx bc cc body w = (Err e, with_db w.(w_db) w1).
Proof. unfold with_tx, bind, driver. intros -> Hb. simpl. by rewrite Hb. Qed.
End no_faults.

Lemma exec_run ctx f w d :
  w.(w_faults) = [] -> f w.(w_db) = Some d -> exec ctx f w = (Ok (), with_db d w).
Proof. intros Hf H. apply stmt_run; [done|]. by rewrite H. Qed.
Definition tick (w : World) : World :=
  MkWorld w.(w_db) w.(w_faults) (S w.(w_clock)) w.(w_uuids) w.(w_draws).
Lemma now_run `{E : Env} w : now w = (Ok (clock w.(w_clock)), tick w).
Proof. done. Qed.
