(* ===== verification/Http.v ===== *)
(** * HTTP: cookies, JSON replies and error references

    Shared by the handlers of all packages and the middleware: a reply is a status,
    a JSON body and the cookies it sets.  [Ref] is [errcode.Ref]
    (internal/errcode/errcode.go). *)

From S2P Require Import Prelude.
From S2P Require Import GoStr.
From S2P Require Import Schema.
From S2P Require Import Eff.

Local Open Scope Z_scope.

(** [net.SplitHostPort] *)
Class HttpEnv := { split_host_port : string -> option (string * string) }.

(** [http.Cookie], the fields the program sets. *)
Record Cookie := MkCookie {
  ck_name : string; ck_value : string; ck_path : string; ck_httpOnly : bool;
  ck_secure : bool; ck_sameSite : string; ck_maxAge : Z }.

(** [strings.IndexByte]: -1 when the byte is absent. *)
Fixpoint index_bytes (c : ascii) (l : bytes) : Z :=
  match l with
  | [] => -1
  | d :: t => if bool_decide (d = c) then 0
              else let i := index_bytes c t in if i <? 0 then -1 else i + 1
  end.
Definition index_byte (s : string) (c : ascii) : Z := index_bytes c (to_bytes s).
(** [s[:i]] and [s[i:]] *)
Definition str_take (i : Z) (s : string) : string := of_bytes (take (Z.to_nat i) (to_bytes s)).
Definition str_drop (i : Z) (s : string) : string := of_bytes (drop (Z.to_nat i) (to_bytes s)).

Lemma index_bytes_absent c l : c ∉ l -> index_bytes c l = -1.
Proof.
  induction l as [|d t IH]; simpl; [done|]. intros [Hd Ht]%not_elem_of_cons.
  rewrite bool_decide_eq_false_2 by done. by rewrite IH.
Qed.
Lemma index_bytes_first c l k : c ∉ l -> index_bytes c (l ++ c :: k) = Z.of_nat (length l).
Proof.
  induction l as [|d t IH]; simpl; [intros _; by rewrite bool_decide_eq_true_2|].
  intros [Hd Ht]%not_elem_of_cons. rewrite bool_decide_eq_false_2, IH by done.
  destruct (Z.ltb_spec (Z.of_nat (length t)) 0); lia.
Qed.
Lemma index_bytes_split c l :
  0 <= index_bytes c l ->
  exists a k, l = a ++ c :: k /\ c ∉ a /\ index_bytes c l = Z.of_nat (length a).
Proof.
  induction l as [|d t IH]; simpl; [lia|]. destruct (bool_decide_reflect (d = c)) as [->|Hd].
  - intros _. exists [], t. split_and!; [done|apply not_elem_of_nil|done].
  - destruct (Z.ltb_spec (index_bytes c t) 0); [lia|]. intros _.
    destruct IH as (a & k & -> & Ha & Hi); [done|]. exists (d :: a), k.
    split_and!; [done|by apply not_elem_of_cons|]. simpl. lia.
Qed.

Lemma drop_after (a : bytes) c k : drop (S (length a)) (a ++ c :: k) = k.
Proof. by induction a. Qed.

(** A string cut at its first occurrence of a byte. *)
Lemma index_byte_cut s c :
  0 <= index_byte s c ->
  s = str_take (index_byte s c) s +:+ of_bytes [c] +:+ str_drop (index_byte s c + 1) s /\
  c ∉ to_bytes (str_take (index_byte s c) s).
Proof.
  unfold index_byte, str_take, str_drop. intros (a & k & Hs & Ha & Hi)%index_bytes_split.
  rewrite Hi, Hs. rewrite Nat2Z.id, take_app_length. split; [|by rewrite to_of_bytes].
  replace (Z.to_nat (Z.of_nat (length a) + 1)) with (S (length a)) by lia.
  rewrite drop_after, <- !of_bytes_app. simpl. by rewrite <- Hs, of_to_bytes.
Qed.
Lemma index_byte_app a b c :
  c ∉ to_bytes a ->
  let s := a +:+ of_bytes [c] +:+ b in
  index_byte s c = Z.of_nat (length (to_bytes a)) /\
  str_take (index_byte s c) s = a /\ str_drop (index_byte s c + 1) s = b.
Proof.
  intros Ha s. assert (to_bytes s = to_bytes a ++ c :: to_bytes b) as Hs
    by (unfold s; by rewrite !to_bytes_app, to_of_bytes).
  assert (index_byte s c = Z.of_nat (length (to_bytes a))) as Hi
    by (unfold index_byte; rewrite Hs; by apply index_bytes_first).
  rewrite Hi. unfold str_take, str_drop. rewrite Hs, Nat2Z.id, take_app_length. split_and!; [done| |].
  - apply of_to_bytes.
  - replace (Z.to_nat (Z.of_nat (length (to_bytes a)) + 1)) with (S (length (to_bytes a))) by lia.
    rewrite drop_after. apply of_to_bytes.
Qed.

(** ** JSON replies and error references

    What the handlers of the packages [auth], [event], [instanceconfig],
    [useradmin], [scheduler], [question] and [webhook] share: a reply is a status, a JSON body and the cookies it sets.
    [Ref] is [errcode.Ref] (internal/errcode/errcode.go). *)

(** [%X] of the bytes. *)
Definition hex_upper_char (n : Z) : ascii := if n <? 10 then digit_of n else byte_of (65 + (n - 10)).
Definition hex_upper (s : string) : string :=
  of_bytes (flat_map (fun c => [hex_upper_char (byte_val c / 16); hex_upper_char (byte_val c mod 16)])
              (to_bytes s)).

(** [P] is what a package's handlers write under [data]. *)
Inductive JsonBody (P : Type) :=
| JNone
| JData (p : P)
| JError (code message : string)
| JErrorText (code : string) (e : err)  (* the message is [e.Error()] *)
| JErrorOnly (message : string).
Arguments JNone {P}.
Arguments JData {P} p.
Arguments JError {P} code message.
Arguments JErrorText {P} code e.
Arguments JErrorOnly {P} message.

Record Resp (P : Type) := MkResp {
  rs_status : Z; rs_body : JsonBody P; rs_cookies : list Cookie }.
Arguments MkResp {P} rs_status rs_body rs_cookies.
Arguments rs_status {P} r.
Arguments rs_body {P} r.
Arguments rs_cookies {P} r.

Definition json {P} (status : Z) (p : P) : Resp P := MkResp status (JData p) [].
Definition json_error {P} (status : Z) (code message : string) : Resp P :=
  MkResp status (JError code message) [].

Definition error_text {P} (status : Z) (code : string) (e : err) : Resp P :=
  MkResp status (JErrorText code e) [].

(** How the handlers of reminders, questions, webhooks and notifications begin. *)
Definition login_needed {P} : Resp P := json_error 401 "unauthorized" "authentication required".
Definition bad_body {P} : Resp P := json_error 400 "bad_request" "invalid JSON body".
Definition no_event {P} : Resp P := json_error 404 "not_found" "event not found".
Definition bad_request {P} (message : string) : Resp P := json_error 400 "bad_request" message.
Definition plain_internal {P} : Resp P :=
  json_error 500 "internal_error" "an internal error occurred".

Section guards.
Context {P : Type}.
Definition for_user (organizer : option string) (k : string -> M (Resp P)) : M (Resp P) :=
  match organizer with None => ret login_needed | Some id => k id end.
Definition for_body {B} (body : option B) (k : B -> M (Resp P)) : M (Resp P) :=
  match body with None => ret bad_body | Some b => k b end.
(** [a, err := call(); if err != nil { ... }] *)
Definition on_ok {A} (m : M A) (on_error : err -> M (Resp P)) (k : A -> M (Resp P)) : M (Resp P) :=
  r <- attempt m ;;
  match r with Ok a => k a | Err e => on_error e end.
End guards.

Section reply.
Context `{E : Env}.

(** [errcode.Ref]: the error of [rand.Read] is dropped. *)
Definition Ref : M string :=
  o <- read_random 4 ;;
  ret ("ERR-" +:+ hex_upper (default (of_bytes (replicate 4 (byte_of 0))) o)).

(** The 500 reply that names only a reference of the log entry. *)
Definition internal_error {P} : M (Resp P) :=
  ref <- Ref ;;
  ret (json_error 500 "internal_error" ("an internal error occurred (ref: " +:+ ref +:+ ")")).
End reply.
