(* ===== verification/Respect.v ===== *)
(** * Relations a program keeps

    [respects R m]: however [m] ends, the database after it is related by [R] to
    the one before; [ok_respects R m] says it of the runs that return a value,
    which is all a transaction needs, since it undoes the others.  With
    [R d d' := I d -> I d'] these are preservation of an invariant; with other
    preorders they are monotonicity and frame properties.  One rule per
    construct; the tactic [respect] runs them. *)

From S2P Require Import Prelude.
From S2P Require Import GoTime.
From S2P Require Import Schema.
From S2P Require Import Eff.
From S2P Require Import Http.

Definition respects {A} (R : Database -> Database -> Prop) (m : M A) : Prop :=
  forall w, R w.(w_db) (m w).2.(w_db).
Definition ok_respects {A} (R : Database -> Database -> Prop) (m : M A) : Prop :=
  forall w a w', m w = (Ok a, w') -> R w.(w_db) w'.(w_db).

(** Preservation of an invariant as a relation. *)
Definition keeps (I : Database -> Prop) (d d' : Database) : Prop := I d -> I d'.
#[global] Instance keeps_preorder I : PreOrder (keeps I).
Proof. split; unfold keeps; [by intros ?|by intros ???; auto]. Qed.

(** The program only reads the database. *)
Definition same_db (d d' : Database) : Prop := d' = d.
#[global] Instance same_db_preorder : PreOrder same_db.
Proof. split; unfold same_db; [by intros ?|congruence]. Qed.
Abbreviation reads := (respects same_db).

(** Statements and operations known to respect the relations of the development. *)
Create HintDb respects.

Section rules.
Context (R : Database -> Database -> Prop) `{PR : !PreOrder R}.
Context {A B : Type}.

Lemma respects_ok (m : M A) : respects R m -> ok_respects R m.
Proof. intros H w a w' E. specialize (H w). by rewrite E in H. Qed.

Lemma respects_same (m : M A) : (forall w, (m w).2.(w_db) = w.(w_db)) -> respects R m.
Proof. intros H w. by rewrite H. Qed.
Lemma respects_ret (a : A) : respects R (ret a).
Proof. by intros w. Qed.
Lemma respects_fail e : respects R (fail e : M A).
Proof. by intros w. Qed.
Lemma respects_of_res (r : res A) : respects R (of_res r).
Proof. by intros w. Qed.
Lemma respects_of_option e (o : option A) : respects R (of_option e o).
Proof. destruct o; by intros w. Qed.

Lemma respects_bind (m : M A) (f : A -> M B) :
  respects R m -> (forall a, respects R (f a)) -> respects R (bind m f).
Proof.
  intros Hm Hf w. unfold bind. specialize (Hm w). destruct (m w) as [[a|e] w']; simpl in *; [|done].
  by etrans; [|apply Hf].
Qed.
Lemma ok_respects_bind (m : M A) (f : A -> M B) :
  ok_respects R m -> (forall a, ok_respects R (f a)) -> ok_respects R (bind m f).
Proof.
  intros Hm Hf w b w'. unfold bind. destruct (m w) as [[a|e] w1] eqn:E; [|done].
  intros E2. etrans; [by eapply Hm|by eapply Hf].
Qed.

Lemma respects_driver : respects R driver.
Proof. intros w. unfold driver. by destruct (w_faults w). Qed.

Lemma respects_stmt ctx (f : Database -> option (A * Database)) :
  (forall d a d', f d = Some (a, d') -> R d d') -> respects R (stmt ctx f).
Proof.
  intros H w. unfold stmt, bind, driver.
  destruct (w_faults w) as [|[] fs]; simpl; [|done|];
    destruct (f (w_db w)) as [[a d]|] eqn:E; simpl; try done; by eapply H.
Qed.
Lemma respects_query ctx (f : Database -> A) : respects R (query ctx f).
Proof. apply respects_stmt. by intros d a d' [= _ <-]. Qed.

Lemma respects_with_tx bc cc (body : M A) : ok_respects R body -> respects R (with_tx bc cc body).
Proof.
  intros H w. unfold with_tx, bind, driver. unfold ok_respects in H.
  destruct (w_faults w) as [|[] fs]; simpl; [|done|].
  - destruct (body w) as [[a|e] w1] eqn:E; simpl; [|done].
    apply H in E. destruct (w_faults w1) as [|[] ?]; done.
  - destruct (body _) as [[a|e] w1] eqn:E; simpl; [|done].
    apply H in E. destruct (w_faults w1) as [|[] ?]; done.
Qed.
Lemma respects_with_tx_early bc cc (body : M (outcome A)) :
  ok_respects R body -> respects R (with_tx_early bc cc body).
Proof.
  intros H w. unfold with_tx_early, bind, driver. unfold ok_respects in H.
  destruct (w_faults w) as [|[] fs]; simpl; [|done|].
  - destruct (body w) as [[[a|a]|e] w1] eqn:E; simpl; try done.
    apply H in E. destruct (w_faults w1) as [|[] ?]; done.
  - destruct (body _) as [[[a|a]|e] w1] eqn:E; simpl; try done.
    apply H in E. destruct (w_faults w1) as [|[] ?]; done.
Qed.

Lemma respects_ignore_err (m : M A) : respects R m -> respects R (ignore_err m).
Proof. intros H w. apply H. Qed.
Lemma respects_attempt (m : M A) : respects R m -> respects R (attempt m).
Proof. intros H w. specialize (H w). unfold attempt. by destruct (m w). Qed.
Lemma respects_or_err e (m : M A) : respects R m -> respects R (or_err e m).
Proof. intros H w. specialize (H w). unfold or_err. by destruct (m w) as [[]]. Qed.
End rules.

Section rules2.
Context (R : Database -> Database -> Prop) `{PR : !PreOrder R}.

Lemma respects_require b e : respects R (require b e).
Proof. destruct b; by intros w. Qed.
(** What follows a guard runs only when the guard holds. *)
Lemma respects_guard {A} b e (f : () -> M A) :
  (b = true -> respects R (f ())) -> respects R (bind (require b e) f).
Proof. intros H w. destruct b; simpl; [by apply H|done]. Qed.
Lemma ok_respects_guard {A} b e (f : () -> M A) :
  (b = true -> ok_respects R (f ())) -> ok_respects R (bind (require b e) f).
Proof. intros H w a w'. destruct b; simpl; [by apply H|done]. Qed.
Lemma respects_exec ctx f :
  (forall d d', f d = Some d' -> R d d') -> respects R (exec ctx f).
Proof.
  intros H. apply respects_stmt; [done|]. intros d [] d'.
  destruct (f d) eqn:E; simpl; [|done]. intros [= <-]. by apply H.
Qed.
Lemma respects_foldM {A S} (f : S -> A -> M S) l s :
  (forall s x, x ∈ l -> respects R (f s x)) -> respects R (foldM f s l).
Proof.
  revert s. induction l as [|x l IH]; intros s H; simpl; [by intros w|].
  intros w. unfold bind. pose proof (H s x ltac:(constructor) w) as Hx.
  destruct (f s x w) as [[s'|e] w']; simpl in *; [|done].
  etrans; [done|]. apply IH. intros s'' y Hy. apply H. by constructor.
Qed.
Lemma ok_respects_foldM {A S} (f : S -> A -> M S) l s :
  (forall s x, x ∈ l -> ok_respects R (f s x)) -> ok_respects R (foldM f s l).
Proof.
  revert s. induction l as [|x l IH]; intros s H; simpl; [by intros w ? ? [= _ <-]|].
  apply ok_respects_bind; [done|apply H; constructor|].
  intros s'. apply IH. intros. apply H. by constructor.
Qed.
Lemma respects_forM {A} (l : list A) f :
  (forall x, x ∈ l -> respects R (f x)) -> respects R (forM l f).
Proof. intros H. apply respects_foldM; auto. Qed.
Lemma ok_respects_forM {A} (l : list A) f :
  (forall x, x ∈ l -> ok_respects R (f x)) -> ok_respects R (forM l f).
Proof. intros H. apply ok_respects_foldM; auto. Qed.
Lemma respects_mapM {A B} (f : A -> M B) l :
  (forall x, x ∈ l -> respects R (f x)) -> respects R (mapM f l).
Proof.
  induction l as [|x l IH]; intros H; simpl; [by apply respects_ret|].
  apply respects_bind; [done|apply H; constructor|]. intros y.
  apply respects_bind; [done|apply IH; intros; apply H; by constructor|].
  intros r. by apply respects_ret.
Qed.
Lemma respects_if {A} (b : bool) (m n : M A) :
  respects R m -> respects R n -> respects R (if b then m else n).
Proof. by destruct b. Qed.
Context `{E : Env}.
Lemma respects_now : respects R now.
Proof. by intros w. Qed.
Lemma respects_new_uuid : respects R new_uuid.
Proof. by intros w. Qed.
Lemma respects_read_random n : respects R (read_random n).
Proof. by intros w. Qed.
End rules2.

(** Step through a program with the rules; what is left are statements. *)
Ltac respect1 :=
  lazymatch goal with
  | |- ok_respects _ (bind (require _ _) _) => apply ok_respects_guard; intros ?
  | |- respects _ (bind (require _ _) _) => apply respects_guard; [apply _|intros ?]
  | |- ok_respects _ (bind _ _) => apply ok_respects_bind; [assumption || apply _| |intros ?]
  | |- ok_respects _ (forM _ _) => apply ok_respects_forM; [apply _|intros ? ?]
  | |- ok_respects _ (foldM _ _ _) => apply ok_respects_foldM; [apply _|intros ? ? ?]
  | |- ok_respects _ _ => first [solve [eauto with respects] | apply respects_ok]
  | |- respects _ (bind _ _) => apply respects_bind; [apply _| |intros ?]
  | |- respects _ (ret _) => apply respects_ret; apply _
  | |- respects _ (fail _) => apply respects_fail; apply _
  | |- respects _ (of_res _) => apply respects_of_res; apply _
  | |- respects _ (of_option _ _) => apply respects_of_option; apply _
  | |- respects _ (require _ _) => apply respects_require; apply _
  | |- respects _ (query _ _) => apply respects_query; apply _
  | |- respects _ (exec _ _) => apply respects_exec; [apply _|intros ? ?]
  | |- respects _ (stmt _ _) => apply respects_stmt; [apply _|intros ? ? ?]
  | |- respects _ (with_tx _ _ _) => apply respects_with_tx; [apply _|]
  | |- respects _ (with_tx_early _ _ _) => apply respects_with_tx_early; [apply _|]
  | |- respects _ (ignore_err _) => apply respects_ignore_err
  | |- respects _ (attempt _) => apply respects_attempt
  | |- respects _ (or_err _ _) => apply respects_or_err
  | |- respects _ (forM _ _) => apply respects_forM; [apply _|intros ? ?]
  | |- respects _ (foldM _ _ _) => apply respects_foldM; [apply _|intros ? ? ?]
  | |- respects _ (mapM _ _) => apply respects_mapM; [apply _|intros ? ?]
  | |- respects _ (if ?b then _ else _) => destruct b eqn:?
  | |- respects _ (match ?o with _ => _ end) => destruct o eqn:?
  | |- respects _ (let _ := _ in _) => cbv zeta
  | |- respects _ now => apply respects_now; apply _
  | |- respects _ new_uuid => apply respects_new_uuid; apply _
  | |- respects _ (read_random _) => apply respects_read_random; apply _
  end.
Ltac respect := repeat respect1; eauto with respects.

(** The rest of a successful run keeps [I]. *)
Ltac ok_keeps H I K :=
  lazymatch type of H with
  | ?m ?w = (Ok _, ?w') =>
      assert (K : ok_respects (keeps I) m); [|specialize (K _ _ _ H); unfold keeps in K]
  end.

(** ** Rules for the guards of the handlers

    What [for_user], [for_body] and [on_ok] of [Http] do to a relation that a
    program keeps ([Respect]) and to weakest preconditions. *)

(** A program that reads leaves the database. *)
Lemma reads_db {A} (m : M A) w r w' : reads m -> m w = (r, w') -> w'.(w_db) = w.(w_db).
Proof. intros H E. specialize (H w). by rewrite E in H. Qed.
Lemma reads_respects {A} R `{!PreOrder R} (m : M A) : reads m -> respects R m.
Proof. intros H w. rewrite (H w). reflexivity. Qed.

Section guards.
Context (R : Database -> Database -> Prop) `{PR : !PreOrder R} {P : Type}.

Lemma respects_on_ok {A} (m : M A) (one : err -> M (Resp P)) k :
  respects R m -> (forall e, respects R (one e)) -> (forall a, respects R (k a)) ->
  respects R (on_ok m one k).
Proof.
  intros Hm He Hk. unfold on_ok. apply respects_bind; [done|by apply respects_attempt|].
  by intros [a|e].
Qed.
Lemma respects_for_user organizer (k : string -> M (Resp P)) :
  (forall id, respects R (k id)) -> respects R (for_user organizer k).
Proof. intros H. destruct organizer; [apply H|by apply respects_ret]. Qed.
Lemma respects_for_body {B} (body : option B) (k : B -> M (Resp P)) :
  (forall b, respects R (k b)) -> respects R (for_body body k).
Proof. intros H. destruct body; [apply H|by apply respects_ret]. Qed.
Lemma respects_internal_error `{E : Env} : respects R (internal_error : M (Resp P)).
Proof. unfold internal_error, Ref. respect. Qed.
Lemma respects_now_text `{E : Env} : respects R now_text.
Proof. unfold now_text. respect. Qed.
End guards.

Ltac respect_reply1 :=
  lazymatch goal with
  | |- respects _ (on_ok _ _ _) => apply respects_on_ok; [apply _| |intros ?|intros ?]
  | |- respects _ (for_user _ _) => apply respects_for_user; [apply _|intros ?]
  | |- respects _ (for_body _ _) => apply respects_for_body; [apply _|intros ?]
  | |- respects _ internal_error => apply respects_internal_error; apply _
  | |- respects _ now_text => apply respects_now_text; apply _
  | |- _ => respect1
  end.
Ltac respect_reply := repeat respect_reply1; eauto with respects.

(** ** Weakest preconditions *)

Lemma wp_run {A} (m : M A) Q w : (forall r w', m w = (r, w') -> Q r w') -> wp m Q w.
Proof. unfold wp. destruct (m w) as [r w']. eauto. Qed.
Lemma wp_on_ok {A P} (m : M A) (one : err -> M (Resp P)) k Q w :
  wp m (fun r w' => match r with Ok a => wp (k a) Q w' | Err e => wp (one e) Q w' end) w ->
  wp (on_ok m one k) Q w.
Proof. unfold wp, on_ok, bind, attempt. by destruct (m w) as [[a|e] w']. Qed.

(** Preservation of an invariant, by weakest preconditions. *)
Lemma keeps_wp {A} (I : Database -> Prop) (m : M A) :
  (forall w, I w.(w_db) -> wp m (fun _ w' => I w'.(w_db)) w) -> respects (keeps I) m.
Proof. intros H w Hw. by apply (H w). Qed.

(** A call that only reads: the rest runs on the same database. *)
Lemma wp_on_ok_reads {A P} (m : M A) (one : err -> M (Resp P)) k Q w :
  reads m ->
  (forall e w', w'.(w_db) = w.(w_db) -> wp (one e) Q w') ->
  (forall a w', m w = (Ok a, w') -> w'.(w_db) = w.(w_db) -> wp (k a) Q w') ->
  wp (on_ok m one k) Q w.
Proof.
  intros Hm He Hk. apply wp_on_ok, wp_run. intros r w' Hr.
  pose proof (reads_db _ _ _ _ Hm Hr). destruct r; auto.
Qed.
Lemma wp_reads {A} (m : M A) (Q : Database -> Prop) w :
  reads m -> Q w.(w_db) -> wp m (fun _ w' => Q w'.(w_db)) w.
Proof. intros Hm HQ. unfold wp. by rewrite (Hm w). Qed.
(** [m ;; k] where [m] only reads. *)
Lemma wp_bind_reads {A B} (m : M A) (k : A -> M B) (Q : Database -> Prop) w :
  reads m -> Q w.(w_db) ->
  (forall a w', m w = (Ok a, w') -> w'.(w_db) = w.(w_db) -> wp (k a) (fun _ w => Q w.(w_db)) w') ->
  wp (bind m k) (fun _ w => Q w.(w_db)) w.
Proof.
  intros Hm HQ Hk. apply wp_bind, wp_run. intros r w' Hr.
  pose proof (reads_db _ _ _ _ Hm Hr) as Hd. destruct r; [by apply Hk|by rewrite Hd].
Qed.

(** ** Calls out of the program *)

(** Nothing happened to the database and the driver. *)
Definition idle (w w' : World) : Prop := follows w w.(w_db) w'.
#[global] Instance idle_preorder : PreOrder idle.
Proof.
  split; [by intros w|]. intros a b c H1 H2. unfold idle in *. pose proof H1 as [Hd _].
  rewrite <- Hd. by eapply follows_trans.
Qed.

(** A call out of the program returns, and does nothing to them. *)
Definition external {A} (m : M A) : Prop := forall w, exists a w', m w = (Ok a, w') /\ idle w w'.
Lemma wp_external {A} (m : M A) Q w :
  external m -> (forall a w', m w = (Ok a, w') -> idle w w' -> Q (Ok a) w') -> wp m Q w.
Proof. intros H HQ. destruct (H w) as (a & w' & Hm & Hf). unfold wp. rewrite Hm. by apply HQ. Qed.
