(* ===== verification/Demo.v ===== *)
(** * A concrete environment and database

    Used by the examples that show the theorems' hypotheses can hold.  The hash
    and MAC are the identity, UUIDs count up, and the clock ticks once a second. *)

From S2P Require Import Prelude.
From S2P Require Import GoStr.
From S2P Require Import GoTime.
From S2P Require Import Schema.
From S2P Require Import Eff.

Local Open Scope Z_scope.

Definition demo_start : time := 1767225600 * ns_per_sec. (* 2026-01-01T00:00:00Z *)

Definition demo_env : Env := {|
  clock n := demo_start + Z.of_nat n * ns_per_sec;
  uuid_v7 n := "u" +:+ itoa (Z.of_nat n);
  rand_read n k := Some (of_bytes (replicate k (byte_of (Z.of_nat n))));
  hmac_sha256 _ m := m;
  sha256 m := m;
  unicode_lower s := s;
  json_strings s := Some (if bool_decide (s = "[]") then [] else split s ",");
  json_background _ := None;
  url_scheme _ := None;
  go_quote s := s;
  render_invitation_html _ _ _ _ := Some "";
  render_magic_link_html _ _ := Some "";
  format_event_date _ _ := "";
  json_object _ := "{}";
  json_list l := if bool_decide (l = []) then "[]" else join l ",";
  json_payload event stamp data := event +:+ " " +:+ stamp +:+ " " +:+ data;
  mail_address s := if contains s "@" then Some s else None;
  dialect := "sqlite" |}.

Definition demo_text : string := "2026-01-01T00:00:00Z".
Definition demo_later : string := "2026-02-01T00:00:00Z".

Definition demo_event : EventRow :=
  {| e_title := "Party"; e_description := ""; e_event_date := demo_later; e_end_date := None;
     e_location := "Home"; e_timezone := "UTC"; e_status := "published"; e_retention_days := 30;
     e_show_headcount := false; e_show_guest_list := false; e_rsvp_deadline := None;
     e_series_id := None; e_series_index := None; e_series_override := false;
     e_created_at := demo_text; e_updated_at := demo_text |}.

Definition demo_question : QuestionRow :=
  {| q_event_id := "ev"; q_label := "Song"; q_type := "text"; q_options := "[]";
     q_required := true; q_scope := "invitation"; q_sort_order := 0; q_deleted := false;
     q_created_at := demo_text; q_updated_at := demo_text |}.

Definition demo_invitation : InvitationRow :=
  {| i_event_id := "ev"; i_label := "Smith"; i_contact_email := Some "a@b.c";
     i_norm_email := Some "a@b.c"; i_contact_phone := None; i_norm_phone := None;
     i_method := "email"; i_allowance := 1; i_source := "private"; i_open_id := None;
     i_access_id := "acc"; i_token_version := 1; i_created_by := Some "org";
     i_revoked_at := None; i_reason := None; i_created_at := demo_text;
     i_updated_at := demo_text |}.
Definition demo_guest : GuestRow :=
  {| g_invitation_id := "inv"; g_name := "Jane"; g_origin := "assigned"; g_sort_order := 0;
     g_removed_at := None; g_created_at := demo_text; g_updated_at := demo_text |}.
Definition demo_response : ResponseRow :=
  {| r_invitation_id := "inv"; r_version := 1; r_submitted_at := None;
     r_created_at := demo_text; r_updated_at := demo_text |}.
Definition demo_guest_response : GuestResponseRow :=
  {| gr_response_id := "resp"; gr_guest_id := "jane"; gr_attendance := "pending";
     gr_created_at := demo_text; gr_updated_at := demo_text |}.
Definition demo_session : SessionRow :=
  {| s_invitation_id := "inv"; s_token_hash := "hash"; s_issued_version := 1;
     s_expires_at := demo_later; s_last_used_at := None; s_revoked_at := None;
     s_created_at := demo_text |}.
Definition demo_token : RecoveryTokenRow :=
  {| rt_invitation_id := "inv"; rt_token_hash := "rhash"; rt_destination := "email";
     rt_expires_at := demo_later; rt_consumed_at := None; rt_created_at := demo_text |}.
Definition demo_open : OpenRow :=
  {| o_event_id := "ev"; o_access_id := "oacc"; o_token_version := 1; o_enabled := true;
     o_opens_at := None; o_closes_at := Some demo_later; o_max_party_size := 4;
     o_capacity := Some 5; o_created_by := Some "org"; o_revoked_at := None;
     o_created_at := demo_text; o_updated_at := demo_text |}.

Definition demo_user : UserRow :=
  {| u_email := "o@b.c"; u_norm_email := "o@b.c"; u_display_name := "Org"; u_timezone := "UTC";
     u_role := "user"; u_status := "active"; u_invited_by := None;
     u_activated_at := Some demo_text; u_last_login_at := None; u_created_at := demo_text;
     u_updated_at := demo_text |}.
Definition demo_link : MagicLinkRow :=
  {| ml_token_hash := hex_encode "magic"; ml_user_id := "org"; ml_expires_at := demo_later;
     ml_used_at := None; ml_created_at := demo_text |}.
Definition demo_login : UserSessionRow :=
  {| us_token_hash := hex_encode "login"; us_user_id := "org"; us_expires_at := demo_later;
     us_created_at := demo_text |}.

Definition demo_owner : MembershipRow :=
  {| em_event_id := "ev"; em_user_id := "org"; em_role := "owner"; em_granted_by := "org";
     em_created_at := demo_text; em_updated_at := demo_text |}.
Definition demo_instance : InstanceRow :=
  {| in_name := "Owl"; in_timezone := "UTC"; in_allow_signups := false; in_support_email := "";
     in_setup_completed_at := Some demo_text; in_created_at := demo_text;
     in_updated_at := demo_text |}.

(** One event with a question and an open link; one household with a guest, a
    session and a recovery token. *)
Definition demo_db : Database :=
  MkDatabase {["org" := demo_user]} {["ev" := demo_event]}
    {["q" := demo_question]} {["open" := demo_open]} {["inv" := demo_invitation]}
    {["jane" := demo_guest]} {["resp" := demo_response]} {["gr" := demo_guest_response]}
    ∅ ∅ {["sess" := demo_session]} {["tok" := demo_token]} ∅ ∅ ∅ ∅
    {["link" := demo_link]} {["login" := demo_login]} {["own" := demo_owner]} ∅ ∅
    {["default" := demo_instance]} ∅ ∅ ∅ ∅ ∅ ∅.

Definition demo_world : World := MkWorld demo_db [] 0 0 0.

(** ** Lists of texts as JSON

    What the program relies on of [json.Marshal] and [json.Unmarshal] for a
    [[]string], and an environment with an encoding that has it.  Bytes that are not
    UTF-8 do not survive an encoding, and no decoding yields them: the laws are for
    ASCII texts and for texts that were decoded. *)

Class JsonLaws (E : Env) : Prop := {
  json_strings_list l : Forall (fun s => is_ascii s = true) l -> json_strings (json_list l) = Some l;
  json_strings_again text l : json_strings text = Some l -> json_strings (json_list l) = Some l;
  json_list_ne l : json_list l <> "" }.

(** A list that came out of a JSON text. *)
Definition decoded `{E : Env} (l : list string) : Prop := exists text, json_strings text = Some l.
Lemma decoded_nil `{E : Env, !JsonLaws E} : decoded [].
Proof. exists (json_list []). by apply json_strings_list. Qed.

(** ** An encoding

    The number stdpp gives a list of strings, in binary. *)

Fixpoint write_bits (p : positive) : string :=
  match p with
  | xH => ""
  | xO p => String "0"%char (write_bits p)
  | xI p => String "1"%char (write_bits p)
  end.
Fixpoint read_bits (s : string) : positive :=
  match s with
  | "" => xH
  | String c s => if bool_decide (c = "0"%char) then xO (read_bits s) else xI (read_bits s)
  end.
Lemma read_write_bits p : read_bits (write_bits p) = p.
Proof. induction p; simpl; by f_equal. Qed.

Definition write_list (l : list string) : string := String "["%char (write_bits (encode l)).
Definition read_list (s : string) : option (list string) :=
  match s with String _ t => decode (read_bits t) | "" => None end.
Lemma read_write_list l : read_list (write_list l) = Some l.
Proof. unfold read_list, write_list. rewrite read_write_bits. apply decode_encode. Qed.

Definition json_env : Env :=
  {| clock := @clock demo_env; uuid_v7 := @uuid_v7 demo_env; rand_read := @rand_read demo_env;
     hmac_sha256 := @hmac_sha256 demo_env; sha256 := @sha256 demo_env;
     unicode_lower := @unicode_lower demo_env; json_strings := read_list;
     json_background := @json_background demo_env;
     url_scheme := @url_scheme demo_env; go_quote := @go_quote demo_env;
     render_invitation_html := @render_invitation_html demo_env;
     render_magic_link_html := @render_magic_link_html demo_env;
     format_event_date := @format_event_date demo_env; json_object := @json_object demo_env;
     json_list := write_list; json_payload := @json_payload demo_env;
     mail_address := @mail_address demo_env; dialect := @dialect demo_env |}.

#[export] Instance json_env_laws : JsonLaws json_env.
Proof. split; [intros l _; apply read_write_list|intros _ l _; apply read_write_list|done]. Qed.
