(* ===== verification/Tables.v ===== *)
(** * Relations between the contents of a table before and after *)

From S2P Require Import Prelude.
From S2P Require Import Schema.

Local Open Scope Z_scope.

Section tables.
Context {R : Type}.
Implicit Types (t : gmap string R) (P : R -> R -> Prop).

(** Every row is still there, changed as [P] allows. *)
Definition table_le P t t' : Prop :=
  forall k r, t !! k = Some r -> exists r', t' !! k = Some r' /\ P r r'.

#[global] Instance table_le_preorder P `{!PreOrder P} : PreOrder (table_le P).
Proof.
  split.
  - intros t k r H. by exists r.
  - intros t1 t2 t3 H12 H23 k r H. destruct (H12 _ _ H) as (r2 & H2 & P2).
    destruct (H23 _ _ H2) as (r3 & H3 & P3). exists r3. split; [done|]. by trans r2.
Qed.

Lemma table_le_insert_new P `{!PreOrder P} t k r : t !! k = None -> table_le P t (<[k := r]> t).
Proof.
  intros Hk k' r' H. exists r'. split; [|done]. by rewrite lookup_insert_ne by congruence.
Qed.
Lemma table_le_insert_old P `{!PreOrder P} t k r r' :
  t !! k = Some r -> P r r' -> table_le P t (<[k := r']> t).
Proof.
  intros Hk HP k' x H. destruct (decide (k' = k)) as [->|].
  - rewrite lookup_insert_eq. simplify_eq. by exists r'.
  - rewrite lookup_insert_ne by done. by exists x.
Qed.
Lemma table_le_update_where P `{!PreOrder P} Q f t :
  (forall k r, t !! k = Some r -> Q k r = true -> P r (f r)) -> table_le P t (update_where Q f t).
Proof.
  intros H k r Hk. rewrite lookup_update_where, Hk. simpl. eexists. split; [done|].
  destruct (Q k r) eqn:E; [by eapply H|done].
Qed.
Lemma table_le_update_id P `{!PreOrder P} id Q f t :
  (forall r, t !! id = Some r -> Q r = true -> P r (f r)) ->
  table_le P t (update_id id Q f t).1.
Proof.
  intros H. destruct (update_id id Q f t) as [t' n] eqn:E.
  apply update_id_cases in E as [(-> & r & Hr & HQ & ->)|(-> & -> & _)]; [|done].
  eapply table_le_insert_old; eauto.
Qed.

(** A column without repetitions. *)
Definition uniq {C} (col : R -> C) t : Prop :=
  forall k r k' r', t !! k = Some r -> t !! k' = Some r' -> col r = col r' -> k = k'.

Lemma uniq_insert {C} `{EqDecision C} (col : R -> C) t k r :
  unique col (col r) t = true -> uniq col t -> uniq col (<[k := r]> t).
Proof.
  rewrite unique_spec. intros Hu H k1 r1 k2 r2. rewrite !lookup_insert_Some.
  intros [[<- <-]|[Hn1 H1]] [[<- <-]|[Hn2 H2]] E; [done|..].
  - by destruct (Hu _ _ H2).
  - by destruct (Hu _ _ H1).
  - by eapply H.
Qed.
(** Rows of [t'] are rows of [t], changed as [P] allows (no row was added). *)
Definition from_old P t t' : Prop :=
  forall k r', t' !! k = Some r' -> exists r, t !! k = Some r /\ P r r'.
(** An update that keeps the column keeps it free of repetitions. *)
Lemma uniq_from_old {C} (col : R -> C) t t' :
  from_old (fun r r' => col r = col r') t t' -> uniq col t -> uniq col t'.
Proof.
  intros H Hu k r k' r' Hk Hk' E. destruct (H _ _ Hk) as (x & Hx & Ex).
  destruct (H _ _ Hk') as (y & Hy & Ey). eapply Hu; [exact Hx|exact Hy|congruence].
Qed.

Lemma from_old_update_where P `{!PreOrder P} Q f t :
  (forall r, P r (f r)) -> from_old P t (update_where Q f t).
Proof.
  intros H k r'. rewrite lookup_update_where. destruct (t !! k) as [r|]; [|done].
  simpl. intros [= <-]. exists r. split; [done|]. by destruct (Q k r).
Qed.
Lemma from_old_update_id P `{!PreOrder P} id Q f t :
  (forall r, P r (f r)) -> from_old P t (update_id id Q f t).1.
Proof.
  intros H k r'. destruct (update_id id Q f t) as [t' n] eqn:E.
  apply update_id_cases in E as [(-> & r & Hr & HQ & ->)|(-> & -> & _)]; [|by exists r'].
  simpl. rewrite lookup_insert_Some. intros [[<- <-]|[_ Hk]]; eauto.
  by exists r'.
Qed.
Lemma from_old_insert P `{!PreOrder P} k r r' t :
  t !! k = Some r -> P r r' -> from_old P t (<[k := r']> t).
Proof.
  intros Hk HP k' x. rewrite lookup_insert_Some. intros [[<- <-]|[_ H]]; eauto. by exists x.
Qed.

Lemma from_old_delete_where P `{!PreOrder P} Q t : from_old P t (delete_where Q t).
Proof. intros k r' [H _]%lookup_delete_where. by exists r'. Qed.

(** A foreign key. *)
Definition refs {R'} (col : R -> string) t (u : gmap string R') : Prop :=
  forall k r, t !! k = Some r -> is_Some (u !! col r).

Lemma refs_insert {R'} (col : R -> string) t (u : gmap string R') k r :
  has (col r) u = true -> refs col t u -> refs col (<[k := r]> t) u.
Proof.
  rewrite has_spec. intros Hr H k' r'. rewrite lookup_insert_Some. intros [[<- <-]|[_ Hk]]; eauto.
Qed.
Lemma refs_from_old {R'} (col : R -> string) t t' (u : gmap string R') :
  from_old (fun r r' => col r = col r') t t' -> refs col t u -> refs col t' u.
Proof. intros Ho H k r' Hk. destruct (Ho _ _ Hk) as (r & Hr & <-). eauto. Qed.
End tables.

(** The referenced table only grows. *)
Lemma refs_grow {R R'} (col : R -> string) (t : gmap string R) (u u' : gmap string R') :
  (forall k, is_Some (u !! k) -> is_Some (u' !! k)) -> refs col t u -> refs col t u'.
Proof. intros Hg H k r Hk. eauto. Qed.
Lemma table_le_grow {R} P (t t' : gmap string R) :
  table_le P t t' -> forall k, is_Some (t !! k) -> is_Some (t' !! k).
Proof. intros H k [r Hr]. destruct (H _ _ Hr) as (r' & Hr' & _). eauto. Qed.
Lemma insert_grow {R} (t : gmap string R) k r j : is_Some (t !! j) -> is_Some (<[k := r]> t !! j).
Proof. intros H. destruct (decide (j = k)) as [->|]; [by rewrite lookup_insert_eq|by rewrite lookup_insert_ne]. Qed.

Lemma update_where_grow {R} Q f (t : gmap string R) j :
  is_Some (t !! j) -> is_Some (update_where Q f t !! j).
Proof. rewrite lookup_update_where, fmap_is_Some. done. Qed.
Lemma update_id_grow {R} id Q f (t : gmap string R) j :
  is_Some (t !! j) -> is_Some ((update_id id Q f t).1 !! j).
Proof. apply table_le_grow with (P := fun _ _ => True). by apply table_le_update_id. Qed.

#[global] Instance same_col_preorder {R C} (col : R -> C) : PreOrder (fun r r' => col r = col r').
Proof. split; [by intros ?|]. by intros ??? -> ->. Qed.

(** ** Counting rows *)

Section counting.
Context {R : Type}.
Implicit Types (t : gmap string R) (P : string -> R -> bool).

Lemma count_insert P t k r :
  t !! k = None -> count P (<[k := r]> t) = (if P k r then 1 else 0) + count P t.
Proof.
  intros Hk. unfold count, select.
  assert (List.filter (fun kr => P kr.1 kr.2) (map_to_list (<[k:=r]> t))
          ≡ₚ List.filter (fun kr => P kr.1 kr.2) ((k, r) :: map_to_list t)) as Hp.
  { generalize (map_to_list_insert t k r Hk). generalize (map_to_list (<[k:=r]> t)).
    generalize ((k, r) :: map_to_list t). intros l l' HP. induction HP; simpl; repeat case_match;
      eauto using Permutation. }
  rewrite Hp. simpl. destruct (P k r); simpl length; lia.
Qed.
(** One row replaced. *)
Lemma count_update P t k r r' :
  t !! k = Some r ->
  count P (<[k := r']> t) + (if P k r then 1 else 0) = count P t + (if P k r' then 1 else 0).
Proof.
  intros Hk. rewrite <- (insert_delete_id t k r) at 2 by done.
  rewrite <- insert_delete_eq, !count_insert by apply lookup_delete_eq. lia.
Qed.
Lemma count_ext P P' t :
  (forall k r, t !! k = Some r -> P k r = P' k r) -> count P t = count P' t.
Proof.
  intros H. unfold count, select. do 2 f_equal. apply List.filter_ext_in.
  intros [k r] Hin. apply H. by apply elem_of_map_to_list, list_elem_of_In.
Qed.
Lemma count_zero P t k r : count P t = 0 -> t !! k = Some r -> P k r = false.
Proof.
  intros Hc Hk. destruct (P k r) eqn:EP; [|done].
  assert ((k, r) ∈ select P t) as Hin by (by apply elem_of_select).
  unfold count in Hc. destruct (select P t); [by apply not_elem_of_nil in Hin|simpl in Hc; lia].
Qed.
Lemma update_where_none P f t : count P t = 0 -> update_where P f t = t.
Proof.
  intros Hc. apply map_eq. intros k. rewrite lookup_update_where.
  destruct (t !! k) as [r|] eqn:Ek; [|done]. simpl. by rewrite (count_zero _ _ _ _ Hc Ek).
Qed.
Lemma count_nonneg P t : 0 <= count P t.
Proof. unfold count. lia. Qed.
End counting.

(** [UPDATE ... WHERE id = ?] *)
Lemma update_where_one {R} id (f : R -> R) (t : gmap string R) :
  update_where (fun k _ => bool_decide (k = id)) f t
  = match t !! id with Some r => <[id := f r]> t | None => t end.
Proof.
  apply map_eq. intros k. rewrite lookup_update_where. destruct (decide (k = id)) as [->|Hk].
  - destruct (t !! id) as [r|] eqn:Hr; simpl; [|by rewrite Hr].
    rewrite bool_decide_eq_true_2 by done. by rewrite lookup_insert_eq.
  - destruct (t !! id); [rewrite lookup_insert_ne by done|]; destruct (t !! k); simpl; try done;
      by rewrite bool_decide_eq_false_2.
Qed.

(** Rows on which [P] holds are the same in both tables. *)
Definition agree_on {R} (P : R -> Prop) (t t' : gmap string R) : Prop :=
  forall k r, P r -> (t' !! k = Some r <-> t !! k = Some r).

Lemma agree_on_refl {R} (P : R -> Prop) (t : gmap string R) : agree_on P t t.
Proof. by intros k r _. Qed.
Lemma agree_on_insert {R} (P : R -> Prop) (t : gmap string R) k r :
  ~ P r -> (forall r0, t !! k = Some r0 -> ~ P r0) -> agree_on P t (<[k := r]> t).
Proof.
  intros Hr H0 k' r' HP. rewrite lookup_insert_Some. split; [|].
  - intros [[-> ->]|[_ H]]; done.
  - intros H. right. split; [|done]. intros ->. by apply (H0 _ H).
Qed.
Lemma agree_on_update_where {R} (P : R -> Prop) Q f (t : gmap string R) :
  (forall k r, Q k r = true -> ~ P r /\ ~ P (f r)) -> agree_on P t (update_where Q f t).
Proof.
  intros H k r HP. rewrite lookup_update_where. destruct (t !! k) as [r0|]; simpl; [|done].
  destruct (Q k r0) eqn:E; [|done]. destruct (H _ _ E) as [H1 H2].
  by split; intros [= <-].
Qed.
Lemma agree_on_update_id {R} (P : R -> Prop) id Q f (t : gmap string R) :
  (forall r, Q r = true -> ~ P r /\ ~ P (f r)) -> agree_on P t (update_id id Q f t).1.
Proof.
  intros H. destruct (update_id id Q f t) as [t' n] eqn:E.
  apply update_id_cases in E as [(-> & r & Hr & HQ & ->)|(-> & -> & _)]; [|apply agree_on_refl].
  apply agree_on_insert; [by apply H|]. intros r0 Hr0. simplify_eq. by apply H.
Qed.
Lemma agree_on_delete_where {R} (P : R -> Prop) Q (t : gmap string R) :
  (forall k r, Q k r = true -> ~ P r) -> agree_on P t (delete_where Q t).
Proof.
  intros H k r HP. rewrite lookup_delete_where. split; [tauto|]. intros Hk. split; [done|].
  destruct (Q k r) eqn:E; [|done]. by destruct (H _ _ E).
Qed.
