(* ===== verification/Capability.v ===== *)
(** * Signed capabilities (internal/invitation/capability.go)

    A capability is [prefix.accessID.version.proof], the proof being the keyed
    MAC of the domain, the access id and the version.  Nothing secret is stored:
    [parse] recomputes the whole capability and compares. *)

From S2P Require Import Prelude.
From S2P Require Import GoStr.
From S2P Require Import Schema.
From S2P Require Import Eff.
From S2P Require Import Demo.

Local Open Scope Z_scope.

Definition privateCapabilityPrefix : string := "oi1".
Definition openCapabilityPrefix : string := "oo1".
Definition privateCapabilityDomain : string := "owl-invites/private-invitation/v1".
Definition openCapabilityDomain : string := "owl-invites/open-enrollment/v1".

Record CapabilitySigner := MkSigner { key : string }.

Definition NewCapabilitySigner (secret : string) : res CapabilitySigner :=
  if len secret <? 32
  then Err (EInternal "OWL_INVITES_SECRET_KEY must contain at least 32 bytes")
  else Ok (MkSigner secret).

(** The byte [0] written between the parts of a MAC input. *)
Definition nul : string := of_bytes [byte_of 0].

Section capability.
Context `{E : Env}.

Definition mac_message (domain accessID version : string) : string :=
  domain +:+ nul +:+ accessID +:+ nul +:+ version.

Definition sign (s : CapabilitySigner) (prefix domain accessID : string) (tokenVersion : Z)
    : string :=
  let version := itoa tokenVersion in
  let proof := base64_raw_url (hmac_sha256 s.(key) (mac_message domain accessID version)) in
  join [prefix; accessID; version; proof] ".".

Definition Private (s : CapabilitySigner) (accessID : string) (tokenVersion : Z) : string :=
  sign s privateCapabilityPrefix privateCapabilityDomain accessID tokenVersion.
Definition Open (s : CapabilitySigner) (accessID : string) (tokenVersion : Z) : string :=
  sign s openCapabilityPrefix openCapabilityDomain accessID tokenVersion.

Definition parse (s : CapabilitySigner) (raw prefix domain : string) : res (string * Z) :=
  match split raw "." with
  | [p0; p1; p2; p3] =>
      if negb (bool_decide (p0 = prefix)) || bool_decide (p1 = "") then Err ErrInvalidCapability
      else match atoi p2 with
           | None => Err ErrInvalidCapability
           | Some version =>
               if version <? 1 then Err ErrInvalidCapability
               else if bool_decide (raw = sign s prefix domain p1 version)
                    then Ok (p1, version) else Err ErrInvalidCapability
           end
  | _ => Err ErrInvalidCapability
  end.

Definition ParsePrivate (s : CapabilitySigner) (raw : string) : res (string * Z) :=
  parse s raw privateCapabilityPrefix privateCapabilityDomain.
Definition ParseOpen (s : CapabilitySigner) (raw : string) : res (string * Z) :=
  parse s raw openCapabilityPrefix openCapabilityDomain.

Definition randomToken (n : nat) : M string :=
  o <- read_random n ;;
  match o with
  | Some b => ret (base64_raw_url b)
  | None => fail (EInternal "generate random token")
  end.

Definition hashToken (raw : string) : string := hex_encode (sha256 raw).

Definition fingerprint (s : CapabilitySigner) (parts : list string) : string :=
  hex_encode (hmac_sha256 s.(key)
    (fold_left (fun acc p => acc +:+ nul +:+ p) parts "owl-invites/recovery-rate-limit/v1")).

(** ** Lemmas *)

Definition no_dot (s : string) : Prop := "."%char ∉ to_bytes s.

Lemma base64_no_dot s : no_dot (base64_raw_url s).
Proof. unfold no_dot, base64_raw_url. rewrite to_of_bytes. apply b64_no_dot. Qed.
Lemma itoa_no_dot n : no_dot (itoa n).
Proof.
  unfold no_dot, itoa. rewrite to_of_bytes. intros H.
  apply itoa_bytes_chars in H as [H|H]; by vm_compute in H.
Qed.

Lemma to_bytes_dot_app p s : to_bytes (p +:+ "." +:+ s) = to_bytes p ++ "."%char :: to_bytes s.
Proof. by rewrite !to_bytes_app. Qed.

Lemma split_dot_app p s : no_dot p -> split (p +:+ "." +:+ s) "." = p :: split s ".".
Proof.
  intros Hp. unfold split. rewrite to_bytes_dot_app, split_bytes_cons by done.
  by rewrite fmap_cons, of_to_bytes.
Qed.
Lemma split_dot_one p : no_dot p -> split p "." = [p].
Proof. intros Hp. unfold split. rewrite split_bytes_nosep by done. simpl. by rewrite of_to_bytes. Qed.

(** The four parts of a capability are what [strings.Split] gives back. *)
Lemma split_sign s prefix domain a v :
  no_dot prefix -> no_dot a ->
  exists proof, split (sign s prefix domain a v) "." = [prefix; a; itoa v; proof].
Proof.
  intros Hp Ha. unfold sign. simpl join. eexists.
  rewrite !split_dot_app by (try done; apply itoa_no_dot).
  by rewrite split_dot_one by apply base64_no_dot.
Qed.

Lemma parse_Ok s raw prefix domain a v :
  parse s raw prefix domain = Ok (a, v) ->
  raw = sign s prefix domain a v /\ a <> "" /\ 1 <= v /\ exists r, split raw "." = prefix :: a :: r.
Proof.
  unfold parse. destruct (split raw ".") as [|p0 [|p1 [|p2 [|p3 [|]]]]]; try done.
  destruct (bool_decide_reflect (p0 = prefix)) as [->|]; [|done].
  destruct (bool_decide_reflect (p1 = "")); [done|]. simpl.
  destruct (atoi p2) as [v'|]; [|done].
  destruct (Z.ltb_spec v' 1); [done|].
  destruct (bool_decide_reflect (raw = sign s prefix domain p1 v')); [|done].
  intros [= -> ->]. eauto.
Qed.

Lemma parse_other_prefix s raw p domain q l :
  split raw "." = p :: l -> p <> q -> parse s raw q domain = Err ErrInvalidCapability.
Proof.
  intros Hs Hne. unfold parse. rewrite Hs.
  destruct l as [|p1 [|p2 [|p3 [|]]]]; try done.
  by rewrite (bool_decide_eq_false_2 (p = q)).
Qed.

Lemma nul_app_inj a b x y :
  byte_of 0 ∉ to_bytes a -> byte_of 0 ∉ to_bytes b ->
  a +:+ nul +:+ x = b +:+ nul +:+ y -> a = b /\ x = y.
Proof.
  intros Ha Hb H. apply (f_equal to_bytes) in H. rewrite !to_bytes_app in H.
  unfold nul in H. rewrite to_of_bytes in H. simpl in H.
  pose proof (split_bytes_cons (byte_of 0) (to_bytes a) (to_bytes x) Ha) as E1.
  pose proof (split_bytes_cons (byte_of 0) (to_bytes b) (to_bytes y) Hb) as E2.
  rewrite H, E2 in E1. injection E1 as E1 _. apply to_bytes_inj in E1 as ->.
  split; [done|]. apply app_inv_head in H. injection H as H. by apply to_bytes_inj.
Qed.

Lemma parse_own s p dom a v :
  no_dot p -> no_dot a -> a <> "" -> 1 <= v <= int64_max ->
  parse s (sign s p dom a v) p dom = Ok (a, v).
Proof.
  intros Hp Ha Hne Hv. unfold parse. destruct (split_sign s p dom a v Hp Ha) as [pr ->].
  rewrite bool_decide_eq_true_2, bool_decide_eq_false_2 by done. simpl.
  rewrite atoi_itoa by (unfold in_int64, int64_min, int64_max in *; lia).
  destruct (Z.ltb_spec v 1); [lia|]. by rewrite bool_decide_eq_true_2.
Qed.
Lemma no_dot_prefixes : no_dot privateCapabilityPrefix /\ no_dot openCapabilityPrefix.
Proof. split; unfold no_dot; rewrite list_elem_of_In; vm_compute; intuition discriminate. Qed.
Lemma parse_own_capability s a v :
  no_dot a -> a <> "" -> 1 <= v <= int64_max ->
  ParsePrivate s (Private s a v) = Ok (a, v) /\ ParseOpen s (Open s a v) = Ok (a, v).
Proof. intros. destruct no_dot_prefixes. split; by apply parse_own. Qed.
End capability.

Section theorems.
Context `{E : Env}.

(** [C8] A capability the signer issues is accepted again and gives back its
    access id and version, for both kinds of capability: access ids are
    non-empty and hold no dot (they are base64), versions are the positive
    64-bit integers. *)
Theorem capability_roundtrip s a v :
  no_dot a -> a <> "" -> 1 <= v <= int64_max ->
  ParsePrivate s (Private s a v) = Ok (a, v) /\ ParseOpen s (Open s a v) = Ok (a, v).
Proof.
  apply parse_own_capability.
Qed.

(** Only what the key signs is accepted, in one spelling: a text that
    parses is, byte for byte, the capability of the access id and version it
    gives, so no other text stands for the same pair; and the inputs of the
    MAC of two different (domain, access id, version) triples differ. *)
Theorem capability_canonical s raw raw' a v :
  (ParsePrivate s raw = Ok (a, v) -> raw = Private s a v /\ 1 <= v /\ a <> "") /\
  (ParseOpen s raw = Ok (a, v) -> raw = Open s a v /\ 1 <= v /\ a <> "") /\
  (ParsePrivate s raw = Ok (a, v) -> ParsePrivate s raw' = Ok (a, v) -> raw = raw') /\
  (forall d d' a' ver ver', byte_of 0 ∉ to_bytes d -> byte_of 0 ∉ to_bytes d' ->
     byte_of 0 ∉ to_bytes a -> byte_of 0 ∉ to_bytes a' ->
     mac_message d a ver = mac_message d' a' ver' -> d = d' /\ a = a' /\ ver = ver').
Proof.
  unfold ParsePrivate, ParseOpen, Private, Open. split_and!.
  - intros (? & ? & ? & _)%parse_Ok. done.
  - intros (? & ? & ? & _)%parse_Ok. done.
  - intros (-> & _)%parse_Ok (-> & _)%parse_Ok. done.
  - unfold mac_message. intros d d' a' ver ver' Hd Hd' Ha Ha' H.
    apply nul_app_inj in H as [-> H]; [|done..].
    by apply nul_app_inj in H as [-> ->].
Qed.

(** The two kinds of capability are separate: no text parses as both, so an
    open-enrollment capability never opens a household and a household's
    capability never enrolls. *)
Theorem capability_domains_disjoint s raw :
  (forall a v, ParsePrivate s raw = Ok (a, v) -> ParseOpen s raw = Err ErrInvalidCapability) /\
  (forall a v, ParseOpen s raw = Ok (a, v) -> ParsePrivate s raw = Err ErrInvalidCapability).
Proof.
  split; intros a v (_ & _ & _ & r & Hs)%parse_Ok; by eapply parse_other_prefix.
Qed.
End theorems.

Lemma capability_roundtrip_witness :
  ParsePrivate (E := demo_env) (MkSigner "key") (Private (E := demo_env) (MkSigner "key") "abc" 3) = Ok ("abc", 3) /\
  ParseOpen (E := demo_env) (MkSigner "key") (Open (E := demo_env) (MkSigner "key") "abc" 3) = Ok ("abc", 3).
Proof.
  apply (capability_roundtrip (E := demo_env) (MkSigner "key") "abc" 3).
  - unfold no_dot. rewrite list_elem_of_In. vm_compute. intuition discriminate.
  - discriminate.
  - split; vm_compute; discriminate.
Defined.
