(* ===== verification/InvModel.v ===== *)
(** * The invitation domain's types and pure functions
    (internal/invitation/model.go and the helpers of store.go, service.go,
    management.go, presentation_store.go and response_store.go)

    Go pointers to optional values are [option]s; Go maps are [gmap]s. *)

From S2P Require Import Prelude.
From S2P Require Import GoStr.
From S2P Require Import GoTime.
From S2P Require Import Schema.
From S2P Require Import Eff.

Local Open Scope Z_scope.

(** ** Constants *)

Definition SourcePrivate : string := "private".
Definition SourceOpen : string := "open".
Definition GuestOriginAssigned : string := "assigned".
Definition GuestOriginAdditional : string := "additional".
Definition AttendancePending : string := "pending".
Definition AttendanceAttending : string := "attending".
Definition AttendanceMaybe : string := "maybe".
Definition AttendanceDeclined : string := "declined".
Definition QuestionScopeInvitation : string := "invitation".
Definition QuestionScopeGuest : string := "guest".
Definition DeliveryNotRequested : string := "not_requested".
Definition DeliverySent : string := "sent".
Definition DeliveryFailed : string := "failed".

Definition MaxImportBytes : Z := 512 * 1024.
Definition MaxImportRows : Z := 5000.
Definition MaxImportHouseholds : Z := 1000.
Definition MaxHouseholdGuests : Z := 100.

(** ** Data *)

Record Invitation := MkInvitation {
  ID : string; EventID : string; Label : string;
  ContactEmail : option string; ContactPhone : option string;
  PreferredDeliveryMethod : string; AdditionalGuestAllowance : Z; Source : string;
  OpenEnrollmentID : option string; AccessID : string; TokenVersion : Z;
  CreatedByUserID : option string; RevokedAt : option time;
  RevocationReason : option string; CreatedAt : time; UpdatedAt : time }.

Record Guest := MkGuest {
  guest_ID : string; guest_InvitationID : string; guest_Name : string;
  guest_Origin : string; guest_SortOrder : Z; guest_Attendance : string;
  guest_RemovedAt : option time; guest_CreatedAt : time; guest_UpdatedAt : time }.

Record Response := MkResponse {
  resp_ID : string; resp_InvitationID : string; resp_Version : Z;
  resp_SubmittedAt : option time; resp_CreatedAt : time; resp_UpdatedAt : time }.

Record Question := MkQuestion {
  question_ID : string; question_Label : string; question_Type : string;
  question_Options : list string; question_Required : bool; question_Scope : string;
  question_SortOrder : Z }.

Record Answer := MkAnswer { answer_QuestionID : string; answer_Answer : string }.
Record GuestAnswer := MkGuestAnswer {
  ganswer_GuestID : string; ganswer_QuestionID : string; ganswer_Answer : string }.

Record EventSummary := MkEventSummary {
  es_ID : string; es_Title : string; es_Description : string; es_EventDate : time;
  es_EndDate : option time; es_Location : string; es_Timezone : string;
  es_Status : string }.

Record GuestPresentation := MkPresentation {
  p_TemplateID : string; p_Heading : string; p_Body : string; p_Footer : string;
  p_PrimaryColor : string; p_SecondaryColor : string; p_Font : string;
  p_BackgroundImage : string }.

Record DeliverySummary := MkDeliverySummary {
  ds_Status : string; ds_DeliveryStatus : string; ds_Provider : string;
  ds_Error : string; ds_AttemptedAt : time; ds_SentAt : option time }.

(** [Response] is a pointer the loader may leave nil. *)
Record Household := MkHousehold {
  h_Invitation : Invitation; h_Event : EventSummary; h_Response : option Response;
  h_Guests : list Guest; h_Questions : list Question;
  h_InvitationAnswers : list Answer; h_GuestAnswers : list GuestAnswer;
  h_Presentation : option GuestPresentation; h_LatestDelivery : option DeliverySummary }.

Record CreateRequest := MkCreateRequest {
  cr_Label : string; cr_ContactEmail : option string; cr_ContactPhone : option string;
  cr_Method : string; cr_Allowance : Z; cr_GuestNames : list string; cr_Send : bool }.

Record AssignedGuestEdit := MkEdit { edit_ID : string; edit_Name : string }.
Record UpdateInvitationRequest := MkUpdateRequest {
  ur_Label : string; ur_ContactEmail : option string; ur_ContactPhone : option string;
  ur_Method : string; ur_Allowance : Z; ur_AssignedGuests : list AssignedGuestEdit }.

Record DeliveryResult := MkDelivery {
  dr_Status : string; dr_Warning : string; dr_err : option err }.
Record CreateResult := MkCreateResult {
  res_Invitation : Invitation; res_Guests : list Guest; res_AccessURL : string;
  res_Delivery : DeliveryResult }.

Record AdditionalGuestInput := MkAdditional {
  ag_ID : string; ag_ClientKey : string; ag_Name : string; ag_Attendance : string }.
Record GuestAttendanceInput := MkAttendance {
  at_GuestID : string; at_Attendance : string }.
Record SubmitRequest := MkSubmit {
  sr_Version : Z;
  sr_AssignedGuests : list GuestAttendanceInput;
  sr_AdditionalGuests : list AdditionalGuestInput;
  sr_InvitationAnswers : gmap string string;
  sr_GuestAnswers : gmap string (gmap string string) }.

Record OpenEnrollmentConfig := MkOpenConfig {
  oc_ID : string; oc_EventID : string; oc_Enabled : bool; oc_OpensAt : option time;
  oc_ClosesAt : option time; oc_MaxPartySize : Z; oc_Capacity : option Z;
  oc_TokenVersion : Z; oc_RevokedAt : option time; oc_CreatedAt : time;
  oc_UpdatedAt : time; oc_AccessID : string }.
Record ConfigureOpenRequest := MkConfigureOpen {
  co_Enabled : bool; co_OpensAt : option string; co_ClosesAt : option string;
  co_MaxPartySize : Z; co_Capacity : option Z }.
Record OpenEnrollmentRequest := MkOpenRequest {
  or_Capability : string; or_Label : string; or_ContactEmail : option string;
  or_ContactPhone : option string; or_Method : string; or_GuestNames : list string }.

Record MessageRequest := MkMessageRequest {
  mr_Group : string; mr_Subject : string; mr_Body : string }.
Record MessagePreview := MkMessagePreview { mp_Group : string; mp_Households : Z }.
Record MessageResult := MkMessageResult {
  mres_Attempted : Z; mres_Accepted : Z; mres_Failed : Z; mres_Skipped : Z }.
Record InvitationMessage := MkMessage {
  msg_ID : string; msg_EventID : string; msg_Sender : option string;
  msg_Group : string; msg_Subject : string; msg_Body : string; msg_CreatedAt : time }.

Record ImportIssue := MkIssue { ii_Row : Z; ii_Field : string; ii_Message : string }.
Record ImportHousehold := MkImportHousehold {
  ih_Key : string; ih_Label : string; ih_ContactEmail : option string;
  ih_ContactPhone : option string; ih_Method : string; ih_Allowance : Z;
  ih_GuestNames : list string }.
Record ImportPreview := MkPreview {
  ip_HouseholdCount : Z; ip_GuestCount : Z; ip_Households : list ImportHousehold;
  ip_Errors : list ImportIssue; ip_Warnings : list ImportIssue }.
Record ImportCommitResult := MkCommitResult {
  ic_HouseholdCount : Z; ic_GuestCount : Z; ic_InvitationIDs : list string }.

Record InvitationListFilter := MkFilter {
  f_Search : string; f_Response : string; f_Attendance : string }.

(** ** Pure helpers *)

Definition stringValue (v : option string) : string :=
  match v with Some s => s | None => "" end.

Definition validAttendance (value : string) : bool :=
  one_of value [AttendancePending; AttendanceAttending; AttendanceMaybe; AttendanceDeclined].

(** [normalizePhone]: the ASCII digits, and a plus sign in first position. *)
Definition phone_bytes (l : bytes) : bytes :=
  match l with
  | c :: t => (if is_digit c || bool_decide (c = "+"%char) then [c] else [])
              ++ List.filter is_digit t
  | [] => []
  end.
Definition normalizePhone (value : string) : string :=
  of_bytes (phone_bytes (to_bytes (trim_space value))).

Definition parseDBTime (value : string) : res time :=
  match parse_nano value with
  | Some t => Ok t
  | None => Err (EInternal "parse database time")
  end.
Definition parseDBTimeOpt (value : option string) : res (option time) :=
  match value with
  | None => Ok None
  | Some s => match parseDBTime s with Ok t => Ok (Some t) | Err e => Err e end
  end.

(** [parseInvitation]: the columns of a row as an [Invitation]. *)
Definition parseInvitation (id : string) (r : InvitationRow) : res Invitation :=
  created <-r parseDBTime r.(i_created_at) ;;
  updated <-r parseDBTime r.(i_updated_at) ;;
  revoked <-r parseDBTimeOpt r.(i_revoked_at) ;;
  Ok (MkInvitation id r.(i_event_id) r.(i_label) r.(i_contact_email) r.(i_contact_phone)
        r.(i_method) r.(i_allowance) r.(i_source) r.(i_open_id) r.(i_access_id)
        r.(i_token_version) r.(i_created_by) revoked r.(i_reason) created updated).

(** [scanGuestRows], the attendance being the joined column. *)
Definition scanGuest (id : string) (r : GuestRow) (attendance : string) : res Guest :=
  created <-r parseDBTime r.(g_created_at) ;;
  updated <-r parseDBTime r.(g_updated_at) ;;
  removed <-r parseDBTimeOpt r.(g_removed_at) ;;
  Ok (MkGuest id r.(g_invitation_id) r.(g_name) r.(g_origin) r.(g_sort_order) attendance
        removed created updated).

Definition scanResponse (id : string) (r : ResponseRow) : res Response :=
  created <-r parseDBTime r.(r_created_at) ;;
  updated <-r parseDBTime r.(r_updated_at) ;;
  submitted <-r parseDBTimeOpt r.(r_submitted_at) ;;
  Ok (MkResponse id r.(r_invitation_id) r.(r_version) submitted created updated).

Definition scanEventSummary (row : option (string * EventRow)) : res EventSummary :=
  match row with
  | None => Err (EInternal "scan invitation event")
  | Some (id, r) =>
      date <-r parseDBTime r.(e_event_date) ;;
      end_ <-r parseDBTimeOpt r.(e_end_date) ;;
      Ok (MkEventSummary id r.(e_title) r.(e_description) date end_ r.(e_location)
            r.(e_timezone) r.(e_status))
  end.

Definition scanOpenEnrollment (row : option (string * OpenRow)) : res (option OpenEnrollmentConfig) :=
  match row with
  | None => Ok None
  | Some (id, r) =>
      created <-r parseDBTime r.(o_created_at) ;;
      updated <-r parseDBTime r.(o_updated_at) ;;
      opens <-r parseDBTimeOpt r.(o_opens_at) ;;
      closes <-r parseDBTimeOpt r.(o_closes_at) ;;
      revoked <-r parseDBTimeOpt r.(o_revoked_at) ;;
      Ok (Some (MkOpenConfig id r.(o_event_id) r.(o_enabled) opens closes r.(o_max_party_size)
                  r.(o_capacity) r.(o_token_version) revoked created updated r.(o_access_id)))
  end.

(** [parseOptionalTime]: blank is absent, anything else RFC 3339. *)
Definition parseOptionalTime (raw : option string) : option (option time) :=
  match raw with
  | None => Some None
  | Some s => if bool_decide (trim_space s = "") then Some None
              else Some <$> parse_nano s
  end.

Section model.
Context `{E : Env}.


Definition normalizeEmail (value : string) : string := to_lower (trim_space value).

Definition validateContact (emailInput phoneInput : option string) (method0 : string)
    : res (option string * option string * string) :=
  let method := trim_space method0 in
  let method := if bool_decide (method = "") then "email" else method in
  if negb (valid_method method) then Err (EValidation "invalid preferred delivery method") else
  emailValue <-r
    match emailInput with
    | Some e =>
        if bool_decide (trim_space e = "") then Ok None
        else let value := normalizeEmail e in
             if mail_address_ok value then Ok (Some value)
             else Err (EValidation "invalid contact email")
    | None => Ok None
    end ;;
  phoneValue <-r
    match phoneInput with
    | Some p =>
        if bool_decide (trim_space p = "") then Ok None
        else let value := normalizePhone p in
             if len (trim_prefix value "+") <? 7
             then Err (EValidation "invalid contact phone") else Ok (Some value)
    | None => Ok None
    end ;;
  if bool_decide (method = "email") && bool_decide (emailValue = None)
  then Err (EValidation "contact email is required for email delivery")
  else if bool_decide (method = "sms") && bool_decide (phoneValue = None)
  then Err (EValidation "contact phone is required for SMS delivery")
  else Ok (emailValue, phoneValue, method).

Definition validateRecipientGroup (raw : string) : res string :=
  let group := trim_space raw in
  let group := if bool_decide (group = "") then "all" else group in
  if negb (validAttendance group) && negb (bool_decide (group = "all"))
  then Err (EValidation "invalid recipient group") else Ok group.

(** [household.Response.SubmittedAt == nil]; the nil pointer panics. *)
Definition not_submitted (h : Household) : res bool :=
  match h.(h_Response) with
  | Some r => Ok (bool_decide (r.(resp_SubmittedAt) = None))
  | None => Err (EInternal "nil pointer dereference")
  end.

Definition matchesOrganizerFilter (h : Household) (filter : InvitationListFilter) : res bool :=
  wrong1 <-r (if bool_decide (filter.(f_Response) = "submitted")
              then not_submitted h else Ok false) ;;
  if wrong1 : bool then Ok false else
  wrong2 <-r (if bool_decide (filter.(f_Response) = "not_submitted")
              then (b <-r not_submitted h ;; Ok (negb b)) else Ok false) ;;
  if wrong2 : bool then Ok false else
  if negb (bool_decide (filter.(f_Attendance) = ""))
     && negb (existsb (fun g => bool_decide (g.(guest_Attendance) = filter.(f_Attendance)))
                      h.(h_Guests)) then Ok false
  else if bool_decide (filter.(f_Search) = "") then Ok true
  else Ok (existsb (fun v => contains (to_lower v) filter.(f_Search))
         ([h.(h_Invitation).(Label); stringValue h.(h_Invitation).(ContactEmail);
           stringValue h.(h_Invitation).(ContactPhone)] ++ (guest_Name <$> h.(h_Guests)))).

(** ** The guest-visible card (presentation_store.go) *)

Definition guestTemplates : list string :=
  ["balloon-party"; "confetti"; "unicorn-magic"; "superhero"; "garden-picnic";
   "elegant-affair"; "clean-minimal"; "tropical-vibes"; "vintage-retro"; "chalkboard"].

Definition is_hex (c : ascii) : bool :=
  is_digit c || ((97 <=? byte_val c) && (byte_val c <=? 102))
  || ((65 <=? byte_val c) && (byte_val c <=? 70)).
Definition is_alpha (c : ascii) : bool :=
  ((97 <=? byte_val c) && (byte_val c <=? 122)) || ((65 <=? byte_val c) && (byte_val c <=? 90)).

(** [^#[0-9a-fA-F]{3,8}$] *)
Definition guestColorPattern (s : string) : bool :=
  match to_bytes s with
  | c :: t => bool_decide (c = "#"%char) && forallb is_hex t
              && (3 <=? length t)%nat && (length t <=? 8)%nat
  | [] => false
  end.
(** The font pattern: letters, digits, space, comma, hyphen, underscore and the
    two quotes, at least one. *)
Definition font_byte (c : ascii) : bool :=
  is_alpha c || is_digit c || one_of (of_bytes [c]) [" "; ","; "-"; "_"; "'"]
  || (byte_val c =? 34).
Definition guestFontPattern (s : string) : bool :=
  match to_bytes s with [] => false | l => forallb font_byte l end.

Definition defaultGuestPresentation : GuestPresentation :=
  MkPresentation "clean-minimal" "" "" "" "#E54666" "#f472b6" "Inter" "".

(** The bytes a background image may not hold: parentheses, quotes, angle
    brackets, backslash. *)
Definition unsafe_css_byte (c : ascii) : bool :=
  bool_decide (byte_val c ∈ [40; 41; 34; 39; 60; 62; 92]).

Definition guestBackgroundImage (customData : string) : string :=
  match json_background customData with
  | None => ""
  | Some raw =>
      let value := trim_space raw in
      if bool_decide (value = "") || existsb unsafe_css_byte (to_bytes value) then ""
      else if has_prefix value "/api/v1/uploads/" && negb (contains value "..") then value
      else match url_scheme value with
           | None => ""
           | Some sch => if negb (bool_decide (sch = "http")) && negb (bool_decide (sch = "https"))
                         then "" else value
           end
  end.

Definition presentation_of_card (c : CardRow) : GuestPresentation :=
  MkPresentation
    (if one_of c.(c_template) guestTemplates then c.(c_template) else "clean-minimal")
    c.(c_heading) c.(c_body) c.(c_footer)
    (if guestColorPattern c.(c_primary) then c.(c_primary) else "#E54666")
    (if guestColorPattern c.(c_secondary) then c.(c_secondary) else "#f472b6")
    (if (100 <? len c.(c_font)) || negb (guestFontPattern c.(c_font)) then "Inter"
     else c.(c_font))
    (guestBackgroundImage c.(c_custom)).
End model.

Definition loadGuestPresentation `{E : Env} (eventID : string) : M GuestPresentation :=
  row <- query "load guest invitation presentation"
           (fun d => select_row (fun _ r => bool_decide (r.(c_event_id) = eventID)) d.(invite_cards)) ;;
  ret (match row with
       | None => defaultGuestPresentation
       | Some (_, c) => presentation_of_card c
       end).
