(* ===== verification/Contacts.v ===== *)
(** * Contacts: the normal form of e-mail addresses and phone numbers

    What [validateContact], [normalizeEmail] and [normalizePhone]
    (internal/invitation/service.go and store.go) return is a fixed point of
    themselves, so a contact that passed a check once passes it again unchanged,
    and is what the recovery lookup compares with. *)

From S2P Require Import Prelude.
From S2P Require Import GoStr.
From S2P Require Import GoTime.
From S2P Require Import Schema.
From S2P Require Import Eff.
From S2P Require Import Demo.
From S2P Require Import InvModel.

Local Open Scope Z_scope.

(** What the code relies on of [strings.ToLower] beyond ASCII and of
    [mail.ParseAddress]: lowering is idempotent and makes no space out of a
    letter, and the empty string is no address. *)
Class TextLaws (E : Env) : Prop := {
  unicode_lower_trimmed s :
    is_ascii s = false -> trim_space s = s -> trim_space (unicode_lower s) = unicode_lower s;
  unicode_lower_idemp s : is_ascii s = false -> to_lower (unicode_lower s) = unicode_lower s;
  mail_address_empty : mail_address_ok "" = false }.

#[export] Instance demo_text_laws : TextLaws demo_env.
Proof.
  split; [done| |done].
  intros s Hs. change (to_lower (E:=demo_env) s = s). unfold to_lower. by rewrite Hs.
Qed.

(** The method [validateContact] settles on. *)
Definition contact_method (m : string) : string := if bool_decide (m = "") then "email" else m.

(** ** Phone numbers *)

Definition phone_form (l : bytes) : bool :=
  match l with
  | c :: t => (is_digit c || bool_decide (c = "+"%char)) && forallb is_digit t
  | [] => true
  end.

Lemma filter_digits l : forallb is_digit (List.filter is_digit l) = true.
Proof. induction l as [|c l IH]; simpl; [done|]. destruct (is_digit c) eqn:H; simpl; by rewrite ?H. Qed.
Lemma filter_digits_id l : forallb is_digit l = true -> List.filter is_digit l = l.
Proof. induction l; simpl; [done|]. intros [-> ?]%andb_true_iff. by f_equal; auto. Qed.

Lemma phone_bytes_form l : phone_form (phone_bytes l) = true.
Proof.
  destruct l as [|c t]; simpl; [done|]. destruct (is_digit c || _) eqn:H; simpl.
  - by rewrite H, filter_digits.
  - pose proof (filter_digits t) as Ht. destruct (List.filter is_digit t) as [|d r]; [done|].
    simpl in *. apply andb_true_iff in Ht as [-> ->]. done.
Qed.
Lemma phone_form_fix l : phone_form l = true -> phone_bytes l = l.
Proof.
  destruct l as [|c t]; simpl; [done|]. intros [-> Ht]%andb_true_iff.
  by rewrite filter_digits_id.
Qed.

Lemma digit_visible c : is_digit c = true -> 33 <= byte_val c < 128.
Proof. unfold is_digit. rewrite andb_true_iff, !Z.leb_le. lia. Qed.
Lemma phone_first_visible c : is_digit c || bool_decide (c = "+"%char) = true -> 33 <= byte_val c < 128.
Proof.
  intros [H|H%bool_decide_eq_true]%orb_true_iff; [by apply digit_visible|]. subst c.
  split; vm_compute; congruence.
Qed.

Lemma phone_form_trimmed l : phone_form l = true -> trim_space (of_bytes l) = of_bytes l.
Proof.
  destruct l as [|c t]; [done|]. simpl. intros [Hc Ht]%andb_true_iff.
  destruct (last (c :: t)) as [d|] eqn:Hd; [|by apply last_None in Hd].
  pose proof (to_of_bytes (c :: t)) as Ho.
  apply (trimmed_visible _ c d t); [exact Ho|by rewrite <- Ho in Hd|by apply phone_first_visible|].
  destruct t as [|x t]; [simpl in Hd; injection Hd as <-; by apply phone_first_visible|].
  apply digit_visible. rewrite forallb_forall in Ht. apply Ht.
  apply list_elem_of_In. apply last_Some in Hd as [k Hk].
  destruct k as [|y k]; simpl in Hk; [done|]. injection Hk as -> ->. set_solver.
Qed.

Lemma normalizePhone_form p : phone_form (to_bytes (normalizePhone p)) = true.
Proof. unfold normalizePhone. rewrite to_of_bytes. apply phone_bytes_form. Qed.

Lemma normalizePhone_trimmed p : trim_space (normalizePhone p) = normalizePhone p.
Proof. rewrite <- (of_to_bytes (normalizePhone p)). apply phone_form_trimmed, normalizePhone_form. Qed.

Lemma normalizePhone_idemp p : normalizePhone (normalizePhone p) = normalizePhone p.
Proof.
  unfold normalizePhone at 1. rewrite normalizePhone_trimmed.
  rewrite phone_form_fix by apply normalizePhone_form. apply of_to_bytes.
Qed.

(** ** E-mail addresses *)

Section contacts.
Context `{E : Env, !TextLaws E}.

Lemma to_lower_trimmed s : trim_space s = s -> trim_space (to_lower s) = to_lower s.
Proof.
  unfold to_lower. destruct (is_ascii s) eqn:H; [by apply trim_lower_ascii|].
  by apply unicode_lower_trimmed.
Qed.
Lemma to_lower_idemp s : to_lower (to_lower s) = to_lower s.
Proof.
  unfold to_lower at 2 3. destruct (is_ascii s) eqn:H; [|by apply unicode_lower_idemp].
  unfold to_lower. rewrite lower_ascii_ascii by done. apply lower_ascii_idemp.
Qed.
Lemma normalizeEmail_trimmed e : trim_space (normalizeEmail e) = normalizeEmail e.
Proof. apply to_lower_trimmed, trim_space_idemp. Qed.
Lemma normalizeEmail_idemp e : normalizeEmail (normalizeEmail e) = normalizeEmail e.
Proof. unfold normalizeEmail at 1. rewrite normalizeEmail_trimmed. apply to_lower_idemp. Qed.

(** ** What a validated contact looks like *)

Definition email_ok (e : string) : Prop :=
  normalizeEmail e = e /\ trim_space e = e /\ e <> "" /\ mail_address_ok e = true.
Definition phone_ok (p : string) : Prop :=
  normalizePhone p = p /\ trim_space p = p /\ p <> "" /\ 7 <= len (trim_prefix p "+").
Definition method_ok (m : string) : Prop := m = "email" \/ m = "sms" \/ m = "none".

Lemma valid_method_spec m : valid_method m = true <-> method_ok m.
Proof.
  unfold valid_method, one_of, method_ok. rewrite bool_decide_eq_true. set_solver.
Qed.
Lemma method_ok_trimmed m : method_ok m -> trim_space m = m.
Proof. by intros [-> | [-> | ->]]. Qed.

Lemma validateContact_ok e p m e' p' m' :
  validateContact e p m = Ok (e', p', m') ->
  m' = contact_method (trim_space m) /\ method_ok m' /\
  e' = match e with Some s => if bool_decide (trim_space s = "") then None
                              else Some (normalizeEmail s) | None => None end /\
  p' = match p with Some s => if bool_decide (trim_space s = "") then None
                              else Some (normalizePhone s) | None => None end /\
  (forall s, e' = Some s -> email_ok s) /\ (forall s, p' = Some s -> phone_ok s) /\
  (m' = "email" -> e' <> None) /\ (m' = "sms" -> p' <> None).
Proof.
  unfold validateContact. fold (contact_method (trim_space m)).
  set (k := contact_method (trim_space m)).
  destruct (valid_method k) eqn:Hk; simpl; [|done]. apply valid_method_spec in Hk.
  assert (forall s, mail_address_ok (normalizeEmail s) = true -> email_ok (normalizeEmail s)) as He.
  { intros s Hs. split_and!; [apply normalizeEmail_idemp|apply normalizeEmail_trimmed| |done].
    intros Hn. rewrite Hn, mail_address_empty in Hs. done. }
  assert (forall s, 7 <= len (trim_prefix (normalizePhone s) "+") -> phone_ok (normalizePhone s)) as Hp.
  { intros s Hs. split_and!; [apply normalizePhone_idemp|apply normalizePhone_trimmed| |done].
    intros Hn. rewrite Hn in Hs. by vm_compute in Hs. }
  intros H.
  destruct e as [e|]; [destruct (bool_decide (trim_space e = "")) eqn:He0;
    [|destruct (mail_address_ok (normalizeEmail e)) eqn:He1; [|done]]|];
  (destruct p as [p|]; [destruct (bool_decide (trim_space p = "")) eqn:Hp0;
    [|simpl in H; destruct (Z.ltb_spec (len (trim_prefix (normalizePhone p) "+")) 7); [done|]]|]);
  simpl in H; destruct (bool_decide (k = "email")) eqn:Hk1;
  destruct (bool_decide (k = "sms")) eqn:Hk2; simpl in H; simplify_eq;
  try apply bool_decide_eq_true in Hk1; try apply bool_decide_eq_false in Hk1;
  try apply bool_decide_eq_true in Hk2; try apply bool_decide_eq_false in Hk2;
  split_and!; try done; try (intros; simplify_eq; by auto); congruence.
Qed.

(** A contact in normal form passes and comes back unchanged. *)
Lemma validateContact_fix e p m :
  method_ok m -> (forall s, e = Some s -> email_ok s) -> (forall s, p = Some s -> phone_ok s) ->
  (m = "email" -> e <> None) -> (m = "sms" -> p <> None) ->
  validateContact e p m = Ok (e, p, m).
Proof.
  intros Hm He Hp Hme Hmp. unfold validateContact. rewrite method_ok_trimmed by done.
  assert (bool_decide (m = "") = false) as ->
    by (apply bool_decide_eq_false; by destruct Hm as [->|[->| ->]]).
  assert (valid_method m = true) as -> by by apply valid_method_spec. simpl.
  assert (forall s, e = Some s -> normalizeEmail s = s /\ bool_decide (trim_space s = "") = false
            /\ mail_address_ok s = true) as He'.
  { intros s Hs. destruct (He s Hs) as (? & -> & ? & ?). by rewrite bool_decide_eq_false_2. }
  assert (forall s, p = Some s -> normalizePhone s = s /\ bool_decide (trim_space s = "") = false
            /\ (len (trim_prefix s "+") <? 7) = false) as Hp'.
  { intros s Hs. destruct (Hp s Hs) as (? & -> & ? & ?). rewrite bool_decide_eq_false_2 by done.
    split_and!; [done..|]. lia. }
  destruct e as [e|]; [destruct (He' e eq_refl) as (He1 & -> & He2); rewrite He1, He2|]; simpl;
  (destruct p as [p|]; [destruct (Hp' p eq_refl) as (Hp1 & -> & Hp2); rewrite Hp1, Hp2|]); simpl;
  destruct Hm as [-> | [-> | ->]]; simpl; naive_solver.
Qed.

Lemma validateContact_idemp e p m e' p' m' :
  validateContact e p m = Ok (e', p', m') -> validateContact e' p' m' = Ok (e', p', m').
Proof.
  intros (_ & Hm & _ & _ & He & Hp & Hme & Hmp)%validateContact_ok. by apply validateContact_fix.
Qed.

(** What the contact check returns it accepts again
    unchanged; the address and the number are their own normal forms, so the
    normalized columns the recovery lookup compares with equal the contact
    columns; the delivery method has the contact it needs, and a phone number
    has at least seven digits. *)
Theorem contact_normal_form e p m e' p' m' :
  validateContact e p m = Ok (e', p', m') ->
  validateContact e' p' m' = Ok (e', p', m') /\
  normalizeEmail <$> e' = e' /\ normalizePhone <$> p' = p' /\
  (m' = "email" -> e' <> None) /\ (m' = "sms" -> p' <> None) /\
  (forall s, p' = Some s -> 7 <= len (trim_prefix s "+")).
Proof.
  intros H. pose proof (validateContact_idemp _ _ _ _ _ _ H) as Hi.
  apply validateContact_ok in H as (_ & _ & _ & _ & He & Hp & Hme & Hmp).
  split_and!; [done| | |done|done|by intros s (_ & _ & _ & ?)%Hp].
  - destruct e' as [s|]; [|done]. simpl. f_equal. apply (He s eq_refl).
  - destruct p' as [s|]; [|done]. simpl. f_equal. apply (Hp s eq_refl).
Qed.
End contacts.

Lemma contact_normal_form_witness :
  validateContact (E:=demo_env) (Some "a@b.c") (Some "+1555000111") "sms"
  = Ok (Some "a@b.c", Some "+1555000111", "sms").
Proof.
  apply (contact_normal_form (E:=demo_env) (Some " A@b.C ") (Some " +1 (555) 000-111") " sms").
  vm_compute. reflexivity.
Defined.
