(* ===== verification/InvStore.v ===== *)
(** * The invitation store (internal/invitation/store.go, management_store.go,
    event_store.go)

    One definition per method of [Store]; the SQL of each statement is a function
    on the database.  The database connection is the world's, so the receiver is
    left out. *)

From S2P Require Import Prelude.
From S2P Require Import GoStr.
From S2P Require Import GoTime.
From S2P Require Import Schema.
From S2P Require Import Eff.
From S2P Require Import InvModel.

Local Open Scope Z_scope.

(** [ORDER BY created_at, id] of invitations; [sort_order, created_at, id] of
    guests; [sort_order, created_at] of questions. *)
Definition invitation_le : string * InvitationRow -> string * InvitationRow -> bool :=
  lex_text (fun x => x.2.(i_created_at)) (fun a b => text_le a.1 b.1).
Definition guest_le : string * GuestRow -> string * GuestRow -> bool :=
  lex_int (fun x => x.2.(g_sort_order))
    (lex_text (fun x => x.2.(g_created_at)) (fun a b => text_le a.1 b.1)).
Definition question_le : string * QuestionRow -> string * QuestionRow -> bool :=
  lex_int (fun x => x.2.(q_sort_order)) (fun a b => text_le a.2.(q_created_at) b.2.(q_created_at)).


Section store.
Context `{E : Env}.

(** ** Creating households *)

(** The row [Create] and [Import] insert for an [Invitation]. *)
Definition invitation_row (inv : Invitation) (now : string) : InvitationRow :=
  {| i_event_id := inv.(EventID); i_label := inv.(Label);
     i_contact_email := inv.(ContactEmail);
     i_norm_email := normalizeEmail <$> inv.(ContactEmail);
     i_contact_phone := inv.(ContactPhone);
     i_norm_phone := normalizePhone <$> inv.(ContactPhone);
     i_method := inv.(PreferredDeliveryMethod);
     i_allowance := inv.(AdditionalGuestAllowance); i_source := inv.(Source);
     i_open_id := inv.(OpenEnrollmentID); i_access_id := inv.(AccessID);
     i_token_version := inv.(TokenVersion); i_created_by := inv.(CreatedByUserID);
     i_revoked_at := None; i_reason := None; i_created_at := now; i_updated_at := now |}.

Definition response_row (invitationID now : string) : ResponseRow :=
  {| r_invitation_id := invitationID; r_version := 1; r_submitted_at := None;
     r_created_at := now; r_updated_at := now |}.
Definition guest_row (invitationID name origin : string) (order : Z) (now : string) : GuestRow :=
  {| g_invitation_id := invitationID; g_name := name; g_origin := origin;
     g_sort_order := order; g_removed_at := None; g_created_at := now; g_updated_at := now |}.
Definition guest_response_row (responseID guestID attendance now : string) : GuestResponseRow :=
  {| gr_response_id := responseID; gr_guest_id := guestID; gr_attendance := attendance;
     gr_created_at := now; gr_updated_at := now |}.

(** One guest of a new household and its pending response. *)
Definition insert_guest_pair (what responseID invitationID now : string)
    (guestID name origin : string) (order : Z) : M () :=
  exec (what +:+ " guest")
    (insert_guest guestID (guest_row invitationID name origin order now)) ;;;
  u <- new_uuid ;;
  exec (what +:+ " guest response")
    (insert_guest_response u (guest_response_row responseID guestID "pending" now)).

(** The statements that [Create], [Import] and [EnrollOpen] share: the
    invitation, its response, its guests.  The response's id is returned. *)
Definition insert_household (what id : string) (row : InvitationRow) (gs : list Guest)
    (now : string) : M string :=
  exec (what +:+ " invitation") (insert_invitation id row) ;;;
  responseID <- new_uuid ;;
  exec (what +:+ " response") (insert_response responseID (response_row id now)) ;;;
  forM gs (fun g => insert_guest_pair what responseID id now g.(guest_ID) g.(guest_Name)
                      g.(guest_Origin) g.(guest_SortOrder)) ;;;
  ret responseID.

(** The fields [Create] and [EnrollOpen] fill in on their arguments. *)
Definition stamp_invitation (inv : Invitation) (t : time) : Invitation :=
  MkInvitation inv.(ID) inv.(EventID) inv.(Label) inv.(ContactEmail) inv.(ContactPhone)
    inv.(PreferredDeliveryMethod) inv.(AdditionalGuestAllowance) inv.(Source)
    inv.(OpenEnrollmentID) inv.(AccessID) inv.(TokenVersion) inv.(CreatedByUserID)
    inv.(RevokedAt) inv.(RevocationReason) t t.
Definition stamp_guest (invitationID : string) (t : time) (g : Guest) : Guest :=
  MkGuest g.(guest_ID) invitationID g.(guest_Name) g.(guest_Origin) g.(guest_SortOrder)
    AttendancePending g.(guest_RemovedAt) t t.

(** The zero [time.Time] that [time.Parse] returns beside an error. *)
Definition zero_time : time := -62135596800 * ns_per_sec.

Definition Create (inv : Invitation) (gs : list Guest) : M (Invitation * list Guest) :=
  with_tx "begin invitation create" "commit invitation create" (
    t <- now ;;
    let nowText := format_nano t in
    insert_household "create" inv.(ID) (invitation_row inv nowText) gs nowText ;;;
    let parsed := default zero_time (parse_nano nowText) in
    ret (stamp_invitation inv parsed, stamp_guest inv.(ID) parsed <$> gs)).

(** [ImportRecord]. *)
Record ImportRecord := MkRecord { rec_Invitation : Invitation; rec_Guests : list Guest }.

Definition Import (records : list ImportRecord) : M () :=
  with_tx "begin invitation import" "commit invitation import" (
    t <- now ;;
    let nowText := format_nano t in
    forM records (fun r =>
      insert_household "import" r.(rec_Invitation).(ID)
        (invitation_row r.(rec_Invitation) nowText) r.(rec_Guests) nowText ;;; ret ())).

(** ** Lookups *)

Definition scanInvitation (row : option (string * InvitationRow)) : res (option Invitation) :=
  match row with
  | None => Ok None
  | Some (id, r) => inv <-r parseInvitation id r ;; Ok (Some inv)
  end.

Definition by_id {R} (id : string) (t : gmap string R) : option (string * R) :=
  (fun r => (id, r)) <$> t !! id.

Definition FindByID (id : string) : M (option Invitation) :=
  row <- query "scan invitation" (fun d => by_id id d.(invitations)) ;;
  of_res (scanInvitation row).

Definition FindByIDForEvent (id eventID : string) : M (option Invitation) :=
  row <- query "scan invitation" (fun d =>
    match d.(invitations) !! id with
    | Some r => if bool_decide (r.(i_event_id) = eventID) then Some (id, r) else None
    | None => None
    end) ;;
  of_res (scanInvitation row).

Definition FindByAccessID (accessID : string) : M (option Invitation) :=
  row <- query "scan invitation" (fun d =>
    select_row (fun _ r => bool_decide (r.(i_access_id) = accessID)) d.(invitations)) ;;
  of_res (scanInvitation row).

Definition EventExists (eventID : string) : M bool :=
  query "find recovery event" (fun d => has eventID d.(events)).

Definition loadEventSummary (eventID : string) : M EventSummary :=
  row <- query "scan invitation event" (fun d => by_id eventID d.(events)) ;;
  of_res (scanEventSummary row).

(** The attendance a [LEFT JOIN guest_responses] gives a guest. *)
Definition attendance_of (d : Database) (guestID : string) : string :=
  match select_row (fun _ gr => bool_decide (gr.(gr_guest_id) = guestID)) d.(guest_responses) with
  | Some (_, gr) => gr.(gr_attendance)
  | None => "pending"
  end.

Definition active_in (invitationID : string) (_ : string) (g : GuestRow) : bool :=
  bool_decide (g.(g_invitation_id) = invitationID) && is_null g.(g_removed_at).

Definition active_guest_rows (invitationID : string) (d : Database)
    : list (string * GuestRow * string) :=
  (fun kr => (kr, attendance_of d kr.1)) <$> select (active_in invitationID) d.(guests).

Definition scanGuests (rows : list (string * GuestRow * string)) : M (list Guest) :=
  mapM (fun '(k, r, a) => of_res (scanGuest k r a)) rows.

Definition listGuests (invitationID : string) : M (list Guest) :=
  rows <- query "list guests" (fun d =>
    order_by (fun a b => guest_le a.1 b.1) (active_guest_rows invitationID d)) ;;
  scanGuests rows.

Definition live_question (eventID : string) (_ : string) (q : QuestionRow) : bool :=
  bool_decide (q.(q_event_id) = eventID) && negb q.(q_deleted).

Definition scanQuestion (ctx : string) (kr : string * QuestionRow) : res Question :=
  match json_strings kr.2.(q_options) with
  | None => Err (EInternal ctx)
  | Some opts => Ok (MkQuestion kr.1 kr.2.(q_label) kr.2.(q_type) opts kr.2.(q_required)
                       kr.2.(q_scope) kr.2.(q_sort_order))
  end.

Definition listQuestions (eventID : string) : M (list Question) :=
  rows <- query "list invitation questions" (fun d =>
    order_by question_le (select (live_question eventID) d.(event_questions))) ;;
  mapM (fun kr => of_res (scanQuestion "parse question options" kr)) rows.

Definition listAnswers (invitationID : string) : M (list Answer * list GuestAnswer) :=
  inv <- query "list invitation answers" (fun d =>
    (fun kr => MkAnswer kr.2.(ia_question_id) kr.2.(ia_answer)) <$>
      select (fun _ a => bool_decide (a.(ia_invitation_id) = invitationID)) d.(invitation_answers)) ;;
  gas <- query "list guest answers" (fun d =>
    (fun kr => MkGuestAnswer kr.2.(ga_guest_id) kr.2.(ga_question_id) kr.2.(ga_answer)) <$>
      select (fun _ a => match d.(guests) !! a.(ga_guest_id) with
                         | Some g => active_in invitationID a.(ga_guest_id) g
                         | None => false end) d.(guest_answers)) ;;
  ret (inv, gas).

Definition findResponse (invitationID : string) (d : Database) : option (string * ResponseRow) :=
  select_row (fun _ r => bool_decide (r.(r_invitation_id) = invitationID)) d.(rsvp_responses).

Definition LoadHousehold (invitationID : string) : M Household :=
  o <- FindByID invitationID ;;
  inv <- of_option ErrNotFound o ;;
  event <- loadEventSummary inv.(EventID) ;;
  row <- query "scan response" (findResponse invitationID) ;;
  response <- of_res (match row with
                      | None => Ok None
                      | Some (k, r) => x <-r scanResponse k r ;; Ok (Some x)
                      end) ;;
  gs <- listGuests invitationID ;;
  questions <- listQuestions inv.(EventID) ;;
  let* (invAnswers, guestAnswers) := listAnswers invitationID in
  presentation <- loadGuestPresentation inv.(EventID) ;;
  ret (MkHousehold inv event response gs questions invAnswers guestAnswers
         (Some presentation) None).

(** ** Organizer views *)

Definition log_newer : string * LogRow -> string * LogRow -> bool :=
  fun a b => lex_text (fun x => x.2.(l_created_at)) (fun a b => text_le a.1 b.1) b a.

Definition loadLatestDelivery (invitationID : string) : M (option DeliverySummary) :=
  row <- query "load latest invitation delivery" (fun d =>
    head (order_by log_newer
      (select (fun _ l => bool_decide (l.(l_invitation_id) = Some invitationID)) d.(notification_log)))) ;;
  of_res (match row with
          | None => Ok None
          | Some (_, l) =>
              attempted <-r parseDBTime l.(l_created_at) ;;
              sent <-r parseDBTimeOpt l.(l_sent_at) ;;
              Ok (Some (MkDeliverySummary l.(l_status) l.(l_delivery_status) l.(l_provider)
                          (stringValue l.(l_error)) attempted sent))
          end).

Definition LoadOrganizerHousehold (invitationID : string) : M Household :=
  h <- LoadHousehold invitationID ;;
  latest <- loadLatestDelivery invitationID ;;
  ret (MkHousehold h.(h_Invitation) h.(h_Event) h.(h_Response) h.(h_Guests) h.(h_Questions)
         h.(h_InvitationAnswers) h.(h_GuestAnswers) h.(h_Presentation) latest).

Definition scanInvitationRows (rows : list (string * InvitationRow)) : M (list Invitation) :=
  mapM (fun kr => of_res (parseInvitation kr.1 kr.2)) rows.

Definition ListByEvent (eventID : string) : M (list Household) :=
  rows <- query "list invitations" (fun d =>
    order_by invitation_le
      (select (fun _ r => bool_decide (r.(i_event_id) = eventID)) d.(invitations))) ;;
  invs <- scanInvitationRows rows ;;
  mapM (fun inv => LoadOrganizerHousehold inv.(ID)) invs.

Definition in_group (group : string) (d : Database) (invitationID : string) : bool :=
  bool_decide (group = "all")
  || existsb (fun kr : string * GuestRow =>
       existsb (fun gr : string * GuestResponseRow =>
                  bool_decide (gr.2.(gr_guest_id) = kr.1)
                  && bool_decide (gr.2.(gr_attendance) = group))
               (map_to_list d.(guest_responses)))
     (select (active_in invitationID) d.(guests)).

Definition delivery_target (eventID group : string) (d : Database) (id : string)
    (r : InvitationRow) : bool :=
  bool_decide (r.(i_event_id) = eventID) && is_null r.(i_revoked_at)
  && negb (is_null r.(i_contact_email)) && bool_decide (r.(i_method) = "email")
  && in_group group d id.

Definition ListDeliveryTargets (eventID group : string) : M (list Invitation) :=
  rows <- query "list invitation delivery targets" (fun d =>
    order_by invitation_le (select (delivery_target eventID group d) d.(invitations))) ;;
  scanInvitationRows rows.

Definition CreateMessage (m : InvitationMessage) : M InvitationMessage :=
  t <- now ;;
  id <- new_uuid ;;
  exec "create invitation message"
    (insert_message id {| m_event_id := m.(msg_EventID); m_sender := m.(msg_Sender);
                          m_group := m.(msg_Group); m_subject := m.(msg_Subject);
                          m_body := m.(msg_Body); m_created_at := format_nano t |}) ;;;
  ret (MkMessage id m.(msg_EventID) m.(msg_Sender) m.(msg_Group) m.(msg_Subject) m.(msg_Body) t).

(** ** Rotation, revocation, sessions *)

Definition rotate_row (now : string) (r : InvitationRow) : InvitationRow :=
  {| i_event_id := r.(i_event_id); i_label := r.(i_label);
     i_contact_email := r.(i_contact_email); i_norm_email := r.(i_norm_email);
     i_contact_phone := r.(i_contact_phone); i_norm_phone := r.(i_norm_phone);
     i_method := r.(i_method); i_allowance := r.(i_allowance); i_source := r.(i_source);
     i_open_id := r.(i_open_id); i_access_id := r.(i_access_id);
     i_token_version := r.(i_token_version) + 1; i_created_by := r.(i_created_by);
     i_revoked_at := r.(i_revoked_at); i_reason := r.(i_reason);
     i_created_at := r.(i_created_at); i_updated_at := now |}.
Definition revoke_row (now reason : string) (r : InvitationRow) : InvitationRow :=
  {| i_event_id := r.(i_event_id); i_label := r.(i_label);
     i_contact_email := r.(i_contact_email); i_norm_email := r.(i_norm_email);
     i_contact_phone := r.(i_contact_phone); i_norm_phone := r.(i_norm_phone);
     i_method := r.(i_method); i_allowance := r.(i_allowance); i_source := r.(i_source);
     i_open_id := r.(i_open_id); i_access_id := r.(i_access_id);
     i_token_version := r.(i_token_version); i_created_by := r.(i_created_by);
     i_revoked_at := Some now; i_reason := Some reason;
     i_created_at := r.(i_created_at); i_updated_at := now |}.

(** [UPDATE invitations ... WHERE id = ? AND event_id = ? AND revoked_at IS NULL]. *)
Definition update_live_invitation (ctx id eventID : string)
    (f : InvitationRow -> InvitationRow) : M Z :=
  stmt ctx (fun d =>
    let '(t, n) := update_id id (fun r => bool_decide (r.(i_event_id) = eventID)
                                          && is_null r.(i_revoked_at)) f d.(invitations) in
    Some (n, set_invitations (fun _ => t) d)).

Definition revoke_session_row (now : string) (s : SessionRow) : SessionRow :=
  {| s_invitation_id := s.(s_invitation_id); s_token_hash := s.(s_token_hash);
     s_issued_version := s.(s_issued_version); s_expires_at := s.(s_expires_at);
     s_last_used_at := s.(s_last_used_at); s_revoked_at := Some now;
     s_created_at := s.(s_created_at) |}.
Definition revoke_sessions (ctx invitationID now : string) : M () :=
  exec ctx (fun d => Some (set_invitation_sessions
    (update_where (fun _ s => bool_decide (s.(s_invitation_id) = invitationID)
                              && is_null s.(s_revoked_at))
                  (revoke_session_row now)) d)).

Definition Rotate (id eventID : string) : M (option Invitation) :=
  with_tx "begin rotate" "commit rotation" (
    t <- now ;;
    let nowText := format_nano t in
    changed <- update_live_invitation "rotate invitation" id eventID (rotate_row nowText) ;;
    require (changed =? 1) ErrNotFound ;;;
    revoke_sessions "revoke rotated sessions" id nowText) ;;;
  FindByID id.

Definition Revoke (id eventID reason : string) : M () :=
  with_tx "begin revoke" "commit revoke" (
    t <- now ;;
    let nowText := format_nano t in
    changed <- update_live_invitation "revoke invitation" id eventID (revoke_row nowText reason) ;;
    require (changed =? 1) ErrNotFound ;;;
    revoke_sessions "revoke invitation sessions" id nowText).

Definition session_row (invitationID tokenHash : string) (version : Z) (expiresAt : time)
    (now : string) : SessionRow :=
  {| s_invitation_id := invitationID; s_token_hash := tokenHash; s_issued_version := version;
     s_expires_at := format_nano expiresAt; s_last_used_at := None; s_revoked_at := None;
     s_created_at := now |}.

Definition CreateSession (invitationID tokenHash : string) (tokenVersion : Z)
    (expiresAt : time) : M () :=
  t <- now ;;
  u <- new_uuid ;;
  exec "create invitation session"
    (insert_session u (session_row invitationID tokenHash tokenVersion expiresAt (format_nano t))).

(** The WHERE clause of [InvitationForSession], joined with the invitation. *)
Definition session_matches (tokenHash now : string) (d : Database) (_ : string) (s : SessionRow)
    : bool :=
  bool_decide (s.(s_token_hash) = tokenHash) && str_lt now s.(s_expires_at)
  && is_null s.(s_revoked_at)
  && match d.(invitations) !! s.(s_invitation_id) with
     | Some i => is_null i.(i_revoked_at) && (s.(s_issued_version) =? i.(i_token_version))
     | None => false
     end.
Definition session_invitation (tokenHash now : string) (d : Database)
    : option (string * InvitationRow) :=
  '(_, s) ← select_row (session_matches tokenHash now d) d.(invitation_sessions);
  by_id s.(s_invitation_id) d.(invitations).

Definition touch_session_row (now : string) (s : SessionRow) : SessionRow :=
  {| s_invitation_id := s.(s_invitation_id); s_token_hash := s.(s_token_hash);
     s_issued_version := s.(s_issued_version); s_expires_at := s.(s_expires_at);
     s_last_used_at := Some now; s_revoked_at := s.(s_revoked_at);
     s_created_at := s.(s_created_at) |}.

Definition InvitationForSession (tokenHash : string) : M (option Invitation) :=
  t <- now ;;
  let nowText := format_nano t in
  row <- query "scan invitation" (session_invitation tokenHash nowText) ;;
  o <- of_res (scanInvitation row) ;;
  match o with
  | None => ret None
  | Some inv =>
      ignore_err (exec "touch session" (fun d => Some (set_invitation_sessions
        (update_where (fun _ s => bool_decide (s.(s_token_hash) = tokenHash))
                      (touch_session_row nowText)) d))) ;;;
      ret (Some inv)
  end.
End store.
