(* ===== verification/InvResponse.v ===== *)
(** * Household responses (internal/invitation/response_store.go)

    [SubmitResponse] and the functions it calls.  The request's maps are Go maps:
    the loops over them run in the maps' key order (Go leaves the order open; the
    statements of different keys touch different rows). *)

From S2P Require Import Prelude.
From S2P Require Import GoStr.
From S2P Require Import GoTime.
From S2P Require Import Schema.
From S2P Require Import Eff.
From S2P Require Import InvModel.
From S2P Require Import InvStore.

Local Open Scope Z_scope.

(** A loop that returns on the first error. *)
Fixpoint forR {A} (l : list A) (f : A -> res ()) : res () :=
  match l with [] => Ok () | x :: t => res_bind (f x) (fun _ => forR t f) end.
Notation "r ;;r k" := (res_bind r (fun _ => k)) (at level 100, right associativity) : owl_scope.

(** A Go map read: the zero value for a missing key. *)
Definition answer_at (m : gmap string string) (k : string) : string := default "" (m !! k).
Definition answers_at (m : gmap string (gmap string string)) (k : string) : gmap string string :=
  default ∅ (m !! k).

Definition set_guest_answers_req (req : SubmitRequest) (ga : gmap string (gmap string string))
    : SubmitRequest :=
  MkSubmit req.(sr_Version) req.(sr_AssignedGuests) req.(sr_AdditionalGuests)
    req.(sr_InvitationAnswers) ga.

Section response.
Context `{E : Env}.

Definition validateAnswer (q : Question) (answer : string) : res () :=
  if 1000 <? len answer
  then Err (EValidation ("answer for " +:+ go_quote q.(question_Label) +:+ " exceeds 1000 characters"))
  else if bool_decide (q.(question_Type) = "text") then Ok ()
  else if bool_decide (q.(question_Type) = "select") then
    if bool_decide (answer = "") then Ok ()
    else if bool_decide (answer ∈ q.(question_Options)) then Ok ()
    else Err (EValidation ("invalid option for " +:+ go_quote q.(question_Label)))
  else if bool_decide (q.(question_Type) = "checkbox") then
    if bool_decide (answer = "") then Ok ()
    else match json_strings answer with
         | None => Err (EValidation ("checkbox answer for " +:+ go_quote q.(question_Label)
                                       +:+ " must be an array"))
         | Some selected =>
             if forallb (fun o => bool_decide (o ∈ q.(question_Options))) selected then Ok ()
             else Err (EValidation ("invalid option for " +:+ go_quote q.(question_Label)))
         end
  else Err (EValidation "invalid question type").

(** [questionByID] and [guestByID]: the last entry for an id wins. *)
Definition question_map (qs : list Question) : gmap string Question :=
  list_to_map ((fun q => (q.(question_ID), q)) <$> reverse qs).
Definition guest_ids (gs : list Guest) : gset string := list_to_set (guest_ID <$> gs).

Definition is_blank (s : string) : bool := bool_decide (trim_space s = "").

Definition check_invitation_required (req : SubmitRequest) (q : Question) : res () :=
  if bool_decide (q.(question_Scope) = QuestionScopeInvitation) && q.(question_Required)
     && is_blank (answer_at req.(sr_InvitationAnswers) q.(question_ID))
  then Err (EValidation ("answer required for question: " +:+ q.(question_Label))) else Ok ().

Definition check_guest_required (questions : list Question) (req : SubmitRequest) (g : Guest)
    : res () :=
  if negb (bool_decide (g.(guest_Attendance) = AttendanceAttending)) then Ok ()
  else forR questions (fun q =>
    if bool_decide (q.(question_Scope) = QuestionScopeGuest) && q.(question_Required)
       && is_blank (answer_at (answers_at req.(sr_GuestAnswers) g.(guest_ID)) q.(question_ID))
    then Err (EValidation ("answer required for " +:+ g.(guest_Name) +:+ ": " +:+ q.(question_Label)))
    else Ok ()).

Definition check_answer (questions : list Question) (scope msg : string)
    (qa : string * string) : res () :=
  match question_map questions !! qa.1 with
  | Some q => if bool_decide (q.(question_Scope) = scope) then validateAnswer q qa.2
              else Err (EValidation msg)
  | None => Err (EValidation msg)
  end.

Definition validateResponseAnswers (questions : list Question) (gs : list Guest)
    (req : SubmitRequest) : res () :=
  forR questions (check_invitation_required req) ;;r
  forR gs (check_guest_required questions req) ;;r
  forR (map_to_list req.(sr_InvitationAnswers))
    (check_answer questions QuestionScopeInvitation "invalid invitation-scoped question") ;;r
  forR (map_to_list req.(sr_GuestAnswers)) (fun ga =>
    if bool_decide (ga.1 ∈ guest_ids gs)
    then forR (map_to_list ga.2)
           (check_answer questions QuestionScopeGuest "invalid guest-scoped question")
    else Err (EValidation "guest answer does not belong to this invitation")).

Definition set_attendance_row (attendance now : string) (r : GuestResponseRow) : GuestResponseRow :=
  {| gr_response_id := r.(gr_response_id); gr_guest_id := r.(gr_guest_id);
     gr_attendance := attendance; gr_created_at := r.(gr_created_at); gr_updated_at := now |}.

(** [INSERT ... ON CONFLICT(guest_id) DO UPDATE]. *)
Definition upsert_guest_response (id : string) (r : GuestResponseRow) (d : Database)
    : option Database :=
  match select_row (fun _ x => bool_decide (x.(gr_guest_id) = r.(gr_guest_id)))
          d.(guest_responses) with
  | Some (k, old) =>
      if valid_attendance_col r.(gr_attendance)
      then Some (set_guest_responses
                   <[k := set_attendance_row r.(gr_attendance) r.(gr_updated_at) old]> d)
      else None
  | None => insert_guest_response id r d
  end.

Definition updateGuestAttendance (responseID guestID attendance now : string) : M () :=
  u <- new_uuid ;;
  exec "update guest attendance"
    (upsert_guest_response u (guest_response_row responseID guestID attendance now)).

Definition loadActiveGuestsTx (invitationID : string) : M (list Guest) :=
  rows <- query "load active guests" (active_guest_rows invitationID) ;;
  scanGuests rows.

Definition loadQuestionsTx (eventID : string) : M (list Question) :=
  rows <- query "load response questions"
            (fun d => select (live_question eventID) d.(event_questions)) ;;
  mapM (fun kr => of_res (scanQuestion "parse response question options" kr)) rows.

Definition inv_answer_row (invitationID questionID answer now : string) : InvAnswerRow :=
  {| ia_invitation_id := invitationID; ia_question_id := questionID; ia_answer := answer;
     ia_created_at := now; ia_updated_at := now |}.
Definition guest_answer_row (guestID questionID answer now : string) : GuestAnswerRow :=
  {| ga_guest_id := guestID; ga_question_id := questionID; ga_answer := answer;
     ga_created_at := now; ga_updated_at := now |}.

Definition replaceAnswers (invitationID : string) (gs : list Guest) (req : SubmitRequest)
    (now : string) : M () :=
  exec "replace invitation answers" (fun d => Some (set_invitation_answers
    (delete_where (fun _ a => bool_decide (a.(ia_invitation_id) = invitationID))) d)) ;;;
  forM (map_to_list req.(sr_InvitationAnswers)) (fun qa =>
    u <- new_uuid ;;
    exec "save invitation answer"
      (insert_inv_answer u (inv_answer_row invitationID qa.1 qa.2 now))) ;;;
  forM gs (fun g =>
    exec "replace guest answers" (fun d => Some (set_guest_answers
      (delete_where (fun _ a => bool_decide (a.(ga_guest_id) = g.(guest_ID)))) d))) ;;;
  forM (map_to_list req.(sr_GuestAnswers)) (fun ga =>
    require (bool_decide (ga.1 ∈ guest_ids gs))
      (EValidation "guest answer does not belong to this invitation") ;;;
    forM (map_to_list ga.2) (fun qa =>
      u <- new_uuid ;;
      exec "save guest answer" (insert_guest_answer u (guest_answer_row ga.1 qa.1 qa.2 now)))).

(** [UPDATE rsvp_responses SET version = version + 1, submitted_at =
    COALESCE(submitted_at, ?) ... WHERE invitation_id = ? AND version = ?]. *)
Definition bump_response_row (now : string) (r : ResponseRow) : ResponseRow :=
  {| r_invitation_id := r.(r_invitation_id); r_version := r.(r_version) + 1;
     r_submitted_at := Some (default now r.(r_submitted_at));
     r_created_at := r.(r_created_at); r_updated_at := now |}.
Definition version_matches (invitationID : string) (version : Z) (_ : string) (r : ResponseRow)
    : bool :=
  bool_decide (r.(r_invitation_id) = invitationID) && (r.(r_version) =? version).
Definition advance_version (invitationID : string) (version : Z) (now : string) : M Z :=
  stmt "advance response version" (fun d =>
    Some (count (version_matches invitationID version) d.(rsvp_responses),
          set_rsvp_responses
            (update_where (version_matches invitationID version) (bump_response_row now)) d)).

Definition rename_guest_row (name now : string) (g : GuestRow) : GuestRow :=
  {| g_invitation_id := g.(g_invitation_id); g_name := name; g_origin := g.(g_origin);
     g_sort_order := g.(g_sort_order); g_removed_at := g.(g_removed_at);
     g_created_at := g.(g_created_at); g_updated_at := now |}.
Definition remove_guest_row (now : string) (g : GuestRow) : GuestRow :=
  {| g_invitation_id := g.(g_invitation_id); g_name := g.(g_name); g_origin := g.(g_origin);
     g_sort_order := g.(g_sort_order); g_removed_at := Some now;
     g_created_at := g.(g_created_at); g_updated_at := now |}.
(** [WHERE id = ? AND invitation_id = ? AND origin = ? AND removed_at IS NULL]. *)
Definition update_active_guest (ctx guestID invitationID origin : string)
    (f : GuestRow -> GuestRow) : M () :=
  exec ctx (fun d => Some (set_guests (fun t =>
    (update_id guestID (fun g => active_in invitationID guestID g
                                 && bool_decide (g.(g_origin) = origin)) f t).1) d)).

(** What the loop over the additional guests carries: [keptAdditional],
    [clientKeys] and the answers it re-keys. *)
Record LoopState := MkLoop {
  ls_kept : gset string; ls_keys : gset string;
  ls_answers : gmap string (gmap string string) }.

(** Move the answers of a client key to the new guest's id. *)
Definition rekey_answers (clientKey guestID : string) (m : gmap string (gmap string string))
    : gmap string (gmap string string) :=
  if bool_decide (clientKey = "") then m
  else match m !! clientKey with
       | Some a => <[guestID := a]> (delete clientKey m)
       | None => m
       end.

Definition submit_assigned (responseID now : string) (assigned : gset string)
    (u : GuestAttendanceInput) : M () :=
  require (bool_decide (u.(at_GuestID) ∈ assigned))
    (EValidation "assigned guest does not belong to this invitation") ;;;
  require (validAttendance u.(at_Attendance)) (EValidation "invalid attendance") ;;;
  updateGuestAttendance responseID u.(at_GuestID) u.(at_Attendance) now.

Definition create_additional (invitationID now name : string) (assigned additional : gset string)
    (st : LoopState) (i : nat) (input : AdditionalGuestInput) : M (string * LoopState) :=
  let clientKey := trim_space input.(ag_ClientKey) in
  (if bool_decide (clientKey = "") then ret ()
   else require (len clientKey <=? 100)
          (EValidation "additional guest client key must be 100 characters or fewer") ;;;
        require (negb (bool_decide (clientKey ∈ st.(ls_keys))
                       || bool_decide (clientKey ∈ assigned)
                       || bool_decide (clientKey ∈ additional)))
          (EValidation "additional guest client key is invalid or duplicated")) ;;;
  guestID <- new_uuid ;;
  exec "create additional guest"
    (insert_guest guestID (guest_row invitationID name "additional"
                             (Z.of_nat (size assigned) + Z.of_nat i) now)) ;;;
  ret (guestID, MkLoop st.(ls_kept)
                  (if bool_decide (clientKey = "") then st.(ls_keys)
                   else {[clientKey]} ∪ st.(ls_keys))
                  (rekey_answers clientKey guestID st.(ls_answers))).

Definition keep_additional (invitationID now name : string) (additional : gset string)
    (st : LoopState) (input : AdditionalGuestInput) : M (string * LoopState) :=
  require (is_blank input.(ag_ClientKey))
    (EValidation "persisted additional guests must not include a client key") ;;;
  require (bool_decide (input.(ag_ID) ∈ additional))
    (EValidation "additional guest does not belong to this invitation") ;;;
  update_active_guest "rename additional guest" input.(ag_ID) invitationID "additional"
    (rename_guest_row name now) ;;;
  ret (input.(ag_ID), st).

Definition submit_additional (invitationID responseID now : string)
    (assigned additional : gset string) (st : LoopState) (ix : nat * AdditionalGuestInput)
    : M LoopState :=
  let '(i, input) := ix in
  let name := trim_space input.(ag_Name) in
  require (negb (bool_decide (name = ""))) (EValidation "additional guest name is required") ;;;
  require (len name <=? 200)
    (EValidation "additional guest name must be 200 characters or fewer") ;;;
  require (validAttendance input.(ag_Attendance)) (EValidation "invalid attendance") ;;;
  let* (guestID, st) :=
    if bool_decide (input.(ag_ID) = "")
    then create_additional invitationID now name assigned additional st i input
    else keep_additional invitationID now name additional st input in
  updateGuestAttendance responseID guestID input.(ag_Attendance) now ;;;
  ret (MkLoop ({[guestID]} ∪ st.(ls_kept)) st.(ls_keys) st.(ls_answers)).

Definition remove_unkept (invitationID now : string) (additional kept : gset string) : M () :=
  forM (elements additional) (fun guestID =>
    if bool_decide (guestID ∈ kept) then ret ()
    else update_active_guest "remove additional guest" guestID invitationID "additional"
           (remove_guest_row now)).

Definition ids_with_origin (assigned : bool) (gs : list Guest) : gset string :=
  list_to_set (guest_ID <$>
    filter (fun g => Bool.eqb (bool_decide (g.(guest_Origin) = GuestOriginAssigned)) assigned) gs).

(** The transaction's body. *)
Definition submit_body (invitationID : string) (req : SubmitRequest) : M () :=
  t <- now ;;
  let nowText := format_nano t in
  locked <- query "lock invitation" (fun d =>
    match d.(invitations) !! invitationID with
    | Some r => is_null r.(i_revoked_at) | None => false end) ;;
  require locked ErrNotFound ;;;
  row <- query "load invitation allowance" (fun d => d.(invitations) !! invitationID) ;;
  inv <- of_option (EInternal "load invitation allowance") row ;;
  require (Z.of_nat (length req.(sr_AdditionalGuests)) <=? inv.(i_allowance)) ErrAllowance ;;;
  changed <- advance_version invitationID req.(sr_Version) nowText ;;
  require (changed =? 1) ErrConflict ;;;
  rrow <- query "load response id" (findResponse invitationID) ;;
  resp <- of_option (EInternal "load response id") rrow ;;
  let responseID := resp.1 in
  existing <- loadActiveGuestsTx invitationID ;;
  let assigned := ids_with_origin true existing in
  let additional := ids_with_origin false existing in
  forM req.(sr_AssignedGuests) (submit_assigned responseID nowText assigned) ;;;
  st <- foldM (submit_additional invitationID responseID nowText assigned additional)
          (MkLoop ∅ ∅ req.(sr_GuestAnswers)) (imap pair req.(sr_AdditionalGuests)) ;;
  remove_unkept invitationID nowText additional st.(ls_kept) ;;;
  activeGuests <- loadActiveGuestsTx invitationID ;;
  questions <- loadQuestionsTx inv.(i_event_id) ;;
  let req' := set_guest_answers_req req st.(ls_answers) in
  of_res (validateResponseAnswers questions activeGuests req') ;;;
  replaceAnswers invitationID activeGuests req' nowText.

Definition SubmitResponse (invitationID : string) (req : SubmitRequest) : M () :=
  with_tx "begin response" "commit response" (submit_body invitationID req).
End response.
