(* ===== verification/InvOpen.v ===== *)
(** * Open enrollment (internal/invitation/open_store.go)

    The public link of an event, and the enrollment that turns it into a new
    household. *)

From S2P Require Import Prelude.
From S2P Require Import GoStr.
From S2P Require Import GoTime.
From S2P Require Import Schema.
From S2P Require Import Eff.
From S2P Require Import InvModel.
From S2P Require Import InvStore.

Local Open Scope Z_scope.

Section open_store.
Context `{E : Env}.

Definition FindOpenByEvent (eventID : string) : M (option OpenEnrollmentConfig) :=
  row <- query "scan open enrollment" (fun d =>
    select_row (fun _ r => bool_decide (r.(o_event_id) = eventID)) d.(open_enrollments)) ;;
  of_res (scanOpenEnrollment row).

Definition FindOpenByAccessID (accessID : string) : M (option OpenEnrollmentConfig) :=
  row <- query "scan open enrollment" (fun d =>
    select_row (fun _ r => bool_decide (r.(o_access_id) = accessID)) d.(open_enrollments)) ;;
  of_res (scanOpenEnrollment row).

(** The row [ConfigureOpen] offers for insertion. *)
Definition open_row (c : OpenEnrollmentConfig) (creatorUserID now : string) : OpenRow :=
  {| o_event_id := c.(oc_EventID); o_access_id := c.(oc_AccessID);
     o_token_version := c.(oc_TokenVersion); o_enabled := c.(oc_Enabled);
     o_opens_at := format_nano <$> c.(oc_OpensAt);
     o_closes_at := format_nano <$> c.(oc_ClosesAt);
     o_max_party_size := c.(oc_MaxPartySize); o_capacity := c.(oc_Capacity);
     o_created_by := Some creatorUserID; o_revoked_at := None;
     o_created_at := now; o_updated_at := now |}.

(** [DO UPDATE SET enabled = excluded.enabled, ...]. *)
Definition merge_open_row (excluded old : OpenRow) : OpenRow :=
  {| o_event_id := old.(o_event_id); o_access_id := old.(o_access_id);
     o_token_version := old.(o_token_version); o_enabled := excluded.(o_enabled);
     o_opens_at := excluded.(o_opens_at); o_closes_at := excluded.(o_closes_at);
     o_max_party_size := excluded.(o_max_party_size); o_capacity := excluded.(o_capacity);
     o_created_by := old.(o_created_by); o_revoked_at := old.(o_revoked_at);
     o_created_at := old.(o_created_at); o_updated_at := excluded.(o_updated_at) |}.

(** [INSERT ... ON CONFLICT(event_id) DO UPDATE]. *)
Definition upsert_open (id : string) (r : OpenRow) (d : Database) : option Database :=
  match select_row (fun _ x => bool_decide (x.(o_event_id) = r.(o_event_id)))
          d.(open_enrollments) with
  | Some (k, old) =>
      let new := merge_open_row r old in
      if open_check r && open_check new
      then Some (set_open_enrollments <[k := new]> d) else None
  | None =>
      if negb (has id d.(open_enrollments)) && has r.(o_event_id) d.(events)
         && has_opt r.(o_created_by) d.(users)
         && unique o_access_id r.(o_access_id) d.(open_enrollments) && open_check r
      then Some (set_open_enrollments <[id := r]> d) else None
  end.

Definition ConfigureOpen (config : OpenEnrollmentConfig) (creatorUserID : string) : M () :=
  t <- now ;;
  exec "configure open enrollment"
    (upsert_open config.(oc_ID) (open_row config creatorUserID (format_nano t))).

Definition rotate_open_row (now : string) (r : OpenRow) : OpenRow :=
  {| o_event_id := r.(o_event_id); o_access_id := r.(o_access_id);
     o_token_version := r.(o_token_version) + 1; o_enabled := r.(o_enabled);
     o_opens_at := r.(o_opens_at); o_closes_at := r.(o_closes_at);
     o_max_party_size := r.(o_max_party_size); o_capacity := r.(o_capacity);
     o_created_by := r.(o_created_by); o_revoked_at := r.(o_revoked_at);
     o_created_at := r.(o_created_at); o_updated_at := now |}.
Definition live_open (eventID : string) (_ : string) (r : OpenRow) : bool :=
  bool_decide (r.(o_event_id) = eventID) && is_null r.(o_revoked_at).

Definition RotateOpen (eventID : string) : M (option OpenEnrollmentConfig) :=
  t <- now ;;
  changed <- stmt "rotate open enrollment" (fun d =>
    Some (count (live_open eventID) d.(open_enrollments),
          set_open_enrollments
            (update_where (live_open eventID) (rotate_open_row (format_nano t))) d)) ;;
  require (changed =? 1) ErrNotFound ;;;
  FindOpenByEvent eventID.

(** ** Enrollment *)

(** The row the no-op UPDATE locks. *)
Definition lockable_open (config : OpenEnrollmentConfig) (r : OpenRow) : bool :=
  bool_decide (r.(o_access_id) = config.(oc_AccessID))
  && (r.(o_token_version) =? config.(oc_TokenVersion)) && r.(o_enabled)
  && is_null r.(o_revoked_at).

Definition open_lock_count (config : OpenEnrollmentConfig) (d : Database) : Z :=
  match d.(open_enrollments) !! config.(oc_ID) with
  | Some r => if lockable_open config r then 1 else 0
  | None => 0
  end.

(** [SELECT COUNT] of the guests JOIN invitations an enrollment has allocated. *)
Definition allocated_guest (openID : string) (d : Database) (_ : string) (g : GuestRow) : bool :=
  match d.(invitations) !! g.(g_invitation_id) with
  | Some i => bool_decide (i.(i_open_id) = Some openID) && is_null i.(i_revoked_at)
              && is_null g.(g_removed_at)
  | None => false
  end.
Definition allocated (openID : string) (d : Database) : Z :=
  count (allocated_guest openID d) d.(guests).

Definition check_opens (now : time) (opensAt : option string) : res () :=
  match opensAt with
  | None => Ok ()
  | Some s => v <-r parseDBTime s ;;
              if now <? v then Err ErrInvalidCapability else Ok ()
  end.
Definition check_closes (now : time) (closesAt : option string) : res () :=
  match closesAt with
  | None => Ok ()
  | Some s => v <-r parseDBTime s ;;
              if negb (now <? v) then Err ErrInvalidCapability else Ok ()
  end.

Definition open_invitation_row (inv : Invitation) (openID now : string) : InvitationRow :=
  {| i_event_id := inv.(EventID); i_label := inv.(Label);
     i_contact_email := inv.(ContactEmail);
     i_norm_email := normalizeEmail <$> inv.(ContactEmail);
     i_contact_phone := inv.(ContactPhone);
     i_norm_phone := normalizePhone <$> inv.(ContactPhone);
     i_method := inv.(PreferredDeliveryMethod); i_allowance := 0; i_source := "open";
     i_open_id := Some openID; i_access_id := inv.(AccessID); i_token_version := 1;
     i_created_by := None; i_revoked_at := None; i_reason := None;
     i_created_at := now; i_updated_at := now |}.

(** The guest statement writes the origin ['assigned'] itself. *)
Definition as_assigned (g : Guest) : Guest :=
  MkGuest g.(guest_ID) g.(guest_InvitationID) g.(guest_Name) "assigned" g.(guest_SortOrder)
    g.(guest_Attendance) g.(guest_RemovedAt) g.(guest_CreatedAt) g.(guest_UpdatedAt).

Definition check_capacity (openID : string) (party : Z) (capacity : option Z) : M () :=
  match capacity with
  | None => ret ()
  | Some c =>
      n <- query "count open enrollment capacity" (allocated openID) ;;
      require (negb (c <? n + party)) ErrCapacity
  end.

Definition EnrollOpen (config : OpenEnrollmentConfig) (inv : Invitation) (gs : list Guest)
    (sessionHash : string) (sessionExpiresAt : time) : M (Response * Invitation * list Guest) :=
  with_tx "begin open enrollment" "commit open enrollment" (
    t <- now ;;
    let nowText := format_nano t in
    let party := Z.of_nat (length gs) in
    changed <- query "lock open enrollment" (open_lock_count config) ;;
    require (changed =? 1) ErrInvalidCapability ;;;
    row <- query "load open enrollment limits" (fun d => d.(open_enrollments) !! config.(oc_ID)) ;;
    limits <- of_option (EInternal "load open enrollment limits") row ;;
    require (negb ((party <? 1) || (limits.(o_max_party_size) <? party))) ErrAllowance ;;;
    of_res (check_opens t limits.(o_opens_at)) ;;;
    of_res (check_closes t limits.(o_closes_at)) ;;;
    check_capacity config.(oc_ID) party limits.(o_capacity) ;;;
    responseID <- insert_household "create open" inv.(ID)
                    (open_invitation_row inv config.(oc_ID) nowText) (as_assigned <$> gs) nowText ;;
    u <- new_uuid ;;
    exec "create open invitation session"
      (insert_session u (session_row inv.(ID) sessionHash 1 sessionExpiresAt nowText)) ;;;
    ret (MkResponse responseID inv.(ID) 1 None t t, stamp_invitation inv t,
         stamp_guest inv.(ID) t <$> gs)).
End open_store.
