(* ===== verification/InvRecovery.v ===== *)
(** * Invitation recovery (internal/invitation/recovery_store.go)

    The hourly budgets of recovery requests, the one-time tokens and their
    exchange for a session. *)

From S2P Require Import Prelude.
From S2P Require Import GoStr.
From S2P Require Import GoTime.
From S2P Require Import Schema.
From S2P Require Import Eff.
From S2P Require Import InvModel.
From S2P Require Import InvStore.

Local Open Scope Z_scope.

Section recovery.
Context `{E : Env}.

(** ** Budgets *)

Definition one_hour : Z := 3600 * ns_per_sec.

(** The WHERE clauses of the three counters. *)
Definition source_since (source cutoff : string) (_ : string) (a : RecoveryAttemptRow) : bool :=
  bool_decide (a.(ra_source) = source) && str_lt cutoff a.(ra_created_at).
Definition destination_since (dest cutoff : string) (_ : string) (a : RecoveryAttemptRow) : bool :=
  bool_decide (a.(ra_destination) = dest) && str_lt cutoff a.(ra_created_at).
Definition event_since (eventID cutoff : string) (_ : string) (a : RecoveryAttemptRow) : bool :=
  bool_decide (a.(ra_event_id) = eventID) && str_lt cutoff a.(ra_created_at).

Definition recovery_checks (eventID source dest : string)
    : list ((string -> string -> RecoveryAttemptRow -> bool) * Z) :=
  [(source_since source, 5); (destination_since dest, 3); (event_since eventID, 30)].

(** The loop over the checks; [false] when a budget is used up. *)
Fixpoint within_budgets (cutoff : string)
    (checks : list ((string -> string -> RecoveryAttemptRow -> bool) * Z)) : M bool :=
  match checks with
  | [] => ret true
  | (P, limit) :: rest =>
      n <- query "count recovery attempts"
             (fun d => count (P cutoff) d.(invitation_recovery_attempts)) ;;
      if limit <=? n then ret false else within_budgets cutoff rest
  end.

(** The advisory lock of PostgreSQL, the no-op write of SQLite. *)
Definition lock_recovery_budget : M () :=
  if bool_decide (dialect = "postgres") || bool_decide (dialect = "sqlite")
  then exec "lock recovery budget" (fun d => Some d)
  else fail (EInternal "lock recovery budget: unsupported dialect").

Definition attempt_row (eventID source dest now : string) : RecoveryAttemptRow :=
  {| ra_event_id := eventID; ra_source := source; ra_destination := dest; ra_created_at := now |}.

Definition AllowRecovery (eventID sourceFingerprint destinationFingerprint : string) : M bool :=
  with_tx_early "begin recovery limit" "commit recovery limit" (
    lock_recovery_budget ;;;
    t <- now ;;
    let cutoff := format_nano (t - one_hour) in
    ok <- within_budgets cutoff
            (recovery_checks eventID sourceFingerprint destinationFingerprint) ;;
    if ok : bool then
      t' <- now ;;
      u <- new_uuid ;;
      exec "record recovery attempt"
        (insert_recovery_attempt u
           (attempt_row eventID sourceFingerprint destinationFingerprint (format_nano t'))) ;;;
      ret (Commit true)
    else ret (Rollback false)).

(** ** Tokens *)

Definition recovery_match (eventID contact : string) (_ : string) (r : InvitationRow) : bool :=
  bool_decide (r.(i_event_id) = eventID) && is_null r.(i_revoked_at)
  && (bool_decide (r.(i_norm_email) = Some contact)
      || bool_decide (r.(i_norm_phone) = Some contact)).

Definition FindRecoveryMatches (eventID normalizedContact : string) : M (list Invitation) :=
  rows <- query "find recovery invitations" (fun d =>
    order_by invitation_le (select (recovery_match eventID normalizedContact) d.(invitations))) ;;
  scanInvitationRows rows.

Definition recovery_token_row (invitationID tokenHash destination : string) (expiresAt : time)
    (now : string) : RecoveryTokenRow :=
  {| rt_invitation_id := invitationID; rt_token_hash := tokenHash; rt_destination := destination;
     rt_expires_at := format_nano expiresAt; rt_consumed_at := None; rt_created_at := now |}.

Definition CreateRecoveryToken (invitationID tokenHash destination : string) (expiresAt : time)
    : M () :=
  t <- now ;;
  u <- new_uuid ;;
  exec "create recovery token"
    (insert_recovery_token u
       (recovery_token_row invitationID tokenHash destination expiresAt (format_nano t))).

(** ** Exchange *)

(** [token_hash = ? AND consumed_at IS NULL AND expires_at > ?]. *)
Definition live_token (hash now : string) (_ : string) (rt : RecoveryTokenRow) : bool :=
  bool_decide (rt.(rt_token_hash) = hash) && is_null rt.(rt_consumed_at)
  && str_lt now rt.(rt_expires_at).
(** ... joined with an invitation that is not revoked. *)
Definition usable_token (hash now : string) (d : Database) (k : string) (rt : RecoveryTokenRow)
    : bool :=
  live_token hash now k rt
  && match d.(invitations) !! rt.(rt_invitation_id) with
     | Some i => is_null i.(i_revoked_at)
     | None => false
     end.
Definition token_invitation (hash now : string) (d : Database) : option (string * InvitationRow) :=
  '(_, rt) ← select_row (usable_token hash now d) d.(invitation_recovery_tokens);
  by_id rt.(rt_invitation_id) d.(invitations).

Definition consume_token_row (now : string) (rt : RecoveryTokenRow) : RecoveryTokenRow :=
  {| rt_invitation_id := rt.(rt_invitation_id); rt_token_hash := rt.(rt_token_hash);
     rt_destination := rt.(rt_destination); rt_expires_at := rt.(rt_expires_at);
     rt_consumed_at := Some now; rt_created_at := rt.(rt_created_at) |}.

Definition consume_token (hash now : string) : M Z :=
  stmt "consume recovery token" (fun d =>
    Some (count (live_token hash now) d.(invitation_recovery_tokens),
          set_invitation_recovery_tokens
            (update_where (live_token hash now) (consume_token_row now)) d)).

Definition ConsumeRecoveryAndCreateSession (recoveryHash sessionHash : string)
    (sessionExpiresAt : time) : M (option Invitation) :=
  invitationID <- with_tx "begin recovery exchange" "commit recovery exchange" (
    t <- now ;;
    let nowText := format_nano t in
    row <- query "load recovery token" (token_invitation recoveryHash nowText) ;;
    found <- of_option ErrInvalidCapability row ;;
    changed <- consume_token recoveryHash nowText ;;
    require (changed =? 1) ErrInvalidCapability ;;;
    u <- new_uuid ;;
    exec "create recovery session"
      (insert_session u (session_row found.1 sessionHash found.2.(i_token_version)
                           sessionExpiresAt nowText)) ;;;
    ret found.1) ;;
  FindByID invitationID.
End recovery.
