(* ===== verification/InvManage.v ===== *)
(** * Organizer management (internal/invitation/management_store.go, management.go)

    The organizer's edit of a household and the filtered list of households. *)

From S2P Require Import Prelude.
From S2P Require Import GoStr.
From S2P Require Import GoTime.
From S2P Require Import Schema.
From S2P Require Import Eff.
From S2P Require Import InvModel.
From S2P Require Import InvStore.
From S2P Require Import InvResponse.

Local Open Scope Z_scope.

Section manage.
Context `{E : Env}.

(** ** [Store.UpdateInvitation] *)

Definition edit_row (req : UpdateInvitationRequest) (now : string) (r : InvitationRow)
    : InvitationRow :=
  {| i_event_id := r.(i_event_id); i_label := req.(ur_Label);
     i_contact_email := req.(ur_ContactEmail);
     i_norm_email := normalizeEmail <$> req.(ur_ContactEmail);
     i_contact_phone := req.(ur_ContactPhone);
     i_norm_phone := normalizePhone <$> req.(ur_ContactPhone);
     i_method := req.(ur_Method); i_allowance := req.(ur_Allowance); i_source := r.(i_source);
     i_open_id := r.(i_open_id); i_access_id := r.(i_access_id);
     i_token_version := r.(i_token_version); i_created_by := r.(i_created_by);
     i_revoked_at := r.(i_revoked_at); i_reason := r.(i_reason);
     i_created_at := r.(i_created_at); i_updated_at := now |}.

(** The UPDATE of the metadata; the new row must pass the table's CHECKs. *)
Definition update_metadata (invitationID eventID : string) (req : UpdateInvitationRequest)
    (now : string) : M Z :=
  stmt "update invitation metadata" (fun d =>
    let '(t, n) := update_id invitationID (fun r => bool_decide (r.(i_event_id) = eventID)
                                                    && is_null r.(i_revoked_at))
                     (edit_row req now) d.(invitations) in
    if (n =? 0) || (valid_method req.(ur_Method) && (0 <=? req.(ur_Allowance)))
    then Some (n, set_invitations (fun _ => t) d) else None).

Definition assigned_active (invitationID k : string) (g : GuestRow) : bool :=
  active_in invitationID k g && bool_decide (g.(g_origin) = "assigned").

Definition reorder_guest_row (name : string) (order : Z) (now : string) (g : GuestRow) : GuestRow :=
  {| g_invitation_id := g.(g_invitation_id); g_name := name; g_origin := g.(g_origin);
     g_sort_order := order; g_removed_at := g.(g_removed_at);
     g_created_at := g.(g_created_at); g_updated_at := now |}.

(** One entry of [req.AssignedGuests]: a new guest with its pending response, or
    the rename of one of the household's assigned guests. *)
Definition edit_assigned (invitationID responseID now : string) (existing kept : gset string)
    (ix : nat * AssignedGuestEdit) : M (gset string) :=
  let '(index, guest) := ix in
  if bool_decide (guest.(edit_ID) = "") then
    guestID <- new_uuid ;;
    exec "add assigned guest"
      (insert_guest guestID
         (guest_row invitationID guest.(edit_Name) "assigned" (Z.of_nat index) now)) ;;;
    u <- new_uuid ;;
    exec "add assigned guest response"
      (insert_guest_response u (guest_response_row responseID guestID "pending" now)) ;;;
    ret ({[guestID]} ∪ kept)
  else
    require (bool_decide (guest.(edit_ID) ∈ existing))
      (EValidation "assigned guest does not belong to this invitation") ;;;
    update_active_guest "rename assigned guest" guest.(edit_ID) invitationID "assigned"
      (reorder_guest_row guest.(edit_Name) (Z.of_nat index) now) ;;;
    ret ({[guest.(edit_ID)]} ∪ kept).

Definition update_body (eventID invitationID : string) (req : UpdateInvitationRequest) : M () :=
  t <- now ;;
  let nowText := format_nano t in
  changed <- update_metadata invitationID eventID req nowText ;;
  require (changed =? 1) ErrNotFound ;;;
  row <- query "load invitation response for update" (findResponse invitationID) ;;
  resp <- of_option (EInternal "load invitation response for update") row ;;
  rows <- query "list assigned guests for update"
            (fun d => select (assigned_active invitationID) d.(guests)) ;;
  let existing : gset string := list_to_set rows.*1 in
  kept <- foldM (edit_assigned invitationID resp.1 nowText existing) ∅
            (imap pair req.(ur_AssignedGuests)) ;;
  forM (elements existing) (fun id =>
    if bool_decide (id ∈ kept) then ret ()
    else update_active_guest "soft-remove assigned guest" id invitationID "assigned"
           (remove_guest_row nowText)).

Definition Store_UpdateInvitation (eventID invitationID : string)
    (req : UpdateInvitationRequest) : M () :=
  with_tx "begin invitation update" "commit invitation update"
    (update_body eventID invitationID req).

(** ** [Service.UpdateInvitation] *)

(** The loop that trims the guests and rejects a repeated id. *)
Fixpoint clean_edits (i : Z) (seen : gset string) (l : list AssignedGuestEdit)
    : res (list AssignedGuestEdit) :=
  match l with
  | [] => Ok []
  | g :: rest =>
      let id := trim_space g.(edit_ID) in
      let name := trim_space g.(edit_Name) in
      if bool_decide (name = "") || (200 <? len name)
      then Err (EValidation ("assigned guest " +:+ itoa (i + 1)
                               +:+ " requires a name of 200 characters or fewer"))
      else if negb (bool_decide (id = "")) && bool_decide (id ∈ seen)
      then Err (EValidation "assigned guest appears more than once")
      else
        rest' <-r clean_edits (i + 1) (if bool_decide (id = "") then seen else {[id]} ∪ seen) rest ;;
        Ok (MkEdit id name :: rest')
  end.

Definition validate_update (req : UpdateInvitationRequest) : res UpdateInvitationRequest :=
  let label := trim_space req.(ur_Label) in
  if bool_decide (label = "") || (200 <? len label)
  then Err (EValidation "label is required and must be 200 characters or fewer")
  else if (req.(ur_Allowance) <? 0) || (50 <? req.(ur_Allowance))
  then Err (EValidation "additional guest allowance must be between 0 and 50")
  else if (Z.of_nat (length req.(ur_AssignedGuests)) =? 0)
          || (MaxHouseholdGuests <? Z.of_nat (length req.(ur_AssignedGuests)))
  then Err (EValidation ("between 1 and " +:+ itoa MaxHouseholdGuests
                           +:+ " assigned guests are required"))
  else
    contact <-r validateContact req.(ur_ContactEmail) req.(ur_ContactPhone) req.(ur_Method) ;;
    let '(email, phone, method) := contact in
    edits <-r clean_edits 0 ∅ req.(ur_AssignedGuests) ;;
    Ok (MkUpdateRequest label email phone method req.(ur_Allowance) edits).

Definition UpdateInvitation (eventID invitationID : string) (req : UpdateInvitationRequest)
    : M Household :=
  req' <- of_res (validate_update req) ;;
  Store_UpdateInvitation eventID invitationID req' ;;;
  LoadOrganizerHousehold invitationID.

(** ** [Service.ListOrganizerHouseholds] *)

Definition ListOrganizerHouseholds (eventID : string) (filter0 : InvitationListFilter)
    : M (list Household) :=
  let filter := MkFilter (to_lower (trim_space filter0.(f_Search)))
                  filter0.(f_Response) filter0.(f_Attendance) in
  require (len filter.(f_Search) <=? 200)
    (EValidation "search must be 200 characters or fewer") ;;;
  require (one_of filter.(f_Response) [""; "submitted"; "not_submitted"])
    (EValidation "invalid response filter") ;;;
  require (bool_decide (filter.(f_Attendance) = "") || validAttendance filter.(f_Attendance))
    (EValidation "invalid attendance filter") ;;;
  items <- ListByEvent eventID ;;
  foldM (fun acc h => keep <- of_res (matchesOrganizerFilter h filter) ;;
                      ret (if keep : bool then acc ++ [h] else acc)) [] items.
End manage.
