(* ===== verification/History.v ===== *)
(** * What no operation undoes

    [evolves d d']: rows of the invitation domain are never deleted, their
    identity never changes, versions never go back, and revocation of an
    invitation, removal of a guest, consumption of a recovery token and
    revocation of a session are final.  Every operation of the store respects it,
    whatever its arguments and whatever the driver does. *)

From S2P Require Import Prelude.
From S2P Require Import GoStr.
From S2P Require Import GoTime.
From S2P Require Import Schema.
From S2P Require Import Eff.
From S2P Require Import Respect.
From S2P Require Import Tables.
From S2P Require Import InvModel.
From S2P Require Import InvStore.
From S2P Require Import InvResponse.
From S2P Require Import InvOpen.
From S2P Require Import InvRecovery.
From S2P Require Import InvManage.

Local Open Scope Z_scope.

(** ** Rows *)

Definition inv_row_le (r r' : InvitationRow) : Prop :=
  r.(i_event_id) = r'.(i_event_id) /\ r.(i_access_id) = r'.(i_access_id) /\
  r.(i_source) = r'.(i_source) /\ r.(i_open_id) = r'.(i_open_id) /\
  r.(i_token_version) <= r'.(i_token_version) /\ (r.(i_revoked_at) <> None -> r' = r).
Definition session_le (s s' : SessionRow) : Prop :=
  s.(s_invitation_id) = s'.(s_invitation_id) /\ s.(s_token_hash) = s'.(s_token_hash) /\
  s.(s_issued_version) = s'.(s_issued_version) /\ s.(s_expires_at) = s'.(s_expires_at) /\
  (s.(s_revoked_at) <> None -> s'.(s_revoked_at) <> None).
Definition token_le (x x' : RecoveryTokenRow) : Prop :=
  x.(rt_invitation_id) = x'.(rt_invitation_id) /\ x.(rt_token_hash) = x'.(rt_token_hash) /\
  (x.(rt_consumed_at) <> None -> x' = x).
Definition response_le (r r' : ResponseRow) : Prop :=
  r.(r_invitation_id) = r'.(r_invitation_id) /\ r.(r_version) <= r'.(r_version) /\
  (r.(r_submitted_at) <> None -> r'.(r_submitted_at) = r.(r_submitted_at)).
Definition open_le (o o' : OpenRow) : Prop :=
  o.(o_event_id) = o'.(o_event_id) /\ o.(o_access_id) = o'.(o_access_id) /\
  o.(o_token_version) <= o'.(o_token_version) /\ o.(o_revoked_at) = o'.(o_revoked_at).
Definition guest_row_le (g g' : GuestRow) : Prop :=
  g.(g_invitation_id) = g'.(g_invitation_id) /\ g.(g_origin) = g'.(g_origin) /\
  (g.(g_removed_at) <> None -> g' = g).
Definition guest_response_le (x x' : GuestResponseRow) : Prop :=
  x.(gr_response_id) = x'.(gr_response_id) /\ x.(gr_guest_id) = x'.(gr_guest_id).

Ltac trans_rows := destruct_and!; split_and!; first [congruence | lia | intuition congruence].

#[global] Instance inv_row_le_preorder : PreOrder inv_row_le.
Proof. split; [by intros ?|]. unfold inv_row_le. intros x y z Hxy Hyz. by trans_rows. Qed.
#[global] Instance session_le_preorder : PreOrder session_le.
Proof. split; [by intros ?|]. unfold session_le. intros x y z Hxy Hyz. by trans_rows. Qed.
#[global] Instance token_le_preorder : PreOrder token_le.
Proof. split; [by intros ?|]. unfold token_le. intros x y z Hxy Hyz. by trans_rows. Qed.
#[global] Instance response_le_preorder : PreOrder response_le.
Proof. split; [by intros ?|]. unfold response_le. intros x y z Hxy Hyz. by trans_rows. Qed.
#[global] Instance open_le_preorder : PreOrder open_le.
Proof. split; [by intros ?|]. unfold open_le. intros x y z Hxy Hyz. by trans_rows. Qed.
#[global] Instance guest_row_le_preorder : PreOrder guest_row_le.
Proof. split; [by intros ?|]. unfold guest_row_le. intros x y z Hxy Hyz. by trans_rows. Qed.
#[global] Instance guest_response_le_preorder : PreOrder guest_response_le.
Proof. split; [by intros ?|]. unfold guest_response_le. intros x y z Hxy Hyz. by trans_rows. Qed.

(** ** Databases *)

Record evolves (d d' : Database) : Prop := {
  ev_accounts : accounts d' = accounts d;
  ev_events : d'.(events) = d.(events);
  ev_questions : d'.(event_questions) = d.(event_questions);
  ev_cards : d'.(invite_cards) = d.(invite_cards);
  ev_open : table_le open_le d.(open_enrollments) d'.(open_enrollments);
  ev_invitations : table_le inv_row_le d.(invitations) d'.(invitations);
  ev_guests : table_le guest_row_le d.(guests) d'.(guests);
  ev_responses : table_le response_le d.(rsvp_responses) d'.(rsvp_responses);
  ev_guest_responses : table_le guest_response_le d.(guest_responses) d'.(guest_responses);
  ev_sessions : table_le session_le d.(invitation_sessions) d'.(invitation_sessions);
  ev_tokens : table_le token_le d.(invitation_recovery_tokens) d'.(invitation_recovery_tokens);
  ev_attempts : table_le eq d.(invitation_recovery_attempts) d'.(invitation_recovery_attempts);
  ev_messages : table_le eq d.(invitation_messages) d'.(invitation_messages) }.

#[global] Instance evolves_preorder : PreOrder evolves.
Proof.
  split.
  - intros d. by split.
  - intros d1 d2 d3 [] []. split; try congruence; by etrans.
Qed.

(** A statement that changes one table. *)
Ltac evolve := split; simpl; try reflexivity.

(** ** Statements *)

Ltac split_guards :=
  repeat match goal with H : _ && _ = true |- _ => apply andb_true_iff in H as [? ?] end.
Ltac insert_cases H :=
  lazymatch type of H with
  | (if ?b then _ else _) = Some _ => destruct b eqn:?; [|discriminate H]
  end; injection H as H; split_guards;
  try lazymatch type of H with _ = ?x => is_var x; subst x end.

Lemma has_false {R} id (t : gmap string R) : negb (has id t) = true -> t !! id = None.
Proof.
  rewrite negb_true_iff. intros H. destruct (t !! id) eqn:E; [|done].
  assert (has id t = true) by (apply has_spec; eauto). congruence.
Qed.

Ltac evolve_insert :=
  intros H; insert_cases H; evolve; apply table_le_insert_new; [apply _|by apply has_false].

Lemma insert_invitation_evolves id r d d' : insert_invitation id r d = Some d' -> evolves d d'.
Proof. unfold insert_invitation. evolve_insert. Qed.
Lemma insert_response_evolves id r d d' : insert_response id r d = Some d' -> evolves d d'.
Proof. unfold insert_response. evolve_insert. Qed.
Lemma insert_guest_evolves id r d d' : insert_guest id r d = Some d' -> evolves d d'.
Proof. unfold insert_guest. evolve_insert. Qed.
Lemma insert_guest_response_evolves id r d d' : insert_guest_response id r d = Some d' -> evolves d d'.
Proof. unfold insert_guest_response. evolve_insert. Qed.
Lemma insert_session_evolves id r d d' : insert_session id r d = Some d' -> evolves d d'.
Proof. unfold insert_session. evolve_insert. Qed.
Lemma insert_recovery_token_evolves id r d d' : insert_recovery_token id r d = Some d' -> evolves d d'.
Proof. unfold insert_recovery_token. evolve_insert. Qed.
Lemma insert_recovery_attempt_evolves id r d d' : insert_recovery_attempt id r d = Some d' -> evolves d d'.
Proof. unfold insert_recovery_attempt. evolve_insert. Qed.
Lemma insert_message_evolves id r d d' : insert_message id r d = Some d' -> evolves d d'.
Proof. unfold insert_message. evolve_insert. Qed.
Lemma insert_inv_answer_evolves id r d d' : insert_inv_answer id r d = Some d' -> evolves d d'.
Proof. unfold insert_inv_answer. intros H. insert_cases H. evolve. Qed.
Lemma insert_guest_answer_evolves id r d d' : insert_guest_answer id r d = Some d' -> evolves d d'.
Proof. unfold insert_guest_answer. intros H. insert_cases H. evolve. Qed.
#[export] Hint Resolve insert_invitation_evolves insert_response_evolves insert_guest_evolves
  insert_guest_response_evolves insert_session_evolves insert_recovery_token_evolves
  insert_recovery_attempt_evolves insert_message_evolves insert_inv_answer_evolves
  insert_guest_answer_evolves : respects.

Section evolves.
Context `{E : Env}.

Lemma is_null_true c : is_null c = true -> c = None.
Proof. unfold is_null. by rewrite bool_decide_eq_true. Qed.

Lemma upsert_guest_response_evolves id r d d' :
  upsert_guest_response id r d = Some d' -> evolves d d'.
Proof.
  unfold upsert_guest_response. destruct (select_row _ _) as [[k old]|] eqn:Es.
  - intros H. insert_cases H. apply select_row_Some in Es as [Hk _]. evolve.
    eapply table_le_insert_old; [apply _|done|]. by split.
  - apply insert_guest_response_evolves.
Qed.

Lemma update_live_invitation_evolves ctx id eventID f :
  (forall r, r.(i_revoked_at) = None -> inv_row_le r (f r)) ->
  respects evolves (update_live_invitation ctx id eventID f).
Proof.
  intros Hf. unfold update_live_invitation. respect1. intros H.
  destruct (update_id id _ f (invitations d)) as [t n] eqn:Eu. injection H as <- <-. evolve.
  change t with (t, n).1. rewrite <- Eu. apply table_le_update_id; [apply _|].
  intros r _ HQ. apply andb_true_iff in HQ as [_ Hn%is_null_true]. auto.
Qed.
Lemma rotate_row_le now r : r.(i_revoked_at) = None -> inv_row_le r (rotate_row now r).
Proof. intros Hn. unfold inv_row_le. simpl. split_and!; try done; lia. Qed.
Lemma revoke_row_le now reason r :
  r.(i_revoked_at) = None -> inv_row_le r (revoke_row now reason r).
Proof. intros Hn. unfold inv_row_le. simpl. split_and!; try done; lia. Qed.
Lemma revoke_sessions_evolves ctx id now : respects evolves (revoke_sessions ctx id now).
Proof.
  unfold revoke_sessions. respect1. intros [= <-]. evolve. apply table_le_update_where; [apply _|].
  by intros k r _ _.
Qed.
Hint Resolve update_live_invitation_evolves rotate_row_le revoke_row_le revoke_sessions_evolves
  upsert_guest_response_evolves : respects.

(** ** Operations of the store *)

Lemma insert_household_evolves what id row gs now :
  respects evolves (insert_household what id row gs now).
Proof. unfold insert_household, insert_guest_pair. respect. Qed.
Hint Resolve insert_household_evolves : respects.

Lemma Create_evolves inv gs : respects evolves (Create inv gs).
Proof. unfold Create. respect. Qed.
Lemma Import_evolves records : respects evolves (Import records).
Proof. unfold Import. respect. Qed.
Lemma FindByID_evolves id : respects evolves (FindByID id).
Proof. unfold FindByID. respect. Qed.
Hint Resolve FindByID_evolves : respects.
Lemma Rotate_evolves id eventID : respects evolves (Rotate id eventID).
Proof. unfold Rotate. respect. Qed.
Lemma Revoke_evolves id eventID reason : respects evolves (Revoke id eventID reason).
Proof. unfold Revoke. respect. Qed.
Lemma CreateSession_evolves i h v e : respects evolves (CreateSession i h v e).
Proof. unfold CreateSession. respect. Qed.
Lemma InvitationForSession_evolves h : respects evolves (InvitationForSession h).
Proof.
  unfold InvitationForSession. respect. intros [= <-]. evolve.
  apply table_le_update_where; [apply _|]. by intros k r _ _.
Qed.
Lemma CreateMessage_evolves m : respects evolves (CreateMessage m).
Proof. unfold CreateMessage. respect. Qed.

Lemma update_active_guest_evolves ctx g i o f :
  (forall r, r.(g_removed_at) = None -> guest_row_le r (f r)) ->
  respects evolves (update_active_guest ctx g i o f).
Proof.
  intros Hf. unfold update_active_guest. respect1. intros [= <-]. evolve.
  apply table_le_update_id; [apply _|]. unfold active_in. intros r _ HQ.
  apply andb_true_iff in HQ as [[_ Hn%is_null_true]%andb_true_iff _]. by apply Hf.
Qed.
Lemma rename_guest_le name now r : r.(g_removed_at) = None -> guest_row_le r (rename_guest_row name now r).
Proof. intros Hn. by split_and!. Qed.
Lemma reorder_guest_le name n now r : r.(g_removed_at) = None -> guest_row_le r (reorder_guest_row name n now r).
Proof. intros Hn. by split_and!. Qed.
Lemma remove_guest_le now r : r.(g_removed_at) = None -> guest_row_le r (remove_guest_row now r).
Proof. intros Hn. by split_and!. Qed.
Hint Resolve update_active_guest_evolves rename_guest_le reorder_guest_le remove_guest_le : respects.

Lemma advance_version_evolves i v now : respects evolves (advance_version i v now).
Proof.
  unfold advance_version. respect1. intros [= _ <-]. evolve. apply table_le_update_where; [apply _|].
  intros k r _ _. unfold response_le. simpl. split_and!; [done|lia|]. by destruct (r_submitted_at r).
Qed.
Lemma replaceAnswers_evolves i gs req now : respects evolves (replaceAnswers i gs req now).
Proof. unfold replaceAnswers. respect; intros [= <-]; evolve. Qed.
Lemma submit_assigned_evolves r n a u : respects evolves (submit_assigned r n a u).
Proof. unfold submit_assigned, updateGuestAttendance. respect. Qed.
Lemma submit_additional_evolves i r n a b st x : respects evolves (submit_additional i r n a b st x).
Proof. unfold submit_additional, create_additional, keep_additional, updateGuestAttendance. respect. Qed.
Hint Resolve advance_version_evolves replaceAnswers_evolves submit_assigned_evolves
  submit_additional_evolves : respects.
Lemma SubmitResponse_evolves i req : respects evolves (SubmitResponse i req).
Proof.
  unfold SubmitResponse, submit_body, loadActiveGuestsTx, loadQuestionsTx, scanGuests, remove_unkept.
  respect.
Qed.

Lemma edit_assigned_evolves i r n e k x : respects evolves (edit_assigned i r n e k x).
Proof. unfold edit_assigned. respect. Qed.
Lemma update_metadata_evolves i e req now : respects evolves (update_metadata i e req now).
Proof.
  unfold update_metadata. respect1. intros H.
  destruct (update_id i _ _ (invitations d)) as [t n] eqn:Eu. revert H.
  destruct (_ || _); [|done]. intros [= <- <-]. evolve. change t with (t, n).1. rewrite <- Eu.
  apply table_le_update_id; [apply _|]. intros r _ HQ. apply andb_true_iff in HQ as [_ Hn%is_null_true].
  unfold inv_row_le. simpl. split_and!; try done; lia.
Qed.
Hint Resolve edit_assigned_evolves update_metadata_evolves : respects.
Lemma UpdateInvitation_evolves e i req : respects evolves (Store_UpdateInvitation e i req).
Proof. unfold Store_UpdateInvitation, update_body. respect. Qed.

Lemma ConfigureOpen_evolves c u : respects evolves (ConfigureOpen c u).
Proof.
  unfold ConfigureOpen. respect. unfold upsert_open.
  destruct (select_row _ _) as [[k old]|] eqn:Es; intros H; insert_cases H.
  - apply select_row_Some in Es as [Hk _]. evolve. eapply table_le_insert_old; [apply _|done|].
    unfold open_le. simpl. split_and!; done || lia.
  - evolve. apply table_le_insert_new; [apply _|by apply has_false].
Qed.
Lemma RotateOpen_evolves e : respects evolves (RotateOpen e).
Proof.
  unfold RotateOpen, FindOpenByEvent. respect. intros [= _ <-]. evolve.
  apply table_le_update_where; [apply _|]. intros k r _ _. unfold open_le. simpl.
  split_and!; done || lia.
Qed.
Lemma EnrollOpen_evolves c i gs h e : respects evolves (EnrollOpen c i gs h e).
Proof. unfold EnrollOpen, check_capacity. respect. Qed.

Lemma within_budgets_evolves c l : respects evolves (within_budgets c l).
Proof. induction l as [|[P n] l IH]; simpl; respect. Qed.
Hint Resolve within_budgets_evolves : respects.
Lemma AllowRecovery_evolves e s d : respects evolves (AllowRecovery e s d).
Proof. unfold AllowRecovery, lock_recovery_budget. respect. by intros [= <-]. Qed.
Lemma CreateRecoveryToken_evolves i h d e : respects evolves (CreateRecoveryToken i h d e).
Proof. unfold CreateRecoveryToken. respect. Qed.
Lemma ConsumeRecovery_evolves r s e : respects evolves (ConsumeRecoveryAndCreateSession r s e).
Proof.
  unfold ConsumeRecoveryAndCreateSession, consume_token. respect. intros [= _ <-]. evolve.
  apply table_le_update_where; [apply _|]. unfold live_token. intros k x _ Hl.
  apply andb_true_iff in Hl as [[_ Hn%is_null_true]%andb_true_iff _].
  unfold token_le. by split_and!.
Qed.
End evolves.
