(* ===== verification/Integrity.v ===== *)
(** * Integrity of the invitation tables

    Keys and references that every statement keeps, with or without faults, in
    the middle of a transaction as at its end. *)

From S2P Require Import Prelude.
From S2P Require Import GoStr.
From S2P Require Import GoTime.
From S2P Require Import Schema.
From S2P Require Import Eff.
From S2P Require Import Respect.
From S2P Require Import Tables.
From S2P Require Import InvModel.
From S2P Require Import InvStore.
From S2P Require Import InvResponse.
From S2P Require Import InvOpen.
From S2P Require Import InvRecovery.
From S2P Require Import InvManage.
From S2P Require Import History.

Local Open Scope Z_scope.

Definition ia_key (a : InvAnswerRow) : string * string := (a.(ia_invitation_id), a.(ia_question_id)).
Definition ga_key (a : GuestAnswerRow) : string * string := (a.(ga_guest_id), a.(ga_question_id)).

Record Integrity (d : Database) : Prop := {
  in_access : uniq i_access_id d.(invitations);
  in_event : refs i_event_id d.(invitations) d.(events);
  in_response : uniq r_invitation_id d.(rsvp_responses);
  in_response_ref : refs r_invitation_id d.(rsvp_responses) d.(invitations);
  in_guest_ref : refs g_invitation_id d.(guests) d.(invitations);
  in_gr : uniq gr_guest_id d.(guest_responses);
  in_gr_response : refs gr_response_id d.(guest_responses) d.(rsvp_responses);
  in_gr_guest : refs gr_guest_id d.(guest_responses) d.(guests);
  in_session : uniq s_token_hash d.(invitation_sessions);
  in_session_ref : refs s_invitation_id d.(invitation_sessions) d.(invitations);
  in_token : uniq rt_token_hash d.(invitation_recovery_tokens);
  in_token_ref : refs rt_invitation_id d.(invitation_recovery_tokens) d.(invitations);
  in_open_event : uniq o_event_id d.(open_enrollments);
  in_open_access : uniq o_access_id d.(open_enrollments);
  in_ia : uniq ia_key d.(invitation_answers);
  in_ia_ref : refs ia_invitation_id d.(invitation_answers) d.(invitations);
  in_ga : uniq ga_key d.(guest_answers);
  in_ga_ref : refs ga_guest_id d.(guest_answers) d.(guests) }.

(** The new table of a statement against each field of the invariant. *)
Ltac integrity1 :=
  first
    [ assumption
    | apply uniq_insert; assumption
    | apply refs_insert; assumption
    | eapply refs_grow; [|eassumption]; intros ?;
      first [apply insert_grow | apply update_where_grow | apply update_id_grow]
    | eapply uniq_from_old; [|eassumption];
      first [ apply from_old_update_where; [apply _|done] | apply from_old_update_id; [apply _|done]
            | apply from_old_delete_where; apply _ | eapply from_old_insert; [apply _|eassumption|done] ]
    | eapply refs_from_old; [|eassumption];
      first [ apply from_old_update_where; [apply _|done] | apply from_old_update_id; [apply _|done]
            | apply from_old_delete_where; apply _ | eapply from_old_insert; [apply _|eassumption|done] ] ].
Ltac integrity :=
  let H := fresh in intros H; destruct H; split; simpl in *; integrity1.

(** ** Statements *)

Lemma insert_invitation_integrity id r d d' : insert_invitation id r d = Some d' -> keeps Integrity d d'.
Proof. unfold insert_invitation. intros H. insert_cases H. integrity. Qed.
Lemma insert_response_integrity id r d d' : insert_response id r d = Some d' -> keeps Integrity d d'.
Proof. unfold insert_response. intros H. insert_cases H. integrity. Qed.
Lemma insert_guest_integrity id r d d' : insert_guest id r d = Some d' -> keeps Integrity d d'.
Proof. unfold insert_guest. intros H. insert_cases H. integrity. Qed.
Lemma insert_guest_response_integrity id r d d' :
  insert_guest_response id r d = Some d' -> keeps Integrity d d'.
Proof. unfold insert_guest_response. intros H. insert_cases H. integrity. Qed.
Lemma insert_session_integrity id r d d' : insert_session id r d = Some d' -> keeps Integrity d d'.
Proof. unfold insert_session. intros H. insert_cases H. integrity. Qed.
Lemma insert_recovery_token_integrity id r d d' :
  insert_recovery_token id r d = Some d' -> keeps Integrity d d'.
Proof. unfold insert_recovery_token. intros H. insert_cases H. integrity. Qed.
Lemma insert_recovery_attempt_integrity id r d d' :
  insert_recovery_attempt id r d = Some d' -> keeps Integrity d d'.
Proof. unfold insert_recovery_attempt. intros H. insert_cases H. integrity. Qed.
Lemma insert_message_integrity id r d d' : insert_message id r d = Some d' -> keeps Integrity d d'.
Proof. unfold insert_message. intros H. insert_cases H. integrity. Qed.
Lemma insert_inv_answer_integrity id r d d' : insert_inv_answer id r d = Some d' -> keeps Integrity d d'.
Proof. unfold insert_inv_answer. intros H. insert_cases H. integrity. Qed.
Lemma insert_guest_answer_integrity id r d d' :
  insert_guest_answer id r d = Some d' -> keeps Integrity d d'.
Proof. unfold insert_guest_answer. intros H. insert_cases H. integrity. Qed.
#[export] Hint Resolve insert_invitation_integrity insert_response_integrity insert_guest_integrity
  insert_guest_response_integrity insert_session_integrity insert_recovery_token_integrity
  insert_recovery_attempt_integrity insert_message_integrity insert_inv_answer_integrity
  insert_guest_answer_integrity : respects.

Section integrity.
Context `{E : Env}.

Lemma upsert_guest_response_integrity id r d d' :
  upsert_guest_response id r d = Some d' -> keeps Integrity d d'.
Proof.
  unfold upsert_guest_response. destruct (select_row _ _) as [[k old]|] eqn:Es.
  - intros H. insert_cases H. apply select_row_Some in Es as [Hk _]. integrity.
  - apply insert_guest_response_integrity.
Qed.
(** An UPDATE of invitations that keeps identity columns. *)
Lemma invitations_update_integrity id Q f d :
  (forall r, (f r).(i_access_id) = r.(i_access_id) /\ (f r).(i_event_id) = r.(i_event_id)) ->
  keeps Integrity d (set_invitations (fun _ => (update_id id Q f d.(invitations)).1) d).
Proof.
  intros Hf [].
  assert (Hold : forall C (col : InvitationRow -> C), (forall r, col (f r) = col r) ->
    from_old (fun r r' => col r = col r') (invitations d) (update_id id Q f (invitations d)).1).
  { intros C col Hc. apply from_old_update_id; [apply _|]. intros r. by rewrite Hc. }
  split; simpl;
    first [ assumption
          | eapply refs_grow; [intros ?; apply update_id_grow|assumption]
          | eapply uniq_from_old; [apply Hold; intros r; apply Hf|assumption]
          | eapply refs_from_old; [apply Hold; intros r; apply Hf|assumption] ].
Qed.
Lemma update_live_invitation_integrity ctx id eventID f :
  (forall r, (f r).(i_access_id) = r.(i_access_id) /\ (f r).(i_event_id) = r.(i_event_id)) ->
  respects (keeps Integrity) (update_live_invitation ctx id eventID f).
Proof.
  intros Hf. unfold update_live_invitation. respect1. intros H.
  destruct (update_id id _ f (invitations d)) as [t n] eqn:Eu. injection H as <- <-.
  change t with (t, n).1. rewrite <- Eu. by apply invitations_update_integrity.
Qed.
Lemma update_metadata_integrity i e req now : respects (keeps Integrity) (update_metadata i e req now).
Proof.
  unfold update_metadata. respect1. intros H.
  destruct (update_id i _ _ (invitations d)) as [t n] eqn:Eu. revert H.
  destruct (_ || _); [|done]. intros [= <- <-]. change t with (t, n).1. rewrite <- Eu.
  by apply invitations_update_integrity.
Qed.
Lemma revoke_sessions_integrity ctx id now : respects (keeps Integrity) (revoke_sessions ctx id now).
Proof. unfold revoke_sessions. respect1. intros [= <-]. integrity. Qed.
Lemma update_active_guest_integrity ctx g i o f :
  (forall r, r.(g_invitation_id) = (f r).(g_invitation_id)) ->
  respects (keeps Integrity) (update_active_guest ctx g i o f).
Proof. intros Hf. unfold update_active_guest. respect1. intros [= <-]. integrity. Qed.
Lemma advance_version_integrity i v now : respects (keeps Integrity) (advance_version i v now).
Proof. unfold advance_version. respect1. intros [= _ <-]. integrity. Qed.
Hint Resolve update_live_invitation_integrity update_metadata_integrity revoke_sessions_integrity
  upsert_guest_response_integrity update_active_guest_integrity advance_version_integrity : respects.

(** ** Operations of the store *)

Lemma insert_household_integrity what id row gs now :
  respects (keeps Integrity) (insert_household what id row gs now).
Proof. unfold insert_household, insert_guest_pair. respect. Qed.
Hint Resolve insert_household_integrity : respects.
Lemma Create_integrity inv gs : respects (keeps Integrity) (Create inv gs).
Proof. unfold Create. respect. Qed.
Lemma Import_integrity records : respects (keeps Integrity) (Import records).
Proof. unfold Import. respect. Qed.
Lemma Rotate_integrity id eventID : respects (keeps Integrity) (Rotate id eventID).
Proof. unfold Rotate, FindByID. respect. Qed.
Lemma Revoke_integrity id eventID reason : respects (keeps Integrity) (Revoke id eventID reason).
Proof. unfold Revoke. respect. Qed.
Lemma CreateSession_integrity i h v e : respects (keeps Integrity) (CreateSession i h v e).
Proof. unfold CreateSession. respect. Qed.
Lemma InvitationForSession_integrity h : respects (keeps Integrity) (InvitationForSession h).
Proof. unfold InvitationForSession. respect. intros [= <-]. integrity. Qed.
Lemma CreateMessage_integrity m : respects (keeps Integrity) (CreateMessage m).
Proof. unfold CreateMessage. respect. Qed.

Lemma replaceAnswers_integrity i gs req now : respects (keeps Integrity) (replaceAnswers i gs req now).
Proof. unfold replaceAnswers. respect; intros [= <-]; integrity. Qed.
Lemma submit_assigned_integrity r n a u : respects (keeps Integrity) (submit_assigned r n a u).
Proof. unfold submit_assigned, updateGuestAttendance. respect. Qed.
Lemma submit_additional_integrity i r n a b st x :
  respects (keeps Integrity) (submit_additional i r n a b st x).
Proof. unfold submit_additional, create_additional, keep_additional, updateGuestAttendance. respect. Qed.
Hint Resolve replaceAnswers_integrity submit_assigned_integrity submit_additional_integrity : respects.
Lemma SubmitResponse_integrity i req : respects (keeps Integrity) (SubmitResponse i req).
Proof.
  unfold SubmitResponse, submit_body, loadActiveGuestsTx, loadQuestionsTx, scanGuests, remove_unkept.
  respect.
Qed.

Lemma UpdateInvitation_integrity e i req : respects (keeps Integrity) (Store_UpdateInvitation e i req).
Proof. unfold Store_UpdateInvitation, update_body, edit_assigned. respect. Qed.

Lemma ConfigureOpen_integrity c u : respects (keeps Integrity) (ConfigureOpen c u).
Proof.
  unfold ConfigureOpen. respect. unfold upsert_open.
  destruct (select_row _ _) as [[k old]|] eqn:Es; intros H; insert_cases H.
  - apply select_row_Some in Es as [Hk _]. integrity.
  - assert (unique o_event_id (oc_EventID c) (open_enrollments d) = true).
    { apply unique_spec. intros k r Hk. by eapply select_row_None, bool_decide_eq_false in Es. }
    integrity.
Qed.
Lemma RotateOpen_integrity e : respects (keeps Integrity) (RotateOpen e).
Proof. unfold RotateOpen, FindOpenByEvent. respect. intros [= _ <-]. integrity. Qed.
Lemma EnrollOpen_integrity c i gs h e : respects (keeps Integrity) (EnrollOpen c i gs h e).
Proof. unfold EnrollOpen, check_capacity. respect. Qed.

Lemma within_budgets_integrity c l : respects (keeps Integrity) (within_budgets c l).
Proof. induction l as [|[P n] l IH]; simpl; respect. Qed.
Hint Resolve within_budgets_integrity : respects.
Lemma AllowRecovery_integrity e s d : respects (keeps Integrity) (AllowRecovery e s d).
Proof. unfold AllowRecovery, lock_recovery_budget. respect. by intros [= <-]. Qed.
Lemma CreateRecoveryToken_integrity i h d e : respects (keeps Integrity) (CreateRecoveryToken i h d e).
Proof. unfold CreateRecoveryToken. respect. Qed.
Lemma ConsumeRecovery_integrity r s e :
  respects (keeps Integrity) (ConsumeRecoveryAndCreateSession r s e).
Proof. unfold ConsumeRecoveryAndCreateSession, consume_token, FindByID. respect. intros [= _ <-]. integrity. Qed.
End integrity.
