(* ===== verification/Complete.v ===== *)
(** * Complete households

    At the end of every operation each invitation has its response and each guest
    a guest response, attached to the response of the guest's own household. *)

From S2P Require Import Prelude.
From S2P Require Import GoStr.
From S2P Require Import GoTime.
From S2P Require Import Schema.
From S2P Require Import Eff.
From S2P Require Import Respect.
From S2P Require Import Tables.
From S2P Require Import InvModel.
From S2P Require Import InvStore.
From S2P Require Import InvResponse.
From S2P Require Import InvOpen.
From S2P Require Import InvRecovery.
From S2P Require Import InvManage.
From S2P Require Import History.
From S2P Require Import Integrity.

Local Open Scope Z_scope.

(** Response [rid] is the response of invitation [id]. *)
Definition response_of (d : Database) (rid id : string) : Prop :=
  exists r, d.(rsvp_responses) !! rid = Some r /\ r.(r_invitation_id) = id.
(** Guest [g] of invitation [id] has its guest response. *)
Definition guest_answered (d : Database) (g id : string) : Prop :=
  exists k x, d.(guest_responses) !! k = Some x /\ x.(gr_guest_id) = g /\
              response_of d x.(gr_response_id) id.

Definition has_responses (d : Database) : Prop :=
  forall id, is_Some (d.(invitations) !! id) -> exists rid, response_of d rid id.
Definition guests_answered (d : Database) : Prop :=
  forall g row, d.(guests) !! g = Some row -> guest_answered d g row.(g_invitation_id).
Definition Complete (d : Database) : Prop := has_responses d /\ guests_answered d.

(** ** What later statements keep *)

Lemma response_of_evolves d d' rid id : evolves d d' -> response_of d rid id -> response_of d' rid id.
Proof.
  intros Hev (r & Hr & <-). destruct (ev_responses _ _ Hev _ _ Hr) as (r' & Hr' & Hi & _).
  exists r'. by rewrite Hi.
Qed.
Lemma guest_answered_evolves d d' g id : evolves d d' -> guest_answered d g id -> guest_answered d' g id.
Proof.
  intros Hev (k & x & Hk & <- & Hr).
  destruct (ev_guest_responses _ _ Hev _ _ Hk) as (x' & Hk' & Hrid & Hgid).
  exists k, x'. split_and!; [done..|]. rewrite <- Hrid. eauto using response_of_evolves.
Qed.

(** No invitation and no guest is new. *)
Record no_new (d d' : Database) : Prop := {
  nn_inv : from_old (fun _ _ => True) d.(invitations) d'.(invitations);
  nn_guests : from_old (fun g g' => g.(g_invitation_id) = g'.(g_invitation_id)) d.(guests) d'.(guests) }.
#[global] Instance True_preorder {R : Type} : PreOrder (fun _ _ : R => True).
Proof. by split. Qed.
#[global] Instance from_old_preorder {R} (P : R -> R -> Prop) `{!PreOrder P} : PreOrder (from_old P).
Proof.
  split.
  - intros t k r H. by exists r.
  - intros t1 t2 t3 H12 H23 k r3 H3. destruct (H23 _ _ H3) as (r2 & H2 & P2).
    destruct (H12 _ _ H2) as (r1 & H1 & P1). exists r1. split; [done|]. by trans r2.
Qed.
#[global] Instance no_new_preorder : PreOrder no_new.
Proof. split; [by intros d; split|]. intros d1 d2 d3 [] []. by split; etrans. Qed.

Lemma Complete_quiet d d' : evolves d d' -> no_new d d' -> keeps Complete d d'.
Proof.
  intros Hev [Hi Hg] [HR HG]. split.
  - intros id [r' Hr']. destruct (Hi _ _ Hr') as (r & Hr & _).
    destruct (HR id) as [rid Hrid]; [by eexists|]. exists rid. eauto using response_of_evolves.
  - intros g row' Hrow'. destruct (Hg _ _ Hrow') as (row & Hrow & <-).
    eapply guest_answered_evolves; eauto.
Qed.

(** An operation that evolves the database and adds no household or guest. *)
Lemma respects_Complete {A} (m : M A) :
  respects evolves m -> respects no_new m -> respects (keeps Complete) m.
Proof. intros He Hn w. by apply Complete_quiet. Qed.

(** Statements on the other tables add nothing. *)
Ltac quiet := split; simpl; reflexivity.

Section complete.
Context `{E : Env}.

Lemma insert_session_no_new id r d d' : insert_session id r d = Some d' -> no_new d d'.
Proof. unfold insert_session. intros H. insert_cases H. quiet. Qed.
Lemma insert_recovery_token_no_new id r d d' : insert_recovery_token id r d = Some d' -> no_new d d'.
Proof. unfold insert_recovery_token. intros H. insert_cases H. quiet. Qed.
Lemma insert_recovery_attempt_no_new id r d d' : insert_recovery_attempt id r d = Some d' -> no_new d d'.
Proof. unfold insert_recovery_attempt. intros H. insert_cases H. quiet. Qed.
Lemma insert_message_no_new id r d d' : insert_message id r d = Some d' -> no_new d d'.
Proof. unfold insert_message. intros H. insert_cases H. quiet. Qed.
Lemma insert_inv_answer_no_new id r d d' : insert_inv_answer id r d = Some d' -> no_new d d'.
Proof. unfold insert_inv_answer. intros H. insert_cases H. quiet. Qed.
Lemma insert_guest_answer_no_new id r d d' : insert_guest_answer id r d = Some d' -> no_new d d'.
Proof. unfold insert_guest_answer. intros H. insert_cases H. quiet. Qed.
Lemma upsert_guest_response_no_new id r d d' : upsert_guest_response id r d = Some d' -> no_new d d'.
Proof.
  unfold upsert_guest_response, insert_guest_response.
  destruct (select_row _ _) as [[k old]|]; intros H; insert_cases H; quiet.
Qed.
Lemma invitations_update_no_new id Q f d :
  no_new d (set_invitations (fun _ => (update_id id Q f d.(invitations)).1) d).
Proof. split; simpl; [|reflexivity]. by apply from_old_update_id; [apply _|]. Qed.
Lemma update_live_invitation_no_new ctx id e f : respects no_new (update_live_invitation ctx id e f).
Proof.
  unfold update_live_invitation. respect1. intros H.
  destruct (update_id id _ f (invitations d)) as [t n] eqn:Eu. injection H as <- <-.
  change t with (t, n).1. rewrite <- Eu. apply invitations_update_no_new.
Qed.
Lemma update_metadata_no_new i e req now : respects no_new (update_metadata i e req now).
Proof.
  unfold update_metadata. respect1. intros H.
  destruct (update_id i _ _ (invitations d)) as [t n] eqn:Eu. revert H.
  destruct (_ || _); [|done]. intros [= <- <-]. change t with (t, n).1. rewrite <- Eu.
  apply invitations_update_no_new.
Qed.
Lemma revoke_sessions_no_new ctx id now : respects no_new (revoke_sessions ctx id now).
Proof. unfold revoke_sessions. respect1. intros [= <-]. quiet. Qed.
Lemma update_active_guest_no_new ctx g i o f :
  (forall r, r.(g_invitation_id) = (f r).(g_invitation_id)) ->
  respects no_new (update_active_guest ctx g i o f).
Proof.
  intros Hf. unfold update_active_guest. respect1. intros [= <-].
  split; simpl; [reflexivity|]. by apply from_old_update_id; [apply _|].
Qed.
Lemma advance_version_no_new i v now : respects no_new (advance_version i v now).
Proof. unfold advance_version. respect1. intros [= _ <-]. quiet. Qed.
Lemma replaceAnswers_no_new i gs req now : respects no_new (replaceAnswers i gs req now).
Proof.
  unfold replaceAnswers.
  respect; eauto using insert_inv_answer_no_new, insert_guest_answer_no_new; intros [= <-]; quiet.
Qed.
Lemma updateGuestAttendance_no_new r g a n : respects no_new (updateGuestAttendance r g a n).
Proof. unfold updateGuestAttendance. respect. apply upsert_guest_response_no_new. Qed.
Hint Resolve insert_session_no_new insert_recovery_token_no_new insert_recovery_attempt_no_new
  insert_message_no_new update_live_invitation_no_new update_metadata_no_new
  revoke_sessions_no_new update_active_guest_no_new advance_version_no_new
  replaceAnswers_no_new updateGuestAttendance_no_new : respects.

(** ** Operations that add nothing *)

Lemma Rotate_complete id e : respects (keeps Complete) (Rotate id e).
Proof. apply respects_Complete; [apply Rotate_evolves|]. unfold Rotate, FindByID. respect. Qed.
Lemma Revoke_complete id e reason : respects (keeps Complete) (Revoke id e reason).
Proof. apply respects_Complete; [apply Revoke_evolves|]. unfold Revoke. respect. Qed.
Lemma CreateSession_complete i h v e : respects (keeps Complete) (CreateSession i h v e).
Proof. apply respects_Complete; [apply CreateSession_evolves|]. unfold CreateSession. respect. Qed.
Lemma InvitationForSession_complete h : respects (keeps Complete) (InvitationForSession h).
Proof.
  apply respects_Complete; [apply InvitationForSession_evolves|].
  unfold InvitationForSession. respect. intros [= <-]. quiet.
Qed.
Lemma CreateMessage_complete m : respects (keeps Complete) (CreateMessage m).
Proof. apply respects_Complete; [apply CreateMessage_evolves|]. unfold CreateMessage. respect. Qed.
Lemma ConfigureOpen_complete c u : respects (keeps Complete) (ConfigureOpen c u).
Proof.
  apply respects_Complete; [apply ConfigureOpen_evolves|]. unfold ConfigureOpen. respect.
  unfold upsert_open. destruct (select_row _ _) as [[k old]|]; intros H; insert_cases H; quiet.
Qed.
Lemma RotateOpen_complete e : respects (keeps Complete) (RotateOpen e).
Proof.
  apply respects_Complete; [apply RotateOpen_evolves|].
  unfold RotateOpen, FindOpenByEvent. respect. intros [= _ <-]. quiet.
Qed.
Lemma within_budgets_no_new c l : respects no_new (within_budgets c l).
Proof. induction l as [|[P n] l IH]; simpl; respect. Qed.
Lemma AllowRecovery_complete e s d : respects (keeps Complete) (AllowRecovery e s d).
Proof.
  apply respects_Complete; [apply AllowRecovery_evolves|].
  unfold AllowRecovery, lock_recovery_budget. respect; [by intros [= <-]|].
  apply within_budgets_no_new.
Qed.
Lemma CreateRecoveryToken_complete i h d e : respects (keeps Complete) (CreateRecoveryToken i h d e).
Proof. apply respects_Complete; [apply CreateRecoveryToken_evolves|]. unfold CreateRecoveryToken. respect. Qed.
Lemma ConsumeRecovery_complete r s e :
  respects (keeps Complete) (ConsumeRecoveryAndCreateSession r s e).
Proof.
  apply respects_Complete; [apply ConsumeRecovery_evolves|].
  unfold ConsumeRecoveryAndCreateSession, consume_token, FindByID. respect. intros [= _ <-]. quiet.
Qed.

(** ** Operations that add guests *)

(** Complete, and [rid] is the response of [id]. *)
Definition complete_with (rid id : string) (d : Database) : Prop :=
  Complete d /\ response_of d rid id.

Lemma complete_with_quiet {A} rid id (m : M A) :
  respects evolves m -> respects no_new m -> respects (keeps (complete_with rid id)) m.
Proof.
  intros He Hn w [HC Hr]. split; [by apply (Complete_quiet _ _ (He w) (Hn w))|].
  by eapply response_of_evolves; [apply He|].
Qed.

Lemma insert_guest_new gid row d d1 d2 rid id :
  insert_guest gid row d = Some d1 -> row.(g_invitation_id) = id ->
  evolves d1 d2 -> no_new d1 d2 -> guest_answered d2 gid id ->
  complete_with rid id d -> complete_with rid id d2.
Proof.
  intros Hins Hid He [Hi Hg] Hga [[HR HG] Hr].
  assert (evolves d d2) as He2 by (etrans; [by eapply insert_guest_evolves|done]).
  unfold insert_guest in Hins. insert_cases Hins. simpl in *.
  split; [split|eauto using response_of_evolves].
  - intros id' [r' Hr']. destruct (Hi _ _ Hr') as (r0 & Hr0 & _).
    destruct (HR id') as [x Hx]; [by eexists|]. exists x. eauto using response_of_evolves.
  - intros g row' Hrow'. destruct (Hg _ _ Hrow') as (row0 & Hrow0 & <-).
    apply lookup_insert_Some in Hrow0 as [[<- <-]|[_ Hrow0]]; [by rewrite Hid|].
    eapply guest_answered_evolves; eauto.
Qed.

Lemma insert_guest_response_answered u rid gid a now d d' id :
  insert_guest_response u (guest_response_row rid gid a now) d = Some d' ->
  response_of d rid id -> guest_answered d' gid id.
Proof.
  intros H Hr. assert (evolves d d') by (by eapply insert_guest_response_evolves).
  unfold insert_guest_response in H. insert_cases H.
  exists u. simpl. rewrite lookup_insert_eq. eexists. split_and!; [done..|].
  eauto using response_of_evolves.
Qed.
Lemma insert_guest_response_no_new u r d d' : insert_guest_response u r d = Some d' -> no_new d d'.
Proof. unfold insert_guest_response. intros H. insert_cases H. quiet. Qed.

Lemma insert_guest_pair_complete what rid id now g name origin n :
  ok_respects (keeps (complete_with rid id)) (insert_guest_pair what rid id now g name origin n).
Proof.
  intros w [] w' H HC. unfold insert_guest_pair in H. run_ok.
  repeat match goal with Hdb : w_db _ = w_db _ |- _ => rewrite Hdb in * end.
  eapply insert_guest_new; eauto using insert_guest_response_evolves, insert_guest_response_no_new.
  eapply insert_guest_response_answered; [done|].
  eapply response_of_evolves; [by eapply insert_guest_evolves|]. apply HC.
Qed.

(** The new invitation gets its response before any guest is added. *)
Lemma insert_household_start id row rid now d d1 d2 :
  insert_invitation id row d = Some d1 -> insert_response rid (response_row id now) d1 = Some d2 ->
  Complete d -> complete_with rid id d2.
Proof.
  intros H1 H2 [HR HG].
  assert (evolves d d2) as He.
  { etrans; [by eapply insert_invitation_evolves|by eapply insert_response_evolves]. }
  unfold insert_invitation in H1. insert_cases H1.
  unfold insert_response in H2. insert_cases H2.
  assert (response_of (set_rsvp_responses <[rid:=response_row id now]>
                         (set_invitations <[id:=row]> d)) rid id) as Hr.
  { eexists. simpl. by rewrite lookup_insert_eq. }
  split; [split|done].
  - intros id' [r' Hr']. simpl in Hr'. apply lookup_insert_Some in Hr' as [[<- <-]|[_ Hr']]; [eauto|].
    destruct (HR id') as [x Hx]; [by eexists|]. exists x. eauto using response_of_evolves.
  - intros g row' Hrow'. simpl in Hrow'. eapply guest_answered_evolves; eauto.
Qed.

Lemma insert_household_complete what id row gs now :
  ok_respects (keeps Complete) (insert_household what id row gs now).
Proof.
  intros w a w' H HC. unfold insert_household in H.
  apply bind_ok in H as (? & w1 & H1 & H). apply exec_ok in H1 as [H1 _].
  apply bind_ok in H as (rid & w2 & H2 & H). apply new_uuid_ok in H2 as (_ & D2 & _).
  apply bind_ok in H as (? & w3 & H3 & H). apply exec_ok in H3 as [H3 _].
  apply bind_ok in H as (? & w4 & H4 & H). apply ret_ok in H as [_ ->]. rewrite D2 in H3.
  eapply (ok_respects_forM (keeps (complete_with rid id))) in H4;
    [|intros; apply insert_guest_pair_complete]. apply H4.
  by eapply insert_household_start.
Qed.
Hint Resolve insert_household_complete : respects.

Lemma Create_complete inv gs : respects (keeps Complete) (Create inv gs).
Proof. unfold Create. respect. Qed.
Lemma Import_complete records : respects (keeps Complete) (Import records).
Proof. unfold Import. respect. Qed.
Lemma insert_session_complete id r d d' : insert_session id r d = Some d' -> keeps Complete d d'.
Proof. eauto using Complete_quiet, insert_session_evolves, insert_session_no_new. Qed.
Hint Resolve insert_session_complete : respects.
Lemma EnrollOpen_complete c i gs h e : respects (keeps Complete) (EnrollOpen c i gs h e).
Proof. unfold EnrollOpen, check_capacity. respect. Qed.

(** ** The organizer's edit *)

Lemma edit_assigned_complete id rid now existing kept x :
  ok_respects (keeps (complete_with rid id)) (edit_assigned id rid now existing kept x).
Proof.
  destruct x as [index guest]. unfold edit_assigned. destruct (bool_decide _).
  - intros w a w' H HC.
    apply bind_ok in H as (g & w1 & H1 & H). apply new_uuid_ok in H1 as (_ & D1 & _).
    apply bind_ok in H as (? & w2 & H2 & H). apply exec_ok in H2 as [H2 _].
    apply bind_ok in H as (u & w3 & H3 & H). apply new_uuid_ok in H3 as (_ & D3 & _).
    apply bind_ok in H as (? & w4 & H4 & H). apply exec_ok in H4 as [H4 _].
    apply ret_ok in H as [_ <-]. rewrite D1 in H2. rewrite D3 in H4.
    eapply insert_guest_new; eauto using insert_guest_response_evolves, insert_guest_response_no_new.
    eapply insert_guest_response_answered; [done|].
    eapply response_of_evolves; [by eapply insert_guest_evolves|]. apply HC.
  - apply respects_ok, complete_with_quiet; [|respect].
    respect. eauto using update_active_guest_evolves, reorder_guest_le.
Qed.

Hint Resolve edit_assigned_complete : respects.

Lemma response_found d id k r : findResponse id d = Some (k, r) -> response_of d k id.
Proof.
  intros [Hk Hi]%select_row_Some. exists r. split; [done|]. by apply bool_decide_eq_true in Hi.
Qed.

Lemma UpdateInvitation_complete e i req : respects (keeps Complete) (Store_UpdateInvitation e i req).
Proof.
  unfold Store_UpdateInvitation. respect1. intros w a w' H HC. unfold update_body in H.
  apply bind_ok in H as (t & w1 & H1 & H). apply now_ok in H1 as (_ & D1 & _). cbv zeta in H.
  apply bind_ok in H as (n & w2 & H2 & H).
  assert (Complete (w_db w2)) as HC2.
  { eapply (respects_ok (keeps Complete)); [|exact H2|by rewrite D1].
    apply respects_Complete; [apply update_metadata_evolves|apply update_metadata_no_new]. }
  apply bind_ok in H as (? & w3 & H3 & H). apply require_ok in H3 as [_ <-].
  apply bind_ok in H as (row & w4 & H4 & H). apply query_ok in H4 as (-> & D4 & _).
  apply bind_ok in H as ([rid r] & w5 & H5 & H). apply of_option_ok in H5 as [H5 <-].
  assert (complete_with rid i (w_db w4)) as HC4.
  { rewrite D4. split; [done|]. by eapply response_found. }
  simpl in H. ok_keeps H (complete_with rid i) K; [|apply K, HC4].
  clear H HC4. repeat respect1;
    apply complete_with_quiet; eauto using update_active_guest_evolves, remove_guest_le with respects.
Qed.

(** ** The household's answer *)

Lemma upsert_answered u rid gid a now d d' id :
  upsert_guest_response u (guest_response_row rid gid a now) d = Some d' ->
  (forall k x, d.(guest_responses) !! k = Some x -> x.(gr_guest_id) <> gid) ->
  response_of d rid id -> guest_answered d' gid id.
Proof.
  unfold upsert_guest_response. intros H Hnone Hr.
  destruct (select_row _ _) as [[k old]|] eqn:Es; [|by eapply insert_guest_response_answered].
  apply select_row_Some in Es as [Hk Hg]. apply bool_decide_eq_true in Hg. by destruct (Hnone _ _ Hk).
Qed.

(** A new additional guest and its attendance. *)
Lemma additional_guest_complete ctx gid id name n rid a now w1 w2 w' :
  exec ctx (insert_guest gid (guest_row id name "additional" n now)) w1 = (Ok tt, w2) ->
  updateGuestAttendance rid gid a now w2 = (Ok tt, w') ->
  Integrity (w_db w1) -> complete_with rid id (w_db w1) -> complete_with rid id (w_db w').
Proof.
  intros [H1 _]%exec_ok H2 HI HC.
  assert (evolves (w_db w1) (w_db w2)) as He by (by eapply insert_guest_evolves).
  pose proof (updateGuestAttendance_no_new rid gid a now w2) as Hnn. rewrite H2 in Hnn.
  unfold updateGuestAttendance in H2.
  apply bind_ok in H2 as (u & w3 & H3 & H2). apply new_uuid_ok in H3 as (_ & D3 & _).
  apply exec_ok in H2 as [H2 _]. rewrite D3 in H2.
  eapply insert_guest_new; eauto using upsert_guest_response_evolves.
  eapply upsert_answered; [done| |eapply response_of_evolves; [done|apply HC]].
  unfold insert_guest in H1. insert_cases H1. rewrite <- H1. simpl. intros k x Hk Hx.
  destruct (in_gr_guest _ HI _ _ Hk) as [y Hy]. rewrite Hx in Hy.
  rewrite (has_false gid) in Hy by done. done.
Qed.

Lemma submit_additional_complete id rid now assigned additional st x :
  ok_respects (keeps (fun d => Integrity d /\ complete_with rid id d))
    (submit_additional id rid now assigned additional st x).
Proof.
  intros w st' w' H [HI HC].
  pose proof (submit_additional_integrity id rid now assigned additional st x w) as HI'.
  rewrite H in HI'. split; [by apply HI'|]. clear HI'.
  destruct x as [i input]. unfold submit_additional in H.
  do 3 (apply bind_ok in H as (? & ? & H1 & H); apply require_ok in H1 as [_ <-]).
  apply bind_ok in H as ([gid st1] & w1 & H1 & H).
  apply bind_ok in H as ([] & w2 & H2 & H). apply ret_ok in H as [_ <-].
  destruct (bool_decide (ag_ID input = "")).
  - unfold create_additional in H1. apply bind_ok in H1 as (? & w3 & H3 & H1).
    assert (w3 = w) as ->.
    { destruct (bool_decide _); [by apply ret_ok in H3 as [_ <-]|].
      apply bind_ok in H3 as (? & ? & H4 & H3). apply require_ok in H4 as [_ <-].
      by apply require_ok in H3 as [_ <-]. }
    apply bind_ok in H1 as (g & w4 & H4 & H1). apply new_uuid_ok in H4 as (_ & D4 & _).
    apply bind_ok in H1 as ([] & w5 & H5 & H1). apply ret_ok in H1 as [[= -> _] <-].
    rewrite <- D4 in HI, HC. by eapply additional_guest_complete.
  - assert (respects (keeps (complete_with rid id))
              (keep_additional id now (trim_space (ag_Name input)) additional st input)) as K1.
    { apply complete_with_quiet; unfold keep_additional; respect.
      eauto using update_active_guest_evolves, rename_guest_le. }
    assert (respects (keeps (complete_with rid id))
              (updateGuestAttendance rid gid (ag_Attendance input) now)) as K2.
    { apply complete_with_quiet; [|apply updateGuestAttendance_no_new].
      unfold updateGuestAttendance. respect. eauto using upsert_guest_response_evolves. }
    specialize (K1 w). specialize (K2 w1). rewrite H1 in K1. rewrite H2 in K2. by apply K2, K1.
Qed.

(** Sound: integrity and completeness together. *)
Definition Sound (d : Database) : Prop := Integrity d /\ Complete d.

Lemma respects_Sound {A} (m : M A) :
  respects (keeps Integrity) m -> respects (keeps Complete) m -> respects (keeps Sound) m.
Proof. intros H1 H2 w [HI HC]. split; [by apply H1|by apply H2]. Qed.

Lemma sound_with_quiet {A} rid id (m : M A) :
  respects (keeps Integrity) m -> respects evolves m -> respects no_new m ->
  respects (keeps (fun d => Integrity d /\ complete_with rid id d)) m.
Proof.
  intros HI He Hn w [H1 H2]. split; [by apply HI|]. by apply (complete_with_quiet _ _ _ He Hn).
Qed.
Lemma submit_assigned_no_new r n a u : respects no_new (submit_assigned r n a u).
Proof. unfold submit_assigned. respect. Qed.
Lemma remove_unkept_sound_with rid id now additional kept :
  respects (keeps (fun d => Integrity d /\ complete_with rid id d))
    (remove_unkept id now additional kept).
Proof.
  unfold remove_unkept. respect. apply sound_with_quiet; [..|respect].
  - eauto using update_active_guest_integrity.
  - eauto using update_active_guest_evolves, remove_guest_le.
Qed.
Hint Resolve submit_additional_complete remove_unkept_sound_with : respects.

Lemma SubmitResponse_sound i req : respects (keeps Sound) (SubmitResponse i req).
Proof.
  unfold SubmitResponse. respect1. intros w a w' H [HI HC]. unfold submit_body in H.
  apply bind_ok in H as (t & w1 & H1 & H). apply now_ok in H1 as (_ & D1 & _). cbv zeta in H.
  apply bind_ok in H as (? & w2 & H2 & H). apply query_ok in H2 as (_ & D2 & _).
  apply bind_ok in H as (? & ? & H3 & H). apply require_ok in H3 as [_ <-].
  apply bind_ok in H as (? & w3 & H3 & H). apply query_ok in H3 as (_ & D3 & _).
  apply bind_ok in H as (inv & ? & H4 & H). apply of_option_ok in H4 as [_ <-].
  apply bind_ok in H as (? & ? & H4 & H). apply require_ok in H4 as [_ <-].
  apply bind_ok in H as (n & w4 & H4 & H).
  assert (Sound (w_db w4)) as [HI4 HC4].
  { eapply (respects_ok (keeps Sound)); [|exact H4|by rewrite D3, D2, D1].
    apply respects_Sound; [apply advance_version_integrity|].
    apply respects_Complete; [apply advance_version_evolves|apply advance_version_no_new]. }
  apply bind_ok in H as (? & ? & H5 & H). apply require_ok in H5 as [_ <-].
  apply bind_ok in H as (row & w5 & H5 & H). apply query_ok in H5 as (-> & D5 & _).
  apply bind_ok in H as ([rid r] & ? & H6 & H). apply of_option_ok in H6 as [H6 <-].
  assert (complete_with rid i (w_db w5)) as HC5.
  { rewrite D5. split; [done|]. by eapply response_found. }
  rewrite <- D5 in HI4. simpl in H.
  ok_keeps H (fun d => Integrity d /\ complete_with rid i d) K.
  2: { destruct (K (conj HI4 HC5)) as [? [? _]]. by split. }
  clear H HC5. unfold loadActiveGuestsTx, loadQuestionsTx, scanGuests.
  repeat respect1; eauto with respects; apply sound_with_quiet;
    eauto using submit_assigned_integrity, submit_assigned_evolves, submit_assigned_no_new,
      replaceAnswers_integrity, replaceAnswers_evolves, replaceAnswers_no_new.
Qed.
End complete.
