(* ===== verification/InvCsv.v ===== *)
(** * CSV import (internal/invitation/csv.go)

    The preview of an uploaded file and the commit of a previewed list.  The
    loops over the maps of required columns and of e-mail addresses run in a
    fixed order; Go leaves it open. *)

From S2P Require Import Prelude.
From S2P Require Import GoStr.
From S2P Require Import GoCsv.
From S2P Require Import GoTime.
From S2P Require Import Schema.
From S2P Require Import Eff.
From S2P Require Import Capability.
From S2P Require Import InvModel.
From S2P Require Import InvStore.

Local Open Scope Z_scope.

Definition importColumns : list string :=
  ["household_key"; "household_label"; "contact_email"; "contact_phone";
   "preferred_delivery"; "additional_guest_allowance"; "guest_name"].
Definition requiredImportColumns : list string :=
  ["household_key"; "household_label"; "preferred_delivery";
   "additional_guest_allowance"; "guest_name"].

Definition emptyImportPreview : ImportPreview := MkPreview 0 0 [] [] [].
Definition preview_error (i : ImportIssue) : ImportPreview := MkPreview 0 0 [] [i] [].

(** An issue without row or field. *)
Definition issue (msg : string) : ImportIssue := MkIssue 0 "" msg.

Definition err_message (e : err) : string :=
  match e with EValidation m => m | EInternal m => m | _ => "" end.

Definition add_if (b : bool) (i : ImportIssue) : list ImportIssue := if b then [i] else [].

Section csv.
Context `{E : Env}.

(** ** Header *)

Definition header_step (st : gmap string nat * list ImportIssue) (ix : nat * string)
    : gmap string nat * list ImportIssue :=
  let '(indexes, errors) := st in
  let column := trim_space (to_lower ix.2) in
  if bool_decide (column = "") then (indexes, errors ++ [issue "CSV contains a blank header"])
  else if negb (one_of column importColumns)
  then (indexes, errors ++ [MkIssue 0 column "unsupported CSV column"])
  else match indexes !! column with
       | Some _ => (indexes, errors ++ [MkIssue 0 column "duplicate CSV header"])
       | None => (<[column := ix.1]> indexes, errors)
       end.

Definition validateImportHeader (header : list string) : gmap string nat * list ImportIssue :=
  let '(indexes, errors) := fold_left header_step (imap pair header) (∅, []) in
  (indexes, errors ++ concat ((fun c => add_if (bool_decide (indexes !! c = None))
                                 (MkIssue 0 c "required CSV column is missing"))
                              <$> requiredImportColumns)).

(** ** Rows *)

Definition validateImportRow (row : Z) (key label email phone method allowanceRaw guestName : string)
    : list ImportIssue :=
  let check (field v : string) (limit : Z) (missing long : string) :=
    if bool_decide (v = "") then [MkIssue row field missing]
    else add_if (limit <? len v) (MkIssue row field long) in
  check "household_key" key 100 "household key is required"
    "household key must be 100 characters or fewer"
  ++ check "household_label" label 200 "household label is required"
       "household label must be 200 characters or fewer"
  ++ check "guest_name" guestName 200 "guest name is required"
       "guest name must be 200 characters or fewer"
  ++ add_if (match atoi allowanceRaw with
             | None => true | Some a => (a <? 0) || (50 <? a) end)
       (MkIssue row "additional_guest_allowance"
          "additional guest allowance must be an integer between 0 and 50")
  ++ match validateContact (if bool_decide (email = "") then None else Some email)
             (if bool_decide (phone = "") then None else Some phone) method with
     | Ok _ => []
     | Err e => [MkIssue row "preferred_delivery" (err_message e)]
     end.

Definition householdConflicts (first next : ImportHousehold) : list string :=
  let differ (b : bool) (f : string) := if b then [] else [f] in
  differ (bool_decide (first.(ih_Label) = next.(ih_Label))) "household_label"
  ++ differ (bool_decide (stringValue first.(ih_ContactEmail) = stringValue next.(ih_ContactEmail)))
       "contact_email"
  ++ differ (bool_decide (stringValue first.(ih_ContactPhone) = stringValue next.(ih_ContactPhone)))
       "contact_phone"
  ++ differ (bool_decide (first.(ih_Method) = next.(ih_Method))) "preferred_delivery"
  ++ differ (first.(ih_Allowance) =? next.(ih_Allowance)) "additional_guest_allowance".

(** The variables of the row loop: the preview's errors, [byKey] with the row
    each household starts on, [order], [emailKeys]. *)
Record Rows := MkRows {
  ps_errors : list ImportIssue;
  ps_byKey : gmap string (ImportHousehold * Z);
  ps_order : list string;
  ps_emails : gmap string (gset string) }.

Definition add_errors (st : Rows) (l : list ImportIssue) : Rows :=
  MkRows (st.(ps_errors) ++ l) st.(ps_byKey) st.(ps_order) st.(ps_emails).

(** The closure [value]. *)
Definition column_value (indexes : gmap string nat) (record : list string) (column : string)
    : string :=
  match indexes !! column with
  | None => ""
  | Some i => trim_space (default "" (record !! i))
  end.

Definition add_guest_name (h : ImportHousehold) (name : string) : ImportHousehold :=
  MkImportHousehold h.(ih_Key) h.(ih_Label) h.(ih_ContactEmail) h.(ih_ContactPhone)
    h.(ih_Method) h.(ih_Allowance) (h.(ih_GuestNames) ++ [name]).

Definition note_email (st : Rows) (email : option string) (key : string) : Rows :=
  match email with
  | None => st
  | Some e => MkRows st.(ps_errors) st.(ps_byKey) st.(ps_order)
                (<[e := {[key]} ∪ default ∅ (st.(ps_emails) !! e)]> st.(ps_emails))
  end.

(** A valid row joins the household of its key. *)
Definition merge_row (rowNumber : Z) (st : Rows) (h : ImportHousehold) (guestName : string) : Rows :=
  let key := h.(ih_Key) in
  match st.(ps_byKey) !! key with
  | None =>
      if MaxImportHouseholds <=? Z.of_nat (size st.(ps_byKey))
      then add_errors st [MkIssue rowNumber "household_key"
             ("CSV exceeds the " +:+ itoa MaxImportHouseholds +:+ " household limit")]
      else note_email (MkRows st.(ps_errors) (<[key := (h, rowNumber)]> st.(ps_byKey))
                         (st.(ps_order) ++ [key]) st.(ps_emails)) h.(ih_ContactEmail) key
  | Some (acc, firstRow) =>
      match householdConflicts acc h with
      | [] =>
          if MaxHouseholdGuests <=? Z.of_nat (length acc.(ih_GuestNames))
          then add_errors st [MkIssue rowNumber "guest_name"
                 ("household " +:+ go_quote key +:+ " exceeds the " +:+ itoa MaxHouseholdGuests
                    +:+ " assigned guest limit")]
          else note_email
                 (MkRows st.(ps_errors)
                    (<[key := (add_guest_name acc guestName, firstRow)]> st.(ps_byKey))
                    st.(ps_order) st.(ps_emails)) h.(ih_ContactEmail) key
      | conflicts =>
          add_errors st ((fun f => MkIssue rowNumber f
            ("conflicts with household " +:+ go_quote key +:+ " first defined on row "
               +:+ itoa firstRow)) <$> conflicts)
      end
  end.

Definition import_row (indexes : gmap string nat) (rowNumber : Z) (st : Rows)
    (record : list string) : Rows :=
  let value := column_value indexes record in
  let key := value "household_key" in
  let label := value "household_label" in
  let emailRaw := value "contact_email" in
  let phoneRaw := value "contact_phone" in
  let method := to_lower (value "preferred_delivery") in
  let allowanceRaw := value "additional_guest_allowance" in
  let guestName := value "guest_name" in
  match validateImportRow rowNumber key label emailRaw phoneRaw method allowanceRaw guestName with
  | [] =>
      let h := MkImportHousehold key label
                 (if bool_decide (emailRaw = "") then None else Some (normalizeEmail emailRaw))
                 (if bool_decide (phoneRaw = "") then None else Some (normalizePhone phoneRaw))
                 method (default 0 (atoi allowanceRaw)) [guestName] in
      merge_row rowNumber st h guestName
  | rowErrors => add_errors st rowErrors
  end.

(** The loop of [parser.Read]; [rowNumber] is the number of the next row. *)
Fixpoint import_rows (columns : nat) (indexes : gmap string nat) (rowNumber : Z) (st : Rows)
    (items : list csv_item) : Rows :=
  match items with
  | [] => st
  | CsvError msg :: _ => add_errors st [MkIssue rowNumber "" ("malformed CSV: " +:+ msg)]
  | CsvRecord record :: rest =>
      if MaxImportRows <? rowNumber - 1
      then add_errors st [issue ("CSV exceeds the " +:+ itoa MaxImportRows +:+ " data row limit")]
      else
        let st' :=
          if negb (bool_decide (length record = columns))
          then add_errors st [MkIssue rowNumber ""
                 ("expected " +:+ itoa (Z.of_nat columns) +:+ " columns, found "
                    +:+ itoa (Z.of_nat (length record)))]
          else import_row indexes rowNumber st record in
        import_rows columns indexes (rowNumber + 1) st' rest
  end.

Definition email_warnings (emails : gmap string (gset string)) : list ImportIssue :=
  concat ((fun '(email, keys) => add_if (1 <? Z.of_nat (size (keys : gset string)))
    (MkIssue 0 "contact_email" (email +:+ " is used by " +:+ itoa (Z.of_nat (size keys))
       +:+ " households; they will remain separate invitations"))) <$> map_to_list emails).

Definition rows_households (st : Rows) : list ImportHousehold :=
  omap (fun k => fst <$> st.(ps_byKey) !! k) st.(ps_order).

Definition preview_of_rows (st : Rows) : ImportPreview :=
  let households := rows_households st in
  MkPreview (Z.of_nat (length households))
    (fold_left (fun n h => n + Z.of_nat (length h.(ih_GuestNames))) households 0)
    households st.(ps_errors) (email_warnings st.(ps_emails)).

Definition utf8_bom : bytes := [byte_of 239; byte_of 187; byte_of 191].
Definition strip_bom (data : bytes) : bytes :=
  if bytes_prefix utf8_bom data then drop 3 data else data.

Definition preview_items (items : list csv_item) : ImportPreview :=
  match items with
  | [] => preview_error (issue "CSV is empty")
  | CsvError msg :: _ => preview_error (issue ("malformed CSV header: " +:+ msg))
  | CsvRecord header :: rest =>
      let '(indexes, errors) := validateImportHeader header in
      match errors with
      | [] => preview_of_rows (import_rows (length header) indexes 2 (MkRows [] ∅ [] ∅) rest)
      | _ => MkPreview 0 0 [] errors []
      end
  end.

(** [reader] is what the upload yields, [None] an error of the reader. *)
Definition PreviewImportCSV (reader : option string) : res ImportPreview :=
  match reader with
  | None => Err (EInternal "read invitation import")
  | Some content =>
      let data := take (Z.to_nat (MaxImportBytes + 1)) (to_bytes content) in
      if MaxImportBytes <? Z.of_nat (length data)
      then Ok (preview_error (issue ("CSV file exceeds the " +:+ itoa MaxImportBytes +:+ " byte limit")))
      else
        let data := strip_bom data in
        if negb (utf8_valid data) then Ok (preview_error (issue "CSV must be valid UTF-8"))
        else Ok (preview_items (csv_items (of_bytes data)))
  end.

(** ** Commit *)

(** The loop over one household's guest names. *)
Fixpoint clean_names (household index : Z) (names : list string) : res (list string) :=
  match names with
  | [] => Ok []
  | raw :: rest =>
      let name := trim_space raw in
      if bool_decide (name = "") || (200 <? len name)
      then Err (EValidation ("invalid assigned guest name at household " +:+ itoa (household + 1)
                               +:+ " guest " +:+ itoa (index + 1)))
      else rest' <-r clean_names household (index + 1) rest ;; Ok (name :: rest')
  end.

Definition validate_household (index : Z) (seen : gset string) (raw : ImportHousehold)
    : res ImportHousehold :=
  let key := trim_space raw.(ih_Key) in
  let label := trim_space raw.(ih_Label) in
  let delivery := to_lower (trim_space raw.(ih_Method)) in
  let names := raw.(ih_GuestNames) in
  let at_household (m : string) := Err (EValidation (m +:+ " at household " +:+ itoa (index + 1))) in
  if bool_decide (key ∈ seen) then at_household "duplicate household key"
  else if bool_decide (key = "") || (100 <? len key) then at_household "invalid household key"
  else if bool_decide (label = "") || (200 <? len label) then at_household "invalid household label"
  else if (raw.(ih_Allowance) <? 0) || (50 <? raw.(ih_Allowance))
  then at_household "invalid additional guest allowance"
  else if (Z.of_nat (length names) =? 0) || (MaxHouseholdGuests <? Z.of_nat (length names))
  then Err (EValidation ("household " +:+ itoa (index + 1) +:+ " must contain between 1 and "
                           +:+ itoa MaxHouseholdGuests +:+ " assigned guests"))
  else match validateContact raw.(ih_ContactEmail) raw.(ih_ContactPhone) delivery with
       | Err e => Err (EValidation ("household " +:+ itoa (index + 1) +:+ ": " +:+ err_message e))
       | Ok (email, phone, method) =>
           names' <-r clean_names index 0 names ;;
           Ok (MkImportHousehold key label email phone method raw.(ih_Allowance) names')
       end.

Fixpoint validate_households (index totalGuests : Z) (seen : gset string)
    (l : list ImportHousehold) : res (list ImportHousehold) :=
  match l with
  | [] => Ok []
  | raw :: rest =>
      h <-r validate_household index seen raw ;;
      let total := totalGuests + Z.of_nat (length h.(ih_GuestNames)) in
      if MaxImportRows <? total
      then Err (EValidation ("import exceeds the " +:+ itoa MaxImportRows +:+ " assigned guest limit"))
      else rest' <-r validate_households (index + 1) total ({[h.(ih_Key)]} ∪ seen) rest ;;
           Ok (h :: rest')
  end.

Definition validateImportCommit (households : list ImportHousehold) : res (list ImportHousehold) :=
  if Z.of_nat (length households) =? 0
  then Err (EValidation "at least one household is required")
  else if MaxImportHouseholds <? Z.of_nat (length households)
  then Err (EValidation ("import exceeds the " +:+ itoa MaxImportHouseholds +:+ " household limit"))
  else validate_households 0 0 ∅ households.

(** [&Guest{ID: uuid, Name: name, Origin: GuestOriginAssigned, SortOrder: index}]. *)
Definition new_assigned_guest (ix : nat * string) : M Guest :=
  id <- new_uuid ;;
  ret (MkGuest id "" ix.2 GuestOriginAssigned (Z.of_nat ix.1) "" None zero_time zero_time).

Definition import_record (eventID creatorUserID : string) (input : ImportHousehold)
    : M ImportRecord :=
  accessID <- randomToken 18 ;;
  id <- new_uuid ;;
  gs <- mapM new_assigned_guest (imap pair input.(ih_GuestNames)) ;;
  ret (MkRecord (MkInvitation id eventID input.(ih_Label) input.(ih_ContactEmail)
                   input.(ih_ContactPhone) input.(ih_Method) input.(ih_Allowance) SourcePrivate
                   None accessID 1 (Some creatorUserID) None None zero_time zero_time) gs).

Definition CommitImport (eventID creatorUserID : string) (households : list ImportHousehold)
    : M ImportCommitResult :=
  validated <- of_res (validateImportCommit households) ;;
  records <- mapM (import_record eventID creatorUserID) validated ;;
  Import records ;;;
  ret (MkCommitResult (Z.of_nat (length validated))
         (fold_left (fun n r => n + Z.of_nat (length r.(rec_Guests))) records 0)
         ((fun r => r.(rec_Invitation).(ID)) <$> records)).
End csv.
