(* ===== verification/InvExport.v ===== *)
(** * CSV export (internal/invitation/export.go)

    The exported table, that no cell of it can start a spreadsheet formula, and that
    a CSV reader gets the cells back. *)

From S2P Require Import Prelude.
From S2P Require Import GoStr.
From S2P Require Import GoCsv.
From S2P Require Import GoTime.
From S2P Require Import Schema.
From S2P Require Import Eff.
From S2P Require Import Respect.
From S2P Require Import Demo.
From S2P Require Import InvModel.
From S2P Require Import InvStore.
From S2P Require Import InvResponse.

Local Open Scope Z_scope.

Definition exportBaseColumns : list string :=
  ["invitation_id"; "household_label"; "contact_email"; "contact_phone"; "preferred_delivery";
   "invitation_source"; "additional_guest_allowance"; "guest_id"; "guest_display_name";
   "guest_origin"; "guest_attendance"; "response_state"; "first_submitted_at";
   "last_submitted_at"].

(** [strings.TrimLeft(value, " \t\r\n")]. *)
Definition blank_cut : bytes := [byte_of 32; byte_of 9; CR; LF].

Definition formula_byte (c : ascii) : bool :=
  bool_decide (c = "="%char) || bool_decide (c = "+"%char) || bool_decide (c = "-"%char)
  || bool_decide (c = "@"%char).

Definition defangCSVCell (value : string) : string :=
  match to_bytes (trim_left_set value blank_cut) with
  | [] => value
  | c :: _ => if formula_byte c then "'" +:+ value else value
  end.

Definition defangCSVRecord (record : list string) : list string := defangCSVCell <$> record.

Definition exportQuestionColumn (q : Question) : string :=
  (if bool_decide (q.(question_Scope) = QuestionScopeGuest)
   then "guest_answer" else "invitation_answer")
  +:+ ":" +:+ q.(question_Label) +:+ " [" +:+ q.(question_ID) +:+ "]".

(** The order of [sort.SliceStable]. *)
Definition export_question_le : Question -> Question -> bool :=
  lex_int question_SortOrder (fun a b => text_le a.(question_ID) b.(question_ID)).

Section export.
Context `{E : Env}.

Definition formatExportAnswer (q : Question) (value : string) : string :=
  if negb (bool_decide (q.(question_Type) = "checkbox")) || bool_decide (value = "") then value
  else match json_strings value with
       | None => value
       | Some selected => join selected " | "
       end.

(** A nil response panics. *)
Definition exportBaseRecord (h : Household) (g : Guest) : res (list string) :=
  match h.(h_Response) with
  | None => Err (EInternal "nil pointer dereference")
  | Some response =>
      let inv := h.(h_Invitation) in
      let '(state, firstSubmitted, lastSubmitted) :=
        match response.(resp_SubmittedAt) with
        | None => ("no_submitted_response", "", "")
        | Some t => ("submitted", format_nano t, format_nano response.(resp_UpdatedAt))
        end in
      Ok [inv.(ID); inv.(Label); stringValue inv.(ContactEmail); stringValue inv.(ContactPhone);
          inv.(PreferredDeliveryMethod); inv.(Source); itoa inv.(AdditionalGuestAllowance);
          g.(guest_ID); g.(guest_Name); g.(guest_Origin); g.(guest_Attendance);
          state; firstSubmitted; lastSubmitted]
  end.

(** The maps of a household's answers; a later answer replaces an earlier one. *)
Definition invitation_answer_map (h : Household) : gmap string string :=
  fold_left (fun m a => <[a.(answer_QuestionID) := a.(answer_Answer)]> m)
    h.(h_InvitationAnswers) ∅.
Definition guest_answer_map (h : Household) : gmap string (gmap string string) :=
  fold_left (fun m a => <[a.(ganswer_GuestID) :=
      <[a.(ganswer_QuestionID) := a.(ganswer_Answer)]> (answers_at m a.(ganswer_GuestID))]> m)
    h.(h_GuestAnswers) ∅.

Definition export_record (questions : list Question) (h : Household) (g : Guest)
    : res (list string) :=
  base <-r exportBaseRecord h g ;;
  Ok (base ++ ((fun q => formatExportAnswer q
        (if bool_decide (q.(question_Scope) = QuestionScopeInvitation)
         then answer_at (invitation_answer_map h) q.(question_ID)
         else answer_at (answers_at (guest_answer_map h) g.(guest_ID)) q.(question_ID)))
      <$> questions)).

Definition export_header (questions : list Question) : list string :=
  exportBaseColumns ++ (exportQuestionColumn <$> questions).

Definition ExportEventCSV (eventID : string) : M string :=
  households <- ListByEvent eventID ;;
  qs <- listQuestions eventID ;;
  let questions := order_by export_question_le qs in
  records <- mapM (fun h => mapM (fun g => of_res (export_record questions h g)) h.(h_Guests))
               households ;;
  ret (of_bytes (csv_write_all (defangCSVRecord <$> (export_header questions :: concat records)))).
End export.

(** ** CSV export: a safe table that reads back

    Facts about internal/invitation/export.go: the shape of the exported table,
    that no cell can start a spreadsheet formula, and that a CSV reader gets the
    cells back. *)

(** The first byte a spreadsheet looks at starts no formula. *)
Definition cell_safe (s : string) : Prop :=
  forall c t, to_bytes (trim_left_set s blank_cut) = c :: t -> formula_byte c = false.

(** The cell shows the value, behind an apostrophe or not. *)
Definition shows (value cell : string) : Prop := cell = value \/ cell = "'" +:+ value.

Lemma trim_left_set_quote s : trim_left_set ("'" +:+ s) blank_cut = "'" +:+ s.
Proof.
  unfold trim_left_set. rewrite to_bytes_app, trim_left_fix by (done || by repeat constructor).
  by rewrite <- to_bytes_app, of_to_bytes.
Qed.

Lemma defang_safe s : cell_safe (defangCSVCell s).
Proof.
  unfold defangCSVCell. destruct (to_bytes (trim_left_set s blank_cut)) as [|c t] eqn:H.
  - intros c t. by rewrite H.
  - destruct (formula_byte c) eqn:Hc; intros d u Hd; [|rewrite H in Hd; by simplify_eq].
    rewrite trim_left_set_quote, to_bytes_app in Hd. simpl in Hd. by injection Hd as <- _.
Qed.
Lemma defang_shows s : shows s (defangCSVCell s).
Proof. unfold defangCSVCell, shows. repeat case_match; auto. Qed.

Section export_facts.
Context `{E : Env}.

Lemma export_record_length questions h g r :
  export_record questions h g = Ok r -> length r = (14 + length questions)%nat.
Proof.
  unfold export_record, exportBaseRecord. destruct (h_Response h) as [resp|]; simpl; [|done].
  destruct (resp_SubmittedAt resp); simpl; intros [= <-]; simpl; by rewrite length_fmap.
Qed.

Lemma export_records_ok questions households w rss w' :
  mapM (fun h => mapM (fun g => of_res (export_record questions h g)) h.(h_Guests)) households w
  = (Ok rss, w') ->
  Forall2 (fun hg r => export_record questions hg.1 hg.2 = Ok r)
    (households ≫= (fun h => pair h <$> h.(h_Guests))) (concat rss).
Proof.
  intros H%mapM_ok. induction H as [|h rs hs rss (w1 & w2 & Hh) _ IH]; [constructor|].
  cbn [concat]. rewrite bind_cons. apply Forall2_app; [|done].
  apply Forall2_fmap_l. apply mapM_ok in Hh. eapply Forall2_impl; [exact Hh|].
  intros g r (? & ? & Hr). simpl. by apply of_res_ok in Hr as [? _].
Qed.

Lemma ExportEventCSV_ok eventID w text w' :
  ExportEventCSV eventID w = (Ok text, w') ->
  exists households qs records w1 w2,
    ListByEvent eventID w = (Ok households, w1) /\ listQuestions eventID w1 = (Ok qs, w2) /\
    let questions := order_by export_question_le qs in
    Forall2 (fun hg r => export_record questions hg.1 hg.2 = Ok r)
      (households ≫= (fun h => pair h <$> h.(h_Guests))) records /\
    text = of_bytes (csv_write_all (defangCSVRecord <$> (export_header questions :: records))).
Proof.
  unfold ExportEventCSV. intros H.
  apply bind_ok in H as (hs & w1 & Hl & H). apply bind_ok in H as (qs & w2 & Hq & H). cbv zeta in H.
  apply bind_ok in H as (rss & w3 & Hm & H). apply ret_ok in H as [<- <-].
  apply export_records_ok in Hm. exists hs, qs, (concat rss), w1, w2. done.
Qed.

(** [C13] An export is a table with one header and one row per guest
    of each listed household, in that order, every row with the fourteen base
    columns and one column per question; every cell shows its value, and none
    starts a spreadsheet formula, whatever guests typed; and a CSV reader gets
    exactly these cells back when no value holds a carriage return. *)
Theorem export_table eventID w text w' :
  ExportEventCSV eventID w = (Ok text, w') ->
  exists households questions records cells w1,
    ListByEvent eventID w = (Ok households, w1) /\
    Forall2 (fun hg r => export_record questions hg.1 hg.2 = Ok r)
      (households ≫= (fun h => pair h <$> h.(h_Guests))) records /\
    Forall2 (Forall2 shows) (export_header questions :: records) cells /\
    Forall (fun r => length r = (14 + length questions)%nat) cells /\
    Forall (Forall cell_safe) cells /\
    text = of_bytes (csv_write_all cells) /\
    (Forall (Forall (fun f => no_cr (to_bytes f))) cells ->
     csv_items text = CsvRecord <$> cells).
Proof.
  intros (hs & qs & records & w1 & w2 & Hl & _ & Hr & ->)%ExportEventCSV_ok.
  set (questions := order_by export_question_le qs) in *.
  set (cells := defangCSVRecord <$> (export_header questions :: records)).
  assert (Forall (fun r => length r = (14 + length questions)%nat) cells) as Hlen.
  { apply Forall_fmap, Forall_forall. intros r Hin. simpl. unfold defangCSVRecord.
    rewrite length_fmap. apply elem_of_cons in Hin as [->|Hin].
    - unfold export_header. by rewrite length_app, length_fmap.
    - destruct (Forall2_elem_r _ _ _ _ Hr Hin) as ([h g] & _ & Hx). by eapply export_record_length. }
  exists hs, questions, records, cells, w1. split_and!; try done.
  - apply Forall2_fmap_r, Forall_Forall2_diag, Forall_true. intros r.
    apply Forall2_fmap_r, Forall_Forall2_diag, Forall_true. intros s. apply defang_shows.
  - apply Forall_fmap, Forall_true. intros r. apply Forall_fmap, Forall_true. intros s.
    apply defang_safe.
  - intros Hcr. apply csv_roundtrip. rewrite Forall_forall in Hlen, Hcr |- *.
    intros r Hin. split; [rewrite (Hlen r Hin); lia|by apply Hcr].
Qed.
End export_facts.

Lemma export_table_witness :
  exists text w' households questions records cells w1,
    ExportEventCSV (E:=demo_env) "ev" demo_world = (Ok text, w') /\
    ListByEvent (E:=demo_env) "ev" demo_world = (Ok households, w1) /\
    Forall2 (Forall2 shows) (export_header questions :: records) cells /\
    Forall (Forall cell_safe) cells.
Proof.
  destruct (ExportEventCSV (E:=demo_env) "ev" demo_world) as [[text|e] w'] eqn:H;
    [|vm_compute in H; discriminate H].
  destruct (export_table (E:=demo_env) "ev" demo_world text w' H)
    as (hs & qs & rs & cells & w1 & H1 & _ & H3 & _ & H5 & _).
  exists text, w', hs, qs, rs, cells, w1. auto.
Defined.
