(* ===== verification/InvService.v ===== *)
(** * The invitation service (internal/invitation/service.go)

    The operations the HTTP handlers call.  The e-mail and SMS senders are
    callbacks that the program installs; here they are fields of [Service], any
    effect of the monad. *)

From S2P Require Import Prelude.
From S2P Require Import GoStr.
From S2P Require Import GoCsv.
From S2P Require Import GoTime.
From S2P Require Import Schema.
From S2P Require Import Eff.
From S2P Require Import Capability.
From S2P Require Import InvModel.
From S2P Require Import InvStore.
From S2P Require Import InvResponse.
From S2P Require Import InvOpen.
From S2P Require Import InvRecovery.
From S2P Require Import InvCsv.

Local Open Scope Z_scope.

(** eventID, invitationID, to, subject, htmlBody, plainBody *)
Definition EmailSender : Type := string -> string -> string -> string -> string -> string -> M ().
(** eventID, invitationID, to, body *)
Definition SMSSender : Type := string -> string -> string -> string -> M ().

Record Service := MkService {
  signer : CapabilitySigner; baseURL : string; sessionExpiry : Z; recoveryExpiry : Z;
  sendEmail : option EmailSender; sendSMS : option SMSSender; smsSenderName : string }.

Definition NewService (secretKey baseURL : string) (sessionExpiry recoveryExpiry : Z) : res Service :=
  s <-r NewCapabilitySigner secretKey ;;
  if sessionExpiry <=? 0 then Err (EInternal "invitation session expiry must be positive")
  else if recoveryExpiry <=? 0 then Err (EInternal "invitation recovery expiry must be positive")
  else Ok (MkService s (trim_right_set baseURL ["/"%char]) sessionExpiry recoveryExpiry None None "").

Definition SetEmailSender (sender : EmailSender) (s : Service) : Service :=
  MkService s.(signer) s.(baseURL) s.(sessionExpiry) s.(recoveryExpiry) (Some sender)
    s.(sendSMS) s.(smsSenderName).
Definition SetSMSSender (sender : SMSSender) (s : Service) : Service :=
  MkService s.(signer) s.(baseURL) s.(sessionExpiry) s.(recoveryExpiry) s.(sendEmail)
    (Some sender) s.(smsSenderName).
Definition SetSMSSenderName (name : string) (s : Service) : Service :=
  MkService s.(signer) s.(baseURL) s.(sessionExpiry) s.(recoveryExpiry) s.(sendEmail)
    s.(sendSMS) (trim_space name).

(** A nil pointer the code would dereference. *)
Definition deref {A} (o : option A) : M A := of_option (EInternal "nil pointer dereference") o.

Section service.
Context `{E : Env} (s : Service).

Definition privateAccessURL (inv : Invitation) : string :=
  s.(baseURL) +:+ "/invitation/accept#" +:+ Private s.(signer) inv.(AccessID) inv.(TokenVersion).
Definition openAccessURL (config : OpenEnrollmentConfig) : string :=
  s.(baseURL) +:+ "/enroll#" +:+ Open s.(signer) config.(oc_AccessID) config.(oc_TokenVersion).

(** ** Delivery *)

(** [templates.RenderHouseholdInvitation]: the HTML is the template's, the plain
    text is built by the code. *)
Definition invitation_plain_text (eventTitle eventDate location invitationURL : string) : string :=
  "You're invited" +:+ nl +:+ nl
  +:+ "You're invited to " +:+ eventTitle +:+ "." +:+ nl +:+ nl
  +:+ "View your invitation for the event details and RSVP for your household." +:+ nl +:+ nl
  +:+ (if bool_decide (eventDate = "") then "" else "Date: " +:+ eventDate +:+ nl)
  +:+ (if bool_decide (location = "") then "" else "Location: " +:+ location +:+ nl)
  +:+ (if bool_decide (eventDate = "") && bool_decide (location = "") then "" else nl)
  +:+ "View invitation & RSVP:" +:+ nl +:+ invitationURL +:+ nl +:+ nl
  +:+ "This invitation link is unique to your household. Please don't share it." +:+ nl
  +:+ "If you weren't expecting this invitation, you can safely ignore this email." +:+ nl.
Definition RenderHouseholdInvitation (eventTitle eventDate location invitationURL : string)
    : res (string * string) :=
  match render_invitation_html eventTitle eventDate location invitationURL with
  | None => Err (EInternal "render household invitation template")
  | Some html => Ok (html, invitation_plain_text eventTitle eventDate location invitationURL)
  end.

Definition sms_body (eventTitle url : string) : string :=
  (if bool_decide (s.(smsSenderName) = "") then "Owl Invites" else s.(smsSenderName))
  +:+ ": You're invited to " +:+ eventTitle +:+ ". View and RSVP: " +:+ url +:+ nl +:+ nl
  +:+ "Private household link - don't share it." +:+ nl
  +:+ "Msg frequency varies. Msg & data rates may apply. Reply STOP to opt out; HELP for help.".

(** The switch of [Deliver]: the sender and address the method needs. *)
Inductive channel := ByEmail (send : EmailSender) (to : string) | BySMS (send : SMSSender) (to : string).
Definition delivery_channel (inv : Invitation) : res channel :=
  if bool_decide (inv.(PreferredDeliveryMethod) = "email") then
    match inv.(ContactEmail) with
    | None => Err (EValidation "email delivery is not available for this invitation")
    | Some to => match s.(sendEmail) with
                 | None => Err (EInternal "invitation email delivery is not configured")
                 | Some send => Ok (ByEmail send to)
                 end
    end
  else if bool_decide (inv.(PreferredDeliveryMethod) = "sms") then
    match inv.(ContactPhone) with
    | None => Err (EValidation "SMS delivery is not available for this invitation")
    | Some to => match s.(sendSMS) with
                 | None => Err (EInternal "invitation SMS delivery is not configured")
                 | Some send => Ok (BySMS send to)
                 end
    end
  else Err (EValidation "delivery is not available for this invitation").

Definition event_date_text (e : EventSummary) : string :=
  if e.(es_EventDate) =? zero_time then ""
  else format_event_date e.(es_Timezone) e.(es_EventDate).

Definition Deliver (invitationID : string) : M () :=
  o <- FindByID invitationID ;;
  inv <- of_option ErrNotFound o ;;
  require (bool_decide (inv.(RevokedAt) = None)) ErrNotFound ;;;
  ch <- of_res (delivery_channel inv) ;;
  household <- LoadHousehold inv.(ID) ;;
  let url := privateAccessURL inv in
  let event := household.(h_Event) in
  match ch with
  | BySMS send to => send inv.(EventID) inv.(ID) to (sms_body event.(es_Title) url)
  | ByEmail send to =>
      bodies <- of_res (RenderHouseholdInvitation event.(es_Title) (event_date_text event)
                          event.(es_Location) url) ;;
      send inv.(EventID) inv.(ID) to ("You're invited to " +:+ event.(es_Title)) bodies.1 bodies.2
  end.

Definition attemptDelivery (invitationID warning : string) : M DeliveryResult :=
  r <- attempt (Deliver invitationID) ;;
  ret (match r with
       | Ok _ => MkDelivery DeliverySent "" None
       | Err e => MkDelivery DeliveryFailed warning (Some e)
       end).

(** ** Private invitations *)

(** The switch on the method when [Send] is set. *)
Definition check_send (req : CreateRequest) (email phone : option string) (method : string)
    : res () :=
  if negb req.(cr_Send) then Ok ()
  else if bool_decide (method = "email") then
    if bool_decide (email = None) then Err (EValidation "send requires a valid contact email") else Ok ()
  else if bool_decide (method = "sms") then
    if bool_decide (phone = None) then Err (EValidation "send requires a valid contact phone") else Ok ()
  else Err (EValidation "send requires email or SMS delivery").

Definition create_guest (ix : nat * string) : M Guest :=
  let name := trim_space ix.2 in
  require (negb (bool_decide (name = ""))) (EValidation "assigned guest names cannot be empty") ;;;
  require (len name <=? 200)
    (EValidation "assigned guest names must be 200 characters or fewer") ;;;
  new_assigned_guest (ix.1, name).

Definition CreatePrivate (eventID creatorUserID : string) (req : CreateRequest) : M CreateResult :=
  let label := trim_space req.(cr_Label) in
  require (negb (bool_decide (label = ""))) (EValidation "label is required") ;;;
  require (len label <=? 200) (EValidation "label must be 200 characters or fewer") ;;;
  require ((0 <=? req.(cr_Allowance)) && (req.(cr_Allowance) <=? 50))
    (EValidation "additional guest allowance must be between 0 and 50") ;;;
  require (negb (bool_decide (length req.(cr_GuestNames) = 0%nat))
           && (length req.(cr_GuestNames) <=? 100)%nat)
    (EValidation "at least one assigned guest is required") ;;;
  let* (email, phone, method) :=
    of_res (validateContact req.(cr_ContactEmail) req.(cr_ContactPhone) req.(cr_Method)) in
  of_res (check_send req email phone method) ;;;
  accessID <- randomToken 18 ;;
  id <- new_uuid ;;
  let inv := MkInvitation id eventID label email phone method req.(cr_Allowance) SourcePrivate
               None accessID 1 (Some creatorUserID) None None zero_time zero_time in
  gs <- mapM create_guest (imap pair req.(cr_GuestNames)) ;;
  let* (inv, gs) := Create inv gs in
  delivery <-
    (if req.(cr_Send)
     then attemptDelivery inv.(ID)
            "Invitation created, but delivery failed. Use the private link or retry delivery."
     else ret (MkDelivery DeliveryNotRequested "" None)) ;;
  ret (MkCreateResult inv gs (privateAccessURL inv) delivery).

Definition Service_Rotate (eventID invitationID : string) : M CreateResult :=
  o <- Rotate invitationID eventID ;;
  household <- LoadHousehold invitationID ;;
  inv <- deref o ;;
  ret (MkCreateResult inv household.(h_Guests) (privateAccessURL inv)
         (MkDelivery DeliveryNotRequested "" None)).

Definition Service_Revoke (eventID invitationID reason0 : string) : M () :=
  let reason := trim_space reason0 in
  require (len reason <=? 500) (EValidation "revocation reason must be 500 characters or fewer") ;;;
  Revoke invitationID eventID reason.

(** ** Messages to the households of an event *)

Definition broadcast_step (send : EmailSender) (eventID subject body : string)
    (result : MessageResult) (inv : Invitation) : M MessageResult :=
  let '(MkMessageResult attempted accepted failed skipped) := result in
  match inv.(ContactEmail) with
  | Some to =>
      if negb (bool_decide (inv.(PreferredDeliveryMethod) = "email"))
      then ret (MkMessageResult attempted accepted failed (skipped + 1))
      else
        let url := privateAccessURL inv in
        let plain := body +:+ nl +:+ nl +:+ "Manage your private invitation:" +:+ nl +:+ url in
        let htmlBody := "<p>" +:+ html_escape body +:+ "</p><p><a href=" +:+ dq
                        +:+ html_escape url +:+ dq
                        +:+ ">Manage your private invitation</a></p>" in
        r <- attempt (send eventID inv.(ID) to subject htmlBody plain) ;;
        ret (match r with
             | Ok _ => MkMessageResult (attempted + 1) (accepted + 1) failed skipped
             | Err e => if bool_decide (e = ErrDeliverySuppressed)
                        then MkMessageResult (attempted + 1) accepted failed (skipped + 1)
                        else MkMessageResult (attempted + 1) accepted (failed + 1) skipped
             end)
  | None => ret (MkMessageResult attempted accepted failed (skipped + 1))
  end.

Definition BroadcastDetailed (eventID : string) (senderUserID : option string)
    (req : MessageRequest) : M MessageResult :=
  group <- of_res (validateRecipientGroup (trim_space req.(mr_Group))) ;;
  let subject := trim_space req.(mr_Subject) in
  let body := trim_space req.(mr_Body) in
  require (negb (bool_decide (subject = "")) && (len subject <=? 200))
    (EValidation "subject is required and must be 200 characters or fewer") ;;;
  require (negb (bool_decide (body = "")) && (len body <=? 10000))
    (EValidation "body is required and must be 10000 characters or fewer") ;;;
  send <- of_option (EInternal "invitation email delivery is not configured") s.(sendEmail) ;;
  targets <- ListDeliveryTargets eventID group ;;
  CreateMessage (MkMessage "" eventID senderUserID group subject body zero_time) ;;;
  foldM (broadcast_step send eventID subject body) (MkMessageResult 0 0 0 0) targets.

(** The count is returned beside the error. *)
Definition Broadcast (eventID : string) (senderUserID : option string) (req : MessageRequest)
    : M (Z * option err) :=
  r <- attempt (BroadcastDetailed eventID senderUserID req) ;;
  ret (match r with
       | Err e => (0, Some e)
       | Ok result =>
           if 0 <? result.(mres_Failed)
           then (result.(mres_Accepted),
                 Some (EInternal (itoa result.(mres_Failed) +:+ " invitation deliveries failed")))
           else (result.(mres_Accepted), None)
       end).

Definition PreviewBroadcast (eventID recipientGroup : string) : M MessagePreview :=
  group <- of_res (validateRecipientGroup recipientGroup) ;;
  targets <- ListDeliveryTargets eventID group ;;
  ret (MkMessagePreview group (Z.of_nat (length targets))).

(** ** Guest sessions *)

Definition ExchangePrivate (rawCapability : string) : M (string * Household) :=
  let* (accessID, version) :=
    of_res (match ParsePrivate s.(signer) rawCapability with
            | Ok p => Ok p | Err _ => Err ErrInvalidCapability end) in
  o <- FindByAccessID accessID ;;
  inv <- of_option ErrInvalidCapability o ;;
  require (bool_decide (inv.(RevokedAt) = None) && (inv.(TokenVersion) =? version))
    ErrInvalidCapability ;;;
  rawSession <- randomToken 32 ;;
  t <- now ;;
  CreateSession inv.(ID) (hashToken rawSession) version (t + s.(sessionExpiry)) ;;;
  household <- LoadHousehold inv.(ID) ;;
  ret (rawSession, household).

Definition HouseholdForSession (rawSession : string) : M Household :=
  require (negb (bool_decide (rawSession = ""))) ErrInvalidCapability ;;;
  o <- InvitationForSession (hashToken rawSession) ;;
  inv <- of_option ErrInvalidCapability o ;;
  LoadHousehold inv.(ID).

Definition SubmitForSession (rawSession : string) (req : SubmitRequest) : M Household :=
  o <- InvitationForSession (hashToken rawSession) ;;
  inv <- of_option ErrInvalidCapability o ;;
  require (1 <=? req.(sr_Version)) (EValidation "response version is required") ;;;
  SubmitResponse inv.(ID) req ;;;
  LoadHousehold inv.(ID).

(** ** Recovery *)

(** [int(d.Minutes())] of a duration of whole minutes and a rest. *)
Definition minutes (d : Z) : Z := Z.quot d (60 * ns_per_sec).

Definition recover_one (destinationKind : string) (inv : Invitation) : M () :=
  match inv.(ContactEmail), s.(sendEmail) with
  | Some to, Some send =>
      if negb (bool_decide (destinationKind = "email"))
         || negb (bool_decide (inv.(PreferredDeliveryMethod) = "email")) then ret ()
      else
        raw <- randomToken 32 ;;
        t <- now ;;
        CreateRecoveryToken inv.(ID) (hashToken raw) "email" (t + s.(recoveryExpiry)) ;;;
        household <- LoadHousehold inv.(ID) ;;
        let url := s.(baseURL) +:+ "/invitation/recover#" +:+ raw in
        let expires := "It expires in " +:+ itoa (minutes s.(recoveryExpiry)) +:+ " minutes." in
        let plain := "Use this one-time link to recover your invitation:" +:+ nl +:+ url
                     +:+ nl +:+ nl +:+ expires in
        let htmlBody := "<p>Use this one-time link to recover your invitation:</p><p><a href="
                        +:+ dq +:+ html_escape url +:+ dq +:+ ">Recover invitation</a></p><p>"
                        +:+ expires +:+ "</p>" in
        send inv.(EventID) inv.(ID) to
          ("Recover your invitation — " +:+ household.(h_Event).(es_Title)) htmlBody plain
  | _, _ => ret ()
  end.

Definition RequestRecovery (eventID0 contact0 sourceIdentity : string) : M () :=
  let eventID := trim_space eventID0 in
  let contact := trim_space contact0 in
  if bool_decide (eventID = "") || bool_decide (contact = "") then ret ()
  else
    let byEmail := contains contact "@" in
    let normalized := if byEmail then normalizeEmail contact else normalizePhone contact in
    let destinationKind := if byEmail then "email" else "sms" in
    if bool_decide (normalized = "") then ret ()
    else
      exists_ <- EventExists eventID ;;
      if negb exists_ then ret ()
      else
        allowed <- AllowRecovery eventID
                     (fingerprint s.(signer) ["source"; sourceIdentity])
                     (fingerprint s.(signer) ["destination"; eventID; normalized]) ;;
        if negb allowed then ret ()
        else
          matches <- FindRecoveryMatches eventID normalized ;;
          forM matches (recover_one destinationKind).

Definition ExchangeRecovery (rawRecovery : string) : M (string * Household) :=
  require (32 <=? len rawRecovery) ErrInvalidCapability ;;;
  rawSession <- randomToken 32 ;;
  t <- now ;;
  o <- ConsumeRecoveryAndCreateSession (hashToken rawRecovery) (hashToken rawSession)
         (t + s.(sessionExpiry)) ;;
  inv <- deref o ;;
  household <- LoadHousehold inv.(ID) ;;
  ret (rawSession, household).

(** ** Open enrollment *)

Definition check_open_request (req : ConfigureOpenRequest) : res (option time * option time) :=
  if (req.(co_MaxPartySize) <? 1) || (50 <? req.(co_MaxPartySize))
  then Err (EValidation "max party size must be between 1 and 50")
  else if match req.(co_Capacity) with Some c => c <? 1 | None => false end
  then Err (EValidation "capacity must be positive")
  else match parseOptionalTime req.(co_OpensAt) with
  | None => Err (EValidation "opensAt must be RFC3339")
  | Some opensAt =>
      match parseOptionalTime req.(co_ClosesAt) with
      | None => Err (EValidation "closesAt must be RFC3339")
      | Some closesAt =>
          if match opensAt, closesAt with Some a, Some b => negb (a <? b) | _, _ => false end
          then Err (EValidation "opensAt must be before closesAt")
          else Ok (opensAt, closesAt)
      end
  end.

Definition Service_ConfigureOpen (eventID creatorUserID : string) (req : ConfigureOpenRequest)
    : M (OpenEnrollmentConfig * string) :=
  let* (opensAt, closesAt) := of_res (check_open_request req) in
  o <- FindOpenByEvent eventID ;;
  config <- match o with
            | Some c => ret c
            | None =>
                accessID <- randomToken 18 ;;
                id <- new_uuid ;;
                ret (MkOpenConfig id eventID false None None 0 None 1 None zero_time zero_time accessID)
            end ;;
  let config := MkOpenConfig config.(oc_ID) config.(oc_EventID) req.(co_Enabled) opensAt closesAt
                  req.(co_MaxPartySize) req.(co_Capacity) config.(oc_TokenVersion)
                  config.(oc_RevokedAt) config.(oc_CreatedAt) config.(oc_UpdatedAt)
                  config.(oc_AccessID) in
  ConfigureOpen config creatorUserID ;;;
  o' <- FindOpenByEvent eventID ;;
  config' <- deref o' ;;
  ret (config', openAccessURL config').

Definition Service_RotateOpen (eventID : string) : M (OpenEnrollmentConfig * string) :=
  o <- RotateOpen eventID ;;
  config <- deref o ;;
  ret (config, openAccessURL config).

(** The conditions on the enrollment that a capability names. *)
Definition open_usable (now : time) (version : Z) (c : OpenEnrollmentConfig) : bool :=
  (c.(oc_TokenVersion) =? version) && c.(oc_Enabled) && bool_decide (c.(oc_RevokedAt) = None)
  && match c.(oc_OpensAt) with Some t => negb (now <? t) | None => true end
  && match c.(oc_ClosesAt) with Some t => now <? t | None => true end.

Definition validOpen (raw : string) : M OpenEnrollmentConfig :=
  let* (accessID, version) :=
    of_res (match ParseOpen s.(signer) raw with
            | Ok p => Ok p | Err _ => Err ErrInvalidCapability end) in
  o <- FindOpenByAccessID accessID ;;
  t <- now ;;
  config <- of_option ErrInvalidCapability o ;;
  require (open_usable t version config) ErrInvalidCapability ;;;
  ret config.

Definition InspectOpen (rawCapability : string) : M (OpenEnrollmentConfig * EventSummary) :=
  config <- validOpen rawCapability ;;
  event <- loadEventSummary config.(oc_EventID) ;;
  ret (config, event).

Definition enroll_guest (ix : nat * string) : M Guest :=
  let name := trim_space ix.2 in
  require (negb (bool_decide (name = "")) && (len name <=? 200))
    (EValidation "guest names must be between 1 and 200 characters") ;;;
  new_assigned_guest (ix.1, name).

Definition Service_EnrollOpen (req : OpenEnrollmentRequest)
    : M (string * Household * DeliveryResult) :=
  config <- validOpen req.(or_Capability) ;;
  let label := trim_space req.(or_Label) in
  require (negb (bool_decide (label = ""))) (EValidation "label is required") ;;;
  let party := Z.of_nat (length req.(or_GuestNames)) in
  require ((1 <=? party) && (party <=? config.(oc_MaxPartySize)))
    (EValidation "party size is outside the open invitation limit") ;;;
  eventSummary <- loadEventSummary config.(oc_EventID) ;;
  questions <- listQuestions config.(oc_EventID) ;;
  require (bool_decide (trim_space req.(or_Method) = "email"))
    (EValidation "open enrollment requires email delivery") ;;;
  let* (email, phone, method) :=
    of_res (validateContact req.(or_ContactEmail) req.(or_ContactPhone) "email") in
  accessID <- randomToken 18 ;;
  id <- new_uuid ;;
  let inv := MkInvitation id config.(oc_EventID) label email phone method 0 SourceOpen
               (Some config.(oc_ID)) accessID 1 None None None zero_time zero_time in
  gs <- mapM enroll_guest (imap pair req.(or_GuestNames)) ;;
  rawSession <- randomToken 32 ;;
  t <- now ;;
  let* (response, inv, gs) :=
    EnrollOpen config inv gs (hashToken rawSession) (t + s.(sessionExpiry)) in
  let household := MkHousehold inv eventSummary (Some response) gs questions [] [] None None in
  delivery <- attemptDelivery inv.(ID)
    "Enrollment succeeded, but the management email could not be sent. Keep this browser session open or request recovery later." ;;
  ret (rawSession, household, delivery).
End service.
