(* ===== verification/System.v ===== *)
(** * The store as a system

    Requests interleave at the calls of the store: a run is any list of store
    operations with any arguments, and the world decides which statements fail.
    [run_ops] executes it. *)

From S2P Require Import Prelude.
From S2P Require Import GoStr.
From S2P Require Import GoTime.
From S2P Require Import Schema.
From S2P Require Import Eff.
From S2P Require Import Respect.
From S2P Require Import Demo.
From S2P Require Import Tables.
From S2P Require Import Capability.
From S2P Require Import InvModel.
From S2P Require Import InvStore.
From S2P Require Import InvResponse.
From S2P Require Import InvOpen.
From S2P Require Import InvRecovery.
From S2P Require Import InvManage.
From S2P Require Import History.
From S2P Require Import Integrity.
From S2P Require Import Complete.
From S2P Require Import InvCsv.
From S2P Require Import InvService.

Local Open Scope Z_scope.

Inductive store_op :=
| OCreate (inv : Invitation) (gs : list Guest)
| OImport (records : list ImportRecord)
| OUpdate (eventID invitationID : string) (req : UpdateInvitationRequest)
| ORotate (id eventID : string)
| ORevoke (id eventID reason : string)
| OCreateSession (invitationID hash : string) (version : Z) (expires : time)
| OForSession (hash : string)
| OSubmit (invitationID : string) (req : SubmitRequest)
| OMessage (m : InvitationMessage)
| OConfigureOpen (config : OpenEnrollmentConfig) (user : string)
| ORotateOpen (eventID : string)
| OEnroll (config : OpenEnrollmentConfig) (inv : Invitation) (gs : list Guest)
    (hash : string) (expires : time)
| OAllow (eventID source dest : string)
| OToken (invitationID hash dest : string) (expires : time)
| OConsume (recoveryHash sessionHash : string) (expires : time).

Section system.
Context `{E : Env}.

Definition run_op (op : store_op) : M () :=
  match op with
  | OCreate inv gs => Create inv gs ;;; ret ()
  | OImport records => Import records
  | OUpdate e i req => Store_UpdateInvitation e i req
  | ORotate i e => Rotate i e ;;; ret ()
  | ORevoke i e reason => Revoke i e reason
  | OCreateSession i h v t => CreateSession i h v t
  | OForSession h => InvitationForSession h ;;; ret ()
  | OSubmit i req => SubmitResponse i req
  | OMessage m => CreateMessage m ;;; ret ()
  | OConfigureOpen c u => ConfigureOpen c u
  | ORotateOpen e => RotateOpen e ;;; ret ()
  | OEnroll c i gs h t => EnrollOpen c i gs h t ;;; ret ()
  | OAllow e s d => AllowRecovery e s d ;;; ret ()
  | OToken i h d t => CreateRecoveryToken i h d t
  | OConsume r h t => ConsumeRecoveryAndCreateSession r h t ;;; ret ()
  end.

(** A failed operation returns its error to the caller; the run goes on. *)
Definition run_ops (ops : list store_op) (w : World) : World :=
  fold_left (fun w op => (run_op op w).2) ops w.

Lemma run_op_respects R `{!PreOrder R} (H : forall op, respects R (run_op op)) ops w :
  R (w_db w) (w_db (run_ops ops w)).
Proof.
  revert w. induction ops as [|op ops IH]; intros w; simpl; [done|].
  etrans; [apply H|apply IH].
Qed.

Lemma run_op_evolves op : respects evolves (run_op op).
Proof.
  destruct op; simpl; respect;
    eauto using Create_evolves, Import_evolves, UpdateInvitation_evolves, Rotate_evolves,
      Revoke_evolves, CreateSession_evolves, InvitationForSession_evolves,
      SubmitResponse_evolves, CreateMessage_evolves, ConfigureOpen_evolves, RotateOpen_evolves,
      EnrollOpen_evolves, AllowRecovery_evolves, CreateRecoveryToken_evolves,
      ConsumeRecovery_evolves.
Qed.
Lemma run_op_integrity op : respects (keeps Integrity) (run_op op).
Proof.
  destruct op; simpl; respect;
    eauto using Create_integrity, Import_integrity, UpdateInvitation_integrity, Rotate_integrity,
      Revoke_integrity, CreateSession_integrity, InvitationForSession_integrity,
      SubmitResponse_integrity, CreateMessage_integrity, ConfigureOpen_integrity,
      RotateOpen_integrity, EnrollOpen_integrity, AllowRecovery_integrity,
      CreateRecoveryToken_integrity, ConsumeRecovery_integrity.
Qed.
Lemma run_op_sound op : respects (keeps Sound) (run_op op).
Proof.
  pose proof (run_op_integrity op) as HI.
  destruct op; try exact (SubmitResponse_sound _ _); (apply respects_Sound; [exact HI|]);
    simpl; respect;
    eauto using Create_complete, Import_complete, UpdateInvitation_complete, Rotate_complete,
      Revoke_complete, CreateSession_complete, InvitationForSession_complete,
      CreateMessage_complete, ConfigureOpen_complete, RotateOpen_complete, EnrollOpen_complete,
      AllowRecovery_complete, CreateRecoveryToken_complete, ConsumeRecovery_complete.
Qed.

Lemma run_evolves ops w : evolves (w_db w) (w_db (run_ops ops w)).
Proof. apply run_op_respects; [apply _|apply run_op_evolves]. Qed.
Lemma run_integrity ops w : Integrity (w_db w) -> Integrity (w_db (run_ops ops w)).
Proof. apply (run_op_respects (keeps Integrity)), run_op_integrity. Qed.

(** ** Accepted sessions *)

(** What an accepted session says about the database. *)
Lemma session_invitation_Some hash now d id r :
  session_invitation hash now d = Some (id, r) ->
  exists k s, d.(invitation_sessions) !! k = Some s /\ s.(s_token_hash) = hash /\
    str_lt now s.(s_expires_at) = true /\ s.(s_revoked_at) = None /\ s.(s_invitation_id) = id /\
    d.(invitations) !! id = Some r /\ r.(i_revoked_at) = None /\
    s.(s_issued_version) = r.(i_token_version).
Proof.
  unfold session_invitation. destruct (select_row _ _) as [[k s]|] eqn:Es; simpl; [|done].
  apply select_row_Some in Es as [Hk Hm]. unfold session_matches in Hm. split_guards.
  unfold by_id. destruct (invitations d !! s_invitation_id s) as [r'|] eqn:Er; simpl; [|done].
  intros [= <- <-]. split_guards.
  repeat match goal with H : is_null _ = true |- _ => apply is_null_true in H end.
  exists k, s. split_and!; try done; [by eapply bool_decide_eq_true|lia].
Qed.

Lemma scanInvitation_Some row inv :
  scanInvitation row = Ok (Some inv) ->
  exists id r, row = Some (id, r) /\ parseInvitation id r = Ok inv.
Proof.
  destruct row as [[id r]|]; simpl; [|done].
  destruct (parseInvitation id r) eqn:Ep; simpl; [|done]. intros [= ->]. eauto.
Qed.
(** The columns an [Invitation] keeps. *)
Lemma parseInvitation_Ok id r inv :
  parseInvitation id r = Ok inv ->
  inv.(ID) = id /\ inv.(EventID) = r.(i_event_id) /\ inv.(AccessID) = r.(i_access_id) /\
  inv.(TokenVersion) = r.(i_token_version) /\ (inv.(RevokedAt) = None <-> r.(i_revoked_at) = None).
Proof.
  unfold parseInvitation, res_bind. repeat case_match; try done. intros [= <-]. simpl.
  split_and!; try done.
  unfold parseDBTimeOpt in *. destruct (i_revoked_at r); [|by simplify_eq].
  repeat case_match; simplify_eq; done.
Qed.

Lemma InvitationForSession_Some hash w inv w' :
  InvitationForSession hash w = (Ok (Some inv), w') ->
  exists r, session_invitation hash (format_nano (clock w.(w_clock))) w.(w_db) = Some (inv.(ID), r) /\
    parseInvitation inv.(ID) r = Ok inv.
Proof.
  unfold InvitationForSession. intros H.
  apply bind_ok in H as (t & w1 & H1 & H). apply now_ok in H1 as (-> & D1 & _).
  apply bind_ok in H as (row & w2 & H2 & H). apply query_ok in H2 as (-> & _ & _). rewrite D1 in H.
  apply bind_ok in H as (o & w3 & H3 & H). apply of_res_ok in H3 as [H3 _].
  destruct o as [inv'|]; [|done].
  apply bind_ok in H as (? & w4 & _ & H). apply ret_ok in H as [[= ->] _].
  apply scanInvitation_Some in H3 as (id & r & Hs & Hp).
  pose proof (parseInvitation_Ok _ _ _ Hp) as (Hid & _). rewrite Hid in *. eauto.
Qed.

(** A hash whose session is revoked is never accepted again. *)
Lemma revoked_session_refused hash k s d w inv w' :
  d.(invitation_sessions) !! k = Some s -> s.(s_token_hash) = hash -> s.(s_revoked_at) <> None ->
  evolves d w.(w_db) -> Integrity w.(w_db) ->
  InvitationForSession hash w = (Ok (Some inv), w') -> False.
Proof.
  intros Hk Hh Hr He HI (r & Hs & _)%InvitationForSession_Some.
  apply session_invitation_Some in Hs as (k' & s' & Hk' & Hh' & _ & Hr' & _).
  destruct (ev_sessions _ _ He _ _ Hk) as (s2 & Hk2 & _ & Hh2 & _ & _ & Hr2).
  assert (k = k') as <- by (eapply (in_session _ HI); eauto; congruence).
  simplify_eq. by apply Hr2.
Qed.

(** ** What rotation, revocation and consumption write *)

Lemma update_live_invitation_ok ctx id e f w n w' :
  update_live_invitation ctx id e f w = (Ok n, w') -> (n =? 1) = true ->
  exists r, w.(w_db).(invitations) !! id = Some r /\ r.(i_event_id) = e /\
    r.(i_revoked_at) = None /\
    w'.(w_db) = set_invitations (fun _ => <[id := f r]> w.(w_db).(invitations)) w.(w_db).
Proof.
  intros (H & _ & _)%stmt_ok Hn. destruct (update_id _ _ _ _) as [t m] eqn:Eu.
  injection H as -> H. apply update_id_cases in Eu as [(_ & r & Hr & HQ & ->)|(-> & _)]; [|done].
  split_guards. exists r. split_and!; [done| |by apply is_null_true|done].
  by eapply bool_decide_eq_true.
Qed.

(** A committed change of one live invitation followed by the end of its
    sessions: the common part of [Rotate] and [Revoke]. *)
Definition ends_access (f : InvitationRow -> InvitationRow) (id e : string) (d d' : Database) : Prop :=
  exists r now, d.(invitations) !! id = Some r /\ r.(i_event_id) = e /\ r.(i_revoked_at) = None /\
    d' = set_invitation_sessions
           (update_where (fun _ s => bool_decide (s.(s_invitation_id) = id) && is_null s.(s_revoked_at))
              (revoke_session_row now))
           (set_invitations (fun _ => <[id := f r]> d.(invitations)) d).

Lemma ends_access_sessions f id e d d' k s :
  ends_access f id e d d' -> d.(invitation_sessions) !! k = Some s -> s.(s_invitation_id) = id ->
  exists s', d'.(invitation_sessions) !! k = Some s' /\ s'.(s_token_hash) = s.(s_token_hash) /\
    s'.(s_revoked_at) <> None.
Proof.
  intros (r & now & _ & _ & _ & ->) Hk Hi. simpl. rewrite lookup_update_where, Hk. simpl.
  eexists. split; [done|]. rewrite bool_decide_eq_true_2 by done. simpl.
  destruct (is_null (s_revoked_at s)) eqn:En; [done|]. split; [done|].
  unfold is_null in En. by rewrite bool_decide_eq_false in En.
Qed.

Lemma Rotate_ok id e w o w' :
  Rotate id e w = (Ok o, w') -> exists now, ends_access (rotate_row now) id e w.(w_db) w'.(w_db).
Proof.
  unfold Rotate. intros H.
  apply bind_ok in H as (? & w1 & H1 & H). apply with_tx_ok in H1 as (wa & wb & H1 & Da & Db & _ & _).
  apply bind_ok in H1 as (t & w2 & H2 & H1). apply now_ok in H2 as (_ & D2 & _). cbv zeta in H1.
  apply bind_ok in H1 as (n & w3 & H3 & H1).
  apply bind_ok in H1 as (? & ? & H4 & H1). apply require_ok in H4 as [Hn <-].
  apply (update_live_invitation_ok _ _ _ _ _ _ _ H3) in Hn as (r & Hr & He & Hnone & D3).
  apply exec_ok in H1 as ([= H1] & _).
  unfold FindByID in H. apply bind_ok in H as (row & w4 & H5 & H).
  apply query_ok in H5 as (_ & D5 & _). apply of_res_ok in H as [_ <-].
  exists (format_nano t), r, (format_nano t). rewrite D2, Da in *.
  split_and!; try done. by rewrite D5, Db, <- H1, D3.
Qed.

Lemma Revoke_ok id e reason w u w' :
  Revoke id e reason w = (Ok u, w') ->
  exists now, ends_access (revoke_row now reason) id e w.(w_db) w'.(w_db).
Proof.
  unfold Revoke. intros (wa & wb & H1 & Da & Db & _ & _)%with_tx_ok.
  apply bind_ok in H1 as (t & w2 & H2 & H1). apply now_ok in H2 as (_ & D2 & _). cbv zeta in H1.
  apply bind_ok in H1 as (n & w3 & H3 & H1).
  apply bind_ok in H1 as (? & ? & H4 & H1). apply require_ok in H4 as [Hn <-].
  apply (update_live_invitation_ok _ _ _ _ _ _ _ H3) in Hn as (r & Hr & He & Hnone & D3).
  apply exec_ok in H1 as ([= H1] & _).
  exists (format_nano t), r, (format_nano t). rewrite D2, Da in *.
  split_and!; try done. by rewrite Db, <- H1, D3.
Qed.

Lemma FindByAccessID_reads a : reads (FindByAccessID a).
Proof. unfold FindByAccessID. respect. Qed.
Lemma FindByAccessID_Some a w inv w' :
  FindByAccessID a w = (Ok (Some inv), w') ->
  exists r, w.(w_db).(invitations) !! inv.(ID) = Some r /\ r.(i_access_id) = a /\
    parseInvitation inv.(ID) r = Ok inv.
Proof.
  unfold FindByAccessID. intros H. apply bind_ok in H as (row & w1 & H1 & H).
  apply query_ok in H1 as (-> & _ & _). apply of_res_ok in H as [H _].
  apply scanInvitation_Some in H as (id & r & Hs & Hp).
  pose proof (parseInvitation_Ok _ _ _ Hp) as (-> & _).
  apply select_row_Some in Hs as [Hk Ha]. exists r. by apply bool_decide_eq_true in Ha.
Qed.

(** A capability that names an invitation which is revoked or has moved past its
    version opens nothing and writes nothing. *)
Lemma ExchangePrivate_refused svc raw a v w :
  ParsePrivate svc.(signer) raw = Ok (a, v) ->
  (forall id r, w.(w_db).(invitations) !! id = Some r -> r.(i_access_id) = a ->
     r.(i_revoked_at) <> None \/ r.(i_token_version) <> v) ->
  exists e w', ExchangePrivate svc raw w = (Err e, w') /\ w'.(w_db) = w.(w_db).
Proof.
  intros Hp Hdead. unfold ExchangePrivate. rewrite Hp. unfold bind at 1, of_res at 1.
  unfold bind at 1. pose proof (FindByAccessID_reads a w) as D1. unfold same_db in D1.
  destruct (FindByAccessID a w) as [[o|e] w1] eqn:Ef; [|by eexists _, _]. simpl in D1.
  destruct o as [inv|]; simpl; [|by eexists _, _].
  apply FindByAccessID_Some in Ef as (r & Hr & Ha & Hpi).
  destruct (Hdead _ _ Hr Ha) as [Hd|Hd]; apply parseInvitation_Ok in Hpi as (_ & _ & _ & Hv & Hrev).
  - unfold bind, ret. rewrite bool_decide_eq_false_2 by tauto. by eexists _, _.
  - unfold bind, ret. destruct (Z.eqb_spec (TokenVersion inv) v); [congruence|].
    rewrite andb_false_r. by eexists _, _.
Qed.

(** The invitation with an access id after any run. *)
Lemma access_after d w id r id' r' :
  evolves d w.(w_db) -> Integrity w.(w_db) -> d.(invitations) !! id = Some r ->
  w.(w_db).(invitations) !! id' = Some r' -> r'.(i_access_id) = r.(i_access_id) ->
  inv_row_le r r'.
Proof.
  intros He HI Hr Hr' Ha. destruct (ev_invitations _ _ He _ _ Hr) as (r2 & Hr2 & Hle).
  assert (id = id') as <-.
  { eapply (in_access _ HI); eauto. destruct Hle as (_ & <- & _). congruence. }
  by simplify_eq.
Qed.

(** A session of an older version than the invitation's is not accepted. *)
Lemma old_version_refused d w id r k s inv w' :
  evolves d w.(w_db) -> Integrity w.(w_db) -> d.(invitations) !! id = Some r ->
  w.(w_db).(invitation_sessions) !! k = Some s -> s.(s_invitation_id) = id ->
  s.(s_issued_version) < r.(i_token_version) ->
  InvitationForSession s.(s_token_hash) w <> (Ok (Some inv), w').
Proof.
  intros He HI Hr Hk Hi Hv (r2 & Hs & _)%InvitationForSession_Some.
  apply session_invitation_Some in Hs as (k' & s' & Hk' & Hh' & _ & _ & Hi' & Hr2 & _ & Hv').
  assert (k' = k) as -> by (by eapply (in_session _ HI)). simplify_eq.
  destruct (ev_invitations _ _ He _ _ Hr) as (r3 & Hr3 & _ & _ & _ & _ & Hle & _).
  rewrite Hi' in Hr3. simplify_eq. lia.
Qed.

Lemma ends_access_final f id e w w1 r ops svc :
  Integrity w.(w_db) -> Integrity w1.(w_db) -> ends_access f id e w.(w_db) w1.(w_db) ->
  w.(w_db).(invitations) !! id = Some r -> (f r).(i_access_id) = r.(i_access_id) ->
  let w2 := run_ops ops w1 in
  (forall k s inv w', w.(w_db).(invitation_sessions) !! k = Some s -> s.(s_invitation_id) = id ->
     InvitationForSession s.(s_token_hash) w2 <> (Ok (Some inv), w')) /\
  (forall raw v, ParsePrivate svc.(signer) raw = Ok (r.(i_access_id), v) ->
     (f r).(i_revoked_at) <> None \/ v < (f r).(i_token_version) ->
     exists err w', ExchangePrivate svc raw w2 = (Err err, w') /\ w'.(w_db) = w2.(w_db)).
Proof.
  intros HI HI1 Hend Hr Hacc w2.
  pose proof (run_evolves ops w1) as He. pose proof (run_integrity ops w1 HI1) as HI2. split.
  - intros k s inv w' Hk Hi Hs.
    destruct (ends_access_sessions _ _ _ _ _ _ _ Hend Hk Hi) as (s' & Hk' & Hh & Hrev).
    by eapply revoked_session_refused.
  - intros raw v Hp Hdead. apply (ExchangePrivate_refused _ _ _ _ _ Hp). intros id' r' Hr' Ha'.
    assert (invitations (w_db w1) !! id = Some (f r)) as H1.
    { destruct Hend as (r0 & now & Hr0 & _ & _ & ->). simplify_eq/=. by rewrite lookup_insert_eq. }
    assert (inv_row_le (f r) r') as (_ & _ & _ & _ & Hv & Hfr).
    { eapply access_after; eauto. by rewrite Hacc. }
    destruct Hdead as [Hd|Hd]; [left; by rewrite Hfr|right; lia].
Qed.
End system.

(** ** The theorems *)

Section theorems.
Context `{E : Env}.

(** [C4] The store keeps its invariant: from a sound database, any sequence of
    store operations with any arguments and any driver faults leads to a sound
    database: keys are unique, references resolve, every invitation has exactly
    one response, every guest has exactly one guest response and it belongs to
    the response of the guest's own household. *)
Theorem store_sound ops w : Sound (w_db w) -> Sound (w_db (run_ops ops w)).
Proof. apply (run_op_respects (keeps Sound)), run_op_sound. Qed.

(** Nothing is undone: across any sequence of store operations and faults,
    invitations, guests, responses, sessions, tokens and enrollments are never
    deleted and keep their identity, versions never decrease, and revocation,
    removal of a guest, first submission and token consumption are final. *)
Theorem store_history ops w : evolves (w_db w) (w_db (run_ops ops w)).
Proof. apply run_evolves. Qed.

(** [C1] Rotation cuts off what was handed out before: after a successful
    [Rotate], whatever operations follow and whatever faults occur, no session
    of the household that existed before is accepted, and no capability of the
    household with the old version (or an older one) opens a session or writes
    anything; nor is a session accepted that an exchange already under way stores
    later with an old version. *)
Theorem rotation_is_final svc id e w o w1 r ops :
  Integrity (w_db w) -> Rotate id e w = (Ok o, w1) -> invitations (w_db w) !! id = Some r ->
  let w2 := run_ops ops w1 in
  (forall k s inv w', invitation_sessions (w_db w) !! k = Some s -> s_invitation_id s = id ->
     InvitationForSession (s_token_hash s) w2 <> (Ok (Some inv), w')) /\
  (forall raw v, ParsePrivate (signer svc) raw = Ok (i_access_id r, v) -> v <= i_token_version r ->
     exists err w', ExchangePrivate svc raw w2 = (Err err, w') /\ w_db w' = w_db w2) /\
  (forall k s inv w', invitation_sessions (w_db w2) !! k = Some s -> s_invitation_id s = id ->
     s_issued_version s <= i_token_version r ->
     InvitationForSession (s_token_hash s) w2 <> (Ok (Some inv), w')).
Proof.
  intros HI Hrot Hr. assert (Integrity (w_db w1)) as HI1.
  { pose proof (Rotate_integrity id e w HI) as H. by rewrite Hrot in H. }
  apply Rotate_ok in Hrot as [now Hend].
  destruct (ends_access_final _ _ _ _ _ _ ops svc HI HI1 Hend Hr) as [H1 H2]; [done|].
  split_and!; [done| |].
  - intros raw v Hp Hv. eapply H2; [done|right; simpl; lia].
  - intros k s inv w' Hk Hi Hv. apply (old_version_refused (w_db w1) _ id (rotate_row now r) k s);
      eauto using run_evolves, run_integrity; [|simpl; lia].
    destruct Hend as (r0 & now' & Hr0 & _ & _ & ->). simplify_eq/=. by rewrite lookup_insert_eq.
Qed.

(** Revocation is final: after a successful [Revoke], whatever operations
    follow, no earlier session of the household is accepted and no capability of
    the household, of any version, opens a session or writes anything. *)
Theorem revocation_is_final svc id e reason w u w1 r ops :
  Integrity (w_db w) -> Revoke id e reason w = (Ok u, w1) -> invitations (w_db w) !! id = Some r ->
  let w2 := run_ops ops w1 in
  (forall k s inv w', invitation_sessions (w_db w) !! k = Some s -> s_invitation_id s = id ->
     InvitationForSession (s_token_hash s) w2 <> (Ok (Some inv), w')) /\
  (forall raw v, ParsePrivate (signer svc) raw = Ok (i_access_id r, v) ->
     exists err w', ExchangePrivate svc raw w2 = (Err err, w') /\ w_db w' = w_db w2).
Proof.
  intros HI Hrev Hr. assert (Integrity (w_db w1)) as HI1.
  { pose proof (Revoke_integrity id e reason w HI) as H. by rewrite Hrev in H. }
  apply Revoke_ok in Hrev as [now Hend].
  destruct (ends_access_final _ _ _ _ _ _ ops svc HI HI1 Hend Hr) as [H1 H2]; [done|].
  split; [done|]. intros raw v Hp. eapply H2; [done|by left].
Qed.
End theorems.

(** ** The hypotheses can hold *)

Lemma uniq_singleton {R C} (col : R -> C) k r : uniq col ({[k := r]} : gmap string R).
Proof. intros ????. rewrite !lookup_singleton_Some. by intros [<- _] [<- _]. Qed.
Lemma uniq_empty {R C} (col : R -> C) : uniq col (∅ : gmap string R).
Proof. intros ????. by rewrite lookup_empty. Qed.
Lemma refs_singleton {R R'} (col : R -> string) k r (u : gmap string R') :
  is_Some (u !! col r) -> refs col ({[k := r]} : gmap string R) u.
Proof. intros ???. rewrite lookup_singleton_Some. by intros [_ <-]. Qed.
Lemma refs_empty {R R'} (col : R -> string) (u : gmap string R') : refs col (∅ : gmap string R) u.
Proof. intros ??. by rewrite lookup_empty. Qed.

Lemma demo_sound : Sound demo_db.
Proof.
  split.
  - split; simpl; first [apply uniq_singleton | apply uniq_empty | apply refs_empty
                        | apply refs_singleton; simpl; by rewrite lookup_singleton_eq].
  - split.
    + intros id. simpl. intros [r [<- <-]%lookup_singleton_Some].
      exists "resp", demo_response. simpl. by rewrite lookup_singleton_eq.
    + intros g row. simpl. intros [<- <-]%lookup_singleton_Some.
      exists "gr", demo_guest_response. simpl. rewrite lookup_singleton_eq. split_and!; [done..|].
      exists demo_response. simpl. by rewrite lookup_singleton_eq.
Qed.

Definition demo_service : Service :=
  MkService (MkSigner "key") "https://owl" (3600 * ns_per_sec) (900 * ns_per_sec)
    (Some (fun _ _ _ _ _ _ => ret ())) None "".

Lemma store_sound_witness :
  Sound (w_db (run_ops (E := demo_env) [ORotate "inv" "ev"; OSubmit "inv" (MkSubmit 1 [] [] ∅ ∅)] demo_world)).
Proof. apply (store_sound (E := demo_env)). exact demo_sound. Defined.

Lemma rotation_is_final_witness :
  exists o w1, Rotate (E := demo_env) "inv" "ev" demo_world = (Ok o, w1) /\
    forall ops inv w', InvitationForSession (E := demo_env) "hash" (run_ops (E := demo_env) ops w1)
                       <> (Ok (Some inv), w').
Proof.
  destruct (Rotate (E := demo_env) "inv" "ev" demo_world) as [[o|x] w1] eqn:H;
    [|vm_compute in H; discriminate H].
  exists o, w1. split; [done|]. intros ops inv w'.
  destruct (rotation_is_final (E := demo_env) demo_service "inv" "ev" demo_world o w1
              demo_invitation ops) as [R _].
  - apply demo_sound.
  - exact H.
  - reflexivity.
  - apply (R "sess" demo_session); reflexivity.
Defined.

Lemma revocation_is_final_witness :
  exists u w1, Revoke (E := demo_env) "inv" "ev" "moved" demo_world = (Ok u, w1) /\
    forall ops inv w', InvitationForSession (E := demo_env) "hash" (run_ops (E := demo_env) ops w1)
                       <> (Ok (Some inv), w').
Proof.
  destruct (Revoke (E := demo_env) "inv" "ev" "moved" demo_world) as [[u|x] w1] eqn:H;
    [|vm_compute in H; discriminate H].
  exists u, w1. split; [done|]. intros ops inv w'.
  destruct (revocation_is_final (E := demo_env) demo_service "inv" "ev" "moved" demo_world u w1
              demo_invitation ops) as [R _].
  - apply demo_sound.
  - exact H.
  - reflexivity.
  - apply (R "sess" demo_session); reflexivity.
Defined.
