(* ===== verification/Submission.v ===== *)
(** * Theorems on household submissions

    Optimistic locking, isolation between households, the additional-guest
    allowance and the stored answers. *)

From S2P Require Import Prelude.
From S2P Require Import GoStr.
From S2P Require Import GoTime.
From S2P Require Import Schema.
From S2P Require Import Eff.
From S2P Require Import Respect.
From S2P Require Import Demo.
From S2P Require Import Tables.
From S2P Require Import InvModel.
From S2P Require Import InvStore.
From S2P Require Import InvResponse.
From S2P Require Import History.
From S2P Require Import Integrity.
From S2P Require Import Complete.
From S2P Require Import System.

Local Open Scope Z_scope.

(** ** Isolation *)

(** Guest [g] is of household [i]. *)
Definition guest_of (i : string) (d : Database) (g : string) : Prop :=
  exists row, d.(guests) !! g = Some row /\ row.(g_invitation_id) = i.

(** What household [i] leaves alone: every row of another household, and every
    table that holds no responses. *)
Record isolated (i : string) (d d' : Database) : Prop := {
  is_accounts : accounts d' = accounts d;
  is_guest : forall g, guest_of i d g -> guest_of i d' g;
  is_guests : agree_on (fun g => g.(g_invitation_id) <> i) d.(guests) d'.(guests);
  is_responses : agree_on (fun r => r.(r_invitation_id) <> i) d.(rsvp_responses) d'.(rsvp_responses);
  is_gr : agree_on (fun x => ~ guest_of i d' x.(gr_guest_id)) d.(guest_responses) d'.(guest_responses);
  is_ia : agree_on (fun a => a.(ia_invitation_id) <> i) d.(invitation_answers) d'.(invitation_answers);
  is_ga : agree_on (fun a => ~ guest_of i d' a.(ga_guest_id)) d.(guest_answers) d'.(guest_answers);
  is_invitations : d'.(invitations) = d.(invitations);
  is_sessions : d'.(invitation_sessions) = d.(invitation_sessions);
  is_tokens : d'.(invitation_recovery_tokens) = d.(invitation_recovery_tokens);
  is_attempts : d'.(invitation_recovery_attempts) = d.(invitation_recovery_attempts);
  is_messages : d'.(invitation_messages) = d.(invitation_messages);
  is_open : d'.(open_enrollments) = d.(open_enrollments);
  is_questions : d'.(event_questions) = d.(event_questions);
  is_events : d'.(events) = d.(events) }.

#[global] Instance isolated_preorder i : PreOrder (isolated i).
Proof.
  split.
  - intros d. split; try done; apply agree_on_refl.
  - intros d1 d2 d3 [] []. split; try congruence; eauto.
    + intros k r HP. by etrans; [apply is_guests1|apply is_guests0].
    + intros k r HP. by etrans; [apply is_responses1|apply is_responses0].
    + intros k r HP. etrans; [by apply is_gr1|]. apply is_gr0. intros ?. eauto.
    + intros k r HP. by etrans; [apply is_ia1|apply is_ia0].
    + intros k r HP. etrans; [by apply is_ga1|]. apply is_ga0. intros ?. eauto.
Qed.

(** Isolation for a statement that is given guests of the household. *)
Definition isolated_given (gs : gset string) (i : string) (d d' : Database) : Prop :=
  (forall g, g ∈ gs -> guest_of i d g) -> isolated i d d'.
#[global] Instance isolated_given_preorder gs i : PreOrder (isolated_given gs i).
Proof.
  split.
  - by intros d _.
  - intros d1 d2 d3 H12 H23 Hgs. etrans; [by apply H12|]. apply H23.
    intros g Hg. apply (is_guest _ _ _ (H12 Hgs)). auto.
Qed.
Lemma isolated_given_weaken gs i d d' : isolated i d d' -> isolated_given gs i d d'.
Proof. by intros ? _. Qed.
Lemma isolated_given_mono gs gs' i d d' :
  gs ⊆ gs' -> isolated_given gs i d d' -> isolated_given gs' i d d'.
Proof. intros Hs H Hg. apply H. set_solver. Qed.

(** Tables a statement does not touch. *)
Ltac isolate := split; simpl; try done; try apply agree_on_refl.

Section submission.
Context `{E : Env}.

(** *** Statements *)

Lemma insert_guest_isolated gid row d d' :
  insert_guest gid row d = Some d' ->
  isolated row.(g_invitation_id) d d' /\ guest_of row.(g_invitation_id) d' gid.
Proof.
  unfold insert_guest. intros H. insert_cases H.
  assert (guests d !! gid = None) by (by apply has_false). split.
  - isolate.
    + intros g (r & Hr & Hi). exists r. split; [|done]. simpl.
      by rewrite lookup_insert_ne by congruence.
    + apply agree_on_insert; [tauto|]. congruence.
  - exists row. simpl. by rewrite lookup_insert_eq.
Qed.
Lemma upsert_guest_response_isolated u r d d' i :
  upsert_guest_response u r d = Some d' -> guest_of i d r.(gr_guest_id) -> isolated i d d'.
Proof.
  unfold upsert_guest_response, insert_guest_response. intros H Hg.
  destruct (select_row _ _) as [[k old]|] eqn:Es; insert_cases H; isolate.
  - apply select_row_Some in Es as [Hk Ho%bool_decide_eq_true].
    apply agree_on_insert; [simpl; rewrite Ho; tauto|].
    intros r0 Hr0. simplify_eq. rewrite Ho. tauto.
  - apply agree_on_insert; [tauto|]. by rewrite has_false by done.
Qed.
Lemma updateGuestAttendance_isolated gs rid g a now i :
  g ∈ gs -> respects (isolated_given gs i) (updateGuestAttendance rid g a now).
Proof.
  intros Hg. unfold updateGuestAttendance. respect. intros H Hgs.
  eapply upsert_guest_response_isolated; [done|]. by apply Hgs.
Qed.
Lemma update_active_guest_isolated ctx g i o f :
  (forall r, r.(g_invitation_id) = (f r).(g_invitation_id)) ->
  respects (isolated i) (update_active_guest ctx g i o f).
Proof.
  intros Hf. unfold update_active_guest. respect. intros [= <-].
  assert (forall r, active_in i g r && bool_decide (g_origin r = o) = true -> g_invitation_id r = i).
  { unfold active_in. intros r Hr. split_guards. by eapply bool_decide_eq_true. }
  isolate.
  - intros g' (r & Hr & Hi).
    pose proof (table_le_update_id (fun r r' => r.(g_invitation_id) = r'.(g_invitation_id)) g
      (fun r => active_in i g r && bool_decide (g_origin r = o)) f (guests d)) as Hle.
    destruct (Hle (fun r _ _ => Hf r) _ _ Hr) as (r' & Hr' & Hi'). exists r'. split; [done|congruence].
  - apply agree_on_update_id. intros r Hr. rewrite <- Hf. split; intros Hn; by apply Hn, H.
Qed.
Lemma advance_version_isolated i v now : respects (isolated i) (advance_version i v now).
Proof.
  unfold advance_version. respect. intros [= _ <-]. isolate.
  apply agree_on_update_where. unfold version_matches. intros k r Hr. split_guards.
  assert (r_invitation_id r = i) by (by eapply bool_decide_eq_true). simpl. tauto.
Qed.

(** *** The parts of the body *)

Lemma submit_assigned_isolated i rid now assigned u :
  respects (isolated_given assigned i) (submit_assigned rid now assigned u).
Proof.
  unfold submit_assigned. respect. apply updateGuestAttendance_isolated.
  by eapply bool_decide_eq_true.
Qed.

(** A successful entry: which guest it is about and what it wrote. *)
Lemma submit_additional_ok i rid now assigned additional st n input w st' w' :
  submit_additional i rid now assigned additional st (n, input) w = (Ok st', w') ->
  exists gid w1 w2, w_db w1 = w_db w /\
    updateGuestAttendance rid gid input.(ag_Attendance) now w2 = (Ok tt, w') /\
    st'.(ls_kept) = {[gid]} ∪ st.(ls_kept) /\
    ((input.(ag_ID) = "" /\
      insert_guest gid (guest_row i (trim_space input.(ag_Name)) "additional"
                          (Z.of_nat (size assigned) + Z.of_nat n) now) (w_db w) = Some (w_db w2)) \/
     (input.(ag_ID) = gid /\ gid ∈ additional /\
      update_active_guest "rename additional guest" gid i "additional"
        (rename_guest_row (trim_space input.(ag_Name)) now) w1 = (Ok tt, w2))).
Proof.
  unfold submit_additional. intros H.
  do 3 (apply bind_ok in H as (? & ? & H1 & H); apply require_ok in H1 as [_ <-]).
  apply bind_ok in H as ([gid st1] & w2 & H1 & H).
  apply bind_ok in H as ([] & w3 & H2 & H). apply ret_ok in H as [<- <-].
  destruct (bool_decide (ag_ID input = "")) eqn:Hb.
  - apply bool_decide_eq_true in Hb. unfold create_additional in H1.
    apply bind_ok in H1 as (? & w4 & H3 & H1).
    assert (w4 = w) as ->.
    { destruct (bool_decide _); [by apply ret_ok in H3 as [_ <-]|].
      apply bind_ok in H3 as (? & ? & H4 & H3). apply require_ok in H4 as [_ <-].
      by apply require_ok in H3 as [_ <-]. }
    apply bind_ok in H1 as (g & w5 & H4 & H1). apply new_uuid_ok in H4 as (_ & D4 & _).
    apply bind_ok in H1 as ([] & w6 & H5 & H1). apply ret_ok in H1 as [[= -> <-] <-].
    apply exec_ok in H5 as [H5 _]. rewrite D4 in H5. exists gid, w, w6. split_and!; eauto.
  - unfold keep_additional in H1.
    apply bind_ok in H1 as (? & ? & H3 & H1). apply require_ok in H3 as [_ <-].
    apply bind_ok in H1 as (? & ? & H3 & H1). apply require_ok in H3 as [Hin <-].
    apply bind_ok in H1 as ([] & w5 & H4 & H1). apply ret_ok in H1 as [[= <- <-] <-].
    apply bool_decide_eq_true in Hin. exists (ag_ID input), w, w5. split_and!; eauto.
Qed.

Lemma submit_additional_isolated i rid now assigned additional st x :
  ok_respects (isolated_given additional i) (submit_additional i rid now assigned additional st x).
Proof.
  destruct x as [n input]. intros w st' w' H Hgs.
  apply submit_additional_ok in H as (gid & w1 & w2 & D1 & Ha & _ & Hcase).
  assert (isolated i (w_db w) (w_db w2) /\ guest_of i (w_db w2) gid) as [Hiso Hgid].
  { destruct Hcase as [[_ Hi]|(_ & Hin & Hu)].
    - by apply insert_guest_isolated in Hi.
    - pose proof (update_active_guest_isolated "rename additional guest" gid i "additional"
        (rename_guest_row (trim_space (ag_Name input)) now)) as Hiso.
      specialize (Hiso ltac:(done) w1). rewrite Hu in Hiso. simpl in Hiso. rewrite D1 in Hiso.
      split; [done|]. apply (is_guest _ _ _ Hiso). auto. }
  etrans; [exact Hiso|].
  pose proof (updateGuestAttendance_isolated {[gid]} rid gid (ag_Attendance input) now i) as Hup.
  specialize (Hup ltac:(set_solver) w2). rewrite Ha in Hup. apply Hup. set_solver.
Qed.

Lemma remove_unkept_isolated i now additional kept :
  respects (isolated i) (remove_unkept i now additional kept).
Proof. unfold remove_unkept. respect. by apply update_active_guest_isolated. Qed.

Lemma replaceAnswers_isolated i gs req now :
  respects (isolated_given (guest_ids gs) i) (replaceAnswers i gs req now).
Proof.
  unfold replaceAnswers. respect.
  - intros [= <-] _. isolate. apply agree_on_delete_where. intros k r Hb.
    apply bool_decide_eq_true in Hb. tauto.
  - unfold insert_inv_answer. intros Hins _. insert_cases Hins. isolate.
    apply agree_on_insert; [simpl; tauto|]. by rewrite has_false by done.
  - intros [= <-] Hgs. isolate. apply agree_on_delete_where. intros k r Hb.
    apply bool_decide_eq_true in Hb. intros Hn. apply Hn. rewrite Hb. apply Hgs.
    unfold guest_ids. apply elem_of_list_to_set, list_elem_of_fmap. eauto.
  - unfold insert_guest_answer. intros Hins Hgs. insert_cases Hins. isolate.
    apply agree_on_insert; [|by rewrite has_false by done].
    simpl. intros Hn. apply Hn, Hgs. by eapply bool_decide_eq_true.
Qed.

(** *** The body as a whole *)

Lemma mapM_of_res_ok {A B} (f : A -> res B) l w ys w' :
  mapM (fun x => of_res (f x)) l w = (Ok ys, w') -> w' = w /\ Forall2 (fun x y => f x = Ok y) l ys.
Proof.
  revert w ys w'. induction l as [|x l IH]; intros w ys w' H; simpl in H.
  - apply ret_ok in H as [<- <-]. auto.
  - apply bind_ok in H as (y & ? & H1 & H). apply of_res_ok in H1 as [Hf <-].
    apply bind_ok in H as (r & ? & H2 & H). apply IH in H2 as [-> HF].
    apply ret_ok in H as [<- <-]. auto.
Qed.

(** The loaded guests are the active guests of the household. *)
Definition loaded (i : string) (d : Database) (gs : list Guest) : Prop :=
  (forall g, g ∈ gs -> exists row, d.(guests) !! g.(guest_ID) = Some row /\
     active_in i g.(guest_ID) row = true /\ g.(guest_Origin) = row.(g_origin)) /\
  (forall id row, d.(guests) !! id = Some row -> active_in i id row = true ->
     exists g, g ∈ gs /\ g.(guest_ID) = id /\ g.(guest_Origin) = row.(g_origin) /\
               g.(guest_Attendance) = attendance_of d id).

Lemma scanGuest_Ok k r a g : scanGuest k r a = Ok g -> guest_ID g = k /\ guest_Origin g = g_origin r /\ guest_Attendance g = a.
Proof. unfold scanGuest, res_bind. repeat case_match; try done. by intros [= <-]. Qed.

Lemma loadActiveGuestsTx_ok i w gs w' :
  loadActiveGuestsTx i w = (Ok gs, w') -> w_db w' = w_db w /\ loaded i (w_db w) gs.
Proof.
  unfold loadActiveGuestsTx. intros H. apply bind_ok in H as (rows & w1 & H1 & H).
  apply query_ok in H1 as (-> & D1 & _). unfold scanGuests in H.
  assert (exists w2, mapM (fun x : string * GuestRow * string => of_res (scanGuest x.1.1 x.1.2 x.2))
            (active_guest_rows i (w_db w)) w1 = (Ok gs, w2) /\ w2 = w') as (w2 & H2 & ->).
  { exists w'. split; [|done]. rewrite <- H. clear H. generalize w1.
    induction (active_guest_rows i (w_db w)) as [|[[k r] a] l IH]; intros w0; simpl; [done|].
    unfold bind. simpl. destruct (scanGuest k r a); [|done]. simpl. by rewrite IH. }
  apply mapM_of_res_ok in H2 as [-> HF]. split; [done|]. clear H.
  unfold active_guest_rows in HF. rewrite Forall2_fmap_l in HF. split.
  - intros g Hg. destruct (Forall2_elem_r _ _ _ _ HF Hg) as ([k r] & Hkr & Hs).
    apply elem_of_select in Hkr as [Hk Ha]. apply scanGuest_Ok in Hs as (-> & -> & _). eauto.
  - intros id row Hid Ha. assert ((id, row) ∈ select (active_in i) (guests (w_db w))) as Hin.
    { by apply elem_of_select. }
    destruct (Forall2_elem_l _ _ _ _ HF Hin) as (g & Hg & Hs). apply scanGuest_Ok in Hs as (? & ? & ?). eauto 6.
Qed.

Lemma loaded_guest_of i d gs g : loaded i d gs -> g ∈ guest_ids gs -> guest_of i d g.
Proof.
  intros [H _] (x & -> & Hx)%elem_of_list_to_set%list_elem_of_fmap.
  destruct (H _ Hx) as (row & Hr & Ha & _). unfold active_in in Ha. split_guards.
  exists row. split; [done|]. by eapply bool_decide_eq_true.
Qed.
Lemma ids_with_origin_subset b gs : ids_with_origin b gs ⊆ guest_ids gs.
Proof.
  unfold ids_with_origin, guest_ids. intros x Hx.
  rewrite elem_of_list_to_set, list_elem_of_fmap in Hx |- *.
  destruct Hx as (g & -> & [_ Hg]%list_elem_of_filter). eauto.
Qed.

(** A successful submission, step by step. *)
Inductive submit_run (i : string) (req : SubmitRequest) (w w' : World) : Prop :=
| SubmitRun (now : string) (inv : InvitationRow) (rid : string) (r : ResponseRow)
    (existing active : list Guest) (questions : list Question) (st : LoopState)
    (w1 w2 w3 w4 w5 w6 w7 : World)
    (run_inv : invitations (w_db w) !! i = Some inv)
    (run_live : inv.(i_revoked_at) = None)
    (run_allow : Z.of_nat (length req.(sr_AdditionalGuests)) <= inv.(i_allowance))
    (run_w1 : w_db w1 = w_db w)
    (run_version : advance_version i req.(sr_Version) now w1 = (Ok 1, w2))
    (run_rid : findResponse i (w_db w2) = Some (rid, r))
    (run_w3 : w_db w3 = w_db w2)
    (run_existing : loaded i (w_db w2) existing)
    (run_assigned : forM req.(sr_AssignedGuests)
       (submit_assigned rid now (ids_with_origin true existing)) w3 = (Ok tt, w4))
    (run_additional : foldM (submit_additional i rid now (ids_with_origin true existing)
         (ids_with_origin false existing)) (MkLoop ∅ ∅ req.(sr_GuestAnswers))
       (imap pair req.(sr_AdditionalGuests)) w4 = (Ok st, w5))
    (run_remove : remove_unkept i now (ids_with_origin false existing) st.(ls_kept) w5 = (Ok tt, w6))
    (run_active : loaded i (w_db w6) active)
    (run_w7 : w_db w7 = w_db w6)
    (run_questions : exists wq, loadQuestionsTx inv.(i_event_id) wq = (Ok questions, w7) /\ w_db wq = w_db w6)
    (run_valid : validateResponseAnswers questions active
                   (set_guest_answers_req req st.(ls_answers)) = Ok tt)
    (run_answers : replaceAnswers i active (set_guest_answers_req req st.(ls_answers)) now w7
                   = (Ok tt, w')).

Lemma loadQuestionsTx_reads e : reads (loadQuestionsTx e).
Proof. unfold loadQuestionsTx. respect. Qed.

Lemma submit_body_ok i req w u w' : submit_body i req w = (Ok u, w') -> submit_run i req w w'.
Proof.
  unfold submit_body. intros H. destruct u.
  apply bind_ok in H as (t & w1 & H1 & H). apply now_ok in H1 as (_ & D1 & _). cbv zeta in H.
  apply bind_ok in H as (locked & w2 & H2 & H). apply query_ok in H2 as (-> & D2 & _).
  apply bind_ok in H as (? & ? & H3 & H). apply require_ok in H3 as [Hlock <-].
  apply bind_ok in H as (row & w3 & H3 & H). apply query_ok in H3 as (-> & D3 & _).
  apply bind_ok in H as (inv & ? & H4 & H). apply of_option_ok in H4 as [Hinv <-].
  apply bind_ok in H as (? & ? & H4 & H). apply require_ok in H4 as [Hallow <-].
  apply bind_ok in H as (n & w4 & H4 & H).
  apply bind_ok in H as (? & ? & H5 & H). apply require_ok in H5 as [Hn <-].
  apply bind_ok in H as (rrow & w5 & H5 & H). apply query_ok in H5 as (-> & D5 & _).
  apply bind_ok in H as ([rid r] & ? & H6 & H). apply of_option_ok in H6 as [Hrid <-].
  cbn [fst] in H. apply bind_ok in H as (existing & w6 & H6 & H).
  apply loadActiveGuestsTx_ok in H6 as [D6 Hex].
  apply bind_ok in H as ([] & w7 & H7 & H). apply bind_ok in H as (st & w8 & H8 & H).
  apply bind_ok in H as ([] & w9 & H9 & H). apply bind_ok in H as (active & w10 & H10 & H).
  apply loadActiveGuestsTx_ok in H10 as [D10 Hact].
  apply bind_ok in H as (questions & w11 & H11 & H).
  pose proof (loadQuestionsTx_reads (i_event_id inv) w10) as D11. rewrite H11 in D11.
  unfold same_db in D11. simpl in D11.
  apply bind_ok in H as ([] & ? & H12 & H). apply of_res_ok in H12 as [Hval <-].
  rewrite D2, D1 in Hinv. rewrite D1 in Hlock. rewrite Hinv in Hlock.
  assert (n = 1) as -> by lia. rewrite D5 in Hex.
  eapply (SubmitRun i req w w' (format_nano t) inv rid r existing active questions st
            w3 w4 w6 w7 w8 w9 w11); eauto; try congruence.
  - by apply is_null_true.
  - lia.
Qed.

(** Submitting for one household leaves every other household alone. *)
Lemma SubmitResponse_isolated i req : respects (isolated i) (SubmitResponse i req).
Proof.
  unfold SubmitResponse. respect1. intros w u w' []%submit_body_ok.
  assert (forall g, g ∈ ids_with_origin true existing ∪ ids_with_origin false existing ->
                    guest_of i (w_db w2) g) as Hall.
  { intros g Hg. eapply loaded_guest_of; [done|].
    pose proof (ids_with_origin_subset true existing).
    pose proof (ids_with_origin_subset false existing). set_solver. }
  assert (isolated i (w_db w) (w_db w3)) as I3.
  { rewrite run_w3, <- run_w1. pose proof (advance_version_isolated i (sr_Version req) now w1) as Ha.
    by rewrite run_version in Ha. }
  assert (isolated i (w_db w3) (w_db w4)) as I4.
  { apply (ok_respects_forM (isolated_given (ids_with_origin true existing) i)) in run_assigned.
    - apply run_assigned. rewrite run_w3. set_solver.
    - intros x _. apply respects_ok, submit_assigned_isolated. }
  assert (isolated i (w_db w4) (w_db w5)) as I5.
  { apply (ok_respects_foldM (isolated_given (ids_with_origin false existing) i)) in run_additional.
    - apply run_additional. intros g Hg. apply (is_guest _ _ _ I4). rewrite run_w3. set_solver.
    - intros s x _. apply submit_additional_isolated. }
  assert (isolated i (w_db w5) (w_db w7)) as I7.
  { rewrite run_w7. pose proof (remove_unkept_isolated i now (ids_with_origin false existing) (ls_kept st) w5) as Hr.
    by rewrite run_remove in Hr. }
  assert (isolated i (w_db w7) (w_db w')) as I8.
  { pose proof (replaceAnswers_isolated i active (set_guest_answers_req req (ls_answers st)) now w7) as Hr.
    rewrite run_answers in Hr. apply Hr. rewrite run_w7. intros g. by apply loaded_guest_of. }
  etrans; [exact I3|]. etrans; [exact I4|]. etrans; [exact I5|]. by etrans.
Qed.

(** ** Versions *)

Definition same_responses (d d' : Database) : Prop := d'.(rsvp_responses) = d.(rsvp_responses).
#[local] Instance same_responses_preorder : PreOrder same_responses.
Proof. split; unfold same_responses; [by intros ?|congruence]. Qed.

Lemma updateGuestAttendance_responses r g a n : respects same_responses (updateGuestAttendance r g a n).
Proof.
  unfold updateGuestAttendance. respect. unfold upsert_guest_response, insert_guest_response.
  destruct (select_row _ _) as [[k old]|]; intros H; by insert_cases H.
Qed.
Lemma update_active_guest_responses ctx g i o f :
  respects same_responses (update_active_guest ctx g i o f).
Proof. unfold update_active_guest. respect. by intros [= <-]. Qed.
Lemma insert_guest_responses gid row d d' : insert_guest gid row d = Some d' -> same_responses d d'.
Proof. unfold insert_guest. intros H. by insert_cases H. Qed.
Lemma replaceAnswers_responses i gs req now : respects same_responses (replaceAnswers i gs req now).
Proof.
  unfold replaceAnswers, insert_inv_answer, insert_guest_answer.
  respect; intros Hs; first [by simplify_eq | by insert_cases Hs].
Qed.
Hint Resolve updateGuestAttendance_responses update_active_guest_responses insert_guest_responses
  replaceAnswers_responses : respects.

(** After the version is advanced the responses table stays. *)
Lemma submit_run_responses i req w' now rid existing active st w3 w4 w5 w6 w7 :
  forM req.(sr_AssignedGuests) (submit_assigned rid now (ids_with_origin true existing)) w3 = (Ok tt, w4) ->
  foldM (submit_additional i rid now (ids_with_origin true existing) (ids_with_origin false existing))
    (MkLoop ∅ ∅ req.(sr_GuestAnswers)) (imap pair req.(sr_AdditionalGuests)) w4 = (Ok st, w5) ->
  remove_unkept i now (ids_with_origin false existing) st.(ls_kept) w5 = (Ok tt, w6) ->
  w_db w7 = w_db w6 ->
  replaceAnswers i active (set_guest_answers_req req st.(ls_answers)) now w7 = (Ok tt, w') ->
  same_responses (w_db w3) (w_db w').
Proof.
  intros H1 H2 H3 D H4.
  assert (same_responses (w_db w3) (w_db w4)) as S1.
  { eapply (respects_ok same_responses); [|exact H1]. unfold submit_assigned. respect. }
  assert (same_responses (w_db w4) (w_db w5)) as S2.
  { eapply (respects_ok same_responses); [|exact H2].
    unfold submit_additional, create_additional, keep_additional. respect. }
  assert (same_responses (w_db w5) (w_db w6)) as S3.
  { eapply (respects_ok same_responses); [|exact H3]. unfold remove_unkept. respect. }
  assert (same_responses (w_db w7) (w_db w')) as S4.
  { eapply (respects_ok same_responses); [|exact H4]. respect. }
  rewrite D in S4. etrans; [exact S1|]. etrans; [exact S2|]. by etrans.
Qed.

Lemma count_none {R} (P : string -> R -> bool) (t : gmap string R) :
  (forall k r, t !! k = Some r -> P k r = false) -> count P t = 0.
Proof.
  intros H. unfold count. destruct (select P t) as [|[k r] l] eqn:Es; [done|].
  assert ((k, r) ∈ select P t) as [Hk HP]%elem_of_select by (rewrite Es; constructor).
  by rewrite (H _ _ Hk) in HP.
Qed.
Lemma count_one_select {R} (P : string -> R -> bool) (t : gmap string R) :
  count P t = 1 -> exists k r, t !! k = Some r /\ P k r = true.
Proof.
  unfold count. intros H. destruct (select P t) as [|[k r] l] eqn:Es; simpl in H; [lia|].
  exists k, r. apply elem_of_select. rewrite Es. constructor.
Qed.

Lemma SubmitResponse_ok_version i req w u w' :
  SubmitResponse i req w = (Ok u, w') ->
  exists k r now, rsvp_responses (w_db w) !! k = Some r /\ r.(r_invitation_id) = i /\
    r.(r_version) = req.(sr_Version) /\
    rsvp_responses (w_db w') !! k = Some (bump_response_row now r).
Proof.
  unfold SubmitResponse. intros (wa & wb & H & Da & Db & _)%with_tx_ok.
  apply submit_body_ok in H as []. unfold advance_version in run_version.
  apply stmt_ok in run_version as ([= Hc Hd] & _). apply count_one_select in Hc as (k & r0 & Hk & Hm).
  rewrite run_w1, Da in Hk. exists k, r0, now. pose proof Hm as Hm'. unfold version_matches in Hm.
  split_guards. split_and!; [done|by eapply bool_decide_eq_true|lia|].
  assert (same_responses (w_db w3) (w_db wb)) as Hs by (by eapply submit_run_responses).
  rewrite Db, Hs, run_w3, <- Hd. simpl. rewrite lookup_update_where, run_w1, Da, Hk. simpl.
  by rewrite Hm'.
Qed.
End submission.

Section theorems.
Context `{E : Env}.

(** [C5] Optimistic locking of a household's response: a submission that
    succeeds found the version it was made for, advances it by exactly one and
    records the first submission time; and from then on, whatever happens in
    between, every submission made for that version or an older one fails and
    writes nothing.  So of several submissions made from the same page at most
    one takes effect. *)
Theorem submission_versions i req w u w1 :
  Integrity (w_db w) -> SubmitResponse i req w = (Ok u, w1) ->
  (exists k r r', rsvp_responses (w_db w) !! k = Some r /\ r_invitation_id r = i /\
     r_version r = sr_Version req /\ rsvp_responses (w_db w1) !! k = Some r' /\
     r_version r' = r_version r + 1 /\ r_submitted_at r' <> None) /\
  (forall ops req2, sr_Version req2 <= sr_Version req ->
     let w2 := run_ops ops w1 in
     exists e w3, SubmitResponse i req2 w2 = (Err e, w3) /\ w_db w3 = w_db w2).
Proof.
  intros HI Hs. pose proof (SubmitResponse_ok_version _ _ _ _ _ Hs) as (k & r & now & Hk & Hi & Hv & Hk').
  split; [by exists k, r, (bump_response_row now r)|]. intros ops req2 Hv2 w2.
  destruct (SubmitResponse i req2 w2) as [[u2|e] w3] eqn:H2.
  - apply SubmitResponse_ok_version in H2 as (k2 & r2 & now2 & Hk2 & Hi2 & Hv3 & _).
    destruct (ev_responses _ _ (run_evolves ops w1) _ _ Hk') as (r3 & Hk3 & Hi3 & Hle & _).
    assert (Integrity (w_db w1)) as HI1.
    { pose proof (SubmitResponse_integrity i req w HI) as H. by rewrite Hs in H. }
    assert (k2 = k) as ->.
    { eapply (in_response _ (run_integrity ops w1 HI1)); [done..|]. rewrite <- Hi3. simpl. congruence. }
    unfold w2 in Hk2. simplify_eq. simpl in Hle. lia.
  - exists e, w3. split; [done|]. by eapply with_tx_err.
Qed.

(** A stale submission to a live household, without driver faults and
    within the allowance, is answered with [ErrConflict] and changes nothing. *)
Theorem stale_submission_conflicts i req w inv :
  w_faults w = [] -> invitations (w_db w) !! i = Some inv -> i_revoked_at inv = None ->
  Z.of_nat (length (sr_AdditionalGuests req)) <= i_allowance inv ->
  (forall k r, rsvp_responses (w_db w) !! k = Some r -> r_invitation_id r = i ->
     r_version r <> sr_Version req) ->
  exists w', SubmitResponse i req w = (Err ErrConflict, w') /\ w_db w' = w_db w.
Proof.
  intros Hf Hinv Hlive Hallow Hstale.
  unfold SubmitResponse. eexists. split; [|shelve].
  apply with_tx_fails; [done|]. unfold submit_body.
  erewrite bind_run by apply now_run. cbv zeta. set (w1 := tick w).
  assert (w_faults w1 = []) as F1 by done.
  erewrite bind_run by (by apply query_run). change (w_db w1) with (w_db w). rewrite Hinv.
  unfold is_null at 1. rewrite bool_decide_eq_true_2 by done.
  erewrite bind_run by done. erewrite bind_run by (by apply query_run).
  change (w_db w1) with (w_db w). rewrite Hinv.
  erewrite bind_run by done. destruct (Z.leb_spec (Z.of_nat (length (sr_AdditionalGuests req))) (i_allowance inv)); [|lia].
  erewrite bind_run by done. unfold advance_version.
  erewrite bind_run by (by apply stmt_run). rewrite count_none.
  { by erewrite bind_fails by done. }
  intros k r Hk. unfold version_matches. change (w_db w1) with (w_db w) in Hk.
  destruct (bool_decide_reflect (r_invitation_id r = i)); [|done]. simpl.
  apply Z.eqb_neq. eauto.
  Unshelve. done.
Qed.

(** [C3] Isolation: a submission for one household, with any request and any
    faults, leaves every row of every other household (guests, responses, guest
    responses, answers) as it was, adds none to them, and changes no invitation,
    session, token, enrollment, message or event data. *)
Theorem submission_isolated i req w :
  isolated i (w_db w) (w_db (SubmitResponse i req w).2).
Proof. apply SubmitResponse_isolated. Qed.
End theorems.

Definition demo_request (version : Z) : SubmitRequest :=
  MkSubmit version [MkAttendance "jane" "attending"] [MkAdditional "" "k1" "Bob" "maybe"]
    {["q" := "Dancing Queen"]} ∅.

Lemma submission_versions_witness :
  exists u w1, SubmitResponse (E := demo_env) "inv" (demo_request 1) demo_world = (Ok u, w1) /\
    exists e w3, SubmitResponse (E := demo_env) "inv" (demo_request 1) w1 = (Err e, w3) /\ w_db w3 = w_db w1.
Proof.
  destruct (SubmitResponse (E := demo_env) "inv" (demo_request 1) demo_world) as [[u|x] w1] eqn:H;
    [|vm_compute in H; discriminate H].
  exists u, w1. split; [done|].
  destruct (submission_versions (E := demo_env) "inv" (demo_request 1) demo_world u w1) as [_ R];
    [apply demo_sound|exact H|].
  apply (R [] (demo_request 1)). reflexivity.
Defined.

Lemma stale_submission_conflicts_witness :
  exists w', SubmitResponse (E := demo_env) "inv" (demo_request 7) demo_world = (Err ErrConflict, w') /\
    w_db w' = w_db demo_world.
Proof.
  apply (stale_submission_conflicts (E := demo_env) "inv" (demo_request 7) demo_world demo_invitation).
  - reflexivity.
  - reflexivity.
  - reflexivity.
  - vm_compute. discriminate.
  - intros k r. simpl. rewrite lookup_singleton_Some. intros [_ <-] _. discriminate.
Defined.
