(* ===== verification/Sessions.v ===== *)
(** * Theorems on guest sessions

    [household_of] is what a household looks like in a database; loading it, in a
    run without driver faults, returns exactly that.  With it: which sessions are
    accepted, and that a household's link opens the household. *)

From S2P Require Import Prelude.
From S2P Require Import GoStr.
From S2P Require Import GoTime.
From S2P Require Import Schema.
From S2P Require Import Eff.
From S2P Require Import Respect.
From S2P Require Import Demo.
From S2P Require Import Tables.
From S2P Require Import Capability.
From S2P Require Import InvModel.
From S2P Require Import InvStore.
From S2P Require Import History.
From S2P Require Import Integrity.
From S2P Require Import InvCsv.
From S2P Require Import InvService.
From S2P Require Import System.

Local Open Scope Z_scope.

Fixpoint mapR {A B} (f : A -> res B) (l : list A) : res (list B) :=
  match l with [] => Ok [] | x :: t => y <-r f x ;; r <-r mapR f t ;; Ok (y :: r) end.

Section view.
Context `{E : Env}.

(** ** The household as a function of the database *)

Definition household_of (d : Database) (i : string) : res Household :=
  o <-r scanInvitation (by_id i d.(invitations)) ;;
  match o with
  | None => Err ErrNotFound
  | Some inv =>
      event <-r scanEventSummary (by_id inv.(EventID) d.(events)) ;;
      response <-r match findResponse i d with
                   | None => Ok None
                   | Some (k, r) => x <-r scanResponse k r ;; Ok (Some x)
                   end ;;
      gs <-r mapR (fun '(k, r, a) => scanGuest k r a)
               (order_by (fun a b => guest_le a.1 b.1) (active_guest_rows i d)) ;;
      questions <-r mapR (scanQuestion "parse question options")
                      (order_by question_le
                         (select (live_question inv.(EventID)) d.(event_questions))) ;;
      Ok (MkHousehold inv event response gs questions
            ((fun kr => MkAnswer kr.2.(ia_question_id) kr.2.(ia_answer)) <$>
               select (fun _ a => bool_decide (a.(ia_invitation_id) = i)) d.(invitation_answers))
            ((fun kr => MkGuestAnswer kr.2.(ga_guest_id) kr.2.(ga_question_id) kr.2.(ga_answer)) <$>
               select (fun _ a => match d.(guests) !! a.(ga_guest_id) with
                                  | Some g => active_in i a.(ga_guest_id) g
                                  | None => false end) d.(guest_answers))
            (Some (match select_row (fun _ r => bool_decide (r.(c_event_id) = inv.(EventID)))
                           d.(invite_cards) with
                   | None => defaultGuestPresentation
                   | Some (_, c) => presentation_of_card c
                   end)) None)
  end.

Lemma mapM_of_res {A B} (f : A -> res B) l w : mapM (fun x => of_res (f x)) l w = (mapR f l, w).
Proof.
  induction l as [|x l IH]; simpl; [done|]. unfold bind, of_res at 1. destruct (f x); simpl; [|done].
  rewrite IH. by destruct (mapR f l).
Qed.
Lemma scanGuests_run rows w :
  scanGuests rows w = (mapR (fun '(k, r, a) => scanGuest k r a) rows, w).
Proof.
  unfold scanGuests. induction rows as [|[[k r] a] l IH]; simpl; [done|].
  unfold bind, of_res at 1. destruct (scanGuest k r a); simpl; [|done].
  rewrite IH. by destruct (mapR _ l).
Qed.

(** A query followed by a parse. *)
Lemma query_of_res {A B} ctx (f : Database -> A) (g : A -> res B) w :
  w_faults w = [] -> bind (query ctx f) (fun x => of_res (g x)) w = (g (f (w_db w)), w).
Proof. intros Hf. by erewrite bind_run by (by apply query_run). Qed.
(** A parsed value and what uses it. *)
Lemma bind_res {A B} (m : M A) (r : res A) (f : A -> M B) w :
  m w = (r, w) -> bind m f w = match r with Ok a => f a w | Err e => (Err e, w) end.
Proof. unfold bind. intros ->. by destruct r. Qed.

(** Loading a household reads exactly [household_of]. *)
Lemma LoadHousehold_run i w :
  w_faults w = [] -> LoadHousehold i w = (household_of (w_db w) i, w).
Proof.
  intros Hf. unfold LoadHousehold, household_of.
  erewrite bind_res by (by apply query_of_res).
  destruct (scanInvitation _) as [[inv|]|]; simpl; [|done..].
  erewrite bind_run by done. erewrite bind_res by (by apply query_of_res).
  destruct (scanEventSummary _) as [event|]; simpl; [|done].
  erewrite bind_run by (by apply query_run).
  erewrite bind_res by done.
  destruct (match findResponse i (w_db w) with Some _ => _ | None => _ end) as [resp|]; simpl; [|done].
  erewrite bind_res.
  2: { unfold listGuests. erewrite bind_run by (by apply query_run). apply scanGuests_run. }
  destruct (mapR _ (order_by _ (active_guest_rows _ _))) as [gs|]; simpl; [|done].
  erewrite bind_res.
  2: { unfold listQuestions. erewrite bind_run by (by apply query_run). apply mapM_of_res. }
  destruct (mapR _ (order_by question_le _)) as [qs|]; simpl; [|done].
  erewrite bind_run.
  2: { unfold listAnswers. erewrite bind_run by (by apply query_run).
       by erewrite bind_run by (by apply query_run). }
  cbv beta iota. erewrite bind_run; [reflexivity|]. unfold loadGuestPresentation.
  by erewrite bind_run by (by apply query_run).
Qed.

(** Sessions are not part of what a household shows. *)
Lemma household_of_sessions f d i : household_of (set_invitation_sessions f d) i = household_of d i.
Proof. done. Qed.

Lemma household_of_invitation d i h :
  household_of d i = Ok h ->
  exists r, d.(invitations) !! i = Some r /\ parseInvitation i r = Ok h.(h_Invitation).
Proof.
  unfold household_of, by_id. destruct (invitations d !! i) as [r|] eqn:Hr; simpl; [|done].
  destruct (parseInvitation i r) as [inv|] eqn:Hp; simpl; [|done].
  unfold res_bind. repeat (case_match; try done). all: intros [= <-]; eauto.
Qed.

(** ** Accepting a session *)

(** The session row is found. *)
Lemma session_invitation_found hash now d k s r :
  Integrity d -> d.(invitation_sessions) !! k = Some s -> s.(s_token_hash) = hash ->
  str_lt now s.(s_expires_at) = true -> s.(s_revoked_at) = None ->
  d.(invitations) !! s.(s_invitation_id) = Some r -> r.(i_revoked_at) = None ->
  s.(s_issued_version) = r.(i_token_version) ->
  session_invitation hash now d = Some (s.(s_invitation_id), r).
Proof.
  intros HI Hk Hh Ht Hn Hr Hrn Hv. unfold session_invitation.
  rewrite (select_row_unique _ _ k s); [simpl; unfold by_id; by rewrite Hr|done|..].
  - unfold session_matches, is_null. rewrite Hr, Hh, Ht, Hn, Hrn, Hv, Z.eqb_refl.
    by rewrite !bool_decide_eq_true_2.
  - intros k' s' Hk' Hm. unfold session_matches in Hm. split_guards.
    eapply (in_session _ HI); [done..|]. transitivity hash; [|done].
    by eapply bool_decide_eq_true.
Qed.

(** Reading the clock and finding the session, without faults. *)
Lemma InvitationForSession_run hash w id r inv :
  w_faults w = [] ->
  session_invitation hash (format_nano (clock (w_clock w))) (w_db w) = Some (id, r) ->
  parseInvitation id r = Ok inv ->
  exists w', InvitationForSession hash w = (Ok (Some inv), w') /\ w_faults w' = [] /\
    exists f, w_db w' = set_invitation_sessions f (w_db w).
Proof.
  intros Hf Hs Hp. unfold InvitationForSession.
  erewrite bind_run by apply now_run. cbv zeta.
  erewrite bind_run by (by apply query_run). change (w_db (tick w)) with (w_db w). rewrite Hs.
  unfold bind, of_res at 1. simpl scanInvitation. rewrite Hp. simpl.
  unfold ignore_err. erewrite exec_run by done. simpl. eexists. split; [done|]. split; [done|]. eauto.
Qed.
Lemma HouseholdForSession_run raw w id r inv h :
  w_faults w = [] -> raw <> "" ->
  session_invitation (hashToken raw) (format_nano (clock (w_clock w))) (w_db w) = Some (id, r) ->
  parseInvitation id r = Ok inv -> household_of (w_db w) id = Ok h ->
  exists w', HouseholdForSession raw w = (Ok h, w').
Proof.
  intros Hf Hne Hs Hp Hh.
  destruct (InvitationForSession_run _ _ _ _ _ Hf Hs Hp) as (w1 & H1 & F1 & f & D1).
  exists w1. unfold HouseholdForSession. rewrite bool_decide_eq_false_2 by done.
  erewrite bind_run by done. erewrite bind_run by done. erewrite bind_run by done.
  apply parseInvitation_Ok in Hp as [-> _].
  by rewrite LoadHousehold_run, D1, household_of_sessions, Hh by done.
Qed.

(** ** Opening a session *)

Lemma FindByAccessID_run w i r :
  Integrity (w_db w) -> w_faults w = [] -> invitations (w_db w) !! i = Some r ->
  FindByAccessID r.(i_access_id) w = (scanInvitation (Some (i, r)), w).
Proof.
  intros HI Hf Hr. unfold FindByAccessID. rewrite query_of_res by done.
  rewrite (select_row_unique _ _ i r); [done..| |].
  - by rewrite bool_decide_eq_true_2.
  - intros k' r' Hk' Hb%bool_decide_eq_true. by eapply (in_access _ HI).
Qed.

Lemma CreateSession_run i hash v x w :
  w_faults w = [] -> is_Some (invitations (w_db w) !! i) -> 0 < v ->
  invitation_sessions (w_db w) !! uuid_v7 (w_uuids w) = None ->
  (forall k s, invitation_sessions (w_db w) !! k = Some s -> s_token_hash s <> hash) ->
  exists w' t, CreateSession i hash v x w = (Ok (), w') /\ w_faults w' = [] /\
    w_db w' = set_invitation_sessions <[uuid_v7 (w_uuids w) := session_row i hash v x t]> (w_db w).
Proof.
  intros Hf Hi Hv Hu Hh. unfold CreateSession.
  erewrite bind_run by apply now_run. unfold bind, new_uuid. simpl.
  erewrite exec_run; [|done|].
  - eexists _, _. split; [reflexivity|]. split; [done|]. reflexivity.
  - unfold insert_session. simpl.
    rewrite (proj2 (has_spec i (invitations (w_db w)))) by done.
    rewrite (proj2 (unique_spec s_token_hash hash (invitation_sessions (w_db w)))) by done.
    destruct (has (uuid_v7 (w_uuids w)) (invitation_sessions (w_db w))) eqn:Eh.
    { apply has_spec in Eh. rewrite Hu in Eh. by destruct Eh. }
    by destruct (Z.ltb_spec 0 v); [|lia].
Qed.

Lemma base64_nonempty b : b <> "" -> base64_raw_url b <> "".
Proof.
  intros Hb H. apply (f_equal to_bytes) in H. unfold base64_raw_url in H. rewrite to_of_bytes in H.
  destruct (to_bytes b) as [|x [|y [|z t]]] eqn:Eb; [|done..].
  apply Hb. by apply to_bytes_inj.
Qed.
End view.

Section theorems.
Context `{E : Env}.

(** [C6] Which sessions are accepted.  An accepted session token has a stored
    session that is not revoked, of the current version of an invitation that is
    not revoked, and less than a second past its expiry at most; conversely,
    without faults, a stored session of that kind with at least a second left is
    accepted and gives its invitation.  (The second is what the comparison of
    RFC 3339 texts costs.) *)
Theorem session_acceptance hash w :
  (forall inv w', InvitationForSession hash w = (Ok (Some inv), w') ->
     exists k s r, invitation_sessions (w_db w) !! k = Some s /\ s_token_hash s = hash /\
       s_revoked_at s = None /\ s_invitation_id s = ID inv /\
       invitations (w_db w) !! ID inv = Some r /\ i_revoked_at r = None /\
       s_issued_version s = i_token_version r /\
       (forall x, s_expires_at s = format_nano x -> time_ok x = true ->
          time_ok (clock (w_clock w)) = true -> clock (w_clock w) < x + ns_per_sec)) /\
  (forall k s r inv x, Integrity (w_db w) -> w_faults w = [] ->
     invitation_sessions (w_db w) !! k = Some s -> s_token_hash s = hash -> s_revoked_at s = None ->
     invitations (w_db w) !! s_invitation_id s = Some r -> i_revoked_at r = None ->
     s_issued_version s = i_token_version r -> parseInvitation (s_invitation_id s) r = Ok inv ->
     s_expires_at s = format_nano x -> time_ok x = true -> time_ok (clock (w_clock w)) = true ->
     clock (w_clock w) + ns_per_sec <= x ->
     exists w', InvitationForSession hash w = (Ok (Some inv), w')).
Proof.
  split.
  - intros inv w' (r & Hs & Hp)%InvitationForSession_Some.
    apply session_invitation_Some in Hs as (k & s & Hk & Hh & Ht & Hn & Hi & Hr & Hrn & Hv).
    exists k, s, r. split_and!; try done. intros x Hx Hxok Hcok. rewrite Hx in Ht.
    by apply str_lt_format_sound.
  - intros k s r inv x HI Hf Hk Hh Hn Hr Hrn Hv Hp Hx Hxok Hcok Hle.
    edestruct (InvitationForSession_run hash w) as (w' & H & _); [done| |done|by eexists].
    eapply session_invitation_found; eauto. rewrite Hx. by apply str_lt_format_complete.
Qed.

(** [C7] A household's link opens the household: without faults, with random
    bytes from the generator and a session id and token that are new, the current
    capability of an invitation that is not revoked is exchanged for a session
    token and the household as it is in the database; and the token gives the
    household again at any time up to a second before the session expires. *)
Theorem link_opens_household svc i r h b w :
  Integrity (w_db w) -> w_faults w = [] ->
  invitations (w_db w) !! i = Some r -> i_revoked_at r = None -> household_of (w_db w) i = Ok h ->
  no_dot (i_access_id r) -> i_access_id r <> "" -> 1 <= i_token_version r <= int64_max ->
  rand_read (w_draws w) 32 = Some b -> b <> "" ->
  invitation_sessions (w_db w) !! uuid_v7 (w_uuids w) = None ->
  (forall k s, invitation_sessions (w_db w) !! k = Some s ->
     s_token_hash s <> hashToken (base64_raw_url b)) ->
  let raw := base64_raw_url b in
  let x := clock (w_clock w) + sessionExpiry svc in
  exists w1,
    ExchangePrivate svc (Private (signer svc) (i_access_id r) (i_token_version r)) w = (Ok (raw, h), w1) /\
    forall w2, w_db w2 = w_db w1 -> w_faults w2 = [] -> time_ok x = true ->
      time_ok (clock (w_clock w2)) = true -> clock (w_clock w2) + ns_per_sec <= x ->
      exists w3, HouseholdForSession raw w2 = (Ok h, w3).
Proof.
  intros HI Hf Hr Hn Hh Hdot Hne Hv Hb Hbne Hu Hfresh raw x.
  destruct (household_of_invitation _ _ _ Hh) as (r' & Hr' & Hp). simplify_eq.
  pose proof (parseInvitation_Ok _ _ _ Hp) as (Hid & _ & _ & Hver & Hrev).
  set (w0 := MkWorld (w_db w) (w_faults w) (S (w_clock w)) (w_uuids w) (S (w_draws w))).
  destruct (CreateSession_run i (hashToken raw) (i_token_version r) x w0) as (w1 & t & Hc & F1 & D1);
    [done|by eexists|lia|done|done|].
  exists w1. split.
  - unfold ExchangePrivate. rewrite (proj1 (parse_own_capability (signer svc) _ _ Hdot Hne Hv)).
    erewrite bind_run by done. cbv beta iota. erewrite bind_run.
    2: { rewrite (FindByAccessID_run _ i) by done. simpl. by rewrite Hp. }
    erewrite bind_run by done. rewrite Hver, Z.eqb_refl, bool_decide_eq_true_2 by tauto.
    erewrite bind_run by done. erewrite bind_run.
    2: { unfold randomToken, bind, read_random. simpl. rewrite Hb. done. }
    erewrite bind_run by apply now_run. rewrite Hid.
    erewrite bind_run by exact Hc. erewrite bind_run; [done|].
    rewrite LoadHousehold_run, D1, household_of_sessions by done.
    change (household_of (w_db w0) i) with (household_of (w_db w) i). by rewrite Hh.
  - intros w2 D2 F2 Hx Hc2 Hle.
    assert (household_of (w_db w2) i = Ok h) as Hh2 by (by rewrite D2, D1, household_of_sessions).
    assert (Integrity (w_db w2)) as HI2.
    { rewrite D2. pose proof (CreateSession_integrity i (hashToken raw) (i_token_version r) x w0) as H.
      rewrite Hc in H. by apply H. }
    eapply HouseholdForSession_run; eauto using base64_nonempty.
    eapply (session_invitation_found _ _ _ (uuid_v7 (w_uuids w0)) (session_row i (hashToken raw) (i_token_version r) x t));
      try done; [by rewrite D2, D1; simpl; rewrite lookup_insert_eq| |by rewrite D2, D1].
    simpl. by apply str_lt_format_complete.
Qed.
End theorems.

Lemma session_acceptance_witness :
  exists inv w', InvitationForSession (E := demo_env) "hash" demo_world = (Ok (Some inv), w').
Proof.
  destruct (parseInvitation "inv" demo_invitation) as [inv|e] eqn:Hp; [|vm_compute in Hp; discriminate Hp].
  exists inv.
  apply (proj2 (session_acceptance (E := demo_env) "hash" demo_world) "sess" demo_session
           demo_invitation inv (demo_start + 31 * 86400 * ns_per_sec)).
  - apply demo_sound.
  - reflexivity.
  - reflexivity.
  - reflexivity.
  - reflexivity.
  - reflexivity.
  - reflexivity.
  - reflexivity.
  - exact Hp.
  - vm_compute. reflexivity.
  - vm_compute. reflexivity.
  - vm_compute. reflexivity.
  - vm_compute. discriminate.
Defined.

Lemma link_opens_household_witness :
  exists raw h w1, ExchangePrivate (E := demo_env) demo_service
    (Private (E := demo_env) (signer demo_service) "acc" 1) demo_world = (Ok (raw, h), w1).
Proof.
  destruct (household_of (E := demo_env) demo_db "inv") as [h|e] eqn:Hh; [|vm_compute in Hh; discriminate Hh].
  set (b := of_bytes (replicate 32 (byte_of 0))).
  destruct (link_opens_household (E := demo_env) demo_service "inv" demo_invitation h b demo_world)
    as (w1 & H & _).
  - apply demo_sound.
  - reflexivity.
  - reflexivity.
  - reflexivity.
  - exact Hh.
  - unfold no_dot. rewrite list_elem_of_In. vm_compute. intuition discriminate.
  - discriminate.
  - split; vm_compute; discriminate.
  - reflexivity.
  - discriminate.
  - vm_compute. reflexivity.
  - intros k s. simpl. rewrite lookup_singleton_Some. intros [_ <-]. vm_compute. discriminate.
  - exists (base64_raw_url b), h, w1. exact H.
Defined.
