(* ===== verification/Enrollment.v ===== *)
(** * Theorems on open enrollment: party size, window and capacity *)

From S2P Require Import Prelude.
From S2P Require Import GoStr.
From S2P Require Import GoTime.
From S2P Require Import Schema.
From S2P Require Import Eff.
From S2P Require Import Respect.
From S2P Require Import Demo.
From S2P Require Import Tables.
From S2P Require Import InvModel.
From S2P Require Import InvStore.
From S2P Require Import InvOpen.
From S2P Require Import History.
From S2P Require Import Integrity.
From S2P Require Import System.

Local Open Scope Z_scope.

Section enrollment.
Context `{E : Env}.

(** ** Counting allocated places *)

Definition allocating (oid : string) (i : InvitationRow) : Prop :=
  i.(i_open_id) = Some oid /\ i.(i_revoked_at) = None.

Lemma insert_guest_allocated oid gid row irow d d' :
  insert_guest gid row d = Some d' -> d.(invitations) !! row.(g_invitation_id) = Some irow ->
  allocating oid irow -> row.(g_removed_at) = None ->
  allocated oid d' = allocated oid d + 1 /\ d'.(invitations) = d.(invitations).
Proof.
  unfold insert_guest. intros H Hi [Ho Hr] Hrem. insert_cases H. split; [|done].
  unfold allocated. simpl. rewrite count_insert by (by apply has_false).
  unfold allocated_guest at 1. simpl. rewrite Hi, Ho, Hr, Hrem. unfold is_null.
  rewrite !bool_decide_eq_true_2 by done. simpl.
  rewrite (count_ext _ (allocated_guest oid d)) by done. lia.
Qed.
Lemma insert_guest_response_allocated oid u r d d' :
  insert_guest_response u r d = Some d' ->
  allocated oid d' = allocated oid d /\ d'.(invitations) = d.(invitations).
Proof. unfold insert_guest_response. intros H. by insert_cases H. Qed.

Lemma insert_guests_allocated oid what rid id now irow l w u w' :
  forM l (fun g => insert_guest_pair what rid id now g.(guest_ID) g.(guest_Name) g.(guest_Origin)
                     g.(guest_SortOrder)) w = (Ok u, w') ->
  w.(w_db).(invitations) !! id = Some irow -> allocating oid irow ->
  allocated oid w'.(w_db) = allocated oid w.(w_db) + Z.of_nat (length l) /\
  w'.(w_db).(invitations) = w.(w_db).(invitations).
Proof.
  unfold forM. destruct u. revert w. induction l as [|g l IH]; intros w H Hi Ha; simpl in H.
  - apply ret_ok in H as [_ <-]. split; [simpl; lia|done].
  - apply bind_ok in H as ([] & w1 & H1 & H). unfold insert_guest_pair in H1.
    apply bind_ok in H1 as ([] & w2 & H2 & H1). apply exec_ok in H2 as [H2 _].
    apply bind_ok in H1 as (v & w3 & H3 & H1). apply new_uuid_ok in H3 as (_ & D3 & _).
    apply exec_ok in H1 as [H1 _]. rewrite D3 in H1.
    destruct (insert_guest_allocated oid _ _ irow _ _ H2) as [A2 I2]; [done..|].
    destruct (insert_guest_response_allocated oid _ _ _ _ H1) as [A1 I1].
    destruct (IH _ H) as [A I]; [congruence|done|]. simpl length. split; [lia|congruence].
Qed.

Definition same_open (d d' : Database) : Prop := d'.(open_enrollments) = d.(open_enrollments).
#[local] Instance same_open_preorder : PreOrder same_open.
Proof. split; unfold same_open; [by intros ?|congruence]. Qed.

(** A new household adds as many places as it has guests. *)
Lemma insert_household_allocated oid what id row gs now w a w' :
  Integrity w.(w_db) -> insert_household what id row gs now w = (Ok a, w') -> allocating oid row ->
  allocated oid w'.(w_db) = allocated oid w.(w_db) + Z.of_nat (length gs) /\
  w'.(w_db).(open_enrollments) = w.(w_db).(open_enrollments).
Proof.
  intros HI H Ha. split.
  2: { eapply (respects_ok same_open) in H; [exact H|]. unfold insert_household, insert_guest_pair.
       unfold insert_invitation, insert_response, insert_guest, insert_guest_response.
       respect; intros Hs; by insert_cases Hs. }
  unfold insert_household in H.
  apply bind_ok in H as (? & w1 & H1 & H). apply exec_ok in H1 as [H1 _].
  apply bind_ok in H as (rid & w2 & H2 & H). apply new_uuid_ok in H2 as (_ & D2 & _).
  apply bind_ok in H as (? & w3 & H3 & H). apply exec_ok in H3 as [H3 _]. rewrite D2 in H3.
  apply bind_ok in H as (? & w4 & H4 & H). apply ret_ok in H as [_ ->].
  unfold insert_invitation in H1. insert_cases H1.
  unfold insert_response in H3. insert_cases H3. rewrite <- H1 in H3. simpl in H3.
  assert (invitations (w_db w3) !! id = Some row) as Hi by (by rewrite <- H3; simpl; rewrite lookup_insert_eq).
  destruct (insert_guests_allocated oid _ _ _ _ _ _ _ _ _ H4 Hi Ha) as [-> _].
  f_equal. rewrite <- H3. unfold allocated. simpl. apply count_ext. intros k g Hg.
  unfold allocated_guest. simpl.
  destruct (in_guest_ref _ HI _ _ Hg) as [irow Hirow].
  rewrite lookup_insert_ne; [done|]. intros ->.
  by rewrite (has_false (g_invitation_id g)) in Hirow.
Qed.

(** ** The transaction's body, cut after the row is locked and read *)

Definition enroll_checks (config : OpenEnrollmentConfig) (t : time) (party : Z) (limits : OpenRow) : M () :=
  require (negb ((party <? 1) || (limits.(o_max_party_size) <? party))) ErrAllowance ;;;
  of_res (check_opens t limits.(o_opens_at)) ;;;
  of_res (check_closes t limits.(o_closes_at)) ;;;
  check_capacity config.(oc_ID) party limits.(o_capacity).

Definition enroll_body (config : OpenEnrollmentConfig) (inv : Invitation) (gs : list Guest)
    (sessionHash : string) (sessionExpiresAt : time) : M (Response * Invitation * list Guest) :=
  t <- now ;;
  let nowText := format_nano t in
  let party := Z.of_nat (length gs) in
  changed <- query "lock open enrollment" (open_lock_count config) ;;
  require (changed =? 1) ErrInvalidCapability ;;;
  row <- query "load open enrollment limits" (fun d => d.(open_enrollments) !! config.(oc_ID)) ;;
  limits <- of_option (EInternal "load open enrollment limits") row ;;
  enroll_checks config t party limits ;;;
  responseID <- insert_household "create open" inv.(ID)
                  (open_invitation_row inv config.(oc_ID) nowText) (as_assigned <$> gs) nowText ;;
  u <- new_uuid ;;
  exec "create open invitation session"
    (insert_session u (session_row inv.(ID) sessionHash 1 sessionExpiresAt nowText)) ;;;
  ret (MkResponse responseID inv.(ID) 1 None t t, stamp_invitation inv t,
       stamp_guest inv.(ID) t <$> gs).
Lemma EnrollOpen_split config inv gs h e w :
  EnrollOpen config inv gs h e w
  = with_tx "begin open enrollment" "commit open enrollment" (enroll_body config inv gs h e) w.
Proof.
  unfold EnrollOpen. apply with_tx_ext. intros w0. unfold enroll_body.
  do 3 (apply bind_ext; intros ? ?; cbv zeta). do 2 (apply bind_ext; intros ? ?).
  unfold enroll_checks, bind. destruct (require _ _ _) as [[] ?]; [|done].
  destruct (of_res _ _) as [[] ?]; [|done]. destruct (of_res _ _) as [[] ?]; [|done].
  by destruct (check_capacity _ _ _ _) as [[] ?].
Qed.

Lemma party_guard_true party m :
  1 <= party <= m -> negb ((party <? 1) || (m <? party)) = true.
Proof. intros ?. by destruct (Z.ltb_spec party 1), (Z.ltb_spec m party); try lia. Qed.
Lemma party_guard_false party m :
  ~ 1 <= party <= m -> negb ((party <? 1) || (m <? party)) = false.
Proof. intros ?. by destruct (Z.ltb_spec party 1), (Z.ltb_spec m party); try lia. Qed.
End enrollment.

Section theorems.
Context `{E : Env}.

(** [C10] Open enrollment stays within its limits: an enrollment that succeeds
    found the enrollment enabled, not revoked and of the capability's version, at
    an instant inside its window; the party has between one and the maximal
    number of guests; and afterwards exactly that many more places are taken, not
    more than the capacity. *)
Theorem enrollment_limits config inv gs hash expires w r w' :
  Integrity (w_db w) -> EnrollOpen config inv gs hash expires w = (Ok r, w') ->
  exists o, open_enrollments (w_db w) !! oc_ID config = Some o /\ lockable_open config o = true /\
    1 <= Z.of_nat (length gs) <= o_max_party_size o /\
    (forall s x, o_opens_at o = Some s -> parse_nano s = Some x -> x <= clock (w_clock w)) /\
    (forall s x, o_closes_at o = Some s -> parse_nano s = Some x -> clock (w_clock w) < x) /\
    allocated (oc_ID config) (w_db w')
      = allocated (oc_ID config) (w_db w) + Z.of_nat (length gs) /\
    (forall c, o_capacity o = Some c -> allocated (oc_ID config) (w_db w') <= c).
Proof.
  intros HI H. unfold EnrollOpen in H. apply with_tx_ok in H as (wa & wb & H & Da & Db & Dc & _).
  apply bind_ok in H as (t & w1 & H1 & H). apply now_ok in H1 as (-> & D1 & _). cbv zeta in H.
  apply bind_ok in H as (n & w2 & H2 & H). apply query_ok in H2 as (-> & D2 & _).
  apply bind_ok in H as (? & ? & H3 & H). apply require_ok in H3 as [Hlock <-].
  apply bind_ok in H as (row & w3 & H3 & H). apply query_ok in H3 as (-> & D3 & _).
  apply bind_ok in H as (o & ? & H4 & H). apply of_option_ok in H4 as [Ho <-].
  apply bind_ok in H as (? & ? & H4 & H). apply require_ok in H4 as [Hparty <-].
  apply bind_ok in H as ([] & ? & H4 & H). apply of_res_ok in H4 as [Hopen <-].
  apply bind_ok in H as ([] & ? & H4 & H). apply of_res_ok in H4 as [Hclose <-].
  apply bind_ok in H as ([] & w4 & H4 & H). apply bind_ok in H as (rid & w5 & H5 & H).
  apply bind_ok in H as (u & w6 & H6 & H). apply new_uuid_ok in H6 as (_ & D6 & _).
  apply bind_ok in H as ([] & w7 & H7 & H). apply exec_ok in H7 as [H7 _].
  apply ret_ok in H as [_ <-].
  assert (w_db w4 = w_db w /\ forall c, o_capacity o = Some c ->
            allocated (oc_ID config) (w_db w) + Z.of_nat (length gs) <= c) as [D4 Hcap].
  { unfold check_capacity in H4. destruct (o_capacity o) as [c|].
    - apply bind_ok in H4 as (m & w8 & H8 & H4). apply query_ok in H8 as (-> & D8 & _).
      apply require_ok in H4 as [Hc <-]. rewrite D3, D2, D1, Da in *.
      split; [done|]. intros c' [= <-].
      destruct (Z.ltb_spec c (allocated (oc_ID config) (w_db w) + Z.of_nat (length gs))); [done|lia].
    - apply ret_ok in H4 as [_ <-]. split; [congruence|done]. }
  rewrite D2, D1, Da in Ho. rewrite D1, Da in Hlock. unfold open_lock_count in Hlock. rewrite Ho in Hlock.
  destruct (lockable_open config o) eqn:Hl; [|done]. exists o.
  destruct (insert_household_allocated (oc_ID config) _ _ _ _ _ _ _ _ ltac:(by rewrite D4) H5)
    as [Hal _]; [done|]. rewrite D4, length_fmap in Hal.
  assert (allocated (oc_ID config) (w_db w') = allocated (oc_ID config) (w_db w5)) as Hal'.
  { rewrite Db. unfold insert_session in H7. insert_cases H7. rewrite <- H7, D6. done. }
  rewrite Dc in *. split_and!; try done.
  - destruct (Z.ltb_spec (Z.of_nat (length gs)) 1); [done|lia].
  - destruct (Z.ltb_spec (o_max_party_size o) (Z.of_nat (length gs))); [by rewrite orb_true_r in Hparty|lia].
  - intros s y Hs Hy. unfold check_opens, parseDBTime in Hopen. rewrite Hs, Hy in Hopen. simpl in Hopen.
    destruct (Z.ltb_spec (clock (w_clock w)) y); [done|lia].
  - intros s y Hs Hy. unfold check_closes, parseDBTime in Hclose. rewrite Hs, Hy in Hclose. simpl in Hclose.
    destruct (Z.ltb_spec (clock (w_clock w)) y); [lia|done].
  - lia.
  - intros c Hc. rewrite Hal', Hal. by apply Hcap.
Qed.

(** Refusals write nothing and name their reason: without faults, for an
    enabled enrollment of the capability's version, a party beyond the limit is
    answered with [ErrAllowance]; otherwise, outside the window, with
    [ErrInvalidCapability]; otherwise, beyond the capacity, with [ErrCapacity]. *)
Theorem enrollment_refusals config inv gs hash expires w o :
  w_faults w = [] -> open_enrollments (w_db w) !! oc_ID config = Some o ->
  lockable_open config o = true ->
  let party := Z.of_nat (length gs) in
  let t := clock (w_clock w) in
  let fits := 1 <= party <= o_max_party_size o in
  let opened := forall s, o_opens_at o = Some s -> exists x, parse_nano s = Some x /\ x <= t in
  let unclosed := forall s, o_closes_at o = Some s -> exists x, parse_nano s = Some x /\ t < x in
  let refused e := exists w', EnrollOpen config inv gs hash expires w = (Err e, w') /\ w_db w' = w_db w in
  (~ fits -> refused ErrAllowance) /\
  (fits -> (exists s x, o_opens_at o = Some s /\ parse_nano s = Some x /\ t < x) ->
     refused ErrInvalidCapability) /\
  (fits -> opened -> (exists s x, o_closes_at o = Some s /\ parse_nano s = Some x /\ x <= t) ->
     refused ErrInvalidCapability) /\
  (fits -> opened -> unclosed ->
     (exists c, o_capacity o = Some c /\ c < allocated (oc_ID config) (w_db w) + party) ->
     refused ErrCapacity).
Proof.
  intros Hf Ho Hl party t fits opened unclosed refused.
  assert (Htx : forall e, enroll_checks config t party o (tick w) = (Err e, tick w) -> refused e).
  { intros e He. unfold refused. rewrite EnrollOpen_split. eexists. split.
    - apply with_tx_fails; [done|]. unfold enroll_body.
      erewrite bind_run by apply now_run. cbv zeta.
      erewrite bind_run by (by apply query_run). unfold open_lock_count.
      change (w_db (tick w)) with (w_db w). rewrite Ho, Hl.
      erewrite bind_run by done. erewrite bind_run by (by apply query_run).
      change (w_db (tick w)) with (w_db w). rewrite Ho.
      erewrite bind_run by done. by erewrite bind_fails by exact He.
    - done. }
  assert (Hopen : opened -> check_opens t (o_opens_at o) = Ok ()).
  { unfold opened, check_opens, parseDBTime. destruct (o_opens_at o) as [s|]; [|done].
    intros H. destruct (H s eq_refl) as (x & -> & Hx). simpl. by destruct (Z.ltb_spec t x); [lia|]. }
  assert (Hclose : unclosed -> check_closes t (o_closes_at o) = Ok ()).
  { unfold unclosed, check_closes, parseDBTime. destruct (o_closes_at o) as [s|]; [|done].
    intros H. destruct (H s eq_refl) as (x & -> & Hx). simpl. by destruct (Z.ltb_spec t x); [|lia]. }
  split_and!; intros Hfit; [|intros (s & x & Hs & Hx & Hlt)|intros Hop (s & x & Hs & Hx & Hle)
                            |intros Hop Hcl (c & Hc & Hlt)]; apply Htx; unfold enroll_checks.
  - rewrite (party_guard_false _ _ Hfit). done.
  - rewrite (party_guard_true _ _ Hfit), Hs. erewrite bind_run by done.
    unfold check_opens, parseDBTime. rewrite Hx. simpl. by destruct (Z.ltb_spec t x); [|lia].
  - rewrite (party_guard_true _ _ Hfit), Hopen, Hs by done. do 2 erewrite bind_run by done.
    unfold check_closes, parseDBTime. rewrite Hx. simpl. by destruct (Z.ltb_spec t x); [lia|].
  - rewrite (party_guard_true _ _ Hfit), Hopen, Hclose, Hc by done. do 3 erewrite bind_run by done.
    unfold check_capacity. erewrite bind_run by (by apply query_run).
    change (w_db (tick w)) with (w_db w).
    by destruct (Z.ltb_spec c (allocated (oc_ID config) (w_db w) + party)); [|lia].
Qed.
End theorems.

Definition demo_config : OpenEnrollmentConfig :=
  MkOpenConfig "open" "ev" true None None 4 (Some 5) 1 None demo_start demo_start "oacc".
Definition demo_new_invitation : Invitation :=
  MkInvitation "new" "ev" "Walk-in" (Some "w@b.c") None "email" 0 "open" (Some "open") "acc2" 1
    None None None demo_start demo_start.
Definition demo_guests (n : nat) : list Guest :=
  (fun k => MkGuest ("w" +:+ itoa (Z.of_nat k)) "" "Walker" "assigned" (Z.of_nat k) "" None
              demo_start demo_start) <$> seq 0 n.

Lemma enrollment_limits_witness :
  exists r w', EnrollOpen (E := demo_env) demo_config demo_new_invitation (demo_guests 3) "h3"
                 demo_start demo_world = (Ok r, w') /\
    allocated "open" (w_db w') <= 5.
Proof.
  destruct (EnrollOpen (E := demo_env) demo_config demo_new_invitation (demo_guests 3) "h3"
              demo_start demo_world) as [[r|x] w'] eqn:H; [|vm_compute in H; discriminate H].
  exists r, w'. split; [done|].
  destruct (enrollment_limits (E := demo_env) demo_config demo_new_invitation (demo_guests 3) "h3"
              demo_start demo_world r w') as (o & Ho & _ & _ & _ & _ & _ & Hc);
    [apply demo_sound|exact H|].
  injection Ho as <-. apply Hc. reflexivity.
Defined.

Lemma enrollment_refusals_witness :
  exists w', EnrollOpen (E := demo_env) demo_config demo_new_invitation (demo_guests 9) "h3"
               demo_start demo_world = (Err ErrAllowance, w') /\ w_db w' = w_db demo_world.
Proof.
  refine (proj1 (enrollment_refusals (E := demo_env) demo_config demo_new_invitation (demo_guests 9)
                   "h3" demo_start demo_world demo_open _ _ _) _).
  - reflexivity.
  - reflexivity.
  - reflexivity.
  - intros [_ H]. vm_compute in H. by apply H.
Defined.
