(* ===== verification/Answers.v ===== *)
(** * What a successful submission stores

    The additional guests stay within the allowance, the stored answers are the
    submitted ones, and the required questions are answered. *)

From S2P Require Import Prelude.
From S2P Require Import GoStr.
From S2P Require Import GoTime.
From S2P Require Import Schema.
From S2P Require Import Eff.
From S2P Require Import Respect.
From S2P Require Import Demo.
From S2P Require Import Tables.
From S2P Require Import InvModel.
From S2P Require Import InvStore.
From S2P Require Import InvResponse.
From S2P Require Import History.
From S2P Require Import Submission.

Local Open Scope Z_scope.

Section answers.
Context `{E : Env}.

(** ** Additional guests *)

(** [g] is an active additional guest of household [i]. *)
Definition is_extra (i : string) (k : string) (g : GuestRow) : bool :=
  active_in i k g && bool_decide (g.(g_origin) = "additional").
Definition extra (i : string) (d : Database) (k : string) : Prop :=
  exists row, d.(guests) !! k = Some row /\ is_extra i k row = true.

Definition same_guests (d d' : Database) : Prop := d'.(guests) = d.(guests).
#[global] Instance same_guests_preorder : PreOrder same_guests.
Proof. split; unfold same_guests; [by intros ?|congruence]. Qed.
Lemma updateGuestAttendance_guests r g a n : respects same_guests (updateGuestAttendance r g a n).
Proof.
  unfold updateGuestAttendance. respect. unfold upsert_guest_response, insert_guest_response.
  destruct (select_row _ _) as [[k old]|]; intros H; by insert_cases H.
Qed.
Lemma submit_assigned_guests r n s u : respects same_guests (submit_assigned r n s u).
Proof. unfold submit_assigned. respect. apply updateGuestAttendance_guests. Qed.
Lemma replaceAnswers_guests i gs req now : respects same_guests (replaceAnswers i gs req now).
Proof.
  unfold replaceAnswers, insert_inv_answer, insert_guest_answer.
  respect; intros Hs; first [by simplify_eq | by insert_cases Hs].
Qed.

Lemma update_active_guest_extra ctx g i o f w u w' k :
  update_active_guest ctx g i o f w = (Ok u, w') ->
  (forall r, (f r).(g_origin) = r.(g_origin)) ->
  extra i (w_db w') k -> extra i (w_db w) k.
Proof.
  unfold update_active_guest. intros ([= H] & _)%exec_ok Hf (row & Hrow & Hx).
  rewrite <- H in Hrow. simpl in Hrow. destruct (update_id _ _ _ _) as [t n] eqn:Eu.
  apply update_id_cases in Eu as [(_ & r & Hr & HQ & ->)|(_ & -> & _)]; [|by exists row].
  simpl in Hrow. apply lookup_insert_Some in Hrow as [[<- <-]|[_ Hrow]]; [|by exists row].
  exists r. split; [done|]. unfold is_extra in *. rewrite Hf in Hx. split_guards.
  apply andb_true_iff. by split.
Qed.
(** The removal of a guest. *)
Lemma remove_guest_extra ctx g i now w u w' :
  update_active_guest ctx g i "additional" (remove_guest_row now) w = (Ok u, w') ->
  ~ extra i (w_db w') g.
Proof.
  unfold update_active_guest. intros ([= H] & _)%exec_ok (row & Hrow & Hx).
  rewrite <- H in Hrow. simpl in Hrow. destruct (update_id _ _ _ _) as [t n] eqn:Eu.
  apply update_id_cases in Eu as [(_ & r & Hr & HQ & ->)|(_ & -> & Hno)].
  - simpl in Hrow. rewrite lookup_insert_eq in Hrow. injection Hrow as <-.
    unfold is_extra, active_in in Hx. simpl in Hx. split_guards. done.
  - simpl in Hrow. apply Hno in Hrow. unfold is_extra in Hx. congruence.
Qed.

Lemma remove_unkept_extra i now kept l w u w' :
  forM l (fun guestID => if bool_decide (guestID ∈ kept) then ret ()
            else update_active_guest "remove additional guest" guestID i "additional"
                   (remove_guest_row now)) w = (Ok u, w') ->
  (forall k, extra i (w_db w) k -> k ∈ kept \/ k ∈ l) ->
  forall k : string, extra i (w_db w') k -> k ∈ (kept : gset string).
Proof.
  unfold forM. destruct u. revert w. induction l as [|g l IH]; intros w H Hin k Hk; simpl in H.
  - apply ret_ok in H as [_ <-]. destruct (Hin _ Hk) as [?|?%not_elem_of_nil]; done.
  - apply bind_ok in H as ([] & w1 & H1 & H). revert k Hk. apply (IH _ H). intros k Hk.
    destruct (bool_decide (g ∈ kept)) eqn:Hb.
    + apply ret_ok in H1 as [_ <-]. apply bool_decide_eq_true in Hb.
      destruct (Hin _ Hk) as [?|[->|?]%elem_of_cons]; auto.
    + assert (k <> g) by (intros ->; by apply (remove_guest_extra _ _ _ _ _ _ _ H1)).
      apply (update_active_guest_extra _ _ _ _ _ _ _ _ _ H1) in Hk; [|done].
      destruct (Hin _ Hk) as [?|[->|?]%elem_of_cons]; auto. done.
Qed.

(** The loop over the additional guests: what is active is old or kept. *)
Lemma submit_additional_extra i rid now assigned additional l st w st' w' :
  foldM (submit_additional i rid now assigned additional) st l w = (Ok st', w') ->
  (forall k, extra i (w_db w) k -> k ∈ additional ∪ st.(ls_kept)) ->
  (forall k, extra i (w_db w') k -> k ∈ additional ∪ st'.(ls_kept)) /\
  (size st'.(ls_kept) <= size st.(ls_kept) + length l)%nat.
Proof.
  revert st w. induction l as [|[n x] l IH]; intros st w H Hin; simpl in H.
  - apply ret_ok in H as [<- <-]. split; [done|]. simpl. lia.
  - apply bind_ok in H as (st1 & w1 & H1 & H).
    apply submit_additional_ok in H1 as (gid & wa & wb & Da & Ha & Hk & Hcase).
    pose proof (updateGuestAttendance_guests rid gid (ag_Attendance x) now wb) as Hg.
    rewrite Ha in Hg. simpl in Hg. unfold same_guests in Hg.
    assert (size (ls_kept st1) <= S (size (ls_kept st)))%nat as Hsz.
    { rewrite Hk, size_union_alt, size_singleton.
      assert (size (ls_kept st ∖ {[gid]}) <= size (ls_kept st))%nat by (apply subseteq_size; set_solver). lia. }
    destruct (IH st1 w1 H) as [IH1 IH2].
    + intros k (row & Hrow & Hx). rewrite Hk. rewrite Hg in Hrow.
      destruct Hcase as [[_ Hi]|(_ & _ & Hu)].
      * unfold insert_guest in Hi. insert_cases Hi. rewrite <- Hi in Hrow. simpl in Hrow.
        apply lookup_insert_Some in Hrow as [[<- _]|[_ Hrow]]; [set_solver|].
        assert (k ∈ additional ∪ ls_kept st) by (apply Hin; by exists row). set_solver.
      * apply (update_active_guest_extra _ _ _ _ _ _ _ _ k) in Hu; [|done|by exists row].
        rewrite Da in Hu. apply Hin in Hu. set_solver.
    + split; [done|]. simpl. lia.
Qed.

Lemma loaded_extra i d gs k : loaded i d gs -> extra i d k -> k ∈ ids_with_origin false gs.
Proof.
  intros [_ H] (row & Hrow & Hx). unfold is_extra in Hx. split_guards.
  destruct (H _ _ Hrow H0) as (g & Hg & <- & Ho & _). unfold ids_with_origin.
  apply elem_of_list_to_set, list_elem_of_fmap. exists g. split; [done|].
  apply list_elem_of_filter. split; [|done].
  assert (g_origin row = "additional") as Hadd by (by eapply bool_decide_eq_true).
  rewrite Ho, Hadd. done.
Qed.

Lemma select_size {R} (P : string -> R -> bool) (t : gmap string R) (X : gset string) :
  (forall k r, t !! k = Some r -> P k r = true -> k ∈ X) -> count P t <= Z.of_nat (size X).
Proof.
  intros H. unfold count. apply inj_le.
  assert (list_to_set (select P t).*1 ⊆ X) as Hsub.
  { intros k ([k' r] & -> & [Hk HP]%elem_of_select)%elem_of_list_to_set%list_elem_of_fmap.
    eauto. }
  apply subseteq_size in Hsub. rewrite size_list_to_set in Hsub by apply NoDup_select.
  by rewrite length_fmap in Hsub.
Qed.

Lemma submit_run_extra i req w w' :
  submit_run i req w w' ->
  exists inv, invitations (w_db w) !! i = Some inv /\
    count (is_extra i) (guests (w_db w')) <= i_allowance inv.
Proof.
  intros []. exists inv. split; [done|].
  assert (guests (w_db w') = guests (w_db w6)) as ->.
  { pose proof (replaceAnswers_guests i active (set_guest_answers_req req (ls_answers st)) now w7) as Hr.
    rewrite run_answers in Hr. unfold same_guests in Hr. simpl in Hr. congruence. }
  assert (guests (w_db w4) = guests (w_db w2)) as G4.
  { eapply (respects_ok same_guests) in run_assigned; [|respect; apply submit_assigned_guests].
    unfold same_guests in run_assigned. congruence. }
  apply submit_additional_extra in run_additional as [Hex Hsz].
  2: { intros k (row & Hrow & Hx). rewrite G4 in Hrow. apply elem_of_union_l.
       eapply loaded_extra; [exact run_existing|]. by exists row. }
  rewrite length_imap in Hsz. change (ls_kept (MkLoop ∅ ∅ (sr_GuestAnswers req))) with (∅ : gset string) in Hsz.
  rewrite size_empty in Hsz.
  etrans; [apply (select_size _ _ (ls_kept st))|lia].
  intros k r0 Hk Hx. eapply (remove_unkept_extra i now (ls_kept st)); [exact run_remove| |by exists r0].
  intros k' Hk'. apply Hex in Hk'. rewrite elem_of_elements. set_solver.
Qed.

(** ** Stored answers *)

Definition ia_stored (i : string) (d : Database) (q a : string) : Prop :=
  exists k row, d.(invitation_answers) !! k = Some row /\ row.(ia_invitation_id) = i /\
    row.(ia_question_id) = q /\ row.(ia_answer) = a.
Definition ga_stored (d : Database) (g q a : string) : Prop :=
  exists k row, d.(guest_answers) !! k = Some row /\ row.(ga_guest_id) = g /\
    row.(ga_question_id) = q /\ row.(ga_answer) = a.

Definition same_ia (d d' : Database) : Prop := d'.(invitation_answers) = d.(invitation_answers).
#[local] Instance same_ia_preorder : PreOrder same_ia.
Proof. split; unfold same_ia; [by intros ?|congruence]. Qed.
Definition same_ga (d d' : Database) : Prop := d'.(guest_answers) = d.(guest_answers).
#[local] Instance same_ga_preorder : PreOrder same_ga.
Proof. split; unfold same_ga; [by intros ?|congruence]. Qed.

Definition same_gr (d d' : Database) : Prop := d'.(guest_responses) = d.(guest_responses).
#[local] Instance same_gr_preorder : PreOrder same_gr.
Proof. split; unfold same_gr; [by intros ?|congruence]. Qed.
Lemma replaceAnswers_gr i gs req now : respects same_gr (replaceAnswers i gs req now).
Proof.
  unfold replaceAnswers, insert_inv_answer, insert_guest_answer.
  respect; intros Hs; first [by simplify_eq | by insert_cases Hs].
Qed.

Lemma insert_ia_stored u i q a now d d' q' a' :
  insert_inv_answer u (inv_answer_row i q a now) d = Some d' ->
  (ia_stored i d' q' a' <-> ia_stored i d q' a' \/ (q', a') = (q, a)).
Proof.
  unfold insert_inv_answer. intros H. insert_cases H.
  assert (invitation_answers d !! u = None) by (by apply has_false). unfold ia_stored. simpl. split.
  - intros (k & row & [[<- <-]|[_ Hk]]%lookup_insert_Some & Hi & Hq & Ha); simpl in *; [right; congruence|].
    left. eauto 6.
  - intros [(k & row & Hk & Hr)|[= -> ->]].
    + exists k, row. split; [|done]. by rewrite lookup_insert_ne by congruence.
    + exists u. rewrite lookup_insert_eq. eauto.
Qed.
Lemma insert_ga_stored u g q a now d d' g' q' a' :
  insert_guest_answer u (guest_answer_row g q a now) d = Some d' ->
  (ga_stored d' g' q' a' <-> ga_stored d g' q' a' \/ (g', q', a') = (g, q, a)).
Proof.
  unfold insert_guest_answer. intros H. insert_cases H.
  assert (guest_answers d !! u = None) by (by apply has_false). unfold ga_stored. simpl. split.
  - intros (k & row & [[<- <-]|[_ Hk]]%lookup_insert_Some & Hi & Hq & Ha); simpl in *; [right; congruence|].
    left. eauto 6.
  - intros [(k & row & Hk & Hr)|[= -> -> ->]].
    + exists k, row. split; [|done]. by rewrite lookup_insert_ne by congruence.
    + exists u. rewrite lookup_insert_eq. eauto.
Qed.

Lemma save_inv_answers_ok i now l w u w' :
  forM l (fun qa => u <- new_uuid ;; exec "save invitation answer"
            (insert_inv_answer u (inv_answer_row i qa.1 qa.2 now))) w = (Ok u, w') ->
  forall q a, ia_stored i (w_db w') q a <-> ia_stored i (w_db w) q a \/ (q, a) ∈ l.
Proof.
  unfold forM. destruct u. revert w. induction l as [|[q0 a0] l IH]; intros w H q a; simpl in H.
  - apply ret_ok in H as [_ <-]. rewrite elem_of_nil. tauto.
  - apply bind_ok in H as ([] & w1 & H1 & H).
    apply bind_ok in H1 as (v & w2 & H2 & H1). apply new_uuid_ok in H2 as (_ & D2 & _).
    apply exec_ok in H1 as [H1 _]. rewrite D2 in H1.
    rewrite (IH _ H), (insert_ia_stored _ _ _ _ _ _ _ _ _ H1), elem_of_cons. tauto.
Qed.
Lemma save_guest_answers_ok g now l w u w' :
  forM l (fun qa => u <- new_uuid ;; exec "save guest answer"
            (insert_guest_answer u (guest_answer_row g qa.1 qa.2 now))) w = (Ok u, w') ->
  forall g' q a, ga_stored (w_db w') g' q a <-> ga_stored (w_db w) g' q a \/ (g' = g /\ (q, a) ∈ l).
Proof.
  unfold forM. destruct u. revert w. induction l as [|[q0 a0] l IH]; intros w H g' q a; simpl in H.
  - apply ret_ok in H as [_ <-]. rewrite elem_of_nil. tauto.
  - apply bind_ok in H as ([] & w1 & H1 & H).
    apply bind_ok in H1 as (v & w2 & H2 & H1). apply new_uuid_ok in H2 as (_ & D2 & _).
    apply exec_ok in H1 as [H1 _]. rewrite D2 in H1.
    rewrite (IH _ H), (insert_ga_stored _ _ _ _ _ _ _ _ _ _ H1), elem_of_cons. naive_solver.
Qed.
Lemma save_all_guest_answers_ok gs now l w u w' :
  forM l (fun ga => require (bool_decide (ga.1 ∈ guest_ids gs))
              (EValidation "guest answer does not belong to this invitation") ;;;
            forM (map_to_list ga.2) (fun qa => u <- new_uuid ;; exec "save guest answer"
              (insert_guest_answer u (guest_answer_row ga.1 qa.1 qa.2 now)))) w = (Ok u, w') ->
  forall g q a, ga_stored (w_db w') g q a <->
    ga_stored (w_db w) g q a \/ exists m : gmap string string, (g, m) ∈ l /\ m !! q = Some a.
Proof.
  unfold forM at 1. destruct u. revert w. induction l as [|[g0 m0] l IH]; intros w H g q a; simpl in H.
  - apply ret_ok in H as [_ <-]. setoid_rewrite elem_of_nil. naive_solver.
  - apply bind_ok in H as ([] & w1 & H1 & H).
    apply bind_ok in H1 as (? & ? & H2 & H1). apply require_ok in H2 as [_ <-].
    rewrite (IH _ H), (save_guest_answers_ok _ _ _ _ _ _ H1), elem_of_map_to_list.
    setoid_rewrite elem_of_cons. naive_solver.
Qed.

Lemma clear_guest_answers_ok gs w u w' :
  forM gs (fun g => exec "replace guest answers" (fun d => Some (set_guest_answers
      (delete_where (fun _ a => bool_decide (a.(ga_guest_id) = g.(guest_ID)))) d))) w = (Ok u, w') ->
  forall g q a, ga_stored (w_db w') g q a <-> ga_stored (w_db w) g q a /\ g ∉ guest_ids gs.
Proof.
  unfold forM, guest_ids. destruct u. revert w.
  induction gs as [|x gs IH]; intros w H g q a; simpl in H.
  - apply ret_ok in H as [_ <-]. set_solver.
  - apply bind_ok in H as ([] & w1 & H1 & H). apply exec_ok in H1 as ([= H1] & _).
    rewrite (IH _ H), <- H1. unfold ga_stored. simpl. setoid_rewrite lookup_delete_where.
    setoid_rewrite bool_decide_eq_false. set_solver.
Qed.

Lemma replaceAnswers_ok i gs req now w u w' :
  replaceAnswers i gs req now w = (Ok u, w') ->
  (forall q a, ia_stored i (w_db w') q a <-> req.(sr_InvitationAnswers) !! q = Some a) /\
  (forall g q a, g ∈ guest_ids gs ->
     ga_stored (w_db w') g q a <-> answers_at req.(sr_GuestAnswers) g !! q = Some a).
Proof.
  unfold replaceAnswers. intros H.
  apply bind_ok in H as ([] & w1 & H1 & H). apply exec_ok in H1 as ([= H1] & _).
  apply bind_ok in H as ([] & w2 & H2 & H). apply bind_ok in H as ([] & w3 & H3 & H).
  assert (invitation_answers (w_db w') = invitation_answers (w_db w2)) as D2.
  { eapply (respects_ok same_ia) in H3; [|respect; by intros [= <-]].
    eapply (respects_ok same_ia) in H.
    - unfold same_ia in *. congruence.
    - unfold insert_guest_answer. respect. intros Hs. by insert_cases Hs. }
  split.
  - intros q a. unfold ia_stored at 1. rewrite D2. fold (ia_stored i (w_db w2) q a).
    rewrite (save_inv_answers_ok _ _ _ _ _ _ H2), elem_of_map_to_list, <- H1.
    split; [|tauto]. intros [(k & row & Hk & Hi & _)|?]; [|done].
    simpl in Hk. apply lookup_delete_where in Hk as [_ Hk].
    by rewrite bool_decide_eq_false in Hk.
  - intros g q a Hg.
    rewrite (save_all_guest_answers_ok _ _ _ _ _ _ H), (clear_guest_answers_ok _ _ _ _ H3).
    unfold answers_at. setoid_rewrite elem_of_map_to_list.
    destruct (sr_GuestAnswers req !! g) as [m|]; simpl; [naive_solver|].
    rewrite lookup_empty. naive_solver.
Qed.

(** ** Answers of guests who were there before keep their key *)

Lemma submit_additional_keys i rid now assigned additional st x w st' w' g :
  submit_additional i rid now assigned additional st x w = (Ok st', w') ->
  g ∈ assigned ∪ additional -> is_Some (guests (w_db w) !! g) ->
  ls_answers st' !! g = ls_answers st !! g.
Proof.
  destruct x as [n input]. unfold submit_additional. intros H Hg Hs.
  do 3 (apply bind_ok in H as (? & ? & H1 & H); apply require_ok in H1 as [_ <-]).
  apply bind_ok in H as ([gid st1] & w1 & H1 & H).
  apply bind_ok in H as ([] & w2 & _ & H). apply ret_ok in H as [<- _]. simpl.
  destruct (bool_decide (ag_ID input = "")).
  - unfold create_additional in H1. apply bind_ok in H1 as (? & w3 & H3 & H1).
    assert (w3 = w /\ (trim_space (ag_ClientKey input) = "" \/ trim_space (ag_ClientKey input) <> g))
      as [-> Hkey].
    { destruct (bool_decide_reflect (trim_space (ag_ClientKey input) = "")).
      - apply ret_ok in H3 as [_ <-]. auto.
      - apply bind_ok in H3 as (? & ? & H4 & H3). apply require_ok in H4 as [_ <-].
        apply require_ok in H3 as [Hno <-]. split; [done|right]. intros Heq. rewrite Heq in Hno.
        rewrite negb_true_iff, !orb_false_iff, !bool_decide_eq_false in Hno. set_solver. }
    apply bind_ok in H1 as (g1 & w5 & H4 & H1). apply new_uuid_ok in H4 as (_ & D4 & _).
    apply bind_ok in H1 as ([] & w6 & H5 & H1). apply ret_ok in H1 as [[= -> <-] _].
    apply exec_ok in H5 as [H5 _]. unfold insert_guest in H5. insert_cases H5. rewrite D4 in *.
    assert (guests (w_db w) !! gid = None) by (by apply has_false).
    assert (gid <> g) by (intros ->; by destruct Hs; congruence). simpl. unfold rekey_answers.
    destruct (bool_decide_reflect (trim_space (ag_ClientKey input) = "")); [done|].
    destruct (ls_answers st !! trim_space (ag_ClientKey input)); [|done].
    rewrite lookup_insert_ne, lookup_delete_ne by tauto. done.
  - unfold keep_additional in H1.
    apply bind_ok in H1 as (? & ? & H3 & H1). apply require_ok in H3 as [_ <-].
    apply bind_ok in H1 as (? & ? & H3 & H1). apply require_ok in H3 as [_ <-].
    apply bind_ok in H1 as ([] & w5 & _ & H1). by apply ret_ok in H1 as [[= _ <-] _].
Qed.
Lemma submit_all_keys i rid now assigned additional l st w st' w' g :
  foldM (submit_additional i rid now assigned additional) st l w = (Ok st', w') ->
  g ∈ assigned ∪ additional -> is_Some (guests (w_db w) !! g) ->
  ls_answers st' !! g = ls_answers st !! g.
Proof.
  revert st w. induction l as [|x l IH]; intros st w H Hg Hs; simpl in H.
  - by apply ret_ok in H as [<- _].
  - apply bind_ok in H as (st1 & w1 & H1 & H).
    etrans; [apply (IH _ _ H)|by eapply submit_additional_keys]; [done|].
    pose proof (submit_additional_evolves i rid now assigned additional st x w) as Hev.
    rewrite H1 in Hev. by eapply table_le_grow; [apply (ev_guests _ _ Hev)|].
Qed.

Lemma loaded_ids i d gs g row :
  loaded i d gs -> guests d !! g = Some row -> active_in i g row = true -> g ∈ guest_ids gs.
Proof.
  intros [_ H] Hr Ha. destruct (H _ _ Hr Ha) as (x & Hx & <- & _).
  apply elem_of_list_to_set, list_elem_of_fmap. eauto.
Qed.
Lemma ids_origins gs : guest_ids gs ⊆ ids_with_origin true gs ∪ ids_with_origin false gs.
Proof.
  unfold guest_ids, ids_with_origin. intros x (g & -> & Hg)%elem_of_list_to_set%list_elem_of_fmap.
  rewrite elem_of_union, !elem_of_list_to_set, !list_elem_of_fmap.
  destruct (bool_decide (guest_Origin g = GuestOriginAssigned)) eqn:Eb; [left|right];
    exists g; (split; [done|]); apply list_elem_of_filter; by rewrite Eb.
Qed.

(** ** Required questions *)

Lemma forR_ok {A} (l : list A) f : forR l f = Ok tt -> forall x, x ∈ l -> f x = Ok tt.
Proof.
  induction l as [|y l IH]; simpl; intros H x; [by intros ?%not_elem_of_nil|].
  destruct (f y) as [[]|] eqn:Ef; simpl in H; [|done].
  intros [->|Hx]%elem_of_cons; auto.
Qed.

(** The live questions of an event are among the loaded ones. *)
Lemma loadQuestionsTx_ok e w qs w' k row :
  loadQuestionsTx e w = (Ok qs, w') -> event_questions (w_db w) !! k = Some row ->
  live_question e k row = true ->
  exists q, q ∈ qs /\ question_ID q = k /\ question_Scope q = q_scope row /\
            question_Required q = q_required row.
Proof.
  unfold loadQuestionsTx. intros H Hk Hl. apply bind_ok in H as (rows & w1 & H1 & H).
  apply query_ok in H1 as (-> & _). apply mapM_of_res_ok in H as [_ HF].
  assert ((k, row) ∈ select (live_question e) (event_questions (w_db w))) as Hin by (by apply elem_of_select).
  destruct (Forall2_elem_l _ _ _ _ HF Hin) as (q & Hq & Hs). unfold scanQuestion in Hs.
  destruct (json_strings _); [|done]. injection Hs as <-. eauto 6.
Qed.

Lemma answered_nonblank m q : is_blank (answer_at m q) = false -> exists a, m !! q = Some a /\ trim_space a <> "".
Proof.
  unfold is_blank, answer_at. rewrite bool_decide_eq_false. destruct (m !! q) as [a|]; simpl; [eauto|].
  intros []. reflexivity.
Qed.
Lemma required_invitation_answer questions active req q :
  validateResponseAnswers questions active req = Ok tt -> q ∈ questions ->
  question_Scope q = QuestionScopeInvitation -> question_Required q = true ->
  exists a, sr_InvitationAnswers req !! question_ID q = Some a /\ trim_space a <> "".
Proof.
  unfold validateResponseAnswers. intros H Hq Hs Hr.
  destruct (forR questions (check_invitation_required req)) as [[]|] eqn:H1; simpl in H; [|done].
  apply (forR_ok _ _ H1) in Hq. unfold check_invitation_required in Hq.
  rewrite Hs, bool_decide_eq_true_2, Hr in Hq by done. simpl in Hq.
  apply answered_nonblank. by destruct (is_blank _).
Qed.
Lemma required_guest_answer questions active req q g :
  validateResponseAnswers questions active req = Ok tt -> q ∈ questions -> g ∈ active ->
  guest_Attendance g = AttendanceAttending -> question_Scope q = QuestionScopeGuest ->
  question_Required q = true ->
  exists a, answers_at (sr_GuestAnswers req) (guest_ID g) !! question_ID q = Some a /\ trim_space a <> "".
Proof.
  unfold validateResponseAnswers. intros H Hq Hg Ha Hs Hr.
  destruct (forR questions _) as [[]|] eqn:H1; simpl in H; [|done].
  destruct (forR active _) as [[]|] eqn:H2; simpl in H; [|done].
  apply (forR_ok _ _ H2) in Hg. unfold check_guest_required in Hg.
  rewrite Ha, bool_decide_eq_true_2 in Hg by done. simpl in Hg. apply (forR_ok _ _ Hg) in Hq.
  rewrite Hs, bool_decide_eq_true_2, Hr in Hq by done. simpl in Hq.
  apply answered_nonblank. by destruct (is_blank _).
Qed.
End answers.

Section theorems.
Context `{E : Env}.

(** After a successful submission the household has at most as many active
    additional guests as its allowance. *)
Theorem submission_allowance i req w u w' :
  SubmitResponse i req w = (Ok u, w') ->
  exists inv, invitations (w_db w) !! i = Some inv /\
    count (is_extra i) (guests (w_db w')) <= i_allowance inv.
Proof.
  unfold SubmitResponse. intros (wa & wb & H & Da & Db & _)%with_tx_ok.
  apply submit_body_ok, submit_run_extra in H. by rewrite Da, <- Db in H.
Qed.

(** [C11] After a successful submission the stored answers are the submitted
    ones: the household's answers are exactly the request's invitation answers,
    and for every guest active before and after, its answers are exactly the
    request's answers for that guest. *)
Theorem submission_answers i req w u w' :
  SubmitResponse i req w = (Ok u, w') ->
  (forall q a, ia_stored i (w_db w') q a <-> sr_InvitationAnswers req !! q = Some a) /\
  (forall g row row' q a, guests (w_db w) !! g = Some row -> active_in i g row = true ->
     guests (w_db w') !! g = Some row' -> active_in i g row' = true ->
     ga_stored (w_db w') g q a <-> answers_at (sr_GuestAnswers req) g !! q = Some a).
Proof.
  unfold SubmitResponse. intros (wa & wb & H & Da & Db & _)%with_tx_ok.
  apply submit_body_ok in H as []. rewrite Db.
  pose proof (replaceAnswers_guests i active (set_guest_answers_req req (ls_answers st)) now w7) as G7.
  rewrite run_answers in G7. unfold same_guests in G7. simpl in G7.
  destruct (replaceAnswers_ok _ _ _ _ _ _ _ run_answers) as [Hi Hg]. split; [done|].
  intros g row row' q a Hr Ha Hr' Ha'. rewrite Hg.
  2: { eapply (loaded_ids _ _ _ _ row'); [exact run_active|congruence|done]. }
  assert (guests (w_db w2) = guests (w_db wa)) as G2.
  { unfold advance_version in run_version. apply stmt_ok in run_version as ([= _ Hd] & _).
    rewrite <- Hd. simpl. by rewrite run_w1. }
  assert (guests (w_db w4) = guests (w_db w3)) as G4.
  { eapply (respects_ok same_guests) in run_assigned; [exact run_assigned|].
    respect. apply submit_assigned_guests. }
  rewrite <- Da in Hr. simpl. unfold answers_at.
  rewrite (submit_all_keys _ _ _ _ _ _ _ _ _ _ g run_additional); [done|..].
  - apply ids_origins. eapply (loaded_ids _ _ _ _ row); [exact run_existing|by rewrite G2|done].
  - rewrite G4, run_w3, G2. eauto.
Qed.

(** After a successful submission every required question is answered with
    more than white space: the household's questions in its answers, and the
    guest questions for every active guest marked as attending. *)
Theorem submission_required i req w u w' inv :
  SubmitResponse i req w = (Ok u, w') -> invitations (w_db w) !! i = Some inv ->
  forall k row, event_questions (w_db w') !! k = Some row ->
    live_question (i_event_id inv) k row = true -> q_required row = true ->
    (q_scope row = "invitation" -> exists a, ia_stored i (w_db w') k a /\ trim_space a <> "") /\
    (q_scope row = "guest" -> forall g grow, guests (w_db w') !! g = Some grow ->
       active_in i g grow = true -> attendance_of (w_db w') g = "attending" ->
       exists a, ga_stored (w_db w') g k a /\ trim_space a <> "").
Proof.
  intros Hs Hinv k row Hk Hl Hreq.
  assert (event_questions (w_db w') = event_questions (w_db w)) as Hq.
  { pose proof (SubmitResponse_isolated i req w) as Hiso. rewrite Hs in Hiso. apply Hiso. }
  unfold SubmitResponse in Hs. apply with_tx_ok in Hs as (wa & wb & H & Da & Db & _).
  apply submit_body_ok in H as []. rewrite Da, Hinv in run_inv. injection run_inv as <-.
  destruct run_questions as (wq & Hload & Dq). rewrite Db in *.
  pose proof (replaceAnswers_evolves i active (set_guest_answers_req req (ls_answers st)) now w7) as Ev.
  pose proof (replaceAnswers_guests i active (set_guest_answers_req req (ls_answers st)) now w7) as G7.
  pose proof (replaceAnswers_gr i active (set_guest_answers_req req (ls_answers st)) now w7) as R7.
  rewrite run_answers in Ev, G7, R7. unfold same_guests in G7. unfold same_gr in R7. simpl in Ev, G7, R7.
  rewrite run_w7 in Ev, G7, R7. rewrite (ev_questions _ _ Ev), <- Dq in Hk.
  destruct (loadQuestionsTx_ok _ _ _ _ _ _ Hload Hk Hl) as (q & Hin & <- & Hsc & Hrq).
  destruct (replaceAnswers_ok _ _ _ _ _ _ _ run_answers) as [Hi Hg]. rewrite Hreq in Hrq.
  split; intros Hscope; rewrite Hscope in Hsc.
  - destruct (required_invitation_answer _ _ _ _ run_valid Hin Hsc Hrq) as (a & Ha & Hb).
    exists a. by rewrite Hi.
  - intros g grow Hgrow Hact Hatt. rewrite G7 in Hgrow. unfold attendance_of in Hatt.
    rewrite R7 in Hatt. destruct run_active as [Ract1 Ract2].
    destruct (Ract2 _ _ Hgrow Hact) as (x & Hx & <- & _ & Hxa). unfold attendance_of in Hxa.
    rewrite <- Hxa in Hatt.
    destruct (required_guest_answer _ _ _ _ _ run_valid Hin Hx Hatt Hsc Hrq) as (a & Ha & Hb).
    exists a. split; [|done]. apply Hg; [|done]. by eapply loaded_ids.
Qed.
End theorems.

Lemma submission_allowance_witness :
  exists u w', SubmitResponse (E := demo_env) "inv" (demo_request 1) demo_world = (Ok u, w') /\
    count (is_extra "inv") (guests (w_db w')) <= 1.
Proof.
  destruct (SubmitResponse (E := demo_env) "inv" (demo_request 1) demo_world) as [[u|x] w'] eqn:H;
    [|vm_compute in H; discriminate H].
  exists u, w'. split; [done|].
  destruct (submission_allowance (E := demo_env) "inv" (demo_request 1) demo_world u w' H)
    as (inv & Hinv & Hc).
  injection Hinv as <-. exact Hc.
Defined.

Lemma submission_answers_witness :
  exists u w', SubmitResponse (E := demo_env) "inv" (demo_request 1) demo_world = (Ok u, w') /\
    ia_stored "inv" (w_db w') "q" "Dancing Queen".
Proof.
  destruct (SubmitResponse (E := demo_env) "inv" (demo_request 1) demo_world) as [[u|x] w'] eqn:H;
    [|vm_compute in H; discriminate H].
  exists u, w'. split; [done|].
  apply (proj1 (submission_answers (E := demo_env) "inv" (demo_request 1) demo_world u w' H)).
  reflexivity.
Defined.

Lemma submission_required_witness :
  exists u w', SubmitResponse (E := demo_env) "inv" (demo_request 1) demo_world = (Ok u, w') /\
    exists a, ia_stored "inv" (w_db w') "q" a /\ trim_space a <> "".
Proof.
  destruct (SubmitResponse (E := demo_env) "inv" (demo_request 1) demo_world) as [[u|x] w'] eqn:H;
    [|vm_compute in H; discriminate H].
  exists u, w'. split; [done|].
  destruct (submission_required (E := demo_env) "inv" (demo_request 1) demo_world u w'
              demo_invitation H) with (k := "q") (row := demo_question) as [R _].
  - reflexivity.
  - replace w' with (SubmitResponse (E := demo_env) "inv" (demo_request 1) demo_world).2
      by (rewrite H; reflexivity).
    vm_compute. reflexivity.
  - reflexivity.
  - reflexivity.
  - apply R. reflexivity.
Defined.
