(* ===== verification/RecoveryFacts.v ===== *)
(** * Theorems on recovery: budgets and one-time tokens *)

From S2P Require Import Prelude.
From S2P Require Import GoStr.
From S2P Require Import GoTime.
From S2P Require Import Schema.
From S2P Require Import Eff.
From S2P Require Import Respect.
From S2P Require Import Demo.
From S2P Require Import Tables.
From S2P Require Import InvModel.
From S2P Require Import InvStore.
From S2P Require Import InvRecovery.
From S2P Require Import History.
From S2P Require Import Integrity.
From S2P Require Import System.

Local Open Scope Z_scope.

Section recovery_facts.
Context `{E : Env}.

(** ** One-time tokens *)

Lemma token_invitation_Some hash now d id r :
  token_invitation hash now d = Some (id, r) ->
  exists k rt, d.(invitation_recovery_tokens) !! k = Some rt /\ live_token hash now k rt = true /\
    rt.(rt_invitation_id) = id /\ d.(invitations) !! id = Some r /\ r.(i_revoked_at) = None.
Proof.
  unfold token_invitation. destruct (select_row _ _) as [[k rt]|] eqn:Es; simpl; [|done].
  apply select_row_Some in Es as [Hk Hu]. unfold usable_token in Hu. split_guards.
  unfold by_id. destruct (invitations d !! rt_invitation_id rt) as [r'|] eqn:Er; simpl; [|done].
  intros [= <- <-]. exists k, rt. split_and!; try done. by apply is_null_true.
Qed.
Lemma live_token_facts hash now k rt :
  live_token hash now k rt = true ->
  rt.(rt_token_hash) = hash /\ rt.(rt_consumed_at) = None /\ str_lt now rt.(rt_expires_at) = true.
Proof.
  unfold live_token. intros H. split_guards. split_and!; [|by apply is_null_true|done].
  by eapply bool_decide_eq_true.
Qed.

(** The transaction of the exchange. *)
Definition exchange_tx (recoveryHash sessionHash : string) (expires : time) : M string :=
  with_tx "begin recovery exchange" "commit recovery exchange" (
    t <- now ;;
    let nowText := format_nano t in
    row <- query "load recovery token" (token_invitation recoveryHash nowText) ;;
    found <- of_option ErrInvalidCapability row ;;
    changed <- consume_token recoveryHash nowText ;;
    require (changed =? 1) ErrInvalidCapability ;;;
    u <- new_uuid ;;
    exec "create recovery session"
      (insert_session u (session_row found.1 sessionHash found.2.(i_token_version) expires nowText)) ;;;
    ret found.1).
Lemma exchange_split rh sh e :
  ConsumeRecoveryAndCreateSession rh sh e = (id <- exchange_tx rh sh e ;; FindByID id).
Proof. done. Qed.

Lemma FindByID_reads id : reads (FindByID id).
Proof. unfold FindByID. respect. Qed.

Lemma exchange_tx_ok rh sh e w id w' :
  exchange_tx rh sh e w = (Ok id, w') ->
  exists k rt r u, let now := format_nano (clock w.(w_clock)) in
    w.(w_db).(invitation_recovery_tokens) !! k = Some rt /\ live_token rh now k rt = true /\
    rt.(rt_invitation_id) = id /\ w.(w_db).(invitations) !! id = Some r /\ r.(i_revoked_at) = None /\
    w'.(w_db).(invitation_recovery_tokens) !! k = Some (consume_token_row now rt) /\
    w.(w_db).(invitation_sessions) !! u = None /\
    w'.(w_db).(invitation_sessions)
      = <[u := session_row id sh r.(i_token_version) e now]> w.(w_db).(invitation_sessions) /\
    w'.(w_db).(invitations) = w.(w_db).(invitations).
Proof.
  unfold exchange_tx. intros (wa & wb & H & Da & Db & Dc & _)%with_tx_ok.
  apply bind_ok in H as (t & w1 & H1 & H). apply now_ok in H1 as (-> & D1 & _). cbv zeta in H.
  apply bind_ok in H as (row & w2 & H2 & H). apply query_ok in H2 as (-> & D2 & _).
  apply bind_ok in H as ([id0 r] & ? & H3 & H). apply of_option_ok in H3 as [H3 <-].
  apply bind_ok in H as (n & w3 & H4 & H). apply stmt_ok in H4 as ([= _ H4] & _).
  apply bind_ok in H as (? & ? & H5 & H). apply require_ok in H5 as [_ <-].
  apply bind_ok in H as (u & w4 & H5 & H). apply new_uuid_ok in H5 as (_ & D5 & _).
  apply bind_ok in H as (? & w5 & H6 & H). apply exec_ok in H6 as [H6 _].
  apply ret_ok in H as [<- <-]. rewrite D1, Da, Dc in H3. rewrite D2, D1, Da, Dc in H4.
  apply token_invitation_Some in H3 as (k & rt & Hk & Hl & Hi & Hr & Hn).
  unfold insert_session in H6. insert_cases H6. rewrite D5, <- H4 in *. simpl in *.
  exists k, rt, r, u. cbv zeta. rewrite Db, <- H6. simpl. rewrite Dc. split_and!; try done.
  - by rewrite lookup_update_where, Hk; simpl; rewrite Hl.
  - by apply has_false.
Qed.
Lemma exchange_tx_err rh sh e w er w' : exchange_tx rh sh e w = (Err er, w') -> w_db w' = w_db w.
Proof. apply with_tx_err. Qed.

(** ** Budgets *)

Definition attempts_insert (u : string) (r : RecoveryAttemptRow) (d : Database) : Database :=
  set_invitation_recovery_attempts <[u := r]> d.

Lemma within_budgets_ok cutoff checks w b w' :
  within_budgets cutoff checks w = (Ok b, w') ->
  w_db w' = w_db w /\
  (b = true <-> Forall (fun c => count (c.1 cutoff) w.(w_db).(invitation_recovery_attempts) < c.2) checks).
Proof.
  revert w. induction checks as [|[P n] l IH]; intros w H; simpl in H.
  - apply ret_ok in H as [<- <-]. split; [done|]. split; [constructor|done].
  - apply bind_ok in H as (c & w1 & H1 & H). apply query_ok in H1 as (-> & D1 & _).
    destruct (Z.leb_spec n (count (P cutoff) (invitation_recovery_attempts (w_db w)))).
    + apply ret_ok in H as [<- <-]. split; [done|]. split; [done|].
      intros [Hn _]%Forall_cons. simpl in Hn. lia.
    + apply IH in H as [D Hb]. rewrite D, D1 in *. split; [done|]. rewrite Hb, Forall_cons. simpl. tauto.
Qed.

Definition allow_body (eventID source dest : string) : M (outcome bool) :=
  lock_recovery_budget ;;;
  t <- now ;;
  let cutoff := format_nano (t - one_hour) in
  ok <- within_budgets cutoff (recovery_checks eventID source dest) ;;
  if ok : bool then
    t' <- now ;;
    u <- new_uuid ;;
    exec "record recovery attempt"
      (insert_recovery_attempt u (attempt_row eventID source dest (format_nano t'))) ;;;
    ret (Commit true)
  else ret (Rollback false).
Lemma allow_split e s d :
  AllowRecovery e s d = with_tx_early "begin recovery limit" "commit recovery limit" (allow_body e s d).
Proof. done. Qed.

Lemma allow_body_ok ev s d w oc w' :
  allow_body ev s d w = (Ok oc, w') ->
  let cutoff := format_nano (clock (w_clock w) - one_hour) in
  let old := invitation_recovery_attempts (w_db w) in
  let within := Forall (fun c => count (c.1 cutoff) old < c.2) (recovery_checks ev s d) in
  (oc = Commit true /\ within /\ exists u t, old !! u = None /\
     invitation_recovery_attempts (w_db w') = <[u := attempt_row ev s d t]> old) \/
  (oc = Rollback false /\ ~ within).
Proof.
  intros H cutoff old within. unfold allow_body in H. apply bind_ok in H as ([] & w1 & H1 & H).
  assert (w_db w1 = w_db w /\ w_clock w1 = w_clock w) as [D1 C1].
  { unfold lock_recovery_budget in H1. destruct (_ || _); [|done].
    apply exec_ok in H1 as ([= D] & C & _). done. }
  apply bind_ok in H as (t & w2 & H2 & H). apply now_ok in H2 as (-> & D2 & _). cbv zeta in H.
  apply bind_ok in H as (b & w3 & H3 & H). apply within_budgets_ok in H3 as [D3 Hb].
  rewrite D2, D1, C1 in Hb. destruct b.
  - apply bind_ok in H as (t' & w4 & H4 & H). apply now_ok in H4 as (_ & D4 & _).
    apply bind_ok in H as (u & w5 & H5 & H). apply new_uuid_ok in H5 as (_ & D5 & _).
    apply bind_ok in H as ([] & w6 & H6 & H). apply exec_ok in H6 as [H6 _].
    apply ret_ok in H as [<- <-]. left. split; [done|]. split; [by apply Hb|].
    unfold insert_recovery_attempt in H6. rewrite D5, D4, D3, D2, D1 in H6. insert_cases H6.
    exists u, (format_nano t'). split; [by apply has_false|]. by rewrite <- H6.
  - apply ret_ok in H as [<- <-]. right. split; [done|]. intros Hw. by apply Hb in Hw.
Qed.
End recovery_facts.

Section theorems.
Context `{E : Env}.

(** [C9] A recovery token works once: the exchange that succeeds found the token
    unconsumed, unexpired (in the stored text's order) and of a live invitation,
    and stored a session of the invitation's current version; from then on,
    whatever operations follow, every exchange of the same token fails and writes
    nothing. *)
Theorem recovery_single_use rh sh e w o w1 :
  Integrity (w_db w) -> ConsumeRecoveryAndCreateSession rh sh e w = (Ok o, w1) ->
  (exists k rt r u, let now := format_nano (clock (w_clock w)) in
     invitation_recovery_tokens (w_db w) !! k = Some rt /\ live_token rh now k rt = true /\
     invitations (w_db w) !! rt_invitation_id rt = Some r /\ i_revoked_at r = None /\
     invitation_sessions (w_db w) !! u = None /\
     invitation_sessions (w_db w1)
       = <[u := session_row (rt_invitation_id rt) sh (i_token_version r) e now]>
           (invitation_sessions (w_db w))) /\
  (forall ops sh' e', let w2 := run_ops ops w1 in
     exists er w3, ConsumeRecoveryAndCreateSession rh sh' e' w2 = (Err er, w3) /\ w_db w3 = w_db w2).
Proof.
  intros HI H. assert (Integrity (w_db w1)) as HI1.
  { pose proof (ConsumeRecovery_integrity rh sh e w HI) as Hc. by rewrite H in Hc. }
  rewrite exchange_split in H. apply bind_ok in H as (id & wa & Hx & Hf).
  pose proof (FindByID_reads id wa) as D. rewrite Hf in D. unfold same_db in D. simpl in D.
  apply exchange_tx_ok in Hx as (k & rt & r & u & Hk & Hl & <- & Hr & Hn & Hk' & Hu & Hs & _).
  rewrite <- D in *. split; [by exists k, rt, r, u|]. intros ops sh' e' w2.
  rewrite exchange_split. destruct (exchange_tx rh sh' e' w2) as [[id2|er] w3] eqn:Hx2.
  - apply exchange_tx_ok in Hx2 as (k2 & rt2 & _ & _ & Hk2 & Hl2 & _).
    destruct (ev_tokens _ _ (run_evolves ops w1) _ _ Hk') as (rt3 & Hk3 & _ & Hh3 & Hfr).
    apply live_token_facts in Hl2 as (Hh2 & Hc2 & _). apply live_token_facts in Hl as (Hh & _ & _).
    assert (k2 = k) as ->.
    { eapply (in_token _ (run_integrity ops w1 HI1)); [done..|]. rewrite <- Hh3. simpl. congruence. }
    unfold w2 in Hk2. rewrite Hfr in Hk3 by done. simplify_eq.
  - exists er, w3. split; [by apply bind_fails|]. by eapply exchange_tx_err.
Qed.

(** Recovery budgets: a request is allowed only when the last hour (in the
    stored text's order) holds fewer than 5 attempts of the source, 3 of the
    destination and 30 of the event; an allowed request records exactly one
    attempt and the hour then holds at most 5, 3 and 30; a refused request found
    a budget used up and records nothing, and so does one that fails. *)
Theorem recovery_budgets ev s d w :
  let cutoff := format_nano (clock (w_clock w) - one_hour) in
  let old := invitation_recovery_attempts (w_db w) in
  match AllowRecovery ev s d w with
  | (Ok true, w') =>
      let new := invitation_recovery_attempts (w_db w') in
      (exists u t, old !! u = None /\ new = <[u := attempt_row ev s d t]> old) /\
      count (source_since s cutoff) new <= 5 /\ count (destination_since d cutoff) new <= 3 /\
      count (event_since ev cutoff) new <= 30
  | (Ok false, w') =>
      w_db w' = w_db w /\
      (5 <= count (source_since s cutoff) old \/ 3 <= count (destination_since d cutoff) old \/
       30 <= count (event_since ev cutoff) old)
  | (Err _, w') => w_db w' = w_db w
  end.
Proof.
  intros cutoff old. destruct (AllowRecovery ev s d w) as [[b|er] w'] eqn:H.
  2: by eapply with_tx_early_err.
  rewrite allow_split in H. apply with_tx_early_ok in H as (wa & wb & Da & Dc & H).
  destruct H as [[H D]|[H D]]; apply allow_body_ok in H; rewrite Da, Dc in H; fold cutoff old in H;
    destruct H as [([= ->] & Hw & u & t & Hu & Hn)|[[= ->] Hw]].
  - rewrite <- D in Hn. rewrite Hn. split; [eauto|].
    unfold recovery_checks in Hw. rewrite !Forall_cons in Hw. simpl in Hw.
    rewrite !count_insert by done. repeat case_match; lia.
  - split; [done|]. destruct (decide (5 <= count (source_since s cutoff) old)); [auto|].
    destruct (decide (3 <= count (destination_since d cutoff) old)); [auto|].
    destruct (decide (30 <= count (event_since ev cutoff) old)); [auto|].
    destruct Hw. unfold recovery_checks. rewrite !Forall_cons. simpl.
    split_and!; [lia..|constructor].
Qed.
End theorems.

Lemma recovery_single_use_witness :
  exists o w1, ConsumeRecoveryAndCreateSession (E := demo_env) "rhash" "s2" demo_start demo_world = (Ok o, w1) /\
    forall ops, let w2 := run_ops (E := demo_env) ops w1 in
    exists er w3, ConsumeRecoveryAndCreateSession (E := demo_env) "rhash" "s3" demo_start w2 = (Err er, w3) /\
      w_db w3 = w_db w2.
Proof.
  destruct (ConsumeRecoveryAndCreateSession (E := demo_env) "rhash" "s2" demo_start demo_world)
    as [[o|x] w1] eqn:H; [|vm_compute in H; discriminate H].
  exists o, w1. split; [done|]. intros ops.
  destruct (recovery_single_use (E := demo_env) "rhash" "s2" demo_start demo_world o w1) as [_ R];
    [apply demo_sound|exact H|]. apply R.
Defined.
