(* ===== verification/ImportFacts.v ===== *)
(** * CSV import: the preview is what the commit accepts, and what a commit writes

    Facts about internal/invitation/csv.go and [Import] of store.go. *)

From S2P Require Import Prelude.
From S2P Require Import GoStr.
From S2P Require Import GoCsv.
From S2P Require Import GoTime.
From S2P Require Import Schema.
From S2P Require Import Eff.
From S2P Require Import Respect.
From S2P Require Import Demo.
From S2P Require Import Tables.
From S2P Require Import Capability.
From S2P Require Import InvModel.
From S2P Require Import Contacts.
From S2P Require Import InvStore.
From S2P Require Import History.
From S2P Require Import InvCsv.

Local Open Scope Z_scope.

(** A field as the preview leaves it. *)
Definition field_ok (limit : Z) (s : string) : Prop := trim_space s = s /\ s <> "" /\ len s <= limit.

(** The household as the commit stores it: a blank method stands for e-mail. *)
Definition commit_form (h : ImportHousehold) : ImportHousehold :=
  MkImportHousehold h.(ih_Key) h.(ih_Label) h.(ih_ContactEmail) h.(ih_ContactPhone)
    (contact_method h.(ih_Method)) h.(ih_Allowance) h.(ih_GuestNames).

Definition guests_in (l : list ImportHousehold) : nat :=
  sum_list_with (fun h => length h.(ih_GuestNames)) l.

Section import.
Context `{E : Env, !TextLaws E}.

Definition household_ok (h : ImportHousehold) : Prop :=
  field_ok 100 h.(ih_Key) /\ field_ok 200 h.(ih_Label) /\
  trim_space h.(ih_Method) = h.(ih_Method) /\ to_lower h.(ih_Method) = h.(ih_Method) /\
  0 <= h.(ih_Allowance) <= 50 /\
  (1 <= length h.(ih_GuestNames))%nat /\ Z.of_nat (length h.(ih_GuestNames)) <= MaxHouseholdGuests /\
  Forall (field_ok 200) h.(ih_GuestNames) /\
  validateContact h.(ih_ContactEmail) h.(ih_ContactPhone) h.(ih_Method)
  = Ok (h.(ih_ContactEmail), h.(ih_ContactPhone), contact_method h.(ih_Method)).

(** ** One household at commit *)

Lemma clean_names_ok index i names : Forall (field_ok 200) names -> clean_names index i names = Ok names.
Proof.
  intros H. revert i. induction H as [|n names (Ht & Hn & Hl) _ IH]; intros i; simpl; [done|].
  rewrite Ht, bool_decide_eq_false_2 by done. destruct (Z.ltb_spec 200 (len n)); [lia|].
  simpl. by rewrite IH.
Qed.

Lemma field_ok_check limit s :
  field_ok limit s -> bool_decide (s = "") || (limit <? len s) = false.
Proof. intros (_ & Hs & Hl). rewrite bool_decide_eq_false_2 by done. simpl. lia. Qed.

Lemma validate_household_ok index seen h :
  household_ok h -> h.(ih_Key) ∉ seen -> validate_household index seen h = Ok (commit_form h).
Proof.
  intros (Hk & Hl & Hm & Hlow & Ha & Hg1 & Hg2 & Hn & Hc) Hseen.
  unfold validate_household. rewrite (proj1 Hk), (proj1 Hl), Hm, Hlow.
  rewrite bool_decide_eq_false_2 by done.
  rewrite (field_ok_check _ _ Hk), (field_ok_check _ _ Hl).
  destruct (Z.ltb_spec h.(ih_Allowance) 0); [lia|].
  destruct (Z.ltb_spec 50 h.(ih_Allowance)); [lia|]. simpl.
  destruct (Z.eqb_spec (Z.of_nat (length h.(ih_GuestNames))) 0); [lia|].
  destruct (Z.ltb_spec MaxHouseholdGuests (Z.of_nat (length h.(ih_GuestNames)))); [lia|].
  simpl. rewrite Hc. by rewrite clean_names_ok.
Qed.

Lemma validate_households_ok index total seen l :
  Forall household_ok l -> NoDup (ih_Key <$> l) -> (forall h, h ∈ l -> h.(ih_Key) ∉ seen) ->
  total + Z.of_nat (guests_in l) <= MaxImportRows ->
  validate_households index total seen l = Ok (commit_form <$> l).
Proof.
  intros Hl. revert index total seen. induction Hl as [|h l Hh Hl IH]; intros index total seen Hnd Hs Ht;
    [done|]. unfold guests_in in *. simpl in *. apply NoDup_cons in Hnd as [Hk Hnd].
  rewrite validate_household_ok by (try done; apply Hs; left). simpl.
  destruct (Z.ltb_spec MaxImportRows (total + Z.of_nat (length h.(ih_GuestNames)))); [lia|].
  rewrite IH; [done|done| |lia].
  intros h' Hh'. rewrite not_elem_of_union, not_elem_of_singleton. split; [|by apply Hs; right].
  intros Heq. apply Hk. rewrite <- Heq. by apply list_elem_of_fmap_2.
Qed.

(** ** One row of the preview *)

Lemma check_nil (row limit : Z) (field v missing long : string) :
  (if bool_decide (v = "") then [MkIssue row field missing]
   else add_if (limit <? len v) (MkIssue row field long)) = [] -> v <> "" /\ len v <= limit.
Proof.
  case_bool_decide; [done|]. unfold add_if. destruct (Z.ltb_spec limit (len v)); [done|]. done.
Qed.

Lemma validateImportRow_nil row key label email phone method allowance name :
  validateImportRow row key label email phone method allowance name = [] ->
  (key <> "" /\ len key <= 100) /\ (label <> "" /\ len label <= 200) /\
  (name <> "" /\ len name <= 200) /\ (exists a, atoi allowance = Some a /\ 0 <= a <= 50) /\
  exists c, validateContact (if bool_decide (email = "") then None else Some email)
              (if bool_decide (phone = "") then None else Some phone) method = Ok c.
Proof.
  unfold validateImportRow. intros (Hk & (Hl & (Hn & (Ha & Hc)%app_nil)%app_nil)%app_nil)%app_nil.
  apply check_nil in Hk, Hl, Hn. split_and!; try apply Hk; try apply Hl; try apply Hn.
  - unfold add_if in Ha. destruct (atoi allowance) as [a|]; [|done]. exists a. split; [done|].
    destruct (Z.ltb_spec a 0), (Z.ltb_spec 50 a); simpl in Ha; try done; lia.
  - destruct (validateContact _ _ _) as [c|e]; [by exists c|done].
Qed.

(** A trimmed column that is set, through [validateContact] and through the
    row's own normalization. *)
Lemma contact_column (f : string -> string) s :
  trim_space s = s ->
  match (if bool_decide (s = "") then None else Some s) with
  | Some x => if bool_decide (trim_space x = "") then None else Some (f x) | None => None end
  = (if bool_decide (s = "") then None else Some (f s)).
Proof. intros Hs. case_bool_decide; [done|]. by rewrite Hs, bool_decide_eq_false_2. Qed.

Lemma contact_method_idemp m : contact_method (contact_method m) = contact_method m.
Proof. unfold contact_method. repeat case_bool_decide; done. Qed.

Lemma contact_method_default e p m :
  trim_space m = m -> validateContact e p (contact_method m) = validateContact e p m.
Proof.
  intros Hm. destruct (decide (m = "")) as [->|H]; [done|].
  unfold contact_method. by rewrite bool_decide_eq_false_2.
Qed.

Definition row_household (key label email phone method : string) (allowance : Z) (name : string)
    : ImportHousehold :=
  MkImportHousehold key label
    (if bool_decide (email = "") then None else Some (normalizeEmail email))
    (if bool_decide (phone = "") then None else Some (normalizePhone phone))
    method allowance [name].

Lemma row_household_ok row key label email phone method allowance name :
  trim_space key = key -> trim_space label = label -> trim_space email = email ->
  trim_space phone = phone -> trim_space name = name -> trim_space method = method ->
  validateImportRow row key label email phone (to_lower method) allowance name = [] ->
  household_ok (row_household key label email phone (to_lower method)
                  (default 0 (atoi allowance)) name).
Proof.
  intros Hk Hl He Hp Hn Hm
    (Hk' & Hl' & Hn' & (a & Ha & Ha') & [[e p] m] & Hc)%validateImportRow_nil.
  pose proof (to_lower_trimmed _ Hm) as Hm'.
  pose proof (validateContact_idemp _ _ _ _ _ _ Hc) as Hi.
  apply validateContact_ok in Hc as (Hmm & _ & -> & -> & _).
  rewrite Hm' in Hmm. subst m.
  rewrite !contact_column in Hi by done. rewrite contact_method_default in Hi by done.
  split_and!; simpl; try done; try (rewrite Ha; simpl; lia); try apply to_lower_idemp.
  by apply Forall_singleton.
Qed.

(** ** The row loop *)

Definition guests_at (m : gmap string (ImportHousehold * Z)) (k : string) : nat :=
  match m !! k with Some (h, _) => length h.(ih_GuestNames) | None => 0 end.

Record rows_ok (rows : Z) (st : Rows) : Prop := {
  ro_order : NoDup st.(ps_order);
  ro_keys : forall k, k ∈ st.(ps_order) <-> is_Some (st.(ps_byKey) !! k);
  ro_limit : Z.of_nat (length st.(ps_order)) <= MaxImportHouseholds;
  ro_size : size st.(ps_byKey) = length st.(ps_order);
  ro_households : forall k h r, st.(ps_byKey) !! k = Some (h, r) -> h.(ih_Key) = k /\ household_ok h;
  ro_guests : Z.of_nat (sum_list_with (guests_at st.(ps_byKey)) st.(ps_order)) <= rows }.

Lemma rows_ok_mono rows rows' st : rows <= rows' -> rows_ok rows st -> rows_ok rows' st.
Proof. intros Hle []. split; try done. lia. Qed.
Lemma rows_ok_errors rows st l : rows_ok rows st -> rows_ok rows (add_errors st l).
Proof. by intros []. Qed.
Lemma rows_ok_email rows st e k : rows_ok rows st -> rows_ok rows (note_email st e k).
Proof. destruct e; [|done]. by intros []. Qed.

Lemma guests_at_other (m : gmap string (ImportHousehold * Z)) k v l :
  k ∉ l -> sum_list_with (guests_at (<[k := v]> m)) l = sum_list_with (guests_at m) l.
Proof.
  induction l as [|x l IH]; simpl; [done|]. intros [Hx Hl]%not_elem_of_cons. rewrite IH by done.
  f_equal. unfold guests_at. by rewrite lookup_insert_ne.
Qed.
Lemma guests_at_insert (m : gmap string (ImportHousehold * Z)) k h r l :
  NoDup l -> k ∈ l ->
  (sum_list_with (guests_at (<[k := (h, r)]> m)) l + guests_at m k
   = sum_list_with (guests_at m) l + length h.(ih_GuestNames))%nat.
Proof.
  induction 1 as [|x l Hx Hl IH]; [by intros ?%elem_of_nil|]. simpl. intros [->|Hk]%elem_of_cons.
  - rewrite guests_at_other by done. unfold guests_at at 1. rewrite lookup_insert_eq. lia.
  - specialize (IH Hk). assert (guests_at (<[k := (h, r)]> m) x = guests_at m x) as ->; [|lia].
    unfold guests_at. rewrite lookup_insert_ne; [done|]. by intros ->.
Qed.

(** A new household, with one guest. *)
Lemma rows_ok_new rows st h row :
  rows_ok rows st -> household_ok h -> length h.(ih_GuestNames) = 1%nat ->
  st.(ps_byKey) !! h.(ih_Key) = None -> Z.of_nat (size st.(ps_byKey)) < MaxImportHouseholds ->
  rows_ok (rows + 1) (MkRows st.(ps_errors) (<[h.(ih_Key) := (h, row)]> st.(ps_byKey))
                        (st.(ps_order) ++ [h.(ih_Key)]) st.(ps_emails)).
Proof.
  intros [H1 H2 H3 H4 H5 H6] Hh Hone Hnew Hsize.
  assert (h.(ih_Key) ∉ st.(ps_order)) as Hno by (rewrite H2, Hnew; by intros [? ?]).
  split; simpl.
  - apply NoDup_app. split_and!; [done| |apply NoDup_singleton]. set_solver.
  - intros k. rewrite elem_of_app, list_elem_of_singleton, lookup_insert_is_Some, H2.
    destruct (decide (h.(ih_Key) = k)); naive_solver.
  - rewrite length_app. simpl. rewrite H4 in Hsize. lia.
  - rewrite map_size_insert_None, length_app by done. simpl. lia.
  - intros k h' r'. rewrite lookup_insert_Some. intros [[<- [= <- <-]]|[_ Hl]]; [done|by eapply H5].
  - rewrite sum_list_with_app, guests_at_other by done. simpl. unfold guests_at at 2.
    rewrite lookup_insert_eq, Hone. lia.
Qed.

(** A further guest of a known household. *)
Lemma rows_ok_guest rows st k h r name :
  rows_ok rows st -> st.(ps_byKey) !! k = Some (h, r) -> field_ok 200 name ->
  Z.of_nat (length h.(ih_GuestNames)) < MaxHouseholdGuests ->
  rows_ok (rows + 1) (MkRows st.(ps_errors) (<[k := (add_guest_name h name, r)]> st.(ps_byKey))
                        st.(ps_order) st.(ps_emails)).
Proof.
  intros [H1 H2 H3 H4 H5 H6] Hk Hname Hlen. split; simpl; try done.
  - intros k'. rewrite lookup_insert_is_Some, H2. destruct (decide (k = k')); naive_solver.
  - by rewrite map_size_insert_Some by (by rewrite Hk).
  - intros k' h' r'. rewrite lookup_insert_Some. intros [[<- [= <- <-]]|[_ Hl]]; [|by eapply H5].
    destruct (H5 _ _ _ Hk) as [Hkey (? & ? & ? & ? & ? & ? & ? & ? & ?)]. split; [done|].
    split_and!; simpl; try done; rewrite ?length_app; simpl; try lia.
    apply Forall_app; split; [done|]. by apply Forall_singleton.
  - pose proof (guests_at_insert st.(ps_byKey) k (add_guest_name h name) r st.(ps_order) H1) as Hg.
    rewrite H2 in Hg. specialize (Hg ltac:(by rewrite Hk)).
    unfold guests_at at 2 in Hg. rewrite Hk in Hg. simpl in Hg. rewrite length_app in Hg. simpl in Hg.
    lia.
Qed.

Lemma merge_row_ok rows row st h name :
  rows_ok rows st -> household_ok h -> h.(ih_GuestNames) = [name] ->
  rows_ok (rows + 1) (merge_row row st h name).
Proof.
  intros Hst Hh Hname. pose proof (rows_ok_mono rows (rows + 1) st ltac:(lia) Hst) as Hst'.
  unfold merge_row. destruct (st.(ps_byKey) !! h.(ih_Key)) as [[acc first]|] eqn:Hk.
  - destruct (householdConflicts acc h); [|by apply rows_ok_errors].
    destruct (Z.leb_spec MaxHouseholdGuests (Z.of_nat (length acc.(ih_GuestNames))));
      [by apply rows_ok_errors|].
    apply rows_ok_email. eapply rows_ok_guest; [done|done| |done].
    destruct Hh as (_ & _ & _ & _ & _ & _ & _ & Hn & _). rewrite Hname in Hn.
    by inversion Hn.
  - destruct (Z.leb_spec MaxImportHouseholds (Z.of_nat (size st.(ps_byKey))));
      [by apply rows_ok_errors|].
    apply rows_ok_email, rows_ok_new; try done. by rewrite Hname.
Qed.

Lemma column_value_trimmed indexes record c :
  trim_space (column_value indexes record c) = column_value indexes record c.
Proof. unfold column_value. destruct (indexes !! c); [apply trim_space_idemp|done]. Qed.

Lemma import_row_ok indexes rows row st record :
  rows_ok rows st -> rows_ok (rows + 1) (import_row indexes row st record).
Proof.
  intros Hst. unfold import_row. destruct (validateImportRow _ _ _ _ _ _ _ _) eqn:Hv.
  - apply merge_row_ok; [done| |done].
    eapply row_household_ok; [apply column_value_trimmed..|exact Hv].
  - apply rows_ok_errors. by apply (rows_ok_mono rows); [lia|].
Qed.

Lemma import_rows_ok columns indexes rows st items :
  rows_ok rows st -> rows <= MaxImportRows ->
  rows_ok MaxImportRows (import_rows columns indexes (rows + 2) st items).
Proof.
  revert rows st. induction items as [|[record|msg] items IH]; intros rows st Hst Hr; simpl.
  - by apply (rows_ok_mono rows).
  - destruct (Z.ltb_spec MaxImportRows (rows + 2 - 1));
      [by apply rows_ok_errors, (rows_ok_mono rows)|].
    replace (rows + 2 + 1) with (rows + 1 + 2) by lia. apply IH; [|lia].
    destruct (negb _); [apply rows_ok_errors, (rows_ok_mono rows); [lia|done]|].
    by apply import_row_ok.
  - by apply rows_ok_errors, (rows_ok_mono rows).
Qed.

(** ** The preview *)

Lemma rows_households_keys (m : gmap string (ImportHousehold * Z)) l :
  (forall k, k ∈ l -> is_Some (m !! k)) -> (forall k h r, m !! k = Some (h, r) -> h.(ih_Key) = k) ->
  let hs := omap (fun k => fst <$> m !! k) l in
  ih_Key <$> hs = l /\ guests_in hs = sum_list_with (guests_at m) l.
Proof.
  intros Hl Hm. induction l as [|k l IH]; [done|]. simpl in *.
  destruct (Hl k) as [[h r] Hk]; [left|]. unfold guests_at at 1. rewrite Hk. simpl.
  destruct IH as [IH1 IH2]; [by intros; apply Hl; right|].
  split; [f_equal; [by eapply Hm|exact IH1]|]. unfold guests_in in *. simpl. f_equal. exact IH2.
Qed.

Definition preview_ok (hs : list ImportHousehold) : Prop :=
  Forall household_ok hs /\ NoDup (ih_Key <$> hs) /\
  Z.of_nat (length hs) <= MaxImportHouseholds /\ Z.of_nat (guests_in hs) <= MaxImportRows.

Lemma rows_preview_ok st : rows_ok MaxImportRows st -> preview_ok (rows_households st).
Proof.
  intros [H1 H2 H3 H4 H5 H6]. unfold rows_households.
  destruct (rows_households_keys st.(ps_byKey) st.(ps_order)) as [Hk Hg];
    [by intros; apply H2|by intros k h r [? _]%H5|]. split_and!.
  - apply Forall_forall. intros h. rewrite list_elem_of_omap. intros (k & _ & Hh).
    apply fmap_Some in Hh as ([h' r] & Hk' & ->). by apply (H5 k h' r).
  - by rewrite Hk.
  - rewrite <- (length_fmap ih_Key), Hk. done.
  - by rewrite Hg.
Qed.

Lemma guest_count_fold n hs :
  fold_left (fun n h => n + Z.of_nat (length h.(ih_GuestNames))) hs n = n + Z.of_nat (guests_in hs).
Proof.
  revert n. induction hs as [|h hs IH]; intros n; unfold guests_in in *; simpl; [lia|].
  rewrite IH. lia.
Qed.

Lemma empty_rows_ok : rows_ok 0 (MkRows [] ∅ [] ∅).
Proof.
  split; simpl; try done; [apply NoDup_nil_2|]. intros k. rewrite lookup_empty.
  split; [by intros ?%elem_of_nil|by intros [? ?]].
Qed.

Lemma preview_items_ok items :
  let p := preview_items items in
  preview_ok p.(ip_Households) /\
  p.(ip_HouseholdCount) = Z.of_nat (length p.(ip_Households)) /\
  p.(ip_GuestCount) = Z.of_nat (guests_in p.(ip_Households)).
Proof.
  assert (preview_ok []) as Hnil by (split_and!; [done|apply NoDup_nil_2|done|done]).
  destruct items as [|[header|msg] rest]; simpl; [done| |done].
  destruct (validateImportHeader header) as [indexes [|e errors]]; [|done]. simpl.
  split_and!; [|done|by rewrite guest_count_fold].
  apply rows_preview_ok. apply (import_rows_ok _ _ 0); [apply empty_rows_ok|done].
Qed.

Lemma PreviewImportCSV_ok content p :
  PreviewImportCSV (Some content) = Ok p ->
  preview_ok p.(ip_Households) /\
  p.(ip_HouseholdCount) = Z.of_nat (length p.(ip_Households)) /\
  p.(ip_GuestCount) = Z.of_nat (guests_in p.(ip_Households)).
Proof.
  assert (preview_ok []) as Hnil by (split_and!; [done|apply NoDup_nil_2|done|done]).
  unfold PreviewImportCSV. repeat case_match; intros; simplify_eq; [done..|].
  apply preview_items_ok.
Qed.

(** Every household list a preview shows, within errors or
    without, passes the checks of the commit and is stored as shown, a blank
    delivery method standing for e-mail; the preview's counts are those of its
    households, and stay within the limits of 1000 households and 5000 guests. *)
Theorem preview_commits content p :
  PreviewImportCSV (Some content) = Ok p -> p.(ip_Households) <> [] ->
  validateImportCommit p.(ip_Households) = Ok (commit_form <$> p.(ip_Households)) /\
  p.(ip_HouseholdCount) = Z.of_nat (length p.(ip_Households)) /\
  p.(ip_HouseholdCount) <= MaxImportHouseholds /\
  p.(ip_GuestCount) = Z.of_nat (guests_in p.(ip_Households)) /\ p.(ip_GuestCount) <= MaxImportRows.
Proof.
  intros ((Hok & Hnd & Hlen & Htot) & Hc & Hg)%PreviewImportCSV_ok Hne.
  split_and!; [|done|by rewrite Hc|done|by rewrite Hg]. unfold validateImportCommit.
  destruct (Z.eqb_spec (Z.of_nat (length p.(ip_Households))) 0) as [H0|_];
    [destruct p.(ip_Households); [done|simpl in H0; lia]|].
  destruct (Z.ltb_spec MaxImportHouseholds (Z.of_nat (length p.(ip_Households)))); [lia|].
  apply validate_households_ok; [done|done|set_solver|lia].
Qed.
End import.

Definition demo_csv : string :=
  "household_key,household_label,contact_email,preferred_delivery,additional_guest_allowance,guest_name
smith, Smith Family ,A@b.c,,1,Jane
garcia,Garcia Family,m@b.c,none,0,Maria
smith,Smith Family,a@b.c,,1,John
".
Definition demo_households : list ImportHousehold :=
  [MkImportHousehold "smith" "Smith Family" (Some "a@b.c") None "" 1 ["Jane"; "John"];
   MkImportHousehold "garcia" "Garcia Family" (Some "m@b.c") None "none" 0 ["Maria"]].

Lemma preview_commits_witness :
  exists p, PreviewImportCSV (E:=demo_env) (Some demo_csv) = Ok p /\
    p.(ip_Households) = demo_households /\ p.(ip_Errors) = [] /\
    validateImportCommit (E:=demo_env) demo_households = Ok (commit_form <$> demo_households).
Proof.
  eexists. split; [vm_compute; reflexivity|]. split; [vm_compute; reflexivity|].
  split; [vm_compute; reflexivity|].
  apply (preview_commits (E:=demo_env) demo_csv (MkPreview 2 3 demo_households [] [])); [|done].
  vm_compute. reflexivity.
Defined.

(** ** CSV import: what a commit writes

    [CommitImport] (internal/invitation/csv.go) and [Import]
    (internal/invitation/store.go) either write every household of the request
    or nothing; what they write is stated exactly for the tables of invitations
    and guests. *)

(** The tables after a list of insertions. *)
Definition add_rows {R} (rows : list (string * R)) (t : gmap string R) : gmap string R :=
  foldl (fun t kr => <[kr.1 := kr.2]> t) t rows.

(** Every key is new when its row is inserted. *)
Fixpoint all_fresh {R} (rows : list (string * R)) (t : gmap string R) : Prop :=
  match rows with
  | [] => True
  | kr :: rest => t !! kr.1 = None /\ all_fresh rest (<[kr.1 := kr.2]> t)
  end.

Lemma add_rows_app {R} (l k : list (string * R)) t : add_rows (l ++ k) t = add_rows k (add_rows l t).
Proof. apply foldl_app. Qed.
Lemma all_fresh_app {R} (l k : list (string * R)) t :
  all_fresh l t -> all_fresh k (add_rows l t) -> all_fresh (l ++ k) t.
Proof. revert t. induction l as [|x l IH]; intros t; simpl; [done|]. intros [? ?] ?. split; [done|by apply IH]. Qed.
Lemma size_add_rows {R} (rows : list (string * R)) t :
  all_fresh rows t -> size (add_rows rows t) = (size t + length rows)%nat.
Proof.
  revert t. induction rows as [|kr rows IH]; intros t; simpl; [lia|]. intros [Hk Hr].
  change (size (add_rows rows (<[kr.1 := kr.2]> t)) = (size t + S (length rows))%nat).
  rewrite IH, map_size_insert_None by done. lia.
Qed.
Lemma add_rows_old {R} (rows : list (string * R)) t k r :
  all_fresh rows t -> t !! k = Some r -> add_rows rows t !! k = Some r.
Proof.
  revert t. induction rows as [|kr rows IH]; intros t; simpl; [done|]. intros [Hk Hr] Ht.
  apply (IH _ Hr). rewrite lookup_insert_ne; [done|]. intros <-. congruence.
Qed.
Lemma add_rows_new {R} (rows : list (string * R)) t k r :
  all_fresh rows t -> (k, r) ∈ rows -> add_rows rows t !! k = Some r.
Proof.
  revert t. induction rows as [|kr rows IH]; intros t; simpl; [by intros _ ?%elem_of_nil|].
  intros [Hk Hr] [<-|Hin]%elem_of_cons; [|by apply IH].
  apply (add_rows_old rows _ k r Hr). apply lookup_insert_eq.
Qed.

Section import_store.
Context `{E : Env}.

Definition guest_rows (now id : string) (gs : list Guest) : list (string * GuestRow) :=
  (fun g => (g.(guest_ID), guest_row id g.(guest_Name) g.(guest_Origin) g.(guest_SortOrder) now)) <$> gs.
Definition record_rows (now : string) (rs : list ImportRecord) : list (string * InvitationRow) :=
  (fun r => (r.(rec_Invitation).(ID), invitation_row r.(rec_Invitation) now)) <$> rs.
Definition record_guests (now : string) (rs : list ImportRecord) : list (string * GuestRow) :=
  rs ≫= (fun r => guest_rows now r.(rec_Invitation).(ID) r.(rec_Guests)).

(** [d] with these tables of invitations, guests and their responses, and every other
    table as it was. *)
Definition with_households (i : gmap string InvitationRow) (g : gmap string GuestRow)
    (r : gmap string ResponseRow) (gr : gmap string GuestResponseRow) (d : Database) : Database :=
  MkDatabase d.(users) d.(events) d.(event_questions) d.(open_enrollments) i g r gr
    d.(invitation_answers) d.(guest_answers) d.(invitation_sessions) d.(invitation_recovery_tokens)
    d.(invitation_recovery_attempts) d.(invitation_messages) d.(invite_cards) d.(notification_log)
    d.(magic_links) d.(sessions) d.(event_memberships) d.(account_invites) d.(admin_audit_log)
    d.(instances) d.(event_series) d.(reminders) d.(webhooks) d.(webhook_deliveries)
    d.(email_suppressions) d.(unsubscribe_tokens).

(** [d'] is [d] with these rows inserted. *)
Definition inserted (invs : list (string * InvitationRow)) (gs : list (string * GuestRow))
    (rs : list (string * ResponseRow)) (grs : list (string * GuestResponseRow)) (d d' : Database) : Prop :=
  (all_fresh invs d.(invitations) /\ all_fresh gs d.(guests) /\
   all_fresh rs d.(rsvp_responses) /\ all_fresh grs d.(guest_responses)) /\
  d' = with_households (add_rows invs d.(invitations)) (add_rows gs d.(guests))
         (add_rows rs d.(rsvp_responses)) (add_rows grs d.(guest_responses)) d.
(** ... an unanswered response per invitation and a pending one per guest. *)
Definition unanswered (x : string * ResponseRow) : Prop :=
  x.2.(r_version) = 1 /\ x.2.(r_submitted_at) = None.
Definition undecided (x : string * GuestResponseRow) : Prop := x.2.(gr_attendance) = "pending".
Definition added (invs : list (string * InvitationRow)) (gs : list (string * GuestRow))
    (d d' : Database) : Prop :=
  exists rs grs, inserted invs gs rs grs d d' /\
    (fun x => x.2.(r_invitation_id)) <$> rs = invs.*1 /\ Forall unanswered rs /\
    (fun x => x.2.(gr_guest_id)) <$> grs = gs.*1 /\ Forall undecided grs.

Lemma inserted_nil d : inserted [] [] [] [] d d.
Proof. split; [done|]. by destruct d. Qed.
Lemma inserted_app invs gs rs grs invs' gs' rs' grs' d d1 d2 :
  inserted invs gs rs grs d d1 -> inserted invs' gs' rs' grs' d1 d2 ->
  inserted (invs ++ invs') (gs ++ gs') (rs ++ rs') (grs ++ grs') d d2.
Proof.
  intros [(H1 & H2 & H3 & H4) ->] [(K1 & K2 & K3 & K4) ->]. simpl in *. split.
  - split_and!; by apply all_fresh_app.
  - by rewrite !add_rows_app.
Qed.
Lemma added_nil d : added [] [] d d.
Proof. exists [], []. split_and!; [apply inserted_nil|done..]. Qed.
Lemma added_app invs gs invs' gs' d d1 d2 :
  added invs gs d d1 -> added invs' gs' d1 d2 -> added (invs ++ invs') (gs ++ gs') d d2.
Proof.
  intros (rs & grs & H & Hr & Hu & Hg & Hp) (rs' & grs' & H' & Hr' & Hu' & Hg' & Hp').
  exists (rs ++ rs'), (grs ++ grs'). split; [by eapply inserted_app|].
  rewrite !fmap_app, Hr, Hr', Hg, Hg'. split_and!; try done; by apply Forall_app.
Qed.

Lemma insert_invitation_inserted id row d d' :
  insert_invitation id row d = Some d' -> inserted [(id, row)] [] [] [] d d'.
Proof. unfold insert_invitation. intros H. insert_cases H. split; [|done]. simpl. by rewrite has_false. Qed.
Lemma insert_guest_inserted id row d d' : insert_guest id row d = Some d' -> inserted [] [(id, row)] [] [] d d'.
Proof. unfold insert_guest. intros H. insert_cases H. split; [|done]. simpl. by rewrite has_false. Qed.
Lemma insert_response_inserted id row d d' : insert_response id row d = Some d' -> inserted [] [] [(id, row)] [] d d'.
Proof. unfold insert_response. intros H. insert_cases H. split; [|done]. simpl. by rewrite has_false. Qed.
Lemma insert_guest_response_inserted id row d d' :
  insert_guest_response id row d = Some d' -> inserted [] [] [] [(id, row)] d d'.
Proof. unfold insert_guest_response. intros H. insert_cases H. split; [|done]. simpl. by rewrite has_false. Qed.

Lemma insert_guests_added what responseID id now gs w w' u :
  forM gs (fun g => insert_guest_pair what responseID id now g.(guest_ID) g.(guest_Name)
                      g.(guest_Origin) g.(guest_SortOrder)) w = (Ok u, w') ->
  added [] (guest_rows now id gs) w.(w_db) w'.(w_db).
Proof.
  unfold forM. revert w. induction gs as [|g gs IH]; intros w H; simpl in H; run_ok; [apply added_nil|].
  units. apply IH in H. unfold insert_guest_pair in *. run_ok.
  match goal with Hg : insert_guest _ _ _ = Some _, Hr : insert_guest_response _ _ _ = Some _ |- _ =>
    apply insert_guest_inserted in Hg; apply insert_guest_response_inserted in Hr; rename Hg into Ins1, Hr into Ins2 end.
  eapply (added_app [] [_] []); [|exact H].
  match type of Ins2 with inserted _ _ _ _ ?a _ => match type of Ins1 with inserted _ _ _ _ _ ?b =>
    assert (a = b) as Hab by congruence; rewrite Hab in Ins2 end end.
  eexists [], _. split; [exact (inserted_app _ _ _ _ _ _ _ _ _ _ _ Ins1 Ins2)|]. split_and!; try done. by repeat constructor.
Qed.

Lemma insert_household_added what id row gs now w r w' :
  insert_household what id row gs now w = (Ok r, w') ->
  added [(id, row)] (guest_rows now id gs) w.(w_db) w'.(w_db).
Proof.
  unfold insert_household. intros H. apply bind_ok in H as (? & w1 & Hi & H). run_ok.
  match goal with Hf : forM _ _ _ = _ |- _ => apply insert_guests_added in Hf end.
  match goal with Hi : insert_invitation _ _ _ = Some _, Hr : insert_response _ _ _ = Some _ |- _ =>
    apply insert_invitation_inserted in Hi; apply insert_response_inserted in Hr; rename Hi into Ins1, Hr into Ins2 end.
  eapply (added_app [_] [] []); [|eassumption].
  match type of Ins2 with inserted _ _ _ _ ?a _ => match type of Ins1 with inserted _ _ _ _ _ ?b =>
    assert (a = b) as Hab by congruence; rewrite Hab in Ins2 end end.
  eexists _, []. split; [exact (inserted_app _ _ _ _ _ _ _ _ _ _ _ Ins1 Ins2)|]. split_and!; try done. by repeat constructor.
Qed.

Lemma insert_records_added now rs w u w' :
  forM rs (fun r => insert_household "import" r.(rec_Invitation).(ID)
             (invitation_row r.(rec_Invitation) now) r.(rec_Guests) now ;;; ret ()) w = (Ok u, w') ->
  added (record_rows now rs) (record_guests now rs) w.(w_db) w'.(w_db).
Proof.
  unfold forM. revert w. induction rs as [|r rs IH]; intros w H; simpl in H; run_ok; [apply added_nil|].
  units. apply IH in H. match goal with Hi : insert_household _ _ _ _ _ _ = _ |- _ =>
    apply insert_household_added in Hi end.
  by eapply (added_app [_]).
Qed.

Lemma Import_added rs w u w' :
  Import rs w = (Ok u, w') ->
  let now := format_nano (clock w.(w_clock)) in
  added (record_rows now rs) (record_guests now rs) w.(w_db) w'.(w_db).
Proof.
  unfold Import. intros H. apply with_tx_ok in H as (w1 & w2 & H & Hd1 & Hd2 & Hc & _).
  apply bind_ok in H as (t & w3 & (-> & Hd3 & _)%now_ok & H). cbv zeta in H.
  apply insert_records_added in H. by rewrite Hd2, <- Hd1, <- Hd3, <- Hc.
Qed.

(** ** The commit *)

(** The invitation and the guests built for a household. *)
Definition record_of (eventID creatorUserID : string) (h : ImportHousehold) (r : ImportRecord) : Prop :=
  let i := r.(rec_Invitation) in
  i.(EventID) = eventID /\ i.(CreatedByUserID) = Some creatorUserID /\ i.(Source) = SourcePrivate /\
  i.(TokenVersion) = 1 /\ i.(Label) = h.(ih_Label) /\ i.(ContactEmail) = h.(ih_ContactEmail) /\
  i.(ContactPhone) = h.(ih_ContactPhone) /\ i.(PreferredDeliveryMethod) = h.(ih_Method) /\
  i.(AdditionalGuestAllowance) = h.(ih_Allowance) /\
  (fun g => (g.(guest_Name), g.(guest_Origin), g.(guest_SortOrder))) <$> r.(rec_Guests)
  = imap (fun n name => (name, GuestOriginAssigned, Z.of_nat n)) h.(ih_GuestNames).

Lemma new_guests_of (l : list (nat * string)) w gs w' :
  mapM new_assigned_guest l w = (Ok gs, w') ->
  (fun g => (g.(guest_Name), g.(guest_Origin), g.(guest_SortOrder))) <$> gs
  = (fun ix => (ix.2, GuestOriginAssigned, Z.of_nat ix.1)) <$> l.
Proof.
  intros H%mapM_ok. induction H as [|x g l gs (w1 & w2 & Hx) _ IH]; [done|].
  unfold new_assigned_guest in Hx. run_ok. by f_equal.
Qed.

Lemma import_record_of eventID creator h w r w' :
  import_record eventID creator h w = (Ok r, w') -> record_of eventID creator h r.
Proof.
  unfold import_record. intros H. run_ok.
  match goal with Hg : mapM _ _ _ = _ |- _ => apply new_guests_of in Hg as Hgs end.
  split_and!; try done. simpl. rewrite Hgs. apply list_eq. intros n.
  by rewrite list_lookup_fmap, !list_lookup_imap, <- option_fmap_compose.
Qed.

Lemma import_records_read eventID creator l : reads (mapM (import_record eventID creator) l).
Proof. unfold import_record, new_assigned_guest, randomToken. respect. Qed.

Lemma record_of_guests eventID creator h r :
  record_of eventID creator h r -> length r.(rec_Guests) = length h.(ih_GuestNames).
Proof.
  intros (_ & _ & _ & _ & _ & _ & _ & _ & _ & Hg). apply (f_equal length) in Hg.
  by rewrite length_fmap, length_imap in Hg.
Qed.
Lemma records_guest_rows eventID creator now hs rs :
  Forall2 (record_of eventID creator) hs rs -> length (record_guests now rs) = guests_in hs.
Proof.
  induction 1 as [|h r hs rs Hr _ IH]; [done|].
  change (length (guest_rows now r.(rec_Invitation).(ID) r.(rec_Guests) ++ record_guests now rs)
          = (length h.(ih_GuestNames) + guests_in hs)%nat).
  rewrite length_app, IH. unfold guest_rows. by rewrite length_fmap, (record_of_guests _ _ _ _ Hr).
Qed.
Lemma records_guest_count eventID creator hs rs n :
  Forall2 (record_of eventID creator) hs rs ->
  fold_left (fun n r => n + Z.of_nat (length r.(rec_Guests))) rs n = n + Z.of_nat (guests_in hs).
Proof.
  intros H. revert n. induction H as [|h r hs rs Hr _ IH]; intros n; simpl; [lia|].
  rewrite IH, (record_of_guests _ _ _ _ Hr). unfold guests_in. simpl. lia.
Qed.

Lemma CommitImport_ok eventID creator hs w r w' :
  CommitImport eventID creator hs w = (Ok r, w') ->
  exists validated records now, validateImportCommit hs = Ok validated /\
    Forall2 (record_of eventID creator) validated records /\
    added (record_rows now records) (record_guests now records) w.(w_db) w'.(w_db) /\
    r = MkCommitResult (Z.of_nat (length validated)) (Z.of_nat (guests_in validated))
          ((fun x => x.(rec_Invitation).(ID)) <$> records).
Proof.
  unfold CommitImport. intros H. apply bind_ok in H as (v & w1 & (Hv & <-)%of_res_ok & H).
  apply bind_ok in H as (rs & w2 & Hm & H). apply bind_ok in H as (u & w3 & Hi%Import_added & H).
  apply ret_ok in H as [<- <-]. cbv zeta in Hi.
  pose proof (import_records_read eventID creator v w) as Hsame. unfold same_db in Hsame.
  rewrite Hm in Hsame. simpl in Hsame. rewrite Hsame in Hi.
  assert (Forall2 (record_of eventID creator) v rs) as Hrs.
  { apply mapM_ok in Hm. eapply Forall2_impl; [exact Hm|].
    intros h x (? & ? & Hx). by eapply import_record_of. }
  exists v, rs, (format_nano (clock w2.(w_clock))). split_and!; try done.
  by rewrite (records_guest_count _ _ _ _ 0 Hrs).
Qed.

Lemma CommitImport_err eventID creator hs w e w' :
  CommitImport eventID creator hs w = (Err e, w') -> w'.(w_db) = w.(w_db).
Proof.
  unfold CommitImport, bind, of_res. destruct (validateImportCommit hs) as [v|]; [|by intros [= _ <-]].
  pose proof (import_records_read eventID creator v w) as Hsame. unfold same_db in Hsame.
  destruct (mapM _ v w) as [[rs|e1] w1]; simpl in *; [|by intros [= _ <-]].
  destruct (Import rs w1) as [[u|e2] w2] eqn:Hi; [done|]. intros [= _ <-].
  unfold Import in Hi. apply with_tx_err in Hi. congruence.
Qed.

(** [C12] A commit that fails, at whatever statement, leaves the database as it was; one
    that succeeds adds exactly one invitation per household of the request, with its
    label, contact, method and allowance, private, at link version 1, exactly the named
    guests in their order, one unanswered response per invitation and one pending
    response per guest; the counts it reports are those numbers, no row that was there
    is changed, and every other table is as it was. *)
Theorem import_all_or_nothing eventID creator hs w :
  match CommitImport eventID creator hs w with
  | (Err _, w') => w'.(w_db) = w.(w_db)
  | (Ok r, w') =>
      exists validated records now responses guestResponses,
        validateImportCommit hs = Ok validated /\
        Forall2 (record_of eventID creator) validated records /\
        r.(ic_InvitationIDs) = (fun x => x.(rec_Invitation).(ID)) <$> records /\
        (let d := w.(w_db) in
         w'.(w_db) = with_households (add_rows (record_rows now records) d.(invitations))
           (add_rows (record_guests now records) d.(guests)) (add_rows responses d.(rsvp_responses))
           (add_rows guestResponses d.(guest_responses)) d) /\
        (fun x => x.2.(r_invitation_id)) <$> responses = r.(ic_InvitationIDs) /\
        Forall unanswered responses /\
        (fun x => x.2.(gr_guest_id)) <$> guestResponses = (record_guests now records).*1 /\
        Forall undecided guestResponses /\
        Z.of_nat (size w'.(w_db).(invitations))
        = Z.of_nat (size w.(w_db).(invitations)) + r.(ic_HouseholdCount) /\
        Z.of_nat (size w'.(w_db).(guests)) = Z.of_nat (size w.(w_db).(guests)) + r.(ic_GuestCount) /\
        w.(w_db).(invitations) ⊆ w'.(w_db).(invitations) /\ w.(w_db).(guests) ⊆ w'.(w_db).(guests) /\
        w.(w_db).(rsvp_responses) ⊆ w'.(w_db).(rsvp_responses) /\
        w.(w_db).(guest_responses) ⊆ w'.(w_db).(guest_responses)
  end.
Proof.
  destruct (CommitImport eventID creator hs w) as [[r|e] w'] eqn:H; [|by apply CommitImport_err in H].
  apply CommitImport_ok in H as (v & rs & now & Hv & Hrs & (rp & grp & [(F1 & F2 & F3 & F4) Hd] & Hr & Hu & Hg & Hp) & ->).
  exists v, rs, now, rp, grp. rewrite Hd. simpl. rewrite !size_add_rows by done.
  rewrite (records_guest_rows _ _ now _ _ Hrs).
  assert (length (record_rows now rs) = length v) as ->
    by (unfold record_rows; by rewrite length_fmap, (Forall2_length _ _ _ Hrs)).
  split_and!; try done; try lia; try (apply map_subseteq_spec; intros; by apply add_rows_old).
  rewrite Hr. unfold record_rows. rewrite <- list_fmap_compose. done.
Qed.
End import_store.

Example demo_import :
  let '(r, w') := CommitImport (E:=demo_env) "ev" "org" demo_households demo_world in
  (exists x, r = Ok x /\ x.(ic_HouseholdCount) = 2 /\ x.(ic_GuestCount) = 3) /\
  size w'.(w_db).(invitations) = (size demo_world.(w_db).(invitations) + 2)%nat.
Proof. vm_compute. eauto. Qed.
