(* ===== verification/InvHandler.v ===== *)
(** * The HTTP handlers of the invitation domain (internal/invitation/handler.go)

    A handler is a program that ends in a reply.  Request bodies come decoded:
    [None] is an error of [httpx.DecodeJSON]; path and query parameters, the
    cookie and the signed-in user are fields of the request.  A handler whose Go
    code would panic ends in an error of the monad instead of a reply. *)

From S2P Require Import Prelude.
From S2P Require Import GoStr.
From S2P Require Import GoCsv.
From S2P Require Import GoTime.
From S2P Require Import Schema.
From S2P Require Import Eff.
From S2P Require Import Http.
From S2P Require Import Capability.
From S2P Require Import InvModel.
From S2P Require Import InvStore.
From S2P Require Import InvOpen.
From S2P Require Import InvManage.
From S2P Require Import InvCsv.
From S2P Require Import InvExport.
From S2P Require Import InvService.

Local Open Scope Z_scope.

Definition invitationSessionCookie : string := "owl_invitation_session".

(** ** Requests and replies *)

Record Request := MkRequest {
  rq_user : option string;      (* [userFrom] of the context *)
  rq_eventId : string;          (* chi.URLParam(r, "eventId") *)
  rq_invitationId : string;     (* chi.URLParam(r, "invitationId") *)
  rq_query : InvitationListFilter;
  rq_cookie : option string;    (* the invitation session cookie *)
  rq_remoteAddr : string }.

Inductive Payload :=
| PNull
| PImportPreview (p : ImportPreview)
| PImportResult (r : ImportCommitResult)
| PMessageResult (r : MessageResult)
| PMessagePreview (p : MessagePreview)
| PHouseholds (l : list Household)
| PCreated (r : CreateResult)
| PHousehold (h : Household)
| PNotice (message : string)
| POpenConfig (config : OpenEnrollmentConfig) (accessUrl : string)
| POpenEvent (event : EventSummary) (maxPartySize : Z)
| PEnrolled (h : Household) (delivery : DeliveryResult).

Inductive Body :=
| BEmpty
| BData (p : Payload)
| BError (code message : string)
| BFile (contentType filename content : string).

Record Reply := MkReply { rp_status : Z; rp_body : Body; rp_cookie : option Cookie }.

(** The multipart form of an upload. *)
Inductive Upload := UploadTooLarge | UploadWithoutFile | UploadFile (reader : option string).

Definition writeJSON (status : Z) (value : Payload) : Reply := MkReply status (BData value) None.
Definition writeError (status : Z) (code message : string) : Reply :=
  MkReply status (BError code message) None.
Definition no_content : Reply := MkReply 204 BEmpty None.
Definition with_cookie (c : Cookie) (r : Reply) : Reply := MkReply r.(rp_status) r.(rp_body) (Some c).

Definition event_not_found : Reply := writeError 404 "not_found" "event not found".
Definition invitation_not_found : Reply := writeError 404 "not_found" "invitation not found".
Definition bad_json : Reply := writeError 400 "bad_request" "invalid JSON body".
Definition open_unavailable : Reply := writeError 404 "not_found" "open invitation unavailable".
Definition invalid_invitation : Reply :=
  writeError 401 "invalid_capability" "invalid or expired invitation".
Definition invalid_recovery : Reply :=
  writeError 401 "invalid_capability" "invalid or expired recovery link".
Definition recovery_notice : Reply :=
  writeJSON 200 (PNotice "If a matching invitation exists, recovery instructions will be sent to its stored destination.").

Definition crlf : string := of_bytes [CR; LF].
Definition importTemplateCSV : string :=
  "household_key,household_label,contact_email,contact_phone,preferred_delivery,additional_guest_allowance,guest_name" +:+ crlf
  +:+ "smith,Smith Family,smith@example.com,,email,1,Jane Smith" +:+ crlf
  +:+ "smith,Smith Family,smith@example.com,,email,1,John Smith" +:+ crlf
  +:+ "garcia,Garcia Family,maria@example.com,,email,0,Maria Garcia" +:+ crlf.

(** [EventAccessChecker]: eventID, userID. *)
Definition EventAccessChecker : Type := string -> string -> M ().

Record Handler := MkHandler {
  service : Service; checkEventAccess : EventAccessChecker; secureCookies : bool }.

Section handler.
Context `{E : Env, HttpEnv} (h : Handler).

Definition internal : M Reply :=
  ref <- Ref ;;
  ret (writeError 500 "internal_error" ("an internal error occurred (ref: " +:+ ref +:+ ")")).

(** The reply for an error of the service; [writeServiceError] reports whether
    there was one. *)
Definition service_error (e : err) : M Reply :=
  match e with
  | EValidation message => ret (writeError 400 "bad_request" message)
  | ErrConflict => ret (writeError 409 "version_conflict" "the response changed; reload and try again")
  | ErrAllowance => ret (writeError 409 "allowance_exceeded" "additional guest allowance exceeded")
  | ErrCapacity => ret (writeError 409 "capacity_reached" "open invitation capacity reached")
  | ErrDeliverySuppressed => ret (writeError 409 "delivery_suppressed"
      "the stored email destination is suppressed; update the destination or suppression settings before retrying")
  | ErrInvalidCapability => ret invalid_invitation
  | ErrNotFound => ret invitation_not_found
  | _ => internal
  end.
Definition writeServiceError {A} (r : res A) (k : A -> M Reply) : M Reply :=
  match r with Ok a => k a | Err e => service_error e end.

Definition capabilityError (e : err) : M Reply :=
  match e with
  | ErrInvalidCapability | ErrNotFound => ret invalid_invitation
  | _ => internal
  end.

Definition setSessionCookie (raw : string) : Reply -> Reply :=
  with_cookie (MkCookie invitationSessionCookie raw "/" true h.(secureCookies) "Strict"
                 (Z.quot h.(service).(sessionExpiry) ns_per_sec)).
Definition sessionCookie (r : Request) : string := default "" r.(rq_cookie).

Definition logDeliveryFailure (delivery : DeliveryResult) : M () :=
  match delivery.(dr_err) with None => ret () | Some _ => Ref ;;; ret () end.

Definition remoteIdentity (r : Request) : string :=
  match split_host_port r.(rq_remoteAddr) with
  | Some (host, _) => host
  | None => trim_space r.(rq_remoteAddr)
  end.

(** ** Organizer routes *)

(** eventID, userID *)
Definition eventActor (r : Request) : M (option (string * string)) :=
  match r.(rq_user) with
  | None => ret None
  | Some userID =>
      if bool_decide (r.(rq_eventId) = "") then ret None
      else a <- attempt (h.(checkEventAccess) r.(rq_eventId) userID) ;;
           ret (match a with Ok _ => Some (r.(rq_eventId), userID) | Err _ => None end)
  end.

(** What every organizer handler starts with. *)
Definition for_organizer (r : Request) (k : string -> string -> M Reply) : M Reply :=
  o <- eventActor r ;;
  match o with
  | None => ret event_not_found
  | Some (eventID, userID) => k eventID userID
  end.
Definition with_body {A} (body : option A) (k : A -> M Reply) : M Reply :=
  match body with None => ret bad_json | Some req => k req end.
(** Run the service and answer its result. *)
Definition respond {A} (m : M A) (k : A -> M Reply) : M Reply :=
  r <- attempt m ;; writeServiceError r k.

Definition importTemplate (r : Request) : M Reply :=
  for_organizer r (fun _ _ =>
    ret (MkReply 200 (BFile "text/csv; charset=utf-8"
           "owl-invites-household-import-template.csv" importTemplateCSV) None)).

Definition previewImport (r : Request) (upload : Upload) : M Reply :=
  for_organizer r (fun _ _ =>
    match upload with
    | UploadTooLarge =>
        ret (writeError 413 "import_too_large" "CSV upload exceeds the import size limit")
    | UploadWithoutFile => ret (writeError 400 "bad_request" "CSV file is required")
    | UploadFile file =>
        match PreviewImportCSV file with
        | Err _ => internal
        | Ok preview => ret (writeJSON 200 (PImportPreview preview))
        end
    end).

Definition commitImport (r : Request) (body : option (list ImportHousehold)) : M Reply :=
  for_organizer r (fun eventID userID => with_body body (fun req =>
    respond (CommitImport eventID userID req)
      (fun result => ret (writeJSON 201 (PImportResult result))))).

Definition exportCSV (r : Request) : M Reply :=
  for_organizer r (fun eventID _ =>
    a <- attempt (ExportEventCSV eventID) ;;
    match a with
    | Err _ => internal
    | Ok data => ret (MkReply 200 (BFile "text/csv; charset=utf-8"
                        "owl-invites-event-responses.csv" data) None)
    end).

Definition message (r : Request) (body : option MessageRequest) : M Reply :=
  for_organizer r (fun eventID userID => with_body body (fun req =>
    respond (BroadcastDetailed h.(service) eventID (Some userID) req)
      (fun result => ret (writeJSON 201 (PMessageResult result))))).

Definition previewMessage (r : Request) (body : option string) : M Reply :=
  for_organizer r (fun eventID _ => with_body body (fun recipientGroup =>
    respond (PreviewBroadcast eventID recipientGroup)
      (fun preview => ret (writeJSON 200 (PMessagePreview preview))))).

Definition list_invitations (r : Request) : M Reply :=
  for_organizer r (fun eventID _ =>
    respond (ListOrganizerHouseholds eventID r.(rq_query))
      (fun items => ret (writeJSON 200 (PHouseholds items)))).

Definition create (r : Request) (body : option CreateRequest) : M Reply :=
  for_organizer r (fun eventID userID => with_body body (fun req =>
    respond (CreatePrivate h.(service) eventID userID req)
      (fun result => logDeliveryFailure result.(res_Delivery) ;;;
                     ret (writeJSON 201 (PCreated result))))).

Definition get (r : Request) : M Reply :=
  for_organizer r (fun eventID _ =>
    a <- attempt (FindByIDForEvent r.(rq_invitationId) eventID) ;;
    match a with
    | Err _ => internal
    | Ok None => ret invitation_not_found
    | Ok (Some inv) =>
        b <- attempt (LoadOrganizerHousehold inv.(ID)) ;;
        match b with
        | Err _ => internal
        | Ok household => ret (writeJSON 200 (PHousehold household))
        end
    end).

Definition update (r : Request) (body : option UpdateInvitationRequest) : M Reply :=
  for_organizer r (fun eventID _ => with_body body (fun req =>
    respond (UpdateInvitation eventID r.(rq_invitationId) req)
      (fun household => ret (writeJSON 200 (PHousehold household))))).

Definition deliver (r : Request) : M Reply :=
  for_organizer r (fun eventID _ =>
    a <- attempt (FindByIDForEvent r.(rq_invitationId) eventID) ;;
    match a with
    | Err _ | Ok None => ret invitation_not_found
    | Ok (Some inv) => respond (Deliver h.(service) inv.(ID)) (fun _ => ret no_content)
    end).

Definition rotate (r : Request) : M Reply :=
  for_organizer r (fun eventID _ =>
    respond (Service_Rotate h.(service) eventID r.(rq_invitationId))
      (fun result => ret (writeJSON 200 (PCreated result)))).

Definition revoke (r : Request) (body : option string) : M Reply :=
  for_organizer r (fun eventID _ => with_body body (fun reason =>
    respond (Service_Revoke eventID r.(rq_invitationId) reason) (fun _ => ret no_content))).

Definition getOpen (r : Request) : M Reply :=
  for_organizer r (fun eventID _ =>
    a <- attempt (FindOpenByEvent eventID) ;;
    match a with
    | Err _ => internal
    | Ok None => ret (writeJSON 200 PNull)
    | Ok (Some config) =>
        ret (writeJSON 200 (POpenConfig config (openAccessURL h.(service) config)))
    end).

Definition configureOpen (r : Request) (body : option ConfigureOpenRequest) : M Reply :=
  for_organizer r (fun eventID userID => with_body body (fun req =>
    respond (Service_ConfigureOpen h.(service) eventID userID req)
      (fun '(config, accessURL) => ret (writeJSON 200 (POpenConfig config accessURL))))).

Definition rotateOpen (r : Request) : M Reply :=
  for_organizer r (fun eventID _ =>
    respond (Service_RotateOpen h.(service) eventID)
      (fun '(config, accessURL) => ret (writeJSON 200 (POpenConfig config accessURL)))).

(** ** Guest routes *)

Definition exchange (body : option string) : M Reply :=
  match body with
  | None => ret invalid_invitation
  | Some capability =>
      a <- attempt (ExchangePrivate h.(service) capability) ;;
      match a with
      | Err e => capabilityError e
      | Ok (rawSession, household) =>
          ret (setSessionCookie rawSession (writeJSON 200 (PHousehold household)))
      end
  end.

Definition session (r : Request) : M Reply :=
  a <- attempt (HouseholdForSession (sessionCookie r)) ;;
  match a with
  | Err e => capabilityError e
  | Ok household => ret (writeJSON 200 (PHousehold household))
  end.

Definition submit (r : Request) (body : option SubmitRequest) : M Reply :=
  with_body body (fun req =>
    respond (SubmitForSession (sessionCookie r) req)
      (fun household => ret (writeJSON 200 (PHousehold household)))).

(** The reply does not wait for the recovery itself, which runs in a goroutine
    of its own: the second component. *)
Definition requestRecovery (r : Request) (body : option (string * string)) : Reply * M () :=
  (recovery_notice,
   match body with
   | None => ret ()
   | Some (eventID, contact) =>
       a <- attempt (RequestRecovery h.(service) eventID contact (remoteIdentity r)) ;;
       match a with Ok _ => ret () | Err _ => Ref ;;; ret () end
   end).

Definition exchangeRecovery (body : option string) : M Reply :=
  match body with
  | None => ret invalid_recovery
  | Some capability =>
      a <- attempt (ExchangeRecovery h.(service) capability) ;;
      match a with
      | Err e => capabilityError e
      | Ok (rawSession, household) =>
          ret (setSessionCookie rawSession (writeJSON 200 (PHousehold household)))
      end
  end.

Definition inspectOpen (body : option string) : M Reply :=
  match body with
  | None => ret open_unavailable
  | Some capability =>
      a <- attempt (InspectOpen h.(service) capability) ;;
      match a with
      | Err _ => ret open_unavailable
      | Ok (config, event) => ret (writeJSON 200 (POpenEvent event config.(oc_MaxPartySize)))
      end
  end.

Definition enrollOpen (body : option OpenEnrollmentRequest) : M Reply :=
  with_body body (fun req =>
    respond (Service_EnrollOpen h.(service) req)
      (fun '(rawSession, household, delivery) =>
         logDeliveryFailure delivery ;;;
         ret (setSessionCookie rawSession (writeJSON 201 (PEnrolled household delivery))))).

(** ** The routers *)

Inductive OrganizerCall :=
| CList | CCreate (body : option CreateRequest) | CImportTemplate
| CPreviewImport (upload : Upload) | CCommitImport (body : option (list ImportHousehold))
| CExport | CGet | CUpdate (body : option UpdateInvitationRequest) | CDeliver | CRotate
| CRevoke (body : option string) | CPreviewMessage (body : option string)
| CMessage (body : option MessageRequest) | CGetOpen
| CConfigureOpen (body : option ConfigureOpenRequest) | CRotateOpen.

(** [OrganizerInvitationRoutes] and [OrganizerOpenEnrollmentRoutes]. *)
Definition organizer_route (c : OrganizerCall) (r : Request) : M Reply :=
  match c with
  | CList => list_invitations r
  | CCreate body => create r body
  | CImportTemplate => importTemplate r
  | CPreviewImport upload => previewImport r upload
  | CCommitImport body => commitImport r body
  | CExport => exportCSV r
  | CGet => get r
  | CUpdate body => update r body
  | CDeliver => deliver r
  | CRotate => rotate r
  | CRevoke body => revoke r body
  | CPreviewMessage body => previewMessage r body
  | CMessage body => message r body
  | CGetOpen => getOpen r
  | CConfigureOpen body => configureOpen r body
  | CRotateOpen => rotateOpen r
  end.

Inductive PublicCall :=
| PExchange (body : option string) | PSession | PSubmit (body : option SubmitRequest)
| PRequestRecovery (body : option (string * string)) | PExchangeRecovery (body : option string)
| PInspectOpen (body : option string) | PEnrollOpen (body : option OpenEnrollmentRequest).

(** [PublicRoutes]; the recovery job runs after its reply. *)
Definition public_route (c : PublicCall) (r : Request) : M Reply :=
  match c with
  | PExchange body => exchange body
  | PSession => session r
  | PSubmit body => submit r body
  | PRequestRecovery body =>
      let '(reply, job) := requestRecovery r body in job ;;; ret reply
  | PExchangeRecovery body => exchangeRecovery body
  | PInspectOpen body => inspectOpen body
  | PEnrollOpen body => enrollOpen body
  end.
End handler.
