(* ===== verification/Tenancy.v ===== *)
(** * Events are kept apart

    What an organizer's request for one event leaves alone: every invitation of
    another event and the households, sessions, open enrollments and messages
    that belong to it.  The relation is preserved by each operation the handlers
    of internal/invitation/handler.go call, and so by every organizer route. *)

From S2P Require Import Prelude.
From S2P Require Import GoStr.
From S2P Require Import GoTime.
From S2P Require Import Schema.
From S2P Require Import Eff.
From S2P Require Import Http.
From S2P Require Import Respect.
From S2P Require Import Demo.
From S2P Require Import Tables.
From S2P Require Import Capability.
From S2P Require Import InvModel.
From S2P Require Import InvStore.
From S2P Require Import InvResponse.
From S2P Require Import InvOpen.
From S2P Require Import InvManage.
From S2P Require Import History.
From S2P Require Import Integrity.
From S2P Require Import InvCsv.
From S2P Require Import InvExport.
From S2P Require Import InvService.
From S2P Require Import InvHandler.

Local Open Scope Z_scope.

(** Household [i] is of another event than [ev], or of [ev]. *)
Definition foreign (ev : string) (d : Database) (i : string) : Prop :=
  exists r, d.(invitations) !! i = Some r /\ r.(i_event_id) <> ev.
Definition local (ev : string) (d : Database) (i : string) : Prop :=
  exists r, d.(invitations) !! i = Some r /\ r.(i_event_id) = ev.
Definition foreign_guest (ev : string) (d : Database) (g : string) : Prop :=
  exists r, d.(guests) !! g = Some r /\ foreign ev d r.(g_invitation_id).

(** What a request for event [ev] leaves alone. *)
Record outside (ev : string) (d d' : Database) : Prop := {
  ou_accounts : accounts d' = accounts d;
  ou_invitations : agree_on (fun r => r.(i_event_id) <> ev) d.(invitations) d'.(invitations);
  ou_guests : agree_on (fun g => foreign ev d g.(g_invitation_id)) d.(guests) d'.(guests);
  ou_responses : agree_on (fun r => foreign ev d r.(r_invitation_id)) d.(rsvp_responses) d'.(rsvp_responses);
  ou_gr : agree_on (fun x => foreign_guest ev d x.(gr_guest_id)) d.(guest_responses) d'.(guest_responses);
  ou_sessions : agree_on (fun s => foreign ev d s.(s_invitation_id)) d.(invitation_sessions) d'.(invitation_sessions);
  ou_open : agree_on (fun r => r.(o_event_id) <> ev) d.(open_enrollments) d'.(open_enrollments);
  ou_messages : agree_on (fun m => m.(m_event_id) <> ev) d.(invitation_messages) d'.(invitation_messages);
  ou_ia : d'.(invitation_answers) = d.(invitation_answers);
  ou_ga : d'.(guest_answers) = d.(guest_answers);
  ou_tokens : d'.(invitation_recovery_tokens) = d.(invitation_recovery_tokens);
  ou_attempts : d'.(invitation_recovery_attempts) = d.(invitation_recovery_attempts);
  ou_events : d'.(events) = d.(events);
  ou_questions : d'.(event_questions) = d.(event_questions) }.

Lemma outside_foreign ev d d' i : outside ev d d' -> (foreign ev d' i <-> foreign ev d i).
Proof.
  intros H. unfold foreign. split; intros (r & Hr & Hne); exists r; split; try done;
    by apply (ou_invitations _ _ _ H).
Qed.
Lemma outside_foreign_guest ev d d' g : outside ev d d' -> foreign_guest ev d g -> foreign_guest ev d' g.
Proof.
  intros H (r & Hr & Hf). exists r. split; [|by apply (outside_foreign _ _ _ _ H)].
  by apply (ou_guests _ _ _ H).
Qed.

#[global] Instance outside_preorder ev : PreOrder (outside ev).
Proof.
  split.
  - intros d. split; try done; apply agree_on_refl.
  - intros d1 d2 d3 H12 H23. pose proof (fun i => outside_foreign _ _ _ i H12) as Hf.
    pose proof (fun g => outside_foreign_guest _ _ _ g H12) as Hg.
    destruct H12, H23. split; try congruence; intros k r HP.
    + by etrans; [apply ou_invitations1|apply ou_invitations0].
    + by etrans; [apply ou_guests1, Hf|apply ou_guests0].
    + by etrans; [apply ou_responses1, Hf|apply ou_responses0].
    + by etrans; [apply ou_gr1, Hg|apply ou_gr0].
    + by etrans; [apply ou_sessions1, Hf|apply ou_sessions0].
    + by etrans; [apply ou_open1|apply ou_open0].
    + by etrans; [apply ou_messages1|apply ou_messages0].
Qed.

Lemma local_not_foreign ev d i : local ev d i -> ~ foreign ev d i.
Proof. intros (r & Hr & He) (r' & Hr' & Hn). congruence. Qed.

(** The same for a statement about a household of the event. *)
Definition within (i ev : string) (d d' : Database) : Prop :=
  local ev d i -> outside ev d d' /\ local ev d' i.
#[global] Instance within_preorder i ev : PreOrder (within i ev).
Proof.
  split.
  - by intros d H.
  - intros d1 d2 d3 H12 H23 H. destruct (H12 H) as [Ho Hl]. destruct (H23 Hl) as [Ho' Hl'].
    split; [by etrans|done].
Qed.
Lemma within_same_invitations i ev d d' :
  d'.(invitations) = d.(invitations) -> (local ev d i -> outside ev d d') -> within i ev d d'.
Proof. intros He H Hl. split; [by apply H|]. unfold local in *. by rewrite He. Qed.

(** Tables a statement does not touch. *)
Ltac outside := split; simpl; try done; try apply agree_on_refl.

Section tenancy.
Context `{E : Env} (ev : string).

(** ** Statements *)

Lemma insert_invitation_outside id row d d' :
  insert_invitation id row d = Some d' -> row.(i_event_id) = ev ->
  outside ev d d' /\ local ev d' id.
Proof.
  unfold insert_invitation. intros H He. insert_cases H. split.
  - outside. apply agree_on_insert; [tauto|]. by rewrite has_false by done.
  - exists row. simpl. by rewrite lookup_insert_eq.
Qed.
Lemma insert_response_within i id row d d' :
  insert_response id row d = Some d' -> row.(r_invitation_id) = i -> within i ev d d'.
Proof.
  unfold insert_response. intros H Hi. insert_cases H. apply within_same_invitations; [done|].
  intros Hl. outside. apply agree_on_insert; [subst i; by apply local_not_foreign|].
  by rewrite has_false by done.
Qed.
Lemma insert_guest_within i id row d d' :
  insert_guest id row d = Some d' -> row.(g_invitation_id) = i -> within i ev d d'.
Proof.
  unfold insert_guest. intros H Hi. insert_cases H. apply within_same_invitations; [done|].
  intros Hl. outside. apply agree_on_insert; [subst i; by apply local_not_foreign|].
  by rewrite has_false by done.
Qed.
Lemma insert_guest_response_within i id row g d d' :
  insert_guest_response id row d = Some d' ->
  d.(guests) !! row.(gr_guest_id) = Some g -> g.(g_invitation_id) = i -> within i ev d d'.
Proof.
  unfold insert_guest_response. intros H Hg Hi. insert_cases H. apply within_same_invitations; [done|].
  intros Hl. outside. apply agree_on_insert; [|by rewrite has_false by done].
  intros (g' & Hg' & Hf). rewrite Hg in Hg'. injection Hg' as <-. subst i.
  by apply (local_not_foreign _ _ _ Hl).
Qed.

(** A guest and its pending response. *)
Lemma guest_pair_within i gid row u grow d d1 d1' d2 :
  insert_guest gid row d = Some d1 -> row.(g_invitation_id) = i -> d1' = d1 ->
  insert_guest_response u grow d1' = Some d2 -> grow.(gr_guest_id) = gid -> within i ev d d2.
Proof.
  intros H1 Hi -> H2 Hg. etrans; [by eapply insert_guest_within|].
  eapply (insert_guest_response_within i u grow row); [done| |done].
  unfold insert_guest in H1. insert_cases H1. simpl. rewrite Hg. apply lookup_insert_eq.
Qed.

Lemma update_active_guest_within ctx g i o f :
  (forall r, (f r).(g_invitation_id) = r.(g_invitation_id)) ->
  respects (within i ev) (update_active_guest ctx g i o f).
Proof.
  intros Hf. unfold update_active_guest. respect. intros [= <-].
  apply within_same_invitations; [done|]. intros Hl%local_not_foreign. outside.
  apply agree_on_update_id. unfold active_in. intros r Hr. split_guards.
  assert (r.(g_invitation_id) = i) as Hi by (by eapply bool_decide_eq_true). by rewrite Hf, Hi.
Qed.

Lemma revoke_sessions_within ctx i now : respects (within i ev) (revoke_sessions ctx i now).
Proof.
  unfold revoke_sessions. respect. intros [= <-]. apply within_same_invitations; [done|].
  intros Hl%local_not_foreign. outside. apply agree_on_update_where. intros k r Hr. split_guards.
  assert (r.(s_invitation_id) = i) as Hi by (by eapply bool_decide_eq_true). simpl. by rewrite Hi.
Qed.

(** An UPDATE of an invitation guarded by its event. *)
Lemma update_id_outside i Q f d t n :
  update_id i Q f d.(invitations) = (t, n) ->
  (forall r, Q r = true -> r.(i_event_id) = ev) -> (forall r, (f r).(i_event_id) = r.(i_event_id)) ->
  outside ev d (set_invitations (fun _ => t) d) /\
  (n = 1 -> local ev (set_invitations (fun _ => t) d) i).
Proof.
  intros Hu HQ Hf. split.
  - outside. change t with (t, n).1. rewrite <- Hu. apply agree_on_update_id.
    intros r Hr. rewrite Hf, (HQ r Hr). tauto.
  - intros ->. apply update_id_cases in Hu as [(_ & r & Hr & Hq & ->)|(? & _)]; [|done].
    exists (f r). simpl. rewrite lookup_insert_eq, Hf. auto.
Qed.

(** ** Store operations *)

Lemma insert_guest_pair_within i what rid now gid name origin n :
  ok_respects (within i ev) (insert_guest_pair what rid i now gid name origin n).
Proof. unfold insert_guest_pair. intros w u w' H. run_ok. by eapply guest_pair_within. Qed.

Lemma insert_household_outside what id row gs now :
  row.(i_event_id) = ev -> ok_respects (outside ev) (insert_household what id row gs now).
Proof.
  unfold insert_household. intros He w r w' H.
  apply bind_ok in H as (u & w1 & (H1 & _)%exec_ok & H).
  destruct (insert_invitation_outside _ _ _ _ H1 He) as [Ho Hl]. etrans; [exact Ho|].
  assert (within id ev (w_db w1) (w_db w')) as Hw; [|by apply Hw].
  apply bind_ok in H as (rid & w2 & (_ & D2 & _)%new_uuid_ok & H).
  apply bind_ok in H as (u3 & w3 & (H3 & _)%exec_ok & H).
  apply bind_ok in H as (u4 & w4 & H4 & H). apply ret_ok in H as [_ <-].
  etrans; [rewrite <- D2; by eapply insert_response_within|].
  revert H4. apply ok_respects_forM; [apply _|]. intros g _. apply insert_guest_pair_within.
Qed.

Lemma Create_outside inv gs : inv.(EventID) = ev -> respects (outside ev) (Create inv gs).
Proof.
  intros He. assert (forall t, ok_respects (outside ev)
    (insert_household "create" inv.(ID) (invitation_row inv t) gs t)) as Hi
    by (intros; by apply insert_household_outside).
  unfold Create. respect.
Qed.
Lemma Import_outside rs :
  (forall r, r ∈ rs -> r.(rec_Invitation).(EventID) = ev) -> respects (outside ev) (Import rs).
Proof.
  intros He. assert (forall r t, r ∈ rs -> ok_respects (outside ev)
    (insert_household "import" r.(rec_Invitation).(ID) (invitation_row r.(rec_Invitation) t)
       r.(rec_Guests) t)) as Hi by (intros; apply insert_household_outside; simpl; auto).
  unfold Import. respect.
Qed.

Lemma update_live_invitation_outside ctx i f w n w' :
  (forall r, (f r).(i_event_id) = r.(i_event_id)) ->
  update_live_invitation ctx i ev f w = (Ok n, w') ->
  outside ev (w_db w) (w_db w') /\ (n = 1 -> local ev (w_db w') i).
Proof.
  intros Hf (H & _)%stmt_ok. destruct (update_id i _ f _) as [t n'] eqn:Hu in H.
  injection H as <- <-. eapply update_id_outside; [done| |done].
  intros r [He%bool_decide_eq_true _]%andb_true_iff. done.
Qed.

(** Rotation and revocation share their shape. *)
Lemma live_then_sessions ctx ctx' i f now :
  (forall r, (f r).(i_event_id) = r.(i_event_id)) ->
  ok_respects (outside ev) (changed <- update_live_invitation ctx i ev f ;;
                            require (changed =? 1) ErrNotFound ;;; revoke_sessions ctx' i now).
Proof.
  intros Hf w u w' H. apply bind_ok in H as (n & w1 & H1 & H).
  apply bind_ok in H as (u2 & w2 & [Hn%Z.eqb_eq <-]%require_ok & H).
  destruct (update_live_invitation_outside _ _ _ _ _ _ Hf H1) as [Ho Hl]. etrans; [exact Ho|].
  pose proof (revoke_sessions_within ctx' i now w1) as Hs. rewrite H in Hs.
  by apply Hs, Hl.
Qed.

Lemma Rotate_outside i : respects (outside ev) (Rotate i ev).
Proof.
  unfold Rotate. apply respects_bind; [apply _| |intros ?; unfold FindByID; respect].
  apply respects_with_tx; [apply _|]. apply ok_respects_bind; [apply _|respect|intros t].
  cbv zeta. by apply live_then_sessions.
Qed.
Lemma Revoke_outside i reason : respects (outside ev) (Revoke i ev reason).
Proof.
  unfold Revoke. apply respects_with_tx; [apply _|].
  apply ok_respects_bind; [apply _|respect|intros t]. cbv zeta. by apply live_then_sessions.
Qed.

Lemma CreateMessage_outside m : m.(msg_EventID) = ev -> respects (outside ev) (CreateMessage m).
Proof.
  intros He. unfold CreateMessage. respect. unfold insert_message. intros H. insert_cases H.
  outside. apply agree_on_insert; [simpl; tauto|]. by rewrite has_false by done.
Qed.

Lemma edit_assigned_within i rid now existing kept x :
  ok_respects (within i ev) (edit_assigned i rid now existing kept x).
Proof.
  destruct x as [n g]. unfold edit_assigned. destruct (bool_decide _).
  - intros w k w' H. apply bind_ok in H as (gid & w1 & (_ & D & _)%new_uuid_ok & H).
    rewrite <- D. run_ok. by eapply guest_pair_within.
  - apply respects_ok. respect. by apply update_active_guest_within.
Qed.

Lemma update_metadata_outside i req now w n w' :
  update_metadata i ev req now w = (Ok n, w') ->
  outside ev (w_db w) (w_db w') /\ (n = 1 -> local ev (w_db w') i).
Proof.
  intros (H & _)%stmt_ok. destruct (update_id i _ (edit_row req now) _) as [t n'] eqn:Hu in H.
  destruct (_ || _) in H; [|done]. injection H as <- <-. eapply update_id_outside; [done| |done].
  intros r [He%bool_decide_eq_true _]%andb_true_iff. done.
Qed.

Lemma UpdateInvitation_outside i req : respects (outside ev) (Store_UpdateInvitation ev i req).
Proof.
  unfold Store_UpdateInvitation, update_body. apply respects_with_tx; [apply _|].
  apply ok_respects_bind; [apply _|respect|intros t]. cbv zeta.
  intros w u w' H. apply bind_ok in H as (n & w1 & H1 & H).
  apply bind_ok in H as (u2 & w2 & [Hn%Z.eqb_eq <-]%require_ok & H).
  destruct (update_metadata_outside _ _ _ _ _ _ H1) as [Ho Hl]. etrans; [exact Ho|].
  assert (within i ev (w_db w1) (w_db w')) as Hw; [|by apply Hw, Hl]. revert H.
  match goal with |- ?m _ = _ -> _ => assert (ok_respects (within i ev) m) as Hm; [|apply Hm] end.
  pose proof (edit_assigned_within i) as He. respect. by apply update_active_guest_within.
Qed.

(** ** Open enrollment *)

Lemma upsert_open_outside id row d d' :
  upsert_open id row d = Some d' -> row.(o_event_id) = ev -> outside ev d d'.
Proof.
  unfold upsert_open. destruct (select_row _ _) as [[k old]|] eqn:Es; intros H He; insert_cases H.
  - apply select_row_Some in Es as [Hk Ho%bool_decide_eq_true]. outside.
    apply agree_on_insert; [simpl; rewrite Ho; tauto|]. intros r0 Hr0. simplify_eq. rewrite Ho. tauto.
  - outside. apply agree_on_insert; [tauto|]. by rewrite has_false by done.
Qed.
Lemma ConfigureOpen_outside c u : c.(oc_EventID) = ev -> respects (outside ev) (ConfigureOpen c u).
Proof. intros He. unfold ConfigureOpen. respect. intros H. by eapply upsert_open_outside. Qed.
Lemma FindOpenByEvent_outside e : respects (outside ev) (FindOpenByEvent e).
Proof. unfold FindOpenByEvent. respect. Qed.
Lemma RotateOpen_outside : respects (outside ev) (RotateOpen ev).
Proof.
  unfold RotateOpen, FindOpenByEvent. respect. intros [= _ <-]. outside.
  apply agree_on_update_where. unfold live_open. intros k r [He%bool_decide_eq_true _]%andb_true_iff.
  simpl. rewrite He. tauto.
Qed.
End tenancy.

(** A bind whose second part may use what the first returned. *)
Lemma respects_bind_result {A B} R `{!PreOrder R} (m : M A) (P : A -> Prop) (f : A -> M B) :
  respects R m -> (forall w a w', m w = (Ok a, w') -> P a) -> (forall a, P a -> respects R (f a)) ->
  respects R (bind m f).
Proof.
  intros Hm HP Hf w. unfold bind. specialize (Hm w). destruct (m w) as [[a|e] w1] eqn:Hw; [|done].
  simpl in Hm. etrans; [exact Hm|]. by apply Hf, (HP w a w1).
Qed.

(** What the callbacks the program installs leave alone: the access check only
    reads; the senders write the notification log. *)
Class CallbacksOutside `{E : Env} (ev : string) (h : Handler) : Prop := {
  check_outside e u : respects (outside ev) (h.(checkEventAccess) e u);
  email_outside send : h.(service).(sendEmail) = Some send ->
    forall e i to subject html plain, respects (outside ev) (send e i to subject html plain);
  sms_outside send : h.(service).(sendSMS) = Some send ->
    forall e i to body, respects (outside ev) (send e i to body) }.

Section organizer.
Context `{E : Env} (ev : string) (h : Handler) `{!CallbacksOutside ev h}.

(** ** Reads *)

Lemma FindByID_outside i : respects (outside ev) (FindByID i).
Proof. unfold FindByID. respect. Qed.
Lemma FindByIDForEvent_outside i e : respects (outside ev) (FindByIDForEvent i e).
Proof. unfold FindByIDForEvent. respect. Qed.
Lemma LoadHousehold_outside i : respects (outside ev) (LoadHousehold i).
Proof.
  unfold LoadHousehold, FindByID, loadEventSummary, listGuests, listQuestions, listAnswers,
    loadGuestPresentation, scanGuests. respect.
Qed.
Hint Resolve FindByID_outside FindByIDForEvent_outside LoadHousehold_outside FindOpenByEvent_outside
  : respects.
Lemma LoadOrganizerHousehold_outside i : respects (outside ev) (LoadOrganizerHousehold i).
Proof. unfold LoadOrganizerHousehold, loadLatestDelivery. respect. Qed.
Hint Resolve LoadOrganizerHousehold_outside : respects.
Lemma ListByEvent_outside e : respects (outside ev) (ListByEvent e).
Proof. unfold ListByEvent, scanInvitationRows. respect. Qed.
Lemma ListDeliveryTargets_outside e g : respects (outside ev) (ListDeliveryTargets e g).
Proof. unfold ListDeliveryTargets, scanInvitationRows. respect. Qed.
Hint Resolve ListByEvent_outside ListDeliveryTargets_outside : respects.
Lemma randomToken_outside n : respects (outside ev) (randomToken n).
Proof. unfold randomToken. respect. Qed.
Hint Resolve randomToken_outside : respects.

(** ** Service operations *)

Lemma delivery_channel_of s inv ch :
  delivery_channel s inv = Ok ch ->
  match ch with ByEmail send _ => s.(sendEmail) = Some send | BySMS send _ => s.(sendSMS) = Some send end.
Proof. unfold delivery_channel. repeat case_match; intros; simplify_eq; done. Qed.

Lemma Deliver_outside i : respects (outside ev) (Deliver h.(service) i).
Proof.
  unfold Deliver. apply respects_bind; [apply _|eauto with respects|intros o].
  apply respects_bind; [apply _|respect|intros inv].
  apply respects_bind; [apply _|respect|intros _].
  eapply (respects_bind_result _ _ (fun ch => match ch with
    | ByEmail send _ => h.(service).(sendEmail) = Some send
    | BySMS send _ => h.(service).(sendSMS) = Some send end)); [respect| |].
  { intros w ch w' [Hc _]%of_res_ok. by apply delivery_channel_of in Hc. }
  intros ch Hch. apply respects_bind; [apply _|eauto with respects|intros household]. cbv zeta.
  destruct ch; [|by eapply sms_outside].
  apply respects_bind; [apply _|respect|intros bodies]. by eapply email_outside.
Qed.
Lemma attemptDelivery_outside i warning : respects (outside ev) (attemptDelivery h.(service) i warning).
Proof. unfold attemptDelivery. respect. apply Deliver_outside. Qed.
Hint Resolve Deliver_outside attemptDelivery_outside : respects.

Lemma CreatePrivate_outside u req : respects (outside ev) (CreatePrivate h.(service) ev u req).
Proof.
  unfold CreatePrivate, create_guest, new_assigned_guest. respect. by apply Create_outside.
Qed.
Lemma Service_Rotate_outside i : respects (outside ev) (Service_Rotate h.(service) ev i).
Proof. pose proof (Rotate_outside ev i). unfold Service_Rotate, deref. respect. Qed.
Lemma Service_Revoke_outside i reason : respects (outside ev) (Service_Revoke ev i reason).
Proof. unfold Service_Revoke. respect. apply Revoke_outside. Qed.
Lemma Service_UpdateInvitation_outside i req : respects (outside ev) (UpdateInvitation ev i req).
Proof. unfold UpdateInvitation. respect. apply UpdateInvitation_outside. Qed.
Lemma ListOrganizerHouseholds_outside filter : respects (outside ev) (ListOrganizerHouseholds ev filter).
Proof. unfold ListOrganizerHouseholds. respect. Qed.
Lemma PreviewBroadcast_outside g : respects (outside ev) (PreviewBroadcast ev g).
Proof. unfold PreviewBroadcast. respect. Qed.
Lemma ExportEventCSV_outside : respects (outside ev) (ExportEventCSV ev).
Proof. unfold ExportEventCSV, listQuestions. respect. Qed.

Lemma BroadcastDetailed_outside u req : respects (outside ev) (BroadcastDetailed h.(service) ev u req).
Proof.
  unfold BroadcastDetailed. apply respects_bind; [apply _|respect|intros g]. cbv zeta.
  apply respects_bind; [apply _|respect|intros _]. apply respects_bind; [apply _|respect|intros _].
  eapply (respects_bind_result _ _ (fun send => h.(service).(sendEmail) = Some send)); [respect| |].
  { intros w send w' [Hs _]%of_option_ok. done. }
  intros send Hs. respect; [by apply CreateMessage_outside|]. unfold broadcast_step. respect.
  by eapply email_outside.
Qed.

Lemma CommitImport_outside u hs : respects (outside ev) (CommitImport ev u hs).
Proof.
  unfold CommitImport. apply respects_bind; [apply _|respect|intros v].
  eapply (respects_bind_result _ _ (fun rs => forall r, r ∈ rs -> r.(rec_Invitation).(EventID) = ev)).
  - unfold import_record, new_assigned_guest. respect.
  - intros w rs w' Hm%mapM_ok r Hr. destruct (Forall2_elem_r _ _ _ _ Hm Hr) as (x & _ & w1 & w2 & Hx).
    unfold import_record in Hx. run_ok. done.
  - intros rs Hrs. respect. by apply Import_outside.
Qed.

Lemma FindOpenByEvent_event e w c w' :
  FindOpenByEvent e w = (Ok (Some c), w') -> c.(oc_EventID) = e.
Proof.
  unfold FindOpenByEvent. intros H. run_ok.
  match goal with H : scanOpenEnrollment ?r = _ |- _ => destruct r as [[k row]|] eqn:Es; [|done] end.
  apply select_row_Some in Es as [_ He%bool_decide_eq_true].
  unfold scanOpenEnrollment, res_bind in *. repeat case_match; simplify_eq. done.
Qed.

Lemma Service_ConfigureOpen_outside u req :
  respects (outside ev) (Service_ConfigureOpen h.(service) ev u req).
Proof.
  unfold Service_ConfigureOpen, deref. apply respects_bind; [apply _|respect|intros [opensAt closesAt]].
  eapply (respects_bind_result _ _ (fun o => forall c, o = Some c -> c.(oc_EventID) = ev));
    [eauto with respects| |].
  { intros w o w' H c ->. by apply FindOpenByEvent_event in H. }
  intros o Ho. eapply (respects_bind_result _ _ (fun c => c.(oc_EventID) = ev)).
  - destruct o; respect.
  - intros w c w' H. destruct o; run_ok; [by apply Ho|done].
  - intros c Hc. respect. by apply ConfigureOpen_outside.
Qed.
Lemma Service_RotateOpen_outside : respects (outside ev) (Service_RotateOpen h.(service) ev).
Proof. pose proof (RotateOpen_outside ev). unfold Service_RotateOpen, deref. respect. Qed.
End organizer.

(** ** The routes *)

Section routes.
Context `{E : Env, HttpEnv} (h : Handler).

Lemma internal_outside ev : respects (outside ev) internal.
Proof. unfold internal, Ref. respect. Qed.
Lemma service_error_outside ev e : respects (outside ev) (service_error e).
Proof. destruct e; simpl; first [apply internal_outside|respect]. Qed.
Hint Resolve internal_outside service_error_outside : respects.
Lemma respond_outside {A} ev (m : M A) k :
  respects (outside ev) m -> (forall a, respects (outside ev) (k a)) ->
  respects (outside ev) (respond m k).
Proof. intros Hm Hk. unfold respond, writeServiceError. respect. Qed.
Lemma with_body_outside {A} ev (body : option A) k :
  (forall req, respects (outside ev) (k req)) -> respects (outside ev) (with_body body k).
Proof. intros Hk. unfold with_body. respect. Qed.

Lemma eventActor_event r w e u w' :
  eventActor h r w = (Ok (Some (e, u)), w') -> e = r.(rq_eventId) /\ r.(rq_user) = Some u.
Proof.
  unfold eventActor. destruct (rq_user r); [|by intros [? _]%ret_ok].
  destruct (bool_decide _); [by intros [? _]%ret_ok|]. intros Hb.
  apply bind_ok in Hb as (a & w1 & _ & [Ha _]%ret_ok). destruct a; by simplify_eq.
Qed.

Lemma for_organizer_outside r k :
  CallbacksOutside (rq_eventId r) h ->
  (forall u, respects (outside (rq_eventId r)) (k (rq_eventId r) u)) ->
  respects (outside (rq_eventId r)) (for_organizer h r k).
Proof.
  intros Hcb Hk. unfold for_organizer.
  eapply (respects_bind_result _ _ (fun o => forall e u, o = Some (e, u) -> e = r.(rq_eventId))).
  - unfold eventActor. respect. apply check_outside.
  - intros w o w' Ha e u ->. by apply eventActor_event in Ha as [-> _].
  - intros [[e u]|] Ho; [|respect]. by rewrite (Ho e u eq_refl).
Qed.

Lemma for_organizer_refused r k w w1 :
  eventActor h r w = (Ok None, w1) -> for_organizer h r k w = (Ok event_not_found, w1).
Proof. intros Ha. unfold for_organizer. by erewrite bind_run by exact Ha. Qed.

(** [C2] Whatever an organizer sends to the routes of one
    event, with whatever invitation id, every invitation of another event keeps
    its row, and its guests, responses, attendance and sessions stay as they
    were; the open enrollments and messages of other events, all answers, all
    recovery tokens and attempts, users, events and questions are untouched. *)
Theorem organizer_stays_in_event c r w :
  CallbacksOutside (rq_eventId r) h ->
  outside (rq_eventId r) w.(w_db) (organizer_route h c r w).2.(w_db).
Proof.
  intros Hcb. revert w. change (respects (outside (rq_eventId r)) (organizer_route h c r)).
  destruct c; simpl; (apply for_organizer_outside; [exact Hcb|intros u]);
    try (apply with_body_outside; intros req);
    try (apply respond_outside; [|intros ?; unfold logDeliveryFailure, Ref; respect]);
    eauto using CreatePrivate_outside, CommitImport_outside, Service_UpdateInvitation_outside,
      Service_Rotate_outside, Service_Revoke_outside, PreviewBroadcast_outside,
      BroadcastDetailed_outside, Service_ConfigureOpen_outside, Service_RotateOpen_outside,
      ListOrganizerHouseholds_outside.
  - respect.
  - respect.
  - respect. apply ExportEventCSV_outside.
  - respect; [apply FindByIDForEvent_outside|apply LoadOrganizerHousehold_outside].
  - respect; [apply FindByIDForEvent_outside|]. apply respond_outside; [by apply Deliver_outside|].
    intros ?. respect.
  - respect. apply FindOpenByEvent_outside.
Qed.

(** Without a signed-in user, without an event id, or when
    the access check fails, every organizer route answers 404 "event not found"
    and does nothing but that check, whatever the request holds. *)
Theorem organizer_access c r w w' e :
  r.(rq_user) = None \/ r.(rq_eventId) = "" \/
  (exists u, r.(rq_user) = Some u /\ h.(checkEventAccess) r.(rq_eventId) u w = (Err e, w')) ->
  exists w1, organizer_route h c r w = (Ok event_not_found, w1) /\ (w1 = w \/ w1 = w').
Proof.
  intros Hno. assert (exists w1, eventActor h r w = (Ok None, w1) /\ (w1 = w \/ w1 = w')) as (w1 & Ha & Hw).
  { unfold eventActor. destruct Hno as [->|[->|(u & -> & Hc)]]; [eauto| |].
    - destruct (rq_user r); simpl; eauto.
    - destruct (bool_decide _); [eauto|]. exists w'. unfold attempt, bind. rewrite Hc. simpl. auto. }
  exists w1. split; [|done]. destruct c; by apply for_organizer_refused.
Qed.
End routes.

(** ** Examples *)

#[export] Instance demo_http : HttpEnv := {| split_host_port _ := None |}.
Definition demo_service_mail : Service :=
  MkService (MkSigner "secret") "https://owl.example" ns_per_sec ns_per_sec
    (Some (fun _ _ _ _ _ _ => ret ())) None "".
Definition demo_handler : Handler :=
  MkHandler demo_service_mail
    (fun _ u => require (bool_decide (u = "org")) ErrNotFound) true.
Definition demo_request_of (user : option string) : Request :=
  MkRequest user "ev" "inv" (MkFilter "" "" "") None "".

#[export] Instance demo_callbacks ev : CallbacksOutside (E:=demo_env) ev demo_handler.
Proof.
  split; simpl; [|intros send [= <-]|done]; intros; [|apply respects_ret; apply _].
  apply respects_require. apply _.
Qed.

Lemma organizer_stays_in_event_witness :
  outside "ev" demo_world.(w_db)
    (organizer_route (E:=demo_env) demo_handler (CRevoke (Some "gone")) (demo_request_of (Some "org"))
       demo_world).2.(w_db).
Proof.
  apply (organizer_stays_in_event (E:=demo_env) demo_handler (CRevoke (Some "gone"))
           (demo_request_of (Some "org")) demo_world). apply demo_callbacks.
Defined.

Lemma organizer_access_witness :
  exists w1, organizer_route (E:=demo_env) demo_handler CDeliver (demo_request_of (Some "eve")) demo_world
    = (Ok event_not_found, w1).
Proof.
  destruct (organizer_access (E:=demo_env) demo_handler CDeliver (demo_request_of (Some "eve"))
    demo_world demo_world ErrNotFound) as (w1 & H & _).
  - right. right. exists "eve". split; vm_compute; reflexivity.
  - exists w1. exact H.
Defined.
