(* ===== verification/HandlerFacts.v ===== *)
(** * Replies of the HTTP handlers

    How errors become replies, and that a link which is not the current one of a
    live invitation is refused the same way whatever is wrong with it. *)

From S2P Require Import Prelude.
From S2P Require Import GoStr.
From S2P Require Import GoTime.
From S2P Require Import Schema.
From S2P Require Import Eff.
From S2P Require Import Http.
From S2P Require Import Respect.
From S2P Require Import Demo.
From S2P Require Import Capability.
From S2P Require Import InvModel.
From S2P Require Import InvStore.
From S2P Require Import InvManage.
From S2P Require Import Integrity.
From S2P Require Import InvService.
From S2P Require Import System.
From S2P Require Import Sessions.
From S2P Require Import InvHandler.
From S2P Require Import Tenancy.

Local Open Scope Z_scope.

(** ** Invitations of other events *)

Definition is_validation {A} (x : res A) : Prop :=
  match x with Err (EValidation _) | Ok _ => True | Err _ => False end.

Lemma clean_edits_errors i seen l : is_validation (clean_edits i seen l).
Proof.
  revert i seen. induction l as [|g l IH]; intros i seen; cbn [clean_edits]; [done|].
  destruct (_ || _); [done|]. destruct (_ && _); [done|].
  match goal with |- context [clean_edits ?i ?s l] =>
    specialize (IH i s); by destruct (clean_edits i s l) as [?|[]] end.
Qed.
(** No invitation of the event has this id. *)
Definition foreign_id (eventID id : string) (d : Database) : Prop :=
  forall row, d.(invitations) !! id = Some row -> row.(i_event_id) <> eventID.

Lemma update_foreign eventID id Q f d :
  foreign_id eventID id d ->
  update_id id (fun r => bool_decide (r.(i_event_id) = eventID) && Q r) f d.(invitations)
  = (d.(invitations), 0).
Proof.
  intros Hf. unfold update_id. destruct (invitations d !! id) as [row|] eqn:Hrow; [|done].
  by rewrite bool_decide_eq_false_2 by eauto.
Qed.

Section replies.
Context `{E : Env, HttpEnv} (h : Handler).

Lemma internal_reply w :
  exists ref w', internal w = (Ok (writeError 500 "internal_error"
    ("an internal error occurred (ref: " +:+ ref +:+ ")")), w') /\ w'.(w_db) = w.(w_db).
Proof. unfold internal, Ref, bind, ret, read_random. eexists _, _. split; reflexivity. Qed.

(** The status of an error. *)
Definition error_status (e : err) : Z :=
  match e with
  | EValidation _ => 400
  | ErrConflict | ErrAllowance | ErrCapacity | ErrDeliverySuppressed => 409
  | ErrInvalidCapability => 401
  | ErrNotFound => 404
  | _ => 500
  end.

(** An error of the service always becomes one reply, with the
    status of its kind, an error body and no session cookie, and the database
    as the service left it; a validation message reaches the client verbatim,
    while the reply to an internal error shows nothing of the error. *)
Theorem error_replies {A} (m : M A) (k : A -> M Reply) w e w1 :
  m w = (Err e, w1) ->
  exists reply w2, respond m k w = (Ok reply, w2) /\ w2.(w_db) = w1.(w_db) /\
    reply.(rp_status) = error_status e /\ reply.(rp_cookie) = None /\
    (exists code msg, reply.(rp_body) = BError code msg) /\
    (forall msg, e = EValidation msg -> reply.(rp_body) = BError "bad_request" msg) /\
    (forall c c' m', e = EInternal c -> m' w = (Err (EInternal c'), w1) ->
       respond m' k w = (Ok reply, w2)).
Proof.
  intros Hm. unfold respond, writeServiceError.
  assert (forall (n : M A) e', n w = (Err e', w1) ->
    (r <- attempt n ;; match r with Ok a => k a | Err e => service_error e end) w
    = service_error e' w1) as Hr.
  { intros n e' Hn. unfold bind, attempt. by rewrite Hn. }
  rewrite (Hr m e Hm). destruct e; simpl;
    try (eexists _, w1; split_and!; [reflexivity|done..|eauto|naive_solver|done]).
  all: destruct (internal_reply w1) as (ref & w2 & Hi & Hd); rewrite Hi;
    eexists _, w2; split_and!; [reflexivity|done..|eauto|done|];
    intros c c' m' _ Hm'; rewrite (Hr m' _ Hm'); exact Hi.
Qed.

(** A capability that is the current one of no live invitation. *)
Lemma ExchangePrivate_invalid svc raw w :
  w.(w_faults) = [] ->
  (forall i r, w.(w_db).(invitations) !! i = Some r -> exists inv, parseInvitation i r = Ok inv) ->
  (forall i r, w.(w_db).(invitations) !! i = Some r -> r.(i_revoked_at) = None ->
     raw <> Private svc.(signer) r.(i_access_id) r.(i_token_version)) ->
  ExchangePrivate svc raw w = (Err ErrInvalidCapability, w).
Proof.
  intros Hf Hparse Hdead. unfold ExchangePrivate.
  destruct (ParsePrivate svc.(signer) raw) as [[a v]|e] eqn:Hp; [|done].
  erewrite bind_run by done. cbv beta iota.
  unfold FindByAccessID. rewrite (bind_res _ _ _ _ (query_of_res _ _ _ _ Hf)).
  destruct (select_row _ _) as [[i r]|] eqn:Hs; simpl; [|done].
  apply select_row_Some in Hs as [Hk Ha%bool_decide_eq_true].
  destruct (Hparse _ _ Hk) as [inv Hi]. rewrite Hi. simpl.
  apply parseInvitation_Ok in Hi as (_ & _ & _ & Hver & Hrev).
  unfold ParsePrivate in Hp. apply parse_Ok in Hp as (Hraw & _).
  unfold bind, ret, require.
  destruct (bool_decide_reflect (inv.(RevokedAt) = None)) as [Hn|]; [|done]. simpl.
  destruct (Z.eqb_spec inv.(TokenVersion) v) as [Hv|]; [|done]. exfalso.
  apply (Hdead _ _ Hk); [by apply Hrev|]. rewrite Hraw, Ha, <- Hver, Hv. done.
Qed.

(** Posting a link that is not the current link of an
    invitation that is not revoked - forged, mistyped, of another kind, rotated
    away or revoked - is answered by the same 401 reply without a cookie, and
    writes nothing. *)
Theorem exchange_refused raw w :
  w.(w_faults) = [] ->
  (forall i r, w.(w_db).(invitations) !! i = Some r -> exists inv, parseInvitation i r = Ok inv) ->
  (forall i r, w.(w_db).(invitations) !! i = Some r -> r.(i_revoked_at) = None ->
     raw <> Private h.(service).(signer) r.(i_access_id) r.(i_token_version)) ->
  exchange h (Some raw) w = (Ok invalid_invitation, w).
Proof.
  intros Hf Hp Hd. unfold exchange, bind, attempt. by rewrite ExchangePrivate_invalid.
Qed.
Lemma validateContact_errors email phone method : is_validation (validateContact email phone method).
Proof. unfold validateContact. repeat (case_match; simpl); done. Qed.
Lemma validate_update_errors req : is_validation (validate_update req).
Proof.
  unfold validate_update. do 3 (destruct (_ || _); [done|]).
  pose proof (validateContact_errors req.(ur_ContactEmail) req.(ur_ContactPhone) req.(ur_Method)) as Hc.
  destruct (validateContact _ _ _) as [[[email phone] method]|[]]; simpl; try done.
  pose proof (clean_edits_errors 0 ∅ req.(ur_AssignedGuests)) as He.
  by destruct (clean_edits _ _ _) as [?|[]].
Qed.

Lemma FindByIDForEvent_foreign eventID id w :
  w.(w_faults) = [] -> foreign_id eventID id w.(w_db) ->
  FindByIDForEvent id eventID w = (Ok None, w).
Proof.
  intros Hw Hf. unfold FindByIDForEvent. erewrite bind_run by (by apply query_run).
  destruct (invitations _ !! id) as [row|] eqn:Hrow; [|done].
  by rewrite bool_decide_eq_false_2 by eauto.
Qed.

Lemma update_live_foreign ctx eventID id f w :
  w.(w_faults) = [] -> foreign_id eventID id w.(w_db) ->
  update_live_invitation ctx id eventID f w = (Ok 0, w).
Proof.
  intros Hw Hf. unfold update_live_invitation. erewrite stmt_run; [|done|by rewrite update_foreign].
  by destruct w as [[]].
Qed.

Lemma Rotate_foreign eventID id w :
  w.(w_faults) = [] -> foreign_id eventID id w.(w_db) ->
  exists w', Rotate id eventID w = (Err ErrNotFound, w') /\ w'.(w_db) = w.(w_db).
Proof.
  intros Hw Hf. unfold Rotate. eexists. split; [|shelve]. apply bind_fails.
  apply with_tx_fails; [done|]. erewrite bind_run by apply now_run. cbv zeta.
  erewrite bind_run by (by apply update_live_foreign). reflexivity.
  Unshelve. done.
Qed.
Lemma Revoke_foreign eventID id reason w :
  w.(w_faults) = [] -> foreign_id eventID id w.(w_db) ->
  exists w', Revoke id eventID reason w = (Err ErrNotFound, w') /\ w'.(w_db) = w.(w_db).
Proof.
  intros Hw Hf. unfold Revoke. eexists. split; [|shelve].
  apply with_tx_fails; [done|]. erewrite bind_run by apply now_run. cbv zeta.
  erewrite bind_run by (by apply update_live_foreign). reflexivity.
  Unshelve. done.
Qed.
Lemma UpdateInvitation_foreign eventID id req w :
  w.(w_faults) = [] -> foreign_id eventID id w.(w_db) ->
  exists w', Store_UpdateInvitation eventID id req w = (Err ErrNotFound, w') /\ w'.(w_db) = w.(w_db).
Proof.
  intros Hw Hf. unfold Store_UpdateInvitation. eexists. split; [|shelve].
  apply with_tx_fails; [done|]. unfold update_body. erewrite bind_run by apply now_run. cbv zeta.
  unfold update_metadata.
  erewrite bind_run by (apply stmt_run; [done|]; simpl; rewrite update_foreign by done; done).
  reflexivity.
  Unshelve. done.
Qed.

(** The reply of the routes that name an invitation when the event has none with
    that id; it depends on the request alone. *)
Definition refusal (c : OrganizerCall) : option Reply :=
  match c with
  | CGet | CDeliver | CRotate => Some invitation_not_found
  | CUpdate None | CRevoke None => Some bad_json
  | CUpdate (Some req) =>
      match validate_update req with
      | Err (EValidation message) => Some (writeError 400 "bad_request" message)
      | _ => Some invitation_not_found
      end
  | CRevoke (Some reason) =>
      Some (if len (trim_space reason) <=? 500 then invitation_not_found
            else writeError 400 "bad_request" "revocation reason must be 500 characters or fewer")
  | _ => None
  end.

Lemma for_organizer_admitted r k u w w1 :
  r.(rq_user) = Some u -> r.(rq_eventId) <> "" -> h.(checkEventAccess) r.(rq_eventId) u w = (Ok (), w1) ->
  for_organizer h r k w = k r.(rq_eventId) u w1.
Proof.
  intros Hu He Hc. unfold for_organizer, eventActor. rewrite Hu, bool_decide_eq_false_2 by done.
  unfold bind, attempt. by rewrite Hc.
Qed.
Lemma respond_not_found {A} (m : M A) k w w' :
  m w = (Err ErrNotFound, w') -> respond m k w = (Ok invitation_not_found, w').
Proof. intros Hm. unfold respond, bind, attempt. by rewrite Hm. Qed.

(** To the organizer of one event, an invitation of
    another event is like one that does not exist: reading, editing, delivering,
    rotating or revoking it answers the same reply in both cases, which depends on
    the request alone, and changes nothing. *)
Theorem foreign_invitation_hidden c r reply u w w1 :
  r.(rq_user) = Some u -> r.(rq_eventId) <> "" ->
  h.(checkEventAccess) r.(rq_eventId) u w = (Ok (), w1) -> w1.(w_faults) = [] ->
  foreign_id r.(rq_eventId) r.(rq_invitationId) w1.(w_db) -> refusal c = Some reply ->
  exists w2, organizer_route h c r w = (Ok reply, w2) /\ w2.(w_db) = w1.(w_db).
Proof.
  intros Hu He Hc Hw Hf Hr.
  destruct c as [| | | | | | |[req|]| | |[reason|]| | | | |]; try discriminate Hr; cbn [refusal] in Hr;
    cbn [organizer_route]; unfold get, update, deliver, rotate, revoke;
    erewrite for_organizer_admitted by done; cbn [with_body].
  - injection Hr as <-. exists w1. unfold bind, attempt. by rewrite FindByIDForEvent_foreign.
  - pose proof (validate_update_errors req) as Hv. unfold UpdateInvitation.
    destruct (validate_update req) as [req'|[]]; try done; injection Hr as <-; [|by exists w1].
    destruct (UpdateInvitation_foreign _ _ req' _ Hw Hf) as (w' & Hrun & Hdb). exists w'.
    split; [|done]. apply respond_not_found. erewrite bind_run by done. by apply bind_fails.
  - injection Hr as <-. by exists w1.
  - injection Hr as <-. exists w1. unfold bind, attempt. by rewrite FindByIDForEvent_foreign.
  - injection Hr as <-. destruct (Rotate_foreign _ _ _ Hw Hf) as (w' & Hrun & Hdb). exists w'.
    split; [|done]. apply respond_not_found. unfold Service_Rotate. by apply bind_fails.
  - injection Hr as <-. unfold Service_Revoke. cbv zeta. destruct (_ <=? 500); [|by exists w1].
    destruct (Revoke_foreign _ _ (trim_space reason) _ Hw Hf) as (w' & Hrun & Hdb). exists w'.
    split; [|done]. apply respond_not_found. by erewrite bind_run by done.
  - injection Hr as <-. by exists w1.
Qed.
End replies.

Lemma error_replies_witness :
  exists reply w2, respond (E:=demo_env) (A:=()) (fail ErrCapacity) (fun _ => ret no_content) demo_world
    = (Ok reply, w2) /\ reply.(rp_status) = 409.
Proof.
  destruct (error_replies (E:=demo_env) (A:=()) (fail ErrCapacity) (fun _ => ret no_content)
    demo_world ErrCapacity demo_world eq_refl) as (reply & w2 & H1 & _ & H2 & _).
  exists reply, w2. split; [exact H1|exact H2].
Defined.

Lemma exchange_refused_witness :
  exchange (E:=demo_env) demo_handler
    (Some (Private (E:=demo_env) demo_handler.(service).(signer) "acc" 2)) demo_world
  = (Ok invalid_invitation, demo_world).
Proof.
  apply (exchange_refused (E:=demo_env) demo_handler).
  - reflexivity.
  - intros i r. simpl. rewrite lookup_singleton_Some. intros [<- <-].
    destruct (parseInvitation "inv" demo_invitation) as [inv|e] eqn:Hp; [by exists inv|].
    vm_compute in Hp. discriminate Hp.
  - intros i r. simpl. rewrite lookup_singleton_Some. intros [_ <-] _. vm_compute. discriminate.
Defined.

Lemma foreign_invitation_hidden_witness :
  exists w2, organizer_route (E:=demo_env) demo_handler CGet
               (MkRequest (Some "org") "other" "inv" (MkFilter "" "" "") None "") demo_world
             = (Ok invitation_not_found, w2).
Proof.
  destruct (foreign_invitation_hidden (E:=demo_env) demo_handler CGet
    (MkRequest (Some "org") "other" "inv" (MkFilter "" "" "") None "") invitation_not_found "org"
    demo_world demo_world) as (w2 & H & _); try reflexivity; [discriminate| |by exists w2].
  intros row. simpl. rewrite lookup_singleton_Some. intros [_ <-]. discriminate.
Defined.
