(* ===== verification/ServiceFacts.v ===== *)
(** * The invitation service: messages to households and new households

    Facts about internal/invitation/service.go. *)

From S2P Require Import Prelude.
From S2P Require Import GoStr.
From S2P Require Import GoTime.
From S2P Require Import Schema.
From S2P Require Import Eff.
From S2P Require Import Respect.
From S2P Require Import Demo.
From S2P Require Import Tables.
From S2P Require Import Capability.
From S2P Require Import InvModel.
From S2P Require Import InvStore.
From S2P Require Import InvCsv.
From S2P Require Import InvService.
From S2P Require Import System.
From S2P Require Import Sessions.
From S2P Require Import ImportFacts.
From S2P Require Import InvHandler.
From S2P Require Import Tenancy.

Local Open Scope Z_scope.

Section broadcast.
Context `{E : Env} (s : Service).

(** A live household of the event that is reached by e-mail and has a guest of
    the group. *)
Definition is_target (ev group : string) (d : Database) (inv : Invitation) : Prop :=
  exists r, d.(invitations) !! inv.(ID) = Some r /\ parseInvitation inv.(ID) r = Ok inv /\
    r.(i_event_id) = ev /\ r.(i_revoked_at) = None /\ r.(i_method) = "email" /\
    r.(i_contact_email) <> None /\ in_group group d inv.(ID) = true.

Lemma parseInvitation_contact id r inv :
  parseInvitation id r = Ok inv ->
  inv.(ContactEmail) = r.(i_contact_email) /\ inv.(PreferredDeliveryMethod) = r.(i_method).
Proof. unfold parseInvitation, res_bind. repeat case_match; try done. by intros [= <-]. Qed.

Lemma ListDeliveryTargets_ok ev group w targets w' :
  ListDeliveryTargets ev group w = (Ok targets, w') ->
  Forall (is_target ev group w.(w_db)) targets /\
  Z.of_nat (length targets) = count (delivery_target ev group w.(w_db)) w.(w_db).(invitations).
Proof.
  unfold ListDeliveryTargets, scanInvitationRows. intros H.
  apply bind_ok in H as (rows & w1 & (-> & _)%query_ok & Hm%mapM_ok). split.
  - apply Forall_forall. intros inv Hin.
    destruct (Forall2_elem_r _ _ _ _ Hm Hin) as ([id r] & Hk & w2 & w3 & [Hp _]%of_res_ok).
    simpl in Hp. rewrite order_by_perm, elem_of_select in Hk. destruct Hk as [Hk Ht].
    pose proof (parseInvitation_Ok _ _ _ Hp) as (<- & _). unfold delivery_target in Ht.
    rewrite !andb_true_iff, negb_true_iff in Ht. destruct Ht as [[[[He Hr] Hc] Hme] Hg].
    unfold is_null in *. apply bool_decide_eq_true in He, Hr, Hme. apply bool_decide_eq_false in Hc.
    by exists r.
  - apply Forall2_length in Hm. rewrite <- Hm. unfold count. by rewrite order_by_perm.
Qed.

Definition tally (m : MessageResult) : Z := m.(mres_Accepted) + m.(mres_Failed) + m.(mres_Skipped).

Lemma broadcast_step_tally send ev subject body result inv w r w' :
  inv.(ContactEmail) <> None -> inv.(PreferredDeliveryMethod) = "email" ->
  broadcast_step s send ev subject body result inv w = (Ok r, w') ->
  r.(mres_Attempted) = result.(mres_Attempted) + 1 /\ tally r = tally result + 1 /\
  result.(mres_Accepted) <= r.(mres_Accepted) /\ result.(mres_Failed) <= r.(mres_Failed) /\
  result.(mres_Skipped) <= r.(mres_Skipped).
Proof.
  intros Hc Hm. unfold broadcast_step, tally. destruct result as [a b f k].
  destruct inv.(ContactEmail); [|done]. rewrite Hm. simpl. intros H.
  apply bind_ok in H as (x & w1 & _ & [<- _]%ret_ok).
  destruct x as [u|e]; [|destruct (bool_decide _)]; simpl; lia.
Qed.

Lemma broadcast_loop send ev subject body targets result w r w' :
  Forall (fun inv => inv.(ContactEmail) <> None /\ inv.(PreferredDeliveryMethod) = "email") targets ->
  foldM (broadcast_step s send ev subject body) result targets w = (Ok r, w') ->
  r.(mres_Attempted) = result.(mres_Attempted) + Z.of_nat (length targets) /\
  tally r = tally result + Z.of_nat (length targets) /\
  result.(mres_Accepted) <= r.(mres_Accepted) /\ result.(mres_Failed) <= r.(mres_Failed) /\
  result.(mres_Skipped) <= r.(mres_Skipped).
Proof.
  intros Ht. revert result w. induction Ht as [|inv targets [Hc Hm] _ IH]; intros result w H; simpl in H.
  - apply ret_ok in H as [<- _]. simpl. lia.
  - apply bind_ok in H as (r1 & w1 & H1 & H). apply IH in H.
    apply broadcast_step_tally in H1; [|done..]. simpl length. lia.
Qed.

(** A broadcast writes once to each live household of the
    event that is reached by e-mail and has a guest in the group, and to no other;
    every attempt is counted once, as accepted, failed or skipped; and the preview
    of the same group on the same database announces that number. *)
Theorem broadcast_accounts ev sender req w result w' :
  BroadcastDetailed s ev sender req w = (Ok result, w') ->
  exists group targets,
    validateRecipientGroup (trim_space req.(mr_Group)) = Ok group /\
    Forall (is_target ev group w.(w_db)) targets /\
    Z.of_nat (length targets) = count (delivery_target ev group w.(w_db)) w.(w_db).(invitations) /\
    result.(mres_Attempted) = Z.of_nat (length targets) /\
    result.(mres_Accepted) + result.(mres_Failed) + result.(mres_Skipped) = result.(mres_Attempted) /\
    0 <= result.(mres_Accepted) /\ 0 <= result.(mres_Failed) /\ 0 <= result.(mres_Skipped) /\
    (w.(w_faults) = [] -> PreviewBroadcast ev (trim_space req.(mr_Group)) w
                          = (Ok (MkMessagePreview group result.(mres_Attempted)), w)).
Proof.
  unfold BroadcastDetailed. intros H.
  apply bind_ok in H as (group & ? & [Hg <-]%of_res_ok & H). cbv zeta in H.
  apply bind_ok in H as (? & ? & [_ <-]%require_ok & H).
  apply bind_ok in H as (? & ? & [_ <-]%require_ok & H).
  apply bind_ok in H as (send & ? & [_ <-]%of_option_ok & H).
  apply bind_ok in H as (targets & w1 & Hl & H). apply bind_ok in H as (? & w2 & _ & H).
  pose proof (ListDeliveryTargets_ok _ _ _ _ _ Hl) as [Ht Hn].
  apply broadcast_loop in H as (Ha & Hs & H1 & H2 & H3).
  2: { eapply Forall_impl; [exact Ht|]. intros inv (r & _ & Hp & _ & _ & Hm & Hc & _).
       apply parseInvitation_contact in Hp as [-> ->]. done. }
  unfold tally in Hs. simpl in *. exists group, targets. split_and!; try done; try lia.
  intros Hf. unfold PreviewBroadcast. rewrite Hg. erewrite bind_run by done.
  unfold ListDeliveryTargets in *. rewrite (bind_run _ _ _ _ _ (query_run _ _ _ Hf)) in Hl.
  unfold scanInvitationRows in Hl. rewrite mapM_of_res in Hl. injection Hl as Hl <-.
  erewrite bind_run; [|erewrite bind_run by (by apply query_run);
    unfold scanInvitationRows; rewrite mapM_of_res, Hl; reflexivity].
  simpl. unfold ret. repeat f_equal. lia.
Qed.
End broadcast.

Definition demo_message : MessageRequest := MkMessageRequest " all " "News" "Hello".
Lemma broadcast_accounts_witness :
  exists result w', BroadcastDetailed (E:=demo_env) demo_service_mail "ev" (Some "org") demo_message
    demo_world = (Ok result, w') /\
    result.(mres_Accepted) + result.(mres_Failed) + result.(mres_Skipped) = result.(mres_Attempted).
Proof.
  destruct (BroadcastDetailed (E:=demo_env) demo_service_mail "ev" (Some "org") demo_message demo_world)
    as [[result|e] w'] eqn:H; [|vm_compute in H; discriminate H].
  exists result, w'. split; [reflexivity|].
  destruct (broadcast_accounts (E:=demo_env) demo_service_mail _ _ _ _ _ _ H)
    as (g & t & _ & _ & _ & _ & Hs & _). exact Hs.
Defined.

(** ** Creating a private household

    [CreatePrivate] (internal/invitation/service.go) and [Create]
    (internal/invitation/store.go): what is written, what is refused, and that a
    failed delivery does not undo the invitation. *)

Section create.
Context `{E : Env} (s : Service).

(** What the request must satisfy. *)
Definition create_valid (req : CreateRequest) : Prop :=
  trim_space req.(cr_Label) <> "" /\ len (trim_space req.(cr_Label)) <= 200 /\
  0 <= req.(cr_Allowance) <= 50 /\ (1 <= length req.(cr_GuestNames) <= 100)%nat /\
  Forall (fun n => trim_space n <> "" /\ len (trim_space n) <= 200) req.(cr_GuestNames).

(** The guests of the request, in their order. *)
Definition guests_of (names : list string) (gs : list Guest) : Prop :=
  (fun g => (g.(guest_Name), g.(guest_Origin), g.(guest_SortOrder))) <$> gs
  = imap (fun n name => (trim_space name, GuestOriginAssigned, Z.of_nat n)) names.

Lemma create_guests_ok k names w gs w' :
  mapM create_guest (imap (fun n x => ((k + n)%nat, x)) names) w = (Ok gs, w') ->
  Forall (fun n => trim_space n <> "" /\ len (trim_space n) <= 200) names /\
  (fun g => (g.(guest_Name), g.(guest_Origin), g.(guest_SortOrder))) <$> gs
  = imap (fun n name => (trim_space name, GuestOriginAssigned, Z.of_nat (k + n))) names.
Proof.
  revert k w gs. induction names as [|name names IH]; intros k w gs H; simpl in H.
  - apply ret_ok in H as [<- _]. split; [constructor|done].
  - apply bind_ok in H as (g & w1 & Hg & H). apply bind_ok in H as (gs' & w2 & Hm & H).
    apply ret_ok in H as [<- ->]. unfold create_guest, new_assigned_guest in Hg. simpl in Hg.
    apply bind_ok in Hg as (? & ? & [Hn _]%require_ok & Hg).
    apply bind_ok in Hg as (? & ? & [Hl _]%require_ok & Hg). run_ok.
    apply negb_true_iff, bool_decide_eq_false in Hn. apply Z.leb_le in Hl.
    edestruct (IH (S k)) as [IH1 IH2].
    { rewrite <- Hm. apply (f_equal (fun l => mapM create_guest l w1)), imap_ext.
      intros. simpl. f_equal. lia. }
    split; [by constructor|]. rewrite IH2. f_equal.
    apply imap_ext. intros. simpl. repeat f_equal. lia.
Qed.

Lemma create_guests_read l : reads (mapM create_guest l).
Proof. unfold create_guest, new_assigned_guest. respect. Qed.
Lemma randomToken_reads n : reads (randomToken n).
Proof. unfold randomToken. respect. Qed.

Lemma attemptDelivery_total i warning w :
  exists d w', attemptDelivery s i warning w = (Ok d, w') /\
    (dr_Status d = DeliverySent \/ dr_Status d = DeliveryFailed /\ dr_Warning d = warning).
Proof.
  unfold attemptDelivery, bind, attempt. destruct (Deliver s i w) as [[u|e] w']; simpl;
    eexists _, _; split; try reflexivity; auto.
Qed.

Lemma Create_ok inv gs w inv' gs' w' :
  Create inv gs w = (Ok (inv', gs'), w') ->
  exists now, added [(inv.(ID), invitation_row inv now)] (guest_rows now inv.(ID) gs) w.(w_db) w'.(w_db) /\
    inv' = stamp_invitation inv inv'.(CreatedAt).
Proof.
  unfold Create. intros H. apply with_tx_ok in H as (w1 & w2 & H & D1 & D2 & _).
  apply bind_ok in H as (t & w3 & (_ & D3 & _)%now_ok & H). cbv zeta in H.
  apply bind_ok in H as (r & w4 & H4 & H). apply ret_ok in H as [[= <- <-] <-].
  apply insert_household_added in H4. exists (format_nano t). split; [|done].
  by rewrite D2, <- D1, <- D3.
Qed.

(** A program whose errors leave the database alone. *)
Definition undone {A} (m : M A) : Prop :=
  forall w e w', m w = (Err e, w') -> w'.(w_db) = w.(w_db).
Lemma undone_reads {A} (m : M A) : reads m -> undone m.
Proof. intros H w e w' He. specialize (H w). by rewrite He in H. Qed.
Lemma undone_bind {A B} (m : M A) (f : A -> M B) :
  reads m -> (forall a, undone (f a)) -> undone (bind m f).
Proof.
  intros Hm Hf w e w'. specialize (Hm w). unfold same_db in Hm. unfold bind.
  destruct (m w) as [[a|e'] w1]; simpl in Hm; [|by intros [= _ <-]].
  intros H%Hf. congruence.
Qed.
Lemma undone_last {A B} (m : M A) (f : A -> M B) :
  undone m -> (forall a w, exists b w', f a w = (Ok b, w')) -> undone (bind m f).
Proof.
  intros Hm Hf w e w'. unfold bind. destruct (m w) as [[a|e'] w1] eqn:H.
  - destruct (Hf a w1) as (b & w2 & ->). done.
  - intros [= _ <-]. by apply (Hm _ _ _ H).
Qed.
Lemma undone_tx {A} bc cc (m : M A) : undone (with_tx bc cc m).
Proof. intros w e w'. apply with_tx_err. Qed.

Lemma CreatePrivate_undone ev u req : undone (CreatePrivate s ev u req).
Proof.
  unfold CreatePrivate. cbv zeta.
  do 4 (apply undone_bind; [respect|intros _]).
  apply undone_bind; [respect|intros [[email phone] method]].
  apply undone_bind; [respect|intros _]. apply undone_bind; [apply randomToken_reads|intros a].
  apply undone_bind; [respect|intros id]. apply undone_bind; [apply create_guests_read|intros gs].
  apply undone_last; [apply undone_tx|]. intros [inv gs'] w. unfold bind.
  destruct req.(cr_Send); [|by eexists _, _].
  destruct (attemptDelivery_total inv.(ID)
    "Invitation created, but delivery failed. Use the private link or retry delivery." w)
    as (d & w' & -> & _). by eexists _, _.
Qed.

(** A refused or failed creation leaves the database as it
    was.  A successful one had a label of 1 to 200 bytes, an allowance of 0 to 50,
    1 to 100 guests with names of 1 to 200 bytes and a valid contact; it adds
    exactly one invitation row, private, at link version 1, with that label,
    contact and allowance, and one assigned guest per name in their order, and
    answers with that invitation's own link - also when the delivery that follows
    fails, which is reported and undoes nothing. *)
Theorem create_private ev u req w :
  match CreatePrivate s ev u req w with
  | (Err _, w') => w'.(w_db) = w.(w_db)
  | (Ok r, w') =>
      create_valid req /\
      exists email phone method now gs w1,
        validateContact req.(cr_ContactEmail) req.(cr_ContactPhone) req.(cr_Method)
        = Ok (email, phone, method) /\
        let row := MkInvitation r.(res_Invitation).(ID) ev (trim_space req.(cr_Label)) email phone method
                     req.(cr_Allowance) SourcePrivate None r.(res_Invitation).(AccessID) 1 (Some u)
                     None None zero_time zero_time in
        added [(row.(ID), invitation_row row now)] (guest_rows now row.(ID) gs) w.(w_db) w1.(w_db) /\
        guests_of req.(cr_GuestNames) gs /\
        r.(res_AccessURL) = privateAccessURL s row /\
        if req.(cr_Send)
        then r.(res_Delivery).(dr_Status) = DeliverySent \/ r.(res_Delivery).(dr_Status) = DeliveryFailed
        else w'.(w_db) = w1.(w_db) /\ r.(res_Delivery).(dr_Status) = DeliveryNotRequested
  end.
Proof.
  destruct (CreatePrivate s ev u req w) as [[r|e] w'] eqn:H; [|by eapply CreatePrivate_undone].
  unfold CreatePrivate in H. cbv zeta in H.
  apply bind_ok in H as (? & ? & [H1 <-]%require_ok & H).
  apply bind_ok in H as (? & ? & [H2 <-]%require_ok & H).
  apply bind_ok in H as (? & ? & [H3 <-]%require_ok & H).
  apply bind_ok in H as (? & ? & [H4 <-]%require_ok & H).
  apply bind_ok in H as ([[email phone] method] & ? & [Hc <-]%of_res_ok & H).
  apply bind_ok in H as (? & ? & [_ <-]%of_res_ok & H).
  apply bind_ok in H as (access & w1 & Ha & H). apply bind_ok in H as (id & w2 & Hu & H).
  apply bind_ok in H as (gs & w3 & Hg & H). apply bind_ok in H as ([inv gs'] & w4 & Hcr & H).
  pose proof (randomToken_reads 18 w) as D1. rewrite Ha in D1. unfold same_db in D1. simpl in D1.
  apply new_uuid_ok in Hu as (_ & D2 & _).
  pose proof (create_guests_read (imap pair req.(cr_GuestNames)) w2) as D3. rewrite Hg in D3.
  unfold same_db in D3. simpl in D3.
  destruct (create_guests_ok 0 _ _ _ _ Hg) as [Hn Hgs].
  apply Create_ok in Hcr as (now & Hadd & Hinv). rewrite D3, D2, D1 in Hadd.
  apply bind_ok in H as (d & w5 & Hd & H). apply ret_ok in H as [<- <-].
  split.
  { rewrite negb_true_iff, bool_decide_eq_false in H1. rewrite andb_true_iff, negb_true_iff in H4.
    rewrite bool_decide_eq_false, Nat.leb_le in H4. apply andb_true_iff in H3.
    unfold create_valid. split_and!; try done; lia. }
  exists email, phone, method, now, gs, w4. simpl. rewrite Hinv. simpl.
  split_and!; try done. destruct req.(cr_Send).
  - destruct (attemptDelivery_total inv.(ID)
      "Invitation created, but delivery failed. Use the private link or retry delivery." w4)
      as (d' & w6 & Hd' & Hs). rewrite Hd in Hd'. injection Hd' as -> ->.
    destruct Hs as [Hs|[Hs _]]; auto.
  - apply ret_ok in Hd as [<- <-]. done.
Qed.
End create.

Example demo_create :
  let '(r, w') := CreatePrivate (E:=demo_env) demo_service_mail "ev" "org"
    (MkCreateRequest " Jones " (Some "J@x.y") None "" 2 ["Ann"; " Bob "] true) demo_world in
  (exists x, r = Ok x /\ x.(res_Delivery).(dr_Status) = DeliverySent /\ length x.(res_Guests) = 2%nat) /\
  size w'.(w_db).(guests) = (size demo_world.(w_db).(guests) + 2)%nat.
Proof. vm_compute. eauto. Qed.
