(* ===== verification/RateLimit.v ===== *)
(** * The sliding-window rate limiter (internal/security/ratelimit.go)

    The limiter's table, its operations with the time at which each runs (the
    mutex makes them run one after the other), the specification they implement -
    a request is accepted when fewer than [limit] were accepted in the window that
    ends with it - and the bound this gives. *)

From S2P Require Import Prelude.
From S2P Require Import GoStr.
From S2P Require Import GoTime.
From S2P Require Import Schema.
From S2P Require Import Eff.
From S2P Require Import Http.

Local Open Scope Z_scope.

(** [windows] holds the entries of each key. *)
Record RateLimiter := MkLimiter {
  windows : gmap string (list time); limit : Z; window : Z }.

Definition NewRateLimiter (limit windowDuration : Z) : RateLimiter := MkLimiter ∅ limit windowDuration.

Definition pruneEntries (entries : list time) (cutoff : time) : list time :=
  List.filter (fun e => negb (e <? cutoff)) entries.

Definition Allow (key : string) (now : time) (rl : RateLimiter) : bool * RateLimiter :=
  let cutoff := now - rl.(window) in
  let entries := pruneEntries (default [] (rl.(windows) !! key)) cutoff in
  if rl.(limit) <=? Z.of_nat (length entries)
  then (false, MkLimiter (<[key := entries]> rl.(windows)) rl.(limit) rl.(window))
  else (true, MkLimiter (<[key := entries ++ [now]]> rl.(windows)) rl.(limit) rl.(window)).

Definition Reset (key : string) (rl : RateLimiter) : RateLimiter :=
  MkLimiter (delete key rl.(windows)) rl.(limit) rl.(window).

Definition Cleanup (now : time) (rl : RateLimiter) : RateLimiter :=
  MkLimiter (map_imap (fun _ entries =>
               match pruneEntries entries (now - rl.(window)) with [] => None | l => Some l end)
             rl.(windows)) rl.(limit) rl.(window).

(** The middleware: [None] lets the request through, [Some n] is the 429 reply
    that asks to retry after [n] seconds. *)
Definition RateLimitMiddleware `{HttpEnv} (remoteAddr : string) (now : time) (rl : RateLimiter)
    : option Z * RateLimiter :=
  let key := default remoteAddr (fst <$> split_host_port remoteAddr) in
  let '(allowed, rl') := Allow key now rl in
  (if allowed then None else Some (Z.quot rl.(window) ns_per_sec), rl').

(** ** Runs *)

Inductive limiter_op := OpAllow (key : string) (now : time) | OpReset (key : string) | OpCleanup (now : time).

Definition limiter_step (rl : RateLimiter) (op : limiter_op) : option bool * RateLimiter :=
  match op with
  | OpAllow key now => let '(b, rl') := Allow key now rl in (Some b, rl')
  | OpReset key => (None, Reset key rl)
  | OpCleanup now => (None, Cleanup now rl)
  end.
Fixpoint limiter_run (rl : RateLimiter) (ops : list limiter_op) : list (option bool) :=
  match ops with
  | [] => []
  | op :: rest => let '(b, rl') := limiter_step rl op in b :: limiter_run rl' rest
  end.

(** The clock does not go back. *)
Fixpoint ordered_from (t : time) (ops : list limiter_op) : Prop :=
  match ops with
  | [] => True
  | OpAllow _ now :: rest | OpCleanup now :: rest => t <= now /\ ordered_from now rest
  | OpReset _ :: rest => ordered_from t rest
  end.

(** ** The specification: every accepted request is remembered *)

Definition in_window (lo hi e : time) : bool := (lo <=? e) && (e <=? hi).

Section spec.
Context (limit window : Z).

Definition spec_step (h : gmap string (list time)) (op : limiter_op)
    : option bool * gmap string (list time) :=
  match op with
  | OpAllow key now =>
      let past := default [] (h !! key) in
      if Z.of_nat (length (List.filter (in_window (now - window) now) past)) <? limit
      then (Some true, <[key := past ++ [now]]> h) else (Some false, h)
  | OpReset key => (None, delete key h)
  | OpCleanup _ => (None, h)
  end.
Fixpoint spec_run (h : gmap string (list time)) (ops : list limiter_op) : list (option bool) :=
  match ops with
  | [] => []
  | op :: rest => let '(b, h') := spec_step h op in b :: spec_run h' rest
  end.
End spec.

(** ** The limiter implements the specification *)

Lemma filter_andb {A} (f g : A -> bool) l : List.filter f (List.filter g l) = List.filter (fun x => g x && f x) l.
Proof.
  induction l as [|x l IH]; simpl; [done|]. destruct (g x); simpl; [destruct (f x)|]; by rewrite ?IH.
Qed.
Lemma filter_ext_list {A} (f g : A -> bool) l :
  (forall x, x ∈ l -> f x = g x) -> List.filter f l = List.filter g l.
Proof. intros H. apply filter_ext_in. intros x Hx. apply H. by apply list_elem_of_In. Qed.

Definition entries_of (t : gmap string (list time)) (key : string) : list time := default [] (t !! key).

(** What the table and the history share at time [t]: the entries of the windows
    that end at [t] or later; none of them is after [t]. *)
Record agrees (window t : Z) (entries history : gmap string (list time)) : Prop := {
  ag_recent : forall key c, t - window <= c ->
    pruneEntries (entries_of entries key) c = pruneEntries (entries_of history key) c;
  ag_past : forall key e, e ∈ entries_of history key -> e <= t }.

Lemma prune_twice l c c' : c <= c' -> pruneEntries (pruneEntries l c) c' = pruneEntries l c'.
Proof.
  intros Hc. unfold pruneEntries. rewrite filter_andb. apply filter_ext_list. intros x _.
  destruct (Z.ltb_spec x c), (Z.ltb_spec x c'); simpl; try done; lia.
Qed.
Lemma prune_app l k c : pruneEntries (l ++ k) c = pruneEntries l c ++ pruneEntries k c.
Proof. apply List.filter_app. Qed.

Lemma entries_insert t key l key' :
  entries_of (<[key := l]> t) key' = if decide (key = key') then l else entries_of t key'.
Proof. unfold entries_of. destruct (decide (key = key')) as [->|]; by rewrite ?lookup_insert_eq, ?lookup_insert_ne. Qed.
Lemma entries_delete t key key' :
  entries_of (delete key t) key' = if decide (key = key') then [] else entries_of t key'.
Proof. unfold entries_of. destruct (decide (key = key')) as [->|]; by rewrite ?lookup_delete_eq, ?lookup_delete_ne. Qed.
Lemma entries_cleanup rl now key :
  entries_of (Cleanup now rl).(windows) key = pruneEntries (entries_of rl.(windows) key) (now - rl.(window)).
Proof.
  unfold entries_of. simpl. rewrite map_lookup_imap. destruct (rl.(windows) !! key) as [l|]; simpl; [|done].
  by destruct (pruneEntries l _).
Qed.

Lemma window_count window now history key :
  (forall e, e ∈ entries_of history key -> e <= now) ->
  List.filter (in_window (now - window) now) (entries_of history key)
  = pruneEntries (entries_of history key) (now - window).
Proof.
  intros Hp. apply filter_ext_list. intros e He. specialize (Hp e He). unfold in_window.
  destruct (Z.leb_spec (now - window) e), (Z.leb_spec e now), (Z.ltb_spec e (now - window)); simpl; try done; lia.
Qed.

Lemma step_agrees t rl h op :
  ordered_from t [op] -> agrees rl.(window) t rl.(windows) h ->
  let now := match op with OpAllow _ now | OpCleanup now => now | OpReset _ => t end in
  (limiter_step rl op).1 = (spec_step rl.(limit) rl.(window) h op).1 /\
  (limiter_step rl op).2.(limit) = rl.(limit) /\ (limiter_step rl op).2.(window) = rl.(window) /\
  agrees rl.(window) now (limiter_step rl op).2.(windows) (spec_step rl.(limit) rl.(window) h op).2.
Proof.
  intros Ho [Hr Hp]. destruct op as [key now|key|now]; simpl in *.
  - destruct Ho as [Hle _]. unfold Allow. fold (entries_of rl.(windows) key). fold (entries_of h key).
    rewrite window_count by (intros e He; specialize (Hp _ _ He); lia).
    rewrite <- (Hr key) by lia. set (recent := pruneEntries (entries_of rl.(windows) key) (now - rl.(window))).
    rewrite Z.leb_antisym. destruct (Z.ltb_spec (Z.of_nat (length recent)) rl.(limit)); simpl;
      (split_and!; [done..|]); split.
    + intros k c Hc. rewrite !entries_insert. destruct (decide (key = k)) as [<-|]; [|apply Hr; lia].
      unfold recent. rewrite !prune_app, (prune_twice _ _ _ Hc). by rewrite Hr by lia.
    + intros k e. rewrite entries_insert. destruct (decide (key = k)) as [<-|].
      * intros [He|He]%elem_of_app; [specialize (Hp _ _ He)|apply list_elem_of_singleton in He]; lia.
      * intros He. specialize (Hp _ _ He). lia.
    + intros k c Hc. rewrite entries_insert. destruct (decide (key = k)) as [<-|]; [|apply Hr; lia].
      unfold recent. rewrite (prune_twice _ _ _ Hc). apply Hr. lia.
    + intros k e He. specialize (Hp _ _ He). lia.
  - split_and!; [done..|]. split.
    + intros k c Hc. rewrite !entries_delete. destruct (decide (key = k)); [done|by apply Hr].
    + intros k e. rewrite entries_delete. destruct (decide (key = k)); [by intros ?%elem_of_nil|apply Hp].
  - destruct Ho as [Hle _]. split_and!; [done..|]. split.
    + intros k c Hc. change (map_imap _ _) with (Cleanup now rl).(windows).
      rewrite entries_cleanup, (prune_twice _ _ _ Hc). apply Hr. lia.
    + intros k e He. specialize (Hp _ _ He). lia.
Qed.

Lemma ordered_cons t op ops :
  ordered_from t (op :: ops) ->
  ordered_from t [op] /\
  ordered_from (match op with OpAllow _ now | OpCleanup now => now | OpReset _ => t end) ops.
Proof. destruct op; simpl; tauto. Qed.

Lemma run_agrees t rl h ops :
  ordered_from t ops -> agrees rl.(window) t rl.(windows) h ->
  limiter_run rl ops = spec_run rl.(limit) rl.(window) h ops.
Proof.
  revert t rl h. induction ops as [|op ops IH]; intros t rl h Ho Ha; [done|].
  apply ordered_cons in Ho as [Ho Hrest]. cbn [limiter_run spec_run].
  destruct (step_agrees _ _ _ _ Ho Ha) as (H1 & H2 & H3 & H4).
  destruct (limiter_step rl op) as [b rl'], (spec_step _ _ h op) as [b' h']. simpl in *. subst b'.
  f_equal. rewrite <- H2, <- H3. eapply IH; [exact Hrest|]. by rewrite H3.
Qed.

Lemma agrees_empty window t : agrees window t ∅ ∅.
Proof. split; [done|]. intros key e. unfold entries_of. rewrite lookup_empty. by intros ?%elem_of_nil. Qed.

(** [C15] Over any sequence of requests, resets and cleanups in
    the order of the clock, a new limiter accepts exactly the requests that the
    specification accepts - those with fewer than [limit] accepted requests of the
    same key in the window that ends with them since the key was last reset.  So
    pruning and the periodic cleanup change no answer, and keys do not affect each
    other. *)
Theorem rate_limiter_refines limit window t ops :
  ordered_from t ops ->
  limiter_run (NewRateLimiter limit window) ops = spec_run limit window ∅ ops.
Proof. intros Ho. by apply (run_agrees t (NewRateLimiter limit window)), agrees_empty. Qed.

(** ** The bound *)

(** The times at which requests of [key] were accepted. *)
Fixpoint accepted (key : string) (ops : list limiter_op) (results : list (option bool)) : list time :=
  match ops, results with
  | OpAllow k now :: ops, Some true :: results =>
      (if bool_decide (k = key) then [now] else []) ++ accepted key ops results
  | _ :: ops, _ :: results => accepted key ops results
  | _, _ => []
  end.
Definition no_reset (key : string) (ops : list limiter_op) : Prop := OpReset key ∉ ops.

Definition bounded (limit window : Z) (l : list time) : Prop :=
  forall t, Z.of_nat (length (List.filter (in_window (t - window) t) l)) <= Z.max 0 limit.

Lemma bounded_snoc limit window l now :
  bounded limit window l -> (forall e, e ∈ l -> e <= now) ->
  Z.of_nat (length (List.filter (in_window (now - window) now) l)) < limit ->
  bounded limit window (l ++ [now]).
Proof.
  intros Hb Hp Hc t. rewrite List.filter_app, length_app. simpl. specialize (Hb t).
  destruct (in_window (t - window) t now) eqn:Hin; simpl; [|lia].
  unfold in_window in Hin. apply andb_true_iff in Hin as [H1%Z.leb_le H2%Z.leb_le].
  assert (length (List.filter (in_window (t - window) t) l)
          <= length (List.filter (in_window (now - window) now) l))%nat; [|lia].
  rewrite (filter_ext_list (in_window (t - window) t)
    (fun e => in_window (now - window) now e && in_window (t - window) t e)).
  - rewrite <- filter_andb. apply filter_length_le.
  - intros e He. specialize (Hp e He). unfold in_window.
    destruct (Z.leb_spec (t - window) e), (Z.leb_spec e t), (Z.leb_spec (now - window) e), (Z.leb_spec e now);
      simpl; try done; lia.
Qed.

Lemma spec_bounded limit window key t h ops :
  ordered_from t ops -> no_reset key ops ->
  bounded limit window (entries_of h key) -> (forall e, e ∈ entries_of h key -> e <= t) ->
  bounded limit window (entries_of h key ++ accepted key ops (spec_run limit window h ops)).
Proof.
  revert t h. induction ops as [|op ops IH]; intros t h Ho Hn Hb Hp; [by rewrite app_nil_r|].
  apply ordered_cons in Ho as [Ho Hrest]. apply not_elem_of_cons in Hn as [Hk Hn].
  destruct op as [k now|k|now]; simpl in *.
  - destruct Ho as [Hle _]. fold (entries_of h k).
    destruct (Z.ltb_spec (Z.of_nat (length (List.filter (in_window (now - window) now) (entries_of h k)))) limit)
      as [Hlt|Hge]; simpl.
    + assert (forall e, e ∈ entries_of h key -> e <= now) as Hp' by (intros e He; specialize (Hp e He); lia).
      destruct (bool_decide_reflect (k = key)) as [->|Hne].
      * rewrite app_assoc. specialize (IH now (<[key := entries_of h key ++ [now]]> h) Hrest Hn).
        rewrite entries_insert, decide_True in IH by done. apply IH; [by apply bounded_snoc|].
        intros e [He|He]%elem_of_app; [by apply Hp'|]. apply list_elem_of_singleton in He. lia.
      * specialize (IH now (<[k := entries_of h k ++ [now]]> h) Hrest Hn).
        rewrite entries_insert, decide_False in IH by done. by apply IH.
    + apply (IH now); [done..|]. intros e He. specialize (Hp e He). lia.
  - specialize (IH t (delete k h) Hrest Hn). rewrite entries_delete, decide_False in IH by congruence.
    by apply IH.
  - apply (IH now); [done..|]. intros e He. specialize (Hp e He). lia.
Qed.

(** However requests of all keys and cleanups interleave, no
    stretch of time as long as the window, wherever it starts, holds more than
    [limit] accepted requests of one key that is not reset. *)
Theorem rate_limit_bound limit window t0 key ops t :
  ordered_from t0 ops -> no_reset key ops ->
  Z.of_nat (length (List.filter (in_window (t - window) t)
    (accepted key ops (limiter_run (NewRateLimiter limit window) ops)))) <= Z.max 0 limit.
Proof.
  intros Ho Hn. rewrite (run_agrees t0 (NewRateLimiter limit window) ∅) by (done || apply agrees_empty).
  assert (entries_of ∅ key = []) as He by (unfold entries_of; by rewrite lookup_empty).
  pose proof (spec_bounded limit window key t0 ∅ ops Ho Hn) as Hb. rewrite He in Hb. simpl in Hb.
  apply Hb; [intros u; simpl; lia|by intros e ?%elem_of_nil].
Qed.

Definition demo_requests : list limiter_op :=
  [OpAllow "a" 0; OpAllow "a" 1; OpAllow "b" 2; OpAllow "a" 3; OpCleanup 4; OpAllow "a" 10; OpAllow "a" 12].
Lemma rate_limiter_refines_witness :
  limiter_run (NewRateLimiter 2 10) demo_requests = spec_run 2 10 ∅ demo_requests /\
  limiter_run (NewRateLimiter 2 10) demo_requests
  = [Some true; Some true; Some true; Some false; None; Some false; Some true].
Proof.
  split; [|vm_compute; reflexivity]. apply (rate_limiter_refines 2 10 0). simpl. lia.
Defined.
Lemma rate_limit_bound_witness :
  Z.of_nat (length (List.filter (in_window 2 12)
    (accepted "a" demo_requests (limiter_run (NewRateLimiter 2 10) demo_requests)))) <= 2.
Proof.
  apply (rate_limit_bound 2 10 0 "a" demo_requests 12); [simpl; lia|].
  unfold no_reset, demo_requests. rewrite !not_elem_of_cons. repeat split; try discriminate.
  apply not_elem_of_nil.
Defined.
