(* ===== verification/Csrf.v ===== *)
(** * CSRF protection (internal/security/csrf.go)

    The double-submit token, bound to the session cookie by an HMAC, and the
    middleware that issues and checks it.  The key is the one [init] draws at
    startup. *)

From S2P Require Import Prelude.
From S2P Require Import GoStr.
From S2P Require Import GoTime.
From S2P Require Import Schema.
From S2P Require Import Eff.
From S2P Require Import Http.
From S2P Require Import Demo.

Local Open Scope Z_scope.

Definition dot : ascii := "."%char.

(** The parts of a request the middleware reads; a cookie that is absent is
    [None], a header that is absent is empty. *)
Record CsrfRequest := MkCsrfRequest {
  cq_path : string; cq_method : string; cq_authorization : string;
  cq_session : option string; cq_invitationSession : option string;
  cq_csrf : option string; cq_header : string;
  cq_tls : bool; cq_forwardedTrusted : bool; cq_forwardedProto : string }.

(** What happens to the request; the cookie set beside it is separate. *)
Inductive verdict := Next | Forbidden | ServerError.

(** [strings.EqualFold(s, "https")]: the letter s also folds with U+017F. *)
Definition equal_fold_https (s : string) : bool :=
  bool_decide (lower_byte <$> to_bytes s = to_bytes "https")
  || bool_decide (lower_byte <$> to_bytes s = to_bytes "http" ++ [byte_of 197; byte_of 191]).

Definition isSecureRequest (r : CsrfRequest) : bool :=
  r.(cq_tls) || (r.(cq_forwardedTrusted) && equal_fold_https r.(cq_forwardedProto)).

Definition is_safe_method (m : string) : bool := one_of m ["GET"; "HEAD"; "OPTIONS"].

Section csrf.
Context `{E : Env} (csrfHMACKey : string).

Definition generateCSRFNonce : M string :=
  o <- read_random 32 ;;
  match o with
  | Some b => ret (hex_encode b)
  | None => fail (EInternal "random source")
  end.

Definition computeCSRFHMAC (nonce sessionValue : string) : string :=
  hex_encode (hmac_sha256 csrfHMACKey (nonce +:+ sessionValue)).

Definition buildCSRFToken (sessionValue : string) : M string :=
  nonce <- generateCSRFNonce ;;
  if bool_decide (sessionValue = "") then ret nonce
  else ret (nonce +:+ "." +:+ computeCSRFHMAC nonce sessionValue).

Definition isSessionBoundToken (token : string) : bool := 0 <? index_byte token dot.

Definition verifyCSRFToken (cookieToken headerToken sessionValue : string) : bool :=
  if negb (bool_decide (cookieToken = headerToken)) then false
  else if negb (bool_decide (sessionValue = "")) then
    let idx := index_byte cookieToken dot in
    if idx <=? 0 then false
    else bool_decide (str_drop (idx + 1) cookieToken
                      = computeCSRFHMAC (str_take idx cookieToken) sessionValue)
  else negb (isSessionBoundToken cookieToken).

Definition isBoundToSession (token sessionValue : string) : bool :=
  if bool_decide (sessionValue = "") then false
  else
    let idx := index_byte token dot in
    if idx <=? 0 then false
    else bool_decide (str_drop (idx + 1) token = computeCSRFHMAC (str_take idx token) sessionValue).

Definition needsCSRFRebind (r : CsrfRequest) (sessionValue : string) : bool :=
  match r.(cq_csrf) with
  | None => true
  | Some value => negb (bool_decide (sessionValue = "")) && negb (isBoundToSession value sessionValue)
  end.

Definition csrf_cookie (r : CsrfRequest) (token : string) : Cookie :=
  MkCookie "csrf_token" token "/" false (isSecureRequest r) "Strict" 0.

(** The value of the session cookie, or of the invitation session's. *)
Definition session_value (r : CsrfRequest) : string :=
  match r.(cq_session) with
  | Some v => v
  | None => default "" r.(cq_invitationSession)
  end.

Definition csrf_exempt (excludePaths : list string) (r : CsrfRequest) : bool :=
  existsb (has_prefix r.(cq_path)) excludePaths || has_prefix r.(cq_authorization) "Bearer ".

(** Mint a token and set its cookie; [None] when the random source fails. *)
Definition mint (r : CsrfRequest) (sessionValue : string) : M (option Cookie) :=
  t <- attempt (buildCSRFToken sessionValue) ;;
  ret (match t with Ok token => Some (csrf_cookie r token) | Err _ => None end).

Definition CSRFMiddleware (excludePaths : list string) (r : CsrfRequest)
    : M (verdict * option Cookie) :=
  if csrf_exempt excludePaths r then ret (Next, None)
  else
    let sessionValue := session_value r in
    if is_safe_method r.(cq_method) then
      if needsCSRFRebind r sessionValue then
        c <- mint r sessionValue ;;
        ret (match c with Some _ => (Next, c) | None => (ServerError, None) end)
      else ret (Next, None)
    else
      match r.(cq_csrf) with
      | None => ret (Forbidden, None)
      | Some cookie =>
          if bool_decide (r.(cq_header) = "") then ret (Forbidden, None)
          else if negb (verifyCSRFToken cookie r.(cq_header) sessionValue) then
            if negb (bool_decide (sessionValue = "")) && negb (isBoundToSession cookie sessionValue)
            then c <- mint r sessionValue ;; ret (Forbidden, c)
            else ret (Forbidden, None)
          else ret (Next, None)
      end.

(** ** Tokens *)

Lemma hex_char_not_dot n : 0 <= n < 16 -> hex_char n <> dot.
Proof.
  intros Hn H. apply (f_equal byte_val) in H. unfold hex_char in H.
  change (byte_val dot) with 46 in H. destruct (Z.ltb_spec n 10); rewrite byte_val_of in H; lia.
Qed.
Lemma hex_no_dot s : dot ∉ to_bytes (hex_encode s).
Proof.
  unfold hex_encode. rewrite to_of_bytes. induction (to_bytes s) as [|c l IH]; simpl; [apply not_elem_of_nil|].
  pose proof (byte_val_range c). rewrite !not_elem_of_cons.
  split_and!; [| |exact IH]; intros Hd; symmetry in Hd; revert Hd; apply hex_char_not_dot.
  - split; [apply Z.div_pos; lia|apply Z.div_lt_upper_bound; lia].
  - apply Z.mod_pos_bound. lia.
Qed.
Lemma hex_nonempty s : s <> "" -> 0 < Z.of_nat (length (to_bytes (hex_encode s))).
Proof.
  intros Hs. unfold hex_encode. rewrite to_of_bytes. destruct (to_bytes s) as [|c l] eqn:Hl; simpl; [|lia].
  exfalso. apply Hs. by apply to_bytes_inj.
Qed.

(** The tokens bound to a session. *)
Definition bound_form (token sessionValue : string) : Prop :=
  exists nonce, token = nonce +:+ "." +:+ computeCSRFHMAC nonce sessionValue /\
    nonce <> "" /\ dot ∉ to_bytes nonce.

Lemma isBoundToSession_spec token s : s <> "" -> isBoundToSession token s = true <-> bound_form token s.
Proof.
  intros Hs. unfold isBoundToSession. rewrite bool_decide_eq_false_2 by done. cbv zeta. split.
  - destruct (Z.leb_spec (index_byte token dot) 0) as [|Hi]; [done|]. intros Hm%bool_decide_eq_true.
    destruct (index_byte_cut token dot) as [Hc Hn]; [lia|]. rewrite Hm in Hc.
    exists (str_take (index_byte token dot) token). split_and!; [exact Hc| |exact Hn].
    intros He. rewrite Hc, He in Hi. by vm_compute in Hi.
  - intros (nonce & -> & Hne & Hd).
    destruct (index_byte_app nonce (computeCSRFHMAC nonce s) dot Hd) as (Hi & Ht & Hr).
    change (of_bytes [dot]) with "." in *. rewrite Ht, Hr, Hi.
    destruct (Z.leb_spec (Z.of_nat (length (to_bytes nonce))) 0) as [Hz|]; [|by apply bool_decide_eq_true].
    exfalso. apply Hne, to_bytes_inj. destruct (to_bytes nonce); [done|simpl in Hz; lia].
Qed.

Lemma verify_spec token header s :
  verifyCSRFToken token header s = true <->
  token = header /\ (if bool_decide (s = "") then isSessionBoundToken token = false else bound_form token s).
Proof.
  unfold verifyCSRFToken. destruct (bool_decide_reflect (token = header)) as [He|He]; simpl; [|naive_solver].
  destruct (bool_decide_reflect (s = "")) as [->|Hs]; simpl; [rewrite negb_true_iff; naive_solver|].
  rewrite <- isBoundToSession_spec by done. unfold isBoundToSession.
  rewrite (bool_decide_eq_false_2 (s = "")) by done. split; [done|tauto].
Qed.

Lemma buildCSRFToken_verifies s w token w' b :
  rand_read w.(w_draws) 32 = Some b -> b <> "" -> buildCSRFToken s w = (Ok token, w') ->
  token <> "" /\ verifyCSRFToken token token s = true.
Proof.
  intros Hb Hne. unfold buildCSRFToken, generateCSRFNonce, bind, read_random. simpl. rewrite Hb. simpl.
  pose proof (hex_nonempty b Hne) as Hlen. pose proof (hex_no_dot b) as Hdot.
  assert (hex_encode b <> "") as Hhex by (intros He; rewrite He in Hlen; simpl in Hlen; lia).
  rewrite verify_spec. destruct (bool_decide_reflect (s = "")) as [->|Hs]; intros [= <- <-].
  - split; [done|]. split; [done|]. unfold isSessionBoundToken, index_byte.
    by rewrite index_bytes_absent.
  - split; [|split; [done|by exists (hex_encode b)]].
    intros He. apply (f_equal to_bytes) in He. rewrite to_bytes_app in He.
    apply (f_equal length) in He. rewrite length_app in He. simpl in He. lia.
Qed.

(** ** The middleware *)

Lemma csrf_passed excludePaths r w c w' :
  CSRFMiddleware excludePaths r w = (Ok (Next, c), w') ->
  csrf_exempt excludePaths r = false -> is_safe_method r.(cq_method) = false ->
  c = None /\ w' = w /\ r.(cq_header) <> "" /\ r.(cq_csrf) = Some r.(cq_header) /\
  (session_value r <> "" -> bound_form r.(cq_header) (session_value r)) /\
  (session_value r = "" -> isSessionBoundToken r.(cq_header) = false).
Proof.
  unfold CSRFMiddleware. intros H Hex Hm. rewrite Hex, Hm in H. cbv zeta in H. revert H.
  destruct r.(cq_csrf) as [cookie|]; [|by intros [= ]].
  destruct (bool_decide_reflect (r.(cq_header) = "")) as [|Hh]; [by intros [= ]|].
  destruct (verifyCSRFToken cookie r.(cq_header) (session_value r)) eqn:Hv; simpl.
  - intros [= <- <-]. apply verify_spec in Hv as [-> Hv]. split_and!; try done.
    + intros Hs. by rewrite bool_decide_eq_false_2 in Hv.
    + intros Hs. by rewrite bool_decide_eq_true_2 in Hv.
  - destruct (negb _ && negb _); [|by intros [= ]]. intros H.
    apply bind_ok in H as (x & w1 & _ & [Hx _]%ret_ok). done.
Qed.

(** A request that is not exempt and changes state passes only
    with a token in the cookie and the same token in the header; with a session
    that token is a nonce and the HMAC of that nonce and this very session. *)
Theorem csrf_guards excludePaths r w c w' :
  CSRFMiddleware excludePaths r w = (Ok (Next, c), w') ->
  csrf_exempt excludePaths r = false -> is_safe_method r.(cq_method) = false ->
  c = None /\ w' = w /\ r.(cq_header) <> "" /\ r.(cq_csrf) = Some r.(cq_header) /\
  (session_value r <> "" -> bound_form r.(cq_header) (session_value r)) /\
  (session_value r = "" -> isSessionBoundToken r.(cq_header) = false).
Proof. apply csrf_passed. Qed.

Lemma hex_char_inj m n : 0 <= m < 16 -> 0 <= n < 16 -> hex_char m = hex_char n -> m = n.
Proof.
  intros Hm Hn H. apply (f_equal byte_val) in H. unfold hex_char in H.
  destruct (Z.ltb_spec m 10), (Z.ltb_spec n 10); rewrite !byte_val_of in H; lia.
Qed.
Lemma hex_inj s t : hex_encode s = hex_encode t -> s = t.
Proof.
  intros H. apply (f_equal to_bytes) in H. unfold hex_encode in H. rewrite !to_of_bytes in H.
  apply to_bytes_inj. revert H. generalize (to_bytes t). induction (to_bytes s) as [|c l IH];
    intros [|d k]; simpl; [done..|]. intros [= H1 H2 H3]. f_equal; [|by apply IH].
  pose proof (byte_val_range c). pose proof (byte_val_range d).
  assert (forall x, 0 <= x < 256 -> 0 <= x / 16 < 16) as Hdiv
    by (intros x Hx; split; [apply Z.div_pos; lia|apply Z.div_lt_upper_bound; lia]).
  apply hex_char_inj in H1; [|by apply Hdiv..].
  apply hex_char_inj in H2; [|apply Z.mod_pos_bound; lia..].
  apply byte_val_inj. rewrite (Z.div_mod (byte_val c) 16), (Z.div_mod (byte_val d) 16) by lia. congruence.
Qed.

(** A token that is accepted for two sessions would be a
    collision of the HMAC: unless the two messages collide, the sessions are the
    same. *)
Theorem csrf_token_one_session token s s' :
  s <> "" -> s' <> "" ->
  verifyCSRFToken token token s = true -> verifyCSRFToken token token s' = true ->
  (forall nonce, hmac_sha256 csrfHMACKey (nonce +:+ s) = hmac_sha256 csrfHMACKey (nonce +:+ s') ->
     nonce +:+ s = nonce +:+ s') ->
  s = s'.
Proof.
  intros Hs Hs' [_ H1]%verify_spec [_ H2]%verify_spec Hinj.
  rewrite bool_decide_eq_false_2 in H1, H2 by done.
  destruct H1 as (n & -> & _ & Hd), H2 as (n' & He & _ & Hd').
  destruct (index_byte_app n (computeCSRFHMAC n s) dot Hd) as (_ & Ht & Hr).
  destruct (index_byte_app n' (computeCSRFHMAC n' s') dot Hd') as (_ & Ht' & Hr').
  change (of_bytes [dot]) with "." in *. rewrite He in Ht, Hr. rewrite Ht in Ht'. subst n'.
  rewrite Hr' in Hr. apply hex_inj in Hr. symmetry in Hr. apply Hinj in Hr.
  apply (f_equal to_bytes) in Hr. rewrite !to_bytes_app in Hr. apply app_inv_head in Hr.
  by apply to_bytes_inj.
Qed.

(** The browser's token after a reply, and its next mutation with it. *)
Definition token_after (r : CsrfRequest) (c : option Cookie) : option string :=
  match c with Some k => Some k.(ck_value) | None => r.(cq_csrf) end.
Definition mutation_after (r : CsrfRequest) (c : option Cookie) : CsrfRequest :=
  MkCsrfRequest r.(cq_path) "POST" r.(cq_authorization) r.(cq_session) r.(cq_invitationSession)
    (token_after r c) (default "" (token_after r c)) r.(cq_tls) r.(cq_forwardedTrusted)
    r.(cq_forwardedProto).

Lemma mint_ok r s w b :
  rand_read w.(w_draws) 32 = Some b -> b <> "" ->
  exists token w', mint r s w = (Ok (Some (csrf_cookie r token)), w') /\
    token <> "" /\ verifyCSRFToken token token s = true.
Proof.
  intros Hb Hne. unfold mint, attempt, bind.
  destruct (buildCSRFToken s w) as [[token|e] w1] eqn:Ht.
  - destruct (buildCSRFToken_verifies _ _ _ _ _ Hb Hne Ht). by exists token, w1.
  - unfold buildCSRFToken, generateCSRFNonce, bind, read_random in Ht. simpl in Ht. rewrite Hb in Ht.
    by destruct (bool_decide _).
Qed.

Lemma mutation_passes excludePaths r c token w :
  token_after r c = Some token -> token <> "" ->
  verifyCSRFToken token token (session_value r) = true ->
  CSRFMiddleware excludePaths (mutation_after r c) w = (Ok (Next, None), w).
Proof.
  intros Ht Hne Hv. unfold CSRFMiddleware, csrf_exempt. cbn.
  destruct (_ || _); [done|]. rewrite Ht. simpl. rewrite bool_decide_eq_false_2 by done.
  change (session_value (mutation_after r c)) with (session_value r). by rewrite Hv.
Qed.

(** With a session, whatever token cookie the browser holds - one
    from before the login, one of another session, none - one safe request, or one
    refused mutation that carries a token, leaves it with a token that its next
    mutation is accepted with. *)
Theorem csrf_recovers excludePaths r w b w2 :
  session_value r <> "" -> rand_read w.(w_draws) 32 = Some b -> b <> "" ->
  csrf_exempt excludePaths r = false ->
  (is_safe_method r.(cq_method) = true \/
   exists t, r.(cq_csrf) = Some t /\ isBoundToSession t (session_value r) = false /\ r.(cq_header) <> "") ->
  exists v c w1, CSRFMiddleware excludePaths r w = (Ok (v, c), w1) /\
    CSRFMiddleware excludePaths (mutation_after r c) w2 = (Ok (Next, None), w2).
Proof.
  intros Hs Hb Hne Hex Hcase. unfold CSRFMiddleware at 1. rewrite Hex. cbv zeta.
  destruct (mint_ok r (session_value r) w b Hb Hne) as (token & w1 & Hm & Ht & Hv).
  destruct (is_safe_method r.(cq_method)) eqn:Hsafe.
  - destruct (needsCSRFRebind r (session_value r)) eqn:Hn.
    + eexists _, _, w1. split; [by erewrite bind_run by exact Hm|]. by eapply mutation_passes.
    + exists Next, None, w. split; [done|]. unfold needsCSRFRebind in Hn.
      destruct r.(cq_csrf) as [old|] eqn:Hc; [|done].
      rewrite bool_decide_eq_false_2 in Hn by done. simpl in Hn. apply negb_false_iff in Hn.
      apply isBoundToSession_spec in Hn as Hbf; [|done].
      apply (mutation_passes _ _ _ old); [done| |].
      * intros ->. destruct Hbf as (n & He & _). apply (f_equal to_bytes) in He.
        rewrite !to_bytes_app in He. apply (f_equal length) in He. rewrite !length_app in He. simpl in He. lia.
      * apply verify_spec. split; [done|]. by rewrite bool_decide_eq_false_2.
  - destruct Hcase as [|(t & Hc & Hb' & Hh)]; [done|]. rewrite Hc, bool_decide_eq_false_2 by done.
    assert (verifyCSRFToken t r.(cq_header) (session_value r) = false) as ->.
    { apply not_true_is_false. intros [_ Hv']%verify_spec. rewrite bool_decide_eq_false_2 in Hv' by done.
      apply isBoundToSession_spec in Hv'; [congruence|done]. }
    rewrite Hb', bool_decide_eq_false_2 by done. simpl.
    eexists _, _, w1. split; [by erewrite bind_run by exact Hm|]. by eapply mutation_passes.
Qed.

(** Without a session, a browser that still holds a token
    bound to an ended session is refused every mutation that is not exempt, and
    neither that nor any safe request gives it another token. *)
Theorem csrf_stale_token excludePaths r t w :
  session_value r = "" -> r.(cq_csrf) = Some t -> isSessionBoundToken t = true ->
  csrf_exempt excludePaths r = false ->
  CSRFMiddleware excludePaths r w
  = (Ok (if is_safe_method r.(cq_method) then Next else Forbidden, None), w).
Proof.
  intros Hs Hc Ht Hex. unfold CSRFMiddleware. rewrite Hex, Hs. cbv zeta. unfold needsCSRFRebind.
  rewrite Hc. simpl. destruct (is_safe_method _); [done|].
  destruct (bool_decide _); [done|].
  assert (verifyCSRFToken t r.(cq_header) "" = false) as ->; [|done].
  apply not_true_is_false. intros [_ Hv]%verify_spec. simpl in Hv. congruence.
Qed.
End csrf.

Definition demo_csrf (session csrf : option string) (header method : string) : CsrfRequest :=
  MkCsrfRequest "/api/v1/events" method "" session None csrf header true false "".
Definition demo_token (s : string) : string :=
  "ab" +:+ "." +:+ computeCSRFHMAC (E:=demo_env) "k" "ab" s.

Lemma csrf_guards_witness :
  bound_form (E:=demo_env) "k" (demo_token "s1") "s1".
Proof.
  apply (csrf_guards (E:=demo_env) "k" ["/public"] (demo_csrf (Some "s1") (Some (demo_token "s1")) (demo_token "s1") "POST")
    demo_world None demo_world); [vm_compute; reflexivity..|discriminate].
Defined.
Lemma csrf_token_one_session_witness : "s1" = "s1".
Proof.
  apply (csrf_token_one_session (E:=demo_env) "k" (demo_token "s1") "s1" "s1");
    [discriminate|discriminate|vm_compute; reflexivity|vm_compute; reflexivity|reflexivity].
Defined.
Lemma csrf_recovers_witness :
  exists v c w1, CSRFMiddleware (E:=demo_env) "k" [] (demo_csrf (Some "s1") (Some "plain") "" "GET") demo_world
    = (Ok (v, c), w1).
Proof.
  destruct (csrf_recovers (E:=demo_env) "k" [] (demo_csrf (Some "s1") (Some "plain") "" "GET") demo_world
    (of_bytes (replicate 32 (byte_of 0))) demo_world) as (v & c & w1 & H & _);
    [discriminate|vm_compute; reflexivity|discriminate|reflexivity|left; reflexivity|].
  exists v, c, w1. exact H.
Defined.
Lemma csrf_stale_token_witness :
  CSRFMiddleware (E:=demo_env) "k" [] (demo_csrf None (Some (demo_token "s1")) (demo_token "s1") "POST") demo_world
  = (Ok (Forbidden, None), demo_world).
Proof.
  apply (csrf_stale_token (E:=demo_env) "k" [] (demo_csrf None (Some (demo_token "s1")) (demo_token "s1") "POST")
    (demo_token "s1") demo_world); vm_compute; reflexivity.
Defined.
