(* ===== verification/TrustedProxy.v ===== *)
(** * Forwarded client addresses and the other middleware (internal/security:
    trustedproxy.go, sanitize.go, honeypot.go, bodylimit.go, headers.go)

    Which address a request is taken to come from, and what becomes of its body and
    of the response's headers.  The address types and parsers of package net, JSON,
    the sanitizer's HTML policy and form parsing are parameters. *)

From S2P Require Import Prelude.
From S2P Require Import GoStr.
From S2P Require Import Schema.
From S2P Require Import Eff.
From S2P Require Import Http.
From S2P Require Import Csrf.

Local Open Scope Z_scope.

(** Package net: [ParseIP], [IP.String], [IP.To4] is not nil, [IPNet.Contains],
    an [IPNet] of an address with [CIDRMask(bits, bits)], the network of [ParseCIDR],
    [JoinHostPort]. *)
Class NetEnv := {
  IP : Type;
  IPNet : Type;
  parse_ip : string -> option IP;
  ip_string : IP -> string;
  net_contains : IPNet -> IP -> bool;
  is_ip4 : IP -> bool;
  host_net : IP -> Z -> IPNet;
  parse_cidr : string -> option IPNet;
  join_host_port : string -> string -> string }.

(** [http.Header] by canonical name. *)
Definition Header : Type := gmap string (list string).
(** [Header.Get]: the first value or the empty string. *)
Definition header_get (h : Header) (name : string) : string :=
  match h !! name with Some (v :: _) => v | _ => "" end.

Record ProxyRequest := MkProxyRequest {
  pq_remoteAddr : string; pq_header : Header; pq_forwardedTrusted : bool }.

Definition forwarded_names : list string :=
  ["CF-Connecting-IP"; "Forwarded"; "X-Forwarded-For"; "X-Forwarded-Host"; "X-Forwarded-Proto"; "X-Real-IP"].

Definition stripForwardedHeaders (header : Header) : Header :=
  fold_left (fun h name => delete name h) forwarded_names header.

Section proxy.
Context `{NetEnv, HttpEnv}.

Definition trusted_network (entry0 : string) : option IPNet :=
  let entry := trim_space entry0 in
  if bool_decide (entry = "") then None
  else match parse_ip entry with
       | Some ip => Some (host_net ip (if is_ip4 ip then 32 else 128))
       | None => parse_cidr entry
       end.
Definition trustedNetworks (entries : list string) : list IPNet := omap trusted_network entries.

(** [strings.Trim(s, "[]")] *)
Definition trim_brackets (s : string) : string :=
  let cut := ["["%char; "]"%char] in trim_right_set (trim_left_set s cut) cut.
Definition remoteIPAndPort (remoteAddr : string) : option IP * string :=
  match split_host_port remoteAddr with
  | None => (parse_ip (trim_brackets remoteAddr), "")
  | Some (host, port) => (parse_ip (trim_brackets host), port)
  end.

Definition ipInNetworks (ip : IP) (networks : list IPNet) : bool :=
  existsb (fun n => net_contains n ip) networks.

(** The loop that parses the parts: [None] when one is not an address. *)
Fixpoint parse_chain (parts : list string) : option (list IP) :=
  match parts with
  | [] => Some []
  | part :: rest =>
      match parse_ip (trim_space part) with
      | None => None
      | Some ip => cons ip <$> parse_chain rest
      end
  end.
(** The loop from the last address to the first. *)
Fixpoint last_untrusted (trusted : list IPNet) (rev_parsed : list IP) : option IP :=
  match rev_parsed with
  | [] => None
  | ip :: rest => if ipInNetworks ip trusted then last_untrusted trusted rest else Some ip
  end.

Definition forwarded_for (trusted : list IPNet) (parsed : list IP) : option IP :=
  match last_untrusted trusted (reverse parsed) with
  | Some ip => Some ip
  | None => head parsed
  end.

Definition forwardedClientIP (header : Header) (trusted : list IPNet) : option IP :=
  let real_ip := parse_ip (trim_space (header_get header "X-Real-IP")) in
  match parse_ip (trim_space (header_get header "CF-Connecting-IP")) with
  | Some ip => Some ip
  | None =>
      let raw := header_get header "X-Forwarded-For" in
      if bool_decide (raw = "") then real_ip
      else match parse_chain (split raw ","%char) with
           | None => None
           | Some parsed =>
               match forwarded_for trusted parsed with
               | Some ip => Some ip
               | None => real_ip
               end
           end
  end.

Definition TrustedProxyMiddleware (entries : list string) (r : ProxyRequest) : ProxyRequest :=
  let networks := trustedNetworks entries in
  let '(peerIP, peerPort) := remoteIPAndPort r.(pq_remoteAddr) in
  let untrusted :=
    MkProxyRequest r.(pq_remoteAddr) (stripForwardedHeaders r.(pq_header)) r.(pq_forwardedTrusted) in
  match peerIP with
  | None => untrusted
  | Some peer =>
      if negb (ipInNetworks peer networks) then untrusted
      else
        match forwardedClientIP r.(pq_header) networks with
        | None => MkProxyRequest r.(pq_remoteAddr) r.(pq_header) true
        | Some clientIP =>
            MkProxyRequest
              (join_host_port (ip_string clientIP) (if bool_decide (peerPort = "") then "0" else peerPort))
              r.(pq_header) true
        end
  end.

(** ** Lemmas *)

Lemma strip_lookup header name : name ∈ forwarded_names -> stripForwardedHeaders header !! name = None.
Proof.
  unfold stripForwardedHeaders, forwarded_names, Header in *. intros Hn. simpl.
  repeat (apply elem_of_cons in Hn as [->|Hn];
          [by repeat first [rewrite lookup_delete_eq | rewrite lookup_delete_ne by done]|]).
  by apply elem_of_nil in Hn.
Qed.
Lemma strip_other header name : name ∉ forwarded_names -> stripForwardedHeaders header !! name = header !! name.
Proof.
  unfold stripForwardedHeaders, forwarded_names, Header in *. rewrite !not_elem_of_cons. intros Hn. simpl.
  rewrite !lookup_delete_ne by naive_solver. done.
Qed.

Lemma last_untrusted_app trusted l ip k :
  Forall (fun x => ipInNetworks x trusted = true) l -> ipInNetworks ip trusted = false ->
  last_untrusted trusted (l ++ ip :: k) = Some ip.
Proof. intros Hl Hip. induction Hl as [|x l Hx _ IH]; simpl; [by rewrite Hip|by rewrite Hx]. Qed.

Lemma parse_chain_app l k :
  parse_chain (l ++ k) = a ← parse_chain l; b ← parse_chain k; Some (a ++ b).
Proof.
  induction l as [|x l IH]; simpl; [by destruct (parse_chain k)|].
  destruct (parse_ip (trim_space x)); simpl; [|done]. rewrite IH.
  destruct (parse_chain l); simpl; [|done]. by destruct (parse_chain k).
Qed.

(** ** Properties *)

(** A request whose peer is in no configured network keeps its
    peer address, gets no trust, and loses every forwarded header, whatever it
    sent in them; its other headers stay. *)
Theorem untrusted_peer entries r :
  (forall ip, (remoteIPAndPort r.(pq_remoteAddr)).1 = Some ip ->
     ipInNetworks ip (trustedNetworks entries) = false) ->
  let r' := TrustedProxyMiddleware entries r in
  r'.(pq_remoteAddr) = r.(pq_remoteAddr) /\ r'.(pq_forwardedTrusted) = r.(pq_forwardedTrusted) /\
  (forall name, name ∈ forwarded_names -> header_get r'.(pq_header) name = "") /\
  (forall name, name ∉ forwarded_names -> header_get r'.(pq_header) name = header_get r.(pq_header) name).
Proof.
  intros Hp r'.
  assert (r' = MkProxyRequest r.(pq_remoteAddr) (stripForwardedHeaders r.(pq_header)) r.(pq_forwardedTrusted)) as ->.
  { unfold r', TrustedProxyMiddleware. destruct (remoteIPAndPort _) as [[ip|] port]; [|done].
    by rewrite (Hp ip eq_refl). }
  simpl. split_and!; [done|done| |]; intros name Hn; unfold header_get.
  - by rewrite strip_lookup.
  - by rewrite strip_other.
Qed.

(** Behind trusted proxies, the client address is the last one
    of the X-Forwarded-For chain that is not a trusted proxy: the address that the
    first trusted proxy saw, whatever addresses the client itself put in front. *)
Theorem forwarded_chain entries r peer port spoofed client proxies parts :
  let networks := trustedNetworks entries in
  remoteIPAndPort r.(pq_remoteAddr) = (Some peer, port) -> ipInNetworks peer networks = true ->
  parse_ip (trim_space (header_get r.(pq_header) "CF-Connecting-IP")) = None ->
  header_get r.(pq_header) "X-Forwarded-For" <> "" ->
  split (header_get r.(pq_header) "X-Forwarded-For") ","%char = spoofed ++ parts ->
  is_Some (parse_chain spoofed) -> parse_chain parts = Some (client :: proxies) ->
  ipInNetworks client networks = false -> Forall (fun p => ipInNetworks p networks = true) proxies ->
  TrustedProxyMiddleware entries r
  = MkProxyRequest (join_host_port (ip_string client) (if bool_decide (port = "") then "0" else port))
      r.(pq_header) true.
Proof.
  intros networks Hr Hpeer Hcf Hraw Hsplit [front Hfront] Hparts Hclient Hproxies.
  unfold TrustedProxyMiddleware. rewrite Hr. fold networks. rewrite Hpeer. simpl.
  assert (forwardedClientIP r.(pq_header) networks = Some client) as ->; [|done].
  unfold forwardedClientIP. rewrite Hcf. cbv zeta. rewrite bool_decide_eq_false_2 by done.
  rewrite Hsplit, parse_chain_app, Hfront, Hparts. simpl.
  unfold forwarded_for. rewrite reverse_app, reverse_cons, <- app_assoc. simpl.
  rewrite last_untrusted_app; [done| |done]. apply Forall_forall. intros x Hx.
  rewrite elem_of_reverse in Hx. rewrite Forall_forall in Hproxies. auto.
Qed.
End proxy.

(** ** An example: addresses are their own text *)

#[export] Instance demo_net : NetEnv := {|
  IP := string; IPNet := string; parse_ip s := if bool_decide (s = "") then None else Some s;
  ip_string s := s; net_contains n ip := bool_decide (n = ip); is_ip4 _ := true; host_net ip _ := ip;
  parse_cidr _ := None; join_host_port h p := h +:+ ":" +:+ p |}.
#[export] Instance demo_split : HttpEnv := {|
  split_host_port s := match split s ":"%char with [h; p] => Some (h, p) | _ => None end |}.

Definition demo_forwarded (peer chain : string) : ProxyRequest :=
  MkProxyRequest (peer +:+ ":80") {["X-Forwarded-For" := [chain]]} false.

Lemma untrusted_peer_witness :
  (TrustedProxyMiddleware ["proxy"] (demo_forwarded "evil" "victim")).(pq_remoteAddr) = "evil:80".
Proof.
  apply (@untrusted_peer demo_net demo_split ["proxy"] (demo_forwarded "evil" "victim")).
  intros ip. vm_compute. intros [= <-]. reflexivity.
Defined.
Lemma forwarded_chain_witness :
  (TrustedProxyMiddleware ["proxy"; "edge"] (demo_forwarded "proxy" "victim, client, edge")).(pq_remoteAddr)
  = "client:80".
Proof.
  rewrite (@forwarded_chain demo_net demo_split ["proxy"; "edge"] (demo_forwarded "proxy" "victim, client, edge")
    "proxy" "80" ["victim"] "client" ["edge"] [" client"; " edge"]); try (vm_compute; reflexivity).
  - discriminate.
  - exists ["victim"]. vm_compute. reflexivity.
  - repeat constructor.
Defined.

(** ** The middleware on bodies (sanitize.go, honeypot.go, bodylimit.go, headers.go) *)

(** A decoded JSON value; a number by its text. *)
Inductive Json :=
| JNull | JBool (b : bool) | JNumber (text : string) | JString (s : string)
| JArray (l : list Json) | JObject (fields : list (string * Json)).
Fixpoint json_get (name : string) (fields : list (string * Json)) : option Json :=
  match fields with
  | [] => None
  | (k, v) :: rest => if bool_decide (k = name) then Some v else json_get name rest
  end.

(** The body of a request: none, a text, or one that fails when it is read. *)
Inductive Body := NoBody | Text (s : string) | Broken.
Record BodyRequest := MkBodyRequest {
  bq_method : string; bq_contentType : string; bq_body : Body }.

Class BodyEnv := {
  json_unmarshal : string -> option Json;
  json_marshal : Json -> option string;
  (** [strictPolicy.Sanitize] and [html.UnescapeString] *)
  strict_policy : string -> string;
  html_unescape : string -> string;
  (** the field [website] of a form: [None] when [ParseForm] fails *)
  form_website : BodyRequest -> option string }.

Section middleware.
Context `{BodyEnv}.

Definition is_json (r : BodyRequest) : bool := has_prefix r.(bq_contentType) "application/json".
Definition SanitizeStrict (input : string) : string := html_unescape (strict_policy input).
Fixpoint sanitizeValue (v : Json) : Json :=
  match v with
  | JString s => JString (SanitizeStrict s)
  | JObject fields => JObject (map (fun kv => (kv.1, sanitizeValue kv.2)) fields)
  | JArray l => JArray (map sanitizeValue l)
  | _ => v
  end.
Definition sanitize_text (s : string) : string :=
  match json_unmarshal s with
  | None => s
  | Some data => default s (json_marshal (sanitizeValue data))
  end.
(** The request as the next handler gets it. *)
Definition SanitizeMiddleware (r : BodyRequest) : BodyRequest :=
  if negb (is_json r) then r else
  match r.(bq_body) with
  | NoBody | Broken => r
  | Text s =>
      MkBodyRequest r.(bq_method) r.(bq_contentType)
        (Text (if bool_decide (s = "") then s else sanitize_text s))
  end.

Definition is_email_char (c : ascii) : bool :=
  let n := byte_val c in
  is_digit c || ((65 <=? n) && (n <=? 90)) || ((97 <=? n) && (n <=? 122)).
Definition is_local_char (c : ascii) : bool :=
  is_email_char c || bool_decide (c ∈ ["."; "_"; "%"; "+"; "-"]%char).
Definition is_domain_char (c : ascii) : bool := is_email_char c || bool_decide (c ∈ ["."; "-"]%char).
Definition is_letter (c : ascii) : bool := is_email_char c && negb (is_digit c).
(** The part behind the last dot, and what is before it. *)
Definition email_domain (d : bytes) : bool :=
  match List.rev (split_bytes "."%char d) with
  | tld :: ((_ :: _) as before) =>
      (2 <=? Z.of_nat (length tld)) && forallb is_letter tld
      && (Z.of_nat (length tld) + 1 <? Z.of_nat (length d))
      && forallb (forallb is_domain_char) before
  | _ => false
  end.
Definition ValidateEmail (email : string) : bool :=
  negb (254 <? len email) &&
  match split_bytes "@"%char (to_bytes email) with
  | [local; domain] => negb (bool_decide (local = [])) && forallb is_local_char local && email_domain domain
  | _ => false
  end.
Definition ValidatePhone (phone : string) : bool :=
  match to_bytes phone with
  | c :: d :: rest =>
      bool_decide (c = "+"%char) && is_digit d && negb (bool_decide (d = "0"%char))
      && forallb is_digit rest && (1 <=? Z.of_nat (length rest)) && (Z.of_nat (length rest) <=? 14)
  | _ => false
  end.

(** Whether a bot filled the hidden field. *)
Definition ValidateHoneypot (r : BodyRequest) : bool :=
  if is_json r then
    match r.(bq_body) with
    | NoBody | Broken => false
    | Text s =>
        match json_unmarshal s with
        | Some (JObject fields) =>
            match json_get "website" fields with
            | Some (JString v) => negb (bool_decide (v = ""))
            | _ => false
            end
        | _ => false
        end
    end
  else match form_website r with None => false | Some v => negb (bool_decide (v = "")) end.
(** [true]: the next handler runs; [false]: the made-up success. *)
Definition HoneypotMiddleware (r : BodyRequest) : bool :=
  negb (one_of r.(bq_method) ["POST"; "PUT"; "PATCH"] && ValidateHoneypot r).

Definition BodyLimitMiddleware (maxBytes : Z) (r : BodyRequest) : BodyRequest :=
  if has_prefix r.(bq_contentType) "multipart/" then r else
  match r.(bq_body) with
  | Text s => if maxBytes <? len s then MkBodyRequest r.(bq_method) r.(bq_contentType) Broken else r
  | _ => r
  end.

(** The headers every response gets. *)
Definition SecurityHeadersMiddleware (r : CsrfRequest) : list (string * string) :=
  [("X-Content-Type-Options", "nosniff"); ("X-Frame-Options", "DENY"); ("Referrer-Policy", "no-referrer");
   ("Cross-Origin-Opener-Policy", "same-origin")]
  ++ (if isSecureRequest r then [("Strict-Transport-Security", "max-age=31536000; includeSubDomains")] else []).

(** What a route under /api/v1 reads: the limit of 1 MiB, then the sanitizer. *)
Definition api_body (r : BodyRequest) : Body := (SanitizeMiddleware (BodyLimitMiddleware (2 ^ 20) r)).(bq_body).

(** The texts of a value, in order, and the rest of it. *)
Fixpoint texts (v : Json) : list string :=
  match v with
  | JString s => [s]
  | JArray l => flat_map texts l
  | JObject fields => flat_map (fun kv => texts kv.2) fields
  | _ => []
  end.
Fixpoint blank (v : Json) : Json :=
  match v with
  | JString _ => JString ""
  | JArray l => JArray (map blank l)
  | JObject fields => JObject (map (fun kv => (kv.1, blank kv.2)) fields)
  | _ => v
  end.

Fixpoint json_ind' (P : Json -> Prop) (Hnull : P JNull) (Hbool : forall b, P (JBool b))
    (Hnumber : forall n, P (JNumber n)) (Hstring : forall s, P (JString s))
    (Harray : forall l, Forall P l -> P (JArray l))
    (Hobject : forall fields, Forall (fun kv => P kv.2) fields -> P (JObject fields)) (v : Json) : P v :=
  let rec := json_ind' P Hnull Hbool Hnumber Hstring Harray Hobject in
  match v with
  | JNull => Hnull | JBool b => Hbool b | JNumber n => Hnumber n | JString s => Hstring s
  | JArray l =>
      Harray l ((fix go l : Forall P l :=
        match l with [] => Forall_nil_2 _ | x :: t => Forall_cons_2 _ x t (rec x) (go t) end) l)
  | JObject fields =>
      Hobject fields ((fix go l : Forall (fun kv => P kv.2) l :=
        match l with [] => Forall_nil_2 _ | x :: t => Forall_cons_2 _ x t (rec x.2) (go t) end) fields)
  end.

(** The sanitizer changes the texts of a value and nothing else: keys, numbers and the
    order of everything stay. *)
Lemma sanitize_shape v :
  texts (sanitizeValue v) = map SanitizeStrict (texts v) /\ blank (sanitizeValue v) = blank v.
Proof.
  induction v as [| | | |l IH|fields IH] using json_ind'; try done; simpl; rewrite ?map_map; split.
  - induction IH as [|x t [Hx _] _ IH]; simpl; [done|]. by rewrite Hx, IH, map_app.
  - f_equal. apply map_ext_Forall. eapply Forall_impl; [exact IH|]. intros x [_ Hx]. simpl. by rewrite Hx.
  - induction IH as [|x t [Hx _] _ IH]; simpl; [done|]. by rewrite Hx, IH, map_app.
  - f_equal. apply map_ext_Forall. eapply Forall_impl; [exact IH|]. intros x [_ Hx]. simpl. by rewrite Hx.
Qed.

(** What a route reads of a JSON request of at most 1 MiB: the text of a value that has
    the keys, numbers and structure of the one sent, with every text sanitized. *)
Theorem api_body_sanitized r s v t :
  is_json r = true -> r.(bq_body) = Text s -> s <> "" -> len s <= 2 ^ 20 ->
  json_unmarshal s = Some v -> json_marshal (sanitizeValue v) = Some t ->
  api_body r = Text t /\
  texts (sanitizeValue v) = map SanitizeStrict (texts v) /\ blank (sanitizeValue v) = blank v.
Proof.
  intros Hj Hb Hs Hlen Hv Ht. split; [|apply sanitize_shape].
  assert (BodyLimitMiddleware (2 ^ 20) r = r) as Hl.
  { unfold BodyLimitMiddleware. rewrite Hb. destruct (Z.ltb_spec (2 ^ 20) (len s)); [lia|]. by destruct has_prefix. }
  unfold api_body, SanitizeMiddleware. rewrite Hl, Hj, Hb. simpl.
  rewrite bool_decide_eq_false_2 by done. unfold sanitize_text. by rewrite Hv, Ht.
Qed.
(** Without the content type nothing is sanitized; the handlers decode the body all the
    same ([DecodeJSON] does not look at the content type). *)
Lemma unnamed_json_not_sanitized r s :
  is_json r = false -> r.(bq_body) = Text s -> len s <= 2 ^ 20 -> api_body r = Text s.
Proof.
  intros Hj Hb Hlen. assert (BodyLimitMiddleware (2 ^ 20) r = r) as Hl.
  { unfold BodyLimitMiddleware. rewrite Hb. destruct (Z.ltb_spec (2 ^ 20) (len s)); [lia|]. by destruct has_prefix. }
  unfold api_body, SanitizeMiddleware. by rewrite Hl, Hj.
Qed.
End middleware.

Example emails : map ValidateEmail ["a@b.co"; "a@b"; "@b.co"; "a@.co"; "a@b.c"; "a b@c.de"; "a@b@c.de"; "a.b+c@d-e.f.org"]
  = [true; false; false; false; false; false; false; true].
Proof. vm_compute. reflexivity. Qed.
Example phones : map ValidatePhone ["+14155552671"; "+1"; "+04155"; "14155552671"; "+1234567890123456"]
  = [true; false; false; false; false].
Proof. vm_compute. reflexivity. Qed.
