(* ===== verification/Config.v ===== *)
(** * Configuration from the environment (internal/config/config.go)

    [Load] reads and checks the environment variables; [ApplyInstanceOverrides] lays
    the stored settings over them.  The environment after [godotenv.Load], the files
    [os.ReadFile] reads and the answers of [os.Stat] are a parameter ([Host]);
    [time.ParseDuration] is modelled with its overflow checks and its floating-point
    fractions. *)

From S2P Require Import Prelude.
From S2P Require Import GoStr.
From S2P Require Import GoTime.
From S2P Require Import Schema.
From S2P Require Import Eff.
From S2P Require Import Demo.
From S2P Require Import TrustedProxy.
From Stdlib Require Import SpecFloat.

Local Open Scope Z_scope.

(** ** time.ParseDuration *)

(** [leadingInt]: the leading digits of [s] as a 64-bit number, or an overflow. *)
Fixpoint leadingInt (x : Z) (s : bytes) : option (Z * bytes) :=
  match s with
  | c :: t =>
      if is_digit c then
        if 2 ^ 63 / 10 <? x then None else
        let x := x * 10 + digit_val c in
        if 2 ^ 63 <? x then None else leadingInt x t
      else Some (x, s)
  | [] => Some (x, [])
  end.

(** [leadingFraction]: the digits as a number and the power of ten to divide it by;
    digits that do not fit are skipped. *)
Fixpoint leadingFraction (x scale : Z) (overflow : bool) (s : bytes) : Z * Z * bytes :=
  match s with
  | c :: t =>
      if is_digit c then
        if overflow then leadingFraction x scale true t
        else if (2 ^ 63 - 1) / 10 <? x then leadingFraction x scale true t
        else let y := x * 10 + digit_val c in
             if 2 ^ 63 <? y then leadingFraction x scale true t
             else leadingFraction y (scale * 10) false t
      else (x, scale, s)
  | [] => (x, scale, [])
  end.

(** [unitMap] *)
Definition unitMap : list (string * Z) :=
  [("ns", 1); ("us", 1000); ("µs", 1000); ("μs", 1000); ("ms", 1000000); ("s", ns_per_sec);
   ("m", 60 * ns_per_sec); ("h", 3600 * ns_per_sec)].
Definition unit_of (u : bytes) : option Z :=
  snd ∘ snd <$> list_find (fun p => p.1 = of_bytes u) unitMap.

Definition is_dot (c : ascii) : bool := bool_decide (c = "."%char).
(** Up to the next dot or digit. *)
Fixpoint split_unit (s : bytes) : bytes * bytes :=
  match s with
  | c :: t => if is_dot c || is_digit c then ([], s)
              else let (u, r) := split_unit t in (c :: u, r)
  | [] => ([], [])
  end.

Definition float64 (n : Z) : spec_float := binary_normalize 53 1024 n 0 false.
(** [uint64(x)] of a float that is not negative. *)
Definition truncate (x : spec_float) : Z :=
  match x with S754_finite false m e => Z.shiftl (Z.pos m) e | _ => 0 end.
(** [uint64(float64(f) * (float64(unit) / scale))] *)
Definition fraction (f scale unit : Z) : Z :=
  truncate (SFmul 53 1024 (float64 f) (SFdiv 53 1024 (float64 unit) (float64 scale))).

(** One number with its unit: its nanoseconds and the rest of the text. *)
Definition duration_part (s : bytes) : option (Z * bytes) :=
  match s with
  | [] => None
  | c :: _ =>
      if negb (is_dot c || is_digit c) then None else
      leadingInt 0 s ≫= fun '(v, s1) =>
      let pre := negb (length s1 =? length s)%nat in
      let '(f, scale, s2, post) :=
        match s1 with
        | d :: t => if is_dot d
                    then let '(f, scale, r) := leadingFraction 0 1 false t in
                         (f, scale, r, negb (length r =? length t)%nat)
                    else (0, 1, s1, false)
        | [] => (0, 1, s1, false)
        end in
      if negb pre && negb post then None else
      let (u, rest) := split_unit s2 in
      unit_of u ≫= fun unit =>
      if 2 ^ 63 / unit <? v then None else
      let v := v * unit in
      if 0 <? f then
        let v := v + fraction f scale unit in
        if 2 ^ 63 <? v then None else Some (v, rest)
      else Some (v, rest)
  end.

(** The sum is a [uint64]. *)
Fixpoint duration_loop (fuel : nat) (d : Z) (s : bytes) : option Z :=
  match s with
  | [] => Some d
  | _ :: _ =>
      match fuel with
      | O => None
      | S fuel =>
          duration_part s ≫= fun '(v, rest) =>
          let d := (d + v) mod 2 ^ 64 in
          if 2 ^ 63 <? d then None else duration_loop fuel d rest
      end
  end.

Definition ParseDuration (text : string) : option Z :=
  let s := to_bytes text in
  let '(neg, s) :=
    match s with
    | c :: t => if bool_decide (c = "-"%char) then (true, t)
                else if bool_decide (c = "+"%char) then (false, t) else (false, s)
    | [] => (false, [])
    end in
  if bool_decide (s = ["0"%char]) then Some 0 else
  if bool_decide (s = []) then None else
  duration_loop (length s) 0 s ≫= fun d =>
  if neg : bool then Some (- d) else if 2 ^ 63 - 1 <? d then None else Some d.

Example durations :
  ParseDuration <$> ["15m"; "168h"; "1h30m"; "1.5h"; "-2us"; "0"; "+5s"; ".5s"; "1.s";
                     "9223372036854775807ns"; "-9223372036854775808ns"; "2562047h47m16.854775807s";
                     "9223372036854775808ns"; ""; "3"; "h"; "."; "1 h"; "1d"]
  = [Some (900 * ns_per_sec); Some (604800 * ns_per_sec); Some (5400 * ns_per_sec);
     Some (5400 * ns_per_sec); Some (-2000); Some 0; Some (5 * ns_per_sec);
     Some (500000000); Some ns_per_sec; Some (2 ^ 63 - 1); Some (- 2 ^ 63); Some (2 ^ 63 - 1);
     None; None; None; None; None; None; None].
Proof. vm_compute. reflexivity. Qed.

(** ** The process *)

(** The environment with what .env adds; the contents of a readable file; whether a
    path exists, [None] for another error of [os.Stat]. *)
Record Host := MkHost {
  h_env : gmap string string;
  h_read : string -> option string;
  h_stat : string -> option bool }.

Definition DefaultSQLiteDSN : string := "/data/owl-invites.db".
Definition LegacyDefaultSQLiteDSN : string := "/data/openrsvp.db".
Definition legacyInstanceName : string := "OpenRSVP".

Record Config := MkConfig {
  Port : string; cfg_Env : string;
  DBDriver : string; DBDSN : string; DBDSNWarning : string;
  MagicLinkExpiry : Z; SessionExpiry : Z; AccountInviteExpiry : Z;
  InvitationSessionExpiry : Z; InvitationRecoveryExpiry : Z;
  InvitationSecretKey : string; BaseURL : string;
  NotificationEmailProvider : string; NotificationSMSProvider : string;
  NotificationSMSSenderName : string;
  SMTPHost : string; SMTPPort : Z; SMTPUsername : string; SMTPPassword : string; SMTPFrom : string;
  SendGridAPIKey : string; SendGridFrom : string;
  SESRegion : string; SESUsername : string; SESPassword : string; SESFrom : string;
  TwilioAccountSID : string; TwilioAuthToken : string; TwilioFromNumber : string;
  VonageAPIKey : string; VonageAPISecret : string; VonageFrom : string;
  SNSRegion : string; SNSAccessKeyID : string; SNSSecretAccessKey : string;
  FeedbackGitHubToken : string; FeedbackGitHubRepo : string; FeedbackEmail : string;
  UploadsDir : string; DefaultRetentionDays : Z; TrustedProxies : list string;
  MaxCoHostsPerEvent : Z; EmailOpenTrackingEnabled : bool; EmailClickTrackingEnabled : bool;
  BootstrapToken : string;
  InstanceName : string; DefaultTimezone : string; AllowSignups : bool; SupportEmail : string }.

Section config.
Context `{E : Env, N : NetEnv} (h : Host).

(** [os.LookupEnv] *)
Definition lookupEnv (key : string) : option string := h.(h_env) !! key.
Definition getEnv (key fallback : string) : string :=
  match lookupEnv key with
  | Some value => if bool_decide (value = "") then fallback else value
  | None => fallback
  end.

Definition regularPathExists (path : string) : res bool :=
  match h.(h_stat) path with Some b => Ok b | None => Err (EInternal "stat") end.

(** The data source and the warning. *)
Definition ResolveSQLiteDefaultDSN (canonicalPath legacyPath : string) : res (string * string) :=
  canonicalExists <-r regularPathExists canonicalPath ;;
  legacyExists <-r regularPathExists legacyPath ;;
  if canonicalExists && legacyExists then
    Err (EText ("both SQLite defaults exist (" +:+ canonicalPath +:+ " and " +:+ legacyPath
                +:+ "); set DB_DSN explicitly to choose one"))
  else if canonicalExists || negb legacyExists then Ok (canonicalPath, "")
  else Ok (legacyPath, "using legacy SQLite default " +:+ legacyPath +:+ " because " +:+ canonicalPath
             +:+ " does not exist; set DB_DSN explicitly or perform the documented offline path migration").

Definition resolveDatabaseDSN (driver : string) : res (string * string) :=
  match lookupEnv "DB_DSN" with
  | Some explicit =>
      if bool_decide (explicit = "") then Err (EText "DB_DSN is explicitly set but empty")
      else Ok (explicit, "")
  | None =>
      if bool_decide (driver = "postgres")
      then Err (EText "DB_DSN is required when DB_DRIVER=postgres")
      else ResolveSQLiteDefaultDSN DefaultSQLiteDSN LegacyDefaultSQLiteDSN
  end.

(** [strings.TrimSuffix] *)
Definition has_suffix (s p : string) : bool :=
  bytes_prefix (reverse (to_bytes p)) (reverse (to_bytes s)).
Definition trim_suffix (s p : string) : string :=
  if has_suffix s p then of_bytes (take (String.length s - String.length p) (to_bytes s)) else s.

Definition carriage_return : string := of_bytes [byte_of 13].
Definition trimOneTrailingLineEnding (value : string) : string :=
  let crlf := carriage_return +:+ nl in
  if has_suffix value crlf then trim_suffix value crlf else trim_suffix value nl.

Definition placeholder_markers : list string :=
  ["change-me"; "changeme"; "replace-me"; "replace_me"; "replace-this"; "replace_this";
   "your-secret"; "your_secret"; "example"; "placeholder"; "development-only"; "test-only"].
Definition isObviousSecretPlaceholder (value : string) : bool :=
  let normalized := to_lower (trim_space value) in
  existsb (contains normalized) placeholder_markers.

Definition secret_missing : err :=
  EText "OWL_INVITES_SECRET_KEY is required and must contain at least 32 bytes".
Definition check_secret (environment : string) (set : bool) (secret : string) : res string :=
  if negb set || (len secret <? 32) then Err secret_missing
  else if bool_decide (environment = "production") && isObviousSecretPlaceholder secret
  then Err (EText "OWL_INVITES_SECRET_KEY must not use a placeholder value in production")
  else Ok secret.
Definition loadInvitationSecret (environment : string) : res string :=
  match lookupEnv "OWL_INVITES_SECRET_KEY", lookupEnv "OWL_INVITES_SECRET_KEY_FILE" with
  | Some _, Some _ =>
      Err (EText "exactly one of OWL_INVITES_SECRET_KEY and OWL_INVITES_SECRET_KEY_FILE may be set")
  | None, Some filePath =>
      if bool_decide (filePath = "")
      then Err (EText "OWL_INVITES_SECRET_KEY_FILE must name a readable file") else
      match h.(h_read) filePath with
      | None => Err (EInternal "read OWL_INVITES_SECRET_KEY_FILE")
      | Some contents => check_secret environment true (trimOneTrailingLineEnding contents)
      end
  | Some direct, None => check_secret environment true direct
  | None, None => check_secret environment false ""
  end.

(** [time.ParseDuration(getEnv(...))]; [check] is the test of the value. *)
Definition env_duration (key fallback : string) (check : Z -> bool) (e : err) (bad : err) : res Z :=
  match ParseDuration (getEnv key fallback) with
  | None => Err e
  | Some d => if check d then Ok d else Err bad
  end.
Definition invalid_duration (key : string) : err := EInternal ("invalid " +:+ key).
Definition not_positive (key : string) : err :=
  EText ("invalid " +:+ key +:+ ": must be a positive duration").
Definition positive (d : Z) : bool := 0 <? d.

Definition env_int (key fallback : string) : res Z :=
  match atoi (getEnv key fallback) with
  | Some n => Ok n
  | None => Err (EInternal ("invalid " +:+ key))
  end.

(** One entry of TRUSTED_PROXIES: none when it is blank. *)
Definition proxy_entry (entry0 : string) : res (option string) :=
  let entry := trim_space entry0 in
  if bool_decide (entry = "") then Ok None
  else if bool_decide (parse_ip entry = None) && bool_decide (parse_cidr entry = None)
  then Err (EText ("invalid TRUSTED_PROXIES entry " +:+ go_quote entry
                   +:+ ": must be an IP address or CIDR"))
  else Ok (Some entry).
Fixpoint proxy_entries (entries : list string) : res (list string) :=
  match entries with
  | [] => Ok []
  | entry :: rest =>
      o <-r proxy_entry entry ;;
      l <-r proxy_entries rest ;;
      Ok (match o with Some e => e :: l | None => l end)
  end.
Definition trusted_proxies : res (list string) :=
  let raw := getEnv "TRUSTED_PROXIES" "" in
  if bool_decide (raw = "") then Ok [] else proxy_entries (split raw ","%char).

Definition invalid_port (port : string) : err :=
  EText ("invalid PORT: " +:+ port +:+ " (must be an integer between 1 and 65535)").
Definition is_true (key fallback : string) : bool := bool_decide (getEnv key fallback = "true").

Definition Load : res Config :=
  let port := getEnv "PORT" "8080" in
  let env := getEnv "ENV" "development" in
  let dbDriver := getEnv "DB_DRIVER" "sqlite" in
  if negb (bool_decide (dbDriver = "sqlite")) && negb (bool_decide (dbDriver = "postgres"))
  then Err (EText ("unsupported DB_DRIVER: " +:+ dbDriver +:+ " (must be sqlite or postgres)")) else
  dsn <-r resolveDatabaseDSN dbDriver ;;
  magicLinkExpiry <-r env_duration "MAGIC_LINK_EXPIRY" "15m" (fun _ => true)
                        (invalid_duration "MAGIC_LINK_EXPIRY") (invalid_duration "MAGIC_LINK_EXPIRY") ;;
  sessionExpiry <-r env_duration "SESSION_EXPIRY" "168h" (fun _ => true)
                      (invalid_duration "SESSION_EXPIRY") (invalid_duration "SESSION_EXPIRY") ;;
  accountInviteExpiry <-r env_duration "OWL_INVITES_ACCOUNT_INVITE_EXPIRY" "72h" positive
                            (invalid_duration "OWL_INVITES_ACCOUNT_INVITE_EXPIRY")
                            (EText "invalid OWL_INVITES_ACCOUNT_INVITE_EXPIRY: must be greater than zero") ;;
  invitationSessionExpiry <-r env_duration "OWL_INVITES_INVITATION_SESSION_EXPIRY" "720h" positive
                                (not_positive "OWL_INVITES_INVITATION_SESSION_EXPIRY")
                                (not_positive "OWL_INVITES_INVITATION_SESSION_EXPIRY") ;;
  invitationRecoveryExpiry <-r env_duration "OWL_INVITES_INVITATION_RECOVERY_EXPIRY" "15m" positive
                                 (not_positive "OWL_INVITES_INVITATION_RECOVERY_EXPIRY")
                                 (not_positive "OWL_INVITES_INVITATION_RECOVERY_EXPIRY") ;;
  invitationSecretKey <-r loadInvitationSecret env ;;
  let baseURL := getEnv "BASE_URL" "http://localhost:8080" in
  smtpPort <-r env_int "SMTP_PORT" "587" ;;
  if negb (bool_decide (env = "development")) && negb (bool_decide (env = "production"))
  then Err (EText ("invalid ENV: " +:+ env +:+ " (must be development or production)")) else
  match atoi port with
  | None => Err (invalid_port port)
  | Some portInt =>
  if (portInt <? 1) || (65535 <? portInt) then Err (invalid_port port) else
  retentionDays <-r env_int "DEFAULT_RETENTION_DAYS" "30" ;;
  if retentionDays <=? 0
  then Err (EText ("invalid DEFAULT_RETENTION_DAYS: " +:+ itoa retentionDays +:+ " (must be greater than 0)")) else
  trustedProxies <-r trusted_proxies ;;
  maxCoHosts <-r env_int "MAX_COHOSTS_PER_EVENT" "10" ;;
  if maxCoHosts <? 1
  then Err (EText ("invalid MAX_COHOSTS_PER_EVENT: " +:+ itoa maxCoHosts +:+ " (must be at least 1)")) else
  Ok {| Port := port; cfg_Env := env;
        DBDriver := dbDriver; DBDSN := dsn.1; DBDSNWarning := dsn.2;
        MagicLinkExpiry := magicLinkExpiry; SessionExpiry := sessionExpiry;
        AccountInviteExpiry := accountInviteExpiry;
        InvitationSessionExpiry := invitationSessionExpiry;
        InvitationRecoveryExpiry := invitationRecoveryExpiry;
        InvitationSecretKey := invitationSecretKey; BaseURL := baseURL;
        NotificationEmailProvider := getEnv "NOTIFICATION_EMAIL_PROVIDER" "smtp";
        NotificationSMSProvider := getEnv "NOTIFICATION_SMS_PROVIDER" "";
        NotificationSMSSenderName := getEnv "NOTIFICATION_SMS_SENDER_NAME" "Owl Invites";
        SMTPHost := getEnv "SMTP_HOST" "localhost"; SMTPPort := smtpPort;
        SMTPUsername := getEnv "SMTP_USERNAME" ""; SMTPPassword := getEnv "SMTP_PASSWORD" "";
        SMTPFrom := getEnv "SMTP_FROM" "noreply@owl-invites.local";
        SendGridAPIKey := getEnv "SENDGRID_API_KEY" ""; SendGridFrom := getEnv "SENDGRID_FROM" "";
        SESRegion := getEnv "SES_REGION" ""; SESUsername := getEnv "SES_USERNAME" "";
        SESPassword := getEnv "SES_PASSWORD" ""; SESFrom := getEnv "SES_FROM" "";
        TwilioAccountSID := getEnv "TWILIO_ACCOUNT_SID" "";
        TwilioAuthToken := getEnv "TWILIO_AUTH_TOKEN" "";
        TwilioFromNumber := getEnv "TWILIO_FROM_NUMBER" "";
        VonageAPIKey := getEnv "VONAGE_API_KEY" ""; VonageAPISecret := getEnv "VONAGE_API_SECRET" "";
        VonageFrom := getEnv "VONAGE_FROM" "";
        SNSRegion := getEnv "SNS_SMS_REGION" ""; SNSAccessKeyID := getEnv "SNS_SMS_ACCESS_KEY_ID" "";
        SNSSecretAccessKey := getEnv "SNS_SMS_SECRET_ACCESS_KEY" "";
        FeedbackGitHubToken := getEnv "FEEDBACK_GITHUB_TOKEN" "";
        FeedbackGitHubRepo := getEnv "FEEDBACK_GITHUB_REPO" "";
        FeedbackEmail := getEnv "FEEDBACK_EMAIL" "";
        UploadsDir := getEnv "UPLOADS_DIR" "/data/uploads";
        DefaultRetentionDays := retentionDays; TrustedProxies := trustedProxies;
        MaxCoHostsPerEvent := maxCoHosts;
        EmailOpenTrackingEnabled := is_true "EMAIL_OPEN_TRACKING_ENABLED" "true";
        EmailClickTrackingEnabled := is_true "EMAIL_CLICK_TRACKING_ENABLED" "false";
        BootstrapToken := default "" (lookupEnv "OWL_INVITES_BOOTSTRAP_TOKEN");
        InstanceName := getEnv "INSTANCE_NAME" "Owl Invites";
        DefaultTimezone := getEnv "DEFAULT_TIMEZONE" "UTC";
        AllowSignups := is_true "ALLOW_SIGNUPS" "false";
        SupportEmail := getEnv "SUPPORT_EMAIL" "" |}
  end.
End config.

(** The stored settings over the environment's: instance name, time zone, sign-ups
    and support address. *)
Definition override (overrides : gmap string string) (key : string) : option string :=
  match overrides !! key with
  | Some v => if bool_decide (v = "") then None else Some v
  | None => None
  end.
Definition with_settings (name timezone support : string) (signups : bool) (c : Config) : Config :=
  {| Port := c.(Port); cfg_Env := c.(cfg_Env); DBDriver := c.(DBDriver); DBDSN := c.(DBDSN);
     DBDSNWarning := c.(DBDSNWarning); MagicLinkExpiry := c.(MagicLinkExpiry);
     SessionExpiry := c.(SessionExpiry); AccountInviteExpiry := c.(AccountInviteExpiry);
     InvitationSessionExpiry := c.(InvitationSessionExpiry);
     InvitationRecoveryExpiry := c.(InvitationRecoveryExpiry);
     InvitationSecretKey := c.(InvitationSecretKey); BaseURL := c.(BaseURL);
     NotificationEmailProvider := c.(NotificationEmailProvider);
     NotificationSMSProvider := c.(NotificationSMSProvider);
     NotificationSMSSenderName := c.(NotificationSMSSenderName);
     SMTPHost := c.(SMTPHost); SMTPPort := c.(SMTPPort); SMTPUsername := c.(SMTPUsername);
     SMTPPassword := c.(SMTPPassword); SMTPFrom := c.(SMTPFrom);
     SendGridAPIKey := c.(SendGridAPIKey); SendGridFrom := c.(SendGridFrom);
     SESRegion := c.(SESRegion); SESUsername := c.(SESUsername); SESPassword := c.(SESPassword);
     SESFrom := c.(SESFrom); TwilioAccountSID := c.(TwilioAccountSID);
     TwilioAuthToken := c.(TwilioAuthToken); TwilioFromNumber := c.(TwilioFromNumber);
     VonageAPIKey := c.(VonageAPIKey); VonageAPISecret := c.(VonageAPISecret);
     VonageFrom := c.(VonageFrom); SNSRegion := c.(SNSRegion);
     SNSAccessKeyID := c.(SNSAccessKeyID); SNSSecretAccessKey := c.(SNSSecretAccessKey);
     FeedbackGitHubToken := c.(FeedbackGitHubToken); FeedbackGitHubRepo := c.(FeedbackGitHubRepo);
     FeedbackEmail := c.(FeedbackEmail); UploadsDir := c.(UploadsDir);
     DefaultRetentionDays := c.(DefaultRetentionDays); TrustedProxies := c.(TrustedProxies);
     MaxCoHostsPerEvent := c.(MaxCoHostsPerEvent);
     EmailOpenTrackingEnabled := c.(EmailOpenTrackingEnabled);
     EmailClickTrackingEnabled := c.(EmailClickTrackingEnabled);
     BootstrapToken := c.(BootstrapToken);
     InstanceName := name; DefaultTimezone := timezone; AllowSignups := signups;
     SupportEmail := support |}.
Definition ApplyInstanceOverrides (overrides : gmap string string) (c : Config) : Config :=
  let name := match override overrides "instance_name" with
              | Some v => if bool_decide (v = legacyInstanceName) then "Owl Invites" else v
              | None => c.(InstanceName)
              end in
  let signups := match override overrides "allow_signups" with
                 | Some v => bool_decide (v = "true")
                 | None => c.(AllowSignups)
                 end in
  with_settings name (default c.(DefaultTimezone) (override overrides "default_timezone"))
    (default c.(SupportEmail) (override overrides "support_email")) signups c.

Definition IsDevelopment (c : Config) : bool := bool_decide (c.(cfg_Env) = "development").
Definition SMSEnabled (c : Config) : bool := negb (bool_decide (c.(NotificationSMSProvider) = "")).

(** ** What a loaded configuration is *)

Lemma duration_loop_range fuel d s r :
  0 <= d <= 2 ^ 63 -> duration_loop fuel d s = Some r -> 0 <= r <= 2 ^ 63.
Proof.
  revert d s. induction fuel as [|fuel IH]; intros d [|c s] Hd; cbn [duration_loop].
  1,3: by intros [= <-].
  - done.
  - destruct (duration_part (c :: s)) as [[v rest]|]; [cbn|done].
    case_match eqn:Hlt; [done|]. apply IH.
    pose proof (Z.mod_pos_bound (d + v) (2 ^ 64)). lia.
Qed.
(** A duration that parses is a 64-bit number of nanoseconds. *)
Lemma ParseDuration_range text d : ParseDuration text = Some d -> in_int64 d = true.
Proof.
  unfold ParseDuration, in_int64, int64_min, int64_max. destruct (match to_bytes text with [] => _ | _ => _ end) as [neg s].
  case_bool_decide; [by intros [= <-]|]. case_bool_decide; [done|].
  destruct (duration_loop _ 0 s) as [r|] eqn:Hr; simpl; [|done].
  apply duration_loop_range in Hr; [|lia]. destruct neg; [intros [= <-]; lia|].
  case_match; intros [= <-]. lia.
Qed.

Section loaded.
Context `{E : Env, N : NetEnv}.

Lemma env_duration_ok h key fb check e bad d :
  env_duration h key fb check e bad = Ok d -> in_int64 d = true /\ check d = true.
Proof.
  unfold env_duration. destruct (ParseDuration _) as [x|] eqn:Hp; [|done].
  destruct (check x) eqn:Hc; intros [= <-]. split; [by eapply ParseDuration_range|done].
Qed.
Lemma env_int_ok h key fb n : env_int h key fb = Ok n -> atoi (getEnv h key fb) = Some n /\ in_int64 n = true.
Proof.
  unfold env_int. destruct (atoi _) as [x|] eqn:Ha; intros [= <-]. split; [done|].
  unfold atoi, atoi_bytes in Ha. repeat case_match; by simplify_eq.
Qed.
Lemma check_secret_ok env set s secret :
  check_secret env set s = Ok secret ->
  set = true /\ secret = s /\ 32 <= len s /\ (env = "production" -> isObviousSecretPlaceholder s = false).
Proof.
  unfold check_secret. destruct set; simpl; [|done]. case_match eqn:Hl; [done|].
  case_bool_decide as He; simpl.
  - destruct (isObviousSecretPlaceholder s) eqn:Hp; intros [= <-]. split_and!; [done..|lia|done].
  - intros [= <-]. split_and!; [done..|lia|congruence].
Qed.

(** Where the secret came from: one variable, or the file the other one names. *)
Definition secret_source (h : Host) (secret : string) : Prop :=
  (lookupEnv h "OWL_INVITES_SECRET_KEY" = Some secret /\ lookupEnv h "OWL_INVITES_SECRET_KEY_FILE" = None) \/
  (lookupEnv h "OWL_INVITES_SECRET_KEY" = None /\ exists path contents,
     lookupEnv h "OWL_INVITES_SECRET_KEY_FILE" = Some path /\ path <> "" /\
     h.(h_read) path = Some contents /\ secret = trimOneTrailingLineEnding contents).
Lemma loadInvitationSecret_ok h env secret :
  loadInvitationSecret h env = Ok secret ->
  32 <= len secret /\ (env = "production" -> isObviousSecretPlaceholder secret = false) /\
  secret_source h secret.
Proof.
  unfold loadInvitationSecret, secret_source. destruct (lookupEnv h "OWL_INVITES_SECRET_KEY") as [s|] eqn:Hs,
    (lookupEnv h "OWL_INVITES_SECRET_KEY_FILE") as [f|] eqn:Hf; try done.
  - intros (_ & -> & Hl & Hp)%check_secret_ok. split_and!; auto.
  - case_bool_decide; [done|]. destruct (h_read h f) as [contents|] eqn:Hr; [|done].
    intros (_ & -> & Hl & Hp)%check_secret_ok. split_and!; [done..|]. right. split; [done|]. by exists f, contents.
Qed.

(** Where the data source came from.  Without DB_DSN it is one of the two default
    files, and never one of two that exist. *)
Definition dsn_source (h : Host) (driver dsn : string) : Prop :=
  dsn <> "" /\
  match lookupEnv h "DB_DSN" with
  | Some explicit => dsn = explicit
  | None => driver <> "postgres" /\
      ((dsn = DefaultSQLiteDSN /\ h.(h_stat) LegacyDefaultSQLiteDSN = Some false) \/
       (dsn = DefaultSQLiteDSN /\ h.(h_stat) DefaultSQLiteDSN = Some true) \/
       (dsn = LegacyDefaultSQLiteDSN /\ h.(h_stat) DefaultSQLiteDSN = Some false /\
        h.(h_stat) LegacyDefaultSQLiteDSN = Some true)) /\
      ~ (h.(h_stat) DefaultSQLiteDSN = Some true /\ h.(h_stat) LegacyDefaultSQLiteDSN = Some true)
  end.
Lemma resolveDatabaseDSN_ok h driver p :
  resolveDatabaseDSN h driver = Ok p -> dsn_source h driver p.1.
Proof.
  unfold resolveDatabaseDSN, dsn_source. destruct (lookupEnv h "DB_DSN") as [s|] eqn:Hd.
  - case_bool_decide; [done|]. by intros [= <-].
  - case_bool_decide; [done|]. unfold ResolveSQLiteDefaultDSN, regularPathExists.
    destruct (h_stat h DefaultSQLiteDSN) as [[]|], (h_stat h LegacyDefaultSQLiteDSN) as [[]|]; simpl;
      try done; intros [= <-]; simpl; (split; [done|]); split_and!; auto; naive_solver.
Qed.

Lemma proxy_entries_ok entries l :
  proxy_entries entries = Ok l -> Forall (fun e => is_Some (trusted_network e)) l.
Proof.
  revert l. induction entries as [|x rest IH]; intros l; simpl; [by intros [= <-]|].
  intros (o & Ho & (k & Hk & [= <-])%res_bind_ok)%res_bind_ok. apply IH in Hk.
  destruct o as [e|]; [|done]. constructor; [|done]. unfold proxy_entry in Ho.
  case_bool_decide as Hx; [done|]. case_match eqn:Hn; [done|]. injection Ho as <-.
  unfold trusted_network. rewrite trim_space_idemp, bool_decide_eq_false_2 by done.
  destruct (parse_ip (trim_space x)) eqn:Hi; [eauto|]. apply andb_false_iff in Hn as [Hn|Hn];
    apply bool_decide_eq_false in Hn; [done|]. destruct (parse_cidr (trim_space x)); [eauto|done].
Qed.

(** What the rest of the server relies on of a configuration. *)
Record ValidConfig (h : Host) (c : Config) : Prop := {
  vc_env : c.(cfg_Env) = "development" \/ c.(cfg_Env) = "production";
  vc_driver : c.(DBDriver) = "sqlite" \/ c.(DBDriver) = "postgres";
  vc_dsn : dsn_source h c.(DBDriver) c.(DBDSN);
  vc_port : exists n, atoi c.(Port) = Some n /\ 1 <= n <= 65535;
  vc_durations : Forall (fun d => in_int64 d = true)
    [c.(MagicLinkExpiry); c.(SessionExpiry); c.(AccountInviteExpiry); c.(InvitationSessionExpiry);
     c.(InvitationRecoveryExpiry)];
  vc_positive : Forall (fun d => 0 < d)
    [c.(AccountInviteExpiry); c.(InvitationSessionExpiry); c.(InvitationRecoveryExpiry);
     c.(DefaultRetentionDays); c.(MaxCoHostsPerEvent)];
  vc_secret : 32 <= len c.(InvitationSecretKey) /\ secret_source h c.(InvitationSecretKey);
  vc_production : c.(cfg_Env) = "production" -> isObviousSecretPlaceholder c.(InvitationSecretKey) = false;
  vc_proxies : length (trustedNetworks c.(TrustedProxies)) = length c.(TrustedProxies) }.

Lemma omap_total {A B} (f : A -> option B) l : Forall (fun x => is_Some (f x)) l -> length (omap f l) = length l.
Proof. induction 1 as [|x l [y Hy] _ IH]; simpl; [done|]. rewrite Hy. simpl. by f_equal. Qed.

(** A configuration that was loaded is valid: driver, environment and port are known
    ones, the durations fit 64 bits and those that must be positive are, the secret
    comes from exactly one variable, has 32 bytes and is no placeholder in production,
    the data source was set or is the only default file there may be, and the proxy
    middleware understands every trusted proxy. *)
Theorem load_valid h c : Load h = Ok c -> ValidConfig h c.
Proof.
  unfold Load. intros H. case_match eqn:Hdrv; [done|].
  apply res_bind_ok in H as (dsn & Hdsn & H).
  apply res_bind_ok in H as (d1 & [H1 _]%env_duration_ok & H).
  apply res_bind_ok in H as (d2 & [H2 _]%env_duration_ok & H).
  apply res_bind_ok in H as (d3 & [H3 P3]%env_duration_ok & H).
  apply res_bind_ok in H as (d4 & [H4 P4]%env_duration_ok & H).
  apply res_bind_ok in H as (d5 & [H5 P5]%env_duration_ok & H).
  apply res_bind_ok in H as (secret & (Hl & Hp & Hs)%loadInvitationSecret_ok & H).
  apply res_bind_ok in H as (smtp & _ & H). case_match eqn:Henv; [done|].
  destruct (atoi (getEnv h "PORT" _)) as [port|] eqn:Hport; [|done]. case_match eqn:Hr; [done|].
  apply res_bind_ok in H as (days & _ & H). case_match eqn:Hd; [done|].
  apply res_bind_ok in H as (proxies & Hx & H). apply res_bind_ok in H as (hosts & _ & H).
  case_match eqn:Hh; [done|]. injection H as <-. unfold positive in *.
  split; simpl; try done; try (repeat constructor; lia || done).
  - apply andb_false_iff in Henv as [Hn|Hn]; apply negb_false_iff, bool_decide_eq_true in Hn; auto.
  - apply andb_false_iff in Hdrv as [Hn|Hn]; apply negb_false_iff, bool_decide_eq_true in Hn; auto.
  - by apply resolveDatabaseDSN_ok.
  - exists port. split; [done|lia].
  - apply omap_total. unfold trusted_proxies in Hx. case_bool_decide; [by injection Hx as <-|].
    by eapply proxy_entries_ok.
Qed.
End loaded.

(** ** An example: a production server with two proxies *)

#[local] Existing Instance demo_env.
Definition demo_host : Host := {|
  h_env := {["ENV" := "production"; "OWL_INVITES_SECRET_KEY_FILE" := "/run/secrets/key";
             "TRUSTED_PROXIES" := "10.0.0.1, ,10.0.0.2"; "SESSION_EXPIRY" := "12h"]};
  h_read path := if bool_decide (path = "/run/secrets/key")
                 then Some ("9f2c4b7a1d8e6f3059b1c2d3e4f5a6b7" +:+ nl) else None;
  h_stat _ := Some false |}.
Definition demo_config : option Config := match Load demo_host with Ok c => Some c | Err _ => None end.
Example demo_loads :
  (fun c => (c.(DBDSN), c.(InvitationSecretKey), c.(TrustedProxies), c.(SessionExpiry))) <$> demo_config
  = Some ("/data/owl-invites.db", "9f2c4b7a1d8e6f3059b1c2d3e4f5a6b7", ["10.0.0.1"; "10.0.0.2"],
          12 * 3600 * ns_per_sec).
Proof. vm_compute. reflexivity. Qed.

(** Two settings the checks leave out: sessions may expire before they start, and a
    variable that says [TRUE] is not true. *)
Example unchecked_settings :
  let h := MkHost (<["SESSION_EXPIRY" := "-1h"]> (<["EMAIL_OPEN_TRACKING_ENABLED" := "TRUE"]> demo_host.(h_env)))
             demo_host.(h_read) demo_host.(h_stat) in
  match Load h with
  | Ok c => c.(SessionExpiry) = - (3600 * ns_per_sec) /\ c.(EmailOpenTrackingEnabled) = false
  | Err _ => False
  end.
Proof. vm_compute. done. Qed.

Lemma load_valid_witness : exists c, Load demo_host = Ok c /\ ValidConfig demo_host c.
Proof.
  assert (exists c, Load demo_host = Ok c) as [c Hc].
  { destruct (Load demo_host) as [c|e] eqn:Hl; [by exists c|].
    exfalso. vm_compute in Hl. discriminate. }
  exists c. split; [done|]. apply load_valid. exact Hc.
Defined.
