(* ===== verification/Migrate.v ===== *)
(** * Database migrations (internal/database/migrate.go)

    What the program does around the library that runs the migrations
    (golang-migrate).  The library is a parameter ([MigrateLib]) over whatever state
    it keeps; [MigrateLaws] states what its documentation says of
    [Up].  [Library] is a concrete one: a list of applied migrations
    and the row of its version table. *)

From S2P Require Import Prelude.
From S2P Require Import GoStr.
From S2P Require Import GoTime.
From S2P Require Import Schema.
From S2P Require Import Eff.

Local Open Scope Z_scope.

(** ** The files *)

(** [strings.Cut(name, "_")] *)
Fixpoint cut_bytes (c : ascii) (s : bytes) : option (bytes * bytes) :=
  match s with
  | [] => None
  | d :: t => if bool_decide (d = c) then Some ([], t)
              else (fun p => (d :: p.1, p.2)) <$> cut_bytes c t
  end.
(** [strconv.ParseUint(s, 10, 64)] *)
Definition parse_uint (l : bytes) : option Z :=
  match atou l with Some n => if n <? 2 ^ 64 then Some n else None | None => None end.

Definition up_suffix : string := ".up.sql".
Definition is_up (name : string) : bool :=
  bytes_prefix (reverse (to_bytes up_suffix)) (reverse (to_bytes name)).
Definition invalid_filename (name : string) : err := EText ("invalid migration filename: " +:+ name).
(** The version a file name starts with. *)
Definition file_version (name : string) : res Z :=
  match cut_bytes "_"%char (to_bytes name) with
  | None => Err (invalid_filename name)
  | Some (prefix, _) =>
      match parse_uint prefix with
      | None => Err (invalid_filename name)
      | Some v => Ok v
      end
  end.
Fixpoint latest_loop (latest : Z) (names : list string) : res Z :=
  match names with
  | [] => Ok latest
  | name :: rest =>
      if negb (is_up name) then latest_loop latest rest else
      version <-r file_version name ;;
      latest_loop (if latest <? version then version else latest) rest
  end.

Record MigrationStatus := MkStatus {
  ms_Current : Z; ms_Latest : Z; ms_Dirty : bool; ms_Pending : bool }.
Record MigrationResult := MkResult { mr_Before : MigrationStatus; mr_After : MigrationStatus }.

Definition irreversibleGate2Version : Z := 36.
Definition ErrGate2RollbackUnsupported : err :=
  EText "migration 36 is irreversible: restore a verified pre-upgrade backup to roll back Gate 2".

(** ** The library *)

(** What [Version] answers: an error, [ErrNilVersion], or the version and whether it
    is dirty. *)
Inductive version_answer := VErr | VNil | VAt (version : Z) (dirty : bool).
(** How [Up] and [Migrate] end. *)
Inductive outcome := Migrated | NoChange | Failed.
#[global] Instance outcome_eq_dec : EqDecision outcome.
Proof. solve_decision. Defined.

Class MigrateLib (St : Type) := {
  (** the embedded directory of the dialect, if it can be read *)
  migration_files : option (list string);
  (** whether the instance can be made: source, driver, dialect *)
  lib_new : St -> bool;
  lib_version : St -> version_answer;
  lib_force : Z -> St -> bool * St;
  lib_up : St -> outcome * St;
  lib_migrate : Z -> St -> outcome * St }.

Section migrate.
Context {St : Type} `{L : !MigrateLib St}.

Definition LatestMigrationVersion : res Z :=
  match migration_files with
  | None => Err (EInternal "read migrations")
  | Some names =>
      latest <-r latest_loop 0 names ;;
      if latest =? 0 then Err (EText "no up migrations found for dialect") else Ok latest
  end.

Definition newMigrator (s : St) : res () := if lib_new s then Ok () else Err (EInternal "migrate instance").

Definition status_of (current latest : Z) (dirty : bool) : MigrationStatus :=
  MkStatus current latest dirty ((current <? latest) || dirty).
Definition ReadMigrationStatus (s : St) : res MigrationStatus :=
  latest <-r LatestMigrationVersion ;;
  _ <-r newMigrator s ;;
  match lib_version s with
  | VErr => Err (EInternal "read migration version")
  | VNil => Ok (status_of 0 latest false)
  | VAt current dirty => Ok (status_of current latest dirty)
  end.

Definition RunMigrations (s : St) : res () * St :=
  match newMigrator s with
  | Err e => (Err e, s)
  | Ok _ =>
      let (forced, s) := match lib_version s with
                         | VAt version true => lib_force version s
                         | _ => (true, s)
                         end in
      if negb forced then (Err (EInternal "force dirty version"), s) else
      let (o, s) := lib_up s in
      (match o with Failed => Err (EInternal "migrate up") | _ => Ok () end, s)
  end.

Definition MigrateUp (s : St) : res MigrationResult * St :=
  match ReadMigrationStatus s with
  | Err e => (Err e, s)
  | Ok before =>
      let (r, s) := RunMigrations s in
      match r with
      | Err e => (Err e, s)
      | Ok _ => (after <-r ReadMigrationStatus s ;; Ok (MkResult before after), s)
      end
  end.

Definition RunMigrationsTo (target : Z) (s : St) : res () * St :=
  match newMigrator s with
  | Err e => (Err e, s)
  | Ok _ =>
      match lib_version s with
      | VErr => (Err (EInternal "read migration version"), s)
      | v =>
          let gate2 := match v with
                       | VAt current _ => (irreversibleGate2Version <=? current)
                                          && (target <? irreversibleGate2Version)
                       | _ => false
                       end in
          if gate2 then (Err ErrGate2RollbackUnsupported, s) else
          let (o, s) := lib_migrate target s in
          (match o with Failed => Err (EInternal "migrate") | _ => Ok () end, s)
      end
  end.

(** ** main.go: the command [migrate] *)

Definition show_bool (b : bool) : string := if b then "true" else "false".
Definition migrate_usage : err := EText "usage: owl-invites migrate <status|version|up>".
(** The text printed; the configuration is loaded and the database open. *)
Definition runMigrate (args : list string) (s : St) : res string * St :=
  match args with
  | [action] =>
      if bool_decide (action = "status") then
        (status <-r ReadMigrationStatus s ;;
         Ok ("current=" +:+ itoa status.(ms_Current) +:+ nl +:+ "latest=" +:+ itoa status.(ms_Latest)
             +:+ nl +:+ "dirty=" +:+ show_bool status.(ms_Dirty) +:+ nl
             +:+ "pending=" +:+ show_bool status.(ms_Pending) +:+ nl), s)
      else if bool_decide (action = "version") then
        (status <-r ReadMigrationStatus s ;; Ok (itoa status.(ms_Current) +:+ nl), s)
      else if bool_decide (action = "up") then
        let (r, s) := MigrateUp s in
        (result <-r r ;;
         let before := result.(mr_Before) in let after := result.(mr_After) in
         if (before.(ms_Current) =? after.(ms_Current)) && negb before.(ms_Dirty)
         then Ok ("schema already at version " +:+ itoa after.(ms_Current) +:+ nl)
         else Ok ("migrated schema from " +:+ itoa before.(ms_Current) +:+ " to "
                  +:+ itoa after.(ms_Current) +:+ nl), s)
      else (Err migrate_usage, s)
  | _ => (Err migrate_usage, s)
  end.
End migrate.

(** ** What is promised *)

Section promises.
Context {St : Type} `{L : !MigrateLib St}.

(** The documentation of golang-migrate: [Up] applies all migrations that are left,
    and at the last one finds nothing to do. *)
Class MigrateLaws : Prop := {
  up_reaches s o s' latest :
    LatestMigrationVersion = Ok latest -> lib_up s = (o, s') -> o <> Failed ->
    lib_version s' = VAt latest false;
  up_nothing s latest :
    LatestMigrationVersion = Ok latest -> lib_version s = VAt latest false ->
    (lib_up s).1 <> Failed -> lib_up s = (NoChange, s) }.

Lemma latest_loop_max latest names v :
  latest_loop latest names = Ok v ->
  latest <= v /\ (forall name, name ∈ names -> is_up name = true ->
                    exists u, file_version name = Ok u /\ u <= v) /\
  (v = latest \/ exists name, name ∈ names /\ is_up name = true /\ file_version name = Ok v).
Proof.
  revert latest. induction names as [|n names IH]; intros latest; simpl.
  { intros [= <-]. split_and!; [lia| |by left]. intros name Hn. by apply elem_of_nil in Hn. }
  destruct (is_up n) eqn:Hup; simpl; intros H.
  - apply res_bind_ok in H as (u & Hu & H). apply IH in H as (Hle & Hall & Hfrom).
    split_and!; [case_match eqn:Hlt; lia| |].
    + intros name [->|Hn]%elem_of_cons; [|auto]. intros _. exists u. split; [done|]. case_match eqn:Hlt; lia.
    + destruct Hfrom as [->|(name & Hn & Hname)]; [|right; exists name; set_solver].
      case_match; [|by left]. right. exists n. set_solver.
  - apply IH in H as (Hle & Hall & Hfrom). split_and!; [done| |].
    + intros name [->|Hn]%elem_of_cons; [congruence|auto].
    + destruct Hfrom as [->|(name & Hn & Hname)]; [by left|]. right. exists name. set_solver.
Qed.

(** The latest version is the highest that the up migrations carry. *)
Theorem latest_version_max names v :
  migration_files = Some names -> LatestMigrationVersion = Ok v ->
  v <> 0 /\ (exists name, name ∈ names /\ is_up name = true /\ file_version name = Ok v) /\
  (forall name, name ∈ names -> is_up name = true -> exists u, file_version name = Ok u /\ u <= v).
Proof.
  unfold LatestMigrationVersion. intros -> (u & Hu & H)%res_bind_ok.
  destruct (Z.eqb_spec u 0); [done|]. injection H as ->. split; [done|].
  apply latest_loop_max in Hu as (_ & Hall & [->|Hfrom]); [done|]. by split.
Qed.

(** A migration that succeeds leaves the latest version, nothing pending and nothing
    dirty, and reports it; on a database that was up to date it changes nothing. *)
Theorem migrate_up_completes `{W : !MigrateLaws} s r s' :
  MigrateUp s = (Ok r, s') ->
  exists latest, LatestMigrationVersion = Ok latest /\
    lib_version s' = VAt latest false /\ r.(mr_After) = MkStatus latest latest false false /\
    ReadMigrationStatus s = Ok r.(mr_Before) /\
    (lib_version s = VAt latest false -> s' = s /\ r.(mr_Before) = r.(mr_After)).
Proof.
  unfold MigrateUp. destruct (ReadMigrationStatus s) as [before|] eqn:Hb; [|done].
  destruct (RunMigrations s) as [[[]|] s1] eqn:Hr; [|done]. intros [= H <-].
  apply res_bind_ok in H as (after & Ha & [= <-]). simpl.
  assert (exists latest, LatestMigrationVersion = Ok latest) as [latest Hl].
  { unfold ReadMigrationStatus in Ha. apply res_bind_ok in Ha as (x & Hx & _). eauto. }
  exists latest. split; [done|]. unfold RunMigrations in Hr. destruct (newMigrator s) eqn:Hn; [|done].
  set (p := match lib_version s with VAt v true => _ | _ => _ end) in Hr.
  destruct p as [forced s2] eqn:Hp. destruct forced; [|done]. simpl in Hr.
  destruct (lib_up s2) as [o s3] eqn:Hu. destruct (decide (o = Failed)) as [->|Ho]; [done|].
  assert (s3 = s1) as -> by (destruct o; congruence).
  pose proof (up_reaches _ _ _ _ Hl Hu Ho) as Hv. split; [done|].
  assert (forall x t, ReadMigrationStatus x = Ok t -> lib_version x = VAt latest false ->
            t = MkStatus latest latest false false) as Hread.
  { unfold ReadMigrationStatus. intros x t Ht Hx. rewrite Hl in Ht. simpl in Ht.
    apply res_bind_ok in Ht as (_ & _ & Ht). rewrite Hx in Ht. injection Ht as <-.
    unfold status_of. by rewrite Z.ltb_irrefl. }
  split; [by apply (Hread s1)|]. split; [done|]. intros Hs.
  assert (s2 = s) as -> by (unfold p in Hp; rewrite Hs in Hp; congruence).
  rewrite (up_nothing _ _ Hl Hs) in Hu by (by rewrite Hu). split; [congruence|].
  rewrite (Hread _ _ Hb Hs). by rewrite (Hread s1 after Ha Hv).
Qed.

(** From migration 36 on there is no way back below it: the request is refused before
    the library is asked, whatever it would have done. *)
Theorem gate2_irreversible target s v dirty :
  lib_version s = VAt v dirty -> irreversibleGate2Version <= v -> target < irreversibleGate2Version ->
  (RunMigrationsTo target s).2 = s /\ exists e, (RunMigrationsTo target s).1 = Err e.
Proof.
  intros Hv H1 H2. unfold RunMigrationsTo. destruct (newMigrator s); [|eauto]. rewrite Hv.
  replace (irreversibleGate2Version <=? v) with true by lia.
  replace (target <? irreversibleGate2Version) with true by lia. simpl. eauto.
Qed.
End promises.
Arguments MigrateLaws St {L}.

(** ** A library as documented *)

(** What was applied, the row of the version table, and which migrations fail. *)
Record Library := MkLibrary {
  applied : list Z; version_row : option (Z * bool); broken : list Z }.

(** The migrations of the directory, by version. *)
Definition source : list Z := Z.of_nat <$> seq 1 36.
Definition six (n : Z) : string := of_bytes (pad 6 n).
Definition demo_files : list string :=
  (n ← source; [six n +:+ "_step.down.sql"; six n +:+ "_step.up.sql"]).

(** The dirty flag is set before a migration runs and reset after it. *)
Fixpoint run_ups (vs : list Z) (s : Library) : outcome * Library :=
  match vs with
  | [] => (Migrated, s)
  | v :: rest =>
      if bool_decide (v ∈ s.(broken)) then (Failed, MkLibrary s.(applied) (Some (v, true)) s.(broken))
      else run_ups rest (MkLibrary (s.(applied) ++ [v]) (Some (v, false)) s.(broken))
  end.
Definition ups (s : Library) : outcome * Library :=
  match s.(version_row) with
  | Some (_, true) => (Failed, s)
  | Some (v, false) =>
      if bool_decide (v ∈ source) then
        match filter (fun x => v < x) source with
        | [] => (NoChange, s)
        | vs => run_ups vs s
        end
      else (Failed, s)
  | None => run_ups source s
  end.
#[global] Instance library : MigrateLib Library := {|
  migration_files := Some demo_files;
  lib_new _ := true;
  lib_version s := match s.(version_row) with Some (v, d) => VAt v d | None => VNil end;
  lib_force v s := (true, MkLibrary s.(applied) (Some (v, false)) s.(broken));
  lib_up := ups;
  lib_migrate _ s := (Failed, s) |}.

Lemma latest_36 : LatestMigrationVersion = Ok 36.
Proof. vm_compute. reflexivity. Qed.

Lemma run_ups_last vs v s s' :
  run_ups (vs ++ [v]) s = (Migrated, s') -> s'.(version_row) = Some (v, false).
Proof.
  revert s. induction vs as [|x vs IH]; intros s; simpl; case_bool_decide; try done; [by intros [= <-]|apply IH].
Qed.
Lemma run_ups_done vs s : (run_ups vs s).1 <> NoChange.
Proof. revert s. induction vs as [|x vs IH]; intros s; simpl; [done|]. case_bool_decide; [done|apply IH]. Qed.

Lemma source_after v : v ∈ source -> v < 36 -> exists vs, filter (fun x => v < x) source = vs ++ [36].
Proof.
  intros Hv Hlt. change source with ((Z.of_nat <$> seq 1 35) ++ [36]).
  exists (filter (fun x => v < x) (Z.of_nat <$> seq 1 35)). rewrite filter_app. f_equal.
  by rewrite filter_cons_True, filter_nil by done.
Qed.
Lemma source_36 v : v ∈ source -> v <= 36.
Proof. unfold source. intros (n & -> & Hn)%list_elem_of_fmap. apply elem_of_seq in Hn. lia. Qed.

#[global] Instance library_laws : MigrateLaws Library.
Proof.
  assert (forall vs s o s', run_ups (vs ++ [36]) s = (o, s') -> o <> Failed ->
            s'.(version_row) = Some (36, false)) as Hrun.
  { intros vs s o s' Hr Ho. destruct o; [by eapply run_ups_last| |done].
    pose proof (run_ups_done (vs ++ [36]) s) as Hn. by rewrite Hr in Hn. }
  split; intros s; rewrite latest_36.
  - intros o s' latest [= <-] Hu Ho. cbn [lib_up library] in Hu. cbn [lib_version library]. unfold ups in Hu.
    destruct (version_row s) as [[v []]|] eqn:Hv; [congruence| |].
    + case_bool_decide as Hin; [|congruence]. destruct (decide (v < 36)) as [Hlt|Hge].
      * destruct (source_after v Hin Hlt) as [vs Hvs]. rewrite Hvs in Hu.
        destruct (vs ++ [36]) eqn:Hvs'; [by destruct vs|]. rewrite <- Hvs' in Hu.
        by rewrite (Hrun _ _ _ _ Hu Ho).
      * pose proof (source_36 v Hin). assert (v = 36) as -> by lia.
        change (filter _ source) with (@nil Z) in Hu. injection Hu as <- <-. by rewrite Hv.
    + change source with ((Z.of_nat <$> seq 1 35) ++ [36]) in Hu. by rewrite (Hrun _ _ _ _ Hu Ho).
  - intros latest [= <-] Hv _. cbn [lib_up lib_version library] in *. unfold ups.
    destruct (version_row s) as [[v d]|]; [|done]. by injection Hv as -> ->.
Qed.

(** An interrupted migration is not retried, as the comment has it, but skipped:
    migration 34 fails, is mended, and the next run goes on with 35. *)
Example failed_migration_skipped :
  let broken := MkLibrary [] None [34] in
  let s1 := (RunMigrations broken).2 in
  let s2 := RunMigrations (MkLibrary s1.(applied) s1.(version_row) []) in
  (RunMigrations broken).1 = Err (EInternal "migrate up") /\ s1.(version_row) = Some (34, true) /\
  s2.1 = Ok () /\ s2.2.(version_row) = Some (36, false) /\ 34 ∉ s2.2.(applied).
Proof.
  cbv zeta. split_and!; try (vm_compute; reflexivity). apply (bool_decide_unpack (34 ∉ _)). vm_compute. exact I.
Qed.

Example migrate_command :
  (runMigrate ["up"] (MkLibrary [] None [])).1
  = Ok ("migrated schema from 0 to 36" +:+ nl) /\
  (runMigrate ["up"] (MkLibrary source (Some (36, false)) [])).1
  = Ok ("schema already at version 36" +:+ nl).
Proof. vm_compute. done. Qed.

Lemma latest_version_max_witness :
  36 <> 0 /\ (exists name, name ∈ demo_files /\ is_up name = true /\ file_version name = Ok 36).
Proof.
  assert (migration_files = Some demo_files) as Hf by reflexivity.
  destruct (latest_version_max demo_files 36 Hf latest_36) as (H & Hn & _). by split.
Defined.
Lemma migrate_up_completes_witness :
  exists r s', MigrateUp (MkLibrary [] None []) = (Ok r, s') /\ lib_version s' = VAt 36 false.
Proof.
  destruct (MigrateUp (MkLibrary [] None [])) as [[r|e] s'] eqn:H.
  - exists r, s'. split; [done|]. destruct (migrate_up_completes _ _ _ H) as (latest & Hl & Hv & _).
    rewrite latest_36 in Hl. by injection Hl as <-.
  - exfalso. vm_compute in H. discriminate.
Defined.
Lemma gate2_irreversible_witness :
  (RunMigrationsTo 35 (MkLibrary source (Some (36, false)) [])).2 = MkLibrary source (Some (36, false)) [].
Proof. apply (gate2_irreversible 35 _ 36 false); [reflexivity|done|reflexivity]. Defined.
