(* ===== verification/Files.v ===== *)
(** * The file system (packages os and path/filepath)

    What the program uses of them: a tree of named nodes, paths as lists of names,
    operations that each may fail and then did nothing, and [filepath.WalkDir].
    A path is absolute and cleaned; a symbolic link is followed at the end of a path
    and not on the way.  Modes, owners and times of files are left out. *)

From S2P Require Import Prelude.
From S2P Require Import GoStr.
From S2P Require Import GoTime.
From S2P Require Import Schema.
From S2P Require Import Eff.

Local Open Scope Z_scope.

Abbreviation path := (list string).

(** The entries of a directory are in the order [os.ReadDir] gives: by name. *)
Inductive Node :=
| NFile (contents : string)
| NDir (entries : list (string * Node))
| NLink (target : path)
| NOther.

Section node_ind.
Variable P : Node -> Prop.
Hypothesis file_case : forall c, P (NFile c).
Hypothesis dir_case : forall es, Forall (fun x => P x.2) es -> P (NDir es).
Hypothesis link_case : forall t, P (NLink t).
Hypothesis other_case : P NOther.

Fixpoint node_entries_ind (n : Node) : P n :=
  match n with
  | NFile c => file_case c
  | NDir es =>
      dir_case es ((fix go (es : list (string * Node)) : Forall (fun x => P x.2) es :=
        match es with
        | [] => List.Forall_nil _
        | x :: rest => List.Forall_cons _ _ _ (node_entries_ind x.2) (go rest)
        end) es)
  | NLink t => link_case t
  | NOther => other_case
  end.
End node_ind.

Definition is_dir (n : Node) : bool := match n with NDir _ => true | _ => false end.

(** ** The entries of a directory *)

Fixpoint entry {A} (name : string) (es : list (string * A)) : option A :=
  match es with
  | [] => None
  | (x, v) :: rest => if bool_decide (x = name) then Some v else entry name rest
  end.
Fixpoint place {A} (name : string) (v : A) (es : list (string * A)) : list (string * A) :=
  match es with
  | [] => [(name, v)]
  | (x, w) :: rest =>
      if bool_decide (x = name) then (name, v) :: rest
      else if str_lt name x then (name, v) :: es
      else (x, w) :: place name v rest
  end.
Definition unplace {A} (name : string) (es : list (string * A)) : list (string * A) :=
  List.filter (fun x => negb (bool_decide (x.1 = name))) es.

(** ** Looking up, putting and removing *)

Fixpoint node_at (n : Node) (p : path) : option Node :=
  match p with
  | [] => Some n
  | x :: q =>
      match n with
      | NDir es => match entry x es with Some c => node_at c q | None => None end
      | _ => None
      end
  end.
(** The parent of [p] is a directory. *)
Fixpoint put (p : path) (v : Node) (n : Node) : Node :=
  match p with
  | [] => v
  | x :: q =>
      match n with
      | NDir es =>
          match entry x es, q with
          | Some c, _ => NDir (place x (put q v c) es)
          | None, [] => NDir (place x v es)
          | None, _ => n
          end
      | _ => n
      end
  end.
Fixpoint remove (p : path) (n : Node) : Node :=
  match p, n with
  | [], _ => n
  | [x], NDir es => NDir (unplace x es)
  | x :: q, NDir es =>
      match entry x es with Some c => NDir (place x (remove q c) es) | None => n end
  | _, _ => n
  end.

(** [ENOENT] and [ENOTDIR] *)
Inductive looked := LFound (n : Node) | LMissing | LBlocked.
Fixpoint look (n : Node) (p : path) : looked :=
  match p with
  | [] => LFound n
  | x :: q =>
      match n with
      | NDir es => match entry x es with Some c => look c q | None => LMissing end
      | _ => LBlocked
      end
  end.

Definition parent (p : path) : path := take (length p - 1) p.
Definition parent_is_dir (root : Node) (p : path) : bool :=
  negb (bool_decide (p = [])) && match node_at root (parent p) with Some n => is_dir n | None => false end.
Definition absent (root : Node) (p : path) : bool :=
  match node_at root p with Some _ => false | None => true end.
(** What a link names. *)
Definition follow (root n : Node) : option Node :=
  match n with NLink t => node_at root t | _ => Some n end.

(** ** Programs *)

Record Disk := MkDisk { dk_root : Node; dk_faults : list bool; dk_draws : nat; dk_clock : nat }.
Definition IO (A : Type) := Disk -> res A * Disk.

Definition io_ret {A} (a : A) : IO A := fun dk => (Ok a, dk).
Definition io_fail {A} (e : err) : IO A := fun dk => (Err e, dk).
Definition io_bind {A B} (m : IO A) (f : A -> IO B) : IO B := fun dk =>
  match m dk with
  | (Ok a, dk1) => f a dk1
  | (Err e, dk1) => (Err e, dk1)
  end.
Notation "x <~ m ;; k" := (io_bind m (fun x => k))
  (at level 100, m at next level, right associativity) : owl_scope.
Notation "m ~;; k" := (io_bind m (fun _ => k)) (at level 100, right associativity) : owl_scope.
(** The result of a program as a value: the caller looks at the error. *)
Definition try_io {A} (m : IO A) : IO (res A) := fun dk => let (r, dk1) := m dk in (Ok r, dk1).
Definition io_res {A} (r : res A) : IO A := fun dk => (r, dk).
Definition io_require (b : bool) (e : err) : IO () := if b then io_ret () else io_fail e.

(** An operation of the system. *)
Definition sys {A} (what : string) (f : Node -> option (A * Node)) : IO A := fun dk =>
  match dk.(dk_faults) with
  | true :: fs => (Err (EInternal what), MkDisk dk.(dk_root) fs dk.(dk_draws) dk.(dk_clock))
  | fs =>
      let fs := tail fs in
      match f dk.(dk_root) with
      | Some (a, root) => (Ok a, MkDisk root fs dk.(dk_draws) dk.(dk_clock))
      | None => (Err (EInternal what), MkDisk dk.(dk_root) fs dk.(dk_draws) dk.(dk_clock))
      end
  end.
Definition observe {A} (what : string) (f : Node -> option A) : IO A :=
  sys what (fun root => (fun a => (a, root)) <$> f root).
Definition change (what : string) (f : Node -> option Node) : IO () :=
  sys what (fun root => (fun r => ((), r)) <$> f root).

(** [defer func() { if !committed { cleanup } }] and an unconditional one; the error of
    the cleanup is dropped. *)
Definition unless_committed {A} (cleanup : IO ()) (body : IO A) : IO A :=
  r <~ try_io body ;;
  match r with
  | Ok a => io_ret a
  | Err e => try_io cleanup ~;; io_fail e
  end.
Definition finally {A} (cleanup : IO ()) (body : IO A) : IO A :=
  r <~ try_io body ;;
  try_io cleanup ~;; io_res r.

(** ** Package os *)

(** [None] is [os.ErrNotExist]. *)
Definition Lstat (p : path) : IO (option Node) :=
  observe "lstat" (fun root => match look root p with
                               | LFound n => Some (Some n)
                               | LMissing => Some None
                               | LBlocked => None
                               end).
Definition Stat (p : path) : IO Node :=
  observe "stat" (fun root => n ← node_at root p; follow root n).
Definition ReadDir (p : path) : IO (list (string * Node)) :=
  observe "read directory" (fun root => match n ← node_at root p; follow root n with
                                        | Some (NDir es) => Some es
                                        | _ => None
                                        end).
Definition ReadFile (p : path) : IO string :=
  observe "read" (fun root => match n ← node_at root p; follow root n with
                              | Some (NFile c) => Some c
                              | _ => None
                              end).
Definition Mkdir (p : path) : IO () :=
  change "mkdir" (fun root =>
    if parent_is_dir root p && absent root p then Some (put p (NDir []) root) else None).
(** One directory of [os.MkdirAll]. *)
Definition ensure_dir (p : path) : IO () :=
  change "mkdir" (fun root =>
    match n ← node_at root p; follow root n with
    | Some (NDir _) => Some root
    | Some _ => None
    | None => if parent_is_dir root p && absent root p then Some (put p (NDir []) root) else None
    end).
Fixpoint ensure_dirs (ps : list path) : IO () :=
  match ps with
  | [] => io_ret ()
  | p :: rest => ensure_dir p ~;; ensure_dirs rest
  end.
Definition prefixes (p : path) : list path := (fun n => take n p) <$> seq 1 (length p).
Definition MkdirAll (p : path) : IO () := ensure_dirs (prefixes p).
Definition Chmod (p : path) : IO () :=
  observe "chmod" (fun root => match node_at root p with Some _ => Some () | None => None end).
(** [O_WRONLY|O_CREATE|O_EXCL] *)
Definition CreateExcl (p : path) : IO () :=
  change "create" (fun root =>
    if parent_is_dir root p && absent root p then Some (put p (NFile "") root) else None).
Definition Write (p : path) (contents : string) : IO () :=
  change "write" (fun root => match node_at root p with
                              | Some (NFile _) => Some (put p (NFile contents) root)
                              | _ => None
                              end).
(** [Sync] or [Close] of a file. *)
Definition sync : IO () := observe "sync" (fun _ => Some ()).
(** [os.WriteFile] of a new file. *)
Definition WriteFile (p : path) (contents : string) : IO () := CreateExcl p ~;; Write p contents.
Definition Remove (p : path) : IO () :=
  change "remove" (fun root => match node_at root p with
                               | Some (NFile _) | Some (NDir []) | Some (NLink _) | Some NOther =>
                                   Some (remove p root)
                               | _ => None
                               end).
Definition RemoveAll (p : path) : IO () := change "remove all" (fun root => Some (remove p root)).
(** What is no directory takes the place of what is no directory. *)
Definition replaces (n : Node) (there : option Node) : bool :=
  match there with None => true | Some m => negb (is_dir m) && negb (is_dir n) end.
(** [os.Rename] replaces an existing file; an existing directory is an error, and so is
    a directory on its way to an existing file or into itself. *)
Definition Rename (src dst : path) : IO () :=
  change "rename" (fun root =>
    match node_at root src with
    | Some n => if parent_is_dir root dst && replaces n (node_at root dst)
                   && negb (is_dir n && bool_decide (src `prefix_of` dst))
                then Some (put dst n (remove src root)) else None
    | None => None
    end).

(** The random part of the n-th temporary name. *)
Class TempNames := { temp_suffix : nat -> string }.
Definition draw {T : TempNames} : IO string := fun dk =>
  (Ok (temp_suffix dk.(dk_draws)), MkDisk dk.(dk_root) dk.(dk_faults) (S dk.(dk_draws)) dk.(dk_clock)).
(** [os.MkdirTemp] tries names until one is new. *)
Fixpoint mkdir_temp {T : TempNames} (fuel : nat) (dir : path) (prefix : string) : IO path :=
  match fuel with
  | O => io_fail (EInternal "mkdir temp")
  | S fuel =>
      suffix <~ draw ;;
      let p := dir ++ [prefix +:+ suffix] in
      o <~ Lstat p ;;
      match o with
      | Some _ => mkdir_temp fuel dir prefix
      | None => Mkdir p ~;; io_ret p
      end
  end.
Definition MkdirTemp {T : TempNames} (dir : path) (prefix : string) : IO path :=
  mkdir_temp (Z.to_nat 10000) dir prefix.

(** ** Package path/filepath *)

(** The nodes in the order of [filepath.WalkDir], each directory before its entries,
    with their paths relative to the root. *)
Fixpoint walk (rel : path) (n : Node) : list (path * Node) :=
  (rel, n) :: match n with
              | NDir es =>
                  (fix go (es : list (string * Node)) : list (path * Node) :=
                     match es with
                     | [] => []
                     | (x, c) :: rest => walk (rel ++ [x]) c ++ go rest
                     end) es
              | _ => []
              end.
Definition walk_entries (rel : path) (es : list (string * Node)) : list (path * Node) :=
  flat_map (fun x => walk (rel ++ [x.1]) x.2) es.

(** The visits; a directory is read after its visit. *)
Fixpoint visit_all {S} (l : list (path * Node)) (visit : S -> path -> Node -> IO S) (s : S) : IO S :=
  match l with
  | [] => io_ret s
  | (rel, n) :: rest =>
      s <~ visit s rel n ;;
      (if is_dir n then observe "read directory" (fun _ => Some ()) else io_ret ()) ~;;
      visit_all rest visit s
  end.
Definition WalkDir {S} (root : path) (visit : S -> path -> Node -> IO S) (s : S) : IO S :=
  o <~ Lstat root ;;
  match o with
  | None => io_fail (EInternal "lstat")
  | Some n => visit_all (walk [] n) visit s
  end.

(** [filepath.Clean] *)
Fixpoint clean_parts (rooted : bool) (out parts : list string) : list string :=
  match parts with
  | [] => out
  | p :: rest =>
      if one_of p [""; "."] then clean_parts rooted out rest
      else if bool_decide (p = "..") then
        match out with
        | x :: o => if bool_decide (x = "..") then clean_parts rooted (".." :: out) rest
                    else clean_parts rooted o rest
        | [] => clean_parts rooted (if rooted then [] else [".."]) rest
        end
      else clean_parts rooted (p :: out) rest
  end.
Definition is_abs (s : string) : bool := bytes_prefix (to_bytes "/") (to_bytes s).
Definition Clean (s : string) : string :=
  let body := join (reverse (clean_parts (is_abs s) [] (split s "/"))) "/" in
  if is_abs s then "/" +:+ body else if bool_decide (body = "") then "." else body.

(** [relative != ".." && !strings.HasPrefix(relative, "../")] for [filepath.Rel(parent, path)] *)
Definition pathWithin (p parent : path) : bool := bool_decide (parent `prefix_of` p).

Example clean_ex : Clean "a/../b//c/." = "b/c" /\ Clean "../x" = "../x" /\ Clean "/../x" = "/x" /\
  Clean "" = "." /\ Clean "a/.." = ".".
Proof. vm_compute. done. Qed.

(** ** The algebra of trees *)

Section entries.
Context {A : Type}.
Implicit Types (es : list (string * A)) (v : A).

Lemma entry_place x v es : entry x (place x v es) = Some v.
Proof.
  induction es as [|[y w] es IH]; simpl; [by rewrite bool_decide_eq_true_2|].
  case_bool_decide; simpl; [by rewrite bool_decide_eq_true_2|].
  destruct (str_lt x y); simpl; [by rewrite bool_decide_eq_true_2|].
  by rewrite bool_decide_eq_false_2.
Qed.
Lemma entry_place_ne x y v es : x <> y -> entry y (place x v es) = entry y es.
Proof.
  intros Hne. induction es as [|[z w] es IH]; simpl; [by rewrite bool_decide_eq_false_2|].
  case_bool_decide as Hz; simpl.
  { subst z. by rewrite bool_decide_eq_false_2. }
  destruct (str_lt x z); simpl; [by rewrite (bool_decide_eq_false_2 (x = y))|]. by rewrite IH.
Qed.
Lemma place_place x v w es : place x v (place x w es) = place x v es.
Proof.
  induction es as [|[y u] es IH]; simpl; [by rewrite bool_decide_eq_true_2|].
  case_bool_decide as Hy; simpl; [by rewrite bool_decide_eq_true_2|].
  destruct (str_lt x y) eqn:Hlt; simpl; [by rewrite bool_decide_eq_true_2|].
  by rewrite bool_decide_eq_false_2, Hlt, IH by done.
Qed.
Lemma entry_unplace_ne x y es : x <> y -> entry y (unplace x es) = entry y es.
Proof.
  intros Hne. induction es as [|[z w] es IH]; simpl; [done|].
  destruct (decide (z = x)) as [->|Hz].
  - rewrite !bool_decide_eq_true_2 by done. simpl. by rewrite (bool_decide_eq_false_2 (x = y)).
  - rewrite (bool_decide_eq_false_2 (z = x)) by done. simpl. by rewrite IH.
Qed.
Lemma entry_unplace x es : entry x (unplace x es) = None.
Proof.
  induction es as [|[z w] es IH]; simpl; [done|].
  destruct (decide (z = x)) as [->|Hz].
  - by rewrite bool_decide_eq_true_2.
  - rewrite (bool_decide_eq_false_2 (z = x)) by done. simpl. by rewrite bool_decide_eq_false_2.
Qed.
End entries.

Lemma node_at_app n p q : node_at n (p ++ q) = (m ← node_at n p; node_at m q).
Proof.
  revert n. induction p as [|x p IH]; intros n; simpl; [done|].
  destruct n; [done| |done..]. by destruct (entry x entries).
Qed.
Lemma node_at_dir n p s m : node_at n p = Some (NDir m) -> node_at n (p ++ [s]) = entry s m.
Proof. intros H. rewrite node_at_app, H. simpl. by destruct (entry s m). Qed.

(** Putting at a path whose parent is a directory. *)
Definition placed (n : Node) (p : path) : Prop :=
  p = [] \/ exists q x es, p = q ++ [x] /\ node_at n q = Some (NDir es).

Lemma placed_cons n x p :
  placed n (x :: p) -> exists es, n = NDir es /\
    (p = [] \/ exists c, entry x es = Some c /\ placed c p).
Proof.
  intros [?|(q & y & es & Hp & Hq)]; [done|]. destruct q as [|z q]; simpl in *.
  - injection Hp as -> ->. injection Hq as ->. exists es. by split; [|left].
  - injection Hp as -> ->. destruct n; [done| |done..]. exists entries. split; [done|]. right.
    destruct (entry z entries) as [c|] eqn:He; [|done]. exists c. split; [done|].
    right. eauto.
Qed.
Lemma placed_parent n p : parent_is_dir n p = true -> placed n p.
Proof.
  unfold parent_is_dir. rewrite andb_true_iff, negb_true_iff, bool_decide_eq_false. intros [Hp H].
  right. destruct p as [|x p] using rev_ind; [done|]. clear IHp.
  unfold parent in H. rewrite length_app in H. simpl in H.
  replace (length p + 1 - 1)%nat with (length p) in H by lia. rewrite take_app_length in H.
  destruct (node_at n p) as [[]|] eqn:Hn; try done. exists p, x, entries. done.
Qed.
Lemma placed_exists n p v : node_at n p = Some v -> placed n p.
Proof.
  destruct p as [|x p] using rev_ind; [by left|]. clear IHp. rewrite node_at_app. intros H. right.
  destruct (node_at n p) as [[]|] eqn:Hp; simpl in H; try done. eauto.
Qed.
Lemma placed_in n p s es : node_at n p = Some (NDir es) -> placed n (p ++ [s]).
Proof. intros H. right. eauto. Qed.

Lemma node_at_put n p v : placed n p -> node_at (put p v n) p = Some v.
Proof.
  revert n. induction p as [|x p IH]; intros n Hpl; [done|].
  apply placed_cons in Hpl as (es & -> & [->|(c & Hc & Hpl)]); simpl.
  - destruct (entry x es); simpl; by rewrite entry_place.
  - rewrite Hc. simpl. rewrite entry_place. by apply IH.
Qed.
Lemma node_at_put_below n p s v : placed n p -> node_at (put p v n) (p ++ s) = node_at v s.
Proof. intros H. by rewrite node_at_app, node_at_put. Qed.

Lemma node_at_remove n p : p <> [] -> node_at (remove p n) p = None.
Proof.
  revert n. induction p as [|x p IH]; intros n Hp; [done|].
  destruct n; [by destruct p| |by destruct p..]. destruct p as [|y p]; simpl.
  - by rewrite entry_unplace.
  - destruct (entry x entries) as [c|] eqn:Hc; simpl; [|by rewrite Hc].
    rewrite entry_place. by apply IH.
Qed.

(** What two trees have at a path, up to the entries of a directory. *)
Definition shape (n : Node) : Node := match n with NDir _ => NDir [] | _ => n end.
Definition alike (a b : option Node) : Prop := shape <$> a = shape <$> b.
#[global] Instance alike_equiv : Equivalence alike.
Proof. unfold alike. split; repeat intro; congruence. Qed.

Lemma put_elsewhere n p v q :
  ~ p `prefix_of` q -> alike (node_at (put p v n) q) (node_at n q).
Proof.
  unfold alike. revert n q. induction p as [|x p IH]; intros n q Hq; [by destruct Hq; apply prefix_nil|].
  destruct n; [done| |done..]. simpl. destruct q as [|y q].
  { by destruct (entry x entries), p. }
  destruct (entry x entries) as [c|] eqn:He.
  - simpl. destruct (decide (x = y)) as [->|Hne].
    + rewrite entry_place, He. apply IH. intros Hp. apply Hq. by apply prefix_cons.
    + by rewrite entry_place_ne.
  - destruct p; [|done]. simpl. destruct (decide (x = y)) as [->|Hne].
    + destruct Hq. apply prefix_cons, prefix_nil.
    + by rewrite entry_place_ne.
Qed.
Lemma remove_elsewhere n p q :
  ~ p `prefix_of` q -> alike (node_at (remove p n) q) (node_at n q).
Proof.
  unfold alike. revert n q. induction p as [|x p IH]; intros n q Hq; [by destruct Hq; apply prefix_nil|].
  destruct n; [by destruct p| |by destruct p..]. destruct q as [|y q].
  { simpl. destruct p; [done|]. by destruct (entry x entries). }
  destruct p as [|z p]; simpl.
  - assert (x <> y). { intros ->. apply Hq, prefix_cons, prefix_nil. } by rewrite entry_unplace_ne.
  - destruct (entry x entries) as [c|] eqn:He; [|done]. simpl. destruct (decide (x = y)) as [->|Hne].
    + rewrite entry_place, He. apply (IH c). intros Hp. apply Hq. by apply prefix_cons.
    + by rewrite entry_place_ne.
Qed.

(** Off the path altogether nothing changes at all. *)
Lemma put_apart n p v q :
  ~ p `prefix_of` q -> ~ q `prefix_of` p -> node_at (put p v n) q = node_at n q.
Proof.
  revert n q. induction p as [|x p IH]; intros n q Hq Hq'; [by destruct Hq; apply prefix_nil|].
  destruct n; [done| |done..]. simpl. destruct q as [|y q]; [by destruct Hq'; apply prefix_nil|].
  destruct (entry x entries) as [c|] eqn:He.
  - simpl. destruct (decide (x = y)) as [->|Hne].
    + rewrite entry_place, He. apply IH; intros Hp; [apply Hq|apply Hq']; by apply prefix_cons.
    + by rewrite entry_place_ne.
  - destruct p; [|done]. simpl. destruct (decide (x = y)) as [->|Hne].
    + destruct Hq. apply prefix_cons, prefix_nil.
    + by rewrite entry_place_ne.
Qed.
Lemma remove_apart n p q :
  ~ p `prefix_of` q -> ~ q `prefix_of` p -> node_at (remove p n) q = node_at n q.
Proof.
  revert n q. induction p as [|x p IH]; intros n q Hq Hq'; [by destruct Hq; apply prefix_nil|].
  destruct n; [by destruct p| |by destruct p..]. destruct q as [|y q]; [by destruct Hq'; apply prefix_nil|].
  destruct p as [|z p]; simpl.
  - assert (x <> y). { intros ->. apply Hq, prefix_cons, prefix_nil. } by rewrite entry_unplace_ne.
  - destruct (entry x entries) as [c|] eqn:He; [|done]. simpl. destruct (decide (x = y)) as [->|Hne].
    + rewrite entry_place, He. apply (IH c); intros Hp; [apply Hq|apply Hq']; by apply prefix_cons.
    + by rewrite entry_place_ne.
Qed.

Lemma put_put n p v w : placed n p -> put p v (put p w n) = put p v n.
Proof.
  revert n. induction p as [|x p IH]; intros n Hpl; [done|].
  apply placed_cons in Hpl as (es & -> & [->|(c & Hc & Hpl)]); simpl.
  - destruct (entry x es); simpl; by rewrite entry_place, place_place.
  - rewrite Hc. simpl. by rewrite entry_place, place_place, IH.
Qed.
(** Putting below a path is putting there the changed node. *)
Lemma put_app n p s v c : node_at n p = Some c -> put (p ++ s) v n = put p (put s v c) n.
Proof.
  revert n. induction p as [|x p IH]; intros n H; simpl in *; [by injection H as ->|].
  destruct n; [done| |done..]. destruct (entry x entries) as [m|]; [|done]. by rewrite (IH m).
Qed.
Lemma put_in n p s v es w :
  placed n p -> put (p ++ [s]) v (put p (NDir es) n) = put p (NDir (place s v es)) n /\
  (entry s es = Some w -> node_at (put p (NDir es) n) (p ++ [s]) = Some w).
Proof.
  intros Hpl. split.
  - rewrite (put_app _ _ _ _ (NDir es)) by (by apply node_at_put). simpl. rewrite put_put by done.
    by destruct (entry s es).
  - rewrite node_at_put_below by done. simpl. by intros ->.
Qed.

(** ** Trees that keep what another has *)

(** Everything of the first tree is in the second; directories may have gained entries. *)
Definition keeps (t0 t : Node) : Prop :=
  forall p n, node_at t0 p = Some n -> exists n', node_at t p = Some n' /\ shape n' = shape n.
#[global] Instance keeps_preorder : PreOrder keeps.
Proof.
  split.
  - intros t p n H. eauto.
  - intros a b c Hab Hbc p n H. apply Hab in H as (n1 & H1 & Hs1).
    apply Hbc in H1 as (n2 & H2 & Hs2). exists n2. split; [done|congruence].
Qed.

Lemma keeps_absent t0 t p : keeps t0 t -> node_at t p = None -> node_at t0 p = None.
Proof.
  intros Hk H. destruct (node_at t0 p) as [n|] eqn:Hn; [|done].
  apply Hk in Hn as (n' & Hn' & _). congruence.
Qed.
Lemma absent_below t p s : node_at t p = None -> node_at t (p ++ s) = None.
Proof. intros H. by rewrite node_at_app, H. Qed.
Lemma absent_prefix t p q n : node_at t p = None -> node_at t q = Some n -> ~ p `prefix_of` q.
Proof. intros Hp Hq [s ->]. by rewrite absent_below in Hq. Qed.

Lemma alike_Some (a b : option Node) n : alike a b -> b = Some n -> exists n', a = Some n' /\ shape n' = shape n.
Proof. unfold alike. intros H ->. destruct a; simpl in *; [|done]. injection H as ?. eauto. Qed.

Lemma keeps_put t0 t p v : node_at t0 p = None -> keeps t0 t -> keeps t0 (put p v t).
Proof.
  intros Hp Hk q n Hq. pose proof (absent_prefix _ _ _ _ Hp Hq) as Hpre. apply Hk in Hq as (n1 & H1 & Hs).
  destruct (alike_Some _ _ _ (put_elsewhere t p v q Hpre) H1) as (n2 & ? & ?).
  exists n2. split; [done|congruence].
Qed.
Lemma keeps_remove t0 t p : node_at t0 p = None -> keeps t0 t -> keeps t0 (remove p t).
Proof.
  intros Hp Hk q n Hq. pose proof (absent_prefix _ _ _ _ Hp Hq) as Hpre. apply Hk in Hq as (n1 & H1 & Hs).
  destruct (alike_Some _ _ _ (remove_elsewhere t p q Hpre) H1) as (n2 & ? & ?).
  exists n2. split; [done|congruence].
Qed.

(** Every file and link of the one, but those at or below some paths, is in the other as
    it was, and every directory is there. *)
Definition keeps_but (own : list path) (t0 t : Node) : Prop :=
  forall p n, Forall (fun s => ~ s `prefix_of` p) own -> node_at t0 p = Some n ->
    exists n', node_at t p = Some n' /\ shape n' = shape n.

(** ** Programs that keep what was there

    [keeping t0 m Q]: from a tree that has everything of [t0], [m] leads to one that
    has, however it ends, and its result satisfies [Q]. *)

Definition keeping {A} (t0 : Node) (m : IO A) (Q : A -> Prop) : Prop :=
  forall dk, keeps t0 dk.(dk_root) ->
    keeps t0 (m dk).2.(dk_root) /\ forall a, (m dk).1 = Ok a -> Q a.

(** The tree without some of its paths. *)
Definition without (own : list path) (t : Node) : Node := foldr remove t own.
Lemma remove_keeps s t : s <> [] -> keeps (remove s t) t.
Proof.
  intros Hs p n Hn. destruct (decide (s `prefix_of` p)) as [[k ->]|Hp].
  - by rewrite absent_below in Hn by (by apply node_at_remove).
  - eapply alike_Some; [symmetry; by apply remove_elsewhere|done].
Qed.
Lemma without_spec own t :
  Forall (fun s => s <> []) own ->
  keeps (without own t) t /\ Forall (fun s => node_at (without own t) s = None) own /\
  keeps_but own t (without own t).
Proof.
  induction 1 as [|s own Hs _ (IH1 & IH2 & IH3)]; simpl.
  - split_and!; [done|by constructor|]. intros p n _ Hn. eauto.
  - pose proof (remove_keeps s (without own t) Hs) as Hk. split_and!; [by etrans|constructor|].
    + by apply node_at_remove.
    + eapply Forall_impl; [exact IH2|]. intros p Hp. by eapply keeps_absent.
    + intros p n Hp Hn. apply Forall_cons in Hp as [Hp Hrest].
      destruct (IH3 p n Hrest Hn) as (n1 & H1 & Hs1).
      destruct (alike_Some _ _ _ (remove_elsewhere (without own t) s p Hp) H1) as (n2 & H2 & Hs2).
      exists n2. split; [done|congruence].
Qed.
(** What keeps every tree without its stages keeps everything but them. *)
Lemma keeping_but {A} (m : IO A) own dk :
  Forall (fun s => s <> []) own ->
  (forall t0, Forall (fun s => node_at t0 s = None) own -> keeping t0 m (fun _ => True)) ->
  keeps_but own dk.(dk_root) (m dk).2.(dk_root).
Proof.
  intros Hne Hm p n Hp Hn. destruct (without_spec own dk.(dk_root) Hne) as (H1 & H2 & H3).
  destruct (H3 p n Hp Hn) as (n1 & Hn1 & Hs1). destruct (Hm _ H2 dk H1) as [Hk _].
  destruct (Hk p n1 Hn1) as (n2 & Hn2 & Hs2). exists n2. split; [done|congruence].
Qed.

Section keeping.
Context (t0 : Node).

Lemma keeping_ret {A} (a : A) (Q : A -> Prop) : Q a -> keeping t0 (io_ret a) Q.
Proof. intros HQ dk Hk. split; [done|]. by intros ? [= <-]. Qed.
Lemma keeping_fail {A} e (Q : A -> Prop) : keeping t0 (io_fail e) Q.
Proof. intros dk Hk. by split. Qed.
Lemma keeping_res {A} (r : res A) (Q : A -> Prop) : (forall a, r = Ok a -> Q a) -> keeping t0 (io_res r) Q.
Proof. intros HQ dk Hk. by split. Qed.
Lemma keeping_bind {A B} (m : IO A) (f : A -> IO B) Q R :
  keeping t0 m Q -> (forall a, Q a -> keeping t0 (f a) R) -> keeping t0 (io_bind m f) R.
Proof.
  intros Hm Hf dk Hk. unfold io_bind. specialize (Hm dk Hk). destruct (m dk) as [[a|e] dk1]; simpl in *.
  - destruct Hm as [Hk1 Ha]. apply (Hf a (Ha a eq_refl)). done.
  - by destruct Hm.
Qed.
Lemma keeping_weaken {A} (m : IO A) (Q R : A -> Prop) :
  keeping t0 m Q -> (forall a, Q a -> R a) -> keeping t0 m R.
Proof. intros Hm H dk Hk. destruct (Hm dk Hk). split; auto. Qed.
Lemma keeping_try {A} (m : IO A) Q :
  keeping t0 m Q -> keeping t0 (try_io m) (fun r => forall a, r = Ok a -> Q a).
Proof.
  intros Hm dk Hk. unfold try_io. specialize (Hm dk Hk). destruct (m dk) as [r dk1]. simpl in *.
  destruct Hm as [Hk1 Ha]. split; [done|]. by intros ? [= <-].
Qed.
Lemma keeping_require b e : keeping t0 (io_require b e) (fun _ => b = true).
Proof. destruct b; [by apply keeping_ret|apply keeping_fail]. Qed.

Lemma keeping_sys {A} what (f : Node -> option (A * Node)) Q :
  (forall t a t', keeps t0 t -> f t = Some (a, t') -> keeps t0 t' /\ Q a) -> keeping t0 (sys what f) Q.
Proof.
  intros H dk Hk. unfold sys.
  destruct (f dk.(dk_root)) as [[a t']|] eqn:Hf; destruct dk.(dk_faults) as [|[] fs]; simpl;
    try (by split); destruct (H _ _ _ Hk Hf); (split; [done|]); by intros ? [= <-].
Qed.
Lemma keeping_observe {A} what (f : Node -> option A) :
  keeping t0 (observe what f) (fun a => exists t, keeps t0 t /\ f t = Some a).
Proof.
  apply keeping_sys. intros t a t' Hk H. destruct (f t) eqn:Hf; [|done]. injection H as <- <-. eauto.
Qed.
Lemma keeping_change what (f : Node -> option Node) (Q : Prop) :
  (forall t t', keeps t0 t -> f t = Some t' -> keeps t0 t' /\ Q) -> keeping t0 (change what f) (fun _ => Q).
Proof.
  intros H. apply keeping_sys. intros t [] t' Hk Hf. destruct (f t) as [r|] eqn:Hr; [|done].
  injection Hf as <-. eauto.
Qed.
Lemma keeping_unless {A} cleanup (body : IO A) Q :
  keeping t0 body Q -> keeping t0 cleanup (fun _ => True) -> keeping t0 (unless_committed cleanup body) Q.
Proof.
  intros Hb Hc. eapply keeping_bind; [by apply keeping_try|]. intros [a|e] Ha.
  - apply keeping_ret. by apply Ha.
  - eapply keeping_bind; [by apply keeping_try|]. intros _ _. apply keeping_fail.
Qed.
Lemma keeping_finally {A} cleanup (body : IO A) Q :
  keeping t0 body Q -> keeping t0 cleanup (fun _ => True) -> keeping t0 (finally cleanup body) Q.
Proof.
  intros Hb Hc. eapply keeping_bind; [by apply keeping_try|]. intros r Hr. simpl in Hr.
  eapply keeping_bind; [by apply keeping_try|]. intros _ _. by apply keeping_res.
Qed.

Lemma absent_spec t p : absent t p = true <-> node_at t p = None.
Proof. unfold absent. by case_match. Qed.
Lemma look_missing t p : look t p = LMissing -> node_at t p = None.
Proof.
  revert t. induction p as [|x p IH]; intros t; [done|]. simpl.
  destruct t; [done| |done..]. destruct (entry x entries); [apply IH|done].
Qed.
Lemma look_found t p n : look t p = LFound n <-> node_at t p = Some n.
Proof.
  revert t. induction p as [|x p IH]; intros t; simpl; [by split; intros [= ->]|].
  destruct t; [by split| |by split..]. destruct (entry x entries); [apply IH|by split].
Qed.

(** What each operation of package os asks and shows. *)
Definition fresh (p : path) : Prop := node_at t0 p = None.
Lemma fresh_below p s : fresh p -> fresh (p ++ s).
Proof. apply absent_below. Qed.

Lemma keeping_Lstat p : keeping t0 (Lstat p) (fun o => o = None -> fresh p).
Proof.
  eapply keeping_weaken; [apply keeping_observe|]. intros o (t & Hk & Ho) ->.
  destruct (look t p) eqn:Hl; try done. eapply keeps_absent; [done|by apply look_missing].
Qed.
Lemma keeping_put_new what (v : Node) p :
  keeping t0 (change what (fun root =>
    if parent_is_dir root p && absent root p then Some (put p v root) else None)) (fun _ => fresh p).
Proof.
  apply keeping_change. intros t t' Hk H. destruct (_ && _) eqn:Hc; [|done]. injection H as <-.
  apply andb_true_iff in Hc as [_ Ha%absent_spec]. pose proof (keeps_absent _ _ _ Hk Ha).
  split; [by apply keeps_put|done].
Qed.
Lemma keeping_ensure_dir p : keeping t0 (ensure_dir p) (fun _ => True).
Proof.
  apply keeping_change. intros t t' Hk H.
  assert (parent_is_dir t p && absent t p = true -> t' = put p (NDir []) t -> keeps t0 t' /\ True) as Hnew.
  { intros [_ Ha%absent_spec]%andb_true_iff ->. split; [|done]. apply keeps_put; [|done].
    by eapply keeps_absent. }
  repeat case_match; simplify_eq; try done; by apply Hnew.
Qed.
Lemma keeping_MkdirAll p : keeping t0 (MkdirAll p) (fun _ => True).
Proof.
  unfold MkdirAll. induction (prefixes p) as [|q l IH]; simpl; [by apply keeping_ret|].
  eapply keeping_bind; [apply keeping_ensure_dir|]. intros _ _. apply IH.
Qed.
Lemma keeping_Write p c : fresh p -> keeping t0 (Write p c) (fun _ => True).
Proof.
  intros Hp. apply keeping_change. intros t t' Hk H. repeat case_match; simplify_eq; try done.
  split; [by apply keeps_put|done].
Qed.
Lemma keeping_WriteFile p c : keeping t0 (WriteFile p c) (fun _ => fresh p).
Proof.
  eapply keeping_bind; [apply keeping_put_new|]. intros [] Hp; simpl in Hp.
  eapply keeping_weaken; [by apply keeping_Write|done].
Qed.
Lemma keeping_Remove p : fresh p -> keeping t0 (Remove p) (fun _ => True).
Proof.
  intros Hp. apply keeping_change. intros t t' Hk H. repeat case_match; simplify_eq; try done;
    (split; [by apply keeps_remove|done]).
Qed.
Lemma keeping_RemoveAll p : fresh p -> keeping t0 (RemoveAll p) (fun _ => True).
Proof.
  intros Hp. apply keeping_change. intros t t' Hk [= <-]. split; [by apply keeps_remove|done].
Qed.
Lemma keeping_Rename src dst : fresh src -> fresh dst -> keeping t0 (Rename src dst) (fun _ => True).
Proof.
  intros Hp Hd. apply keeping_change. intros t t' Hk H. destruct (node_at t src); [|done].
  destruct (_ && _); [|done]. injection H as <-. split; [|done].
  apply keeps_put; [done|]. by apply keeps_remove.
Qed.
Lemma keeping_mkdir_temp `{T : TempNames} fuel dir prefix :
  keeping t0 (mkdir_temp fuel dir prefix) (fun p => fresh p).
Proof.
  induction fuel as [|fuel IH]; simpl; [apply keeping_fail|].
  eapply keeping_bind with (Q := fun _ => True); [by intros dk Hk|]. intros suffix [].
  eapply keeping_bind; [apply keeping_Lstat|]. intros [n|] _; [apply IH|].
  eapply keeping_bind; [apply keeping_put_new|]. intros [] Hp. by apply keeping_ret.
Qed.
Lemma keeping_visit_all {S} l (visit : S -> path -> Node -> IO S) s :
  (forall s rel n, keeping t0 (visit s rel n) (fun _ => True)) ->
  keeping t0 (visit_all l visit s) (fun _ => True).
Proof.
  intros Hv. revert s. induction l as [|[rel n] l IH]; intros s; simpl; [by apply keeping_ret|].
  eapply keeping_bind; [apply Hv|]. intros s' _. eapply keeping_bind with (Q := fun _ => True).
  - destruct (is_dir n); [|by apply keeping_ret]. by eapply keeping_weaken; [apply keeping_observe|].
  - intros _ _. apply IH.
Qed.
Lemma keeping_WalkDir {S} root (visit : S -> path -> Node -> IO S) s :
  (forall s rel n, keeping t0 (visit s rel n) (fun _ => True)) ->
  keeping t0 (WalkDir root visit s) (fun _ => True).
Proof.
  intros Hv. eapply keeping_bind; [apply keeping_Lstat|]. intros [n|] _; [|apply keeping_fail].
  by apply keeping_visit_all.
Qed.
End keeping.

(** ** Runs that succeed *)

Section runs.
Context {A B : Type}.

Lemma io_bind_ok (m : IO A) (f : A -> IO B) dk b dk' :
  io_bind m f dk = (Ok b, dk') -> exists a dk1, m dk = (Ok a, dk1) /\ f a dk1 = (Ok b, dk').
Proof. unfold io_bind. destruct (m dk) as [[a|e] dk1]; [|done]. eauto. Qed.
Lemma io_bind_run (m : IO A) (f : A -> IO B) dk a dk1 : m dk = (Ok a, dk1) -> io_bind m f dk = f a dk1.
Proof. unfold io_bind. by intros ->. Qed.
Lemma observe_ok what (f : Node -> option A) dk a dk' :
  observe what f dk = (Ok a, dk') -> f dk.(dk_root) = Some a /\ dk'.(dk_root) = dk.(dk_root).
Proof.
  unfold observe, sys.
  destruct (f dk.(dk_root)) as [x|]; destruct dk.(dk_faults) as [|[] fs]; simpl; try done; by intros [= <- <-].
Qed.
Lemma observe_run what (f : Node -> option A) dk a :
  dk.(dk_faults) = [] -> f dk.(dk_root) = Some a -> observe what f dk = (Ok a, dk).
Proof. destruct dk as [root fs d c]. simpl. intros -> H. unfold observe, sys. simpl. by rewrite H. Qed.
Lemma change_ok what (f : Node -> option Node) dk dk' :
  change what f dk = (Ok (), dk') -> f dk.(dk_root) = Some dk'.(dk_root).
Proof.
  unfold change, sys.
  destruct (f dk.(dk_root)) as [x|]; destruct dk.(dk_faults) as [|[] fs]; simpl; try done; by intros [= <-].
Qed.
Lemma io_res_ok (r : res A) dk a dk' : io_res r dk = (Ok a, dk') -> r = Ok a /\ dk' = dk.
Proof. by intros [= -> ->]. Qed.
Lemma io_ret_ok (x : A) dk a dk' : io_ret x dk = (Ok a, dk') -> a = x /\ dk' = dk.
Proof. by intros [= -> ->]. Qed.
Lemma io_require_ok b e dk dk' : io_require b e dk = (Ok (), dk') -> b = true /\ dk' = dk.
Proof. destruct b; [|done]. by intros [= ->]. Qed.
Lemma try_io_ok (m : IO A) dk r dk' : try_io m dk = (Ok r, dk') -> m dk = (r, dk').
Proof. unfold try_io. destruct (m dk). by intros [= -> ->]. Qed.
Lemma unless_committed_ok cleanup (body : IO A) dk a dk' :
  unless_committed cleanup body dk = (Ok a, dk') -> body dk = (Ok a, dk').
Proof.
  unfold unless_committed, io_bind, try_io. destruct (body dk) as [[x|e] dk1]; [by intros [= -> ->]|].
  by destruct (cleanup dk1) as [[]].
Qed.
Lemma finally_ok cleanup (body : IO A) dk a dk' :
  finally cleanup body dk = (Ok a, dk') ->
  exists dk1, body dk = (Ok a, dk1) /\ exists r, cleanup dk1 = (r, dk').
Proof.
  unfold finally, io_bind, try_io. destruct (body dk) as [r dk1]. destruct (cleanup dk1) as [r2 dk2] eqn:Hc.
  intros [= -> ->]. eauto.
Qed.
End runs.

(** What reads only. *)
Definition io_reads {A} (m : IO A) : Prop := forall dk, (m dk).2.(dk_root) = dk.(dk_root).
Lemma reads_observe {A} what (f : Node -> option A) : io_reads (observe what f).
Proof.
  intros dk. unfold observe, sys.
  destruct (f dk.(dk_root)); by destruct dk.(dk_faults) as [|[] fs].
Qed.
Lemma reads_bind {A B} (m : IO A) (f : A -> IO B) :
  io_reads m -> (forall a, io_reads (f a)) -> io_reads (io_bind m f).
Proof.
  intros Hm Hf dk. unfold io_bind. pose proof (Hm dk) as H. destruct (m dk) as [[a|e] dk1]; simpl in *; [|done].
  rewrite <- H. apply Hf.
Qed.
Lemma reads_require b e : io_reads (io_require b e).
Proof. by destruct b. Qed.
Lemma reads_visit_all {S} l (visit : S -> path -> Node -> IO S) s :
  (forall s rel n, io_reads (visit s rel n)) -> io_reads (visit_all l visit s).
Proof.
  intros Hv. revert s. induction l as [|[rel n] l IH]; intros s; simpl; [done|].
  apply reads_bind; [apply Hv|]. intros s'. apply reads_bind; [|intros ?; apply IH].
  destruct (is_dir n); [apply reads_observe|done].
Qed.
Lemma io_reads_root {A} (m : IO A) dk r dk' : io_reads m -> m dk = (r, dk') -> dk'.(dk_root) = dk.(dk_root).
Proof. intros H Hr. specialize (H dk). by rewrite Hr in H. Qed.

(** Takes the successful run in [H] apart. *)
Ltac io_ok1 :=
  match goal with
  | H : io_bind _ _ _ = (Ok _, _) |- _ => apply io_bind_ok in H as (? & ? & ? & H); cbv beta in H
  | H : io_ret _ _ = (Ok _, _) |- _ => apply io_ret_ok in H as [? ?]; try subst
  | H : io_fail _ _ = (Ok _, _) |- _ => discriminate H
  | H : io_res _ _ = (Ok _, _) |- _ => apply io_res_ok in H as [? ?]; try subst
  | H : io_require _ _ _ = (Ok ?x, _) |- _ => destruct x; apply io_require_ok in H as [? ?]; try subst
  | H : observe _ _ _ = (Ok _, _) |- _ => apply observe_ok in H as [? ?]
  | H : change _ _ _ = (Ok ?x, _) |- _ => destruct x; apply change_ok in H
  end.
Ltac io_ok := repeat io_ok1.

Lemma Lstat_ok p dk o dk' :
  Lstat p dk = (Ok o, dk') -> o = node_at dk.(dk_root) p /\ dk'.(dk_root) = dk.(dk_root).
Proof.
  unfold Lstat. intros H. io_ok. split; [|done]. case_match eqn:Hl; simplify_eq.
  - symmetry. by apply look_found.
  - symmetry. by apply look_missing.
Qed.
Lemma Lstat_run p dk n : dk.(dk_faults) = [] -> node_at dk.(dk_root) p = Some n -> Lstat p dk = (Ok (Some n), dk).
Proof. intros Hf H. apply observe_run; [done|]. apply look_found in H. by rewrite H. Qed.
Lemma created what v p dk dk' :
  change what (fun root =>
    if parent_is_dir root p && absent root p then Some (put p v root) else None) dk = (Ok (), dk') ->
  placed dk.(dk_root) p /\ node_at dk.(dk_root) p = None /\ dk'.(dk_root) = put p v dk.(dk_root).
Proof.
  intros H. apply change_ok in H. destruct (_ && _) eqn:Hc; [|done]. injection H as <-.
  apply andb_true_iff in Hc as [Hp%placed_parent Ha%absent_spec]. done.
Qed.
Lemma WriteFile_ok p c dk dk' :
  WriteFile p c dk = (Ok (), dk') ->
  placed dk.(dk_root) p /\ node_at dk.(dk_root) p = None /\ dk'.(dk_root) = put p (NFile c) dk.(dk_root).
Proof.
  unfold WriteFile. intros ([] & dk1 & (Hp & Ha & H1)%created & H2)%io_bind_ok.
  apply change_ok in H2. rewrite H1, node_at_put in H2 by done. injection H2 as <-.
  split_and!; [done..|]. by apply put_put.
Qed.
Lemma Rename_ok src dst dk dk' :
  Rename src dst dk = (Ok (), dk') ->
  exists n, node_at dk.(dk_root) src = Some n /\ replaces n (node_at dk.(dk_root) dst) = true /\
    placed dk.(dk_root) dst /\ (is_dir n = true -> ~ src `prefix_of` dst) /\
    dk'.(dk_root) = put dst n (remove src dk.(dk_root)).
Proof.
  intros H%change_ok. destruct (node_at _ src) as [n|] eqn:Hn; [|done].
  destruct (_ && _) eqn:Hc; [|done]. injection H as <-.
  rewrite !andb_true_iff, negb_true_iff in Hc.
  destruct Hc as [[Hp%placed_parent Ha] Hpre]. exists n. split_and!; try done.
  intros Hd. rewrite Hd in Hpre. by apply bool_decide_eq_false in Hpre.
Qed.
Lemma mkdir_temp_ok `{T : TempNames} fuel dir prefix dk p dk' :
  mkdir_temp fuel dir prefix dk = (Ok p, dk') ->
  exists name, p = dir ++ [name] /\ placed dk.(dk_root) p /\ node_at dk.(dk_root) p = None /\
    dk'.(dk_root) = put p (NDir []) dk.(dk_root).
Proof.
  revert dk. induction fuel as [|fuel IH]; intros dk; simpl; [done|]. intros H.
  apply io_bind_ok in H as (suffix & dk1 & [= <- <-] & H).
  apply io_bind_ok in H as (o & dk2 & [-> Hd]%Lstat_ok & H). simpl in *.
  destruct (node_at _ _) as [n|] eqn:Hn.
  - apply IH in H as (name & -> & H). rewrite Hd in H. eauto.
  - apply io_bind_ok in H as ([] & dk3 & (Hp & Ha & Hd3)%created & H). io_ok. rewrite Hd in *. eauto.
Qed.

(** ** Paths that do not meet *)

Definition apart (p q : path) : Prop := ~ p `prefix_of` q /\ ~ q `prefix_of` p.
Lemma apart_sym p q : apart p q -> apart q p.
Proof. by intros []. Qed.
Lemma prefix_of_app_inv (p q s : path) : p `prefix_of` q ++ s -> p `prefix_of` q \/ q `prefix_of` p.
Proof.
  revert q. induction p as [|x p IH]; intros q; [left; apply prefix_nil|].
  destruct q as [|y q]; [right; apply prefix_nil|]. simpl. intros H. pose proof (prefix_cons_inv_1 _ _ _ _ H) as ->.
  apply prefix_cons_inv_2 in H. destruct (IH q H); [left|right]; by apply prefix_cons.
Qed.
Lemma apart_app p q s t : apart p q -> apart (p ++ s) (q ++ t).
Proof.
  intros [H1 H2]. split; intros H.
  - assert (p `prefix_of` q ++ t) as [?|?]%prefix_of_app_inv; [|done..].
    etrans; [|exact H]. by apply prefix_app_r.
  - assert (q `prefix_of` p ++ s) as [?|?]%prefix_of_app_inv; [|done..].
    etrans; [|exact H]. by apply prefix_app_r.
Qed.
Lemma apart_app_l p q s : apart p q -> apart (p ++ s) q.
Proof. intros H. rewrite <- (app_nil_r q). by apply apart_app. Qed.

(** What exists and what does not, with neither below the other. *)
Lemma apart_absent t u p n :
  node_at t u = Some n -> node_at t p = None -> ~ u `prefix_of` p -> apart u p.
Proof. intros Hu Hp H. split; [done|]. by eapply absent_prefix. Qed.

Lemma dir_above n p s m : node_at n (p ++ s) = Some m -> is_dir m = true ->
  exists es, node_at n p = Some (NDir es).
Proof.
  rewrite node_at_app. destruct (node_at n p) as [k|] eqn:Hk; [|done]. simpl. intros H Hm.
  destruct s as [|y s]; simpl in H.
  - injection H as ->. destruct m; try done. eauto.
  - destruct k; try done. eauto.
Qed.

Lemma prefixes_snoc p x : prefixes (p ++ [x]) = prefixes p ++ [p ++ [x]].
Proof.
  unfold prefixes. rewrite length_app. simpl. rewrite seq_app, fmap_app. simpl. f_equal.
  - apply list_fmap_ext. intros i n [-> Hi]%lookup_seq. rewrite take_app_le by lia. done.
  - f_equal. rewrite take_ge; [done|]. rewrite length_app. simpl. lia.
Qed.
Lemma elem_of_prefixes p q : q ∈ prefixes p -> exists s, p = q ++ s.
Proof. unfold prefixes. intros (n & -> & _)%list_elem_of_fmap. exists (drop n p). by rewrite take_drop. Qed.
Lemma ensure_dirs_app ps qs dk dk' :
  ensure_dirs (ps ++ qs) dk = (Ok (), dk') ->
  exists dk1, ensure_dirs ps dk = (Ok (), dk1) /\ ensure_dirs qs dk1 = (Ok (), dk').
Proof.
  revert dk. induction ps as [|p ps IH]; intros dk H; simpl in *; [by exists dk|].
  apply io_bind_ok in H as ([] & dk1 & H1 & H). apply IH in H as (dk2 & H2 & H3).
  exists dk2. split; [|done]. by rewrite (io_bind_run _ _ _ _ _ H1).
Qed.
Lemma ensure_existing ps dk dk' :
  (forall q, q ∈ ps -> exists es, node_at dk.(dk_root) q = Some (NDir es)) ->
  ensure_dirs ps dk = (Ok (), dk') -> dk'.(dk_root) = dk.(dk_root).
Proof.
  revert dk. induction ps as [|p ps IH]; intros dk Hps H; simpl in *; [by injection H as <-|].
  apply io_bind_ok in H as ([] & dk1 & H1%change_ok & H).
  destruct (Hps p) as [es Hp]; [left|]. rewrite Hp in H1. simpl in H1. injection H1 as H1.
  rewrite (IH dk1); [done| |done]. intros q Hq. rewrite <- H1. apply Hps. by right.
Qed.
Lemma ensure_dir_ok p dk dk' :
  ensure_dir p dk = (Ok (), dk') ->
  dk'.(dk_root) = dk.(dk_root) \/
  (node_at dk.(dk_root) p = None /\ placed dk.(dk_root) p /\ dk'.(dk_root) = put p (NDir []) dk.(dk_root)).
Proof.
  intros H%change_ok. destruct (mbind _ _) as [n|] eqn:Hb.
  - left. by destruct n; simplify_eq.
  - destruct (_ && _) eqn:Hc; [|done]. injection H as <-.
    apply andb_true_iff in Hc as [Hp%placed_parent Ha%absent_spec]. by right.
Qed.
(** One new directory below one that exists. *)
Lemma MkdirAll_new q x dk dk' es :
  MkdirAll (q ++ [x]) dk = (Ok (), dk') -> node_at dk.(dk_root) q = Some (NDir es) ->
  (node_at dk.(dk_root) (q ++ [x]) = None -> dk'.(dk_root) = put (q ++ [x]) (NDir []) dk.(dk_root)) /\
  (forall es', node_at dk.(dk_root) (q ++ [x]) = Some (NDir es') -> dk'.(dk_root) = dk.(dk_root)).
Proof.
  unfold MkdirAll. rewrite prefixes_snoc. intros H Hq. apply ensure_dirs_app in H as (dk1 & H1 & H2).
  apply ensure_existing in H1.
  2: { intros r [s ->]%elem_of_prefixes. by eapply dir_above. }
  simpl in H2. apply io_bind_ok in H2 as ([] & dk2 & H2%change_ok & [= ->]). rewrite H1 in H2. split.
  - intros Hn. rewrite Hn in H2. simpl in H2. destruct (_ && _); [|done]. by injection H2.
  - intros es' Hn. rewrite Hn in H2. simpl in H2. by injection H2.
Qed.
(** Making a directory and those above it leaves alone what it does not pass through. *)
Lemma MkdirAll_elsewhere p dk dk' u n :
  MkdirAll p dk = (Ok (), dk') -> node_at dk.(dk_root) u = Some n -> ~ u `prefix_of` p ->
  node_at dk'.(dk_root) u = Some n.
Proof.
  unfold MkdirAll. intros H Hu Hp.
  assert (forall q, q ∈ prefixes p -> ~ u `prefix_of` q) as Hq.
  { intros q [s ->]%elem_of_prefixes Hq. apply Hp. by apply prefix_app_r. }
  revert dk H Hu Hq. induction (prefixes p) as [|q l IH]; intros dk H Hu Hq; simpl in H.
  - by injection H as <-.
  - apply io_bind_ok in H as ([] & dk1 & H1%ensure_dir_ok & H). apply (IH dk1 H); [|intros r Hr; apply Hq; by right].
    destruct H1 as [->|(Ha & _ & ->)]; [done|]. rewrite put_apart; [done|by eapply absent_prefix|].
    apply Hq. left.
Qed.
Lemma MkdirAll_dir p dk dk' :
  MkdirAll p dk = (Ok (), dk') -> p <> [] ->
  exists n, node_at dk'.(dk_root) p = Some n.
Proof.
  destruct p as [|x q _] using rev_ind; [done|]. unfold MkdirAll. rewrite prefixes_snoc.
  intros (dk1 & _ & H)%ensure_dirs_app _. simpl in H.
  apply io_bind_ok in H as ([] & dk2 & H%change_ok & [= ->]).
  destruct (node_at dk1.(dk_root) (q ++ [x])) as [n|] eqn:Hn; simpl in H.
  - exists n. case_match; [|by destruct (_ && _) eqn:?; simplify_eq; unfold absent in *; rewrite Hn, andb_false_r in *].
    case_match; simplify_eq. congruence.
  - destruct (_ && _) eqn:Hc; [|done]. injection H as <-. eexists. apply node_at_put.
    by apply andb_true_iff in Hc as [Hp%placed_parent _].
Qed.

Lemma placed_remove t src p : placed t p -> ~ src `prefix_of` p -> placed (remove src t) p.
Proof.
  intros [->|(q & x & es & -> & Hq)] Hpre; [by left|].
  assert (~ src `prefix_of` q) as Hpre' by (intros ?; apply Hpre; by apply prefix_app_r).
  destruct (alike_Some _ _ _ (remove_elsewhere t src q Hpre') Hq) as (n & Hn & Hs).
  destruct n; try done. right. eauto.
Qed.
(** Afterwards the renamed node is at its new place, and what met neither is as it was. *)
Lemma Rename_moved src dst dk dk' n :
  Rename src dst dk = (Ok (), dk') -> node_at dk.(dk_root) src = Some n -> node_at dk.(dk_root) dst = None ->
  node_at dk'.(dk_root) dst = Some n /\
  (forall q, apart src q -> apart dst q -> node_at dk'.(dk_root) q = node_at dk.(dk_root) q).
Proof.
  intros (n' & Hn' & _ & Hp & Hpre & ->)%Rename_ok Hn Hd. rewrite Hn in Hn'. injection Hn' as <-.
  assert (~ src `prefix_of` dst).
  { destruct (is_dir n) eqn:Hdir; [by apply Hpre|]. intros Hs.
    destruct Hp as [->|(q & x & es & -> & Hq)]; [done|]. destruct Hs as [k Hk].
    destruct k as [|y k _] using rev_ind; [rewrite app_nil_r in Hk; congruence|].
    rewrite app_assoc in Hk. apply app_inj_tail in Hk as [-> _].
    apply dir_above in Hq as [es' Hq]; [|done]. rewrite Hn in Hq. by injection Hq as ->. }
  split; [by apply node_at_put, placed_remove|].
  intros q [H1 H2] [H3 H4]. by rewrite put_apart, remove_apart.
Qed.

(** Below a new name nothing existed, so a path whose parent existed is not below it. *)
Lemma new_above t s p : node_at t s = None -> is_Some (node_at t (parent p)) -> s `prefix_of` p -> s = p.
Proof.
  intros Hs [n Hn] Hpre. destruct p as [|x p _] using rev_ind.
  { apply prefix_nil_inv in Hpre as ->. done. }
  unfold parent in Hn. rewrite length_app in Hn. simpl in Hn.
  replace (length p + 1 - 1)%nat with (length p) in Hn by lia. rewrite take_app_length in Hn.
  pose proof (absent_prefix _ _ _ _ Hs Hn) as Hno. destruct Hpre as [k Hk].
  destruct k as [|y k _] using rev_ind; [by rewrite app_nil_r in Hk|].
  rewrite app_assoc in Hk. apply app_inj_tail in Hk as [-> _]. destruct Hno. by apply prefix_app_r.
Qed.
Lemma new_apart t s p :
  node_at t s = None -> is_Some (node_at t (parent p)) -> s <> p -> ~ p `prefix_of` s -> apart s p.
Proof. intros Hs Hp Hne Hno. split; [|done]. intros H. by apply Hne, (new_above t). Qed.
(** Nothing is below a file. *)
Lemma file_apart t f c p :
  node_at t f = Some (NFile c) -> node_at t p = None -> placed t p -> apart f p.
Proof.
  intros Hf Hp Hpl. split; [|by eapply absent_prefix]. intros Hpre.
  destruct Hpl as [->|(q & x & es & -> & Hq)]; [done|].
  destruct Hpre as [k Hk]. destruct k as [|y k _] using rev_ind.
  - rewrite app_nil_r in Hk. congruence.
  - rewrite app_assoc in Hk. apply app_inj_tail in Hk as [-> _].
    apply dir_above in Hq as [es' Hq]; [|done]. congruence.
Qed.
Lemma prefix_parent p q : ~ p `prefix_of` q -> ~ p `prefix_of` parent q.
Proof. intros H Hp. apply H. etrans; [exact Hp|]. unfold parent. apply prefix_take. Qed.
Lemma prefix_snoc (p q : path) x : p `prefix_of` q ++ [x] -> p `prefix_of` q \/ p = q ++ [x].
Proof.
  intros [k Hk]. destruct k as [|y k _] using rev_ind; [right; by rewrite app_nil_r in Hk|].
  rewrite app_assoc in Hk. apply app_inj_tail in Hk as [-> _]. left. by apply prefix_app_r.
Qed.
(** A new name in the parent of a path that is not below [u]. *)
Lemma temp_apart t u n q name :
  node_at t u = Some n -> node_at t (q ++ [name]) = None -> ~ u `prefix_of` q -> apart u (q ++ [name]).
Proof.
  intros Hu Hs Hq. eapply apart_absent; [done..|]. intros [H|H]%prefix_snoc; [done|]. congruence.
Qed.

Lemma RemoveAll_cases p dk r dk' :
  RemoveAll p dk = (r, dk') -> dk'.(dk_root) = dk.(dk_root) \/ dk'.(dk_root) = remove p dk.(dk_root).
Proof.
  unfold RemoveAll, change, sys. destruct dk.(dk_faults) as [|[] fs]; simpl; intros [= _ <-]; auto.
Qed.
