(* ===== verification/Backup.v ===== *)
(** * Backup and restore (internal/backup, internal/secretkey)

    Making a bundle of the database and the uploads, verifying one and restoring it,
    over the file system of [Files].  SQLite is a parameter: what VACUUM INTO writes
    of the open database, and what the two PRAGMAs and the query of the version table
    answer for the contents of a file; so are JSON and the digests ([Env]).  Paths are
    given as [filepath.Abs] makes them. *)

From S2P Require Import Prelude.
From S2P Require Import GoStr.
From S2P Require Import GoCsv.
From S2P Require Import GoTime.
From S2P Require Import Schema.
From S2P Require Import Eff.
From S2P Require Import Files.
From S2P Require Import Demo.
From S2P Require Import Migrate.

Local Open Scope Z_scope.

(** ** manifest.go *)

Definition FormatVersion : Z := 1.
Definition databaseFilename : string := "database.sqlite".
Definition uploadsDirectory : string := "uploads".
Definition manifestFilename : string := "manifest.json".
Definition uploadsConsistency : string := "filesystem snapshot after database; not transactionally atomic".

Record SourceMetadata := MkSource {
  so_DatabaseType : string; so_SchemaVersion : Z; so_SchemaDirty : bool;
  so_ApplicationVersion : string; so_Commit : string; so_BuildState : string }.
Record FileArtifact := MkArtifact { fa_Path : string; fa_SHA256 : string; fa_Size : Z }.
Record UploadsSnapshot := MkUploads {
  up_Included : bool; up_Consistency : string; up_FileCount : Z; up_TotalBytes : Z;
  up_Files : list FileArtifact }.
Record Manifest := MkManifest {
  mf_FormatVersion : Z; mf_CreatedAt : time; mf_Source : SourceMetadata; mf_Database : FileArtifact;
  mf_SecretFingerprint : string; mf_Uploads : UploadsSnapshot }.

#[global] Instance artifact_eq_dec : EqDecision FileArtifact.
Proof. solve_decision. Defined.

(** What the package calls and does not define. *)
Class BackupLib := {
  (** [PRAGMA quick_check] and [PRAGMA foreign_key_check]: the rows, if there is no error *)
  quick_check : string -> option (list string);
  foreign_key_check : string -> option (list string);
  (** [SELECT version, dirty FROM schema_migrations LIMIT 1] *)
  version_query : string -> option (option (Z * bool));
  (** [json.MarshalIndent], and the decoder that refuses unknown fields and trailing data *)
  manifest_json : Manifest -> string;
  manifest_decode : string -> option Manifest;
  (** the build: version, commit and state *)
  build_info : string * string * string }.

Section backup.
Context `{E : Env} {T : TempNames} {B : BackupLib}.

(** ** secretkey/fingerprint.go *)

Definition fingerprintDomain : string := "owl-invites-secret-fingerprint:v1".
Definition fingerprint_prefix : string := "oi-secret-v1:".
Definition Fingerprint (secret : string) : string :=
  fingerprint_prefix +:+
  hex_encode (of_bytes (take 16 (to_bytes (hmac_sha256 secret fingerprintDomain)))).

(** ** files.go *)

(** The digest of what was read. *)
Definition artifact (name contents : string) : FileArtifact :=
  MkArtifact name (hex_encode (sha256 contents)) (Z.of_nat (length (to_bytes contents))).
Definition hashFile (p : path) (manifestPath : string) : IO FileArtifact :=
  contents <~ ReadFile p ;;
  io_ret (artifact manifestPath contents).

Definition copyRegularFile (source destination : path) : IO () :=
  info <~ Stat source ;;
  match info with
  | NFile contents =>
      CreateExcl destination ~;;
      unless_committed (Remove destination)
        (Write destination contents ~;; sync ~;; sync)
  | _ => io_fail (EText "backup only supports regular files")
  end.

Definition copy_visit (source destination : path) (_ : ()) (relative : path) (entry : Node) : IO () :=
  if bool_decide (relative = []) then io_ret () else
  let target := destination ++ relative in
  match entry with
  | NLink _ => io_fail (EText "uploads snapshot refuses symbolic link")
  | NDir _ => MkdirAll target
  | NOther => io_fail (EText "uploads snapshot refuses non-regular file")
  | NFile _ => copyRegularFile (source ++ relative) target
  end.
Definition copyTree (source destination : path) : IO () :=
  info <~ Stat source ;;
  if negb (is_dir info) then io_fail (EText "uploads path is not a directory") else
  MkdirAll destination ~;;
  WalkDir source (copy_visit source destination) ().

(** [filepath.ToSlash] of a relative path *)
Definition slashed (relative : path) : string := join relative "/".
Definition add_artifact (a : FileArtifact) (s : UploadsSnapshot) : UploadsSnapshot :=
  MkUploads s.(up_Included) s.(up_Consistency) (s.(up_FileCount) + 1) (s.(up_TotalBytes) + a.(fa_Size))
    (s.(up_Files) ++ [a]).
Definition inventory_visit (root : path) (snapshot : UploadsSnapshot) (relative : path) (entry : Node)
    : IO UploadsSnapshot :=
  match entry with
  | NLink _ => io_fail (EText "backup bundle contains symbolic link")
  | NDir _ => io_ret snapshot
  | NOther => io_fail (EText "backup bundle contains non-regular upload")
  | NFile _ =>
      a <~ hashFile (root ++ relative) (slashed relative) ;;
      io_ret (add_artifact a snapshot)
  end.
Definition empty_snapshot : UploadsSnapshot := MkUploads true uploadsConsistency 0 0 [].
Definition inventoryUploads (root : path) : IO UploadsSnapshot :=
  WalkDir root (inventory_visit root) empty_snapshot.

Definition uploadsEqual (expected actual : UploadsSnapshot) : bool :=
  Bool.eqb expected.(up_Included) actual.(up_Included) &&
  bool_decide (expected.(up_Consistency) = actual.(up_Consistency)) &&
  (expected.(up_FileCount) =? actual.(up_FileCount)) &&
  (expected.(up_TotalBytes) =? actual.(up_TotalBytes)) &&
  bool_decide (expected.(up_Files) = actual.(up_Files)).

(** ** sqlite.go: checks *)

Definition requireAbsent (p : path) : IO () :=
  o <~ Lstat p ;;
  match o with
  | Some _ => io_fail (EText "refusing to overwrite existing path")
  | None => io_ret ()
  end.
Definition requireRegularFile (p : path) : IO () :=
  o <~ Lstat p ;;
  match o with
  | Some (NFile _) => io_ret ()
  | _ => io_fail (EText "expected a regular file")
  end.

(** [want] of the three entries: whether it is a directory. *)
Definition layout : list (string * bool) :=
  [(manifestFilename, false); (databaseFilename, false); (uploadsDirectory, true)].
Definition entry_expected (x : string * Node) : bool :=
  match entry x.1 layout with
  | Some expectDirectory =>
      match x.2 with NLink _ => false | n => Bool.eqb (is_dir n) expectDirectory end
  | None => false
  end.
Definition validateBundleLayout (bundle : path) : IO () :=
  info <~ Lstat bundle ;;
  match info with
  | Some (NDir _) =>
      entries <~ ReadDir bundle ;;
      if negb (Z.of_nat (length entries) =? Z.of_nat (length layout))
      then io_fail (EText "backup bundle contains unexpected top-level entries") else
      io_require (forallb entry_expected entries) (EText "backup bundle has invalid top-level layout")
  | Some _ => io_fail (EText "backup bundle must be a directory, not a symbolic link")
  | None => io_fail (EInternal "lstat")
  end.

Definition is_hex (c : ascii) : bool :=
  let n := byte_val c in
  (48 <=? n) && (n <=? 57) || (97 <=? n) && (n <=? 102) || (65 <=? n) && (n <=? 70).
(** [hex.DecodeString] succeeds. *)
Definition hex_ok (s : string) : bool :=
  Nat.even (length (to_bytes s)) && forallb is_hex (to_bytes s).
Definition size (s : string) : Z := Z.of_nat (length (to_bytes s)).
Definition has_prefix (s p : string) : bool := bytes_prefix (to_bytes p) (to_bytes s).
Definition zero_time : time := - 62135596800 * ns_per_sec.

Definition upload_metadata_ok (file : FileArtifact) : bool :=
  let clean := Clean file.(fa_Path) in
  negb (bool_decide (file.(fa_Path) = "")) && bool_decide (clean = file.(fa_Path)) &&
  negb (has_prefix clean "../") && negb (is_abs file.(fa_Path)) &&
  (size file.(fa_SHA256) =? 64) && (0 <=? file.(fa_Size)).
Fixpoint check_uploads (files : list FileArtifact) : res () :=
  match files with
  | [] => Ok ()
  | file :: rest =>
      if negb (upload_metadata_ok file) then Err (EText "invalid upload artifact metadata")
      else if negb (hex_ok file.(fa_SHA256)) then Err (EText "invalid upload checksum")
      else check_uploads rest
  end.
Definition validateManifest (m : Manifest) : res () :=
  if negb (m.(mf_FormatVersion) =? FormatVersion) then Err (EText "unsupported backup format version")
  else if (m.(mf_CreatedAt) =? zero_time)
          || negb (bool_decide (m.(mf_Source).(so_DatabaseType) = "sqlite"))
          || m.(mf_Source).(so_SchemaDirty)
       then Err (EText "invalid or dirty SQLite backup manifest")
  else if negb (bool_decide (m.(mf_Database).(fa_Path) = databaseFilename))
          || (m.(mf_Database).(fa_Size) <? 0) || negb (size m.(mf_Database).(fa_SHA256) =? 64)
       then Err (EText "invalid database artifact metadata")
  else if negb (hex_ok m.(mf_Database).(fa_SHA256)) then Err (EText "invalid database checksum")
  else if negb (has_prefix m.(mf_SecretFingerprint) fingerprint_prefix)
          || negb (size m.(mf_SecretFingerprint) =? size fingerprint_prefix + 32)
       then Err (EText "invalid secret fingerprint metadata")
  else if negb (hex_ok (of_bytes (drop (length (to_bytes fingerprint_prefix))
                                    (to_bytes m.(mf_SecretFingerprint)))))
       then Err (EText "invalid secret fingerprint metadata")
  else if negb m.(mf_Uploads).(up_Included)
          || negb (bool_decide (m.(mf_Uploads).(up_Consistency) = uploadsConsistency))
          || negb (m.(mf_Uploads).(up_FileCount) =? Z.of_nat (length m.(mf_Uploads).(up_Files)))
       then Err (EText "invalid uploads metadata")
  else check_uploads m.(mf_Uploads).(up_Files).

(** The version and the dirty flag of a database file. *)
Definition inspect (contents : string) : res (Z * bool) :=
  match quick_check contents with
  | None => Err (EInternal "quick_check")
  | Some rows =>
      if negb (forallb (fun r => bool_decide (r = "ok")) rows)
      then Err (EText "quick_check reported corruption") else
      match foreign_key_check contents with
      | None => Err (EInternal "foreign_key_check")
      | Some (_ :: _) => Err (EText "foreign_key_check reported a violation")
      | Some [] =>
          match version_query contents with
          | None => Err (EInternal "schema_migrations")
          | Some None => Ok (0, false)
          | Some (Some v) => Ok v
          end
      end
  end.
Definition inspectSQLite (p : path) : IO (Z * bool) :=
  contents <~ ReadFile p ;;
  io_res (inspect contents).

Definition manifest_text (m : Manifest) : string := manifest_json m +:+ nl.
Definition writeManifest (p : path) (m : Manifest) : IO () := WriteFile p (manifest_text m).
Definition maxManifest : Z := 2 ^ 20.
Definition readManifest (p : path) : IO Manifest :=
  info <~ Stat p ;;
  io_require (negb (match info with NFile c => maxManifest <? size c | _ => false end))
    (EText "manifest exceeds 1 MiB") ~;;
  contents <~ ReadFile p ;;
  match manifest_decode contents with
  | Some m => io_ret m
  | None => io_fail (EInternal "decode manifest")
  end.

(** ** sqlite.go: the operations *)

Definition io_now : IO time := fun dk =>
  (Ok (clock dk.(dk_clock)), MkDisk dk.(dk_root) dk.(dk_faults) dk.(dk_draws) (S dk.(dk_clock))).

Section create.
(** The open database: the state of its migrations, and what VACUUM INTO writes. *)
Context {St : Type} `{L : !MigrateLib St}.
Variable db : St.
Variable snapshot : string.

(** The part between the making of the stage and its renaming. *)
Definition fill_stage (status : MigrationStatus) (uploadsDir stage destination : path) (secret : string)
    : IO Manifest :=
  let databasePath := stage ++ [databaseFilename] in
  WriteFile databasePath snapshot ~;;
  Chmod databasePath ~;;
  v <~ inspectSQLite databasePath ;;
  io_require (negb (negb (v.1 =? status.(ms_Current)) || negb (Bool.eqb v.2 status.(ms_Dirty))))
    (EText "snapshot schema state changed") ~;;
  databaseArtifact <~ hashFile databasePath databaseFilename ;;
  let uploadsPath := stage ++ [uploadsDirectory] in
  copyTree uploadsDir uploadsPath ~;;
  uploads <~ inventoryUploads uploadsPath ;;
  t <~ io_now ;;
  let manifest := MkManifest FormatVersion t
    (MkSource "sqlite" v.1 v.2 build_info.1.1 build_info.1.2 build_info.2)
    databaseArtifact (Fingerprint secret) uploads in
  writeManifest (stage ++ [manifestFilename]) manifest ~;;
  requireAbsent destination ~;;
  Rename stage destination ~;;
  io_ret manifest.

Definition CreateSQLite (uploadsDir destination : path) (secret : string) : IO Manifest :=
  if negb (bool_decide (dialect = "sqlite"))
  then io_fail (EText "sqlite backup requires DB_DRIVER=sqlite") else
  status <~ io_res (ReadMigrationStatus db) ;;
  io_require (negb status.(ms_Dirty)) (EText "refusing to back up a dirty migration state") ~;;
  Stat uploadsDir ~;;
  requireAbsent destination ~;;
  io_require (negb (pathWithin destination uploadsDir))
    (EText "backup destination must not be inside the uploads directory") ~;;
  MkdirAll (parent destination) ~;;
  stage <~ MkdirTemp (parent destination) ".owl-invites-backup-" ;;
  unless_committed (RemoveAll stage)
    (Chmod stage ~;; fill_stage status uploadsDir stage destination secret).
End create.

Definition VerifySQLite (bundle : path) : IO Manifest :=
  validateBundleLayout bundle ~;;
  let manifestPath := bundle ++ [manifestFilename] in
  requireRegularFile manifestPath ~;;
  manifest <~ readManifest manifestPath ;;
  io_res (validateManifest manifest) ~;;
  let databasePath := bundle ++ [databaseFilename] in
  requireRegularFile databasePath ~;;
  actualDatabase <~ hashFile databasePath databaseFilename ;;
  io_require (bool_decide (actualDatabase = manifest.(mf_Database)))
    (EText "database checksum or size does not match manifest") ~;;
  v <~ inspectSQLite databasePath ;;
  io_require ((v.1 =? manifest.(mf_Source).(so_SchemaVersion))
              && Bool.eqb v.2 manifest.(mf_Source).(so_SchemaDirty))
    (EText "database schema state does not match manifest") ~;;
  actualUploads <~ inventoryUploads (bundle ++ [uploadsDirectory]) ;;
  io_require (uploadsEqual manifest.(mf_Uploads) actualUploads)
    (EText "uploads checksum, size, or file inventory does not match manifest") ~;;
  io_ret manifest.

Definition pathsOverlap (databasePath uploadsPath : path) : bool := pathWithin databasePath uploadsPath.

(** The two renamings; the database goes when the uploads cannot come. *)
Definition commit_restore (databaseTemp uploadsStage databaseDestination uploadsDestination : path) : IO () :=
  requireAbsent databaseDestination ~;;
  requireAbsent uploadsDestination ~;;
  Rename databaseTemp databaseDestination ~;;
  r <~ try_io (Rename uploadsStage uploadsDestination) ;;
  match r with
  | Ok _ => io_ret ()
  | Err e => try_io (Remove databaseDestination) ~;; io_fail e
  end.

(** The part after the staged database was checked. *)
Definition restore_uploads (bundle databaseTemp databaseDestination uploadsDestination : path)
    (manifest : Manifest) : IO Manifest :=
  uploadsStage <~ MkdirTemp (parent uploadsDestination) ".owl-invites-uploads-restore-" ;;
  unless_committed (RemoveAll uploadsStage) (
    copyTree (bundle ++ [uploadsDirectory]) uploadsStage ~;;
    commit_restore databaseTemp uploadsStage databaseDestination uploadsDestination ~;;
    io_ret manifest).

(** What is done inside the stage of the database, which goes in the end. *)
Definition restore_stage (bundle databaseStage databaseDestination uploadsDestination : path)
    (manifest : Manifest) : IO Manifest :=
  let databaseTemp := databaseStage ++ [databaseFilename] in
  finally (RemoveAll databaseStage) (
    copyRegularFile (bundle ++ [databaseFilename]) databaseTemp ~;;
    inspectSQLite databaseTemp ~;;
    restore_uploads bundle databaseTemp databaseDestination uploadsDestination manifest).

Definition RestoreSQLite (bundle databaseDestination uploadsDestination : path) (secret : string)
    : IO Manifest :=
  manifest <~ VerifySQLite bundle ;;
  io_require (bool_decide (Fingerprint secret = manifest.(mf_SecretFingerprint)))
    (EText "secret fingerprint mismatch") ~;;
  io_require (negb (pathsOverlap databaseDestination uploadsDestination))
    (EText "database destination must not be inside uploads destination") ~;;
  io_require (negb (pathWithin databaseDestination bundle || pathWithin uploadsDestination bundle))
    (EText "restore destinations must not be inside the backup bundle") ~;;
  requireAbsent databaseDestination ~;;
  requireAbsent uploadsDestination ~;;
  MkdirAll (parent databaseDestination) ~;;
  MkdirAll (parent uploadsDestination) ~;;
  databaseStage <~ MkdirTemp (parent databaseDestination) ".owl-invites-db-restore-" ;;
  restore_stage bundle databaseStage databaseDestination uploadsDestination manifest.
End backup.

(** ** Nothing is overwritten *)

Section keeps.
Context `{E : Env} {T : TempNames} {B : BackupLib} (t0 : Node).

Lemma keeping_ReadFile p : keeping t0 (ReadFile p) (fun _ => True).
Proof. by eapply keeping_weaken; [apply keeping_observe|]. Qed.
Lemma keeping_Stat p : keeping t0 (Stat p) (fun _ => True).
Proof. by eapply keeping_weaken; [apply keeping_observe|]. Qed.
Lemma keeping_Chmod p : keeping t0 (Chmod p) (fun _ => True).
Proof. by eapply keeping_weaken; [apply keeping_observe|]. Qed.
Lemma keeping_sync : keeping t0 sync (fun _ => True).
Proof. by eapply keeping_weaken; [apply keeping_observe|]. Qed.
Lemma keeping_hashFile p name : keeping t0 (hashFile p name) (fun _ => True).
Proof. eapply keeping_bind; [apply keeping_ReadFile|]. intros c []. by apply keeping_ret. Qed.
Lemma keeping_inspect p : keeping t0 (inspectSQLite p) (fun _ => True).
Proof. eapply keeping_bind; [apply keeping_ReadFile|]. intros c []. by apply keeping_res. Qed.
Lemma keeping_requireAbsent p : keeping t0 (requireAbsent p) (fun _ => fresh t0 p).
Proof.
  eapply keeping_bind; [apply keeping_Lstat|]. intros [n|] Ho; [apply keeping_fail|].
  apply keeping_ret. by apply Ho.
Qed.

Lemma keeping_copyRegularFile src dst : keeping t0 (copyRegularFile src dst) (fun _ => True).
Proof.
  eapply keeping_bind; [apply keeping_Stat|]. intros n []. destruct n; try apply keeping_fail.
  eapply keeping_bind; [apply keeping_put_new|]. intros [] Hp. simpl in Hp.
  apply keeping_unless; [|by apply keeping_Remove].
  eapply keeping_bind; [by apply keeping_Write|]. intros [] _.
  eapply keeping_bind; [apply keeping_sync|]. intros [] _. apply keeping_sync.
Qed.
Lemma keeping_copyTree src dst : keeping t0 (copyTree src dst) (fun _ => True).
Proof.
  eapply keeping_bind; [apply keeping_Stat|]. intros n []. destruct (negb (is_dir n)); [apply keeping_fail|].
  eapply keeping_bind; [apply keeping_MkdirAll|]. intros [] _. apply keeping_WalkDir. intros [] rel m.
  unfold copy_visit. case_bool_decide; [by apply keeping_ret|].
  destruct m; first [apply keeping_copyRegularFile|apply keeping_MkdirAll|apply keeping_fail].
Qed.
Lemma keeping_inventory root : keeping t0 (inventoryUploads root) (fun _ => True).
Proof.
  apply keeping_WalkDir. intros s rel n. destruct n; try apply keeping_fail; [|by apply keeping_ret].
  eapply keeping_bind; [apply keeping_hashFile|]. intros a []. by apply keeping_ret.
Qed.

Lemma keeping_fill_stage snap status u stage d secret :
  fresh t0 stage -> keeping t0 (fill_stage snap status u stage d secret) (fun _ => True).
Proof.
  intros Hs. unfold fill_stage.
  eapply keeping_bind; [apply keeping_WriteFile|]. intros [] _.
  eapply keeping_bind; [apply keeping_Chmod|]. intros [] _.
  eapply keeping_bind; [apply keeping_inspect|]. intros v _.
  eapply keeping_bind; [apply keeping_require|]. intros [] _.
  eapply keeping_bind; [apply keeping_hashFile|]. intros a _.
  eapply keeping_bind; [apply keeping_copyTree|]. intros [] _.
  eapply keeping_bind; [apply keeping_inventory|]. intros ups _.
  eapply keeping_bind with (Q := fun _ => True); [by intros dk Hk|]. intros t _.
  eapply keeping_bind; [apply keeping_WriteFile|]. intros [] _.
  eapply keeping_bind; [apply keeping_requireAbsent|]. intros [] Hd.
  eapply keeping_bind; [by apply keeping_Rename|]. intros [] _. by apply keeping_ret.
Qed.
Lemma keeping_Create {St} `{L : !MigrateLib St} db snap u d secret :
  keeping t0 (CreateSQLite db snap u d secret) (fun _ => True).
Proof.
  unfold CreateSQLite. destruct (negb _); [apply keeping_fail|].
  eapply keeping_bind with (Q := fun _ => True); [by apply keeping_res|]. intros status _.
  eapply keeping_bind; [apply keeping_require|]. intros [] _.
  eapply keeping_bind; [apply keeping_Stat|]. intros n _.
  eapply keeping_bind; [apply keeping_requireAbsent|]. intros [] _.
  eapply keeping_bind; [apply keeping_require|]. intros [] _.
  eapply keeping_bind; [apply keeping_MkdirAll|]. intros [] _.
  eapply keeping_bind; [apply keeping_mkdir_temp|]. intros stage Hs.
  apply keeping_unless; [|by apply keeping_RemoveAll].
  eapply keeping_bind; [apply keeping_Chmod|]. intros [] _. by apply keeping_fill_stage.
Qed.

Lemma keeping_commit temp stage d u :
  fresh t0 temp -> fresh t0 stage -> keeping t0 (commit_restore temp stage d u) (fun _ => True).
Proof.
  intros Ht Hs. unfold commit_restore.
  eapply keeping_bind; [apply keeping_requireAbsent|]. intros [] Hd.
  eapply keeping_bind; [apply keeping_requireAbsent|]. intros [] Hu.
  eapply keeping_bind; [by apply keeping_Rename|]. intros [] _.
  eapply keeping_bind; [apply keeping_try; by apply keeping_Rename|]. intros [[]|e] _.
  - by apply keeping_ret.
  - eapply keeping_bind; [apply keeping_try; by apply keeping_Remove|]. intros _ _. apply keeping_fail.
Qed.
End keeps.

Section reads.
Context `{E : Env} {T : TempNames} {B : BackupLib}.

Lemma reads_Lstat p : io_reads (Lstat p).
Proof. apply reads_observe. Qed.
Lemma reads_hashFile p name : io_reads (hashFile p name).
Proof. apply reads_bind; [apply reads_observe|done]. Qed.
Lemma reads_inspect p : io_reads (inspectSQLite p).
Proof. apply reads_bind; [apply reads_observe|done]. Qed.
Lemma reads_regular p : io_reads (requireRegularFile p).
Proof. apply reads_bind; [apply reads_observe|]. by intros [[]|]. Qed.
Lemma reads_requireAbsent p : io_reads (requireAbsent p).
Proof. apply reads_bind; [apply reads_observe|]. by intros [[]|]. Qed.
Lemma reads_inventory root : io_reads (inventoryUploads root).
Proof.
  apply reads_bind; [apply reads_observe|]. intros [n|]; [|done]. apply reads_visit_all.
  intros s rel []; try done. apply reads_bind; [apply reads_hashFile|done].
Qed.
Lemma reads_layout bundle : io_reads (validateBundleLayout bundle).
Proof.
  apply reads_bind; [apply reads_observe|]. intros [[]|]; try done.
  apply reads_bind; [apply reads_observe|]. intros es. destruct (negb _); [done|apply reads_require].
Qed.
Lemma reads_manifest p : io_reads (readManifest p).
Proof.
  apply reads_bind; [apply reads_observe|]. intros n. apply reads_bind; [apply reads_require|]. intros [].
  apply reads_bind; [apply reads_observe|]. intros c. by destruct (manifest_decode c).
Qed.
(** Verifying a bundle changes no file, whatever it answers. *)
Lemma reads_Verify bundle : io_reads (VerifySQLite bundle).
Proof.
  unfold VerifySQLite. apply reads_bind; [apply reads_layout|intros _].
  apply reads_bind; [apply reads_regular|intros _]. apply reads_bind; [apply reads_manifest|intros m].
  apply reads_bind; [done|intros _]. apply reads_bind; [apply reads_regular|intros _].
  apply reads_bind; [apply reads_hashFile|intros a]. apply reads_bind; [apply reads_require|intros _].
  apply reads_bind; [apply reads_inspect|intros v]. apply reads_bind; [apply reads_require|intros _].
  apply reads_bind; [apply reads_inventory|intros ups]. by apply reads_bind; [apply reads_require|].
Qed.
End reads.

Section overwrite.
Context `{E : Env} {T : TempNames} {B : BackupLib}.

Lemma keeping_reads {A} t0 (m : IO A) : io_reads m -> keeping t0 m (fun _ => True).
Proof. intros Hm dk Hk. by rewrite (Hm dk). Qed.
Lemma keeping_Restore t0 bundle d u secret : keeping t0 (RestoreSQLite bundle d u secret) (fun _ => True).
Proof.
  unfold RestoreSQLite. eapply keeping_bind; [apply keeping_reads, reads_Verify|]. intros m _.
  do 3 (eapply keeping_bind; [apply keeping_require|]; intros [] _).
  do 2 (eapply keeping_bind; [apply keeping_requireAbsent|]; intros [] _).
  do 2 (eapply keeping_bind; [apply keeping_MkdirAll|]; intros [] _).
  eapply keeping_bind; [apply keeping_mkdir_temp|]. intros dstage Hd.
  unfold restore_stage. apply keeping_finally; [|by apply keeping_RemoveAll].
  eapply keeping_bind; [apply keeping_copyRegularFile|]. intros [] _.
  eapply keeping_bind; [apply keeping_inspect|]. intros v _. unfold restore_uploads.
  eapply keeping_bind; [apply keeping_mkdir_temp|]. intros ustage Hu.
  apply keeping_unless; [|by apply keeping_RemoveAll].
  eapply keeping_bind; [apply keeping_copyTree|]. intros [] _.
  eapply keeping_bind; [apply keeping_commit; [by apply fresh_below|done]|]. intros [] _. by apply keeping_ret.
Qed.

(** [C28] Whatever fails on the way, making a backup and restoring one leave every file and
    link that was there as it was and every directory in place; verifying one changes
    nothing at all.  The last steps of both do so on their own, apart from their stages,
    whatever another process has made on the disk before them, at the destinations too. *)
Theorem backup_overwrites_nothing {St} `{L : !MigrateLib St} (db : St) snap u d secret bundle dd ud dk :
  keeps dk.(dk_root) (CreateSQLite db snap u d secret dk).2.(dk_root) /\
  keeps dk.(dk_root) (RestoreSQLite bundle dd ud secret dk).2.(dk_root) /\
  (VerifySQLite bundle dk).2.(dk_root) = dk.(dk_root) /\
  (forall status stage, stage <> [] ->
     keeps_but [stage] dk.(dk_root) (fill_stage snap status u stage d secret dk).2.(dk_root)) /\
  (forall temp stage, temp <> [] -> stage <> [] ->
     keeps_but [temp; stage] dk.(dk_root) (commit_restore temp stage dd ud dk).2.(dk_root)).
Proof.
  split_and!.
  - by apply (keeping_Create dk.(dk_root) db snap u d secret dk).
  - by apply (keeping_Restore dk.(dk_root) bundle dd ud secret dk).
  - apply reads_Verify.
  - intros status stage Hs. apply keeping_but; [by repeat constructor|].
    intros t0 Hf. apply keeping_fill_stage. by apply Forall_inv in Hf.
  - intros temp stage Ht Hs. apply keeping_but; [by repeat constructor|].
    intros t0 [Hf [Hf' _]%Forall_cons]%Forall_cons. by apply keeping_commit.
Qed.
End overwrite.

(** ** A copy is the tree *)

(** What the program may copy: files and directories. *)
Inductive plain : Node -> Prop :=
| plain_file c : plain (NFile c)
| plain_dir es : Forall (fun x => plain x.2) es -> plain (NDir es).

(** What every directory of a file system is: its names are distinct, in order, and
    proper. *)
Definition proper_name (x : string) : Prop :=
  x <> "" /\ x <> "." /\ x <> ".." /\ "/"%char ∉ to_bytes x.
Definition ordered {A} (es : list (string * A)) : Prop :=
  StronglySorted (fun a b => str_lt a.1 b.1 = true) es.
Inductive tidy : Node -> Prop :=
| tidy_file c : tidy (NFile c)
| tidy_link t : tidy (NLink t)
| tidy_other : tidy NOther
| tidy_dir es : ordered es -> Forall (fun x => proper_name x.1 /\ tidy x.2) es -> tidy (NDir es).

Lemma str_lt_irrefl x : str_lt x x = false.
Proof. apply bytes_lt_irrefl. Qed.
Lemma str_lt_asym x y : str_lt x y = true -> str_lt y x = false.
Proof. apply bytes_lt_asym. Qed.

Lemma place_last {A} x (v : A) acc :
  Forall (fun a => str_lt a.1 x = true) acc -> place x v acc = acc ++ [(x, v)].
Proof.
  induction 1 as [|[y w] acc Hy _ IH]; simpl in *; [done|].
  rewrite bool_decide_eq_false_2 by (intros ->; by rewrite str_lt_irrefl in Hy).
  by rewrite (str_lt_asym _ _ Hy), IH.
Qed.
Lemma entry_last {A} x acc : Forall (fun a : string * A => str_lt a.1 x = true) acc -> entry x acc = None.
Proof.
  induction 1 as [|[y w] acc Hy _ IH]; simpl in *; [done|].
  by rewrite bool_decide_eq_false_2 by (intros ->; by rewrite str_lt_irrefl in Hy).
Qed.
Lemma ordered_before {A} (acc : list (string * A)) x es :
  ordered (acc ++ x :: es) -> Forall (fun a => str_lt a.1 x.1 = true) acc.
Proof.
  intros H. apply Forall_forall. intros a Ha.
  refine (StronglySorted_app_1_elem_of _ _ _ a x H Ha _). by left.
Qed.
Lemma entry_app {A} x (acc es : list (string * A)) : entry x acc = None -> entry x (acc ++ es) = entry x es.
Proof. induction acc as [|[y w] acc IH]; simpl; [done|]. case_bool_decide; [done|exact IH]. Qed.

Lemma walk_dir rel es : walk rel (NDir es) = (rel, NDir es) :: walk_entries rel es.
Proof. simpl. f_equal. induction es as [|[x c] es IH]; simpl; [done|]. by rewrite IH. Qed.
Lemma visit_all_app {S} l1 l2 (visit : S -> path -> Node -> IO S) s dk r dk' :
  visit_all (l1 ++ l2) visit s dk = (Ok r, dk') ->
  exists s1 dk1, visit_all l1 visit s dk = (Ok s1, dk1) /\ visit_all l2 visit s1 dk1 = (Ok r, dk').
Proof.
  revert s dk. induction l1 as [|[rel n] l1 IH]; intros s dk H; simpl in *; [by exists s, dk|].
  apply io_bind_ok in H as (s1 & dk1 & H1 & H). apply io_bind_ok in H as ([] & dk2 & H2 & H).
  apply IH in H as (s3 & dk3 & H3 & H). exists s3, dk3. split; [|done].
  by rewrite (io_bind_run _ _ _ _ _ H1), (io_bind_run _ _ _ _ _ H2).
Qed.

Section copy.
Context `{E : Env} {T : TempNames} {B : BackupLib}.

Lemma copyRegularFile_ok src dst c dk dk' :
  copyRegularFile src dst dk = (Ok (), dk') -> node_at dk.(dk_root) src = Some (NFile c) ->
  placed dk.(dk_root) dst /\ dk'.(dk_root) = put dst (NFile c) dk.(dk_root).
Proof.
  unfold copyRegularFile. intros H Hsrc. apply io_bind_ok in H as (n & dk1 & [Hn Hd1]%observe_ok & H).
  rewrite Hsrc in Hn. injection Hn as <-.
  apply io_bind_ok in H as ([] & dk2 & (Hp & Ha & Hd2)%created & H%unless_committed_ok).
  rewrite Hd1 in *. apply io_bind_ok in H as ([] & dk3 & Hw%change_ok & H).
  apply io_bind_ok in H as ([] & dk4 & [_ Hd4]%observe_ok & [_ Hd5]%observe_ok).
  rewrite Hd2, node_at_put in Hw by done. injection Hw as Hw.
  split; [done|]. rewrite Hd5, Hd4, <- Hw. by apply put_put.
Qed.

Context (src dst : path) (N0 : Node).
Hypothesis not_met : apart src dst.

Lemma source_kept base rel v : node_at base src = Some N0 -> node_at (put (dst ++ rel) v base) src = Some N0.
Proof.
  intros H. destruct (apart_app_l dst src rel (apart_sym _ _ not_met)). by rewrite put_apart.
Qed.

(** The copy of one node, with all below it. *)
Definition copies (n : Node) : Prop := forall r x es0 dk dk',
  let rel := r ++ [x] in
  tidy n -> node_at N0 rel = Some n -> node_at dk.(dk_root) src = Some N0 ->
  node_at dk.(dk_root) (dst ++ r) = Some (NDir es0) -> node_at dk.(dk_root) (dst ++ rel) = None ->
  visit_all (walk rel n) (copy_visit src dst) () dk = (Ok (), dk') ->
  plain n /\ dk'.(dk_root) = put (dst ++ rel) n dk.(dk_root).

Lemma copies_entries rel es base es' :
  let D := dst ++ rel in
  Forall (fun x => copies x.2) es' ->
  node_at N0 rel = Some (NDir es) -> tidy (NDir es) -> placed base D -> node_at base src = Some N0 ->
  forall acc dk dk', es = acc ++ es' -> dk.(dk_root) = put D (NDir acc) base ->
  visit_all (walk_entries rel es') (copy_visit src dst) () dk = (Ok (), dk') ->
  Forall (fun x => plain x.2) es' /\ dk'.(dk_root) = put D (NDir es) base.
Proof.
  intros D Hall Hn Ht Hpl Hsrc. inversion_clear Ht as [| | |? Hord Hsub].
  induction Hall as [|[x c] es' Hc _ IH]; intros acc dk dk' -> Hdk H.
  { apply io_ret_ok in H as [_ ->]. rewrite app_nil_r. by split. }
  simpl in H, Hc. apply visit_all_app in H as ([] & dk1 & H1 & H).
  pose proof (ordered_before _ _ _ Hord) as Hbefore. simpl in Hbefore.
  pose proof (entry_last _ _ Hbefore) as Hnone.
  assert (placed dk.(dk_root) (D ++ [x])) as Hplx.
  { right. exists D, x, acc. split; [done|]. rewrite Hdk. by apply node_at_put. }
  destruct (Hc rel x acc dk dk1) as [Hp1 Hdk1]; [..|exact H1|].
  - rewrite Forall_app, Forall_cons in Hsub. by destruct Hsub as (_ & [_ ?] & _).
  - rewrite (node_at_dir _ _ _ _ Hn), entry_app by done. simpl. by rewrite bool_decide_eq_true_2.
  - rewrite Hdk. by apply source_kept.
  - rewrite Hdk. by apply node_at_put.
  - rewrite app_assoc. fold D. rewrite Hdk, node_at_put_below by done. simpl. by rewrite Hnone.
  - destruct (IH (acc ++ [(x, c)]) dk1 dk') as [Hp Hdk']; [by rewrite <- app_assoc| |exact H|].
    + rewrite Hdk1, app_assoc. fold D. rewrite Hdk. rewrite (proj1 (put_in _ _ x c acc c Hpl)).
      by rewrite place_last.
    + split; [by constructor|done].
Qed.

Lemma copies_all n : copies n.
Proof.
  induction n as [c|es Hes|t|] using node_entries_ind; intros r x es0 dk dk' rel Ht Hn Hsrc Hpar Hnone H.
  - simpl in H. apply io_bind_ok in H as ([] & dk1 & H1 & H). io_ok.
    unfold copy_visit in H1. rewrite bool_decide_eq_false_2 in H1 by (by destruct r).
    apply (copyRegularFile_ok _ _ c) in H1 as [_ H1]; [|by rewrite node_at_app, Hsrc].
    split; [constructor|]. done.
  - rewrite walk_dir in H. simpl in H. apply io_bind_ok in H as ([] & dk1 & H1 & H).
    unfold copy_visit in H1. rewrite bool_decide_eq_false_2 in H1 by (by destruct r).
    unfold rel in H1, Hnone. rewrite app_assoc in H1, Hnone.
    destruct (MkdirAll_new _ _ _ _ _ H1 Hpar) as [Hdk1 _]. specialize (Hdk1 Hnone).
    rewrite <- app_assoc in Hdk1. fold rel in Hdk1.
    apply io_bind_ok in H as ([] & dk2 & [_ Hdk2]%observe_ok & H).
    assert (placed dk.(dk_root) (dst ++ rel)) as Hpl.
    { right. unfold rel. rewrite app_assoc. eauto. }
    destruct (copies_entries rel es dk.(dk_root) es Hes Hn Ht Hpl Hsrc [] dk2 dk') as [Hp Hdk'];
      [done|by rewrite Hdk2|exact H|]. split; [by constructor|done].
  - simpl in H. unfold copy_visit in H. rewrite bool_decide_eq_false_2 in H by (by destruct r).
    apply io_bind_ok in H as (? & ? & H & _). done.
  - simpl in H. unfold copy_visit in H. rewrite bool_decide_eq_false_2 in H by (by destruct r).
    apply io_bind_ok in H as (? & ? & H & _). done.
Qed.

(** The uploads as they are copied: a link instead of a directory is an empty one. *)
Definition copied (n : Node) : Node := match n with NDir es => NDir es | _ => NDir [] end.

Lemma leaf_visit n dk dk' :
  is_dir n = false -> visit_all (walk [] n) (copy_visit src dst) () dk = (Ok (), dk') -> dk' = dk.
Proof.
  destruct n; intros Hd H; try done; unfold visit_all, walk, copy_visit, io_bind, io_ret in H; simpl in H;
    congruence.
Qed.
Lemma copyTree_ok base dk dk' q x es0 :
  copyTree src dst dk = (Ok (), dk') -> dst = q ++ [x] -> node_at dk.(dk_root) q = Some (NDir es0) ->
  tidy N0 -> node_at base src = Some N0 -> placed base dst ->
  (dk.(dk_root) = base /\ node_at base dst = None) \/ dk.(dk_root) = put dst (NDir []) base ->
  dk'.(dk_root) = put dst (copied N0) base /\ plain (copied N0).
Proof.
  unfold copyTree. intros H Hdst Hq Ht Hsrc Hpl Hdk.
  apply io_bind_ok in H as (info & dk1 & [Hinfo Hdk1]%observe_ok & H).
  destruct (negb (is_dir info)) eqn:Hd; [done|].
  apply io_bind_ok in H as ([] & dk2 & Hm & H). rewrite Hdst in Hm.
  assert (dk2.(dk_root) = put dst (NDir []) base) as Hdk2.
  { destruct (MkdirAll_new q x dk1 dk2 es0 Hm) as [H1 H2]; [by rewrite Hdk1|]. rewrite Hdk1, <- Hdst in *.
    destruct Hdk as [[Heq Hnone]|Hdk]; [rewrite Heq in *; by apply H1|].
    rewrite (H2 []); [done|]. rewrite Hdk. by apply node_at_put. }
  apply io_bind_ok in H as (o & dk3 & [-> Hdk3]%Lstat_ok & H).
  assert (node_at dk2.(dk_root) src = Some N0) as Hs2.
  { rewrite Hdk2. rewrite <- (app_nil_r dst). by apply source_kept. }
  rewrite Hs2 in H. rewrite Hdk2 in Hdk3. destruct N0 as [c|es|t|] eqn:HN;
    try (apply leaf_visit in H as ->; [|done]; rewrite Hdk3; split; [done|by constructor]).
  - rewrite walk_dir in H. simpl in H. apply io_bind_ok in H as ([] & dk4 & [= <-] & H).
    apply io_bind_ok in H as ([] & dk5 & [_ Hdk5]%observe_ok & H). rewrite Hdk3 in Hdk5.
    assert (Forall (fun x => copies x.2) es) as Hall.
    { apply Forall_forall. intros y _. apply copies_all. }
    rewrite <- HN in Hsrc. rewrite <- (app_nil_r dst) in Hdk5, Hpl |- *.
    destruct (copies_entries [] es base es Hall) with (acc := @nil (string * Node)) (dk := dk5) (dk' := dk')
      as [Hp Hdk']; [by rewrite HN|done..|]. split; [done|by constructor].
Qed.
End copy.

(** ** What a manifest says of its files *)

(** Digests have 32 bytes. *)
Class DigestLaws `{E : Env} : Prop := {
  sha256_length s : length (to_bytes (sha256 s)) = 32%nat;
  hmac_length k m : length (to_bytes (hmac_sha256 k m)) = 32%nat }.

Lemma is_hex_char n : 0 <= n < 16 -> is_hex (hex_char n) = true.
Proof.
  intros H. assert (forallb (fun n => is_hex (hex_char n)) (Z.of_nat <$> seq 0 16) = true) as Hall
    by (vm_compute; reflexivity).
  rewrite forallb_forall in Hall. apply Hall, list_elem_of_In, list_elem_of_fmap.
  exists (Z.to_nat n). split; [lia|]. apply elem_of_seq. lia.
Qed.
Lemma hex_bytes_ok l :
  let h := flat_map (fun c => [hex_char (byte_val c / 16); hex_char (byte_val c mod 16)]) l in
  length h = (2 * length l)%nat /\ forallb is_hex h = true.
Proof.
  induction l as [|c l [IH1 IH2]]; simpl in *; [done|]. split; [lia|].
  pose proof (byte_val_range c).
  rewrite !is_hex_char, IH2 by (split; [apply Z.div_pos || apply Z.mod_pos_bound; lia|];
    first [apply Z.div_lt_upper_bound; lia|apply Z.mod_pos_bound; lia]). done.
Qed.
Lemma hex_encode_ok s : size (hex_encode s) = 2 * Z.of_nat (length (to_bytes s)) /\ hex_ok (hex_encode s) = true.
Proof.
  unfold size, hex_ok, hex_encode. rewrite to_of_bytes.
  destruct (hex_bytes_ok (to_bytes s)) as [Hl Hh]. rewrite Hl, Hh, andb_true_r. split; [lia|].
  apply Nat.even_spec. by exists (length (to_bytes s)).
Qed.

(** Names joined with slashes are a cleaned relative path. *)
Lemma split_join names :
  names <> [] -> Forall proper_name names -> split (join names "/") "/" = names.
Proof.
  intros Hne H. unfold split. induction H as [|x names (_ & _ & _ & Hx) Hall IH]; [done|].
  destruct names as [|y names].
  - simpl. rewrite split_bytes_nosep by done. simpl. by rewrite of_to_bytes.
  - change (join (x :: y :: names) "/") with (x +:+ "/" +:+ join (y :: names) "/").
    rewrite !to_bytes_app. change (to_bytes "/" ++ to_bytes (join (y :: names) "/"))
      with ("/"%char :: to_bytes (join (y :: names) "/")).
    rewrite split_bytes_cons by done. rewrite fmap_cons, of_to_bytes, IH by done. done.
Qed.
Lemma clean_proper names out : Forall proper_name names -> clean_parts false out names = reverse names ++ out.
Proof.
  intros H. revert out. induction H as [|x names (H1 & H2 & H3 & _) _ IH]; intros out; [done|]. simpl.
  unfold one_of.
  rewrite (bool_decide_eq_false_2 (x ∈ _)), (bool_decide_eq_false_2 (x = _)) by set_solver.
  by rewrite IH, reverse_cons, <- app_assoc.
Qed.
Lemma join_nonempty x names : proper_name x -> join (x :: names) "/" <> "".
Proof.
  intros (Hx & _) H. apply (f_equal to_bytes) in H. destruct names; simpl in H.
  - apply Hx. rewrite <- (of_to_bytes x), H. done.
  - rewrite !to_bytes_app in H. apply app_eq_nil in H as [H _]. apply Hx.
    rewrite <- (of_to_bytes x), H. done.
Qed.
Lemma join_first x names rest :
  Forall proper_name (x :: names) -> to_bytes (join (x :: names) "/") = rest ->
  exists t, rest = to_bytes x ++ t /\ (t = [] \/ exists t', t = "/"%char :: t').
Proof.
  intros _ <-. destruct names; simpl.
  - exists []. rewrite app_nil_r. by split; [|left].
  - rewrite !to_bytes_app. eexists. split; [done|]. right. by eexists.
Qed.
Lemma slashed_ok names :
  names <> [] -> Forall proper_name names ->
  slashed names <> "" /\ Clean (slashed names) = slashed names /\
  has_prefix (slashed names) "../" = false /\ is_abs (slashed names) = false.
Proof.
  intros Hne H. destruct names as [|x names]; [done|]. unfold slashed.
  pose proof (split_join _ Hne H) as Hsplit.
  assert (is_abs (join (x :: names) "/") = false) as Habs.
  { unfold is_abs. apply not_true_iff_false. rewrite bytes_prefix_spec. intros [t Ht].
    unfold split in Hsplit. rewrite Ht in Hsplit. simpl in Hsplit.
    apply Forall_cons in H as [(Hx & _) _]. by injection Hsplit as <- _. }
  assert (has_prefix (join (x :: names) "/") "../" = false) as Hpre.
  { unfold has_prefix. apply not_true_iff_false. rewrite bytes_prefix_spec. intros [t Ht].
    unfold split in Hsplit. rewrite Ht in Hsplit.
    apply Forall_cons in H as [(_ & _ & Hx & _) _]. simpl in Hsplit. by injection Hsplit as <- _. }
  assert (join (x :: names) "/" <> "") as Hnn by (apply Forall_cons in H as [? _]; by apply join_nonempty).
  split_and!; [done| |done|done]. unfold Clean. rewrite Habs, Hsplit, clean_proper, app_nil_r, reverse_involutive by done.
  by rewrite bool_decide_eq_false_2.
Qed.

Section inventory.
Context `{E : Env} {T : TempNames} {B : BackupLib}.

Definition inventory_step (s : UploadsSnapshot) (x : path * Node) : UploadsSnapshot :=
  match x.2 with NFile c => add_artifact (artifact (slashed x.1) c) s | _ => s end.
Definition inventory_of (n : Node) : UploadsSnapshot := fold_left inventory_step (walk [] n) empty_snapshot.

Lemma walk_node_at n rel r m : tidy n -> (r, m) ∈ walk rel n ->
  exists s, r = rel ++ s /\ node_at n s = Some m /\ Forall proper_name s /\ (plain n -> plain m).
Proof.
  revert rel r m. induction n as [c|es Hes|t|] using node_entries_ind; intros rel r m Ht Hin.
  2: { rewrite walk_dir in Hin. apply elem_of_cons in Hin as [[= -> ->]|Hin].
       { exists []. by rewrite app_nil_r. }
       unfold walk_entries in Hin. apply list_elem_of_In, in_flat_map in Hin as ([x c] & Hx & Hin).
       apply list_elem_of_In in Hin. apply list_elem_of_In, list_elem_of_split in Hx as (l1 & l2 & ->).
       inversion_clear Ht as [| | |? Hord Hsub]. rewrite Forall_app, Forall_cons in Hsub, Hes. simpl in *.
       destruct Hsub as (_ & [Hname Hc] & _). destruct Hes as (_ & IH & _).
       destruct (IH _ _ _ Hc Hin) as (s & -> & Hs & Hprop & Hpl). exists (x :: s).
       split; [by rewrite <- app_assoc|]. simpl.
       pose proof (entry_last _ _ (ordered_before _ _ _ Hord)) as Hnone. simpl in Hnone.
       rewrite entry_app by done. simpl. rewrite bool_decide_eq_true_2 by done.
       split_and!; [done|by constructor|]. intros Hp. apply Hpl. inversion_clear Hp as [|? Hall].
       rewrite Forall_app, Forall_cons in Hall. by destruct Hall as (_ & ? & _). }
  all: simpl in Hin; apply list_elem_of_singleton in Hin as [= -> ->]; exists []; by rewrite app_nil_r.
Qed.

Lemma ReadFile_ok p c dk dk' a :
  ReadFile p dk = (Ok a, dk') -> node_at dk.(dk_root) p = Some (NFile c) -> a = c /\ dk'.(dk_root) = dk.(dk_root).
Proof. intros [H Hd]%observe_ok Hp. rewrite Hp in H. simpl in H. by simplify_eq. Qed.
Lemma ReadFile_run p c dk :
  dk.(dk_faults) = [] -> node_at dk.(dk_root) p = Some (NFile c) -> ReadFile p dk = (Ok c, dk).
Proof. intros Hf Hp. apply observe_run; [done|]. by rewrite Hp. Qed.

Lemma inventory_visits_ok root l s dk s' dk' :
  (forall rel m, (rel, m) ∈ l -> node_at dk.(dk_root) (root ++ rel) = Some m) ->
  visit_all l (inventory_visit root) s dk = (Ok s', dk') -> s' = fold_left inventory_step l s.
Proof.
  revert s dk. induction l as [|[rel n] l IH]; intros s dk Hl H; simpl in H; [by io_ok|].
  apply io_bind_ok in H as (s1 & dk1 & H1 & H). apply io_bind_ok in H as ([] & dk2 & H2 & H).
  assert (dk2.(dk_root) = dk1.(dk_root)) as Hd2.
  { destruct (is_dir n); [by apply observe_ok in H2 as [_ ?]|by io_ok]. }
  assert (s1 = inventory_step s (rel, n) /\ dk1.(dk_root) = dk.(dk_root)) as [-> Hd1].
  { destruct n; simpl in H1; try by io_ok. unfold hashFile in H1.
    apply io_bind_ok in H1 as (a & dk3 & Ha & H1). apply io_bind_ok in Ha as (c & dk4 & Hc & Ha).
    apply (ReadFile_ok _ contents) in Hc as [-> Hd]; [|apply Hl; by left]. by io_ok. }
  apply (IH _ dk2) in H; [done|]. intros r m Hin. rewrite Hd2, Hd1. apply Hl. by right.
Qed.
Lemma inventory_visits_run root l s dk :
  dk.(dk_faults) = [] ->
  (forall rel m, (rel, m) ∈ l -> node_at dk.(dk_root) (root ++ rel) = Some m /\ plain m) ->
  visit_all l (inventory_visit root) s dk = (Ok (fold_left inventory_step l s), dk).
Proof.
  intros Hf. revert s. induction l as [|[rel n] l IH]; intros s Hl; simpl; [done|].
  destruct (Hl rel n) as [Hn Hp]; [by left|].
  rewrite (io_bind_run _ _ dk (inventory_step s (rel, n)) dk).
  - rewrite (io_bind_run _ _ dk () dk); [apply IH; intros r m Hin; apply Hl; by right|].
    destruct (is_dir n); [by apply observe_run|done].
  - inversion Hp; subst; simpl; [|done]. unfold hashFile.
    rewrite (io_bind_run _ _ dk (artifact (slashed rel) c) dk); [done|].
    by rewrite (io_bind_run _ _ dk c dk) by (by apply ReadFile_run).
Qed.
Lemma inventory_ok root n dk s dk' :
  inventoryUploads root dk = (Ok s, dk') -> node_at dk.(dk_root) root = Some n -> tidy n -> s = inventory_of n.
Proof.
  unfold inventoryUploads, WalkDir. intros H Hn Ht.
  apply io_bind_ok in H as (o & dk1 & [-> Hd]%Lstat_ok & H). rewrite Hn in H.
  apply inventory_visits_ok in H; [done|]. intros rel m Hin. rewrite Hd.
  apply walk_node_at in Hin as (s' & -> & Hs & _); [|done]. simpl. by rewrite node_at_app, Hn.
Qed.
Lemma inventory_run root n dk :
  dk.(dk_faults) = [] -> node_at dk.(dk_root) root = Some n -> tidy n -> plain n ->
  inventoryUploads root dk = (Ok (inventory_of n), dk).
Proof.
  intros Hf Hn Ht Hp. unfold inventoryUploads, WalkDir.
  rewrite (io_bind_run _ _ dk (Some n) dk) by (by apply Lstat_run).
  apply inventory_visits_run; [done|]. intros rel m Hin.
  apply walk_node_at in Hin as (s' & -> & Hs & _ & Hm); [|done]. simpl.
  rewrite node_at_app, Hn. split; [done|by apply Hm].
Qed.

Lemma uploadsEqual_refl s : uploadsEqual s s = true.
Proof.
  unfold uploadsEqual. rewrite eqb_reflx, !Z.eqb_refl, !bool_decide_eq_true_2; done.
Qed.
Lemma check_uploads_app l1 l2 : check_uploads l1 = Ok () -> check_uploads l2 = Ok () -> check_uploads (l1 ++ l2) = Ok ().
Proof. induction l1 as [|f l1 IH]; simpl; [done|]. repeat case_match; try done. Qed.

(** What the inventory of a tree says passes the checks of the manifest. *)
Lemma inventory_checks `{DL : !DigestLaws} es :
  tidy (NDir es) ->
  let s := inventory_of (NDir es) in
  s.(up_Included) = true /\ s.(up_Consistency) = uploadsConsistency /\
  s.(up_FileCount) = Z.of_nat (length s.(up_Files)) /\ check_uploads s.(up_Files) = Ok ().
Proof.
  intros Ht. unfold inventory_of. rewrite walk_dir. simpl.
  assert (forall rel m, (rel, m) ∈ walk_entries [] es -> rel <> [] /\ Forall proper_name rel) as Hl.
  { intros rel m Hin. unfold walk_entries in Hin. apply list_elem_of_In, in_flat_map in Hin as ([x c] & Hx & Hin).
    inversion_clear Ht as [| | |? _ Hsub]. rewrite Forall_forall in Hsub.
    apply list_elem_of_In in Hx, Hin. destruct (Hsub _ Hx) as [Hname Hc].
    apply walk_node_at in Hin as (s & -> & _ & Hprop & _); [|done]. split; [done|by constructor]. }
  revert Hl. unfold inventory_step at 1. simpl.
  assert (let s := empty_snapshot in s.(up_Included) = true /\ s.(up_Consistency) = uploadsConsistency /\
    s.(up_FileCount) = Z.of_nat (length s.(up_Files)) /\ check_uploads s.(up_Files) = Ok ()) as H0 by done.
  revert H0. generalize empty_snapshot. induction (walk_entries [] es) as [|[rel m] l IH]; intros s Hs Hl; [done|].
  simpl. apply IH; [|intros r m0 Hin; eapply Hl; by right].
  destruct m; try done. destruct Hs as (H1 & H2 & H3 & H4). unfold inventory_step. simpl.
  rewrite length_app. simpl. split_and!; [done|done|lia|]. apply check_uploads_app; [done|]. simpl.
  destruct (Hl rel (NFile contents)) as [Hne Hprop]; [by left|].
  destruct (slashed_ok rel Hne Hprop) as (Hs1 & Hs2 & Hs3 & Hs4).
  destruct (hex_encode_ok (sha256 contents)) as [Hh1 Hh2]. rewrite sha256_length in Hh1.
  unfold upload_metadata_ok. simpl. rewrite Hs2, Hs3, Hs4, Hh1, Hh2.
  rewrite bool_decide_eq_false_2, bool_decide_eq_true_2 by done. simpl.
  rewrite (proj2 (Z.leb_le 0 _)) by apply Nat2Z.is_nonneg. done.
Qed.
End inventory.

(** ** The round trip *)

Section roundtrip.
Context `{E : Env} {T : TempNames} {B : BackupLib}.

(** JSON keeps text that is valid UTF-8, other bytes become U+FFFD; it keeps the times of
    the years 0 to 9999, others it does not write. *)
Definition json_text (s : string) : bool := utf8_valid (to_bytes s).
Definition artifact_safe (f : FileArtifact) : bool := json_text f.(fa_Path) && json_text f.(fa_SHA256).
Definition source_safe (s : SourceMetadata) : bool :=
  forallb json_text [s.(so_DatabaseType); s.(so_ApplicationVersion); s.(so_Commit); s.(so_BuildState)].
Definition manifest_safe (m : Manifest) : bool :=
  time_ok m.(mf_CreatedAt) && source_safe m.(mf_Source) && artifact_safe m.(mf_Database) &&
  json_text m.(mf_SecretFingerprint) && json_text m.(mf_Uploads).(up_Consistency) &&
  forallb artifact_safe m.(mf_Uploads).(up_Files).
(** What the decoder promises of what the encoder wrote of such a manifest. *)
Class ManifestLaw : Prop := {
  manifest_decode_text m : manifest_safe m = true -> manifest_decode (manifest_text m) = Some m }.

(** The names of a tree are valid UTF-8. *)
Definition names_valid (n : Node) : bool := forallb (fun x => forallb json_text x.1) (walk [] n).
(** So is what the build says of itself. *)
Definition build_valid : bool :=
  json_text build_info.1.1 && json_text build_info.1.2 && json_text build_info.2.

Lemma json_text_app a b : json_text a = true -> json_text (a +:+ b) = json_text b.
Proof. unfold json_text. rewrite to_bytes_app. apply utf8_valid_app. Qed.
Lemma json_text_hex s : hex_ok s = true -> json_text s = true.
Proof.
  unfold hex_ok, json_text. intros [_ H]%andb_true_iff. rewrite <- (app_nil_r (to_bytes s)).
  rewrite utf8_valid_ascii; [done|]. rewrite forallb_forall in H |- *. intros c Hc%H.
  unfold is_hex in Hc. lia.
Qed.
Lemma json_text_slashed rel : forallb json_text rel = true -> json_text (slashed rel) = true.
Proof.
  unfold slashed. induction rel as [|x rel IH]; [done|]. intros [Hx H]%andb_true_iff.
  destruct rel as [|y rel]; [done|]. change (join (x :: y :: rel) "/") with (x +:+ "/" +:+ join (y :: rel) "/").
  rewrite !json_text_app by done. by apply IH.
Qed.
Lemma inventory_safe n :
  names_valid n = true ->
  forallb artifact_safe (inventory_of n).(up_Files) = true /\ (inventory_of n).(up_Consistency) = uploadsConsistency.
Proof.
  unfold names_valid, inventory_of. intros H.
  assert (forallb artifact_safe empty_snapshot.(up_Files) = true /\
          empty_snapshot.(up_Consistency) = uploadsConsistency) as H0 by done.
  revert H H0. generalize empty_snapshot. induction (walk [] n) as [|[rel m] l IH]; intros s; simpl; [done|].
  intros [Hrel H]%andb_true_iff [Hs Hc]. apply IH; [done|]. destruct m; try done.
  unfold inventory_step. simpl. split; [|done]. rewrite forallb_app, Hs. simpl. unfold artifact_safe. simpl.
  rewrite json_text_slashed by done. by rewrite json_text_hex by (by apply hex_encode_ok).
Qed.

(** The bundle of a snapshot, a manifest and the uploads. *)
Definition bundle_node (snap : string) (m : Manifest) (es : list (string * Node)) : Node :=
  NDir [(databaseFilename, NFile snap); (manifestFilename, NFile (manifest_text m));
        (uploadsDirectory, NDir es)].
(** What the manifest says of them. *)
Definition describes (m : Manifest) (snap secret : string) (es : list (string * Node)) : Prop :=
  m.(mf_FormatVersion) = FormatVersion /\ m.(mf_Source).(so_DatabaseType) = "sqlite" /\
  m.(mf_Source).(so_SchemaDirty) = false /\
  inspect snap = Ok (m.(mf_Source).(so_SchemaVersion), false) /\
  m.(mf_Database) = artifact databaseFilename snap /\ m.(mf_SecretFingerprint) = Fingerprint secret /\
  m.(mf_Uploads) = inventory_of (NDir es) /\
  (m.(mf_Source).(so_ApplicationVersion), m.(mf_Source).(so_Commit), m.(mf_Source).(so_BuildState)) = build_info.

Lemma described_safe m snap secret es :
  describes m snap secret es -> time_ok m.(mf_CreatedAt) = true -> build_valid = true ->
  names_valid (NDir es) = true -> manifest_safe m = true.
Proof.
  intros (_ & Hty & _ & _ & Hdb & Hfp & Hup & Hbuild) Ht Hb Hn.
  unfold build_valid in Hb. rewrite <- Hbuild in Hb. rewrite !andb_true_iff in Hb.
  destruct Hb as [[H1 H2] H3]. simpl in H1, H2, H3.
  destruct (inventory_safe _ Hn) as [Hfiles Hcons].
  unfold manifest_safe, source_safe. simpl. rewrite Ht, Hty, H1, H2, H3, Hdb, Hfp, Hup, Hfiles, Hcons. simpl.
  unfold artifact_safe, artifact, Fingerprint. simpl.
  rewrite !json_text_app by done. rewrite !json_text_hex by (by apply hex_encode_ok).
  done.
Qed.

Lemma requireAbsent_ok p dk dk' :
  requireAbsent p dk = (Ok (), dk') -> node_at dk.(dk_root) p = None /\ dk'.(dk_root) = dk.(dk_root).
Proof.
  intros (o & dk1 & [-> Hd]%Lstat_ok & H)%io_bind_ok. destruct (node_at _ p); [done|]. by io_ok.
Qed.

(** The stage is filled file by file, below a directory made for it. *)
Lemma fill_stage_ok snap status u stage d secret base dk m dk' N0 :
  fill_stage snap status u stage d secret dk = (Ok m, dk') ->
  status.(ms_Dirty) = false ->
  dk.(dk_root) = put stage (NDir []) base -> placed base stage -> apart u stage ->
  node_at base u = Some N0 -> tidy N0 ->
  exists es, NDir es = copied N0 /\ plain (NDir es) /\ describes m snap secret es /\
    node_at dk'.(dk_root) d = Some (bundle_node snap m es) /\
    (exists n, m.(mf_CreatedAt) = clock n).
Proof.
  intros H Hclean Hdk Hpl Hap Hu Ht. unfold fill_stage in H.
  apply io_bind_ok in H as ([] & dk1 & (_ & _ & H1)%WriteFile_ok & H). rewrite Hdk in H1.
  rewrite (proj1 (put_in base stage databaseFilename (NFile snap) [] (NFile snap) Hpl)) in H1. simpl in H1.
  apply io_bind_ok in H as (a & dk2 & [_ H2]%observe_ok & H).
  assert (node_at (put stage (NDir [(databaseFilename, NFile snap)]) base) (stage ++ [databaseFilename])
          = Some (NFile snap)) as Hdb by (by rewrite node_at_put_below).
  apply io_bind_ok in H as (v & dk3 & Hv & H). apply io_bind_ok in Hv as (c & dk4 & Hc & Hv).
  apply (ReadFile_ok _ snap) in Hc as [-> Hd4]; [|by rewrite H2, H1]. apply io_res_ok in Hv as [Hv ->].
  apply io_bind_ok in H as ([] & dk5 & [Hreq ->]%io_require_ok & H).
  apply io_bind_ok in H as (art & dk6 & Hart & H). apply io_bind_ok in Hart as (c & dk7 & Hc & Hart).
  apply (ReadFile_ok _ snap) in Hc as [-> Hd7]; [|by rewrite Hd4, H2, H1]. apply io_ret_ok in Hart as [-> ->].
  assert (dk7.(dk_root) = put stage (NDir [(databaseFilename, NFile snap)]) base) as Hdk7 by congruence.
  apply io_bind_ok in H as ([] & dk8 & Hcopy & H).
  destruct (apart_app_l _ _ [] (apart_sym _ _ Hap)) as [Hap1 Hap2]. rewrite app_nil_r in Hap1, Hap2.
  eapply (copyTree_ok u (stage ++ [uploadsDirectory]) N0) with
    (base := dk7.(dk_root)) in Hcopy as [H8 Hplain];
    [|by apply apart_sym, apart_app_l, apart_sym|done|rewrite Hdk7; by apply node_at_put|done
     |rewrite Hdk7; by rewrite put_apart|right; rewrite Hdk7; eexists _, _, _; split; [done|by apply node_at_put]
     |left; split; [done|]; rewrite Hdk7; by rewrite node_at_put_below].
  rewrite Hdk7, (proj1 (put_in base stage uploadsDirectory (copied N0) _ (copied N0) Hpl)) in H8.
  apply io_bind_ok in H as (ups & dk9 & Hinv & H). pose proof (io_reads_root _ _ _ _ (reads_inventory _) Hinv) as H9.
  assert (exists es, copied N0 = NDir es) as [es Hes] by (destruct N0; by eexists).
  assert (tidy (NDir es)) as Htes.
  { rewrite <- Hes. destruct N0; simpl; try done; repeat constructor. }
  eapply inventory_ok in Hinv; [|rewrite H8, node_at_put_below by done; rewrite Hes; simpl; done|done].
  apply io_bind_ok in H as (t & dk10 & [= <- <-] & H).
  apply io_bind_ok in H as ([] & dk11 & (_ & _ & H11)%WriteFile_ok & H). simpl in H11.
  rewrite H9, H8, (proj1 (put_in base stage manifestFilename _ _ (NFile "") Hpl)) in H11.
  apply io_bind_ok in H as ([] & dk12 & [Hno H12]%requireAbsent_ok & H).
  apply io_bind_ok in H as ([] & dk13 & H13 & H). apply io_ret_ok in H as [-> ->].
  eapply Rename_moved in H13 as [H13 _]; [|rewrite H12, H11; by apply node_at_put|by rewrite H12].
  exists es. split; [done|]. rewrite Hes in *. split; [done|]. split; [|split; [exact H13|by eexists]].
  destruct v as [v1 v2]. simpl in *. rewrite Hclean in Hreq.
  assert (v2 = false) as -> by (destruct v2; [by destruct (v1 =? _)|done]).
  unfold describes. simpl. by destruct build_info as [[? ?] ?].
Qed.

Lemma tidy_at t p n : tidy t -> node_at t p = Some n -> tidy n.
Proof.
  revert t. induction p as [|x p IH]; intros t Ht H; simpl in H; [by injection H as <-|].
  destruct Ht as [| | |es _ Hall]; try done. destruct (entry x es) as [c|] eqn:Hc; [|done].
  apply (IH c); [|done]. clear IH H. induction es as [|[y w] es IH]; simpl in Hc; [done|].
  apply Forall_cons in Hall as [[_ Hw] Hall]. case_bool_decide; [by injection Hc as ->|by apply IH].
Qed.

Lemma CreateSQLite_ok {St} `{L : !MigrateLib St} (db : St) snap u d secret dk m dk' :
  tidy dk.(dk_root) -> CreateSQLite db snap u d secret dk = (Ok m, dk') ->
  exists N0 es, node_at dk.(dk_root) u = Some N0 /\ NDir es = copied N0 /\ plain (NDir es) /\ tidy (NDir es) /\
    describes m snap secret es /\ node_at dk'.(dk_root) d = Some (bundle_node snap m es) /\
    (exists n, m.(mf_CreatedAt) = clock n).
Proof.
  intros Ht H. unfold CreateSQLite in H. destruct (negb (bool_decide _)); [done|].
  apply io_bind_ok in H as (status & dk1 & [_ ->]%io_res_ok & H).
  apply io_bind_ok in H as ([] & dk1 & [Hst%negb_true_iff ->]%io_require_ok & H).
  apply io_bind_ok in H as (i & dk1 & [Hi H1]%observe_ok & H).
  destruct (node_at dk.(dk_root) u) as [N0|] eqn:Hu; [|done]. clear Hi.
  apply io_bind_ok in H as ([] & dk2 & [Hd H2]%requireAbsent_ok & H).
  apply io_bind_ok in H as ([] & dk3 & [Hw%negb_true_iff ->]%io_require_ok & H).
  unfold pathWithin in Hw. rewrite bool_decide_eq_false in Hw.
  apply io_bind_ok in H as ([] & dk4 & Hmk & H).
  eapply MkdirAll_elsewhere in Hmk; [|by rewrite H2, H1|by apply prefix_parent].
  apply io_bind_ok in H as (stage & dk5 & (name & -> & Hpl & Hnew & H5)%mkdir_temp_ok & H%unless_committed_ok).
  apply io_bind_ok in H as ([] & dk6 & [_ H6]%observe_ok & H).
  pose proof (temp_apart _ _ _ _ _ Hmk Hnew (prefix_parent _ _ Hw)) as Hap.
  pose proof (tidy_at _ _ _ Ht Hu) as Ht0.
  eapply fill_stage_ok in H as (es & Hes & Hp & Hdesc & Hb & Hc);
    [|done|by rewrite H6, H5|done|done|done|done].
  exists N0, es. split_and!; try done. rewrite Hes. destruct N0; simpl; try done; repeat constructor.
Qed.

Lemma restore_uploads_ok b temp dd ud m snap es dk m' dk' :
  restore_uploads b temp dd ud m dk = (Ok m', dk') ->
  node_at dk.(dk_root) (b ++ [uploadsDirectory]) = Some (NDir es) -> tidy (NDir es) ->
  node_at dk.(dk_root) temp = Some (NFile snap) -> ~ b ++ [uploadsDirectory] `prefix_of` parent ud ->
  is_Some (node_at dk.(dk_root) (parent dd)) -> ~ ud `prefix_of` dd ->
  m' = m /\ node_at dk.(dk_root) dd = None /\ node_at dk.(dk_root) ud = None /\
  node_at dk'.(dk_root) dd = Some (NFile snap) /\ node_at dk'.(dk_root) ud = Some (NDir es).
Proof.
  intros H Hb Ht Htemp Hbu Hpar Hov. unfold restore_uploads in H.
  apply io_bind_ok in H as (us & dk1 & (name & -> & Hpl & Hnew & H1)%mkdir_temp_ok & H%unless_committed_ok).
  set (us := parent ud ++ [name]) in *. set (root := dk.(dk_root)) in *.
  pose proof (temp_apart _ _ _ _ _ Hb Hnew Hbu) as Hap. fold us in Hap.
  pose proof (file_apart _ _ _ _ Htemp Hnew Hpl) as Hap2.
  apply io_bind_ok in H as ([] & dk2 & Hcopy & H).
  destruct (id Hpl) as [?|(q & x & es0 & Hq1 & Hq2)]; [by destruct (parent ud)|].
  destruct (alike_Some _ _ _ (put_elsewhere root us (NDir []) q (absent_prefix _ _ _ _ Hnew Hq2)) Hq2)
    as ([| es1 | |] & Hq3 & Hs); try done. rewrite <- H1 in Hq3.
  eapply (copyTree_ok _ us (NDir es)) with (base := root) in Hcopy as [H2 _];
    [|done|exact Hq1|exact Hq3|done|done|done|by right]. simpl in H2.
  assert (keeps root dk2.(dk_root)) as Hk by (rewrite H2; by apply keeps_put).
  assert (node_at dk2.(dk_root) us = Some (NDir es)) as Hus by (rewrite H2; by apply node_at_put).
  assert (node_at dk2.(dk_root) temp = Some (NFile snap)) as Htemp2.
  { destruct Hap2. rewrite H2. by rewrite put_apart. }
  apply io_bind_ok in H as ([] & dk3 & Hc & [-> ->]%io_ret_ok). unfold commit_restore in Hc.
  apply io_bind_ok in Hc as ([] & dk4 & [Hdd H4]%requireAbsent_ok & Hc).
  apply io_bind_ok in Hc as ([] & dk5 & [Hud H5]%requireAbsent_ok & Hc). rewrite H4 in Hud.
  assert (apart us dd) as Hap3.
  { eapply new_apart; [done|done|by intros ->; congruence|by eapply absent_prefix]. }
  apply io_bind_ok in Hc as ([] & dk6 & Hr1 & Hc).
  eapply Rename_moved in Hr1 as [Hm1 Hrest1]; [|by rewrite H5, H4..].
  apply io_bind_ok in Hc as (r & dk7 & Hr2%try_io_ok & Hc). destruct r as [[]|e].
  2: { by apply io_bind_ok in Hc as (? & ? & _ & Hc). }
  apply io_ret_ok in Hc as [_ ->].
  assert (node_at dk6.(dk_root) us = Some (NDir es)) as Hus6
    by (rewrite Hrest1; [by rewrite H5, H4|done|by apply apart_sym]).
  destruct (Rename_ok _ _ _ _ Hr2) as (n2 & Hn2 & Hrep & Hp2 & _).
  assert (node_at dk6.(dk_root) ud = None) as Hnone.
  { rewrite Hus6 in Hn2. injection Hn2 as <-. destruct (node_at dk6.(dk_root) ud); [|done].
    simpl in Hrep. by rewrite andb_false_r in Hrep. }
  assert (apart dd ud) as Hap4 by (by eapply file_apart).
  eapply Rename_moved in Hr2 as [Hm2 Hrest2]; [|exact Hus6|exact Hnone].
  rewrite Hrest2 by (done || by apply apart_sym).
  split_and!; [done|by eapply keeps_absent|by eapply keeps_absent|done|done].
Qed.

(** A bundle that was made is laid out as the verification wants. *)
Lemma layout_run b snap m es dk :
  dk.(dk_faults) = [] -> node_at dk.(dk_root) b = Some (bundle_node snap m es) ->
  validateBundleLayout b dk = (Ok (), dk).
Proof.
  intros Hf Hb. unfold validateBundleLayout. rewrite (io_bind_run _ _ _ _ _ (Lstat_run _ _ _ Hf Hb)).
  unfold bundle_node in *. cbv beta iota.
  erewrite io_bind_run; [|apply observe_run; [done|]; by rewrite Hb]. done.
Qed.
Lemma regular_run p c dk :
  dk.(dk_faults) = [] -> node_at dk.(dk_root) p = Some (NFile c) -> requireRegularFile p dk = (Ok (), dk).
Proof. intros Hf Hp. unfold requireRegularFile. by rewrite (io_bind_run _ _ _ _ _ (Lstat_run _ _ _ Hf Hp)). Qed.
Lemma readManifest_run `{ML : !ManifestLaw} p m dk :
  dk.(dk_faults) = [] -> node_at dk.(dk_root) p = Some (NFile (manifest_text m)) ->
  manifest_safe m = true -> size (manifest_text m) <= maxManifest -> readManifest p dk = (Ok m, dk).
Proof.
  intros Hf Hp Hsafe Hs. unfold readManifest.
  erewrite io_bind_run; [|apply observe_run; [done|]; by rewrite Hp]. cbv beta iota.
  replace (maxManifest <? size (manifest_text m)) with false by (symmetry; by apply Z.ltb_ge).
  erewrite io_bind_run by done. erewrite io_bind_run by (by apply ReadFile_run). by rewrite manifest_decode_text by done.
Qed.
Lemma readManifest_size p m dk m' dk' :
  readManifest p dk = (Ok m', dk') -> node_at dk.(dk_root) p = Some (NFile (manifest_text m)) ->
  size (manifest_text m) <= maxManifest.
Proof.
  intros H Hp. unfold readManifest in H. apply io_bind_ok in H as (i & dk1 & [Hi H1]%observe_ok & H).
  rewrite Hp in Hi. injection Hi as <-.
  apply io_bind_ok in H as ([] & dk2 & [Hs%negb_true_iff _]%io_require_ok & _). by apply Z.ltb_ge in Hs.
Qed.
Lemma readManifest_ok `{ML : !ManifestLaw} p m dk m' dk' :
  readManifest p dk = (Ok m', dk') -> node_at dk.(dk_root) p = Some (NFile (manifest_text m)) ->
  manifest_safe m = true -> m' = m.
Proof.
  intros H Hp Hsafe. unfold readManifest in H. apply io_bind_ok in H as (i & dk1 & [Hi H1]%observe_ok & H).
  rewrite Hp in Hi. injection Hi as <-.
  apply io_bind_ok in H as ([] & dk2 & [_ ->]%io_require_ok & H).
  apply io_bind_ok in H as (c & dk3 & Hc & H).
  apply (ReadFile_ok _ (manifest_text m)) in Hc as [-> _]; [|by rewrite H1].
  rewrite manifest_decode_text in H by done. by apply io_ret_ok in H as [-> _].
Qed.

Lemma fingerprint_ok `{DL : !DigestLaws} secret :
  let f := Fingerprint secret in
  has_prefix f fingerprint_prefix = true /\ size f = size fingerprint_prefix + 32 /\
  hex_ok (of_bytes (drop (length (to_bytes fingerprint_prefix)) (to_bytes f))) = true.
Proof.
  unfold Fingerprint. set (h := hex_encode _). cbv zeta.
  assert (size h = 32 /\ hex_ok h = true) as [Hs Hh].
  { destruct (hex_encode_ok (of_bytes (take 16 (to_bytes (hmac_sha256 secret fingerprintDomain))))) as [H1 H2].
    fold h in H1, H2. rewrite to_of_bytes, length_take, hmac_length in H1. done. }
  unfold has_prefix, size in *. rewrite to_bytes_app. split_and!.
  - apply bytes_prefix_spec. by eexists.
  - rewrite length_app. lia.
  - by rewrite drop_app_length, of_to_bytes.
Qed.
Lemma described_valid `{DL : !DigestLaws} m snap secret es :
  describes m snap secret es -> tidy (NDir es) -> m.(mf_CreatedAt) <> zero_time -> validateManifest m = Ok ().
Proof.
  intros (Hv & Hty & Hdi & _ & Hdb & Hfp & Hup & _) Ht Hc. unfold validateManifest.
  destruct (inventory_checks es Ht) as (Hi & Hco & Hn & Hch). cbv zeta in *.
  destruct (fingerprint_ok secret) as (Hf1 & Hf2 & Hf3). cbv zeta in *.
  destruct (hex_encode_ok (sha256 snap)) as [Hh1 Hh2]. rewrite sha256_length in Hh1.
  rewrite Hv, Hty, Hdi, Hdb, Hfp, Hup, Hi, Hco, Hf1, Hf2, Hf3. unfold artifact. cbn [fa_Path fa_SHA256 fa_Size].
  rewrite Hh1, Hh2, Hn, !Z.eqb_refl, Hch.
  rewrite (proj2 (Z.eqb_neq _ _) Hc), !bool_decide_eq_true_2 by done. simpl.
  by rewrite (proj2 (Z.ltb_ge _ 0)) by apply Nat2Z.is_nonneg.
Qed.

Lemma bundle_parts t b snap m es :
  node_at t b = Some (bundle_node snap m es) ->
  node_at t (b ++ [databaseFilename]) = Some (NFile snap) /\
  node_at t (b ++ [manifestFilename]) = Some (NFile (manifest_text m)) /\
  node_at t (b ++ [uploadsDirectory]) = Some (NDir es).
Proof. intros H. by rewrite !node_at_app, H. Qed.

(** Without failures of the system such a bundle verifies. *)
Lemma VerifySQLite_run `{ML : !ManifestLaw, DL : !DigestLaws} b snap m secret es dk :
  dk.(dk_faults) = [] -> node_at dk.(dk_root) b = Some (bundle_node snap m es) ->
  describes m snap secret es -> tidy (NDir es) -> plain (NDir es) -> m.(mf_CreatedAt) <> zero_time ->
  manifest_safe m = true -> size (manifest_text m) <= maxManifest -> VerifySQLite b dk = (Ok m, dk).
Proof.
  intros Hf Hb Hdesc Ht Hp Hc Hsafe Hs. destruct (bundle_parts _ _ _ _ _ Hb) as (Hdb & Hmf & Hup).
  pose proof (described_valid _ _ _ _ Hdesc Ht Hc) as Hval.
  destruct Hdesc as (_ & _ & Hdi & Hins & Hart & _ & Hinv & _). unfold VerifySQLite.
  erewrite io_bind_run by (by eapply layout_run). cbv zeta.
  erewrite io_bind_run by (by eapply regular_run). erewrite io_bind_run by (by apply readManifest_run).
  rewrite Hval. erewrite io_bind_run by done. erewrite io_bind_run by (by eapply regular_run).
  erewrite io_bind_run.
  2: { unfold hashFile. by erewrite io_bind_run by (by apply ReadFile_run). }
  rewrite Hart, bool_decide_eq_true_2 by done. erewrite io_bind_run by done.
  erewrite io_bind_run.
  2: { unfold inspectSQLite. erewrite io_bind_run by (by apply ReadFile_run). by rewrite Hins. }
  simpl. rewrite Z.eqb_refl, Hdi. simpl. erewrite io_bind_run by done.
  erewrite io_bind_run by (by apply inventory_run). rewrite Hinv, uploadsEqual_refl. done.
Qed.
Lemma VerifySQLite_reads b snap m es dk m' dk' :
  VerifySQLite b dk = (Ok m', dk') -> node_at dk.(dk_root) b = Some (bundle_node snap m es) ->
  exists dk2 dk3, readManifest (b ++ [manifestFilename]) dk2 = (Ok m', dk3) /\
    node_at dk2.(dk_root) (b ++ [manifestFilename]) = Some (NFile (manifest_text m)).
Proof.
  intros H Hb. destruct (bundle_parts _ _ _ _ _ Hb) as (_ & Hmf & _). unfold VerifySQLite in H.
  apply io_bind_ok in H as ([] & dk1 & H1 & H). apply io_bind_ok in H as ([] & dk2 & H2 & H).
  pose proof (io_reads_root _ _ _ _ (reads_layout b) H1) as Hd1.
  pose proof (io_reads_root _ _ _ _ (reads_regular _) H2) as Hd2.
  apply io_bind_ok in H as (m1 & dk3 & Hm & H). exists dk2, dk3.
  do 8 (apply io_bind_ok in H as (? & ? & _ & H)). apply io_ret_ok in H as [-> _].
  by rewrite Hd2, Hd1.
Qed.
Lemma VerifySQLite_size b snap m es dk m' dk' :
  VerifySQLite b dk = (Ok m', dk') -> node_at dk.(dk_root) b = Some (bundle_node snap m es) ->
  size (manifest_text m) <= maxManifest.
Proof. intros H Hb. destruct (VerifySQLite_reads _ _ _ _ _ _ _ H Hb) as (? & ? & ? & ?). by eapply readManifest_size. Qed.
Lemma VerifySQLite_ok `{ML : !ManifestLaw} b snap m es dk m' dk' :
  VerifySQLite b dk = (Ok m', dk') -> node_at dk.(dk_root) b = Some (bundle_node snap m es) ->
  manifest_safe m = true -> m' = m /\ dk'.(dk_root) = dk.(dk_root).
Proof.
  intros H Hb Hsafe. split; [|exact (io_reads_root _ _ _ _ (reads_Verify b) H)].
  destruct (VerifySQLite_reads _ _ _ _ _ _ _ H Hb) as (? & ? & ? & ?). by eapply readManifest_ok.
Qed.

Lemma restore_stage_ok b name dd ud snap m es dk5 dk6 m' dk' :
  let ds := parent dd ++ [name] in
  restore_stage b ds dd ud m dk6 = (Ok m', dk') ->
  node_at dk5.(dk_root) b = Some (bundle_node snap m es) -> tidy (NDir es) ->
  ~ b `prefix_of` dd -> ~ b `prefix_of` ud -> ~ ud `prefix_of` dd ->
  placed dk5.(dk_root) ds -> node_at dk5.(dk_root) ds = None ->
  dk6.(dk_root) = put ds (NDir []) dk5.(dk_root) ->
  is_Some (node_at dk5.(dk_root) (parent dd)) -> is_Some (node_at dk5.(dk_root) (parent ud)) ->
  m' = m /\ node_at dk'.(dk_root) dd = Some (NFile snap) /\ node_at dk'.(dk_root) ud = Some (NDir es).
Proof.
  intros ds H Hb5 Ht Hbd Hbu Hov Hpl Hnew H6 Hpar5 Hparu.
  apply finally_ok in H as (dk7 & H & r & Hclean).
  pose proof (temp_apart _ _ _ _ _ Hb5 Hnew (prefix_parent _ _ Hbd)) as Hap. fold ds in Hap.
  assert (forall v s, node_at (put (ds ++ s) v dk6.(dk_root)) b = Some (bundle_node snap m es)) as Hb6.
  { intros v s. destruct (apart_app_l ds b s (apart_sym _ _ Hap)), Hap. rewrite put_apart, H6, put_apart by done.
    exact Hb5. }
  destruct (bundle_parts _ _ _ _ _ (Hb6 (NDir []) [])) as (Hdb6 & _ & _).
  rewrite app_nil_r, H6, put_put, <- H6 in Hdb6 by done.
  apply io_bind_ok in H as ([] & dk8 & Hcp & H). eapply copyRegularFile_ok in Hcp as [Hp8 H8]; [|exact Hdb6].
  apply io_bind_ok in H as (v & dk9 & Hi & H).
  pose proof (io_reads_root _ _ _ _ (reads_inspect _) Hi) as H9. rewrite H8 in H9.
  pose proof (Hb6 (NFile snap) [databaseFilename]) as Hb9. rewrite <- H9 in Hb9.
  destruct (bundle_parts _ _ _ _ _ Hb9) as (_ & _ & Hup9).
  assert (keeps dk5.(dk_root) dk9.(dk_root)) as Hk.
  { rewrite H9, H6. apply keeps_put; [by apply absent_below|]. by apply keeps_put. }
  assert (node_at dk9.(dk_root) (ds ++ [databaseFilename]) = Some (NFile snap)) as Htemp
    by (rewrite H9; by apply node_at_put).
  eapply (restore_uploads_ok _ _ _ _ _ snap es) in H as (-> & Hdd9 & Hud9 & Hdd7 & Hud7); [|done..| | |done].
  2: { intros [k Hk']. apply Hbu. etrans; [|apply (prefix_take ud (length ud - 1))].
       fold (parent ud). rewrite Hk', <- app_assoc. by apply prefix_app_r. }
  2: { destruct Hpar5 as [n Hn]. destruct (Hk _ _ Hn) as (n' & ? & _). by eexists. }
  assert (exists n, node_at dk9.(dk_root) ds = Some n) as [nds Hds].
  { destruct (node_at dk9.(dk_root) ds) eqn:Hds; [by eexists|]. by rewrite absent_below in Htemp. }
  assert (apart ds dd) as [Ha1 Ha2] by (eapply new_apart; [done..|by intros Heq; rewrite Heq in Hds; congruence|by eapply absent_prefix]).
  assert (apart ds ud) as [Ha3 Ha4] by (eapply new_apart; [done..|by intros Heq; rewrite Heq in Hds; congruence|by eapply absent_prefix]).
  split; [done|].
  destruct (RemoveAll_cases _ _ _ _ Hclean) as [->| ->]; [by split|].
  by rewrite !remove_apart.
Qed.

(** A restore that succeeds puts the snapshot and the uploads of the bundle where they
    were asked for. *)
Lemma RestoreSQLite_ok `{ML : !ManifestLaw} b dd ud secret snap m es dk m' dk' :
  RestoreSQLite b dd ud secret dk = (Ok m', dk') ->
  node_at dk.(dk_root) b = Some (bundle_node snap m es) -> tidy (NDir es) -> manifest_safe m = true ->
  m' = m /\ m.(mf_SecretFingerprint) = Fingerprint secret /\
  node_at dk'.(dk_root) dd = Some (NFile snap) /\ node_at dk'.(dk_root) ud = Some (NDir es).
Proof.
  intros H Hb Ht Hsafe. unfold RestoreSQLite in H. apply io_bind_ok in H as (m1 & dk1 & Hv & H).
  apply (VerifySQLite_ok _ snap m es) in Hv as (-> & H1); [|done..].
  apply io_bind_ok in H as ([] & dk2 & [Hfp%bool_decide_eq_true ->]%io_require_ok & H).
  apply io_bind_ok in H as ([] & dk2 & [Hov%negb_true_iff ->]%io_require_ok & H).
  apply io_bind_ok in H as ([] & dk2 & [Hin%negb_true_iff ->]%io_require_ok & H).
  unfold pathsOverlap, pathWithin in *. rewrite orb_false_iff, !bool_decide_eq_false in *. destruct Hin as [Hbd Hbu].
  apply io_bind_ok in H as ([] & dk2 & [Hdd H2]%requireAbsent_ok & H).
  apply io_bind_ok in H as ([] & dk3 & [Hud H3]%requireAbsent_ok & H).
  apply io_bind_ok in H as ([] & dk4 & Hmk1 & H). apply io_bind_ok in H as ([] & dk5 & Hmk2 & H).
  rewrite <- H1, <- H2, <- H3 in Hb.
  assert (is_Some (node_at dk4.(dk_root) (parent dd))) as Hpar4.
  { destruct (decide (parent dd = [])) as [->|Hne]; [by eexists|].
    destruct (MkdirAll_dir _ _ _ Hmk1 Hne). by eexists. }
  pose proof (MkdirAll_elsewhere _ _ _ _ _ Hmk1 Hb (prefix_parent _ _ Hbd)) as Hb4.
  pose proof (MkdirAll_elsewhere _ _ _ _ _ Hmk2 Hb4 (prefix_parent _ _ Hbu)) as Hb5.
  assert (is_Some (node_at dk5.(dk_root) (parent dd))) as Hpar5.
  { destruct Hpar4 as [n Hn]. pose proof (keeping_MkdirAll dk4.(dk_root) (parent ud) dk4) as [Hk _]; [done|].
    rewrite Hmk2 in Hk. destruct (Hk _ _ Hn) as (n' & ? & _). by eexists. }
  apply io_bind_ok in H as (ds & dk6 & (name & -> & Hpl & Hnew & H6)%mkdir_temp_ok & H).
  assert (is_Some (node_at dk5.(dk_root) (parent ud))) as Hparu.
  { destruct (decide (parent ud = [])) as [->|Hne]; [by eexists|].
    destruct (MkdirAll_dir _ _ _ Hmk2 Hne). by eexists. }
  eapply (restore_stage_ok b name dd ud snap m es dk5) in H as (-> & H7 & H8); done.
Qed.
End roundtrip.

Section promises.
Context `{E : Env} {T : TempNames} {B : BackupLib}.


(** A backup is made whatever the size of its manifest, but one of more than a mebibyte
    is never verified nor restored. *)
Lemma large_backup_refused {St} `{L : !MigrateLib St} (db : St) snap u d secret dk m dk1 dk2 :
  tidy dk.(dk_root) -> CreateSQLite db snap u d secret dk = (Ok m, dk1) ->
  maxManifest < size (manifest_text m) -> dk2.(dk_root) = dk1.(dk_root) ->
  (exists e, (VerifySQLite d dk2).1 = Err e) /\
  (forall dd ud secret', exists e, (RestoreSQLite d dd ud secret' dk2).1 = Err e).
Proof.
  intros Ht H Hs Hd. destruct (CreateSQLite_ok _ _ _ _ _ _ _ _ Ht H) as (N0 & es & _ & _ & _ & _ & _ & Hb & _).
  rewrite <- Hd in Hb.
  assert (exists e dk3, VerifySQLite d dk2 = (Err e, dk3)) as (e & dk3 & He).
  { destruct (VerifySQLite d dk2) as [[m'|e] dk3] eqn:Hv; [|eauto].
    apply (VerifySQLite_size _ snap m es) in Hv; [lia|done]. }
  split; [exists e; by rewrite He|]. intros dd ud secret'. exists e.
  unfold RestoreSQLite, io_bind. by rewrite He.
Qed.
End promises.

(** ** A host to run on *)

(** Digests of the right length, and a codec of manifests as bits. *)
Definition pad32 (s : string) : string :=
  of_bytes (take 32 (to_bytes s ++ replicate 32 (byte_of 0))).
Definition backup_env : Env :=
  {| clock := @clock demo_env; uuid_v7 := @uuid_v7 demo_env; rand_read := @rand_read demo_env;
     hmac_sha256 k m := pad32 k; sha256 := pad32; unicode_lower := @unicode_lower demo_env;
     json_strings := @json_strings demo_env; json_background := @json_background demo_env;
     url_scheme := @url_scheme demo_env; go_quote := @go_quote demo_env;
     render_invitation_html := @render_invitation_html demo_env;
     render_magic_link_html := @render_magic_link_html demo_env;
     format_event_date := @format_event_date demo_env; json_object := @json_object demo_env;
     json_list := @json_list demo_env; json_payload := @json_payload demo_env;
     mail_address := @mail_address demo_env; dialect := "sqlite" |}.
Lemma pad32_length s : length (to_bytes (pad32 s)) = 32%nat.
Proof. unfold pad32. rewrite to_of_bytes, length_take, length_app, length_replicate. lia. Qed.
#[local] Instance backup_digests : DigestLaws (E:=backup_env).
Proof. split; intros; apply pad32_length. Qed.

Fixpoint pos_bits (p : positive) : bytes :=
  match p with xH => [] | xO q => "0"%char :: pos_bits q | xI q => "1"%char :: pos_bits q end.
Fixpoint bits_pos (l : bytes) : positive :=
  match l with
  | [] => xH
  | c :: r => if ascii_dec c "0" then xO (bits_pos r) else if ascii_dec c "1" then xI (bits_pos r) else xH
  end.
Lemma bits_pos_bits p : bits_pos (pos_bits p ++ to_bytes nl) = p.
Proof.
  assert (bits_pos (to_bytes nl) = xH) as Ht by done. revert Ht. generalize (to_bytes nl). intros t Ht.
  induction p as [p IH|p IH|]; simpl; by rewrite ?IH.
Qed.

Definition flag (b : bool) : Z := if b then 1 else 0.
Definition manifest_fields (m : Manifest) : list (string + Z) :=
  let so := m.(mf_Source) in let db := m.(mf_Database) in let up := m.(mf_Uploads) in
  [inr m.(mf_FormatVersion); inr m.(mf_CreatedAt); inl so.(so_DatabaseType); inr so.(so_SchemaVersion);
   inr (flag so.(so_SchemaDirty)); inl so.(so_ApplicationVersion); inl so.(so_Commit); inl so.(so_BuildState);
   inl db.(fa_Path); inl db.(fa_SHA256); inr db.(fa_Size); inl m.(mf_SecretFingerprint);
   inr (flag up.(up_Included)); inl up.(up_Consistency); inr up.(up_FileCount); inr up.(up_TotalBytes)]
  ++ flat_map (fun f => [inl f.(fa_Path); inl f.(fa_SHA256); inr f.(fa_Size)]) up.(up_Files).
Fixpoint fields_files (l : list (string + Z)) : list FileArtifact :=
  match l with
  | inl p :: inl h :: inr n :: rest => MkArtifact p h n :: fields_files rest
  | _ => []
  end.
Definition fields_manifest (l : list (string + Z)) : option Manifest :=
  match l with
  | inr v :: inr t :: inl ty :: inr sv :: inr sd :: inl av :: inl co :: inl bs :: inl dp :: inl dh :: inr ds
      :: inl fp :: inr inc :: inl cons_ :: inr n :: inr tot :: files =>
      Some (MkManifest v t (MkSource ty sv (sd =? 1) av co bs) (MkArtifact dp dh ds) fp
              (MkUploads (inc =? 1) cons_ n tot (fields_files files)))
  | _ => None
  end.
Lemma fields_manifest_fields m : fields_manifest (manifest_fields m) = Some m.
Proof.
  destruct m as [v t [ty sv sd av co bs] [dp dh ds] fp [inc cn n tot files]]. simpl.
  assert (fields_files (flat_map (fun f => [inl f.(fa_Path); inl f.(fa_SHA256); inr f.(fa_Size)]) files) = files)
    as Hfiles.
  { induction files as [|[p h k] files IH]; simpl in *; [done|]. by rewrite IH. }
  rewrite Hfiles. by destruct sd, inc.
Qed.

#[local] Instance demo_lib : BackupLib := {|
  quick_check _ := Some ["ok"]; foreign_key_check _ := Some []; version_query _ := Some (Some (36, false));
  manifest_json m := of_bytes (pos_bits (encode (manifest_fields m)));
  manifest_decode s := decode (bits_pos (to_bytes s)) ≫= fields_manifest;
  build_info := ("dev", "unknown", "unknown") |}.
#[local] Instance demo_manifest_law : ManifestLaw.
Proof.
  split. intros m _. unfold manifest_text. simpl.
  rewrite to_bytes_app, to_of_bytes, bits_pos_bits, decode_encode. simpl. apply fields_manifest_fields.
Qed.
#[local] Instance demo_temps : TempNames := {| temp_suffix n := itoa (Z.of_nat n) |}.

Definition demo_root_with (uploads : Node) : Node :=
  NDir [("backups", NDir []); ("data", NDir [("stored", NDir [("ev.png", NFile "image")]); ("uploads", uploads)]);
        ("srv", NDir [])].
Definition demo_uploads : Node := NDir [("a", NDir [("b.png", NFile "B")]); ("ev.png", NFile "image")].
Definition demo_disk (uploads : Node) : Disk := MkDisk (demo_root_with uploads) [] 0 0.
Definition migrated_db : Library := MkLibrary source (Some (36, false)) [].
#[local] Abbreviation backup_run uploads :=
  (CreateSQLite (E:=backup_env) migrated_db "SQLite format 3" ["data"; "uploads"] ["backups"; "monday"] "secret"
    (demo_disk uploads)).
#[local] Abbreviation restore_run uploads :=
  (RestoreSQLite (E:=backup_env) ["backups"; "monday"] ["srv"; "owl.db"] ["srv"; "uploads"] "secret"
    (backup_run uploads).2).

Lemma demo_tidy : tidy (demo_root_with demo_uploads).
Proof.
  assert (forall x, existsb (fun c => bool_decide (c = "/"%char)) (to_bytes x) = false ->
            bool_decide (x ∈ [""; "."; ".."]) = false -> proper_name x) as Hname.
  { intros x Hs Hx. apply bool_decide_eq_false in Hx. split_and!; [set_solver..|].
    intros Hin. apply not_true_iff_false in Hs. apply Hs, existsb_exists. exists "/"%char.
    split; [by apply list_elem_of_In|by apply bool_decide_eq_true]. }
  repeat (constructor; simpl; try (apply Hname; vm_compute; reflexivity); try reflexivity).
Qed.

Definition is_ok {A} (r : res A) : bool := match r with Ok _ => true | Err _ => false end.
Lemma demo_backs_up : is_ok (backup_run demo_uploads).1 = true.
Proof. vm_compute. reflexivity. Qed.
Lemma demo_created_at :
  match (backup_run demo_uploads).1 with
  | Ok m => time_ok m.(mf_CreatedAt) && negb (m.(mf_CreatedAt) =? zero_time)
  | Err _ => false
  end = true.
Proof. vm_compute. reflexivity. Qed.
Lemma demo_restores : is_ok (restore_run demo_uploads).1 = true.
Proof. vm_compute. reflexivity. Qed.


(** A backup of uploads that are reached by a link has none of them, and says nothing. *)
Example linked_uploads_not_saved :
  (exists m, (backup_run (NLink ["data"; "stored"])).1 = Ok m /\ m.(mf_Uploads).(up_FileCount) = 0) /\
  node_at (restore_run (NLink ["data"; "stored"])).2.(dk_root) ["srv"; "uploads"] = Some (NDir []).
Proof. vm_compute. split; [eexists; split; reflexivity|reflexivity]. Qed.
