(* ===== verification/Auth.v ===== *)
(** * Organizer authentication (internal/auth)

    Users, magic links and login sessions: the store, the service, the handlers
    and the middleware.  Times of these tables have second precision
    ([time.RFC3339]).  The receiver of the store is the world's database; the
    service carries its configuration and its e-mail sender, which is any effect.
    The data export is not modelled; the deletion of an account is in
    [AccountDelete]. *)

From S2P Require Import Prelude.
From S2P Require Import GoStr.
From S2P Require Import GoTime.
From S2P Require Import Schema.
From S2P Require Import Eff.
From S2P Require Import Http.

Local Open Scope Z_scope.

(** ** model.go *)

Definition InstanceRoleAdmin : string := "admin".
Definition InstanceRoleUser : string := "user".
Definition UserStatusInvited : string := "invited".
Definition UserStatusActive : string := "active".
Definition UserStatusDisabled : string := "disabled".

Record User := MkUser {
  user_ID : string; user_Email : string; user_NormalizedEmail : string; user_Name : string;
  user_Timezone : string; user_InstanceRole : string; user_Status : string;
  user_IsAdmin : bool; user_InvitedByUserID : option string;
  user_ActivatedAt : option time; user_LastLoginAt : option time;
  user_CreatedAt : time; user_UpdatedAt : time }.
Record MagicLink := MkMagicLink {
  link_ID : string; link_TokenHash : string; link_OrganizerID : string;
  link_ExpiresAt : time; link_UsedAt : option time; link_CreatedAt : time }.
Record Session := MkSession {
  ses_ID : string; ses_TokenHash : string; ses_OrganizerID : string;
  ses_ExpiresAt : time; ses_CreatedAt : time }.
Record AuthResponse := MkAuthResponse { ar_Token : string; ar_Organizer : User }.
Record UpdateProfileRequest := MkProfile { up_Name : option string; up_Timezone : option string }.

(** The fields of [config.Config] the services of identities read. *)
Record Config := MkConfig {
  BaseURL : string; InstanceName : string; DefaultTimezone : string; AllowSignups : bool;
  MagicLinkExpiry : Z; SessionExpiry : Z; AccountInviteExpiry : Z;
  MaxCoHostsPerEvent : Z; IsDevelopment : bool; BootstrapToken : string }.

Definition EmailSender : Type := string -> string -> string -> string -> M ().

(** ** store.go *)

Definition parse_time (context : string) (s : string) : res time :=
  match parse_rfc3339 s with Some t => Ok t | None => Err (EInternal context) end.
Definition parse_time_opt (context : string) (s : option string) : res (option time) :=
  match s with
  | None => Ok None
  | Some s => t <-r parse_time context s ;; Ok (Some t)
  end.

Definition user_of_row (id : string) (r : UserRow) : res User :=
  activated <-r parse_time_opt "parse activated_at" r.(u_activated_at) ;;
  last_login <-r parse_time_opt "parse last_login_at" r.(u_last_login_at) ;;
  created <-r parse_time "parse created_at" r.(u_created_at) ;;
  updated <-r parse_time "parse updated_at" r.(u_updated_at) ;;
  Ok (MkUser id r.(u_email) r.(u_norm_email) r.(u_display_name) r.(u_timezone)
        r.(u_role) r.(u_status) (bool_decide (r.(u_role) = InstanceRoleAdmin)) r.(u_invited_by)
        activated last_login created updated).
Definition scanOrganizer (row : option (string * UserRow)) : res (option User) :=
  match row with
  | None => Ok None
  | Some (id, r) => u <-r user_of_row id r ;; Ok (Some u)
  end.

Definition magic_link_of_row (id : string) (r : MagicLinkRow) : res MagicLink :=
  expires <-r parse_time "parse expires_at" r.(ml_expires_at) ;;
  created <-r parse_time "parse created_at" r.(ml_created_at) ;;
  used <-r parse_time_opt "parse used_at" r.(ml_used_at) ;;
  Ok (MkMagicLink id r.(ml_token_hash) r.(ml_user_id) expires used created).
Definition session_of_row (id : string) (r : UserSessionRow) : res Session :=
  expires <-r parse_time "parse expires_at" r.(us_expires_at) ;;
  created <-r parse_time "parse created_at" r.(us_created_at) ;;
  Ok (MkSession id r.(us_token_hash) r.(us_user_id) expires created).

(** ** Rows the statements write *)

Definition new_user_row (email norm name timezone role status : string)
    (invitedBy activatedAt : option string) (now : string) : UserRow :=
  {| u_email := email; u_norm_email := norm; u_display_name := name; u_timezone := timezone;
     u_role := role; u_status := status; u_invited_by := invitedBy;
     u_activated_at := activatedAt; u_last_login_at := None; u_created_at := now;
     u_updated_at := now |}.
Definition profile_row (name timezone now : string) (r : UserRow) : UserRow :=
  {| u_email := r.(u_email); u_norm_email := r.(u_norm_email); u_display_name := name;
     u_timezone := timezone; u_role := r.(u_role); u_status := r.(u_status);
     u_invited_by := r.(u_invited_by); u_activated_at := r.(u_activated_at);
     u_last_login_at := r.(u_last_login_at); u_created_at := r.(u_created_at);
     u_updated_at := now |}.
Definition role_row (role now : string) (r : UserRow) : UserRow :=
  {| u_email := r.(u_email); u_norm_email := r.(u_norm_email);
     u_display_name := r.(u_display_name); u_timezone := r.(u_timezone); u_role := role;
     u_status := r.(u_status); u_invited_by := r.(u_invited_by);
     u_activated_at := r.(u_activated_at); u_last_login_at := r.(u_last_login_at);
     u_created_at := r.(u_created_at); u_updated_at := now |}.
Definition login_row (now : string) (r : UserRow) : UserRow :=
  {| u_email := r.(u_email); u_norm_email := r.(u_norm_email);
     u_display_name := r.(u_display_name); u_timezone := r.(u_timezone); u_role := r.(u_role);
     u_status := r.(u_status); u_invited_by := r.(u_invited_by);
     u_activated_at := r.(u_activated_at); u_last_login_at := Some now;
     u_created_at := r.(u_created_at); u_updated_at := now |}.
Definition promote_row (name timezone now : string) (r : UserRow) : UserRow :=
  {| u_email := r.(u_email); u_norm_email := r.(u_norm_email); u_display_name := name;
     u_timezone := timezone; u_role := InstanceRoleAdmin; u_status := UserStatusActive;
     u_invited_by := r.(u_invited_by); u_activated_at := Some (default now r.(u_activated_at));
     u_last_login_at := r.(u_last_login_at); u_created_at := r.(u_created_at);
     u_updated_at := now |}.
Definition activate_row (now : string) (r : UserRow) : UserRow :=
  {| u_email := r.(u_email); u_norm_email := r.(u_norm_email);
     u_display_name := r.(u_display_name); u_timezone := r.(u_timezone); u_role := r.(u_role);
     u_status := UserStatusActive; u_invited_by := r.(u_invited_by);
     u_activated_at := Some now; u_last_login_at := r.(u_last_login_at);
     u_created_at := r.(u_created_at); u_updated_at := now |}.
Definition use_link_row (now : string) (r : MagicLinkRow) : MagicLinkRow :=
  {| ml_token_hash := r.(ml_token_hash); ml_user_id := r.(ml_user_id);
     ml_expires_at := r.(ml_expires_at); ml_used_at := Some now;
     ml_created_at := r.(ml_created_at) |}.

(** [UPDATE users SET ... WHERE id = ? AND status ...] and its number of rows. *)
Definition update_user (ctx id : string) (Q : UserRow -> bool) (f : UserRow -> UserRow) : M Z :=
  stmt ctx (fun d => let '(t, n) := update_id id Q f d.(users) in
                     Some (n, set_users (fun _ => t) d)).

Section auth.
Context `{E : Env}.

Definition normalizeEmail (email : string) : string := to_lower (trim_space email).

Definition FindOrganizerByEmail (email : string) : M (option User) :=
  row <- query "scan organizer" (fun d =>
    select_row (fun _ r => bool_decide (r.(u_norm_email) = normalizeEmail email)) d.(users)) ;;
  of_res (scanOrganizer row).

Definition findOrganizerByID (id : string) : M (option User) :=
  row <- query "scan organizer" (fun d => pair id <$> d.(users) !! id) ;;
  of_res (scanOrganizer row).

Definition createUser (email0 name timezone0 role status : string) (invitedBy : option string)
    : M (option User) :=
  id <- new_uuid ;;
  t <- now ;;
  let nowText := format_rfc3339 t in
  let email := trim_space email0 in
  let timezone := if bool_decide (timezone0 = "") then "UTC" else timezone0 in
  let activatedAt := if bool_decide (status = UserStatusActive) then Some nowText else None in
  exec "create user"
    (insert_user id (new_user_row email (normalizeEmail email) name timezone role status
                       invitedBy activatedAt nowText)) ;;;
  findOrganizerByID id.
Definition CreateOrganizer (email : string) : M (option User) :=
  with_tx "begin create user" "commit create user"
    (createUser email "" "UTC" InstanceRoleUser UserStatusActive None).

Definition UpdateOrganizer (organizer : User) : M () :=
  t <- now ;;
  update_user "update user" organizer.(user_ID) (fun _ => true)
    (profile_row organizer.(user_Name) organizer.(user_Timezone) (format_rfc3339 t)) ;;;
  ret ().

Definition CreateMagicLink (tokenHash organizerID : string) (expiresAt : time) : M () :=
  id <- new_uuid ;;
  t <- now ;;
  exec "create magic link"
    (insert_magic_link id {| ml_token_hash := tokenHash; ml_user_id := organizerID;
       ml_expires_at := format_rfc3339 expiresAt; ml_used_at := None;
       ml_created_at := format_rfc3339 t |}).

Definition FindMagicLinkByHash (tokenHash : string) : M (option MagicLink) :=
  row <- query "find magic link by hash" (fun d =>
    select_row (fun _ r => bool_decide (r.(ml_token_hash) = tokenHash)) d.(magic_links)) ;;
  match row with
  | None => ret None
  | Some (id, r) => l <- of_res (magic_link_of_row id r) ;; ret (Some l)
  end.

(** The links [UPDATE magic_links ... WHERE id = ? AND used_at IS NULL AND expires_at > ?]
    reaches. *)
Definition live_link (now : string) (r : MagicLinkRow) : bool :=
  is_null r.(ml_used_at) && str_lt now r.(ml_expires_at).
Definition markMagicLinkUsed (id : string) (at_ : time) : M () :=
  let nowText := format_rfc3339 at_ in
  n <- stmt "mark magic link used" (fun d =>
         let '(t, n) := update_id id (live_link nowText) (use_link_row nowText) d.(magic_links) in
         Some (n, set_magic_links (fun _ => t) d)) ;;
  require (n =? 1) ErrInvalidToken.
Definition MarkMagicLinkUsed (id : string) : M () := t <- now ;; markMagicLinkUsed id t.

Definition createSession (tokenHash organizerID : string) (expiresAt : time) : M Session :=
  id <- new_uuid ;;
  t <- now ;;
  exec "create session"
    (insert_user_session id {| us_token_hash := tokenHash; us_user_id := organizerID;
       us_expires_at := format_rfc3339 expiresAt; us_created_at := format_rfc3339 t |}) ;;;
  created <- now ;;
  ret (MkSession id tokenHash organizerID expiresAt created).

Definition FindSessionByHash (tokenHash : string) : M (option Session) :=
  row <- query "find session by hash" (fun d =>
    select_row (fun _ r => bool_decide (r.(us_token_hash) = tokenHash)) d.(sessions)) ;;
  match row with
  | None => ret None
  | Some (id, r) => s <- of_res (session_of_row id r) ;; ret (Some s)
  end.

Definition DeleteSession (id : string) : M () :=
  exec "delete session" (fun d => Some (set_sessions (delete id) d)).
Definition DeleteExpiredSessions : M () :=
  t <- now ;;
  exec "delete expired sessions" (fun d => Some (set_sessions
    (delete_where (fun _ s => str_lt s.(us_expires_at) (format_rfc3339 t))) d)).
Definition DeleteExpiredMagicLinks : M () :=
  t <- now ;;
  exec "delete expired magic links" (fun d => Some (set_magic_links
    (delete_where (fun _ l => str_lt l.(ml_expires_at) (format_rfc3339 t))) d)).

Definition SetAdminStatus (id : string) (isAdmin : bool) : M () :=
  t <- now ;;
  update_user "set user role" id (fun _ => true)
    (role_row (if isAdmin then InstanceRoleAdmin else InstanceRoleUser) (format_rfc3339 t)) ;;;
  ret ().

Definition has_status (status : string) (r : UserRow) : bool := bool_decide (r.(u_status) = status).

Definition TouchLastLoginTx (id : string) (at_ : time) : M () :=
  n <- update_user "touch last login" id (has_status UserStatusActive)
         (login_row (format_rfc3339 at_)) ;;
  require (n =? 1) ErrInvalidToken.

Definition PromoteBootstrapAdminTx (id name timezone0 : string) (at_ : time) : M (option User) :=
  let timezone := if bool_decide (timezone0 = "") then "UTC" else timezone0 in
  n <- update_user "promote bootstrap admin" id (fun _ => true)
         (promote_row name timezone (format_rfc3339 at_)) ;;
  require (n =? 1) (EInternal "promote bootstrap admin: user not found") ;;;
  findOrganizerByID id.

Definition ActivateInvitedUserTx (id : string) (at_ : time) : M (option User) :=
  n <- update_user "activate invited user" id (has_status UserStatusInvited)
         (activate_row (format_rfc3339 at_)) ;;
  require (n =? 1) ErrInvalidToken ;;;
  findOrganizerByID id.

(** ** service.go *)

Record Service := MkAuthService { cfg : Config; sendEmail : option EmailSender }.
Context (s : Service).

(** The hexadecimal SHA-256 of a token. *)
Definition hashToken (token : string) : string := hex_encode (sha256 token).

Definition RenderMagicLink (baseURL token : string) (expiryMinutes : Z) : res (string * string) :=
  let url := baseURL +:+ "/auth/verify?token=" +:+ token in
  match render_magic_link_html url expiryMinutes with
  | None => Err (EInternal "render magic link template")
  | Some html =>
      Ok (html, "Sign in to Owl Invites" +:+ nl +:+ nl +:+ "Click the link below to sign in:" +:+ nl
                +:+ url +:+ nl +:+ nl +:+ "This link expires in " +:+ itoa expiryMinutes
                +:+ " minutes." +:+ nl +:+ nl
                +:+ "If you did not request this link, you can safely ignore this email.")
  end.

(** The organizer of an address, created when signups are open. *)
Definition find_or_create (email : string) : M (option User) :=
  o <- FindOrganizerByEmail email ;;
  match o with
  | Some u => ret (Some u)
  | None => if s.(cfg).(AllowSignups) then CreateOrganizer email else ret None
  end.

(** The tail of [RequestMagicLink]: rendering or sending errors are only logged. *)
Definition send_magic_link (email token : string) : M () :=
  match s.(sendEmail) with
  | None => ret ()
  | Some send =>
      match RenderMagicLink s.(cfg).(BaseURL) token (Z.quot s.(cfg).(MagicLinkExpiry) minute) with
      | Err _ => ret ()
      | Ok (html, plain) => ignore_err (send email "Sign in to Owl Invites" html plain)
      end
  end.

Definition RequestMagicLink (email : string) : M () :=
  if negb (mail_address_ok email) then fail ErrInvalidEmail else
  o <- find_or_create email ;;
  match o with
  | None => ret ()
  | Some organizer =>
      if negb (bool_decide (organizer.(user_Status) = UserStatusActive)) then ret () else
      raw <- read_random 32 ;;
      bytes <- of_option (EInternal "generate token") raw ;;
      let tokenHex := hex_encode bytes in
      t <- now ;;
      CreateMagicLink (hashToken tokenHex) organizer.(user_ID) (t + s.(cfg).(MagicLinkExpiry)) ;;;
      send_magic_link email tokenHex
  end.

Definition with_last_login (u : User) (at_ : time) : User :=
  MkUser u.(user_ID) u.(user_Email) u.(user_NormalizedEmail) u.(user_Name) u.(user_Timezone)
    u.(user_InstanceRole) u.(user_Status) u.(user_IsAdmin) u.(user_InvitedByUserID)
    u.(user_ActivatedAt) (Some at_) u.(user_CreatedAt) u.(user_UpdatedAt).

Definition is_active (u : User) : bool := bool_decide (u.(user_Status) = UserStatusActive).

(** The transaction of [VerifyMagicLink]. *)
Definition consume_link (ml : MagicLink) (sessionHash : string) (expiresAt : time) : M User :=
  o <- findOrganizerByID ml.(link_OrganizerID) ;;
  match o with
  | None => fail ErrInvalidToken
  | Some organizer =>
      require (is_active organizer) ErrInvalidToken ;;;
      loginAt <- now ;;
      markMagicLinkUsed ml.(link_ID) loginAt ;;;
      createSession sessionHash ml.(link_OrganizerID) expiresAt ;;;
      TouchLastLoginTx ml.(link_OrganizerID) loginAt ;;;
      ret (with_last_login organizer loginAt)
  end.

Definition VerifyMagicLink (rawToken : string) : M AuthResponse :=
  o <- FindMagicLinkByHash (hashToken rawToken) ;;
  match o with
  | None => fail ErrInvalidToken
  | Some ml =>
      require (bool_decide (ml.(link_UsedAt) = None)) ErrInvalidToken ;;;
      t <- now ;;
      require (t <=? ml.(link_ExpiresAt)) ErrInvalidToken ;;;
      raw <- read_random 32 ;;
      bytes <- of_option (EInternal "generate session token") raw ;;
      let sessionTokenHex := hex_encode bytes in
      t2 <- now ;;
      organizer <- with_tx "begin tx" "commit tx"
        (consume_link ml (hashToken sessionTokenHex) (t2 + s.(cfg).(SessionExpiry))) ;;
      ret (MkAuthResponse sessionTokenHex organizer)
  end.

Definition ValidateSession (rawToken : string) : M User :=
  o <- FindSessionByHash (hashToken rawToken) ;;
  match o with
  | None => fail ErrSessionNotFound
  | Some session =>
      t <- now ;;
      if session.(ses_ExpiresAt) <? t
      then ignore_err (DeleteSession session.(ses_ID)) ;;; fail ErrSessionNotFound
      else
        u <- findOrganizerByID session.(ses_OrganizerID) ;;
        match u with
        | Some organizer =>
            if is_active organizer then ret organizer
            else ignore_err (DeleteSession session.(ses_ID)) ;;; fail ErrSessionNotFound
        | None => ignore_err (DeleteSession session.(ses_ID)) ;;; fail ErrSessionNotFound
        end
  end.

Definition Logout (rawToken : string) : M () :=
  o <- FindSessionByHash (hashToken rawToken) ;;
  match o with
  | None => fail ErrSessionNotFound
  | Some session => DeleteSession session.(ses_ID)
  end.
End auth.
