(* ===== verification/AccountDelete.v ===== *)
(** * Deleting an account (internal/auth/store.go, DeleteOrganizerCascade)

    The statements of the transaction with the REFERENCES actions of the tables
    they reach: ON DELETE CASCADE, ON DELETE SET NULL, and the failure of a
    statement that would leave a row with a reference to nothing.  Since the
    database keeps every reference resolved, a row goes when its parent is not
    there after the statement. *)

From S2P Require Import Prelude.
From S2P Require Import GoStr.
From S2P Require Import GoTime.
From S2P Require Import Schema.
From S2P Require Import Eff.
From S2P Require Import Respect.
From S2P Require Import Tables.
From S2P Require Import History.
From S2P Require Import Auth.

Local Open Scope Z_scope.

(** [id IN (SELECT id ... )] *)
Definition gone {R : Type} (t : gmap string R) (id : string) : bool := negb (has id t).
Definition gone_opt {R} (t : gmap string R) (id : option string) : bool :=
  match id with Some i => gone t i | None => false end.
(** [ON DELETE SET NULL] *)
Definition or_null {R} (t : gmap string R) (id : option string) : option string :=
  if has_opt id t then id else None.

(** [SET NULL] of one column. *)
Definition log_event_row {R} (t : gmap string R) (l : LogRow) : LogRow :=
  {| l_event_id := l.(l_event_id); l_invitation_id := or_null t l.(l_invitation_id);
     l_channel := l.(l_channel); l_provider := l.(l_provider); l_status := l.(l_status);
     l_error := l.(l_error); l_sent_at := l.(l_sent_at); l_created_at := l.(l_created_at);
     l_recipient := l.(l_recipient); l_subject := l.(l_subject);
     l_message_id := l.(l_message_id); l_delivery_status := l.(l_delivery_status);
     l_delivered_at := l.(l_delivered_at); l_opened_at := l.(l_opened_at);
     l_clicked_at := l.(l_clicked_at); l_bounced_at := l.(l_bounced_at);
     l_bounce_type := l.(l_bounce_type); l_complaint_at := l.(l_complaint_at) |}.
Definition audit_event_row {R} (es : gmap string R) (a : AuditRow) : AuditRow :=
  {| al_actor := a.(al_actor); al_actor_kind := a.(al_actor_kind); al_action := a.(al_action);
     al_target := a.(al_target); al_event := or_null es a.(al_event);
     al_metadata := a.(al_metadata); al_created_at := a.(al_created_at) |}.
Definition audit_user_row {R} (us : gmap string R) (a : AuditRow) : AuditRow :=
  {| al_actor := or_null us a.(al_actor); al_actor_kind := a.(al_actor_kind);
     al_action := a.(al_action); al_target := or_null us a.(al_target); al_event := a.(al_event);
     al_metadata := a.(al_metadata); al_created_at := a.(al_created_at) |}.

(** The rows that go when their parent is gone: [f] is the reference. *)
Definition cascade {R P} (f : R -> string) (parents : gmap string P) (t : gmap string R)
    : gmap string R := delete_where (fun _ r => gone parents (f r)) t.

(** The tables below [events], in the order of their references. *)
Definition cascade_events (d : Database) : Database :=
  let d := set_event_questions (cascade q_event_id d.(events)) d in
  let d := set_open_enrollments (cascade o_event_id d.(events)) d in
  let d := set_invitations (delete_where (fun _ i => gone d.(events) i.(i_event_id)
             || gone_opt d.(open_enrollments) i.(i_open_id))) d in
  let d := set_guests (cascade g_invitation_id d.(invitations)) d in
  let d := set_rsvp_responses (cascade r_invitation_id d.(invitations)) d in
  let d := set_guest_responses (delete_where (fun _ g => gone d.(rsvp_responses) g.(gr_response_id)
             || gone d.(guests) g.(gr_guest_id))) d in
  let d := set_invitation_answers (cascade ia_invitation_id d.(invitations)) d in
  let d := set_guest_answers (cascade ga_guest_id d.(guests)) d in
  let d := set_invitation_sessions (cascade s_invitation_id d.(invitations)) d in
  let d := set_invitation_recovery_tokens (cascade rt_invitation_id d.(invitations)) d in
  let d := set_invitation_recovery_attempts (cascade ra_event_id d.(events)) d in
  let d := set_invitation_messages (cascade m_event_id d.(events)) d in
  let d := set_invite_cards (cascade c_event_id d.(events)) d in
  let d := set_notification_log (fun t => log_event_row d.(invitations) <$>
             cascade l_event_id d.(events) t) d in
  let d := set_reminders (cascade rm_event_id d.(events)) d in
  let d := set_webhooks (cascade wh_event_id d.(events)) d in
  let d := set_webhook_deliveries (cascade wd_webhook_id d.(webhooks)) d in
  let d := set_email_suppressions (delete_where (fun _ x => gone_opt d.(events) x.(sp_event_id))) d in
  let d := set_unsubscribe_tokens (delete_where (fun _ x => gone_opt d.(events) x.(ut_event_id))) d in
  let d := set_event_memberships (cascade em_event_id d.(events)) d in
  let d := set_account_invites (delete_where (fun _ a => gone_opt d.(events) a.(ai_event_id))) d in
  set_admin_audit_log (fmap (audit_event_row d.(events))) d.

(** Answers do not cascade through questions: one left without its question
    fails the statement. *)
Definition answers_resolve (d : Database) : bool :=
  forallb (fun x => has x.2.(ia_question_id) d.(event_questions)) (map_to_list d.(invitation_answers))
  && forallb (fun x => has x.2.(ga_question_id) d.(event_questions)) (map_to_list d.(guest_answers)).

(** [DELETE FROM events WHERE id IN ...] *)
Definition delete_events (P : string -> bool) (d : Database) : option Database :=
  let d' := cascade_events (set_events (delete_where (fun id _ => P id)) d) in
  if answers_resolve d' then Some d' else None.

(** The references to [users] that neither cascade nor become NULL. *)
Definition users_resolve (d : Database) : bool :=
  forallb (fun x => has_opt x.2.(u_invited_by) d.(users)) (map_to_list d.(users))
  && forallb (fun x => has x.2.(ml_user_id) d.(users)) (map_to_list d.(magic_links))
  && forallb (fun x => has x.2.(us_user_id) d.(users)) (map_to_list d.(sessions))
  && forallb (fun x => has x.2.(sr_owner) d.(users)) (map_to_list d.(event_series))
  && forallb (fun x => has x.2.(ai_target) d.(users) && has x.2.(ai_invited_by) d.(users))
       (map_to_list d.(account_invites))
  && forallb (fun x => has x.2.(em_granted_by) d.(users)) (map_to_list d.(event_memberships)).

Definition invitation_creator_row {R} (us : gmap string R) (i : InvitationRow) : InvitationRow :=
  {| i_event_id := i.(i_event_id); i_label := i.(i_label); i_contact_email := i.(i_contact_email);
     i_norm_email := i.(i_norm_email); i_contact_phone := i.(i_contact_phone);
     i_norm_phone := i.(i_norm_phone); i_method := i.(i_method); i_allowance := i.(i_allowance);
     i_source := i.(i_source); i_open_id := i.(i_open_id); i_access_id := i.(i_access_id);
     i_token_version := i.(i_token_version); i_created_by := or_null us i.(i_created_by);
     i_revoked_at := i.(i_revoked_at); i_reason := i.(i_reason); i_created_at := i.(i_created_at);
     i_updated_at := i.(i_updated_at) |}.
Definition open_creator_row {R} (us : gmap string R) (o : OpenRow) : OpenRow :=
  {| o_event_id := o.(o_event_id); o_access_id := o.(o_access_id);
     o_token_version := o.(o_token_version); o_enabled := o.(o_enabled);
     o_opens_at := o.(o_opens_at); o_closes_at := o.(o_closes_at);
     o_max_party_size := o.(o_max_party_size); o_capacity := o.(o_capacity);
     o_created_by := or_null us o.(o_created_by); o_revoked_at := o.(o_revoked_at);
     o_created_at := o.(o_created_at); o_updated_at := o.(o_updated_at) |}.
Definition sender_row {R} (us : gmap string R) (m : MessageRow) : MessageRow :=
  {| m_event_id := m.(m_event_id); m_sender := or_null us m.(m_sender); m_group := m.(m_group);
     m_subject := m.(m_subject); m_body := m.(m_body); m_created_at := m.(m_created_at) |}.

(** [DELETE FROM users WHERE id = ?] *)
Definition delete_user (id : string) (d : Database) : option Database :=
  let d := set_users (delete id) d in
  let d := set_event_memberships (cascade em_user_id d.(users)) d in
  let d := set_open_enrollments (fmap (open_creator_row d.(users))) d in
  let d := set_invitations (fmap (invitation_creator_row d.(users))) d in
  let d := set_invitation_messages (fmap (sender_row d.(users))) d in
  let d := set_admin_audit_log (fmap (audit_user_row d.(users))) d in
  if users_resolve d then Some d else None.

(** ** The statements of the transaction *)

(** [(SELECT event_id FROM event_memberships WHERE user_id = ? AND role = 'owner')] *)
Definition owns (userID : string) (d : Database) (eventID : string) : bool :=
  existsb (fun x => bool_decide (x.2.(em_event_id) = eventID)
                    && bool_decide (x.2.(em_user_id) = userID)
                    && bool_decide (x.2.(em_role) = "owner")) (map_to_list d.(event_memberships)).
(** Whether the event of an invitation is one of these. *)
Definition invitation_owned (userID : string) (d : Database) (invitationID : string) : bool :=
  match d.(invitations) !! invitationID with
  | Some i => owns userID d i.(i_event_id)
  | None => false
  end.
Definition guest_owned (userID : string) (d : Database) (guestID : string) : bool :=
  match d.(guests) !! guestID with
  | Some g => invitation_owned userID d g.(g_invitation_id)
  | None => false
  end.

Definition webhook_owned (userID : string) (d : Database) (webhookID : string) : bool :=
  match d.(webhooks) !! webhookID with
  | Some x => owns userID d x.(wh_event_id)
  | None => false
  end.

(** The owner's id of an event, NULL when it has none. *)
Definition owner_id (eventID : string) (d : Database) : option string :=
  (fun x => x.2.(em_user_id)) <$>
    select_row (fun _ m => bool_decide (m.(em_event_id) = eventID)
                           && bool_decide (m.(em_role) = "owner")) d.(event_memberships).
Definition granted_row (grantedBy : string) (m : MembershipRow) : MembershipRow :=
  {| em_event_id := m.(em_event_id); em_user_id := m.(em_user_id); em_role := m.(em_role);
     em_granted_by := grantedBy; em_created_at := m.(em_created_at);
     em_updated_at := m.(em_updated_at) |}.
(** Memberships of others that the user granted. *)
Definition granted_to_others (userID : string) (m : MembershipRow) : bool :=
  bool_decide (m.(em_granted_by) = userID) && negb (bool_decide (m.(em_user_id) = userID)).
(** The column is NOT NULL: a membership of an event without an owner fails the
    statement. *)
Definition reattribute (userID : string) (d : Database) : option Database :=
  if forallb (fun x => negb (granted_to_others userID x.2)
                       || negb (bool_decide (owner_id x.2.(em_event_id) d = None)))
       (map_to_list d.(event_memberships))
  then Some (set_event_memberships (update_where (fun _ m => granted_to_others userID m)
              (fun m => granted_row (default "" (owner_id m.(em_event_id) d)) m)) d)
  else None.

Definition uninvited_row (r : UserRow) : UserRow :=
  {| u_email := r.(u_email); u_norm_email := r.(u_norm_email);
     u_display_name := r.(u_display_name); u_timezone := r.(u_timezone); u_role := r.(u_role);
     u_status := r.(u_status); u_invited_by := None; u_activated_at := r.(u_activated_at);
     u_last_login_at := r.(u_last_login_at); u_created_at := r.(u_created_at);
     u_updated_at := r.(u_updated_at) |}.

Definition is_owner_of {R} (f : R -> string) (userID : string) (_ : string) (r : R) : bool :=
  bool_decide (f r = userID).

Definition delete_statements (userID : string) : list (Database -> option Database) :=
  [ (fun d => Some (set_webhook_deliveries
       (delete_where (fun _ x => webhook_owned userID d x.(wd_webhook_id))) d));
    (fun d => Some (set_invitation_answers
       (delete_where (fun _ a => invitation_owned userID d a.(ia_invitation_id))) d));
    (fun d => Some (set_guest_answers
       (delete_where (fun _ a => guest_owned userID d a.(ga_guest_id))) d));
    (fun d => delete_events (owns userID d) d);
    reattribute userID;
    (fun d => Some (fold_right delete_series d
       (select (is_owner_of sr_owner userID) d.(event_series)).*1));
    (fun d => Some (set_magic_links (delete_where (is_owner_of ml_user_id userID)) d));
    (fun d => Some (set_sessions (delete_where (is_owner_of us_user_id userID)) d));
    (fun d => Some (set_account_invites (delete_where (fun _ a =>
       bool_decide (a.(ai_target) = userID) || bool_decide (a.(ai_invited_by) = userID))) d));
    (fun d => Some (set_users (update_where (fun _ u =>
       bool_decide (u.(u_invited_by) = Some userID)) uninvited_row) d));
    delete_user userID ].

Section delete_account.
Context `{E : Env}.

Definition DeleteOrganizerCascade (organizerID : string) : M () :=
  with_tx "begin tx" "commit tx" (
    forM (delete_statements organizerID) (exec "cascade delete")).

Definition DeleteAccount (organizerID : string) : M () := DeleteOrganizerCascade organizerID.
End delete_account.

(** ** The whole transaction *)

(** The statements one after the other. *)
Fixpoint in_turn (l : list (Database -> option Database)) (d : Database) : option Database :=
  match l with
  | [] => Some d
  | f :: l => match f d with Some d' => in_turn l d' | None => None end
  end.
Lemma forM_exec ctx l w u w1 :
  forM l (exec ctx) w = (Ok u, w1) -> in_turn l w.(w_db) = Some w1.(w_db).
Proof.
  revert w. induction l as [|f l IH]; intros w H; simpl in *; [by injection H as _ <-|].
  apply bind_ok in H as ([] & w2 & (Hf & _)%exec_ok & H). rewrite Hf. apply IH. exact H.
Qed.

(** ** What the statements do *)

Lemma delete_events_ok P d d' :
  delete_events P d = Some d' -> d' = cascade_events (set_events (delete_where (fun id _ => P id)) d).
Proof.
  unfold delete_events. destruct (answers_resolve _); intros H; [|discriminate H].
  symmetry. exact (inj Some _ _ H).
Qed.

Definition regranted (u : string) (d : Database) : gmap string MembershipRow :=
  update_where (fun _ m => granted_to_others u m)
    (fun m => granted_row (default "" (owner_id m.(em_event_id) d)) m) d.(event_memberships).
Lemma reattribute_ok u d d' :
  reattribute u d = Some d' -> d' = set_event_memberships (fun _ => regranted u d) d.
Proof.
  unfold reattribute. destruct (forallb _ _); intros H; [|discriminate H].
  symmetry. exact (inj Some _ _ H).
Qed.

(** Deleting series unlinks their events. *)
Definition unlinked (ids : list string) (r : EventRow) : EventRow :=
  match r.(e_series_id) with
  | Some i => if bool_decide (i ∈ ids) then unlink_series r else r
  | None => r
  end.
Lemma delete_series_all ids d :
  exists es ss, fold_right delete_series d ids = set_events (fun _ => es) (set_event_series (fun _ => ss) d) /\
    (forall k, es !! k = unlinked ids <$> d.(events) !! k) /\
    forall k, ss !! k = if bool_decide (k ∈ ids) then None else d.(event_series) !! k.
Proof.
  induction ids as [|i ids (es & ss & IH & He & Hs)]; simpl.
  - exists d.(events), d.(event_series). split_and!; [by destruct d|..]; intros k; [|done].
    destruct (events d !! k) as [r|]; simpl; [|done]. unfold unlinked. by destruct (e_series_id r).
  - rewrite IH. exists (update_where (fun _ r => bool_decide (r.(e_series_id) = Some i)) unlink_series es), (delete i ss).
    split; [reflexivity|]. split; intros k.
    + unfold update_where. rewrite map_lookup_imap, He.
      destruct (events d !! k) as [r|]; simpl; [|done]. f_equal. unfold unlinked.
      destruct (e_series_id r) as [j|] eqn:Ej; [|by rewrite Ej].
      destruct (bool_decide_reflect (j ∈ ids)).
      * simpl. by rewrite bool_decide_true by set_solver.
      * rewrite Ej. destruct (decide (j = i)) as [->|].
        -- rewrite !bool_decide_true by set_solver. done.
        -- rewrite !bool_decide_false by (congruence || set_solver). done.
    + destruct (decide (k = i)) as [->|].
      * rewrite lookup_delete_eq. by rewrite bool_decide_true by set_solver.
      * rewrite lookup_delete_ne by done. rewrite Hs. do 2 case_bool_decide; set_solver.
Qed.

Lemma delete_user_ok u d d' :
  delete_user u d = Some d' ->
  users_resolve d' = true /\
  let us := delete u d.(users) in
  d' = set_admin_audit_log (fmap (audit_user_row us))
        (set_invitation_messages (fmap (sender_row us))
          (set_invitations (fmap (invitation_creator_row us))
            (set_open_enrollments (fmap (open_creator_row us))
              (set_event_memberships (cascade em_user_id us) (set_users (delete u) d))))).
Proof.
  unfold delete_user. destruct (users_resolve _) eqn:Hr; intros H; [|discriminate H].
  apply (inj Some) in H. rewrite <- H. split; [exact Hr|reflexivity].
Qed.

(** ** The deletion *)

Section shape.
Context (u : string) (d : Database).

(** The tables below the events that go. *)
Definition kept_events := delete_where (fun id _ => owns u d id) d.(events).
Definition kept_open := cascade o_event_id kept_events d.(open_enrollments).
Definition kept_invitations :=
  delete_where (fun _ i => gone kept_events i.(i_event_id) || gone_opt kept_open i.(i_open_id)) d.(invitations).
Definition kept_guests := cascade g_invitation_id kept_invitations d.(guests).
Definition kept_responses := cascade r_invitation_id kept_invitations d.(rsvp_responses).
Definition kept_users :=
  delete u (update_where (fun _ r => bool_decide (r.(u_invited_by) = Some u)) uninvited_row d.(users)).

(** Every table of the database after the deletion. *)
Record shape (d1 : Database) : Prop := {
  dl_users : d1.(users) = kept_users;
  dl_events k : d1.(events) !! k =
    unlinked (select (is_owner_of sr_owner u) d.(event_series)).*1 <$> kept_events !! k;
  dl_questions : d1.(event_questions) = cascade q_event_id kept_events d.(event_questions);
  dl_open : d1.(open_enrollments) = open_creator_row kept_users <$> kept_open;
  dl_invitations : d1.(invitations) = invitation_creator_row kept_users <$> kept_invitations;
  dl_guests : d1.(guests) = kept_guests;
  dl_responses : d1.(rsvp_responses) = kept_responses;
  dl_guest_responses : d1.(guest_responses) =
    delete_where (fun _ g => gone kept_responses g.(gr_response_id) || gone kept_guests g.(gr_guest_id))
      d.(guest_responses);
  dl_invitation_answers : d1.(invitation_answers) = cascade ia_invitation_id kept_invitations
    (delete_where (fun _ a => invitation_owned u d a.(ia_invitation_id)) d.(invitation_answers));
  dl_guest_answers : d1.(guest_answers) = cascade ga_guest_id kept_guests
    (delete_where (fun _ a => guest_owned u d a.(ga_guest_id)) d.(guest_answers));
  dl_invitation_sessions :
    d1.(invitation_sessions) = cascade s_invitation_id kept_invitations d.(invitation_sessions);
  dl_recovery_tokens : d1.(invitation_recovery_tokens) =
    cascade rt_invitation_id kept_invitations d.(invitation_recovery_tokens);
  dl_recovery_attempts : d1.(invitation_recovery_attempts) =
    cascade ra_event_id kept_events d.(invitation_recovery_attempts);
  dl_messages : d1.(invitation_messages) =
    sender_row kept_users <$> cascade m_event_id kept_events d.(invitation_messages);
  dl_cards : d1.(invite_cards) = cascade c_event_id kept_events d.(invite_cards);
  dl_log : d1.(notification_log) =
    log_event_row kept_invitations <$> cascade l_event_id kept_events d.(notification_log);
  dl_links : d1.(magic_links) = delete_where (is_owner_of ml_user_id u) d.(magic_links);
  dl_logins : d1.(sessions) = delete_where (is_owner_of us_user_id u) d.(sessions);
  dl_members : d1.(event_memberships) = cascade em_user_id kept_users
    (regranted u (set_event_memberships (cascade em_event_id kept_events) d));
  dl_invites : d1.(account_invites) =
    delete_where (fun _ a => bool_decide (a.(ai_target) = u) || bool_decide (a.(ai_invited_by) = u))
      (delete_where (fun _ a => gone_opt kept_events a.(ai_event_id)) d.(account_invites));
  dl_audit : d1.(admin_audit_log) =
    audit_user_row kept_users <$> (audit_event_row kept_events <$> d.(admin_audit_log));
  dl_instances : d1.(instances) = d.(instances);
  dl_series k : d1.(event_series) !! k =
    if bool_decide (k ∈ (select (is_owner_of sr_owner u) d.(event_series)).*1)
    then None else d.(event_series) !! k;
  dl_reminders : d1.(reminders) = cascade rm_event_id kept_events d.(reminders);
  dl_webhooks : d1.(webhooks) = cascade wh_event_id kept_events d.(webhooks);
  dl_deliveries : d1.(webhook_deliveries) =
    cascade wd_webhook_id (cascade wh_event_id kept_events d.(webhooks))
      (delete_where (fun _ x => webhook_owned u d x.(wd_webhook_id)) d.(webhook_deliveries));
  dl_suppressions : d1.(email_suppressions) =
    delete_where (fun _ x => gone_opt kept_events x.(sp_event_id)) d.(email_suppressions);
  dl_tokens : d1.(unsubscribe_tokens) =
    delete_where (fun _ x => gone_opt kept_events x.(ut_event_id)) d.(unsubscribe_tokens);
  dl_resolved : users_resolve d1 = true }.

Lemma deletion_shape d1 : in_turn (delete_statements u) d = Some d1 -> shape d1.
Proof.
  unfold delete_statements. intros H. cbn [in_turn] in H.
  destruct (delete_events _ _) as [d3|] eqn:H3; [|done]. apply delete_events_ok in H3.
  destruct (reattribute _ _) as [d4|] eqn:H4; [|done]. apply reattribute_ok in H4.
  destruct (delete_series_all (select (is_owner_of sr_owner u) d4.(event_series)).*1 d4) as (es & ss & H5 & He & Hs).
  rewrite H5 in H. clear H5.
  destruct (delete_user _ _) as [d10|] eqn:H10; [|done]. injection H as <-.
  apply delete_user_ok in H10 as [Hr H10].
  assert (d10.(events) = es) as Hes by (rewrite H10; reflexivity).
  assert (d10.(event_series) = ss) as Hss by (rewrite H10; reflexivity).
  rewrite H4, H3 in He, Hs.
  split; try (rewrite H10, H4, H3; reflexivity); [..|exact Hr].
  - intros k. rewrite Hes, He. reflexivity.
  - intros k. rewrite Hss, Hs. reflexivity.
Qed.

Lemma lookup_cascade {R P} (f : R -> string) (p : gmap string P) t k r :
  cascade f p t !! k = Some r <-> t !! k = Some r /\ is_Some (p !! f r).
Proof.
  unfold cascade, gone. rewrite lookup_delete_where, negb_false_iff, has_spec. done.
Qed.

Lemma kept_event e r : kept_events !! e = Some r <-> d.(events) !! e = Some r /\ owns u d e = false.
Proof. apply (lookup_delete_where (fun id _ => owns u d id)). Qed.

Lemma kept_user k r :
  kept_users !! k = Some r <-> k <> u /\ exists r0, d.(users) !! k = Some r0 /\
    r = (if bool_decide (r0.(u_invited_by) = Some u) then uninvited_row r0 else r0).
Proof.
  unfold kept_users. rewrite lookup_delete_Some. unfold update_where. rewrite map_lookup_imap.
  split; intros [Hn H]; (split; [done|]).
  - destruct (users d !! k) as [r0|]; [|done]. simpl in H. exists r0. split; [done|]. by injection H.
  - destruct H as (r0 & Hr0 & ->). by rewrite Hr0.
Qed.
End shape.

Lemma users_resolve_ok d :
  users_resolve d = true -> forall k m, d.(event_memberships) !! k = Some m -> is_Some (d.(users) !! m.(em_granted_by)).
Proof.
  unfold users_resolve. rewrite andb_true_iff. intros [_ H] k m Hm.
  rewrite forallb_forall in H. apply has_spec, (H (k, m)). apply list_elem_of_In. by apply elem_of_map_to_list.
Qed.
Lemma series_ids u d k :
  k ∈ (select (is_owner_of sr_owner u) d.(event_series)).*1 <->
  exists r, d.(event_series) !! k = Some r /\ r.(sr_owner) = u.
Proof.
  rewrite list_elem_of_fmap. split.
  - intros ([k' r] & -> & [Hk Ho]%elem_of_select). exists r. split; [done|].
    by eapply bool_decide_eq_true.
  - intros (r & Hr & Ho). exists (k, r). split; [done|]. apply elem_of_select. split; [done|].
    by apply bool_decide_eq_true.
Qed.

Lemma owns_spec u d e :
  owns u d e = true <-> exists k m, d.(event_memberships) !! k = Some m /\
    m.(em_event_id) = e /\ m.(em_user_id) = u /\ m.(em_role) = "owner".
Proof.
  unfold owns. rewrite existsb_exists. setoid_rewrite andb_true_iff. setoid_rewrite andb_true_iff.
  setoid_rewrite bool_decide_eq_true. split.
  - intros ([k m] & Hin & [? ?] & ?). exists k, m.
    apply list_elem_of_In, elem_of_map_to_list in Hin. done.
  - intros (k & m & Hk & ? & ? & ?). exists (k, m). split; [|done].
    by apply list_elem_of_In, elem_of_map_to_list.
Qed.

Section runs.
Context `{E : Env}.

Lemma deletion_runs u w w1 :
  DeleteAccount u w = (Ok (), w1) -> in_turn (delete_statements u) w.(w_db) = Some w1.(w_db).
Proof.
  unfold DeleteAccount, DeleteOrganizerCascade. intros H.
  apply with_tx_ok in H as (wa & wb & H & Hda & Hdb & _). rewrite <- Hda.
  apply forM_exec in H. congruence.
Qed.

End runs.
