(* ===== verification/AuthHandler.v ===== *)
(** * Authentication of requests (internal/auth/middleware.go, handler.go)

    [RequireAuth] and [RequireAdmin] around any handler, and the handlers of the
    authentication endpoints.  Bodies come decoded, [None] being an error of
    [httpx.DecodeJSON].  The export of a user's data is not modelled. *)

From S2P Require Import Prelude.
From S2P Require Import GoStr.
From S2P Require Import GoTime.
From S2P Require Import Schema.
From S2P Require Import Eff.
From S2P Require Import Http.
From S2P Require Import Auth.
From S2P Require Import AccountDelete.

Local Open Scope Z_scope.

(** The session cookie and the Authorization header of a request. *)
Record Credentials := MkCredentials { cr_cookie : option string; cr_authorization : string }.

Definition bearer (authorization : string) : string :=
  if has_prefix authorization "Bearer " then trim_prefix authorization "Bearer " else "".
Definition extractToken (r : Credentials) : string :=
  match r.(cr_cookie) with
  | Some value => if bool_decide (value = "") then bearer r.(cr_authorization) else value
  | None => bearer r.(cr_authorization)
  end.

(** The replies of this package are not wrapped in [data]. *)
Inductive AuthPayload :=
| PUser (u : User)
| PAuth (r : AuthResponse)
| PText (message : string).

Definition auth_error {P} (status : Z) (message : string) : Resp P :=
  MkResp status (JErrorOnly message) [].
Definition auth_unauthorized {P} : Resp P := auth_error 401 "unauthorized".
Definition auth_forbidden {P} : Resp P := auth_error 403 "forbidden".

Section middleware.
Context `{E : Env}.

(** The handler behind the middleware runs with the signed-in user; [deny] is
    the 401 reply. *)
Definition RequireAuth {R} (deny : R) (r : Credentials) (next : User -> M R) : M R :=
  let token := extractToken r in
  if bool_decide (token = "") then ret deny else
  u <- attempt (ValidateSession token) ;;
  match u with Ok organizer => next organizer | Err _ => ret deny end.

(** [RequireAdmin] reads the user of the context. *)
Definition RequireAdmin {R} (deny : R) (organizer : option User) (next : M R) : M R :=
  match organizer with
  | Some u => if u.(user_IsAdmin) then next else ret deny
  | None => ret deny
  end.
End middleware.

Section handler.
Context `{E : Env} (s : Service).

Definition secure : bool := negb s.(cfg).(IsDevelopment).
Definition session_cookie (token : string) : Cookie :=
  MkCookie "session" token "/" true secure "Lax" (Z.quot s.(cfg).(SessionExpiry) ns_per_sec).
Definition cleared_session_cookie : Cookie := MkCookie "session" "" "/" true secure "Lax" (-1).
Definition cleared_csrf_cookie : Cookie := MkCookie "csrf_token" "" "/" false secure "Strict" (-1).

Definition auth_internal {P} : M (Resp P) :=
  ref <- Ref ;;
  ret (auth_error 500 ("an internal error occurred (ref: " +:+ ref +:+ ")")).

Definition magic_link_notice : Resp AuthPayload :=
  json 200 (PText "If an account exists for this email, a magic link has been sent. Please check your inbox.").

Definition handleMagicLink (body : option string) : M (Resp AuthPayload) :=
  match body with
  | None => ret (auth_error 400 "invalid request body")
  | Some email =>
      let email := trim_space (to_lower email) in
      if bool_decide (email = "") then ret (auth_error 400 "email is required") else
      r <- attempt (RequestMagicLink s email) ;;
      ret match r with
          | Err ErrInvalidEmail => auth_error 400 "invalid email address"
          | _ => magic_link_notice
          end
  end.

Definition handleVerify (body : option string) : M (Resp AuthPayload) :=
  match body with
  | None => ret (auth_error 400 "invalid request body")
  | Some token =>
      let token := trim_space token in
      if bool_decide (token = "") then ret (auth_error 400 "token is required") else
      r <- attempt (VerifyMagicLink s token) ;;
      match r with
      | Err ErrInvalidToken => ret (auth_error 401 "invalid or expired token")
      | Err _ => auth_internal
      | Ok resp => ret (MkResp 200 (JData (PAuth resp))
                          [session_cookie resp.(ar_Token); cleared_csrf_cookie])
      end
  end.

Definition handleLogout (r : Credentials) : M (Resp AuthPayload) :=
  let token := extractToken r in
  if bool_decide (token = "") then ret auth_unauthorized else
  o <- attempt (Logout token) ;;
  match o with
  | Err ErrSessionNotFound => ret auth_unauthorized
  | Err _ => auth_internal
  | Ok _ => ret (MkResp 200 (JData (PText "logged out")) [cleared_session_cookie])
  end.

Definition handleMe (organizer : option User) : M (Resp AuthPayload) :=
  ret match organizer with None => auth_unauthorized | Some u => json 200 (PUser u) end.

Definition with_profile (req : UpdateProfileRequest) (u : User) : User :=
  MkUser u.(user_ID) u.(user_Email) u.(user_NormalizedEmail)
    (default u.(user_Name) req.(up_Name)) (default u.(user_Timezone) req.(up_Timezone))
    u.(user_InstanceRole) u.(user_Status) u.(user_IsAdmin) u.(user_InvitedByUserID)
    u.(user_ActivatedAt) u.(user_LastLoginAt) u.(user_CreatedAt) u.(user_UpdatedAt).
Definition handleUpdateMe (organizer : option User) (body : option UpdateProfileRequest)
    : M (Resp AuthPayload) :=
  match organizer, body with
  | None, _ => ret auth_unauthorized
  | Some _, None => ret (auth_error 400 "invalid request body")
  | Some u, Some req =>
      let u := with_profile req u in
      r <- attempt (UpdateOrganizer u) ;;
      match r with Ok _ => ret (json 200 (PUser u)) | Err _ => auth_internal end
  end.

Definition handleDeleteMe (organizer : option User) : M (Resp AuthPayload) :=
  match organizer with
  | None => ret auth_unauthorized
  | Some u =>
      r <- attempt (DeleteAccount u.(user_ID)) ;;
      match r with
      | Ok _ => ret (MkResp 204 JNone [cleared_session_cookie])
      | Err _ => auth_internal
      end
  end.

(** The routes under [/me]. *)
Definition signed {P} (r : Credentials) (handle : option User -> M (Resp P)) : M (Resp P) :=
  RequireAuth auth_unauthorized r (fun u => handle (Some u)).
End handler.
