(* ===== verification/UserAdmin.v ===== *)
(** * User administration (internal/useradmin)

    Account invitations, cohost invitations, status and role changes, and the
    audit log.  A map of audit metadata is the list of its texts; its JSON is a
    parameter. *)

From S2P Require Import Prelude.
From S2P Require Import GoStr.
From S2P Require Import GoTime.
From S2P Require Import Schema.
From S2P Require Import Eff.
From S2P Require Import Http.
From S2P Require Import Auth.
From S2P Require Import AccountDelete.
From S2P Require Import AuthHandler.

Local Open Scope Z_scope.

(** ** model.go *)

Record AccountInvite := MkAccountInvite {
  inv_ID : string; inv_TargetUserID : string; inv_Email : string;
  inv_InvitedByUserID : string; inv_EventID : option string; inv_EventRole : option string;
  inv_ExpiresAt : time; inv_AcceptedAt : option time; inv_RevokedAt : option time;
  inv_CreatedAt : time }.
Record IssuedInvite := MkIssued {
  iss_invite : AccountInvite; iss_RawToken : string; iss_TokenHash : string }.
Record AuditEntry := MkAuditEntry {
  ae_ID : string; ae_ActorUserID : option string; ae_ActorKind : string; ae_Action : string;
  ae_TargetUserID : option string; ae_EventID : option string; ae_Metadata : string;
  ae_CreatedAt : time }.

(** ** store.go *)

Definition invite_of_row (id : string) (r : AccountInviteRow) : res AccountInvite :=
  expires <-r parse_time "parse invite expires_at" r.(ai_expires_at) ;;
  created <-r parse_time "parse invite created_at" r.(ai_created_at) ;;
  accepted <-r parse_time_opt "parse optional time" r.(ai_accepted_at) ;;
  revoked <-r parse_time_opt "parse optional time" r.(ai_revoked_at) ;;
  Ok (MkAccountInvite id r.(ai_target) r.(ai_norm_email) r.(ai_invited_by) r.(ai_event_id)
        r.(ai_event_role) expires accepted revoked created).
Definition scanInvite (row : option (string * AccountInviteRow)) : res (option AccountInvite) :=
  match row with
  | None => Ok None
  | Some (id, r) => i <-r invite_of_row id r ;; Ok (Some i)
  end.

(** An invitation that is neither accepted nor revoked, and one that has not
    expired either. *)
Definition pending (r : AccountInviteRow) : bool :=
  is_null r.(ai_accepted_at) && is_null r.(ai_revoked_at).
Definition live_invite (now : string) (r : AccountInviteRow) : bool :=
  pending r && str_lt now r.(ai_expires_at).

Definition accept_invite_row (now : string) (r : AccountInviteRow) : AccountInviteRow :=
  {| ai_target := r.(ai_target); ai_norm_email := r.(ai_norm_email);
     ai_token_hash := r.(ai_token_hash); ai_invited_by := r.(ai_invited_by);
     ai_event_id := r.(ai_event_id); ai_event_role := r.(ai_event_role);
     ai_expires_at := r.(ai_expires_at); ai_accepted_at := Some now;
     ai_revoked_at := r.(ai_revoked_at); ai_created_at := r.(ai_created_at) |}.
Definition revoke_invite_row (now : string) (r : AccountInviteRow) : AccountInviteRow :=
  {| ai_target := r.(ai_target); ai_norm_email := r.(ai_norm_email);
     ai_token_hash := r.(ai_token_hash); ai_invited_by := r.(ai_invited_by);
     ai_event_id := r.(ai_event_id); ai_event_role := r.(ai_event_role);
     ai_expires_at := r.(ai_expires_at); ai_accepted_at := r.(ai_accepted_at);
     ai_revoked_at := Some now; ai_created_at := r.(ai_created_at) |}.
Definition status_row (status now : string) (r : UserRow) : UserRow :=
  {| u_email := r.(u_email); u_norm_email := r.(u_norm_email);
     u_display_name := r.(u_display_name); u_timezone := r.(u_timezone); u_role := r.(u_role);
     u_status := status; u_invited_by := r.(u_invited_by); u_activated_at := r.(u_activated_at);
     u_last_login_at := r.(u_last_login_at); u_created_at := r.(u_created_at);
     u_updated_at := now |}.

(** [UPDATE account_invites ... WHERE id = ? AND ...] and its number of rows. *)
Definition update_invite (ctx id : string) (Q : AccountInviteRow -> bool)
    (f : AccountInviteRow -> AccountInviteRow) : M Z :=
  stmt ctx (fun d => let '(t, n) := update_id id Q f d.(account_invites) in
                     Some (n, set_account_invites (fun _ => t) d)).

Definition is_cohost_of (eventID : string) (_ : string) (m : MembershipRow) : bool :=
  bool_decide (m.(em_event_id) = eventID) && bool_decide (m.(em_role) = "cohost").
Definition cohost_offer (eventID now : string) (_ : string) (r : AccountInviteRow) : bool :=
  bool_decide (r.(ai_event_id) = Some eventID) && bool_decide (r.(ai_event_role) = Some "cohost")
  && live_invite now r.
(** [CountCohostCommitmentsTx]'s query: cohosts and live offers. *)
Definition cohost_commitments (eventID now : string) (d : Database) : Z :=
  count (is_cohost_of eventID) d.(event_memberships)
  + count (cohost_offer eventID now) d.(account_invites).

Definition active_admin (r : UserRow) : bool :=
  bool_decide (r.(u_role) = InstanceRoleAdmin) && bool_decide (r.(u_status) = UserStatusActive).

Definition membership_row (eventID userID role grantedBy now : string) : MembershipRow :=
  {| em_event_id := eventID; em_user_id := userID; em_role := role; em_granted_by := grantedBy;
     em_created_at := now; em_updated_at := now |}.

Definition user_order : string * UserRow -> string * UserRow -> bool :=
  lex_text (fun x => x.2.(u_created_at)) (fun a b => text_le a.1 b.1).
Definition invite_newer (a b : string * AccountInviteRow) : bool :=
  lex_text (fun x => x.2.(ai_created_at)) (fun a b => text_le a.1 b.1) b a.
Definition audit_newer (a b : string * AuditRow) : bool :=
  lex_text (fun x => x.2.(al_created_at)) (fun a b => text_le a.1 b.1) b a.

Section useradmin.
Context `{E : Env}.

Definition Store_ListUsers : M (list User) :=
  rows <- query "list users" (fun d => order_by user_order (map_to_list d.(users))) ;;
  mapM (fun x => of_res (user_of_row x.1 x.2)) rows.

Definition CreateInviteTx (target : User) (actorID tokenHash : string)
    (eventID eventRole : option string) (expiresAt now_ : time) : M AccountInvite :=
  id <- new_uuid ;;
  exec "create account invite"
    (insert_account_invite id {| ai_target := target.(user_ID);
       ai_norm_email := target.(user_NormalizedEmail); ai_token_hash := tokenHash;
       ai_invited_by := actorID; ai_event_id := eventID; ai_event_role := eventRole;
       ai_expires_at := format_rfc3339 expiresAt; ai_accepted_at := None;
       ai_revoked_at := None; ai_created_at := format_rfc3339 now_ |}) ;;;
  ret (MkAccountInvite id target.(user_ID) target.(user_NormalizedEmail) actorID eventID eventRole
         expiresAt None None now_).

(** [UPDATE events SET updated_at = updated_at]: a lock. *)
Definition LockEventTx (eventID : string) : M () :=
  found <- query "lock event" (fun d => has eventID d.(events)) ;;
  require found ErrUserNotFound.

Definition IsEventOwnerTx (eventID userID : string) : M bool :=
  n <- query "check event owner" (fun d =>
         count (fun _ m => bool_decide (m.(em_event_id) = eventID)
                           && bool_decide (m.(em_user_id) = userID)
                           && bool_decide (m.(em_role) = "owner")) d.(event_memberships)) ;;
  ret (n =? 1).

Definition CountCohostCommitmentsTx (eventID : string) (now_ : time) : M Z :=
  query "count cohost commitments" (cohost_commitments eventID (format_rfc3339 now_)).

Definition CreateCohostMembershipTx (eventID userID grantedBy : string) (now_ : time) : M () :=
  id <- new_uuid ;;
  exec "create cohost membership"
    (insert_membership id (membership_row eventID userID "cohost" grantedBy (format_rfc3339 now_))).

Definition HasEventMembershipTx (eventID userID : string) : M bool :=
  n <- query "check event membership" (fun d =>
         count (fun _ m => bool_decide (m.(em_event_id) = eventID)
                           && bool_decide (m.(em_user_id) = userID)) d.(event_memberships)) ;;
  ret (0 <? n).

Definition RevokePendingInvitesTx (targetUserID : string) (now_ : time) : M () :=
  exec "revoke pending invites" (fun d => Some (set_account_invites
    (update_where (fun _ r => bool_decide (r.(ai_target) = targetUserID) && pending r)
       (revoke_invite_row (format_rfc3339 now_))) d)).

Definition Store_ListPendingInvites (now_ : time) : M (list AccountInvite) :=
  rows <- query "list pending account invites" (fun d =>
    order_by invite_newer
      (select (fun _ r => live_invite (format_rfc3339 now_) r) d.(account_invites))) ;;
  mapM (fun x => of_res (invite_of_row x.1 x.2)) rows.

Definition RevokeInviteByIDTx (id : string) (now_ : time) : M AccountInvite :=
  row <- query "scan account invite" (fun d =>
           match d.(account_invites) !! id with
           | Some r => if pending r then Some (id, r) else None
           | None => None
           end) ;;
  o <- of_res (scanInvite row) ;;
  match o with
  | None => fail ErrInvalidInvite
  | Some invite =>
      n <- update_invite "revoke account invite" id pending
             (revoke_invite_row (format_rfc3339 now_)) ;;
      require (n =? 1) ErrInvalidInvite ;;;
      ret invite
  end.

Definition FindLiveInviteByHashTx (tokenHash : string) (now_ : time) : M (option AccountInvite) :=
  row <- query "scan account invite" (fun d =>
           select_row (fun _ r => bool_decide (r.(ai_token_hash) = tokenHash)
                                  && live_invite (format_rfc3339 now_) r) d.(account_invites)) ;;
  of_res (scanInvite row).

Definition ConsumeInviteTx (id : string) (now_ : time) : M () :=
  n <- update_invite "consume account invite" id (live_invite (format_rfc3339 now_))
         (accept_invite_row (format_rfc3339 now_)) ;;
  require (n =? 1) ErrInvalidInvite.

(** [UPDATE instances SET updated_at = updated_at]: a lock. *)
Definition LockAdminMutationTx : M () := query "lock admin mutation" (fun _ => ()).

Definition CountActiveAdminsTx : M Z :=
  query "count active admins" (fun d => count (fun _ r => active_admin r) d.(users)).

Definition UpdateStatusTx (userID status : string) (now_ : time) : M () :=
  n <- update_user "update user status" userID (fun _ => true)
         (status_row status (format_rfc3339 now_)) ;;
  require (n =? 1) ErrUserNotFound ;;;
  if bool_decide (status = UserStatusDisabled) then
    exec "revoke disabled user sessions" (fun d => Some (set_sessions
      (delete_where (fun _ s => bool_decide (s.(us_user_id) = userID))) d)) ;;;
    RevokePendingInvitesTx userID now_
  else ret ().

Definition UpdateRoleTx (userID role : string) (now_ : time) : M () :=
  n <- update_user "update user role" userID (fun _ => true)
         (role_row role (format_rfc3339 now_)) ;;
  require (n =? 1) ErrUserNotFound.

Definition InsertAuditTx (actorID action targetID : string) (metadata : list (string * string))
    (now_ : time) : M () :=
  id <- new_uuid ;;
  exec "insert admin audit"
    (insert_audit id {| al_actor := Some actorID; al_actor_kind := "user"; al_action := action;
       al_target := Some targetID; al_event := None; al_metadata := json_object metadata;
       al_created_at := format_rfc3339 now_ |}).

Definition audit_of_row (id : string) (r : AuditRow) : res AuditEntry :=
  created <-r parse_time "parse audit created_at" r.(al_created_at) ;;
  Ok (MkAuditEntry id r.(al_actor) r.(al_actor_kind) r.(al_action) r.(al_target) r.(al_event)
        r.(al_metadata) created).
Definition Store_ListAudit (limit : Z) : M (list AuditEntry) :=
  rows <- query "list admin audit" (fun d =>
    take (Z.to_nat limit) (order_by audit_newer (map_to_list d.(admin_audit_log)))) ;;
  mapM (fun x => of_res (audit_of_row x.1 x.2)) rows.

(** ** service.go *)

Context (s : Service).

Definition ListUsers : M (list User) := Store_ListUsers.
Definition ListPendingInvites : M (list AccountInvite) :=
  t <- now ;; Store_ListPendingInvites t.

(** [generateToken]: the raw token and its digest. *)
Definition tokenDigest (raw : string) : string := hex_encode (sha256 raw).
Definition generateToken (context : string) : M (string * string) :=
  raw <- read_random 32 ;;
  bytes <- of_option (EInternal context) raw ;;
  let raw := hex_encode bytes in
  ret (raw, tokenDigest raw).

Definition renderInviteEmail (rawToken : string) (expiresAt : time) : string * string :=
  let url := trim_right_set s.(cfg).(BaseURL) ["/"%char] +:+ "/auth/accept-invite#token=" +:+ rawToken in
  let name := trim_space s.(cfg).(InstanceName) in
  let instanceName := if bool_decide (name = "") || bool_decide (name = "OpenRSVP")
                      then "Owl Invites" else name in
  let expiry := format_rfc3339 expiresAt in
  ("<p>You have been invited to manage events on " +:+ html_escape instanceName
     +:+ ".</p><p><a href=" +:+ dq +:+ html_escape url +:+ dq
     +:+ ">Accept invitation</a></p><p>This invitation expires at " +:+ expiry +:+ ".</p>",
   "You have been invited to manage events on " +:+ instanceName +:+ "." +:+ nl +:+ nl
     +:+ "Accept invitation:" +:+ nl +:+ url +:+ nl +:+ nl
     +:+ "This invitation expires at " +:+ expiry +:+ ".").

(** The address is its own parse, of at most 320 bytes. *)
Definition account_email_ok (email : string) : bool :=
  bool_decide (mail_address email = Some email) && (len email <=? 320).

Definition is_active_admin (u : User) : bool := u.(user_IsAdmin) && is_active u.

(** The actor as the database has it, if [P] holds of it. *)
Definition persisted_actor (actorID : string) (P : User -> bool) : M User :=
  o <- findOrganizerByID actorID ;;
  match o with
  | Some u => require (P u) ErrUserNotFound ;;; ret u
  | None => fail ErrUserNotFound
  end.

(** [CreateUserTx] of an invited user: the row just written is found again. *)
Definition create_invited (email actorID : string) : M User :=
  o <- createUser email "" s.(cfg).(DefaultTimezone) InstanceRoleUser UserStatusInvited
         (Some actorID) ;;
  of_option (EInternal "nil pointer dereference") o.

Definition invite_user_tx (actorID email : string) : M (AccountInvite * (string * string)) :=
  actor <- persisted_actor actorID is_active_admin ;;
  o <- FindOrganizerByEmail email ;;
  target <- match o with
            | None => create_invited email actor.(user_ID)
            | Some target =>
                require (bool_decide (target.(user_Status) = UserStatusInvited)) ErrUserExists ;;;
                ret target
            end ;;
  t <- now ;;
  RevokePendingInvitesTx target.(user_ID) t ;;;
  token <- generateToken "generate account invite" ;;
  invite <- CreateInviteTx target actor.(user_ID) token.2 None None
              (t + s.(cfg).(AccountInviteExpiry)) t ;;
  InsertAuditTx actor.(user_ID) "account_invite_issued" target.(user_ID)
    [("email", target.(user_NormalizedEmail))] t ;;;
  ret (invite, token).

Definition InviteUser (actor : option User) (email0 : string) : M IssuedInvite :=
  match actor with
  | None => fail ErrUserNotFound
  | Some actor =>
      require (is_active_admin actor) ErrUserNotFound ;;;
      match s.(sendEmail) with
      | None => fail ErrEmailUnavailable
      | Some send =>
          let email := to_lower (trim_space email0) in
          require (account_email_ok email) ErrInvalidEmail ;;;
          issued <- with_tx "begin account invite" "commit account invite"
                      (invite_user_tx actor.(user_ID) email) ;;
          let '(invite, (rawToken, tokenHash)) := issued in
          let '(html, plain) := renderInviteEmail rawToken invite.(inv_ExpiresAt) in
          send invite.(inv_Email) "You're invited to Owl Invites" html plain ;;;
          ret (MkIssued invite rawToken tokenHash)
      end
  end.

(** What the transaction of [InviteEventCohost] commits: a membership of a user
    with this address, or an invitation with its token. *)
Inductive cohost_outcome :=
| CohostAdded (to : string)
| CohostInvited (invite : AccountInvite) (rawToken : string).

Definition invite_cohost_tx (actorID eventID email : string) : M cohost_outcome :=
  LockEventTx eventID ;;;
  actor <- persisted_actor actorID is_active ;;
  owner <- IsEventOwnerTx eventID actor.(user_ID) ;;
  require owner ErrUserNotFound ;;;
  o <- FindOrganizerByEmail email ;;
  match o with
  | Some u => if bool_decide (u.(user_Status) = UserStatusInvited)
              then t0 <- now ;; RevokePendingInvitesTx u.(user_ID) t0 else ret ()
  | None => ret ()
  end ;;;
  t <- now ;;
  commitments <- CountCohostCommitmentsTx eventID t ;;
  require (commitments <? s.(cfg).(MaxCoHostsPerEvent)) ErrCohostLimit ;;;
  target <- match o with
            | None => create_invited email actor.(user_ID)
            | Some u => ret u
            end ;;
  if is_active target then
    member <- HasEventMembershipTx eventID target.(user_ID) ;;
    require (negb member) ErrUserExists ;;;
    CreateCohostMembershipTx eventID target.(user_ID) actor.(user_ID) t ;;;
    ret (CohostAdded target.(user_Email))
  else
    require (bool_decide (target.(user_Status) = UserStatusInvited)) ErrUserExists ;;;
    token <- generateToken "generate cohost invite" ;;
    invite <- CreateInviteTx target actor.(user_ID) token.2 (Some eventID) (Some "cohost")
                (t + s.(cfg).(AccountInviteExpiry)) t ;;
    ret (CohostInvited invite token.1).

Definition InviteEventCohost (actor : option User) (eventID email0 : string) : M bool :=
  match actor, s.(sendEmail) with
  | Some actor, Some send =>
      require (is_active actor) ErrUserNotFound ;;;
      let email := to_lower (trim_space email0) in
      require (account_email_ok email) ErrInvalidEmail ;;;
      r <- with_tx "begin cohost invite" "commit cohost invite"
             (invite_cohost_tx actor.(user_ID) eventID email) ;;
      match r with
      | CohostAdded to =>
          send to "You've been added as an Owl Invites cohost"
            "<p>You have been added as a cohost on Owl Invites.</p>"
            "You have been added as a cohost on Owl Invites. Sign in to view the event." ;;;
          ret false
      | CohostInvited invite rawToken =>
          let '(html, plain) := renderInviteEmail rawToken invite.(inv_ExpiresAt) in
          send invite.(inv_Email) "You're invited to cohost on Owl Invites" html plain ;;;
          ret true
      end
  | _, _ => fail ErrUserNotFound
  end.

(** The membership an accepted invitation carries. *)
Definition grant_cohost (invite : AccountInvite) (userID : string) (now_ : time) : M () :=
  match invite.(inv_EventID), invite.(inv_EventRole) with
  | Some eventID, Some role =>
      if bool_decide (role = "cohost") then
        or_err ErrInvalidInvite (LockEventTx eventID) ;;;
        or_err ErrInvalidInvite
          (CreateCohostMembershipTx eventID userID invite.(inv_InvitedByUserID) now_)
      else ret ()
  | _, _ => ret ()
  end.

Definition accept_invite_tx (rawToken : string) (now_ : time) : M AuthResponse :=
  o <- FindLiveInviteByHashTx (tokenDigest rawToken) now_ ;;
  match o with
  | None => fail ErrInvalidInvite
  | Some invite =>
      or_err ErrInvalidInvite (ConsumeInviteTx invite.(inv_ID) now_) ;;;
      u <- or_err ErrInvalidInvite (ActivateInvitedUserTx invite.(inv_TargetUserID) now_) ;;
      user <- of_option (EInternal "nil pointer dereference") u ;;
      grant_cohost invite user.(user_ID) now_ ;;;
      token <- generateToken "generate account invite session" ;;
      createSession token.2 user.(user_ID) (now_ + s.(cfg).(SessionExpiry)) ;;;
      TouchLastLoginTx user.(user_ID) now_ ;;;
      ret (MkAuthResponse token.1 (with_last_login user now_))
  end.
Definition AcceptInvite (rawToken0 : string) : M AuthResponse :=
  let rawToken := trim_space rawToken0 in
  if bool_decide (rawToken = "") then fail ErrInvalidInvite else
  t <- now ;;
  with_tx "begin accept account invite" "commit account invite acceptance"
    (accept_invite_tx rawToken t).

Definition RevokeInvite (actor : option User) (inviteID : string) : M () :=
  match actor with
  | None => fail ErrUserNotFound
  | Some actor =>
      require (is_active_admin actor) ErrUserNotFound ;;;
      with_tx "begin revoke account invite" "commit account invite revocation" (
        persisted <- persisted_actor actor.(user_ID) is_active_admin ;;
        t <- now ;;
        invite <- RevokeInviteByIDTx inviteID t ;;
        InsertAuditTx persisted.(user_ID) "account_invite_revoked" invite.(inv_TargetUserID)
          [("inviteId", invite.(inv_ID))] t)
  end.

(** [userChange]: the target, the number of active administrators, the time. *)
Record userChange := MkChange { uc_target : User; uc_activeAdmins : Z; uc_now : time }.

Definition changeUser (actor : option User) (userID : string) (apply : User -> userChange -> M ())
    : M () :=
  match actor with
  | None => fail ErrUserNotFound
  | Some actor =>
      require (is_active_admin actor) ErrUserNotFound ;;;
      with_tx "begin user change" "commit user change" (
        LockAdminMutationTx ;;;
        persisted_actor actor.(user_ID) is_active_admin ;;;
        o <- findOrganizerByID userID ;;
        target <- of_option ErrUserNotFound o ;;
        admins <- CountActiveAdminsTx ;;
        t <- now ;;
        apply actor (MkChange target admins t))
  end.

Definition apply_status (userID status : string) (actor : User) (c : userChange) : M () :=
  if bool_decide (c.(uc_target).(user_Status) = status) then ret () else
  require (negb (bool_decide (c.(uc_target).(user_Status) = UserStatusInvited)
                 && bool_decide (status = UserStatusActive))) ErrInvalidTransition ;;;
  require (negb (c.(uc_target).(user_IsAdmin) && is_active c.(uc_target)
                 && bool_decide (status = UserStatusDisabled) && (c.(uc_activeAdmins) <=? 1)))
    ErrLastAdmin ;;;
  UpdateStatusTx userID status c.(uc_now) ;;;
  InsertAuditTx actor.(user_ID)
    (if bool_decide (status = UserStatusDisabled) then "user_disabled" else "user_enabled") userID
    [("from", c.(uc_target).(user_Status)); ("to", status)] c.(uc_now).
Definition SetUserStatus (actor : option User) (userID status : string) : M () :=
  require (bool_decide (status = UserStatusActive) || bool_decide (status = UserStatusDisabled))
    ErrInvalidTransition ;;;
  changeUser actor userID (apply_status userID status).

Definition apply_role (userID role : string) (actor : User) (c : userChange) : M () :=
  if bool_decide (c.(uc_target).(user_InstanceRole) = role) then ret () else
  require (negb (c.(uc_target).(user_IsAdmin) && is_active c.(uc_target)
                 && negb (bool_decide (role = InstanceRoleAdmin)) && (c.(uc_activeAdmins) <=? 1)))
    ErrLastAdmin ;;;
  UpdateRoleTx userID role c.(uc_now) ;;;
  InsertAuditTx actor.(user_ID) "instance_role_changed" userID
    [("from", c.(uc_target).(user_InstanceRole)); ("to", role)] c.(uc_now).
Definition SetUserRole (actor : option User) (userID role : string) : M () :=
  require (bool_decide (role = InstanceRoleAdmin) || bool_decide (role = InstanceRoleUser))
    ErrInvalidTransition ;;;
  changeUser actor userID (apply_role userID role).

Definition ListAudit (limit : Z) : M (list AuditEntry) :=
  Store_ListAudit (if (limit <=? 0) || (200 <? limit) then 50 else limit).
End useradmin.

(** ** The HTTP handlers of user administration (internal/useradmin/handler.go)

    All but the acceptance of an invitation stand behind [RequireAuth] and
    [RequireAdmin]; [actor] is the user of the context.  Bodies come decoded,
    [None] being an error of [httpx.DecodeJSON]. *)

Inductive AdminPayload :=
| PUsers (l : list User)
| PInvites (l : list AccountInvite)
| PInvite (i : AccountInvite)
| PAccepted (u : User)
| PEntries (l : list AuditEntry).

Section handler.
Context `{E : Env} (s : Service).

Abbreviation Answer := (M (Resp AdminPayload)).

Definition admin_body {B} (body : option B) (k : B -> Answer) : Answer :=
  match body with None => ret (json_error 400 "bad_request" "invalid JSON body") | Some b => k b end.
(** The reply to what a service call returned. *)
Definition admin_answer {A} (m : M A) (on_error : err -> Answer) (k : A -> Resp AdminPayload)
    : Answer :=
  r <- attempt m ;;
  match r with Ok a => ret (k a) | Err e => on_error e end.
Definition no_content : Resp AdminPayload := MkResp 204 JNone [].

Definition handleListUsers : Answer :=
  admin_answer ListUsers (fun _ => internal_error) (fun l => json 200 (PUsers l)).
Definition handleListInvites : Answer :=
  admin_answer ListPendingInvites (fun _ => internal_error) (fun l => json 200 (PInvites l)).
(** [limit] is what [strconv.Atoi] gives for the query parameter. *)
Definition handleListAudit (limit : Z) : Answer :=
  admin_answer (ListAudit limit) (fun _ => internal_error) (fun l => json 200 (PEntries l)).

Definition invite_error (e : err) : Answer :=
  match e with
  | ErrInvalidEmail => ret (json_error 400 "invalid_email" "email must be a valid email address")
  | ErrUserExists => ret (json_error 409 "user_exists"
                            "an active or disabled user with that email already exists")
  | ErrEmailUnavailable => ret (json_error 503 "email_unavailable"
                                  "account invitation email is not configured")
  | _ => internal_error
  end.
Definition handleInviteUser (actor : option User) (body : option string) : Answer :=
  admin_body body (fun email =>
  admin_answer (InviteUser s actor email) invite_error
    (fun invite => json 201 (PInvite invite.(iss_invite)))).

Definition setSessionCookies (token : string) : list Cookie :=
  [AuthHandler.session_cookie s token; AuthHandler.cleared_csrf_cookie s].
Definition handleAcceptInvite (body : option string) : Answer :=
  admin_body body (fun token =>
  admin_answer (AcceptInvite s token)
    (fun e => match e with
              | ErrInvalidInvite => ret (json_error 401 "invalid_invite"
                                           "invalid or expired account invitation")
              | _ => internal_error
              end)
    (fun r => MkResp 200 (JData (PAccepted r.(ar_Organizer))) (setSessionCookies r.(ar_Token)))).

Definition writeChangeError (e : err) : Answer :=
  match e with
  | ErrUserNotFound => ret (json_error 404 "user_not_found" "user not found")
  | ErrLastAdmin => ret (json_error 409 "last_admin"
                           "the last active administrator cannot be changed")
  | ErrInvalidTransition => ret (json_error 400 "invalid_transition"
                                   "invalid user role or status transition")
  | _ => internal_error
  end.
Definition handleRevokeInvite (actor : option User) (inviteID : string) : Answer :=
  admin_answer (RevokeInvite actor inviteID)
    (fun e => match e with
              | ErrInvalidInvite =>
                  ret (json_error 404 "invite_not_found" "account invitation not found")
              | _ => writeChangeError e
              end)
    (fun _ => no_content).
Definition handleSetStatus (actor : option User) (userID : string) (body : option string) : Answer :=
  admin_body body (fun status =>
  admin_answer (SetUserStatus actor userID (trim_space status)) writeChangeError
    (fun _ => no_content)).
Definition handleSetRole (actor : option User) (userID : string) (body : option string) : Answer :=
  admin_body body (fun role =>
  admin_answer (SetUserRole actor userID (trim_space role)) writeChangeError
    (fun _ => no_content)).

(** An administrator's route: the middleware around a handler. *)
Definition admin_route (r : Credentials) (handle : option User -> Answer) : Answer :=
  RequireAuth auth_unauthorized r (fun u =>
  RequireAdmin auth_forbidden (Some u) (handle (Some u))).
End handler.
