(* ===== verification/Event.v ===== *)
(** * Events and their members (internal/event)

    The event and cohost stores and the event service.  The columns are written
    with second precision ([time.RFC3339]).  The callbacks of the service
    ([SetOnPublish], [SetOnDuplicate], [SetOnCancel]) are any effects; they
    return nothing, so their errors are dropped. *)

From S2P Require Import Prelude.
From S2P Require Import GoStr.
From S2P Require Import GoTime.
From S2P Require Import Schema.
From S2P Require Import Eff.
From S2P Require Import Auth.

Local Open Scope Z_scope.

(** ** model.go and cohost_model.go *)

Record Event := MkEvent {
  ev_ID : string; ev_OrganizerID : string; ev_Title : string; ev_Description : string;
  ev_EventDate : time; ev_EndDate : option time; ev_Location : string; ev_Timezone : string;
  ev_RetentionDays : Z; ev_Status : string; ev_ShowHeadcount : bool; ev_ShowGuestList : bool;
  ev_RSVPDeadline : option time; ev_SeriesID : option string; ev_SeriesIndex : option Z;
  ev_SeriesOverride : bool; ev_CreatedAt : time; ev_UpdatedAt : time }.

Record CreateEventRequest := MkCreateEvent {
  ce_Title : string; ce_Description : string; ce_EventDate : string; ce_EndDate : option string;
  ce_Location : string; ce_Timezone : string; ce_RetentionDays : option Z;
  ce_ShowHeadcount : option bool; ce_ShowGuestList : option bool;
  ce_RSVPDeadline : option string }.

Record UpdateEventRequest := MkUpdateEvent {
  ue_Title : option string; ue_Description : option string; ue_EventDate : option string;
  ue_EndDate : option string; ue_Location : option string; ue_Timezone : option string;
  ue_RetentionDays : option Z; ue_ShowHeadcount : option bool; ue_ShowGuestList : option bool;
  ue_RSVPDeadline : option string }.

(** [OrganizerID] and [AddedBy] are copies of [UserID] and [GrantedByUserID];
    [Email] and [Name] of [OrganizerEmail] and [OrganizerName]. *)
Record CoHost := MkCoHost {
  ch_ID : string; ch_EventID : string; ch_UserID : string; ch_Role : string;
  ch_GrantedByUserID : string; ch_CreatedAt : time; ch_Email : string; ch_Name : string }.

(** [time.Time{}], which a failed [time.Parse] returns. *)
Definition zero_time : time := days_of_civil 1 1 1 * 86400 * ns_per_sec.
Definition reparse (s : string) : time := default zero_time (parse_rfc3339 s).

(** ** store.go: rows *)

(** The owner's user id: the scalar subquery of [eventColumns]. *)
Definition owner_of (eventID : string) (d : Database) : option string :=
  (fun m => m.2.(em_user_id)) <$>
    select_row (fun _ m => bool_decide (m.(em_event_id) = eventID)
                           && bool_decide (m.(em_role) = "owner")) d.(event_memberships).

(** A result row of [eventColumns]: id, organizer_id, the other columns. *)
Definition event_columns (d : Database) (x : string * EventRow)
    : string * option string * EventRow := (x.1, owner_of x.1 d, x.2).

Definition parseEventTimes (id owner : string) (r : EventRow) : res Event :=
  eventDate <-r parse_time "parse event_date" r.(e_event_date) ;;
  endDate <-r parse_time_opt "parse end_date" r.(e_end_date) ;;
  deadline <-r parse_time_opt "parse rsvp_deadline" r.(e_rsvp_deadline) ;;
  created <-r parse_time "parse created_at" r.(e_created_at) ;;
  updated <-r parse_time "parse updated_at" r.(e_updated_at) ;;
  Ok (MkEvent id owner r.(e_title) r.(e_description) eventDate endDate r.(e_location)
        r.(e_timezone) r.(e_retention_days) r.(e_status) r.(e_show_headcount)
        r.(e_show_guest_list) deadline r.(e_series_id) r.(e_series_index)
        r.(e_series_override) created updated).

(** A NULL owner cannot be scanned into a string. *)
Definition scan_event_as (ctx : string) (x : string * option string * EventRow) : res Event :=
  let '(id, owner, r) := x in
  match owner with
  | None => Err (EInternal ctx)
  | Some o => parseEventTimes id o r
  end.
Definition scanEvent (row : option (string * option string * EventRow)) : res (option Event) :=
  match row with
  | None => Ok None
  | Some x => e <-r scan_event_as "scan event" x ;; Ok (Some e)
  end.
Definition scanEventRow : string * option string * EventRow -> res Event :=
  scan_event_as "scan event row".

(** The columns the program writes of an event, at the time [now]. *)
Definition event_row (e : Event) (created now : string) : EventRow :=
  {| e_title := e.(ev_Title); e_description := e.(ev_Description);
     e_event_date := format_rfc3339 e.(ev_EventDate);
     e_end_date := format_rfc3339 <$> e.(ev_EndDate); e_location := e.(ev_Location);
     e_timezone := e.(ev_Timezone); e_status := e.(ev_Status);
     e_retention_days := e.(ev_RetentionDays); e_show_headcount := e.(ev_ShowHeadcount);
     e_show_guest_list := e.(ev_ShowGuestList);
     e_rsvp_deadline := format_rfc3339 <$> e.(ev_RSVPDeadline);
     e_series_id := e.(ev_SeriesID); e_series_index := e.(ev_SeriesIndex);
     e_series_override := e.(ev_SeriesOverride); e_created_at := created;
     e_updated_at := now |}.

(** [UPDATE events SET ... WHERE id = ?]: every column but the key and
    [created_at]. *)
Definition update_event (e : Event) (now : string) (d : Database) : option Database :=
  match d.(events) !! e.(ev_ID) with
  | None => Some d
  | Some r =>
      if valid_event_status e.(ev_Status) && has_opt e.(ev_SeriesID) d.(event_series)
      then Some (set_events <[e.(ev_ID) := event_row e r.(e_created_at) now]> d) else None
  end.

Definition with_times (created updated : time) (e : Event) : Event :=
  MkEvent e.(ev_ID) e.(ev_OrganizerID) e.(ev_Title) e.(ev_Description) e.(ev_EventDate)
    e.(ev_EndDate) e.(ev_Location) e.(ev_Timezone) e.(ev_RetentionDays) e.(ev_Status)
    e.(ev_ShowHeadcount) e.(ev_ShowGuestList) e.(ev_RSVPDeadline) e.(ev_SeriesID)
    e.(ev_SeriesIndex) e.(ev_SeriesOverride) created updated.
Definition with_status (status : string) (e : Event) : Event :=
  MkEvent e.(ev_ID) e.(ev_OrganizerID) e.(ev_Title) e.(ev_Description) e.(ev_EventDate)
    e.(ev_EndDate) e.(ev_Location) e.(ev_Timezone) e.(ev_RetentionDays) status
    e.(ev_ShowHeadcount) e.(ev_ShowGuestList) e.(ev_RSVPDeadline) e.(ev_SeriesID)
    e.(ev_SeriesIndex) e.(ev_SeriesOverride) e.(ev_CreatedAt) e.(ev_UpdatedAt).

Definition later_event (a b : string * option string * EventRow) : bool :=
  text_le b.2.(e_event_date) a.2.(e_event_date).
Definition earlier_event (a b : string * option string * EventRow) : bool :=
  text_le a.2.(e_event_date) b.2.(e_event_date).

Definition is_member (eventID userID : string) (m : MembershipRow) : bool :=
  bool_decide (m.(em_event_id) = eventID) && bool_decide (m.(em_user_id) = userID).
Definition is_cohost_row (m : MembershipRow) : bool := bool_decide (m.(em_role) = "cohost").

(** [FindMembershipRole]'s query: the membership of an active user. *)
Definition membership_role (eventID userID : string) (d : Database) : option string :=
  '(_, m) ← select_row (fun _ m => is_member eventID userID m) d.(event_memberships);
  u ← d.(users) !! m.(em_user_id);
  if bool_decide (u.(u_status) = "active") then Some m.(em_role) else None.

Definition cohost_of_row (email name id : string) (m : MembershipRow) : res CoHost :=
  created <-r parse_time "parse created_at" m.(em_created_at) ;;
  Ok (MkCoHost id m.(em_event_id) m.(em_user_id) m.(em_role) m.(em_granted_by) created email name).

Definition membership_older (a b : string * MembershipRow) : bool :=
  text_le a.2.(em_created_at) b.2.(em_created_at).

Section store.
Context `{E : Env}.

Definition createEvent (e : Event) : M Event :=
  t <- now ;;
  let nowText := format_rfc3339 t in
  exec "create event" (insert_event e.(ev_ID) (event_row e nowText nowText)) ;;;
  id <- new_uuid ;;
  exec "create owner membership" (insert_membership id
    {| em_event_id := e.(ev_ID); em_user_id := e.(ev_OrganizerID); em_role := "owner";
       em_granted_by := e.(ev_OrganizerID); em_created_at := nowText;
       em_updated_at := nowText |}) ;;;
  ret (with_times (reparse nowText) (reparse nowText) e).
Definition Store_Create (e : Event) : M Event :=
  with_tx "begin create event" "commit create event" (createEvent e).

Definition Store_FindByID (id : string) : M (option Event) :=
  row <- query "scan event" (fun d => event_columns d ∘ pair id <$> d.(events) !! id) ;;
  of_res (scanEvent row).

(** The events [WHERE P], scanned. *)
Definition find_events (ctx : string) (le : string * option string * EventRow ->
    string * option string * EventRow -> bool) (P : Database -> string -> EventRow -> bool)
    : M (list Event) :=
  rows <- query ctx (fun d => order_by le (map (event_columns d) (select (P d) d.(events)))) ;;
  mapM (fun x => of_res (scanEventRow x)) rows.

Definition not_archived (r : EventRow) : bool := negb (bool_decide (r.(e_status) = "archived")).

Definition FindByOrganizerID (organizerID : string) : M (list Event) :=
  find_events "find events by organizer" later_event (fun d id r =>
    existsb (fun m => is_member id organizerID m.2) (map_to_list d.(event_memberships))
    && not_archived r).

Definition FindMembershipRole (eventID userID : string) : M string :=
  role <- query "find event membership role" (membership_role eventID userID) ;;
  ret (default "" role).

Definition FindByIDs (ids : list string) : M (list Event) :=
  if bool_decide (ids = []) then ret [] else
  find_events "find events by IDs" later_event (fun _ id r => one_of id ids && not_archived r).

Definition Store_Update (e : Event) : M Event :=
  t <- now ;;
  exec "update event" (update_event e (format_rfc3339 t)) ;;;
  ret (with_times e.(ev_CreatedAt) (reparse (format_rfc3339 t)) e).

Definition future_event (seriesID now : string) (r : EventRow) : bool :=
  bool_decide (r.(e_series_id) = Some seriesID) && str_lt now r.(e_event_date)
  && negb (bool_decide (r.(e_status) = "cancelled")) && not_archived r.
Definition FindFutureBySeriesID (seriesID : string) : M (list Event) :=
  t <- now ;;
  find_events "find future events by series" earlier_event
    (fun _ _ r => future_event seriesID (format_rfc3339 t) r).

Definition CountBySeriesID (seriesID : string) : M Z :=
  query "count events by series" (fun d =>
    count (fun _ r => bool_decide (r.(e_series_id) = Some seriesID)) d.(events)).

Definition FindBySeriesID (seriesID : string) : M (list Event) :=
  find_events "find events by series" earlier_event
    (fun _ _ r => bool_decide (r.(e_series_id) = Some seriesID)).

(** ** cohost_store.go *)

Definition CoHostStore_Create (ch : CoHost) : M CoHost :=
  t <- now ;;
  let nowText := format_rfc3339 t in
  exec "create co-host" (insert_membership ch.(ch_ID)
    {| em_event_id := ch.(ch_EventID); em_user_id := ch.(ch_UserID); em_role := ch.(ch_Role);
       em_granted_by := ch.(ch_GrantedByUserID); em_created_at := nowText;
       em_updated_at := nowText |}) ;;;
  ret (MkCoHost ch.(ch_ID) ch.(ch_EventID) ch.(ch_UserID) ch.(ch_Role) ch.(ch_GrantedByUserID)
         (reparse nowText) ch.(ch_Email) ch.(ch_Name)).

(** The JOIN with [users] gives the address and the name. *)
Definition CoHostStore_FindByEventID (eventID : string) : M (list CoHost) :=
  rows <- query "find co-hosts by event" (fun d =>
    omap (fun x => u ← d.(users) !! x.2.(em_user_id); Some (x, u))
      (order_by membership_older
        (select (fun _ m => bool_decide (m.(em_event_id) = eventID) && is_cohost_row m)
           d.(event_memberships)))) ;;
  mapM (fun y => of_res (cohost_of_row y.2.(u_email) y.2.(u_display_name) y.1.1 y.1.2)) rows.

Definition scan_cohost (row : option (string * MembershipRow)) : res (option CoHost) :=
  match row with
  | None => Ok None
  | Some (id, m) => ch <-r cohost_of_row "" "" id m ;; Ok (Some ch)
  end.
Definition FindByEventAndOrganizer (eventID organizerID : string) : M (option CoHost) :=
  row <- query "find co-host by event and organizer" (fun d =>
    select_row (fun _ m => is_member eventID organizerID m && is_cohost_row m)
      d.(event_memberships)) ;;
  of_res (scan_cohost row).
Definition CoHostStore_FindByID (id : string) : M (option CoHost) :=
  row <- query "find co-host by id" (fun d =>
    m ← d.(event_memberships) !! id; if is_cohost_row m then Some (id, m) else None) ;;
  of_res (scan_cohost row).

Definition FindCohostedEventIDs (organizerID : string) : M (list string) :=
  query "find co-hosted event IDs" (fun d =>
    map (fun x => x.2.(em_event_id))
      (select (fun _ m => bool_decide (m.(em_user_id) = organizerID) && is_cohost_row m)
         d.(event_memberships))).

Definition CoHostStore_Delete (id : string) : M () :=
  exec "delete co-host" (fun d => Some (set_event_memberships
    (delete_where (fun k m => bool_decide (k = id) && is_cohost_row m)) d)).

Definition CountByEventID (eventID : string) : M Z :=
  query "count co-hosts" (fun d =>
    count (fun _ m => bool_decide (m.(em_event_id) = eventID) && is_cohost_row m)
      d.(event_memberships)).
End store.

(** ** service.go *)

Definition maxTitleLen : Z := 200.
Definition maxDescriptionLen : Z := 5000.
Definition maxLocationLen : Z := 500.

Record Service := MkEventService {
  defaultRetention : Z;
  onPublish : option (Event -> M ());
  onDuplicate : option (string -> string -> M ());
  onCancel : option (Event -> M ()) }.

Definition parseFlexibleTime (s : string) : res time :=
  match parse_rfc3339 s with
  | Some t => Ok t
  | None =>
      match parse_local_seconds s with
      | Some t => Ok t
      | None =>
          match parse_local_minutes s with
          | Some t => Ok t
          | None => Err (EValidation ("unrecognized datetime format: " +:+ s))
          end
      end
  end.

(** [fmt.Errorf(context + ": %w", err)] keeps a validation error one. *)
Definition wrap_validation {A} (ctx : string) (r : res A) : res A :=
  match r with
  | Err (EValidation m) => Err (EValidation (ctx +:+ ": " +:+ m))
  | _ => r
  end.
Definition parse_field (ctx s : string) : res time := wrap_validation ctx (parseFlexibleTime s).

Definition check_len (what : string) (limit : Z) (s : string) : res () :=
  if limit <? len s
  then Err (EValidation (what +:+ " must be " +:+ itoa limit +:+ " characters or less"))
  else Ok ().

(** The deadline of a request, not after the event. *)
Definition parse_deadline (s : string) (eventDate : time) : res time :=
  deadline <-r parse_field "invalid rsvpDeadline format" s ;;
  if eventDate <? deadline
  then Err (EValidation "RSVP deadline must be on or before the event date")
  else Ok deadline.

(** A pointer to a text that is present and not empty. *)
Definition non_empty (s : option string) : option string :=
  match s with Some x => if bool_decide (x = "") then None else Some x | None => None end.
Definition map_res {A B} (f : A -> res B) (o : option A) : res (option B) :=
  match o with None => Ok None | Some a => b <-r f a ;; Ok (Some b) end.

Definition retention_of (default_ : Z) (o : option Z) : Z :=
  match o with Some n => if 0 <? n then n else default_ | None => default_ end.

(** The event a valid request describes, for an id. *)
Definition event_of_request (defaultRetention : Z) (organizerID : string)
    (req : CreateEventRequest) : res (string -> Event) :=
  if bool_decide (req.(ce_Title) = "") then Err (EValidation "title is required") else
  c1 <-r check_len "title" maxTitleLen req.(ce_Title) ;;
  c2 <-r check_len "description" maxDescriptionLen req.(ce_Description) ;;
  c3 <-r check_len "location" maxLocationLen req.(ce_Location) ;;
  if bool_decide (req.(ce_EventDate) = "") then Err (EValidation "eventDate is required") else
  eventDate <-r parse_field "invalid eventDate format" req.(ce_EventDate) ;;
  endDate <-r map_res (parse_field "invalid endDate format") (non_empty req.(ce_EndDate)) ;;
  deadline <-r map_res (fun s => parse_deadline s eventDate) (non_empty req.(ce_RSVPDeadline)) ;;
  Ok (fun id =>
     {| ev_ID := id; ev_OrganizerID := organizerID; ev_Title := req.(ce_Title);
        ev_Description := req.(ce_Description); ev_EventDate := eventDate;
        ev_EndDate := endDate; ev_Location := req.(ce_Location);
        ev_Timezone := if bool_decide (req.(ce_Timezone) = "") then "America/New_York"
                       else req.(ce_Timezone);
        ev_RetentionDays := retention_of defaultRetention req.(ce_RetentionDays);
        ev_Status := "draft"; ev_ShowHeadcount := default false req.(ce_ShowHeadcount);
        ev_ShowGuestList := default false req.(ce_ShowGuestList); ev_RSVPDeadline := deadline;
        ev_SeriesID := None; ev_SeriesIndex := None; ev_SeriesOverride := false;
        ev_CreatedAt := zero_time; ev_UpdatedAt := zero_time |}).

(** A pointer to a text that clears the field when it is empty. *)
Definition optional_field (parse : string -> res time) (old : option time) (s : option string)
    : res (option time) :=
  match s with
  | None => Ok old
  | Some x => if bool_decide (x = "") then Ok None else t <-r parse x ;; Ok (Some t)
  end.
Definition set_text (what : string) (limit : Z) (old : string) (s : option string) : res string :=
  match s with None => Ok old | Some x => c <-r check_len what limit x ;; Ok x end.

(** The event after an update request. *)
Definition apply_update (e : Event) (req : UpdateEventRequest) : res Event :=
  title <-r set_text "title" maxTitleLen e.(ev_Title) req.(ue_Title) ;;
  description <-r set_text "description" maxDescriptionLen e.(ev_Description)
                    req.(ue_Description) ;;
  eventDate <-r match req.(ue_EventDate) with
                | None => Ok e.(ev_EventDate)
                | Some x => parse_field "invalid eventDate format" x
                end ;;
  endDate <-r optional_field (parse_field "invalid endDate format") e.(ev_EndDate)
                req.(ue_EndDate) ;;
  location <-r set_text "location" maxLocationLen e.(ev_Location) req.(ue_Location) ;;
  deadline <-r optional_field (fun s => parse_deadline s eventDate) e.(ev_RSVPDeadline)
                 req.(ue_RSVPDeadline) ;;
  Ok {| ev_ID := e.(ev_ID); ev_OrganizerID := e.(ev_OrganizerID); ev_Title := title;
        ev_Description := description; ev_EventDate := eventDate; ev_EndDate := endDate;
        ev_Location := location; ev_Timezone := default e.(ev_Timezone) req.(ue_Timezone);
        ev_RetentionDays := default e.(ev_RetentionDays) req.(ue_RetentionDays);
        ev_Status := e.(ev_Status);
        ev_ShowHeadcount := default e.(ev_ShowHeadcount) req.(ue_ShowHeadcount);
        ev_ShowGuestList := default e.(ev_ShowGuestList) req.(ue_ShowGuestList);
        ev_RSVPDeadline := deadline; ev_SeriesID := e.(ev_SeriesID);
        ev_SeriesIndex := e.(ev_SeriesIndex); ev_SeriesOverride := e.(ev_SeriesOverride);
        ev_CreatedAt := e.(ev_CreatedAt); ev_UpdatedAt := e.(ev_UpdatedAt) |}.

Section service.
Context `{E : Env} (s : Service).

Definition CanManageEvent (eventID organizerID : string) : M bool :=
  o <- Store_FindByID eventID ;;
  match o with
  | None => ret false
  | Some _ =>
      role <- FindMembershipRole eventID organizerID ;;
      ret (bool_decide (role = "owner") || bool_decide (role = "cohost"))
  end.
Definition IsEventOwner (eventID organizerID : string) : M bool :=
  o <- Store_FindByID eventID ;;
  match o with
  | None => ret false
  | Some _ =>
      role <- FindMembershipRole eventID organizerID ;;
      ret (bool_decide (role = "owner"))
  end.

Definition Create (organizerID : string) (req : CreateEventRequest) : M Event :=
  e <- of_res (event_of_request s.(defaultRetention) organizerID req) ;;
  id <- new_uuid ;;
  Store_Create (e id).

Definition GetByID (id : string) : M Event :=
  o <- Store_FindByID id ;; of_option ErrEventNotFound o.

Definition ListByOrganizer (organizerID : string) : M (list Event) :=
  FindByOrganizerID organizerID.

(** The event, if [access] says the user may change it. *)
Definition load_event (access : string -> string -> M bool) (eventID organizerID : string)
    : M Event :=
  o <- Store_FindByID eventID ;;
  e <- of_option ErrEventNotFound o ;;
  allowed <- access eventID organizerID ;;
  require allowed ErrForbidden ;;;
  ret e.

(** A callback that may not be registered. *)
Definition notify {A} (cb : option (A -> M ())) (a : A) : M () :=
  match cb with Some f => ignore_err (f a) | None => ret () end.

Definition Update (eventID organizerID : string) (req : UpdateEventRequest) : M Event :=
  e <- load_event CanManageEvent eventID organizerID ;;
  e <- of_res (apply_update e req) ;;
  Store_Update e.

Definition wrong_status (verb from current : string) : err :=
  EValidation ("event can only be " +:+ verb +:+ " from " +:+ from
               +:+ " status, current status: " +:+ current).

(** [Publish], [Cancel] and [Reopen] up to their callbacks. *)
Definition transition (verb from to eventID organizerID : string) : M Event :=
  e <- load_event CanManageEvent eventID organizerID ;;
  require (bool_decide (e.(ev_Status) = from)) (wrong_status verb from e.(ev_Status)) ;;;
  Store_Update (with_status to e).

Definition Publish (eventID organizerID : string) : M Event :=
  e <- transition "published" "draft" "published" eventID organizerID ;;
  notify s.(onPublish) e ;;;
  ret e.

Definition Cancel (eventID organizerID : string) (notifyInvitees : bool) : M Event :=
  e <- transition "cancelled" "published" "cancelled" eventID organizerID ;;
  (if notifyInvitees then notify s.(onCancel) e else ret ()) ;;;
  ret e.

Definition Reopen (eventID organizerID : string) : M Event :=
  transition "reopened" "cancelled" "draft" eventID organizerID.

Definition copy_of (e : Event) (id organizerID : string) : Event :=
  {| ev_ID := id; ev_OrganizerID := organizerID; ev_Title := "Copy of " +:+ e.(ev_Title);
     ev_Description := e.(ev_Description); ev_EventDate := e.(ev_EventDate);
     ev_EndDate := e.(ev_EndDate); ev_Location := e.(ev_Location);
     ev_Timezone := e.(ev_Timezone); ev_RetentionDays := e.(ev_RetentionDays);
     ev_Status := "draft"; ev_ShowHeadcount := e.(ev_ShowHeadcount);
     ev_ShowGuestList := e.(ev_ShowGuestList); ev_RSVPDeadline := e.(ev_RSVPDeadline);
     ev_SeriesID := None; ev_SeriesIndex := None; ev_SeriesOverride := false;
     ev_CreatedAt := zero_time; ev_UpdatedAt := zero_time |}.
Definition Duplicate (eventID organizerID : string) : M Event :=
  e <- load_event IsEventOwner eventID organizerID ;;
  id <- new_uuid ;;
  copy <- Store_Create (copy_of e id organizerID) ;;
  match s.(onDuplicate) with
  | Some f => ignore_err (f eventID copy.(ev_ID))
  | None => ret ()
  end ;;;
  ret copy.

Definition Delete (eventID organizerID : string) : M () :=
  e <- load_event IsEventOwner eventID organizerID ;;
  Store_Update (with_status "archived" e) ;;;
  ret ().

Definition CreateFromSeries (e : Event) : M () := Store_Create e ;;; ret ().

(** [checkEventOwner] of the server: an [EventAccessChecker]. *)
Definition checkEventOwner (eventID organizerID : string) : M () :=
  canManage <- CanManageEvent eventID organizerID ;;
  require canManage ErrEventNotFound.
End service.
