(* ===== verification/EventHandler.v ===== *)
(** * The HTTP handlers of events (internal/event/handler.go)

    Request bodies come decoded, [None] being an error of [httpx.DecodeJSON]; the
    signed-in user and the path parameters are arguments.  The cohost endpoint
    keeps two tables in memory, the notification throttle and the rate limiter;
    they are passed along as [Memory].  The minimal response time of that
    endpoint and its per-event mutex (a handler runs as one sequence of
    statements here) are not modelled; the notification runs in a goroutine,
    here at the point where it is started. *)

From S2P Require Import Prelude.
From S2P Require Import GoStr.
From S2P Require Import GoTime.
From S2P Require Import Schema.
From S2P Require Import Eff.
From S2P Require Import Http.
From S2P Require Import Auth.
From S2P Require Import Event.

Local Open Scope Z_scope.

(** ** The tables kept in memory *)

(** [coHostNotifyThrottle.seen]: eventID + ":" + email *)
Abbreviation Throttle := (gmap string time).

Section throttle.
Context `{E : Env}.

Definition throttle_allow (eventID email : string) (seen : Throttle) : M (bool * Throttle) :=
  let key := eventID +:+ ":" +:+ email in
  recent <- match seen !! key with
            | Some last => t <- now ;; ret (t - last <? hour)
            | None => ret false
            end ;;
  if recent : bool then ret (false, seen) else
  t <- now ;;
  ret (true, <[key := t]> seen).

Definition throttle_cleanup (seen : Throttle) : M Throttle :=
  t <- now ;;
  ret (map_imap (fun _ ts => if ts <? t - hour then None else Some ts) seen).
End throttle.

Record coHostRateLimiter := MkCoHostLimiter {
  cl_windows : gmap string (list time); cl_limit : Z; cl_window : Z }.
Definition newCoHostRateLimiter (limit window : Z) : coHostRateLimiter :=
  MkCoHostLimiter ∅ limit window.

(** The compaction loop: [entries[idx] = e; idx++] for the [n] positions from
    [i] on, in place. *)
Fixpoint compact (cutoff : time) (n i idx : nat) (entries : list time) : list time * nat :=
  match n with
  | O => (entries, idx)
  | S n =>
      let e := nth i entries zero_time in
      if e <? cutoff then compact cutoff n (S i) idx entries
      else compact cutoff n (S i) (S idx) (<[idx := e]> entries)
  end.
Definition limiter_allow (key : string) (now : time) (rl : coHostRateLimiter)
    : bool * coHostRateLimiter :=
  let cutoff := now - rl.(cl_window) in
  let stored := default [] (rl.(cl_windows) !! key) in
  let '(compacted, idx) := compact cutoff (length stored) 0 0 stored in
  let entries := take idx compacted in
  if rl.(cl_limit) <=? Z.of_nat (length entries)
  then (false, MkCoHostLimiter (<[key := entries]> rl.(cl_windows)) rl.(cl_limit) rl.(cl_window))
  else (true, MkCoHostLimiter (<[key := entries ++ [now]]> rl.(cl_windows)) rl.(cl_limit)
                rl.(cl_window)).

Record Memory := MkMemory { mem_throttle : Throttle; mem_limiter : coHostRateLimiter }.

(** ** The handler *)

Inductive EventPayload :=
| PEvent (e : Event)
| PEvents (l : list Event)
| PCoHosts (l : list CoHost)
| PCoHost (ch : CoHost)
| PMessage (message : string)
| PStatus (status : string).

Record Handler := MkEventHandler {
  h_service : Service;
  h_cohostStore : bool;  (* whether [cohostStore] is set *)
  h_lookupByEmail : option (string -> M (string * string));
  h_notifyCoHost : option (string -> string -> string -> M ());
  h_maxCoHosts : Z;
  h_cohostSponsor : option (string -> string -> string -> M bool) }.

Abbreviation Answer := (M (Resp EventPayload)).

Definition unauthorized : Resp EventPayload :=
  json_error 401 "unauthorized" "authentication required".
Definition bad_json : Resp EventPayload := json_error 400 "bad_request" "invalid JSON body".
Definition not_found : Resp EventPayload := json_error 404 "not_found" "event not found".
Definition not_owner : Resp EventPayload :=
  json_error 403 "forbidden" "forbidden: you do not own this event".

Section handler.
Context `{E : Env, HttpEnv} (h : Handler).

Definition signed_in (organizer : option string) (k : string -> Answer) : Answer :=
  match organizer with None => ret unauthorized | Some id => k id end.
Definition decoded {B} (body : option B) (k : B -> Answer) : Answer :=
  match body with None => ret bad_json | Some b => k b end.

(** What the event endpoints answer to an error of the service. *)
Definition event_error (e : err) : Answer :=
  match e with
  | ErrEventNotFound => ret not_found
  | ErrForbidden => ret (json_error 403 "forbidden" "you do not own this event")
  | EValidation message => ret (json_error 400 "bad_request" message)
  | _ => internal_error
  end.
Definition answer {A} (m : M A) (on_error : err -> Answer) (k : A -> Resp EventPayload) : Answer :=
  r <- attempt m ;;
  match r with Ok a => ret (k a) | Err e => on_error e end.

Definition handleCreate (organizer : option string) (body : option CreateEventRequest) : Answer :=
  signed_in organizer (fun organizerID =>
  decoded body (fun req =>
  answer (Create h.(h_service) organizerID req)
    (fun e => match e with
              | EValidation message => ret (json_error 400 "bad_request" message)
              | _ => internal_error
              end)
    (fun ev => json 201 (PEvent ev)))).

Definition handleList (organizer : option string) : Answer :=
  signed_in organizer (fun organizerID =>
  answer (ListByOrganizer organizerID) (fun _ => internal_error) (fun l => json 200 (PEvents l))).

Definition handleGet (organizer : option string) (eventID : string) : Answer :=
  signed_in organizer (fun organizerID =>
  r <- attempt (GetByID eventID) ;;
  match r with
  | Err ErrEventNotFound => ret not_found
  | Err _ => internal_error
  | Ok ev =>
      c <- attempt (CanManageEvent eventID organizerID) ;;
      match c with
      | Ok true => ret (json 200 (PEvent ev))
      | _ => ret not_found
      end
  end).

Definition handleUpdate (organizer : option string) (eventID : string)
    (body : option UpdateEventRequest) : Answer :=
  signed_in organizer (fun organizerID =>
  decoded body (fun req =>
  answer (Update eventID organizerID req) event_error (fun ev => json 200 (PEvent ev)))).

Definition handlePublish (organizer : option string) (eventID : string) : Answer :=
  signed_in organizer (fun organizerID =>
  answer (Publish h.(h_service) eventID organizerID) event_error
    (fun ev => json 200 (PEvent ev))).

(** The body of a cancellation is optional: [Some None] is an empty one. *)
Definition handleCancel (organizer : option string) (eventID : string)
    (body : option (option bool)) : Answer :=
  signed_in organizer (fun organizerID =>
  decoded body (fun notifyInvitees =>
  answer (Cancel h.(h_service) eventID organizerID (default false notifyInvitees)) event_error
    (fun ev => json 200 (PEvent ev)))).

Definition handleReopen (organizer : option string) (eventID : string) : Answer :=
  signed_in organizer (fun organizerID =>
  answer (Reopen eventID organizerID) event_error (fun ev => json 200 (PEvent ev))).

Definition handleDuplicate (organizer : option string) (eventID : string) : Answer :=
  signed_in organizer (fun organizerID =>
  answer (Duplicate h.(h_service) eventID organizerID) event_error
    (fun ev => json 201 (PEvent ev))).

Definition handleDelete (organizer : option string) (eventID : string) : Answer :=
  signed_in organizer (fun organizerID =>
  answer (Delete eventID organizerID)
    (fun e => match e with EValidation _ => internal_error | _ => event_error e end)
    (fun _ => json 200 (PMessage "event deleted"))).

Definition handleListCoHosts (organizer : option string) (eventID : string) : Answer :=
  signed_in organizer (fun organizerID =>
  c <- attempt (CanManageEvent eventID organizerID) ;;
  match c with
  | Err _ => ret not_found
  | Ok false => ret not_owner
  | Ok true =>
      if negb h.(h_cohostStore) then ret (json 200 (PCoHosts [])) else
      answer (CoHostStore_FindByEventID eventID) (fun _ => internal_error)
        (fun l => json 200 (PCoHosts l))
  end).

(** ** Adding and removing cohosts *)

Definition genericErr : Resp EventPayload :=
  json_error 400 "bad_request"
    "Unable to add co-host. Ensure the email belongs to an eligible Owl Invites account.".

(** The host of [r.RemoteAddr]. *)
Definition remote_ip (remoteAddr : string) : string :=
  let ip := default "" (fst <$> split_host_port remoteAddr) in
  if bool_decide (ip = "") then remoteAddr else ip.

Definition sponsored (sponsor : string -> string -> string -> M bool)
    (organizerID eventID email : string) : Answer :=
  r <- attempt (sponsor organizerID eventID email) ;;
  match r with
  | Err _ => ret (json_error 400 "bad_request"
      "Unable to add co-host. Ensure the email is eligible and the event has capacity.")
  | Ok true => ret (json 202 (PStatus "account_invitation_sent"))
  | Ok false => ret (json 201 (PStatus "membership_created"))
  end.

(** The handler's own path, for a known user and no sponsor. *)
Definition add_known (mem : Memory) (organizerID eventID email targetID targetName : string)
    : M (Resp EventPayload * Memory) :=
  existing <- attempt (FindByEventAndOrganizer eventID targetID) ;;
  match existing with
  | Err _ | Ok (Some _) => ret (genericErr, mem)
  | Ok None =>
      c <- attempt (CountByEventID eventID) ;;
      match c with
      | Err _ => r <- internal_error ;; ret (r, mem)
      | Ok count =>
          if h.(h_maxCoHosts) <=? count
          then ret (json_error 400 "bad_request"
                      ("Maximum " +:+ itoa h.(h_maxCoHosts) +:+ " co-hosts per event"), mem)
          else
            id <- new_uuid ;;
            r <- attempt (CoHostStore_Create
                   (MkCoHost id eventID targetID "cohost" organizerID zero_time "" "")) ;;
            match r with
            | Err _ => r <- internal_error ;; ret (r, mem)
            | Ok ch =>
                mem' <- match h.(h_notifyCoHost) with
                        | None => ret mem
                        | Some notify =>
                            let* (allowed, seen) := throttle_allow eventID email mem.(mem_throttle) in
                            (if allowed : bool then ignore_err (notify email eventID organizerID)
                             else ret ()) ;;;
                            ret (MkMemory seen mem.(mem_limiter))
                        end ;;
                ret (json 201 (PCoHost (MkCoHost ch.(ch_ID) ch.(ch_EventID) ch.(ch_UserID)
                       ch.(ch_Role) ch.(ch_GrantedByUserID) ch.(ch_CreatedAt) email targetName)),
                     mem')
            end
      end
  end.

Definition handleAddCoHost (mem : Memory) (organizer : option string) (remoteAddr eventID : string)
    (body : option string) : M (Resp EventPayload * Memory) :=
  match organizer with
  | None => ret (unauthorized, mem)
  | Some organizerID =>
      t <- now ;;
      let '(allowed, rl) := limiter_allow (remote_ip remoteAddr) t mem.(mem_limiter) in
      let mem := MkMemory mem.(mem_throttle) rl in
      if negb allowed
      then ret (json_error 429 "rate_limited" "too many requests, please try again later", mem) else
      o <- attempt (IsEventOwner eventID organizerID) ;;
      match o, body with
      | Err _, _ => ret (not_found, mem)
      | Ok false, _ => ret (not_owner, mem)
      | Ok true, None => ret (bad_json, mem)
      | Ok true, Some email =>
          if bool_decide (email = "")
          then ret (json_error 400 "bad_request" "email is required", mem) else
          match h.(h_cohostSponsor) with
          | Some sponsor => r <- sponsored sponsor organizerID eventID email ;; ret (r, mem)
          | None =>
              match h.(h_lookupByEmail), h.(h_cohostStore) with
              | Some lookup, true =>
                  l <- attempt (lookup email) ;;
                  match l with
                  | Ok (targetID, targetName) =>
                      if bool_decide (targetID = "") || bool_decide (targetID = organizerID)
                      then ret (genericErr, mem)
                      else add_known mem organizerID eventID email targetID targetName
                  | Err _ => ret (genericErr, mem)
                  end
              | _, _ => ret (genericErr, mem)
              end
          end
      end
  end.

Definition cohost_not_found : Resp EventPayload := json_error 404 "not_found" "co-host not found".

Definition handleRemoveCoHost (organizer : option string) (eventID cohostID : string) : Answer :=
  signed_in organizer (fun organizerID =>
  if negb h.(h_cohostStore) then ret cohost_not_found else
  c <- attempt (CoHostStore_FindByID cohostID) ;;
  match c with
  | Err _ => internal_error
  | Ok None => ret cohost_not_found
  | Ok (Some ch) =>
      if negb (bool_decide (ch.(ch_EventID) = eventID)) then ret cohost_not_found else
      o <- attempt (IsEventOwner eventID organizerID) ;;
      match o with
      | Err _ => ret not_found
      | Ok isOwner =>
          if negb isOwner && negb (bool_decide (ch.(ch_UserID) = organizerID))
          then ret not_owner else
          answer (CoHostStore_Delete cohostID) (fun _ => internal_error)
            (fun _ => json 200 (PMessage "co-host removed"))
      end
  end).
End handler.
