(* ===== verification/Series.v ===== *)
(** * Recurring event series (internal/event/series_*.go)

    The series store, the service with its occurrence generator and the
    handlers.  Instants are in UTC throughout, as the program keeps them;
    durations are products of [int64].  Errors the program only logs are dropped. *)

From S2P Require Import Prelude.
From S2P Require Import GoStr.
From S2P Require Import GoTime.
From S2P Require Import Schema.
From S2P Require Import Eff.
From S2P Require Import Http.
From S2P Require Import Auth.
From S2P Require Import Event.

Local Open Scope Z_scope.

(** ** series_model.go *)

Record EventSeries := MkSeries {
  es_ID : string; es_OrganizerID : string; es_Title : string; es_Description : string;
  es_Location : string; es_Timezone : string; es_EventTime : string;
  es_DurationMinutes : option Z; es_RecurrenceRule : string; es_RecurrenceEnd : option time;
  es_MaxOccurrences : option Z; es_SeriesStatus : string; es_RetentionDays : Z;
  es_ShowHeadcount : bool; es_ShowGuestList : bool; es_RSVPDeadlineOffsetHours : option Z;
  es_CreatedAt : time; es_UpdatedAt : time }.

Record CreateSeriesRequest := MkCreateSeries {
  cs_Title : string; cs_Description : string; cs_Location : string; cs_Timezone : string;
  cs_StartDate : string; cs_EventTime : string; cs_DurationMinutes : option Z;
  cs_RecurrenceRule : string; cs_RecurrenceEnd : option string; cs_MaxOccurrences : option Z;
  cs_RetentionDays : option Z; cs_ShowHeadcount : option bool; cs_ShowGuestList : option bool;
  cs_RSVPDeadlineOffsetHours : option Z }.

Record UpdateSeriesRequest := MkUpdateSeries {
  us_Title : option string; us_Description : option string; us_Location : option string;
  us_Timezone : option string; us_EventTime : option string; us_DurationMinutes : option Z;
  us_RecurrenceEnd : option string; us_MaxOccurrences : option Z; us_RetentionDays : option Z;
  us_ShowHeadcount : option bool; us_ShowGuestList : option bool;
  us_RSVPDeadlineOffsetHours : option Z }.

(** ** series_store.go *)

Definition series_row (es : EventSeries) (owner created now : string) : SeriesRow :=
  {| sr_owner := owner; sr_title := es.(es_Title); sr_description := es.(es_Description);
     sr_location := es.(es_Location); sr_timezone := es.(es_Timezone);
     sr_event_time := es.(es_EventTime); sr_duration := es.(es_DurationMinutes);
     sr_rule := es.(es_RecurrenceRule); sr_end := format_rfc3339 <$> es.(es_RecurrenceEnd);
     sr_max := es.(es_MaxOccurrences); sr_status := es.(es_SeriesStatus);
     sr_retention_days := es.(es_RetentionDays); sr_show_headcount := es.(es_ShowHeadcount);
     sr_show_guest_list := es.(es_ShowGuestList);
     sr_deadline_hours := es.(es_RSVPDeadlineOffsetHours); sr_created_at := created;
     sr_updated_at := now |}.

Definition parseSeriesFields (id : string) (r : SeriesRow) : res EventSeries :=
  recurrenceEnd <-r parse_time_opt "parse recurrence_end" r.(sr_end) ;;
  created <-r parse_time "parse created_at" r.(sr_created_at) ;;
  updated <-r parse_time "parse updated_at" r.(sr_updated_at) ;;
  Ok (MkSeries id r.(sr_owner) r.(sr_title) r.(sr_description) r.(sr_location) r.(sr_timezone)
        r.(sr_event_time) r.(sr_duration) r.(sr_rule) recurrenceEnd r.(sr_max) r.(sr_status)
        r.(sr_retention_days) r.(sr_show_headcount) r.(sr_show_guest_list)
        r.(sr_deadline_hours) created updated).
Definition scanSeries (row : option (string * SeriesRow)) : res (option EventSeries) :=
  match row with
  | None => Ok None
  | Some (id, r) => es <-r parseSeriesFields id r ;; Ok (Some es)
  end.

(** [UPDATE event_series SET ... WHERE id = ?]: not the key, the owner and
    [created_at]. *)
Definition update_series (es : EventSeries) (now : string) (d : Database) : option Database :=
  match d.(event_series) !! es.(es_ID) with
  | None => Some d
  | Some r =>
      let r' := series_row es r.(sr_owner) r.(sr_created_at) now in
      if series_check r' then Some (set_event_series <[es.(es_ID) := r']> d) else None
  end.

Definition series_times (created updated : time) (es : EventSeries) : EventSeries :=
  MkSeries es.(es_ID) es.(es_OrganizerID) es.(es_Title) es.(es_Description) es.(es_Location)
    es.(es_Timezone) es.(es_EventTime) es.(es_DurationMinutes) es.(es_RecurrenceRule)
    es.(es_RecurrenceEnd) es.(es_MaxOccurrences) es.(es_SeriesStatus) es.(es_RetentionDays)
    es.(es_ShowHeadcount) es.(es_ShowGuestList) es.(es_RSVPDeadlineOffsetHours) created updated.
Definition series_status (status : string) (es : EventSeries) : EventSeries :=
  MkSeries es.(es_ID) es.(es_OrganizerID) es.(es_Title) es.(es_Description) es.(es_Location)
    es.(es_Timezone) es.(es_EventTime) es.(es_DurationMinutes) es.(es_RecurrenceRule)
    es.(es_RecurrenceEnd) es.(es_MaxOccurrences) status es.(es_RetentionDays)
    es.(es_ShowHeadcount) es.(es_ShowGuestList) es.(es_RSVPDeadlineOffsetHours)
    es.(es_CreatedAt) es.(es_UpdatedAt).

Definition series_newer (a b : string * SeriesRow) : bool :=
  text_le b.2.(sr_created_at) a.2.(sr_created_at).

Section store.
Context `{E : Env}.

Definition SeriesStore_Create (es : EventSeries) : M EventSeries :=
  t <- now ;;
  let nowText := format_rfc3339 t in
  exec "create event series"
    (insert_series es.(es_ID) (series_row es es.(es_OrganizerID) nowText nowText)) ;;;
  ret (series_times (reparse nowText) (reparse nowText) es).

Definition SeriesStore_FindByID (id : string) : M (option EventSeries) :=
  row <- query "scan event series" (fun d => pair id <$> d.(event_series) !! id) ;;
  of_res (scanSeries row).

Definition SeriesStore_FindByOrganizerID (organizerID : string) : M (list EventSeries) :=
  rows <- query "find series by organizer" (fun d =>
    order_by series_newer
      (select (fun _ r => bool_decide (r.(sr_owner) = organizerID)) d.(event_series))) ;;
  mapM (fun x => of_res (parseSeriesFields x.1 x.2)) rows.

Definition FindAllActive : M (list EventSeries) :=
  rows <- query "find all active series" (fun d =>
    select (fun _ r => bool_decide (r.(sr_status) = "active")) d.(event_series)) ;;
  mapM (fun x => of_res (parseSeriesFields x.1 x.2)) rows.

Definition SeriesStore_Update (es : EventSeries) : M EventSeries :=
  t <- now ;;
  exec "update event series" (update_series es (format_rfc3339 t)) ;;;
  ret (series_times es.(es_CreatedAt) (reparse (format_rfc3339 t)) es).

Definition SeriesStore_Delete (id : string) : M () :=
  exec "delete event series" (fun d => Some (delete_series id d)).
End store.

(** ** series_service.go *)

Definition isValidRecurrenceRule (s : string) : bool := one_of s ["weekly"; "biweekly"; "monthly"].

(** The switch of [calculateNextOccurrence]. *)
Definition nextMonthly (from : time) (originalDay : Z) : time :=
  let '(y, m, _) := date_of from in
  let nextMonth := if 12 <? m + 1 then 1 else m + 1 in
  let nextYear := if 12 <? m + 1 then y + 1 else y in
  let lastDay := day_of (time_date nextYear (nextMonth + 1) 0 0) in
  let day := if lastDay <? originalDay then lastDay else originalDay in
  time_date nextYear nextMonth day (second_of_day from).
Definition calculateNextOccurrence (from : time) (rule : string) (originalDay : Z) : time :=
  if bool_decide (rule = "weekly") then from + 7 * ns_per_day
  else if bool_decide (rule = "biweekly") then from + 14 * ns_per_day
  else if bool_decide (rule = "monthly") then nextMonthly from originalDay
  else from.

(** [Some n] for a pointer to a positive number. *)
Definition positive (o : option Z) : option Z :=
  match o with Some n => if 0 <? n then Some n else None | None => None end.

Definition reached_max (es : EventSeries) (n : Z) : bool :=
  match es.(es_MaxOccurrences) with Some m => m <=? n | None => false end.
Definition past_end (es : EventSeries) (t : time) : bool :=
  match es.(es_RecurrenceEnd) with Some e => e <? t | None => false end.

Definition series_of_request (defaultRetention : Z) (organizerID : string)
    (req : CreateSeriesRequest) : res (string -> EventSeries) :=
  if bool_decide (req.(cs_Title) = "") then Err (EValidation "title is required") else
  if bool_decide (req.(cs_StartDate) = "") then Err (EValidation "startDate is required") else
  if bool_decide (req.(cs_EventTime) = "") then Err (EValidation "eventTime is required") else
  if negb (isValidRecurrenceRule req.(cs_RecurrenceRule))
  then Err (EValidation "invalid recurrenceRule: must be weekly, biweekly, or monthly") else
  recurrenceEnd <-r map_res (parse_field "invalid recurrenceEnd format")
                      (non_empty req.(cs_RecurrenceEnd)) ;;
  Ok (fun id =>
    {| es_ID := id; es_OrganizerID := organizerID; es_Title := req.(cs_Title);
       es_Description := req.(cs_Description); es_Location := req.(cs_Location);
       es_Timezone := if bool_decide (req.(cs_Timezone) = "") then "America/New_York"
                      else req.(cs_Timezone);
       es_EventTime := req.(cs_EventTime); es_DurationMinutes := req.(cs_DurationMinutes);
       es_RecurrenceRule := req.(cs_RecurrenceRule); es_RecurrenceEnd := recurrenceEnd;
       es_MaxOccurrences := req.(cs_MaxOccurrences); es_SeriesStatus := "active";
       es_RetentionDays := retention_of defaultRetention req.(cs_RetentionDays);
       es_ShowHeadcount := default false req.(cs_ShowHeadcount);
       es_ShowGuestList := default false req.(cs_ShowGuestList);
       es_RSVPDeadlineOffsetHours := req.(cs_RSVPDeadlineOffsetHours);
       es_CreatedAt := zero_time; es_UpdatedAt := zero_time |}).

(** [req.Field] when present, else what the series has. *)
Definition or_keep {A} (new old : option A) : option A :=
  match new with Some a => Some a | None => old end.
Definition apply_series_update (es : EventSeries) (req : UpdateSeriesRequest) : res EventSeries :=
  recurrenceEnd <-r optional_field (parse_field "invalid recurrenceEnd format")
                      es.(es_RecurrenceEnd) req.(us_RecurrenceEnd) ;;
  Ok {| es_ID := es.(es_ID); es_OrganizerID := es.(es_OrganizerID);
        es_Title := default es.(es_Title) req.(us_Title);
        es_Description := default es.(es_Description) req.(us_Description);
        es_Location := default es.(es_Location) req.(us_Location);
        es_Timezone := default es.(es_Timezone) req.(us_Timezone);
        es_EventTime := default es.(es_EventTime) req.(us_EventTime);
        es_DurationMinutes := or_keep req.(us_DurationMinutes) es.(es_DurationMinutes);
        es_RecurrenceRule := es.(es_RecurrenceRule); es_RecurrenceEnd := recurrenceEnd;
        es_MaxOccurrences := or_keep req.(us_MaxOccurrences) es.(es_MaxOccurrences);
        es_SeriesStatus := es.(es_SeriesStatus);
        es_RetentionDays := default es.(es_RetentionDays) req.(us_RetentionDays);
        es_ShowHeadcount := default es.(es_ShowHeadcount) req.(us_ShowHeadcount);
        es_ShowGuestList := default es.(es_ShowGuestList) req.(us_ShowGuestList);
        es_RSVPDeadlineOffsetHours :=
          or_keep req.(us_RSVPDeadlineOffsetHours) es.(es_RSVPDeadlineOffsetHours);
        es_CreatedAt := es.(es_CreatedAt); es_UpdatedAt := es.(es_UpdatedAt) |}.

(** The event an occurrence of the series at [eventDate] is. *)
Definition occurrence (es : EventSeries) (eventDate : time) (index : Z) (id : string) : Event :=
  {| ev_ID := id; ev_OrganizerID := es.(es_OrganizerID); ev_Title := es.(es_Title);
     ev_Description := es.(es_Description); ev_EventDate := eventDate;
     ev_EndDate := (fun n => eventDate + duration n minute) <$> positive es.(es_DurationMinutes);
     ev_Location := es.(es_Location); ev_Timezone := es.(es_Timezone);
     ev_RetentionDays := es.(es_RetentionDays); ev_Status := "published";
     ev_ShowHeadcount := es.(es_ShowHeadcount); ev_ShowGuestList := es.(es_ShowGuestList);
     ev_RSVPDeadline :=
       (fun n => eventDate + duration (- n) hour) <$> positive es.(es_RSVPDeadlineOffsetHours);
     ev_SeriesID := Some es.(es_ID); ev_SeriesIndex := Some index; ev_SeriesOverride := false;
     ev_CreatedAt := zero_time; ev_UpdatedAt := zero_time |}.

(** The template's columns of a future occurrence. *)
Definition from_template (es : EventSeries) (e : Event) : Event :=
  MkEvent e.(ev_ID) e.(ev_OrganizerID) es.(es_Title) es.(es_Description) e.(ev_EventDate)
    e.(ev_EndDate) es.(es_Location) es.(es_Timezone) es.(es_RetentionDays) e.(ev_Status)
    es.(es_ShowHeadcount) es.(es_ShowGuestList) e.(ev_RSVPDeadline) e.(ev_SeriesID)
    e.(ev_SeriesIndex) e.(ev_SeriesOverride) e.(ev_CreatedAt) e.(ev_UpdatedAt).

Record SeriesService := MkSeriesService {
  ss_eventService : Service;
  ss_defaultRetention : Z;
  ss_onCreateOccurrence : option (string -> string -> M ()) }.

Section service.
Context `{E : Env} (s : SeriesService).

Definition buildOccurrenceFromSeries (es : EventSeries) (eventDate : time) (index : Z) : M Event :=
  id <- new_uuid ;; ret (occurrence es eventDate index id).

(** One turn of the generating loops, past their breaks. *)
Definition create_occurrence (ctx : string) (es : EventSeries) (date : time) (index : Z) : M () :=
  occ <- buildOccurrenceFromSeries es date index ;;
  or_err (EInternal ctx) (CreateFromSeries occ) ;;;
  match s.(ss_onCreateOccurrence) with
  | Some f => ignore_err (f es.(es_ID) occ.(ev_ID))
  | None => ret ()
  end.

(** The loop of [generateInitialOccurrences] with [n] turns left. *)
Fixpoint initial_loop (n : nat) (es : EventSeries) (i : Z) (currentDate : time) (originalDay : Z)
    : M () :=
  match n with
  | O => ret ()
  | S n =>
      if reached_max es i || past_end es currentDate then ret () else
      create_occurrence "create initial occurrence" es currentDate (i + 1) ;;;
      initial_loop n es (i + 1)
        (calculateNextOccurrence currentDate es.(es_RecurrenceRule) originalDay) originalDay
  end.
Definition first_date (startDate eventTime : string) : res time :=
  match parseFlexibleTime (startDate +:+ "T" +:+ eventTime) with
  | Ok t => Ok t
  | Err _ => wrap_validation "invalid startDate format" (parseFlexibleTime startDate)
  end.
Definition generateInitialOccurrences (es : EventSeries) (startDate : string) : M () :=
  firstDate <- of_res (first_date startDate es.(es_EventTime)) ;;
  initial_loop 4 es 0 firstDate (day_of firstDate).

Definition CreateSeries (organizerID : string) (req : CreateSeriesRequest) : M EventSeries :=
  make <- of_res (series_of_request s.(ss_defaultRetention) organizerID req) ;;
  id <- new_uuid ;;
  series <- SeriesStore_Create (make id) ;;
  ignore_err (generateInitialOccurrences series req.(cs_StartDate)) ;;;
  ret series.

(** The loop of [GenerateOccurrences] with [n] turns left. *)
Fixpoint generate_loop (n : nat) (es : EventSeries) (lastDate : time) (totalGenerated originalDay : Z)
    : M () :=
  match n with
  | O => ret ()
  | S n =>
      let nextDate := calculateNextOccurrence lastDate es.(es_RecurrenceRule) originalDay in
      if reached_max es totalGenerated || past_end es nextDate then ret () else
      create_occurrence "create occurrence" es nextDate (totalGenerated + 1) ;;;
      generate_loop n es nextDate (totalGenerated + 1) originalDay
  end.
(** The date the window goes on from. *)
Definition last_date (existing : list Event) (seriesID : string) : M time :=
  match last existing with
  | Some e => ret e.(ev_EventDate)
  | None =>
      all <- FindBySeriesID seriesID ;;
      match last all with Some e => ret e.(ev_EventDate) | None => now end
  end.
Definition GenerateOccurrences (seriesID : string) : M () :=
  o <- SeriesStore_FindByID seriesID ;;
  match o with
  | None => ret ()
  | Some series =>
      if negb (bool_decide (series.(es_SeriesStatus) = "active")) then ret () else
      existing <- FindFutureBySeriesID seriesID ;;
      let needed := 4 - Z.of_nat (length existing) in
      if needed <=? 0 then ret () else
      lastDate <- last_date existing seriesID ;;
      totalGenerated <- CountBySeriesID seriesID ;;
      generate_loop (Z.to_nat needed) series lastDate totalGenerated (day_of lastDate)
  end.

Definition GenerateOccurrencesForAll : M () :=
  active <- FindAllActive ;;
  forM active (fun series => ignore_err (GenerateOccurrences series.(es_ID))).

(** The series of its owner. *)
Definition load_series (seriesID organizerID : string) : M EventSeries :=
  o <- SeriesStore_FindByID seriesID ;;
  series <- of_option ErrSeriesNotFound o ;;
  require (bool_decide (series.(es_OrganizerID) = organizerID)) ErrSeriesForbidden ;;;
  ret series.

Definition updateFutureOccurrences (es : EventSeries) : M () :=
  future <- FindFutureBySeriesID es.(es_ID) ;;
  forM future (fun ev =>
    if ev.(ev_SeriesOverride) then ret () else ignore_err (Store_Update (from_template es ev))).

Definition UpdateSeries (seriesID organizerID : string) (req : UpdateSeriesRequest) : M EventSeries :=
  series <- load_series seriesID organizerID ;;
  series <- of_res (apply_series_update series req) ;;
  series <- SeriesStore_Update series ;;
  ignore_err (updateFutureOccurrences series) ;;;
  ret series.

(** What [StopSeries] does to one future occurrence. *)
Definition stop_occurrence (organizerID : string) (ev : Event) : M () :=
  if ev.(ev_SeriesOverride) then ret ()
  else if bool_decide (ev.(ev_Status) = "published")
  then ignore_err (Cancel s.(ss_eventService) ev.(ev_ID) organizerID true)
  else ignore_err (Store_Update (with_status "cancelled" ev)).
Definition StopSeries (seriesID organizerID : string) : M EventSeries :=
  series <- load_series seriesID organizerID ;;
  series <- SeriesStore_Update (series_status "stopped" series) ;;
  r <- attempt (FindFutureBySeriesID seriesID) ;;
  match r with
  | Err _ => ret series
  | Ok future => forM future (stop_occurrence series.(es_OrganizerID)) ;;; ret series
  end.

Definition GetSeriesWithOccurrences (seriesID organizerID : string) : M (EventSeries * list Event) :=
  series <- load_series seriesID organizerID ;;
  occurrences <- FindBySeriesID seriesID ;;
  ret (series, occurrences).

Definition Series_ListByOrganizer (organizerID : string) : M (list EventSeries) :=
  SeriesStore_FindByOrganizerID organizerID.

Definition DeleteSeries (seriesID organizerID : string) : M () :=
  load_series seriesID organizerID ;;;
  SeriesStore_Delete seriesID.
End service.

(** ** series_handler.go *)

Inductive SeriesPayload :=
| PSeries (es : EventSeries)
| PSeriesList (l : list EventSeries)
| PSeriesWith (es : EventSeries) (occurrences : list Event)
| PSeriesMessage (message : string).

Section handler.
Context `{E : Env} (s : SeriesService).

Abbreviation Answer := (M (Resp SeriesPayload)).

Definition series_internal : Resp SeriesPayload :=
  json_error 500 "internal_error" "an internal error occurred".
Definition series_user (organizer : option string) (k : string -> Answer) : Answer :=
  match organizer with
  | None => ret (json_error 401 "unauthorized" "authentication required")
  | Some id => k id
  end.
Definition series_body {B} (body : option B) (k : B -> Answer) : Answer :=
  match body with None => ret (json_error 400 "bad_request" "invalid JSON body") | Some b => k b end.

(** The reply to an error; [validation] says whether the handler shows the
    message of a validation error. *)
Definition series_error (validation : bool) (e : err) : Resp SeriesPayload :=
  match e with
  | ErrSeriesNotFound => json_error 404 "not_found" "series not found"
  | ErrSeriesForbidden => json_error 403 "forbidden" "forbidden: you do not own this series"
  | EValidation message =>
      if validation then json_error 400 "bad_request" message else series_internal
  | _ => series_internal
  end.
Definition series_answer {A} (m : M A) (on_error : err -> Resp SeriesPayload)
    (k : A -> Resp SeriesPayload) : Answer :=
  r <- attempt m ;;
  ret match r with Ok a => k a | Err e => on_error e end.

Definition handleCreateSeries (organizer : option string) (body : option CreateSeriesRequest)
    : Answer :=
  series_user organizer (fun organizerID =>
  series_body body (fun req =>
  series_answer (CreateSeries s organizerID req)
    (fun e => match e with
              | EValidation message => json_error 400 "bad_request" message
              | _ => series_internal
              end)
    (fun es => json 201 (PSeries es)))).
Definition handleListSeries (organizer : option string) : Answer :=
  series_user organizer (fun organizerID =>
  series_answer (Series_ListByOrganizer organizerID) (fun _ => series_internal)
    (fun l => json 200 (PSeriesList l))).
Definition handleGetSeries (organizer : option string) (seriesID : string) : Answer :=
  series_user organizer (fun organizerID =>
  series_answer (GetSeriesWithOccurrences seriesID organizerID) (series_error false)
    (fun x => json 200 (PSeriesWith x.1 x.2))).
Definition handleUpdateSeries (organizer : option string) (seriesID : string)
    (body : option UpdateSeriesRequest) : Answer :=
  series_user organizer (fun organizerID =>
  series_body body (fun req =>
  series_answer (UpdateSeries seriesID organizerID req) (series_error true)
    (fun es => json 200 (PSeries es)))).
Definition handleStopSeries (organizer : option string) (seriesID : string) : Answer :=
  series_user organizer (fun organizerID =>
  series_answer (StopSeries s seriesID organizerID) (series_error true)
    (fun es => json 200 (PSeries es))).
Definition handleDeleteSeries (organizer : option string) (seriesID : string) : Answer :=
  series_user organizer (fun organizerID =>
  series_answer (DeleteSeries seriesID organizerID) (series_error false)
    (fun _ => json 200 (PSeriesMessage "series deleted"))).
End handler.
