(* ===== verification/Instance.v ===== *)
(** * The instance's configuration and its bootstrap (internal/instanceconfig)

    The singleton row of [instances], the one-time transaction that completes the
    setup and creates the first administrator, and the handlers.  SHA-256 is a
    parameter; comparing two digests in constant time is comparing them. *)

From S2P Require Import Prelude.
From S2P Require Import GoStr.
From S2P Require Import GoTime.
From S2P Require Import Schema.
From S2P Require Import Eff.
From S2P Require Import Http.
From S2P Require Import Auth.

Local Open Scope Z_scope.

(** ** model.go *)

Definition KeyInstanceName : string := "instance_name".
Definition KeyDefaultTimezone : string := "default_timezone".
Definition KeyAllowSignups : string := "allow_signups".
Definition KeySupportEmail : string := "support_email".
Definition KeyConfigured : string := "configured".

Record Settings := MkSettings {
  set_InstanceName : string; set_DefaultTimezone : string; set_AllowSignups : bool;
  set_SupportEmail : string; set_Configured : bool }.
Record PublicConfig := MkPublicConfig {
  pc_InstanceName : string; pc_DefaultTimezone : string; pc_AllowSignups : bool;
  pc_SupportEmail : string }.
Record Instance := MkInstance {
  ins_ID : string; ins_Name : string; ins_DefaultTimezone : string; ins_AllowSignups : bool;
  ins_SupportEmail : string; ins_SetupCompletedAt : option time; ins_CreatedAt : time;
  ins_UpdatedAt : time }.
Record BootstrapRequest := MkBootstrap {
  bs_Token : string; bs_AdminEmail : string; bs_AdminName : string; bs_InstanceName : string;
  bs_DefaultTimezone : string; bs_AllowSignups : bool; bs_SupportEmail : string }.
Record BootstrapResult := MkBootstrapResult { br_SessionToken : string; br_User : User }.

(** ** store.go *)

Definition singletonInstanceID : string := "default".

Definition instance_of_row (r : InstanceRow) : res Instance :=
  created <-r parse_time "parse instance created_at" r.(in_created_at) ;;
  updated <-r parse_time "parse instance updated_at" r.(in_updated_at) ;;
  setup <-r parse_time_opt "parse setup_completed_at" r.(in_setup_completed_at) ;;
  Ok (MkInstance singletonInstanceID r.(in_name) r.(in_timezone) r.(in_allow_signups)
        r.(in_support_email) setup created updated).
Definition scanInstance (row : option InstanceRow) : res Instance :=
  match row with None => Err (EInternal "scan instance") | Some r => instance_of_row r end.

Definition settings_row (name timezone : string) (allowSignups : bool) (support now : string)
    (r : InstanceRow) : InstanceRow :=
  {| in_name := name; in_timezone := timezone; in_allow_signups := allowSignups;
     in_support_email := support; in_setup_completed_at := r.(in_setup_completed_at);
     in_created_at := r.(in_created_at); in_updated_at := now |}.
Definition claim_row (req : BootstrapRequest) (now : string) (r : InstanceRow) : InstanceRow :=
  {| in_name := req.(bs_InstanceName); in_timezone := req.(bs_DefaultTimezone);
     in_allow_signups := req.(bs_AllowSignups); in_support_email := req.(bs_SupportEmail);
     in_setup_completed_at := Some now; in_created_at := r.(in_created_at);
     in_updated_at := now |}.

(** [EXISTS (SELECT 1 FROM users WHERE instance_role = 'admin' AND status = 'active')] *)
Definition has_active_admin (d : Database) : bool :=
  existsb (fun x => bool_decide (x.2.(u_role) = "admin") && bool_decide (x.2.(u_status) = "active"))
    (map_to_list d.(users)).

(** [boolToString] *)
Definition boolToString (b : bool) : string := if b then "true" else "false".

Section store.
Context `{E : Env}.

Definition GetInstance : M Instance :=
  row <- query "scan instance" (fun d => d.(instances) !! singletonInstanceID) ;;
  of_res (scanInstance row).

Definition GetAll : M (gmap string string) :=
  instance <- GetInstance ;;
  ret {[ KeyInstanceName := instance.(ins_Name);
         KeyDefaultTimezone := instance.(ins_DefaultTimezone);
         KeyAllowSignups := boolToString instance.(ins_AllowSignups);
         KeySupportEmail := instance.(ins_SupportEmail);
         KeyConfigured := boolToString (negb (bool_decide (instance.(ins_SetupCompletedAt) = None))) ]}.

Definition IsConfigured : M bool :=
  instance <- GetInstance ;;
  ret (negb (bool_decide (instance.(ins_SetupCompletedAt) = None))).

Definition UpdateSettings (inp : Settings) : M () :=
  t <- now ;;
  exec "update instance settings" (fun d => Some (set_instances (fun t0 =>
    (update_id singletonInstanceID (fun _ => true)
       (settings_row inp.(set_InstanceName) inp.(set_DefaultTimezone) inp.(set_AllowSignups)
          inp.(set_SupportEmail) (format_rfc3339 t)) t0).1) d)).

Definition ClaimBootstrapTx (inp : BootstrapRequest) (at_ : time) : M bool :=
  n <- stmt "claim bootstrap" (fun d =>
         let '(t, n) := update_id singletonInstanceID
           (fun r => is_null r.(in_setup_completed_at) && negb (has_active_admin d))
           (claim_row inp (format_rfc3339 at_)) d.(instances) in
         Some (n, set_instances (fun _ => t) d)) ;;
  ret (n =? 1).

Definition InsertAuditTx (actorUserID : option string) (actorKind action : string)
    (targetUserID eventID : option string) (metadata : list (string * string)) (at_ : time) : M () :=
  id <- new_uuid ;;
  exec "insert admin audit"
    (insert_audit id {| al_actor := actorUserID; al_actor_kind := actorKind; al_action := action;
       al_target := targetUserID; al_event := eventID; al_metadata := json_object metadata;
       al_created_at := format_rfc3339 at_ |}).

(** ** service.go *)

Definition GetSettings : M Settings :=
  i <- GetInstance ;;
  ret (MkSettings i.(ins_Name) i.(ins_DefaultTimezone) i.(ins_AllowSignups) i.(ins_SupportEmail)
         (negb (bool_decide (i.(ins_SetupCompletedAt) = None)))).
Definition SaveSettings (inp : Settings) : M () := UpdateSettings inp.
Definition GetPublicConfig : M PublicConfig :=
  i <- GetInstance ;;
  ret (MkPublicConfig i.(ins_Name) i.(ins_DefaultTimezone) i.(ins_AllowSignups)
         i.(ins_SupportEmail)).

(** ** bootstrap.go *)

Context (cfg : Config).

Definition constantTimeTokenEqual (provided expected : string) : bool :=
  bool_decide (sha256 provided = sha256 expected).

(** [newToken]: the raw token and its digest. *)
Definition newToken : M (string * string) :=
  raw <- read_random 32 ;;
  bytes <- of_option (EInternal "generate bootstrap session") raw ;;
  ret (hex_encode bytes, hex_encode (sha256 (hex_encode bytes))).

(** The administrator: the user of this address promoted, or a new one. *)
Definition bootstrap_admin (inp : BootstrapRequest) (now_ : time) : M User :=
  let email := to_lower (trim_space inp.(bs_AdminEmail)) in
  o <- FindOrganizerByEmail email ;;
  u <- match o with
       | None => createUser email inp.(bs_AdminName) inp.(bs_DefaultTimezone) InstanceRoleAdmin
                   UserStatusActive None
       | Some u => PromoteBootstrapAdminTx u.(user_ID) inp.(bs_AdminName)
                     inp.(bs_DefaultTimezone) now_
       end ;;
  of_option (EInternal "nil pointer dereference") u.

Definition bootstrap_tx (inp : BootstrapRequest) : M BootstrapResult :=
  t <- now ;;
  claimed <- ClaimBootstrapTx inp t ;;
  require claimed ErrSetupComplete ;;;
  user <- bootstrap_admin inp t ;;
  token <- newToken ;;
  createSession token.2 user.(user_ID) (t + cfg.(SessionExpiry)) ;;;
  TouchLastLoginTx user.(user_ID) t ;;;
  InsertAuditTx (Some user.(user_ID)) "user" "bootstrap_completed" (Some user.(user_ID)) None
    [("instanceRole", InstanceRoleAdmin)] t ;;;
  ret (MkBootstrapResult token.1 (with_last_login user t)).

Definition Bootstrap (inp : BootstrapRequest) : M BootstrapResult :=
  require (constantTimeTokenEqual inp.(bs_Token) cfg.(BootstrapToken)
           && negb (bool_decide (cfg.(BootstrapToken) = ""))) ErrBootstrapUnauthorized ;;;
  with_tx "begin bootstrap" "commit bootstrap" (bootstrap_tx inp).

(** ** handler.go *)

Inductive SetupPayload :=
| PSetupStatus (configured setupRequired : bool)
| PBootstrapped (user : User)
| PSettings (s : Settings).

Abbreviation Answer := (M (Resp SetupPayload)).

Definition trimBootstrapRequest (req : BootstrapRequest) : BootstrapRequest :=
  {| bs_Token := req.(bs_Token); bs_AdminEmail := to_lower (trim_space req.(bs_AdminEmail));
     bs_AdminName := trim_space req.(bs_AdminName);
     bs_InstanceName := trim_space req.(bs_InstanceName);
     bs_DefaultTimezone := trim_space req.(bs_DefaultTimezone);
     bs_AllowSignups := req.(bs_AllowSignups); bs_SupportEmail := trim_space req.(bs_SupportEmail) |}.

Definition own_address (s : string) : bool := bool_decide (mail_address s = Some s).
(** Empty or longer than [limit]. *)
Definition bad_text (s : string) (limit : Z) : bool := bool_decide (s = "") || (limit <? len s).

Definition validateBootstrapRequest (req : BootstrapRequest) : string :=
  if bool_decide (req.(bs_Token) = "") then "bootstrapToken is required" else
  if negb (own_address req.(bs_AdminEmail)) || (320 <? len req.(bs_AdminEmail))
  then "adminEmail must be a valid email address" else
  if bad_text req.(bs_AdminName) 200
  then "adminName is required and must be 200 characters or fewer" else
  if bad_text req.(bs_InstanceName) 200
  then "instanceName is required and must be 200 characters or fewer" else
  if bad_text req.(bs_DefaultTimezone) 100
  then "defaultTimezone is required and must be 100 characters or fewer" else
  if 320 <? len req.(bs_SupportEmail) then "supportEmail must be 320 characters or fewer" else
  if negb (bool_decide (req.(bs_SupportEmail) = "")) && negb (own_address req.(bs_SupportEmail))
  then "supportEmail must be a valid email address" else "".

Definition setup_answer {A} (m : M A) (k : A -> Answer) : Answer :=
  r <- attempt m ;;
  match r with Ok a => k a | Err _ => internal_error end.

Definition handleStatus : Answer :=
  setup_answer IsConfigured (fun configured => ret (json 200 (PSetupStatus configured (negb configured)))).

Definition setup_not_found : Resp SetupPayload := json_error 404 "not_found" "not found".
Definition session_cookie (token : string) : Cookie :=
  MkCookie "session" token "/" true (negb cfg.(IsDevelopment)) "Lax"
    (Z.quot cfg.(SessionExpiry) ns_per_sec).
Definition cleared_csrf_cookie : Cookie :=
  MkCookie "csrf_token" "" "/" false (negb cfg.(IsDevelopment)) "Strict" (-1).

Definition handleBootstrap (body : option BootstrapRequest) : Answer :=
  setup_answer IsConfigured (fun configured =>
  if configured then ret setup_not_found else
  match body with
  | None => ret (json_error 400 "bad_request" "invalid JSON body")
  | Some req =>
      let req := trimBootstrapRequest req in
      let message := validateBootstrapRequest req in
      if negb (bool_decide (message = "")) then ret (json_error 400 "bad_request" message) else
      r <- attempt (Bootstrap req) ;;
      match r with
      | Err ErrBootstrapUnauthorized =>
          ret (json_error 401 "bootstrap_unauthorized" "bootstrap authorization failed")
      | Err ErrSetupComplete => ret setup_not_found
      | Err _ => internal_error
      | Ok result =>
          ret (MkResp 201 (JData (PBootstrapped result.(br_User)))
                 [session_cookie result.(br_SessionToken); cleared_csrf_cookie])
      end
  end).

Definition handleGetConfig : Answer :=
  setup_answer GetSettings (fun s => ret (json 200 (PSettings s))).

(** The checks of [handleSaveConfig] on the trimmed request. *)
Definition save_config_error (s : Settings) : string :=
  if bool_decide (s.(set_InstanceName) = "") then "instanceName is required" else
  if 200 <? len s.(set_InstanceName) then "instanceName must be 200 characters or fewer" else
  if bool_decide (s.(set_DefaultTimezone) = "") then "defaultTimezone is required" else
  if 100 <? len s.(set_DefaultTimezone) then "defaultTimezone must be 100 characters or fewer" else
  if 320 <? len s.(set_SupportEmail) then "supportEmail must be 320 characters or fewer" else "".
Definition handleSaveConfig (body : option Settings) : Answer :=
  match body with
  | None => ret (json_error 400 "bad_request" "invalid JSON body")
  | Some req =>
      let s := MkSettings (trim_space req.(set_InstanceName)) (trim_space req.(set_DefaultTimezone))
                 req.(set_AllowSignups) (trim_space req.(set_SupportEmail)) false in
      let message := save_config_error s in
      if negb (bool_decide (message = "")) then ret (json_error 400 "bad_request" message) else
      setup_answer (SaveSettings s) (fun _ =>
      setup_answer IsConfigured (fun configured =>
      ret (json 200 (PSettings (MkSettings s.(set_InstanceName) s.(set_DefaultTimezone)
             s.(set_AllowSignups) s.(set_SupportEmail) configured)))))
  end.
End store.
