(* ===== verification/EventAdmin.v ===== *)
(** * Recovery by administrators (internal/eventadmin, internal/admincli)

    An active administrator joins an event as a cohost, or hands an event to
    another active user.  The handlers stand behind [RequireAuth] and
    [RequireAdmin]; [actor] is the user of the context.  Moving the ownership is
    two statements over the partial unique index that allows one owner an
    event: first the demotion, then the promotion.  And the command of the host that
    makes an existing user an active administrator. *)

From S2P Require Import Prelude.
From S2P Require Import GoStr.
From S2P Require Import GoTime.
From S2P Require Import Schema.
From S2P Require Import Eff.
From S2P Require Import Http.
From S2P Require Import Auth.
From S2P Require Import UserAdmin.
From S2P Require Import Instance.

Local Open Scope Z_scope.

(** ** Memberships *)

Definition member_of (eventID userID : string) (m : MembershipRow) : bool :=
  bool_decide (m.(em_event_id) = eventID) && bool_decide (m.(em_user_id) = userID).
Definition owner_of (eventID : string) (m : MembershipRow) : bool :=
  bool_decide (m.(em_event_id) = eventID) && bool_decide (m.(em_role) = "owner").

(** [SET role = ?, granted_by_user_id = ?, updated_at = ?] *)
Definition regrant_row (role grantedBy now : string) (m : MembershipRow) : MembershipRow :=
  {| em_event_id := m.(em_event_id); em_user_id := m.(em_user_id); em_role := role;
     em_granted_by := grantedBy; em_created_at := m.(em_created_at); em_updated_at := now |}.

(** The index [event_memberships(event_id) WHERE role = 'owner']. *)
Definition one_owner_index (t : gmap string MembershipRow) : bool :=
  forallb (fun kr => negb (bool_decide (kr.2.(em_role) = "owner"))
                     || (count (fun _ => owner_of kr.2.(em_event_id)) t =? 1)) (map_to_list t).

(** [UPDATE event_memberships ... WHERE ...] and its number of rows. *)
Definition update_members (P : MembershipRow -> bool) (role grantedBy now : string) (d : Database)
    : option (Z * Database) :=
  let n := count (fun _ => P) d.(event_memberships) in
  let t := update_where (fun _ => P) (regrant_row role grantedBy now) d.(event_memberships) in
  if ((n =? 0) || has grantedBy d.(users)) && one_owner_index t
  then Some (n, set_event_memberships (fun _ => t) d) else None.

Section service.
Context `{E : Env}.

(** ** service.go *)

(** [s.db.BeginTx] is the transaction around it. *)
Definition authorize (actor : User) (eventID : string) : M (User * time) :=
  found <- query "lock event" (fun d => has eventID d.(events)) ;;
  require found ErrEventNotFound ;;;
  o <- findOrganizerByID actor.(user_ID) ;;
  match o with
  | Some persisted =>
      require (is_active_admin persisted) ErrForbidden ;;;
      t <- now ;;
      ret (persisted, t)
  | None => fail ErrForbidden
  end.
Definition beginAuthorized (actor : option User) (eventID commit : string) (k : User -> time -> M ())
    : M () :=
  match actor with
  | None => fail ErrForbidden
  | Some a =>
      with_tx "begin event administration" commit
        (p <- authorize a eventID ;; k p.1 p.2)
  end.

Definition membership_role (eventID userID : string) : M (option string) :=
  query "find administrator event membership" (fun d =>
    em_role ∘ snd <$> select_row (fun _ => member_of eventID userID) d.(event_memberships)).

Definition join_event (eventID : string) (admin : User) (t : time) : M () :=
  o <- membership_role eventID admin.(user_ID) ;;
  match o with
  | Some _ => ret ()
  | None =>
      id <- new_uuid ;;
      exec "add administrator event membership"
        (insert_membership id
           (membership_row eventID admin.(user_ID) "cohost" admin.(user_ID) (format_rfc3339 t))) ;;;
      Instance.InsertAuditTx (Some admin.(user_ID)) "user" "administrator_joined_event"
        (Some admin.(user_ID)) (Some eventID) [("role", "cohost")] t
  end.
Definition AddSelf (actor : option User) (eventID : string) : M () :=
  beginAuthorized actor eventID "commit administrator event membership" (join_event eventID).

Definition current_owner (eventID : string) : M string :=
  o <- query "find current event owner" (fun d =>
         em_user_id ∘ snd <$> select_row (fun _ => owner_of eventID) d.(event_memberships)) ;;
  of_option ErrEventNotFound o.

Definition promote (eventID newOwner grantedBy nowText : string) : M () :=
  n <- stmt "promote event owner membership"
         (update_members (member_of eventID newOwner) "owner" grantedBy nowText) ;;
  if n =? 0 then
    id <- new_uuid ;;
    exec "create new owner membership"
      (insert_membership id (membership_row eventID newOwner "owner" grantedBy nowText))
  else ret ().

Definition move_ownership (eventID newOwnerID : string) (admin : User) (t : time) : M () :=
  o <- findOrganizerByID newOwnerID ;;
  match o with
  | None => fail ErrUserNotFound
  | Some newOwner =>
      require (is_active newOwner) ErrUserNotFound ;;;
      old <- current_owner eventID ;;
      if bool_decide (old = newOwnerID) then ret () else
      let nowText := format_rfc3339 t in
      stmt "demote previous event owner"
        (update_members (fun m => member_of eventID old m && owner_of eventID m)
           "cohost" admin.(user_ID) nowText) ;;;
      promote eventID newOwnerID admin.(user_ID) nowText ;;;
      Instance.InsertAuditTx (Some admin.(user_ID)) "user" "event_ownership_transferred"
        (Some newOwnerID) (Some eventID) [("fromUserId", old); ("toUserId", newOwnerID)] t
  end.
Definition TransferOwnership (actor : option User) (eventID newOwnerUserID : string) : M () :=
  beginAuthorized actor eventID "commit event ownership transfer"
    (move_ownership eventID newOwnerUserID).

(** ** handler.go *)

(** [writeServiceError]: the bodies hold the code alone. *)
Definition service_reply {A} (m : M A) : M (Resp AdminPayload) :=
  r <- attempt m ;;
  ret match r with
      | Ok _ => no_content
      | Err ErrEventNotFound => MkResp 404 (JErrorOnly "event_not_found") []
      | Err ErrUserNotFound => MkResp 400 (JErrorOnly "eligible_user_not_found") []
      | Err ErrForbidden => MkResp 403 (JErrorOnly "forbidden") []
      | Err _ => MkResp 500 (JErrorOnly "internal_error") []
      end.

Definition handleAddSelf (actor : option User) (eventID : string) : M (Resp AdminPayload) :=
  service_reply (AddSelf actor eventID).
(** [body] is [req.NewOwnerUserID], [None] when the JSON did not decode. *)
Definition handleTransfer (actor : option User) (eventID : string) (body : option string)
    : M (Resp AdminPayload) :=
  match body with
  | Some id =>
      if bool_decide (id = "") then ret (json_error 400 "bad_request" "newOwnerUserId is required")
      else service_reply (TransferOwnership actor eventID id)
  | None => ret (json_error 400 "bad_request" "newOwnerUserId is required")
  end.

(** ** admincli/service.go *)

(** The body of the transaction, for an address that is not empty.  The first
    statement only takes the lock of the row. *)
Definition promote_tx (email : string) : M User :=
  exec "lock emergency role recovery" (fun d => Some d) ;;;
  o <- FindOrganizerByEmail email ;;
  match o with
  | None => fail ErrUserNotFound
  | Some user =>
      t <- now ;;
      p <- PromoteBootstrapAdminTx user.(user_ID) user.(user_Name) user.(user_Timezone) t ;;
      promoted <- of_option (EInternal "nil pointer dereference") p ;;
      Instance.InsertAuditTx None "cli" "emergency_role_recovery" (Some promoted.(user_ID)) None
        [("fromRole", user.(user_InstanceRole)); ("fromStatus", user.(user_Status));
         ("toRole", InstanceRoleAdmin)] t ;;;
      ret promoted
  end.
Definition PromoteAdmin (email0 : string) : M User :=
  let email := to_lower (trim_space email0) in
  if bool_decide (email = "") then fail ErrUserNotFound
  else with_tx "begin emergency role recovery" "commit emergency role recovery" (promote_tx email).
End service.
