(* ===== verification/AccountSteps.v ===== *)
(** * How identities, memberships and events change

    [acc_step] lists the changes the statements of the packages [auth],
    [useradmin], [instanceconfig], [eventadmin] and [event] make to their tables, each with the
    condition its guards establish; creating an event and its owner is one step,
    since both happen in one transaction, and so is handing an event to a new owner.  Every operation of these packages is a
    sequence of such steps, however it ends and whatever the driver does, so the
    invariants of the accounts are proved by induction on the steps. *)

From S2P Require Import Prelude.
From S2P Require Import GoStr.
From S2P Require Import GoTime.
From S2P Require Import Schema.
From S2P Require Import Eff.
From S2P Require Import Http.
From S2P Require Import Respect.
From S2P Require Import Tables.
From S2P Require Import History.
From S2P Require Import Auth.
From S2P Require Import UserAdmin.
From S2P Require Import Event.
From S2P Require Import EventHandler.
From S2P Require Import Series.
From S2P Require Import Instance.
From S2P Require Import EventAdmin.
From S2P Require Import AccountDelete.

Local Open Scope Z_scope.

(** ** The steps *)

(** An update of a user keeps the identity and the CHECK constraints. *)
Definition same_identity (r r' : UserRow) : Prop :=
  r'.(u_email) = r.(u_email) /\ r'.(u_norm_email) = r.(u_norm_email) /\
  r'.(u_invited_by) = r.(u_invited_by) /\ (user_check r = true -> user_check r' = true).

(** An active administrator stays one, or there is another. *)
Definition admin_safe (d : Database) (id : string) (r r' : UserRow) : Prop :=
  active_admin r = true ->
  active_admin r' = true \/
  exists id' u, id' <> id /\ d.(users) !! id' = Some u /\ active_admin u = true.

(** Which events a request may change, and how: the id, the row before it (none for
    a new event) and the status after it.  A request that is given no change leaves
    every status alone. *)
Definition status_change : Type := string -> option EventRow -> string -> Prop.

Definition quiet (d d' : Database) : Prop :=
  accounts d' = accounts d /\ d'.(events) = d.(events).

Inductive acc_step (St : status_change) (d : Database) : Database -> Prop :=
| SQuiet d' : quiet d d' -> acc_step St d d'
| SUserAdd id r d' : insert_user id r d = Some d' -> acc_step St d d'
| SUser id r r' :
    d.(users) !! id = Some r -> same_identity r r' -> admin_safe d id r r' ->
    acc_step St d (set_users (fun _ => <[id := r']> d.(users)) d)
| SLinkUse id r now :
    d.(magic_links) !! id = Some r -> live_link now r = true ->
    acc_step St d (set_magic_links (fun _ => <[id := use_link_row now r]> d.(magic_links)) d)
| SLoginAdd id r d' : insert_user_session id r d = Some d' -> acc_step St d d'
| SLoginGone id : acc_step St d (set_sessions (delete id) d)
| SLoginsGone P : acc_step St d (set_sessions (delete_where P) d)
| SInviteAdd id r d' : insert_account_invite id r d = Some d' -> acc_step St d d'
| SInviteAccept id r now :
    d.(account_invites) !! id = Some r -> live_invite now r = true ->
    acc_step St d (set_account_invites (fun _ => <[id := accept_invite_row now r]> d.(account_invites)) d)
| SInviteRevoke id r now :
    d.(account_invites) !! id = Some r -> pending r = true ->
    acc_step St d (set_account_invites (fun _ => <[id := revoke_invite_row now r]> d.(account_invites)) d)
| SInvitesRevoke P now :
    (forall k r, P k r = true -> pending r = true) ->
    acc_step St d (set_account_invites (update_where P (revoke_invite_row now)) d)
| SMember id r d' :
    insert_membership id r d = Some d' -> r.(em_role) = "cohost" -> acc_step St d d'
| SMemberGone P :
    (forall k r, P k r = true -> r.(em_role) = "cohost") ->
    acc_step St d (set_event_memberships (delete_where P) d)
| SAudit id r d' : insert_audit id r d = Some d' -> acc_step St d d'
| SSettings id r r' :
    d.(instances) !! id = Some r -> r'.(in_setup_completed_at) = r.(in_setup_completed_at) ->
    acc_step St d (set_instances (fun _ => <[id := r']> d.(instances)) d)
| SClaim r r' :
    d.(instances) !! singletonInstanceID = Some r -> r.(in_setup_completed_at) = None ->
    r'.(in_setup_completed_at) <> None -> has_active_admin d = false ->
    acc_step St d (set_instances (fun _ => <[singletonInstanceID := r']> d.(instances)) d)
| SEventCreate id r mid m d1 d2 :
    insert_event id r d = Some d1 -> insert_membership mid m d1 = Some d2 ->
    m.(em_event_id) = id -> m.(em_role) = "owner" -> St id None r.(e_status) ->
    acc_step St d d2
| SEvent id r r' :
    d.(events) !! id = Some r -> r'.(e_status) = r.(e_status) \/ St id (Some r) r'.(e_status) ->
    valid_event_status r'.(e_status) = true -> has_opt r'.(e_series_id) d.(event_series) = true ->
    acc_step St d (set_events (fun _ => <[id := r']> d.(events)) d)
| SSeriesAdd id r d' : insert_series id r d = Some d' -> acc_step St d d'
| SSeries id r r' :
    d.(event_series) !! id = Some r -> r'.(sr_owner) = r.(sr_owner) -> series_check r' = true ->
    acc_step St d (set_event_series (fun _ => <[id := r']> d.(event_series)) d)
| SSeriesGone id : acc_step St d (delete_series id d)
| STransfer e P new g now n1 n2 d1 d2 :
    (forall m, P m = true -> m.(em_event_id) = e) ->
    update_members P "cohost" g now d = Some (n1, d1) ->
    update_members (member_of e new) "owner" g now d1 = Some (n2, d2) -> n2 <> 0 ->
    acc_step St d d2
| STransferNew e P g now n1 d1 id m d2 :
    (forall m, P m = true -> m.(em_event_id) = e) ->
    update_members P "cohost" g now d = Some (n1, d1) ->
    insert_membership id m d1 = Some d2 -> m.(em_event_id) = e -> m.(em_role) = "owner" ->
    acc_step St d d2.

Definition acc_steps (St : status_change) : Database -> Database -> Prop := rtc (acc_step St).
#[global] Instance acc_steps_preorder St : PreOrder (acc_steps St).
Proof. apply rtc_po. Qed.

(** Two requests do more: asking for a login link, which stores one, and deleting an
    account, of the users [Del]. *)
Inductive acc_move (Del : string -> Prop) (St : status_change) (d : Database) : Database -> Prop :=
| MStep d' : acc_step St d d' -> acc_move Del St d d'
| MLink id r d' : insert_magic_link id r d = Some d' -> acc_move Del St d d'
| MDelete u d' : Del u -> in_turn (delete_statements u) d = Some d' -> acc_move Del St d d'.
Definition acc_moves (Del : string -> Prop) (St : status_change) : Database -> Database -> Prop :=
  rtc (acc_move Del St).
#[global] Instance acc_moves_preorder Del St : PreOrder (acc_moves Del St).
Proof. apply rtc_po. Qed.

Lemma acc_once St d d' : acc_step St d d' -> acc_steps St d d'.
Proof. apply rtc_once. Qed.
Lemma acc_steps_moves Del St d d' : acc_steps St d d' -> acc_moves Del St d d'.
Proof. induction 1 as [|x y z Hs _ IH]; [done|]. etrans; [by apply rtc_once, MStep|done]. Qed.

(** A relation every step respects is respected by runs of steps. *)
Lemma rtc_rel (S R : Database -> Database -> Prop) `{!PreOrder R} :
  (forall d d', S d d' -> R d d') -> forall d d', rtc S d d' -> R d d'.
Proof. intros H d d'. induction 1 as [|x y z Hs _ IH]; [done|]. etrans; [by apply H|done]. Qed.

(** What more changes allow. *)
Lemma acc_step_mono (St St' : status_change) d d' :
  (forall id o b, St id o b -> St' id o b) -> acc_step St d d' -> acc_step St' d d'.
Proof.
  intros Hm. destruct 1; try (by econstructor; eauto).
  eapply SEvent; [done| |done|done]. intuition.
Qed.
Lemma acc_steps_mono (St St' : status_change) d d' :
  (forall id o b, St id o b -> St' id o b) -> acc_steps St d d' -> acc_steps St' d d'.
Proof.
  intros Hm. apply rtc_rel; [apply _|]. intros x y H. eapply acc_once, acc_step_mono; eauto.
Qed.

Lemma respects_weaken {A} (R R' : Database -> Database -> Prop) (m : M A) :
  (forall d d', R d d' -> R' d d') -> respects R m -> respects R' m.
Proof. intros H Hm w. apply H, Hm. Qed.
Lemma quiet_steps St d d' : quiet d d' -> acc_steps St d d'.
Proof. intros. by apply acc_once, SQuiet. Qed.
Lemma reads_steps {A} St (m : M A) : reads m -> respects (acc_steps St) m.
Proof. apply respects_weaken. by intros d d' ->. Qed.
Lemma respects_wp {A} R (m : M A) :
  (forall w, wp m (fun _ w' => R w.(w_db) w'.(w_db)) w) -> respects R m.
Proof. done. Qed.
Lemma wp_cases {A} (m : M A) Q w :
  (forall a w', m w = (Ok a, w') -> Q (Ok a) w') ->
  (forall e w', m w = (Err e, w') -> Q (Err e) w') -> wp m Q w.
Proof. intros Ho He. unfold wp. destruct (m w) as [[a|e] w'] eqn:E; simpl; auto. Qed.

Lemma reads_world {A} (m : M A) w r w' : reads m -> m w = (r, w') -> w'.(w_db) = w.(w_db).
Proof. intros H E. specialize (H w). rewrite E in H. exact H. Qed.

(** A run that starts by reading: the read failed, or the rest runs on the same data. *)
Lemma bind_reads {A B} (m : M A) (k : A -> M B) w r w' :
  reads m -> bind m k w = (r, w') ->
  (w'.(w_db) = w.(w_db) /\ exists e, r = Err e) \/
  exists a w1, m w = (Ok a, w1) /\ w1.(w_db) = w.(w_db) /\ k a w1 = (r, w').
Proof.
  intros Hm H. unfold bind in H. destruct (m w) as [[a|e] w1] eqn:E;
    pose proof (reads_world _ _ _ _ Hm E) as Hd; [|injection H as <- <-]; eauto 10.
Qed.

Lemma acc_moves_mono (Del Del' : string -> Prop) (St St' : status_change) d d' :
  (forall u, Del u -> Del' u) -> (forall id o b, St id o b -> St' id o b) ->
  acc_moves Del St d d' -> acc_moves Del' St' d d'.
Proof.
  intros Hd Hm. apply rtc_rel; [apply _|]. intros x y H. apply rtc_once. destruct H.
  - by eapply MStep, acc_step_mono.
  - by eapply MLink.
  - eapply MDelete; eauto.
Qed.

(** ** Statements *)

Lemma update_id_steps {R} St (set : (gmap string R -> gmap string R) -> Database -> Database)
    (get : Database -> gmap string R) id Q f d t n :
  (forall d, acc_steps St d (set (fun _ => get d) d)) ->
  (forall r, get d !! id = Some r -> Q r = true -> acc_steps St d (set (fun _ => <[id := f r]> (get d)) d)) ->
  update_id id Q f (get d) = (t, n) -> acc_steps St d (set (fun _ => t) d).
Proof.
  intros Hid Hs [(-> & r & Hr & HQ & ->)|(-> & -> & _)]%update_id_cases; auto.
Qed.
Lemma set_users_same St d : acc_steps St d (set_users (fun _ => d.(users)) d).
Proof. by apply quiet_steps. Qed.
Lemma set_links_same St d : acc_steps St d (set_magic_links (fun _ => d.(magic_links)) d).
Proof. by apply quiet_steps. Qed.
Lemma set_invites_same St d : acc_steps St d (set_account_invites (fun _ => d.(account_invites)) d).
Proof. by apply quiet_steps. Qed.
Lemma set_instances_same St d : acc_steps St d (set_instances (fun _ => d.(instances)) d).
Proof. by apply quiet_steps. Qed.

Section statements.
Context `{E : Env} (St : status_change).

Lemma update_user_steps ctx id Q f :
  (forall r, same_identity r (f r)) ->
  (forall r, Q r = true -> active_admin r = true -> active_admin (f r) = true) ->
  respects (acc_steps St) (update_user ctx id Q f).
Proof.
  intros Hi Ha. apply respects_stmt; [apply _|]. intros d n d' H.
  destruct (update_id id Q f (users d)) as [t k] eqn:Eu. injection H as <- <-.
  eapply (update_id_steps St set_users users); [apply set_users_same| |exact Eu].
  intros r Hr HQ. apply acc_once. eapply SUser; [done|apply Hi|]. intros Hadm. left. auto.
Qed.

Lemma profile_row_ok name tz now r :
  same_identity r (profile_row name tz now r) /\ active_admin (profile_row name tz now r) = active_admin r.
Proof. done. Qed.
Lemma login_row_ok now r :
  same_identity r (login_row now r) /\ active_admin (login_row now r) = active_admin r.
Proof. done. Qed.

Lemma UpdateOrganizer_steps u : respects (acc_steps St) (UpdateOrganizer u).
Proof. unfold UpdateOrganizer. respect; by apply update_user_steps. Qed.
Lemma TouchLastLogin_steps id t : respects (acc_steps St) (TouchLastLoginTx id t).
Proof. unfold TouchLastLoginTx. respect; by apply update_user_steps. Qed.
Lemma user_check_role role r : user_check r = true -> one_of role ["admin"; "user"] = true ->
  forall t, user_check (role_row role t r) = true.
Proof. unfold user_check. intros [_ ?]%andb_true_iff ? t. simpl. by apply andb_true_iff. Qed.
Lemma user_check_status status r : user_check r = true ->
  one_of status ["invited"; "active"; "disabled"] = true ->
  forall t, user_check (status_row status t r) = true.
Proof. unfold user_check. intros [? _]%andb_true_iff ? t. simpl. by apply andb_true_iff. Qed.
Lemma FindOrganizerByEmail_reads email : reads (FindOrganizerByEmail email).
Proof. unfold FindOrganizerByEmail. respect. Qed.
Lemma findOrganizerByID_reads id : reads (findOrganizerByID id).
Proof. unfold findOrganizerByID. respect. Qed.

Lemma PromoteBootstrapAdmin_steps id name tz t :
  respects (acc_steps St) (PromoteBootstrapAdminTx id name tz t).
Proof.
  unfold PromoteBootstrapAdminTx. respect; [|apply reads_steps, findOrganizerByID_reads].
  apply update_user_steps; [|done]. intros r. split_and!; try done.
Qed.
Lemma ActivateInvitedUser_steps id t : respects (acc_steps St) (ActivateInvitedUserTx id t).
Proof.
  unfold ActivateInvitedUserTx. respect; [|apply reads_steps, findOrganizerByID_reads].
  apply update_user_steps.
  - intros r. split_and!; try done. unfold user_check. simpl.
    intros [? _]%andb_true_iff. by apply andb_true_iff.
  - intros r _. unfold active_admin. rewrite !andb_true_iff. simpl. tauto.
Qed.
Lemma createUser_steps email name tz role status invitedBy :
  respects (acc_steps St) (createUser email name tz role status invitedBy).
Proof.
  unfold createUser. respect; [|apply reads_steps, findOrganizerByID_reads].
  intros H. by eapply acc_once, SUserAdd.
Qed.

Lemma CreateMagicLink_moves Del h u t : respects (acc_moves Del St) (CreateMagicLink h u t).
Proof. unfold CreateMagicLink. respect. intros H. by eapply rtc_once, MLink. Qed.
Lemma FindMagicLinkByHash_reads h : reads (FindMagicLinkByHash h).
Proof. unfold FindMagicLinkByHash. respect. Qed.
Lemma markMagicLinkUsed_steps id t : respects (acc_steps St) (markMagicLinkUsed id t).
Proof.
  unfold markMagicLinkUsed. respect. intros H.
  destruct (update_id id _ _ (magic_links d)) as [t' k] eqn:Eu. injection H as <- <-.
  eapply (update_id_steps St set_magic_links magic_links); [apply set_links_same| |exact Eu].
  intros r Hr Hl. by eapply acc_once, SLinkUse.
Qed.
Lemma createSession_steps h u t : respects (acc_steps St) (createSession h u t).
Proof. unfold createSession. respect. intros H. by eapply acc_once, SLoginAdd. Qed.
Lemma FindSessionByHash_reads h : reads (FindSessionByHash h).
Proof. unfold FindSessionByHash. respect. Qed.
Lemma DeleteSession_steps id : respects (acc_steps St) (DeleteSession id).
Proof. unfold DeleteSession. respect. intros [= <-]. apply acc_once, SLoginGone. Qed.
Lemma DeleteExpiredSessions_steps : respects (acc_steps St) DeleteExpiredSessions.
Proof. unfold DeleteExpiredSessions. respect. intros [= <-]. apply acc_once, SLoginsGone. Qed.

Lemma CreateInvite_steps u a h e r t1 t2 : respects (acc_steps St) (CreateInviteTx u a h e r t1 t2).
Proof. unfold CreateInviteTx. respect. intros H. by eapply acc_once, SInviteAdd. Qed.
Lemma RevokePending_steps u t : respects (acc_steps St) (RevokePendingInvitesTx u t).
Proof.
  unfold RevokePendingInvitesTx. respect. intros [= <-]. apply acc_once, SInvitesRevoke.
  by intros k r [_ ?]%andb_true_iff.
Qed.
Lemma update_invite_steps ctx id Q f :
  (forall d r, d.(account_invites) !! id = Some r -> Q r = true ->
     acc_steps St d (set_account_invites (fun _ => <[id := f r]> d.(account_invites)) d)) ->
  respects (acc_steps St) (update_invite ctx id Q f).
Proof.
  intros Hs. apply respects_stmt; [apply _|]. intros d n d' H.
  destruct (update_id id Q f (account_invites d)) as [t k] eqn:Eu. injection H as <- <-.
  eapply (update_id_steps St set_account_invites account_invites); [apply set_invites_same| |exact Eu].
  eauto.
Qed.
Lemma RevokeInviteByID_steps id t : respects (acc_steps St) (RevokeInviteByIDTx id t).
Proof.
  unfold RevokeInviteByIDTx. respect. apply update_invite_steps. intros d r Hr HQ.
  by eapply acc_once, SInviteRevoke.
Qed.
Lemma ConsumeInvite_steps id t : respects (acc_steps St) (ConsumeInviteTx id t).
Proof.
  unfold ConsumeInviteTx. respect. apply update_invite_steps. intros d r Hr HQ.
  by eapply acc_once, SInviteAccept.
Qed.
Lemma CreateCohost_steps e u g t : respects (acc_steps St) (CreateCohostMembershipTx e u g t).
Proof. unfold CreateCohostMembershipTx. respect. intros H. by eapply acc_once, SMember. Qed.
Lemma InsertAudit_steps a b c m t : respects (acc_steps St) (UserAdmin.InsertAuditTx a b c m t).
Proof. unfold UserAdmin.InsertAuditTx. respect. intros H. by eapply acc_once, SAudit. Qed.
Lemma LockEvent_reads e : reads (LockEventTx e).
Proof. unfold LockEventTx. respect. Qed.
Lemma generateToken_reads c : reads (generateToken c).
Proof. unfold generateToken. respect. Qed.
Lemma FindLiveInvite_reads h t : reads (FindLiveInviteByHashTx h t).
Proof. unfold FindLiveInviteByHashTx. respect. Qed.
Lemma IsEventOwner_tx_reads e u : reads (IsEventOwnerTx e u).
Proof. unfold IsEventOwnerTx. respect. Qed.
Lemma CountCohost_reads e t : reads (CountCohostCommitmentsTx e t).
Proof. unfold CountCohostCommitmentsTx. respect. Qed.
Lemma HasMembership_reads e u : reads (HasEventMembershipTx e u).
Proof. unfold HasEventMembershipTx. respect. Qed.
Lemma persisted_actor_reads id P : reads (persisted_actor id P).
Proof. unfold persisted_actor. respect. apply findOrganizerByID_reads. Qed.
Lemma CountActiveAdmins_reads : reads CountActiveAdminsTx.
Proof. unfold CountActiveAdminsTx. respect. Qed.
Lemma LockAdmin_reads : reads LockAdminMutationTx.
Proof. unfold LockAdminMutationTx. respect. Qed.

Lemma UpdateSettings_steps s : respects (acc_steps St) (UpdateSettings s).
Proof.
  unfold UpdateSettings. respect. intros [= <-].
  set (f := settings_row _ _ _ _ _). set (Q := fun _ : InstanceRow => true).
  change (acc_steps St d (set_instances
    (fun _ => (update_id singletonInstanceID Q f d.(instances)).1) d)).
  destruct (update_id _ Q f _) as [t' k] eqn:Eu. simpl.
  eapply (update_id_steps St set_instances instances); [apply set_instances_same| |exact Eu].
  intros r Hr _. by eapply acc_once, SSettings.
Qed.
Lemma ClaimBootstrap_steps req t : respects (acc_steps St) (ClaimBootstrapTx req t).
Proof.
  unfold ClaimBootstrapTx. respect. intros H.
  destruct (update_id _ _ _ (instances d)) as [t' k] eqn:Eu. injection H as <- <-.
  eapply (update_id_steps St set_instances instances); [apply set_instances_same| |exact Eu].
  intros r Hr [Hn%bool_decide_eq_true Ha%negb_true_iff]%andb_true_iff. by eapply acc_once, SClaim.
Qed.
Lemma Instance_InsertAudit_steps a k b c e m t :
  respects (acc_steps St) (Instance.InsertAuditTx a k b c e m t).
Proof. unfold Instance.InsertAuditTx. respect. intros H. by eapply acc_once, SAudit. Qed.
End statements.
#[export] Hint Resolve UpdateOrganizer_steps TouchLastLogin_steps PromoteBootstrapAdmin_steps
  ActivateInvitedUser_steps createUser_steps CreateMagicLink_moves markMagicLinkUsed_steps
  createSession_steps DeleteSession_steps DeleteExpiredSessions_steps CreateInvite_steps
  RevokePending_steps RevokeInviteByID_steps ConsumeInvite_steps CreateCohost_steps
  InsertAudit_steps UpdateSettings_steps ClaimBootstrap_steps Instance_InsertAudit_steps : respects.
#[export] Hint Resolve FindOrganizerByEmail_reads findOrganizerByID_reads FindMagicLinkByHash_reads
  FindSessionByHash_reads LockEvent_reads generateToken_reads FindLiveInvite_reads
  IsEventOwner_tx_reads CountCohost_reads HasMembership_reads persisted_actor_reads
  CountActiveAdmins_reads LockAdmin_reads : respects.
#[export] Hint Extern 3 (respects (acc_steps _) _) => apply reads_steps : respects.
#[export] Hint Extern 4 (respects (acc_moves _ _) _) => eapply respects_weaken; [apply acc_steps_moves|] : respects.
