(* ===== verification/EventSteps.v ===== *)
(** * The operations of events and series as steps

    What loading an event returns about the database, and every operation of the
    event and series services as a sequence of [acc_step]s.  The callbacks are
    assumed to leave identities, memberships and events alone. *)

From S2P Require Import Prelude.
From S2P Require Import GoStr.
From S2P Require Import GoTime.
From S2P Require Import Schema.
From S2P Require Import Eff.
From S2P Require Import Http.
From S2P Require Import Respect.
From S2P Require Import Tables.
From S2P Require Import History.
From S2P Require Import Auth.
From S2P Require Import UserAdmin.
From S2P Require Import Event.
From S2P Require Import EventHandler.
From S2P Require Import Series.
From S2P Require Import Instance.
From S2P Require Import AccountSteps.

Local Open Scope Z_scope.

(** What a stored event keeps of its row. *)
Definition event_of (r : EventRow) (e : Event) : Prop :=
  e.(ev_Status) = r.(e_status) /\ e.(ev_SeriesID) = r.(e_series_id).

Lemma parseEventTimes_ok id o r e :
  parseEventTimes id o r = Ok e ->
  e.(ev_ID) = id /\ e.(ev_OrganizerID) = o /\ event_of r e.
Proof.
  unfold parseEventTimes. intros H.
  repeat (apply res_bind_ok in H as (? & _ & H)). by injection H as <-.
Qed.
Lemma scan_event_as_ok ctx x e :
  scan_event_as ctx x = Ok e ->
  e.(ev_ID) = x.1.1 /\ x.1.2 = Some e.(ev_OrganizerID) /\ event_of x.2 e.
Proof.
  destruct x as [[id [o|]] r]; simpl; [|done]. intros (<- & <- & H)%parseEventTimes_ok. done.
Qed.
Lemma scanEvent_ok row e :
  scanEvent row = Ok (Some e) -> exists x, row = Some x /\ scan_event_as "scan event" x = Ok e.
Proof.
  destruct row as [x|]; simpl; [|done]. intros (e' & He & [= ->])%res_bind_ok. eauto.
Qed.

Section events.
Context `{E : Env} (St : status_change).

Lemma Store_FindByID_reads id : reads (Store_FindByID id).
Proof. unfold Store_FindByID. respect. Qed.
Lemma FindMembershipRole_reads e u : reads (FindMembershipRole e u).
Proof. unfold FindMembershipRole. respect. Qed.
#[local] Hint Resolve Store_FindByID_reads FindMembershipRole_reads : respects.
Lemma CanManageEvent_reads e u : reads (CanManageEvent e u).
Proof. unfold CanManageEvent. respect. Qed.
Lemma IsEventOwner_reads e u : reads (IsEventOwner e u).
Proof. unfold IsEventOwner. respect. Qed.
Lemma load_event_reads access e u :
  (forall e u, reads (access e u)) -> reads (load_event access e u).
Proof. intros Ha. unfold load_event. respect. Qed.
Lemma find_events_reads ctx le P : reads (find_events ctx le P).
Proof. unfold find_events. respect. Qed.
Lemma FindFuture_reads s : reads (FindFutureBySeriesID s).
Proof. unfold FindFutureBySeriesID. respect. apply find_events_reads. Qed.
Lemma FindBySeries_reads s : reads (FindBySeriesID s).
Proof. apply find_events_reads. Qed.
Lemma CountBySeries_reads s : reads (CountBySeriesID s).
Proof. unfold CountBySeriesID. respect. Qed.

(** The event found is the row of that key. *)
Lemma Store_FindByID_ok id w e w' :
  Store_FindByID id w = (Ok (Some e), w') ->
  w'.(w_db) = w.(w_db) /\ e.(ev_ID) = id /\ owner_of id w.(w_db) = Some e.(ev_OrganizerID) /\
  exists r, w.(w_db).(events) !! id = Some r /\ event_of r e /\
            parseEventTimes id e.(ev_OrganizerID) r = Ok e.
Proof.
  unfold Store_FindByID. intros H. run_ok.
  match goal with H0 : scanEvent _ = _ |- _ => apply scanEvent_ok in H0 as (x & Hx & Hscan) end.
  destruct (events (w_db w) !! id) as [r|]; [|done]. injection Hx as <-.
  pose proof Hscan as (Hid & Ho & Hr)%scan_event_as_ok. simpl in *.
  split_and!; [congruence|done|done|]. exists r. split; [done|]. split; [done|].
  unfold scan_event_as, event_columns in Hscan. simpl in Hscan. rewrite Ho in Hscan. done.
Qed.

Lemma load_event_ok access eid u w e w' :
  (forall e u, reads (access e u)) -> load_event access eid u w = (Ok e, w') ->
  w'.(w_db) = w.(w_db) /\ e.(ev_ID) = eid /\
  (exists r, w.(w_db).(events) !! eid = Some r /\ event_of r e) /\
  exists w1 w2, w1.(w_db) = w.(w_db) /\ access eid u w1 = (Ok true, w2).
Proof.
  intros Ha. unfold load_event. intros H. run_ok.
  match goal with H : Store_FindByID _ _ = _ |- _ =>
    apply Store_FindByID_ok in H as (Hd & Hid & _ & r & Hr & He & _) end.
  match goal with H : access _ _ _ = _ |- _ => pose proof (reads_world _ _ _ _ (Ha _ _) H) end.
  split_and!; [congruence|done|by exists r|]. eauto.
Qed.

(** An update of an event that keeps its status or makes an allowed change. *)
Lemma Store_Update_steps e w :
  (forall r, w.(w_db).(events) !! e.(ev_ID) = Some r ->
     e.(ev_Status) = r.(e_status) \/ St e.(ev_ID) (Some r) e.(ev_Status)) ->
  acc_steps St w.(w_db) (Store_Update e w).2.(w_db).
Proof.
  intros Hs. change (wp (Store_Update e) (fun _ w' => acc_steps St w.(w_db) w'.(w_db)) w).
  unfold Store_Update. wp1. wp1. match goal with F : follows w _ _ |- _ => destruct F as (Hd & _) end.
  wp1. wp1.
  - match goal with F : follows _ _ _ |- _ => destruct F as (Hd' & _) end. by rewrite Hd', Hd.
  - match goal with F : follows _ ?x _ |- _ => destruct F as (Hd' & _); rename x into d end.
    wp1. rewrite Hd'. match goal with H : update_event _ _ _ = Some d |- _ => rename H into Hu end.
    rewrite Hd in Hu. unfold update_event in Hu.
    destruct (events (w_db w) !! ev_ID e) as [r|] eqn:Er; [|by injection Hu as <-].
    insert_cases Hu. eapply (acc_once _ _ (set_events (fun _ => <[ev_ID e := _]> (events (w_db w))) _)).
    eapply SEvent; try done. by apply Hs.
Qed.

Lemma createEvent_steps e : St e.(ev_ID) None e.(ev_Status) -> ok_respects (acc_steps St) (createEvent e).
Proof.
  intros Hst w a w' H. unfold createEvent in H. run_ok.
  match goal with H1 : insert_event _ _ _ = Some _, H2 : insert_membership _ _ _ = Some _ |- _ =>
    rename H1 into Hi; rename H2 into Hm end.
  apply acc_once. eapply (SEventCreate _ _ _ (event_row e _ _)); [|exact Hm|done|done|exact Hst].
  match type of Hi with insert_event _ _ ?d = _ => replace d with (w_db w) in Hi by congruence end.
  match type of Hi with _ = Some ?d => match goal with |- _ = Some ?d' =>
    replace d' with d by congruence end end. exact Hi.
Qed.
Lemma Store_Create_steps e :
  St e.(ev_ID) None e.(ev_Status) -> respects (acc_steps St) (Store_Create e).
Proof. intros Hst. by apply respects_with_tx; [apply _|apply createEvent_steps]. Qed.
Lemma CoHostStore_Delete_steps id : respects (acc_steps St) (CoHostStore_Delete id).
Proof.
  unfold CoHostStore_Delete. respect. intros [= <-]. apply acc_once, SMemberGone.
  intros k r [_ H%bool_decide_eq_true]%andb_true_iff. done.
Qed.
End events.

(** ** The event service *)

(** Whatever the callbacks of the services do, they leave identities,
    memberships and events alone. *)
Record quiet_events (s : Service) : Prop := {
  qe_publish f e : s.(onPublish) = Some f -> respects quiet (f e);
  qe_duplicate f a b : s.(onDuplicate) = Some f -> respects quiet (f a b);
  qe_cancel f e : s.(onCancel) = Some f -> respects quiet (f e) }.

Lemma event_of_request_draft n u req e id : event_of_request n u req = Ok e -> (e id).(ev_Status) = "draft".
Proof.
  unfold event_of_request. intros H. case_match; [done|].
  repeat (apply res_bind_ok in H as (? & _ & H)). case_match; [done|].
  repeat (apply res_bind_ok in H as (? & _ & H)). by injection H as <-.
Qed.

Section service.
Context `{E : Env} (St : status_change) (s : Service) (Hq : quiet_events s).

Lemma notify_steps {A} (cb : option (A -> M ())) a :
  (forall f, cb = Some f -> respects quiet (f a)) -> respects (acc_steps St) (notify cb a).
Proof.
  intros H. destruct cb as [f|]; simpl; [|by apply respects_ret, acc_steps_preorder].
  apply respects_ignore_err. eapply respects_weaken; [apply quiet_steps|by apply H].
Qed.

(** A change of the loaded event. *)
Lemma change_event_steps {A} access eid u (f : Event -> M A) :
  (forall e u, reads (access e u)) ->
  (forall e w, e.(ev_ID) = eid -> (forall r, w.(w_db).(events) !! eid = Some r -> event_of r e) ->
     acc_steps St w.(w_db) (f e w).2.(w_db)) ->
  respects (acc_steps St) (e <- load_event access eid u ;; f e).
Proof.
  intros Ha Hf w. unfold bind. destruct (load_event access eid u w) as [[e|er] w1] eqn:El; simpl.
  - apply load_event_ok in El as (Hd & Hid & (r & Hr & He) & _); [|done].
    rewrite <- Hd. apply Hf; [done|]. rewrite Hd. intros r' Hr'. by simplify_eq.
  - rewrite (reads_world _ _ _ _ (load_event_reads _ eid u Ha) El). done.
Qed.

Lemma apply_update_ok e req e' :
  apply_update e req = Ok e' ->
  e'.(ev_ID) = e.(ev_ID) /\ e'.(ev_Status) = e.(ev_Status) /\ e'.(ev_SeriesID) = e.(ev_SeriesID).
Proof. unfold apply_update. intros H. repeat (apply res_bind_ok in H as (? & _ & H)). by injection H as <-. Qed.

Lemma Update_steps eid u req : respects (acc_steps St) (Update eid u req).
Proof.
  apply change_event_steps; [apply CanManageEvent_reads|]. intros e w Hid0 He.
  destruct (apply_update e req) as [e'|er] eqn:Eu; simpl; [|done].
  apply apply_update_ok in Eu as (Hid & Hst & _). unfold of_res, bind. simpl.
  apply Store_Update_steps. intros r Hr. left. rewrite Hid, Hid0 in Hr. rewrite Hst.
  by destruct (He _ Hr).
Qed.
Lemma transition_steps verb from to eid u :
  (forall r, r.(e_status) = from -> St eid (Some r) to) ->
  respects (acc_steps St) (transition verb from to eid u).
Proof.
  intros Hft. apply change_event_steps; [apply CanManageEvent_reads|]. intros e w Hid He.
  destruct (bool_decide (ev_Status e = from)) eqn:Eb; [|done]. apply bool_decide_eq_true in Eb.
  unfold require, bind, ret. apply Store_Update_steps. intros r Hr. simpl in *. right.
  rewrite Hid in *. destruct (He _ Hr) as [Hs _]. apply Hft. congruence.
Qed.
Lemma Publish_steps eid u :
  (forall r, r.(e_status) = "draft" -> St eid (Some r) "published") ->
  respects (acc_steps St) (Publish s eid u).
Proof.
  intros Hst. unfold Publish. respect; [by apply transition_steps|apply notify_steps].
  intros f. apply (qe_publish _ Hq).
Qed.
Lemma Cancel_steps eid u b :
  (forall r, r.(e_status) = "published" -> St eid (Some r) "cancelled") ->
  respects (acc_steps St) (Cancel s eid u b).
Proof.
  intros Hst. unfold Cancel. respect; [by apply transition_steps|apply notify_steps].
  intros f. apply (qe_cancel _ Hq).
Qed.
Lemma Reopen_steps eid u :
  (forall r, r.(e_status) = "cancelled" -> St eid (Some r) "draft") ->
  respects (acc_steps St) (Reopen eid u).
Proof. apply transition_steps. Qed.
Lemma Event_Delete_steps eid u :
  (forall r, St eid (Some r) "archived") -> respects (acc_steps St) (Delete eid u).
Proof.
  intros Hst. apply change_event_steps; [apply IsEventOwner_reads|]. intros e w Hid He.
  pose proof (Store_Update_steps St (with_status "archived" e) w) as Hu.
  unfold bind, ret. destruct (Store_Update _ w) as [[e'|er] w'] eqn:Es; simpl in *;
    (apply Hu; intros r Hr; right; rewrite Hid; apply Hst).
Qed.
(** New events of requests are drafts. *)
Context (Hnew : forall id, St id None "draft").
Lemma Event_Create_steps u req : respects (acc_steps St) (Create s u req).
Proof.
  unfold Create. destruct (event_of_request _ u req) as [e|er] eqn:Er; [|by intros w].
  pose proof (fun id => event_of_request_draft _ _ _ _ id Er) as Hdr. clear Er.
  change (respects (acc_steps St) (id <- new_uuid ;; Store_Create (e id))). respect.
  apply Store_Create_steps. by rewrite Hdr.
Qed.
Lemma Duplicate_steps eid u : respects (acc_steps St) (Duplicate s eid u).
Proof.
  unfold Duplicate. respect.
  - apply reads_steps, load_event_reads, IsEventOwner_reads.
  - by apply Store_Create_steps.
  - eapply respects_weaken; [apply quiet_steps|by apply (qe_duplicate _ Hq)].
Qed.
End service.

Lemma CreateFromSeries_steps `{E : Env} (St : status_change) e :
  St e.(ev_ID) None e.(ev_Status) -> respects (acc_steps St) (CreateFromSeries e).
Proof. intros Hst. unfold CreateFromSeries. respect. by apply Store_Create_steps. Qed.

(** ** The series service *)

Definition stored (P : EventRow -> Prop) (d : Database) (e : Event) : Prop :=
  exists r, d.(events) !! e.(ev_ID) = Some r /\ event_of r e /\ P r.

Record quiet_series (s : SeriesService) : Prop := {
  qs_events : quiet_events s.(ss_eventService);
  qs_create f a b : s.(ss_onCreateOccurrence) = Some f -> respects quiet (f a b) }.

Section series.
Context `{E : Env} (St : status_change).

Lemma find_events_ok ctx le P w l w' :
  find_events ctx le P w = (Ok l, w') ->
  w'.(w_db) = w.(w_db) /\
  forall e, e ∈ l -> exists r, w.(w_db).(events) !! e.(ev_ID) = Some r /\ event_of r e /\
                               P w.(w_db) e.(ev_ID) r = true.
Proof.
  intros H. split; [by apply (reads_world _ _ _ _ (find_events_reads ctx le P) H)|].
  unfold find_events in H. run_ok. intros e He.
  match goal with H : mapM _ _ _ = _ |- _ => apply mapM_ok in H; rename H into Hf end.
  eapply Forall2_elem_r in Hf as (x & Hx & w1 & w2 & Hs); [|done]. run_ok.
  match goal with H : scanEventRow x = Ok e |- _ =>
    apply scan_event_as_ok in H as (Hid & _ & Hr) end.
  rewrite order_by_perm in Hx. apply list_elem_of_fmap in Hx as ([k r] & -> & Hx).
  apply elem_of_select in Hx as [Hk HP]. simpl in *. rewrite Hid. by exists r.
Qed.
Lemma FindFuture_ok sid w l w' :
  FindFutureBySeriesID sid w = (Ok l, w') ->
  w'.(w_db) = w.(w_db) /\
  forall e, e ∈ l -> stored (fun r => future_event sid (format_rfc3339 (clock w.(w_clock))) r = true)
                       w.(w_db) e.
Proof.
  unfold FindFutureBySeriesID. intros H. run_ok.
  match goal with H : find_events _ _ _ _ = _ |- _ => apply find_events_ok in H as [Hd He] end.
  match goal with H : w_db _ = w_db w |- _ => rewrite H in * end. split; [done|].
  intros e Hin. by apply He.
Qed.

(** A run that goes on from what the first part gave. *)
Lemma then_steps {A B} (m : M A) (k : A -> M B) w :
  acc_steps St w.(w_db) (m w).2.(w_db) ->
  (forall a w1, m w = (Ok a, w1) -> acc_steps St w1.(w_db) (k a w1).2.(w_db)) ->
  acc_steps St w.(w_db) (bind m k w).2.(w_db).
Proof.
  intros Hm Hk. unfold bind. destruct (m w) as [[a|e] w1]; simpl in *; [|done].
  etrans; [exact Hm|by apply Hk].
Qed.

(** A loop over events read before it, each turn of which keeps [I] of the
    events still to come. *)
Lemma forM_stored (I : Database -> Event -> Prop) (l : list Event) (f : Event -> M ()) w :
  (forall e w, e ∈ l -> I w.(w_db) e ->
     acc_steps St w.(w_db) (f e w).2.(w_db) /\
     forall e', e' ∈ l -> I w.(w_db) e' -> I (f e w).2.(w_db) e') ->
  (forall e, e ∈ l -> I w.(w_db) e) ->
  acc_steps St w.(w_db) (forM l f w).2.(w_db).
Proof.
  revert w. induction l as [|e l IH]; intros w Hf Hl; [reflexivity|].
  destruct (Hf e w) as [Hs Hk]; [constructor|apply Hl; constructor|].
  unfold forM in *. simpl. unfold bind. destruct (f e w) as [[[]|er] w1] eqn:Ef; simpl in *; [|done].
  etrans; [exact Hs|]. apply IH.
  - intros e0 w0 Hi H0. destruct (Hf e0 w0) as [? H1]; [by constructor|done|]. split; [done|].
    intros e' He'. apply H1. by constructor.
  - intros e0 He0. apply Hk; [by constructor|]. apply Hl. by constructor.
Qed.

(** What [Store_Update] leaves of an event of another or the same key. *)
Lemma Store_Update_events e w k r' :
  (Store_Update e w).2.(w_db).(events) !! k = Some r' ->
  exists r, w.(w_db).(events) !! k = Some r /\
    (r' = r \/ (k = e.(ev_ID) /\ r'.(e_status) = e.(ev_Status) /\ r'.(e_series_id) = e.(ev_SeriesID))).
Proof.
  unfold Store_Update, bind, now. simpl.
  set (w0 := MkWorld _ _ _ _ _). destruct (exec _ _ w0) as [[u|er] w1] eqn:Ee; simpl.
  - apply exec_ok in Ee as (Hu & _). simpl in Hu. unfold update_event in Hu.
    destruct (events (w_db w) !! ev_ID e) as [r|] eqn:Er; [|injection Hu as <-; eauto].
    insert_cases Hu. rewrite <- Hu. simpl. rewrite lookup_insert_Some.
    intros [[<- <-]|[Hn Hk]]; eauto 10.
  - assert (w_db w1 = w_db w) as ->; [|eauto].
    unfold exec, stmt, bind, driver in Ee. destruct (w_faults w0) as [|[] ?]; simpl in Ee;
      [|by injection Ee as _ <-|]; destruct (update_event _ _ _); simpl in Ee; try done;
      by injection Ee as _ <-.
Qed.
Lemma Store_Update_lookup e w k :
  is_Some (w.(w_db).(events) !! k) -> is_Some ((Store_Update e w).2.(w_db).(events) !! k).
Proof.
  unfold Store_Update, bind, now. simpl.
  set (w0 := MkWorld _ _ _ _ _). destruct (exec _ _ w0) as [[u|er] w1] eqn:Ee; simpl.
  - apply exec_ok in Ee as (Hu & _). simpl in Hu. unfold update_event in Hu.
    destruct (events (w_db w) !! ev_ID e) as [r|] eqn:Er; [|by injection Hu as <-].
    insert_cases Hu. rewrite <- Hu. simpl. apply insert_grow.
  - assert (w_db w1 = w_db w) as ->; [|done].
    unfold exec, stmt, bind, driver in Ee. destruct (w_faults w0) as [|[] ?]; simpl in Ee;
      [|by injection Ee as _ <-|]; destruct (update_event _ _ _); simpl in Ee; try done;
      by injection Ee as _ <-.
Qed.

(** The status of the row of [e] is related to the one that was read. *)
Definition as_read (Q : string -> string -> Prop) (d : Database) (e : Event) : Prop :=
  exists r, d.(events) !! e.(ev_ID) = Some r /\ Q e.(ev_Status) r.(e_status).

Lemma Store_Update_as_read Q e w e' :
  as_read Q w.(w_db) e' -> (e.(ev_ID) = e'.(ev_ID) -> Q e'.(ev_Status) e.(ev_Status)) ->
  as_read Q (Store_Update e w).2.(w_db) e'.
Proof.
  intros (r & Hr & Hs) He. destruct (Store_Update_lookup e w (ev_ID e')) as [r' Hr']; [eauto|].
  exists r'. split; [done|]. apply Store_Update_events in Hr' as (r0 & Hr0 & H). simplify_eq.
  destruct H as [->|(Hk & Hst & _)]; [done|]. rewrite Hst. by apply He.
Qed.

(** Events read from one database: those with one key have one status. *)
Lemma stored_status P d e e' :
  stored P d e -> stored P d e' -> e.(ev_ID) = e'.(ev_ID) -> e.(ev_Status) = e'.(ev_Status).
Proof. intros (r & Hr & [? _] & _) (r' & Hr' & [? _] & _) Hid. rewrite Hid in Hr. congruence. Qed.

Lemma SeriesStore_FindByID_reads id : reads (SeriesStore_FindByID id).
Proof. unfold SeriesStore_FindByID. respect. Qed.
Lemma load_series_reads sid u : reads (load_series sid u).
Proof. unfold load_series. respect. apply SeriesStore_FindByID_reads. Qed.
Lemma FindAllActive_reads : reads FindAllActive.
Proof. unfold FindAllActive. respect. Qed.
Lemma SeriesStore_Create_steps es : respects (acc_steps St) (SeriesStore_Create es).
Proof. unfold SeriesStore_Create. respect. intros H. by eapply acc_once, SSeriesAdd. Qed.
Lemma SeriesStore_Update_steps es : respects (acc_steps St) (SeriesStore_Update es).
Proof.
  unfold SeriesStore_Update. respect. unfold update_series. intros H.
  destruct (event_series d !! es_ID es) as [r|] eqn:Er; [|by injection H as <-].
  insert_cases H. eapply (acc_once _ _ (set_event_series (fun _ => <[es_ID es := _]> (event_series d)) _)).
  by eapply SSeries.
Qed.
Lemma SeriesStore_Delete_steps id : respects (acc_steps St) (SeriesStore_Delete id).
Proof. unfold SeriesStore_Delete. respect. intros [= <-]. apply acc_once, SSeriesGone. Qed.

Lemma updateFutureOccurrences_steps es : respects (acc_steps St) (updateFutureOccurrences es).
Proof.
  intros w. unfold updateFutureOccurrences, bind.
  destruct (FindFutureBySeriesID (es_ID es) w) as [[l|er] w1] eqn:Ef; simpl.
  2: { by rewrite (reads_world _ _ _ _ (FindFuture_reads _) Ef). }
  apply FindFuture_ok in Ef as [Hd Hl]. rewrite <- Hd in *.
  apply (forM_stored (as_read eq)).
  - intros e w0 He (r & Hr & Hs). destruct (ev_SeriesOverride e); [done|].
    unfold ignore_err. simpl. split.
    + apply Store_Update_steps. simpl. intros r' Hr'. simplify_eq. left. congruence.
    + intros e' He' Hr'. apply Store_Update_as_read; [done|]. intros Hid. simpl in *. symmetry.
      by eapply stored_status; [by apply Hl|by apply Hl|].
  - intros e He. destruct (Hl _ He) as (r & Hr & [Hs _] & _). by exists r.
Qed.

(** Not archived when read; the same since, or cancelled. *)
Definition stoppable (read now : string) : Prop :=
  read <> "archived" /\ (now = read \/ now = "cancelled").

Section stop.
Context (s : SeriesService) (Hq : quiet_series s).

Lemma Cancel_as_read eid u b w e :
  as_read stoppable w.(w_db) e -> as_read stoppable (Cancel s.(ss_eventService) eid u b w).2.(w_db) e.
Proof.
  intros He. unfold Cancel, bind.
  assert (Ht : as_read stoppable (transition "cancelled" "published" "cancelled" eid u w).2.(w_db) e).
  { unfold transition, bind. destruct (load_event _ _ _ w) as [[ev|er] w1] eqn:El; simpl.
    2: { by rewrite (reads_world _ _ _ _ (load_event_reads _ eid u CanManageEvent_reads) El). }
    apply load_event_ok in El as (Hd & _); [|apply CanManageEvent_reads]. rewrite <- Hd in He.
    destruct (bool_decide _); simpl; [|done]. apply Store_Update_as_read; [done|].
    intros _. simpl. destruct He as (r & _ & Hn & _). by split; [|right]. }
  destruct (transition _ _ _ _ _ w) as [[ev|er] w1]; simpl in *; [|done].
  destruct b; [|done]. unfold notify.
  destruct (onCancel (ss_eventService s)) as [f|] eqn:Ec; [|done].
  destruct Ht as (r & Hr & Hs). unfold ignore_err. simpl.
  destruct (qe_cancel _ (qs_events _ Hq) f ev Ec w1) as [_ He1]. exists r. by rewrite He1.
Qed.

Lemma stop_occurrence_turn org e w (l : list Event) P d :
  (forall r, r.(e_status) <> "archived" -> St e.(ev_ID) (Some r) "cancelled") ->
  (forall e, e ∈ l -> stored P d e) -> e ∈ l -> as_read stoppable w.(w_db) e ->
  acc_steps St w.(w_db) (stop_occurrence s org e w).2.(w_db) /\
  forall e', e' ∈ l -> as_read stoppable w.(w_db) e' ->
    as_read stoppable (stop_occurrence s org e w).2.(w_db) e'.
Proof.
  intros Hst Hl He Hr. unfold stop_occurrence. destruct (ev_SeriesOverride e); [done|].
  destruct (bool_decide _); unfold ignore_err; simpl.
  - split; [|intros e' _; apply Cancel_as_read].
    apply (Cancel_steps _ _ (qs_events _ Hq)). intros r Hp. apply Hst. by rewrite Hp.
  - split.
    + apply Store_Update_steps. simpl. intros r Hk. destruct Hr as (r' & Hr & Hn & Hs). simplify_eq.
      destruct Hs as [Hs|Hs]; [|by left]. right. apply Hst. by rewrite Hs.
    + intros e' He' Hr'. apply Store_Update_as_read; [done|]. simpl. intros Hid.
      destruct Hr as (_ & _ & Hn & _). split; [|by right].
      by rewrite <- (stored_status _ _ _ _ (Hl _ He) (Hl _ He') Hid).
Qed.

Lemma SeriesStore_Update_events es w r w' :
  SeriesStore_Update es w = (r, w') -> w'.(w_db).(events) = w.(w_db).(events).
Proof.
  assert (respects (fun d d' => d'.(events) = d.(events)) (SeriesStore_Update es)) as H.
  { assert (PreOrder (fun d d' : Database => d'.(events) = d.(events))) by (split; [by intros ?|intros ???; congruence]).
    unfold SeriesStore_Update. respect. unfold update_series. intros Hu. case_match; [|by injection Hu as <-].
    insert_cases Hu. done. }
  intros Hr. specialize (H w). by rewrite Hr in H.
Qed.
Lemma StopSeries_steps sid u w :
  (forall k r0 r, w.(w_db).(events) !! k = Some r0 -> r0.(e_series_id) = Some sid ->
     r.(e_status) <> "archived" -> St k (Some r) "cancelled") ->
  acc_steps St w.(w_db) (StopSeries s sid u w).2.(w_db).
Proof.
  intros Hst. unfold StopSeries.
  apply then_steps; [by rewrite (load_series_reads sid u w)|]. intros es w0 Hl.
  apply then_steps; [apply SeriesStore_Update_steps|]. intros es' w1 Hu.
  unfold bind, attempt. destruct (FindFutureBySeriesID sid w1) as [[l|er] w2] eqn:Ef; simpl.
  2: { by rewrite (reads_world _ _ _ _ (FindFuture_reads _) Ef). }
  apply FindFuture_ok in Ef as [Hd Hl']. apply (reads_world _ _ _ _ (load_series_reads _ _)) in Hl.
  apply SeriesStore_Update_events in Hu. rewrite <- Hd in *.
  match goal with |- context [forM l ?f w2] =>
    assert (acc_steps St (w_db w2) (forM l f w2).2.(w_db)) as H end.
  - apply (forM_stored (as_read stoppable)).
    + intros e w3 He Hr. eapply stop_occurrence_turn; [|done..]. intros r.
      destruct (Hl' _ He) as (r0 & Hr0 & _ & Hf). apply Hst with r0; [by rewrite <- Hl, <- Hu|].
      unfold future_event in Hf. split_guards. by eapply bool_decide_eq_true.
    + intros e He. destruct (Hl' _ He) as (r & Hr & [Hs _] & Hf). exists r. split; [done|].
      unfold future_event, not_archived in Hf. split_guards. rewrite Hs. split; [|by left].
      match goal with H : negb (bool_decide (_ = "archived")) = true |- _ =>
        by apply negb_true_iff, bool_decide_eq_false in H end.
  - destruct (forM _ _ w2) as [[u0|er] w3]; done.
Qed.

Lemma respects_bind_ret {A B C} R (m : M A) (g : A -> B) (k : B -> M C) :
  respects R (bind m (fun a => k (g a))) -> respects R (bind (bind m (fun a => ret (g a))) k).
Proof. intros H w. specialize (H w). unfold bind, ret in *. by destruct (m w) as [[]]. Qed.

(** Occurrences of a series are published at once. *)
Context (Hnew : forall id, St id None "published").
Lemma create_occurrence_steps ctx es date i : respects (acc_steps St) (create_occurrence s ctx es date i).
Proof.
  unfold create_occurrence, buildOccurrenceFromSeries. apply respects_bind_ret. respect;
    [apply CreateFromSeries_steps, Hnew|].
  eapply respects_weaken; [apply quiet_steps|by apply (qs_create _ Hq)].
Qed.
Lemma initial_loop_steps n es i date day : respects (acc_steps St) (initial_loop s n es i date day).
Proof.
  revert i date. induction n as [|n IH]; intros; simpl; respect; apply create_occurrence_steps.
Qed.
Lemma generate_loop_steps n es date total day : respects (acc_steps St) (generate_loop s n es date total day).
Proof.
  revert date total. induction n as [|n IH]; intros; simpl; respect; apply create_occurrence_steps.
Qed.
Lemma CreateSeries_steps u req : respects (acc_steps St) (CreateSeries s u req).
Proof.
  unfold CreateSeries, generateInitialOccurrences. respect;
    [apply SeriesStore_Create_steps|apply initial_loop_steps].
Qed.
Lemma GenerateOccurrences_steps sid : respects (acc_steps St) (GenerateOccurrences s sid).
Proof.
  unfold GenerateOccurrences, last_date. respect;
    try apply generate_loop_steps; apply reads_steps;
    eauto using SeriesStore_FindByID_reads, FindFuture_reads, FindBySeries_reads, CountBySeries_reads.
Qed.
Lemma GenerateForAll_steps : respects (acc_steps St) (GenerateOccurrencesForAll s).
Proof.
  unfold GenerateOccurrencesForAll. respect; [apply reads_steps, FindAllActive_reads|].
  apply GenerateOccurrences_steps.
Qed.
Lemma UpdateSeries_steps sid u req : respects (acc_steps St) (UpdateSeries sid u req).
Proof.
  unfold UpdateSeries. respect; [apply reads_steps, load_series_reads|
    apply SeriesStore_Update_steps|apply updateFutureOccurrences_steps].
Qed.
Lemma DeleteSeries_steps sid u : respects (acc_steps St) (DeleteSeries sid u).
Proof.
  unfold DeleteSeries. respect; [apply reads_steps, load_series_reads|apply SeriesStore_Delete_steps].
Qed.
End stop.
End series.
