(* ===== verification/AccountSystem.v ===== *)
(** * The services of identities and events as a system

    A run is any list of requests to the services of the packages [auth],
    [useradmin], [instanceconfig], [event] and [eventadmin] and to the invitation store, with
    any arguments, deleting an account included; the world decides which statements
    fail.  Every request is a sequence of moves, and [change_of] says which events it
    may change and how. *)

From S2P Require Import Prelude.
From S2P Require Import GoStr.
From S2P Require Import GoTime.
From S2P Require Import Schema.
From S2P Require Import Eff.
From S2P Require Import Http.
From S2P Require Import Respect.
From S2P Require Import Tables.
From S2P Require Import History.
From S2P Require Import System.
From S2P Require Import Auth.
From S2P Require Import UserAdmin.
From S2P Require Import Event.
From S2P Require Import EventHandler.
From S2P Require Import Series.
From S2P Require Import Instance.
From S2P Require Import EventAdmin.
From S2P Require Import AccountDelete.
From S2P Require Import AccountSteps.
From S2P Require Import EventSteps.

Local Open Scope Z_scope.

(** Sending an e-mail leaves identities, memberships and events alone. *)
Definition quiet_sender (s : Auth.Service) : Prop :=
  forall f to subject html plain, s.(sendEmail) = Some f -> respects quiet (f to subject html plain).

Inductive account_op :=
| ORequestLink (email : string)
| OVerify (token : string)
| OValidate (token : string)
| OLogout (token : string)
| OProfile (u : User)
| OPurgeSessions
| ODeleteAccount (userID : string)
| OInviteUser (actor : option User) (email : string)
| OInviteCohost (actor : option User) (eventID email : string)
| OAccept (token : string)
| ORevokeInvite (actor : option User) (inviteID : string)
| OSetStatus (actor : option User) (userID status : string)
| OSetRole (actor : option User) (userID role : string)
| OBootstrap (req : BootstrapRequest)
| OSettings (settings : Settings)
| OCreateEvent (userID : string) (req : CreateEventRequest)
| OUpdateEvent (eventID userID : string) (req : UpdateEventRequest)
| OPublish (eventID userID : string)
| OCancel (eventID userID : string) (notifyInvitees : bool)
| OReopen (eventID userID : string)
| ODuplicate (eventID userID : string)
| ODeleteEvent (eventID userID : string)
| ORemoveCohost (user : option string) (eventID cohostID : string)
| OCreateSeries (userID : string) (req : CreateSeriesRequest)
| OGenerate
| OUpdateSeries (seriesID userID : string) (req : UpdateSeriesRequest)
| OStopSeries (seriesID userID : string)
| ODeleteSeries (seriesID userID : string)
| OAddSelf (actor : option User) (eventID : string)
| OTransfer (actor : option User) (eventID newOwnerUserID : string)
| OPromote (email : string)
| OInvitation (op : store_op).

(** The services a server wires together. *)
Record Services := MkServices {
  sv_auth : Auth.Service; sv_series : SeriesService; sv_handler : EventHandler.Handler }.
Definition quiet_services (s : Services) : Prop :=
  quiet_sender s.(sv_auth) /\ quiet_series s.(sv_series).

Section accounts.
Context `{E : Env, HttpEnv} (s : Services).

Definition run_account (op : account_op) : M () :=
  let a := s.(sv_auth) in
  let ev := s.(sv_series).(ss_eventService) in
  match op with
  | ORequestLink email => RequestMagicLink a email
  | OVerify token => VerifyMagicLink a token ;;; ret ()
  | OValidate token => ValidateSession token ;;; ret ()
  | OLogout token => Logout token
  | OProfile u => UpdateOrganizer u
  | OPurgeSessions => DeleteExpiredSessions
  | ODeleteAccount u => DeleteAccount u
  | OInviteUser actor email => InviteUser a actor email ;;; ret ()
  | OInviteCohost actor e email => InviteEventCohost a actor e email ;;; ret ()
  | OAccept token => AcceptInvite a token ;;; ret ()
  | ORevokeInvite actor i => RevokeInvite actor i
  | OSetStatus actor u status => SetUserStatus actor u status
  | OSetRole actor u role => SetUserRole actor u role
  | OBootstrap req => Bootstrap a.(cfg) req ;;; ret ()
  | OSettings settings => SaveSettings settings
  | OCreateEvent u req => Create ev u req ;;; ret ()
  | OUpdateEvent e u req => Update e u req ;;; ret ()
  | OPublish e u => Publish ev e u ;;; ret ()
  | OCancel e u b => Cancel ev e u b ;;; ret ()
  | OReopen e u => Reopen e u ;;; ret ()
  | ODuplicate e u => Duplicate ev e u ;;; ret ()
  | ODeleteEvent e u => Delete e u
  | ORemoveCohost u e c => handleRemoveCoHost s.(sv_handler) u e c ;;; ret ()
  | OCreateSeries u req => CreateSeries s.(sv_series) u req ;;; ret ()
  | OGenerate => GenerateOccurrencesForAll s.(sv_series)
  | OUpdateSeries i u req => UpdateSeries i u req ;;; ret ()
  | OStopSeries i u => StopSeries s.(sv_series) i u ;;; ret ()
  | ODeleteSeries i u => DeleteSeries i u
  | OAddSelf actor e => AddSelf actor e
  | OTransfer actor e u => TransferOwnership actor e u
  | OPromote email => PromoteAdmin email ;;; ret ()
  | OInvitation op => run_op op
  end.

(** Which events a request on [d] may create or give another status. *)
Definition change_of (op : account_op) (d : Database) : status_change := fun id before after =>
  match op, before with
  | OCreateEvent _ _, None | ODuplicate _ _, None => after = "draft"
  | OCreateSeries _ _, None | OGenerate, None => after = "published"
  | OPublish e _, Some r => id = e /\ r.(e_status) = "draft" /\ after = "published"
  | OCancel e _ _, Some r => id = e /\ r.(e_status) = "published" /\ after = "cancelled"
  | OReopen e _, Some r => id = e /\ r.(e_status) = "cancelled" /\ after = "draft"
  | ODeleteEvent e _, Some _ => id = e /\ after = "archived"
  | OStopSeries i _, Some r =>
      (exists r0, d.(events) !! id = Some r0 /\ r0.(e_series_id) = Some i) /\
      r.(e_status) <> "archived" /\ after = "cancelled"
  | _, _ => False
  end.
Definition any_change : status_change := fun _ _ _ => True.
Definition deletion_of (op : account_op) (u : string) : Prop := op = ODeleteAccount u.

(** A failed request returns its error to the caller; the run goes on. *)
Definition run_accounts (ops : list account_op) (w : World) : World :=
  fold_left (fun w op => (run_account op w).2) ops w.

(** ** Every request is a sequence of moves *)

Context (Hq : quiet_services s) (St : status_change).

Lemma send_steps f to subject html plain :
  s.(sv_auth).(sendEmail) = Some f -> respects (acc_steps St) (f to subject html plain).
Proof. intros Hf. eapply respects_weaken; [apply quiet_steps|by apply (proj1 Hq)]. Qed.

Lemma RequestMagicLink_moves Del email : respects (acc_moves Del St) (RequestMagicLink (sv_auth s) email).
Proof.
  unfold RequestMagicLink, find_or_create, CreateOrganizer, send_magic_link. respect.
  eapply respects_weaken; [apply acc_steps_moves|by apply send_steps].
Qed.
Lemma DeleteAccount_moves u : respects (acc_moves (deletion_of (ODeleteAccount u)) St) (DeleteAccount u).
Proof.
  intros w. destruct (DeleteAccount u w) as [[[]|e] w1] eqn:Hw; simpl.
  - apply rtc_once. eapply MDelete; [done|]. by apply deletion_runs.
  - unfold DeleteAccount, DeleteOrganizerCascade in Hw. apply with_tx_err in Hw. by rewrite Hw.
Qed.
Lemma VerifyMagicLink_steps token : respects (acc_steps St) (VerifyMagicLink (sv_auth s) token).
Proof. unfold VerifyMagicLink, consume_link. respect. Qed.
Lemma ValidateSession_steps token : respects (acc_steps St) (ValidateSession token).
Proof. unfold ValidateSession. respect. Qed.
Lemma Logout_steps token : respects (acc_steps St) (Logout token).
Proof. unfold Logout. respect. Qed.
Lemma InviteUser_steps actor email : respects (acc_steps St) (InviteUser (sv_auth s) actor email).
Proof. unfold InviteUser, invite_user_tx, create_invited. respect. by apply send_steps. Qed.
Lemma InviteCohost_steps actor e email : respects (acc_steps St) (InviteEventCohost (sv_auth s) actor e email).
Proof.
  unfold InviteEventCohost, invite_cohost_tx, create_invited. respect; by apply send_steps.
Qed.
Lemma AcceptInvite_steps token : respects (acc_steps St) (AcceptInvite (sv_auth s) token).
Proof. unfold AcceptInvite, accept_invite_tx, grant_cohost. respect. Qed.
Lemma RevokeInvite_steps actor i : respects (acc_steps St) (RevokeInvite actor i).
Proof. unfold RevokeInvite. respect. Qed.
Lemma Bootstrap_steps req : respects (acc_steps St) (Bootstrap s.(sv_auth).(cfg) req).
Proof. unfold Bootstrap, bootstrap_tx, bootstrap_admin, newToken. respect. Qed.

(** ** Status and role changes keep an administrator *)

Lemma user_of_row_ok id r u :
  user_of_row id r = Ok u ->
  u.(user_ID) = id /\ u.(user_Status) = r.(u_status) /\ u.(user_InstanceRole) = r.(u_role) /\
  u.(user_IsAdmin) = bool_decide (r.(u_role) = InstanceRoleAdmin) /\
  u.(user_Email) = r.(u_email) /\ u.(user_NormalizedEmail) = r.(u_norm_email).
Proof. unfold user_of_row. intros Hr. repeat (apply res_bind_ok in Hr as (? & _ & Hr)). by injection Hr as <-. Qed.
Lemma findOrganizerByID_ok id w u w' :
  findOrganizerByID id w = (Ok (Some u), w') ->
  w'.(w_db) = w.(w_db) /\ exists r, w.(w_db).(users) !! id = Some r /\ user_of_row id r = Ok u.
Proof.
  unfold findOrganizerByID. intros H0. run_ok. split; [congruence|].
  destruct (users (w_db w) !! id) as [r|]; simpl in *; [|done]. exists r. split; [done|].
  match goal with H : res_bind _ _ = _ |- _ => apply res_bind_ok in H as (? & ? & [= ->]) end. done.
Qed.

(** Two rows counted: one is another than [id]. *)
Lemma count_other {R} (P : string -> R -> bool) t id :
  1 < count P t -> exists id' r, id' <> id /\ t !! id' = Some r /\ P id' r = true.
Proof.
  unfold count. intros Hc. pose proof (NoDup_select P t) as Hn.
  destruct (select P t) as [|[k1 r1] [|[k2 r2] l]] eqn:Es; simpl in *; try lia.
  assert (forall k r, (k, r) ∈ select P t -> t !! k = Some r /\ P k r = true) as Hs
    by (intros ? ?; apply elem_of_select).
  rewrite Es in Hs. destruct (decide (k1 = id)) as [->|Hne].
  - exists k2, r2. split; [|apply Hs; by right; left]. intros ->.
    apply NoDup_cons in Hn as [Hn _]. apply Hn. constructor.
  - exists k1, r1. split; [done|]. apply Hs. constructor.
Qed.

(** The statement of [UpdateStatusTx] and [UpdateRoleTx]. *)
Lemma update_user_safe ctx id f w r :
  w.(w_db).(users) !! id = Some r -> same_identity r (f r) -> admin_safe w.(w_db) id r (f r) ->
  acc_steps St w.(w_db) (update_user ctx id (fun _ => true) f w).2.(w_db).
Proof.
  intros Hr Hi Ha. change (wp (update_user ctx id (fun _ => true) f)
    (fun _ w' => acc_steps St w.(w_db) w'.(w_db)) w). unfold update_user. wp1.
  - match goal with F : follows _ _ _ |- _ => by destruct F as (-> & _) end.
  - match goal with F : follows _ _ _ |- _ => destruct F as (-> & _) end.
    match goal with Hs : _ = Some (_, d) |- _ => unfold update_id in Hs; rewrite Hr in Hs; injection Hs as _ <- end.
    by eapply acc_once, SUser.
Qed.

Lemma changeUser_steps actor uid apply :
  (forall a target r w admins t,
     w.(w_db).(users) !! uid = Some r -> user_of_row uid r = Ok target ->
     admins = count (fun _ r => active_admin r) w.(w_db).(users) ->
     acc_steps St w.(w_db) (apply a (MkChange target admins t) w).2.(w_db)) ->
  respects (acc_steps St) (changeUser actor uid apply).
Proof.
  intros Ha. unfold changeUser. destruct actor as [a|]; [|by apply respects_fail, acc_steps_preorder].
  apply respects_guard; [apply _|intros _]. apply respects_with_tx; [apply _|].
  intros w x w' Hrun. run_ok.
  repeat match goal with
  | H : LockAdminMutationTx _ = _ |- _ => apply (reads_world _ _ _ _ LockAdmin_reads) in H
  | H : persisted_actor _ _ _ = _ |- _ => apply (reads_world _ _ _ _ (persisted_actor_reads _ _)) in H
  | H : findOrganizerByID _ _ = _ |- _ => apply findOrganizerByID_ok in H as (? & r & Hr & Hu)
  | H : CountActiveAdminsTx _ = _ |- _ => apply query_ok in H as (Hc & ? & _)
  end.
  match type of Hrun with apply ?a ?c ?w1 = _ =>
    assert (Hw : w_db w1 = w_db w) by congruence; rewrite <- Hw;
    pose proof (Ha a (uc_target c) r w1 (uc_activeAdmins c) (uc_now c)) as Hs end.
  simpl in Hs. rewrite Hrun in Hs. apply Hs; congruence.
Qed.

Lemma UpdateStatus_steps uid status t w r :
  w.(w_db).(users) !! uid = Some r -> one_of status ["invited"; "active"; "disabled"] = true ->
  (forall now, admin_safe w.(w_db) uid r (status_row status now r)) ->
  acc_steps St w.(w_db) (UpdateStatusTx uid status t w).2.(w_db).
Proof.
  intros Hr Hst Ha. unfold UpdateStatusTx. unfold bind at 1.
  pose proof (update_user_safe "update user status" uid (status_row status (format_rfc3339 t)) w r Hr)
    as Hs. destruct (update_user _ _ _ _ w) as [[n|e] w1]; simpl in *.
  - etrans; [apply Hs; [|done]; split_and!; try done; intros; by apply user_check_status|].
    match goal with |- acc_steps _ _ (?m w1).2.(w_db) =>
      assert (respects (acc_steps St) m) as Hm; [|apply Hm] end.
    respect. intros [= <-]. apply acc_once, SLoginsGone.
  - apply Hs; [|done]. split_and!; try done. intros. by apply user_check_status.
Qed.

Lemma then_respects {A B} (m : M A) (k : A -> M B) w :
  acc_steps St w.(w_db) (m w).2.(w_db) -> (forall a, respects (acc_steps St) (k a)) ->
  acc_steps St w.(w_db) (bind m k w).2.(w_db).
Proof. intros Hm Hk. apply then_steps; [done|]. intros a w1 _. apply Hk. Qed.

Lemma SetUserStatus_steps actor uid status : respects (acc_steps St) (SetUserStatus actor uid status).
Proof.
  unfold SetUserStatus. apply respects_guard; [apply _|]. intros Hv. apply changeUser_steps.
  intros a target r w admins t Hr Hu Hc. unfold apply_status.
  apply user_of_row_ok in Hu as (_ & Hst & _ & Hadm & _). simpl. unfold is_active.
  destruct (bool_decide_reflect (user_Status target = status)) as [Hsame|Hsame]; [done|].
  destruct (negb _) eqn:E1; [|done]. unfold require at 1, bind at 1, ret. simpl.
  destruct (negb (user_IsAdmin _ && _ && _ && _)) eqn:E2; [|done].
  unfold require at 1, bind at 1, ret. simpl.
  apply then_respects; [|intros ?; apply InsertAudit_steps].
  eapply UpdateStatus_steps; [done| |].
  - apply orb_true_iff in Hv as [->%bool_decide_eq_true| ->%bool_decide_eq_true]; done.
  - intros now_ Hact. right. apply count_other. unfold active_admin in Hact. split_guards.
    apply orb_true_iff in Hv as [->%bool_decide_eq_true| ->%bool_decide_eq_true].
    + exfalso. apply Hsame. rewrite Hst. by eapply bool_decide_eq_true.
    + rewrite Hadm, Hst in E2. rewrite !negb_andb in E2.
      change (bool_decide (UserStatusDisabled = UserStatusDisabled)) with true in E2.
      repeat match goal with H : bool_decide _ = true |- _ => rewrite H in E2 end. simpl in E2.
      apply negb_true_iff, Z.leb_gt in E2. by subst.
Qed.

Lemma SetUserRole_steps actor uid role : respects (acc_steps St) (SetUserRole actor uid role).
Proof.
  unfold SetUserRole. apply respects_guard; [apply _|]. intros Hv. apply changeUser_steps.
  intros a target r w admins t Hr Hu Hc. unfold apply_role.
  apply user_of_row_ok in Hu as (_ & Hst & Hrole & Hadm & _). simpl. unfold is_active.
  destruct (bool_decide_reflect (user_InstanceRole target = role)) as [Hsame|Hsame]; [done|].
  destruct (negb (user_IsAdmin _ && _ && _ && _)) eqn:E2; [|done].
  unfold require at 1, bind at 1, ret. simpl.
  apply then_respects; [|intros ?; apply InsertAudit_steps]. unfold UpdateRoleTx.
  apply then_respects; [|intros ?; respect]. apply update_user_safe with r; [done| |].
  - split_and!; try done. intros Hk. apply user_check_role; [done|].
    apply orb_true_iff in Hv as [->%bool_decide_eq_true| ->%bool_decide_eq_true]; done.
  - intros Hact. right. apply count_other. unfold active_admin in Hact. split_guards.
    apply orb_true_iff in Hv as [->%bool_decide_eq_true| ->%bool_decide_eq_true].
    + exfalso. apply Hsame. rewrite Hrole. by eapply bool_decide_eq_true.
    + rewrite Hadm, Hst in E2. rewrite !negb_andb in E2.
      change (bool_decide (InstanceRoleUser = InstanceRoleAdmin)) with false in E2.
      repeat match goal with H : bool_decide _ = true |- _ => rewrite H in E2 end. simpl in E2.
      apply negb_true_iff, Z.leb_gt in E2. by subst.
Qed.
Lemma RemoveCoHost_steps u e c : respects (acc_steps St) (handleRemoveCoHost s.(sv_handler) u e c).
Proof.
  assert (forall id, reads (CoHostStore_FindByID id)) as Hf by (intros; unfold CoHostStore_FindByID; respect).
  unfold handleRemoveCoHost, signed_in, answer, internal_error, Ref. respect;
    eauto using CoHostStore_Delete_steps, reads_steps, IsEventOwner_reads.
Qed.

(** ** Event administration *)

Lemma authorize_reads a e : reads (authorize a e).
Proof. unfold authorize. respect. Qed.
Lemma update_members_tx ctx P role g now w n w' :
  stmt ctx (update_members P role g now) w = (Ok n, w') ->
  update_members P role g now w.(w_db) = Some (n, w'.(w_db)).
Proof. intros Hr. run_ok. congruence. Qed.

Lemma update_members_none P role g now d d' :
  update_members P role g now d = Some (0, d') -> d' = d.
Proof.
  unfold update_members. destruct (_ && _); [|done]. intros [= Hn <-].
  rewrite update_where_none by done. by destruct d.
Qed.

(** A transfer that succeeds: nothing to do, or the demotion, then the promotion
    of a member or a new owner's row, then the audit. *)
Definition promoted (e u g now : string) (d d' : Database) : Prop :=
  (exists n, n <> 0 /\ update_members (member_of e u) "owner" g now d = Some (n, d')) \/
  (count (fun _ => member_of e u) d.(event_memberships) = 0 /\
   exists id, insert_membership id (membership_row e u "owner" g now) d = Some d').

Lemma promote_ok e u g now w x w' :
  promote e u g now w = (Ok x, w') -> promoted e u g now w.(w_db) w'.(w_db).
Proof.
  unfold promote. intros Hr. apply bind_ok in Hr as (n & w1 & Hu%update_members_tx & Hr).
  destruct (Z.eqb_spec n 0) as [->|Hn]; [|injection Hr as _ <-; left; eauto].
  right. pose proof (update_members_none _ _ _ _ _ _ Hu) as Hd. unfold update_members in Hu.
  destruct (_ && _); [|done]. injection Hu as Hc _. split; [done|]. run_ok.
  eexists. rewrite <- Hd. match goal with Hw : w_db _ = w_db w1 |- _ => rewrite <- Hw; eassumption end.
Qed.

Lemma move_ownership_ok e u admin t w x w' :
  move_ownership e u admin t w = (Ok x, w') ->
  exists old r k m,
    w.(w_db).(users) !! u = Some r /\ r.(u_status) = UserStatusActive /\
    w.(w_db).(event_memberships) !! k = Some m /\ owner_of e m = true /\ m.(em_user_id) = old /\
    ((old = u /\ w'.(w_db) = w.(w_db)) \/
     old <> u /\ exists n d w1,
       let g := admin.(user_ID) in let now := format_rfc3339 t in
       update_members (fun m => member_of e old m && owner_of e m) "cohost" g now w.(w_db) = Some (n, d) /\
       promoted e u g now d w1.(w_db) /\
       Instance.InsertAuditTx (Some g) "user" "event_ownership_transferred" (Some u) (Some e)
         [("fromUserId", old); ("toUserId", u)] t w1 = (Ok x, w')).
Proof.
  unfold move_ownership. intros Hr. apply bind_ok in Hr as (o & w1 & Ho & Hr).
  destruct o as [v|]; [|done]. apply findOrganizerByID_ok in Ho as (Hw1 & r & Hu & Hv).
  apply user_of_row_ok in Hv as (_ & Hst & _).
  apply bind_ok in Hr as (? & w2 & Hact & Hr). apply require_ok in Hact as [Hact%bool_decide_eq_true <-].
  apply bind_ok in Hr as (old & w2 & Hc & Hr). unfold current_owner in Hc.
  apply bind_ok in Hc as (o & w3 & Hq1 & Hc). apply of_option_ok in Hc as [-> ->].
  apply query_ok in Hq1 as (Hrow & Hw3 & _).
  destruct (select_row _ _) as [[k m]|] eqn:Es; [|done]. injection Hrow as ->.
  apply select_row_Some in Es as [Hk Hm]. rewrite Hw1 in *. exists (em_user_id m), r, k, m.
  split_and!; try congruence.
  destruct (bool_decide_reflect (em_user_id m = u)) as [Heq|Hne]; [left; injection Hr as _ <-; split; congruence|].
  right. split; [done|]. apply bind_ok in Hr as (n & w4 & Hd%update_members_tx & Hr).
  apply bind_ok in Hr as ([] & w5 & Hp%promote_ok & Hr). exists n, (w_db w4), w5. simpl.
  split_and!; [congruence|done|done].
Qed.

(** The two statements of a transfer are one step, and the audit another. *)
Lemma move_ownership_steps e u admin t : ok_respects (acc_steps St) (move_ownership e u admin t).
Proof.
  intros w x w' Hr.
  apply move_ownership_ok in Hr as (old & r & k & m & _ & _ & _ & _ & _ & [[_ ->]|(_ & n & d & w1 & Hd & Hp & Ha)]);
    [done|].
  pose proof (Instance_InsertAudit_steps St (Some admin.(user_ID)) "user" "event_ownership_transferred"
    (Some u) (Some e) [("fromUserId", old); ("toUserId", u)] t w1) as Hs. rewrite Ha in Hs.
  etrans; [|exact Hs]. apply acc_once.
  assert (forall m, (member_of e old m && owner_of e m) = true -> m.(em_event_id) = e) as HP.
  { unfold member_of. intros y. rewrite !andb_true_iff. intros [[?%bool_decide_eq_true _] _]. done. }
  destruct Hp as [(n2 & Hn & Hu)|(_ & id & Hi)].
  - eapply STransfer; [exact HP|exact Hd|exact Hu|exact Hn].
  - eapply STransferNew; [exact HP|exact Hd|exact Hi|done|done].
Qed.
Lemma TransferOwnership_steps actor e u : respects (acc_steps St) (TransferOwnership actor e u).
Proof.
  unfold TransferOwnership, beginAuthorized.
  destruct actor as [a|]; [|by apply respects_fail, acc_steps_preorder].
  apply respects_with_tx; [apply _|]. apply ok_respects_bind; [apply _| |].
  - apply respects_ok, reads_steps, authorize_reads.
  - intros p. apply move_ownership_steps.
Qed.
Lemma AddSelf_steps actor e : respects (acc_steps St) (AddSelf actor e).
Proof.
  unfold AddSelf, beginAuthorized, join_event, membership_role.
  destruct actor; respect; [apply reads_steps, authorize_reads|]. intros Hr. by eapply acc_once, SMember.
Qed.
Lemma run_op_steps op : respects (acc_steps St) (run_op op).
Proof.
  eapply respects_weaken; [|apply run_op_evolves]. intros d d' He. apply quiet_steps.
  split; apply He.
Qed.

Lemma PromoteAdmin_steps email : respects (acc_steps St) (PromoteAdmin email).
Proof.
  unfold PromoteAdmin, promote_tx. respect. intros [= <-]. reflexivity.
Qed.

End accounts.

Section runs.
Context `{E : Env, HttpEnv} (s : Services) (Hq : quiet_services s).

(** Every request but these two is a sequence of steps. *)
Definition plain (op : account_op) : bool :=
  match op with ORequestLink _ | ODeleteAccount _ => false | _ => true end.
Lemma run_account_steps op w :
  plain op = true -> acc_steps (change_of op w.(w_db)) w.(w_db) (run_account s op w).2.(w_db).
Proof.
  destruct Hq as [_ Hs]. pose proof (qs_events _ Hs) as He.
  destruct op; simpl; intros Hp; try done; try (match goal with
    |- acc_steps ?St _ (?m w).2.(w_db) => assert (respects (acc_steps St) m) as Hm; [|apply Hm] end;
    respect;
    first
      [ apply VerifyMagicLink_steps | apply ValidateSession_steps | apply Logout_steps
      | by apply InviteUser_steps | by apply InviteCohost_steps | apply AcceptInvite_steps
      | apply RevokeInvite_steps | apply Bootstrap_steps | apply SetUserStatus_steps
      | apply SetUserRole_steps | apply UpdateSettings_steps | apply Update_steps
      | by apply Publish_steps | by apply Cancel_steps | by apply Reopen_steps
      | by apply Event_Delete_steps | by apply Event_Create_steps | by apply Duplicate_steps
      | apply RemoveCoHost_steps | by apply CreateSeries_steps | by apply GenerateForAll_steps
      | apply UpdateSeries_steps | apply DeleteSeries_steps | apply AddSelf_steps
      | apply TransferOwnership_steps | apply PromoteAdmin_steps | apply run_op_steps ]).
  apply then_respects; [|intros ?; respect]. apply StopSeries_steps; [done|].
  intros k r0 r Hk Hr Hn. simpl. eauto.
Qed.

Lemma run_account_moves op w :
  acc_moves (deletion_of op) (change_of op w.(w_db)) w.(w_db) (run_account s op w).2.(w_db).
Proof.
  destruct (plain op) eqn:Hp; [by apply acc_steps_moves, run_account_steps|].
  destruct op; try done; [by apply RequestMagicLink_moves|apply DeleteAccount_moves].
Qed.

Lemma run_accounts_rel R `{!PreOrder R} ops w :
  (forall op w, op ∈ ops -> R w.(w_db) (run_account s op w).2.(w_db)) ->
  R w.(w_db) (run_accounts s ops w).(w_db).
Proof.
  revert w. induction ops as [|op ops IH]; intros w Hop; simpl; [done|].
  etrans; [apply Hop; constructor|apply IH]. intros op' w' Hin. apply Hop. by constructor.
Qed.
(** Whatever a run does to events, over the accounts [Del] deleted in it. *)
Lemma run_accounts_moves (Del : string -> Prop) ops w :
  (forall u, ODeleteAccount u ∈ ops -> Del u) ->
  acc_moves Del any_change w.(w_db) (run_accounts s ops w).(w_db).
Proof.
  intros Hd. apply (run_accounts_rel (acc_moves Del any_change)). intros op w' Hin.
  eapply acc_moves_mono; [|done|apply run_account_moves]. intros u ->. auto.
Qed.
End runs.
