(* ===== verification/AccountFacts.v ===== *)
(** * Invariants and history of identities, memberships and events

    Proved by induction on the steps of [AccountSteps], so they hold over any
    requests to the services, with any driver faults. *)

From S2P Require Import Prelude.
From S2P Require Import GoStr.
From S2P Require Import GoTime.
From S2P Require Import Schema.
From S2P Require Import Eff.
From S2P Require Import Http.
From S2P Require Import Respect.
From S2P Require Import Demo.
From S2P Require Import Tables.
From S2P Require Import History.
From S2P Require Import System.
From S2P Require Import Auth.
From S2P Require Import UserAdmin.
From S2P Require Import Event.
From S2P Require Import EventHandler.
From S2P Require Import Series.
From S2P Require Import Instance.
From S2P Require Import EventAdmin.
From S2P Require Import AccountDelete.
From S2P Require Import AccountSteps.
From S2P Require Import EventSteps.
From S2P Require Import AccountSystem.

Local Open Scope Z_scope.

(** ** What later states keep *)

Definition user_le (r r' : UserRow) : Prop :=
  r'.(u_email) = r.(u_email) /\ r'.(u_norm_email) = r.(u_norm_email) /\
  r'.(u_invited_by) = r.(u_invited_by).
Definition link_le (r r' : MagicLinkRow) : Prop :=
  r'.(ml_token_hash) = r.(ml_token_hash) /\ r'.(ml_user_id) = r.(ml_user_id) /\
  r'.(ml_expires_at) = r.(ml_expires_at) /\
  (r.(ml_used_at) <> None -> r'.(ml_used_at) = r.(ml_used_at)).
Definition invite_le (r r' : AccountInviteRow) : Prop :=
  r'.(ai_token_hash) = r.(ai_token_hash) /\ r'.(ai_target) = r.(ai_target) /\
  r'.(ai_invited_by) = r.(ai_invited_by) /\ r'.(ai_event_id) = r.(ai_event_id) /\
  r'.(ai_event_role) = r.(ai_event_role) /\ r'.(ai_expires_at) = r.(ai_expires_at) /\
  (pending r = false ->
     r'.(ai_accepted_at) = r.(ai_accepted_at) /\ r'.(ai_revoked_at) = r.(ai_revoked_at)).
Definition instance_le (r r' : InstanceRow) : Prop :=
  r.(in_setup_completed_at) <> None -> r'.(in_setup_completed_at) = r.(in_setup_completed_at).

#[global] Instance user_le_preorder : PreOrder user_le.
Proof. split; [by intros ?|]. unfold user_le. intros ??? ??. by trans_rows. Qed.
#[global] Instance link_le_preorder : PreOrder link_le.
Proof. split; [by intros ?|]. unfold link_le. intros ??? ??. by trans_rows. Qed.
#[global] Instance invite_le_preorder : PreOrder invite_le.
Proof.
  split; [by intros ?|]. unfold invite_le, pending. intros x y z ??. destruct_and!.
  split_and!; try congruence. intros Hp.
  match goal with H : _ -> ai_accepted_at y = _ /\ _ |- _ => destruct (H Hp) as [Ha Hr] end.
  rewrite <- Ha, <- Hr in *. auto.
Qed.
#[global] Instance instance_le_preorder : PreOrder instance_le.
Proof.
  split; [by intros ?|]. unfold instance_le. intros x y z Hxy Hyz Hx.
  rewrite <- (Hxy Hx). apply Hyz. by rewrite (Hxy Hx).
Qed.

Record acc_evolves (d d' : Database) : Prop := {
  ae_users : table_le user_le d.(users) d'.(users);
  ae_links : table_le link_le d.(magic_links) d'.(magic_links);
  ae_invites : table_le invite_le d.(account_invites) d'.(account_invites);
  ae_audit : table_le eq d.(admin_audit_log) d'.(admin_audit_log);
  ae_instances : table_le instance_le d.(instances) d'.(instances) }.

#[global] Instance acc_evolves_preorder : PreOrder acc_evolves.
Proof. split; [by intros ?|]. intros ??? [] []. split; by etrans. Qed.

Lemma quiet_evolves d d' : quiet d d' -> acc_evolves d d'.
Proof.
  intros [Ha He]. unfold accounts in Ha. simplify_eq.
  split; repeat match goal with H : _ = _ |- _ => rewrite H; clear H end; reflexivity.
Qed.

(** A table an INSERT or an UPDATE leaves alone, extends or changes. *)
Ltac kept_table :=
  first [ reflexivity
        | apply table_le_insert_new; [apply _|by apply has_false]
        | eapply table_le_insert_old; [apply _|eassumption|]
        | eapply table_le_update_where; [apply _|intros ? ? ? ?] ].

Lemma insert_event_evolves id r d d' : insert_event id r d = Some d' -> acc_evolves d d'.
Proof. unfold insert_event. intros H. insert_cases H. split; simpl; kept_table. Qed.
Lemma insert_membership_evolves id r d d' : insert_membership id r d = Some d' -> acc_evolves d d'.
Proof. unfold insert_membership. intros H. insert_cases H. split; simpl; kept_table. Qed.

Lemma update_members_ok P role g now d n d' :
  update_members P role g now d = Some (n, d') ->
  n = count (fun _ => P) d.(event_memberships) /\
  d' = set_event_memberships (fun _ => update_where (fun _ => P) (regrant_row role g now)
         d.(event_memberships)) d /\
  one_owner_index d'.(event_memberships) = true.
Proof.
  unfold update_members. destruct (_ && _) eqn:Eb; [|done]. intros [= <- <-].
  by apply andb_true_iff in Eb as [_ Eb].
Qed.
Lemma update_members_evolves P role g now d n d' :
  update_members P role g now d = Some (n, d') -> acc_evolves d d'.
Proof. intros (_ & -> & _)%update_members_ok. split; simpl; kept_table. Qed.

Lemma acc_step_evolves St d d' : acc_step St d d' -> acc_evolves d d'.
Proof.
  destruct 1;
    try (match goal with
      H : ?f _ _ _ = Some _ |- _ => unfold f in H; insert_cases H; split; simpl; kept_table end).
  - by apply quiet_evolves.
  - split; simpl; kept_table. unfold user_le. unfold same_identity in *. intuition.
  - split; simpl; kept_table. split_and!; try done. unfold live_link in *. split_guards.
    intros Hn. simpl. by match goal with H : is_null _ = true |- _ => apply bool_decide_eq_true in H end.
  - split; simpl; kept_table.
  - split; simpl; kept_table.
  - split; simpl; kept_table. split_and!; try done. unfold live_invite in *. split_guards.
    intros Hn. congruence.
  - split; simpl; kept_table. split_and!; try done. intros Hn. congruence.
  - split; simpl; kept_table. split_and!; try done. intros Hn.
    match goal with H : forall k r, _ -> pending r = true |- _ => rewrite (H _ _ ltac:(eassumption)) in Hn end.
    done.
  - split; simpl; kept_table.
  - split; simpl; kept_table. by intros _.
  - split; simpl; kept_table. by intros Hn.
  - etrans; [by eapply insert_event_evolves|by eapply insert_membership_evolves].
  - split; simpl; kept_table.
  - split; simpl; kept_table.
  - split; simpl; kept_table.
  - etrans; eapply update_members_evolves; eassumption.
  - etrans; [by eapply update_members_evolves|by eapply insert_membership_evolves].
Qed.
Lemma insert_link_evolves id r d d' : insert_magic_link id r d = Some d' -> acc_evolves d d'.
Proof. unfold insert_magic_link. intros H. insert_cases H. split; simpl; kept_table. Qed.
Lemma acc_steps_evolve St d d' : acc_steps St d d' -> acc_evolves d d'.
Proof. apply rtc_rel; [apply _|apply acc_step_evolves]. Qed.
(** Moves that delete no account. *)
Lemma acc_moves_evolve Del St d d' : (forall u, ~ Del u) -> acc_moves Del St d d' -> acc_evolves d d'.
Proof.
  intros Hd. apply rtc_rel; [apply _|]. intros x y [y' H|id r y' H|u y' Hu _].
  - by eapply acc_step_evolves.
  - by eapply insert_link_evolves.
  - by destruct (Hd u).
Qed.
(** Steps store no link and keep the mark of use. *)
Lemma acc_step_links St d d' :
  acc_step St d d' -> from_old link_le d.(magic_links) d'.(magic_links).
Proof.
  assert (forall d', magic_links d' = magic_links d -> from_old link_le d.(magic_links) d'.(magic_links)) as Hsame
    by (intros d0 -> k r Hk; by exists r).
  destruct 1; try (by apply Hsame);
    try (match goal with
      H : ?f _ _ _ = Some _ |- _ => unfold f in H; insert_cases H; by apply Hsame end).
  - destruct H as [Ha _]. unfold accounts in Ha. simplify_eq. by apply Hsame.
  - simpl. eapply from_old_insert; [apply _|eassumption|]. split_and!; try done. unfold live_link in *. split_guards.
    intros Hn. simpl. by match goal with H : is_null _ = true |- _ => apply bool_decide_eq_true in H end.
  - unfold insert_event in H. insert_cases H. unfold insert_membership in H0. insert_cases H0. by apply Hsame.
  - apply update_members_ok in H0 as (_ & -> & _), H1 as (_ & -> & _). by apply Hsame.
  - apply update_members_ok in H0 as (_ & -> & _). unfold insert_membership in H1. insert_cases H1. by apply Hsame.
Qed.
(** The deletion of an account does not reach the instance. *)
Lemma acc_moves_instances Del St d d' :
  acc_moves Del St d d' -> table_le instance_le d.(instances) d'.(instances).
Proof.
  set (R := fun d d' : Database => table_le instance_le d.(instances) d'.(instances)).
  assert (PreOrder R) by (split; [intros ?; unfold R; reflexivity|intros x y z Hxy Hyz; unfold R in *; by etrans]).
  apply (rtc_rel _ R). intros x y [y' Hm|id r y' Hm|u y' _ Hm]; unfold R.
  - by destruct (acc_step_evolves _ _ _ Hm).
  - by destruct (insert_link_evolves _ _ _ _ Hm).
  - by rewrite (dl_instances _ _ _ (deletion_shape _ _ _ Hm)).
Qed.

(** ** The invariant *)

Definition member_key (m : MembershipRow) : string * string := (m.(em_event_id), m.(em_user_id)).
Definition is_owner_row (m : MembershipRow) : Prop := m.(em_role) = "owner".

(** Unique keys, resolved references, valid columns, and one owner per event. *)
Record AccountsSound (d : Database) : Prop := {
  as_emails : uniq u_norm_email d.(users);
  as_users : forall id r, d.(users) !! id = Some r -> user_check r = true;
  as_links : uniq ml_token_hash d.(magic_links);
  as_link_user : refs ml_user_id d.(magic_links) d.(users);
  as_logins : uniq us_token_hash d.(sessions);
  as_login_user : refs us_user_id d.(sessions) d.(users);
  as_invites : uniq ai_token_hash d.(account_invites);
  as_invite_user : refs ai_target d.(account_invites) d.(users);
  as_members : uniq member_key d.(event_memberships);
  as_member_event : refs em_event_id d.(event_memberships) d.(events);
  as_member_user : refs em_user_id d.(event_memberships) d.(users);
  as_roles : forall k m, d.(event_memberships) !! k = Some m -> one_of m.(em_role) ["owner"; "cohost"] = true;
  as_one_owner : forall k m k' m',
    d.(event_memberships) !! k = Some m -> d.(event_memberships) !! k' = Some m' ->
    is_owner_row m -> is_owner_row m' -> m.(em_event_id) = m'.(em_event_id) -> k = k';
  as_owner : forall id, is_Some (d.(events) !! id) ->
    exists k m, d.(event_memberships) !! k = Some m /\ m.(em_event_id) = id /\ is_owner_row m;
  as_status : forall id r, d.(events) !! id = Some r -> valid_event_status r.(e_status) = true;
  as_series_owner : refs sr_owner d.(event_series) d.(users) }.

Lemma quiet_sound d d' : quiet d d' -> keeps AccountsSound d d'.
Proof.
  intros [Ha He] []. unfold accounts in Ha. simplify_eq.
  split; repeat match goal with H : _ = _ :> gmap _ _ |- _ => rewrite H; clear H end; assumption.
Qed.

(** Columns of all rows. *)
Lemma all_insert {R} (P : R -> Prop) (t : gmap string R) k r :
  P r -> (forall k r, t !! k = Some r -> P r) -> forall k' r', <[k := r]> t !! k' = Some r' -> P r'.
Proof. intros Hr Ht k' r'. rewrite lookup_insert_Some. intros [[<- <-]|[_ H]]; eauto. Qed.
Lemma all_update_where {R} (P : R -> Prop) Q f (t : gmap string R) :
  (forall r, P r -> P (f r)) -> (forall k r, t !! k = Some r -> P r) ->
  forall k r, update_where Q f t !! k = Some r -> P r.
Proof.
  intros Hf Ht k r. rewrite lookup_update_where. destruct (t !! k) eqn:E; [|done].
  simpl. intros [= <-]. case_match; eauto.
Qed.

Lemma from_old_delete {R} P `{!PreOrder P} k (t : gmap string R) : from_old P t (delete k t).
Proof. intros k' r. rewrite lookup_delete_Some. intros [_ H]. by exists r. Qed.

(** The table a statement changed, against each clause of the invariant. *)
Ltac sound1 :=
  first
    [ assumption
    | apply uniq_insert; assumption
    | apply refs_insert; assumption
    | apply all_insert; assumption
    | eapply refs_grow; [intros ?; apply insert_grow|eassumption]
    | eapply refs_grow; [intros ?; apply update_where_grow|eassumption]
    | eapply uniq_from_old; [|eassumption];
      first [ eapply from_old_insert; [apply _|eassumption|done]
            | apply from_old_update_where; [apply _|done]
            | apply from_old_delete_where; apply _ | apply from_old_delete; apply _ ]
    | eapply refs_from_old; [|eassumption];
      first [ eapply from_old_insert; [apply _|eassumption|done]
            | apply from_old_update_where; [apply _|done]
            | apply from_old_delete_where; apply _ | apply from_old_delete; apply _ ] ].
Ltac sound := let H := fresh in intros H; pose proof H as []; split; simpl in *; try sound1.

Lemma insert_user_sound id r d d' : insert_user id r d = Some d' -> keeps AccountsSound d d'.
Proof. unfold insert_user. intros H. insert_cases H. sound. Qed.
Lemma insert_link_sound id r d d' : insert_magic_link id r d = Some d' -> keeps AccountsSound d d'.
Proof. unfold insert_magic_link. intros H. insert_cases H. sound. Qed.
Lemma insert_login_sound id r d d' : insert_user_session id r d = Some d' -> keeps AccountsSound d d'.
Proof. unfold insert_user_session. intros H. insert_cases H. sound. Qed.
Lemma insert_invite_sound id r d d' : insert_account_invite id r d = Some d' -> keeps AccountsSound d d'.
Proof. unfold insert_account_invite. intros H. insert_cases H. sound. Qed.
Lemma insert_audit_sound id r d d' : insert_audit id r d = Some d' -> keeps AccountsSound d d'.
Proof. unfold insert_audit. intros H. insert_cases H. sound. Qed.
Lemma insert_series_sound id r d d' : insert_series id r d = Some d' -> keeps AccountsSound d d'.
Proof. unfold insert_series. intros H. insert_cases H. sound. Qed.

(** The index as the clause of the invariant says it. *)
Definition one_owner (t : gmap string MembershipRow) : Prop :=
  forall k m k' m', t !! k = Some m -> t !! k' = Some m' ->
    is_owner_row m -> is_owner_row m' -> m.(em_event_id) = m'.(em_event_id) -> k = k'.
Lemma one_owner_index_ok t : one_owner_index t = true -> one_owner t.
Proof.
  unfold one_owner_index. rewrite forallb_forall. intros H k m k' m' Hk Hk' Ho Ho' He.
  assert (Hin : In (k, m) (map_to_list t)) by (by apply list_elem_of_In, elem_of_map_to_list).
  specialize (H _ Hin). simpl in H. rewrite bool_decide_eq_true_2 in H by done.
  apply Z.eqb_eq in H. destruct (decide (k = k')) as [|Hne]; [done|].
  assert ((k, m) ∈ select (fun _ => owner_of (em_event_id m)) t /\
          (k', m') ∈ select (fun _ => owner_of (em_event_id m)) t) as [H1 H2].
  { rewrite !elem_of_select. unfold owner_of, is_owner_row in *.
    rewrite !bool_decide_eq_true_2 by congruence. done. }
  unfold count in H. destruct (select _ t) as [|x [|]]; simpl in H; try lia.
  apply list_elem_of_singleton in H1, H2. congruence.
Qed.
Lemma one_owner_insert id m t :
  (m.(em_role) = "owner" -> forall k x, t !! k = Some x -> is_owner_row x ->
     x.(em_event_id) <> m.(em_event_id)) ->
  one_owner t -> one_owner (<[id := m]> t).
Proof.
  intros Hn Ht k1 m1 k2 m2. rewrite !lookup_insert_Some.
  intros [[<- <-]|[_ K1]] [[<- <-]|[_ K2]] Ho1 Ho2 He; [done| | |by eapply Ht].
  - by destruct (Hn Ho1 _ _ K2 Ho2).
  - by destruct (Hn Ho2 _ _ K1 Ho1).
Qed.
(** What a table of memberships must be, the owners aside, in a database whose
    other tables are those of [d]. *)
Record members_ok (d : Database) (t : gmap string MembershipRow) : Prop := {
  mo_key : uniq member_key t;
  mo_event : refs em_event_id t d.(events);
  mo_user : refs em_user_id t d.(users);
  mo_roles : forall k m, t !! k = Some m -> one_of m.(em_role) ["owner"; "cohost"] = true;
  mo_one : one_owner t }.
Definition owned (d : Database) (t : gmap string MembershipRow) (e : string) : Prop :=
  is_Some (d.(events) !! e) -> exists k m, t !! k = Some m /\ m.(em_event_id) = e /\ is_owner_row m.

Lemma sound_members d : AccountsSound d -> members_ok d d.(event_memberships).
Proof. intros []. by split. Qed.
Lemma sound_with_members d t :
  AccountsSound d -> members_ok d t -> (forall e, owned d t e) ->
  AccountsSound (set_event_memberships (fun _ => t) d).
Proof. intros [] [] Ho. by split. Qed.

Lemma members_ok_insert d t id m d' :
  insert_membership id m (set_event_memberships (fun _ => t) d) = Some d' -> members_ok d t ->
  d' = set_event_memberships (fun _ => <[id := m]> t) d /\ t !! id = None /\
  members_ok d (<[id := m]> t).
Proof.
  unfold insert_membership. intros H []. insert_cases H. simpl in *.
  split_and!; [done|by apply has_false|]. split; try sound1.
  apply one_owner_insert; [|done]. intros Hm k x Hk Hx He.
  match goal with H : _ || _ = true |- _ => rename H into Ho end.
  apply orb_true_iff in Ho as [Hf%negb_true_iff%bool_decide_eq_false|Hu]; [done|].
  rewrite unique_spec in Hu. apply (Hu _ _ Hk). unfold is_owner_row in Hx. congruence.
Qed.
Lemma members_ok_update d t P role g now n d' :
  (role = "owner" \/ role = "cohost") ->
  update_members P role g now (set_event_memberships (fun _ => t) d) = Some (n, d') -> members_ok d t ->
  d' = set_event_memberships (fun _ => update_where (fun _ => P) (regrant_row role g now) t) d /\
  members_ok d (update_where (fun _ => P) (regrant_row role g now) t).
Proof.
  intros Hr (_ & -> & Hi%one_owner_index_ok)%update_members_ok []. simpl in *. split; [done|].
  split; try sound1. apply all_update_where; [|done]. intros m _. by destruct Hr as [->| ->].
Qed.

Lemma owned_insert d t id m e : t !! id = None -> owned d t e -> owned d (<[id := m]> t) e.
Proof.
  intros Hn Ho He. destruct (Ho He) as (k & x & Hk & Hx). exists k, x. split; [|done].
  rewrite lookup_insert_ne; [done|]. congruence.
Qed.
Lemma owned_update d t P role g now e :
  (role = "owner" \/ forall m, P m = true -> m.(em_event_id) <> e) -> owned d t e ->
  owned d (update_where (fun _ => P) (regrant_row role g now) t) e.
Proof.
  intros HP Ho He. destruct (Ho He) as (k & x & Hk & Hx & Hr). eexists k, _.
  rewrite lookup_update_where, Hk. split; [done|]. destruct (P x) eqn:E; [|done].
  destruct HP as [->|HP]; [done|by destruct (HP _ E)].
Qed.

Lemma set_same_members d : set_event_memberships (fun _ => d.(event_memberships)) d = d.
Proof. by destruct d. Qed.

(** A new member: of the clauses on owners, the one of uniqueness reads the
    partial index. *)
Lemma insert_membership_sound id m d d' :
  insert_membership id m d = Some d' -> keeps AccountsSound d d'.
Proof.
  intros H Hs. rewrite <- (set_same_members d) in H.
  destruct (members_ok_insert _ _ _ _ _ H (sound_members _ Hs)) as (-> & Hn & Hm).
  apply sound_with_members; [done..|]. intros e. apply owned_insert; [done|]. by intros ?; apply as_owner.
Qed.

(** Handing an event over: between the two statements the event has no owner,
    the others keep theirs. *)
Lemma demoted_members P e g now d n d1 :
  (forall m, P m = true -> m.(em_event_id) = e) -> AccountsSound d ->
  update_members P "cohost" g now d = Some (n, d1) ->
  exists t, d1 = set_event_memberships (fun _ => t) d /\ members_ok d t /\
    forall e', e' <> e -> owned d t e'.
Proof.
  intros HP Hs H. rewrite <- (set_same_members d) in H.
  destruct (members_ok_update _ _ _ _ _ _ _ _ (or_intror eq_refl) H (sound_members _ Hs)) as (-> & Hm).
  eexists. split_and!; [done|done|]. intros e' Hn. apply owned_update; [|by intros ?; apply as_owner].
  right. intros m Hm' He. apply Hn. rewrite <- He. by apply HP.
Qed.
Lemma transfer_sound e P new g now n1 n2 d d1 d2 :
  (forall m, P m = true -> m.(em_event_id) = e) ->
  update_members P "cohost" g now d = Some (n1, d1) ->
  update_members (member_of e new) "owner" g now d1 = Some (n2, d2) -> n2 <> 0 ->
  keeps AccountsSound d d2.
Proof.
  intros HP H1 H2 Hn Hs. destruct (demoted_members _ _ _ _ _ _ _ HP Hs H1) as (t & -> & Ht & Hoth).
  pose proof (update_members_ok _ _ _ _ _ _ _ H2) as (Hc & _).
  destruct (members_ok_update _ _ _ _ _ _ _ _ (or_introl eq_refl) H2 Ht) as (-> & Hm).
  apply sound_with_members; [done..|]. intros e'. destruct (decide (e' = e)) as [->|He].
  - intros _. simpl in Hc. unfold count in Hc.
    destruct (select (fun _ => member_of e new) t) as [|[k m] l] eqn:Es; [by simpl in Hc|].
    assert ((k, m) ∈ select (fun _ => member_of e new) t) as [Hk Hmem]%elem_of_select
      by (rewrite Es; left).
    eexists k, _. rewrite lookup_update_where, Hk. simpl. rewrite Hmem. split; [done|]. split; [|done].
    simpl. by apply andb_true_iff in Hmem as [?%bool_decide_eq_true _].
  - apply owned_update; [by left|auto].
Qed.
Lemma transfer_new_sound e P g now n1 d1 id m d d2 :
  (forall m, P m = true -> m.(em_event_id) = e) ->
  update_members P "cohost" g now d = Some (n1, d1) ->
  insert_membership id m d1 = Some d2 -> m.(em_event_id) = e -> m.(em_role) = "owner" ->
  keeps AccountsSound d d2.
Proof.
  intros HP H1 H2 <- Ho Hs. destruct (demoted_members _ _ _ _ _ _ _ HP Hs H1) as (t & -> & Ht & Hoth).
  destruct (members_ok_insert _ _ _ _ _ H2 Ht) as (-> & Hn & Hm).
  apply sound_with_members; [done..|]. intros e'. destruct (decide (e' = em_event_id m)) as [->|He].
  - intros _. exists id, m. by rewrite lookup_insert_eq.
  - apply owned_insert; [done|auto].
Qed.

(** An event with its owner: between the two statements the event has none. *)
Lemma create_event_sound id r mid m d d1 d2 :
  insert_event id r d = Some d1 -> insert_membership mid m d1 = Some d2 ->
  m.(em_event_id) = id -> m.(em_role) = "owner" -> keeps AccountsSound d d2.
Proof.
  unfold insert_event. intros H Hm <- Ho Hs. insert_cases H. pose proof Hs as [].
  unfold insert_membership in Hm. insert_cases Hm. simpl in *.
  assert (Hnew : events d !! em_event_id m = None) by (by apply has_false).
  assert (Hnone : forall k x, event_memberships d !! k = Some x -> em_event_id x <> em_event_id m).
  { intros k x Hk Hx. destruct (as_member_event0 _ _ Hk) as [y Hy]. rewrite Hx in Hy. congruence. }
  split; simpl; try sound1.
  - apply refs_insert; [done|]. eapply refs_grow; [intros ?; apply insert_grow|done].
  - apply one_owner_insert; [|done]. intros _ k x Hk _. by eapply Hnone.
  - intros e. destruct (decide (e = em_event_id m)) as [->|Hn].
    + intros _. exists mid, m. by rewrite lookup_insert_eq.
    + rewrite lookup_insert_ne by done. intros Hi. destruct (as_owner0 _ Hi) as (k & x & Hk & Hx).
      exists k, x. split; [|done]. rewrite lookup_insert_ne; [done|]. intros ->.
      match goal with H : negb (has k _) = true |- _ => apply has_false in H; congruence end.
Qed.

Lemma acc_step_sound St d d' : acc_step St d d' -> keeps AccountsSound d d'.
Proof.
  destruct 1.
  - by apply quiet_sound.
  - by eapply insert_user_sound.
  - match goal with H : same_identity _ _ |- _ => destruct H as (He & Hn & Hi & Hc) end.
    sound. apply all_insert; [eauto|done].
  - sound.
  - by eapply insert_login_sound.
  - sound.
  - sound.
  - by eapply insert_invite_sound.
  - sound.
  - sound.
  - sound.
  - by eapply insert_membership_sound.
  - sound.
    + intros k m [Hk _]%lookup_delete_where. eauto.
    + intros k m k' m' [Hk _]%lookup_delete_where [Hk' _]%lookup_delete_where. eauto.
    + intros e He. destruct (as_owner0 _ He) as (k & m & Hk & Hm & Ho). exists k, m.
      split; [|done]. apply lookup_delete_where. split; [done|].
      destruct (P k m) eqn:EP; [|done]. unfold is_owner_row in Ho.
      match goal with H : forall k r, P k r = true -> _ |- _ => specialize (H _ _ EP); congruence end.
  - by eapply insert_audit_sound.
  - sound.
  - sound.
  - by eapply create_event_sound.
  - sound.
    intros e. rewrite lookup_insert_is_Some. intros [->|[_ He]]; eauto.
  - by eapply insert_series_sound.
  - sound.
  - unfold delete_series. sound.
    + intros e [r Hr]. rewrite lookup_update_where in Hr. destruct (events d !! e) eqn:Ee; [|done].
      by apply as_owner0.
    + apply all_update_where; [done|]. eauto.
  - by eapply transfer_sound.
  - by eapply transfer_new_sound.
Qed.
Lemma acc_steps_sound St d d' : acc_steps St d d' -> AccountsSound d -> AccountsSound d'.
Proof. apply (rtc_rel _ (keeps AccountsSound)), acc_step_sound. Qed.

(** A deletion keeps every clause: who is left keeps the owner of her event, since
    the events of the user go with her. *)
Lemma kept_user_of d u d1 k r :
  shape u d d1 -> k <> u -> d.(users) !! k = Some r -> is_Some (d1.(users) !! k).
Proof. intros Hsh Hn Hk. rewrite (dl_users _ _ _ Hsh). eexists. apply kept_user. eauto. Qed.
Lemma kept_members d u d1 k m :
  shape u d d1 -> d1.(event_memberships) !! k = Some m ->
  m.(em_user_id) <> u /\ owns u d m.(em_event_id) = false /\
  exists m0 by_, d.(event_memberships) !! k = Some m0 /\ m = granted_row by_ m0.
Proof.
  intros Hsh. rewrite (dl_members _ _ _ Hsh). intros [Hk [r [Hn _]%kept_user]]%lookup_cascade.
  unfold regranted, update_where in Hk. rewrite map_lookup_imap in Hk. simpl in Hk.
  destruct (cascade em_event_id _ _ !! k) as [m0|] eqn:E0; [|done]. simpl in Hk.
  apply lookup_cascade in E0 as [H0 [ev [_ Hev]%kept_event]].
  assert (exists b, m = granted_row b m0) as [b ->].
  { injection Hk as <-. case_match; [by eexists|]. exists m0.(em_granted_by). by destruct m0. }
  split_and!; [done|done|]. eauto.
Qed.
Lemma keeps_member d u d1 k m :
  shape u d d1 -> AccountsSound d -> d.(event_memberships) !! k = Some m ->
  m.(em_user_id) <> u -> owns u d m.(em_event_id) = false ->
  exists by_, d1.(event_memberships) !! k = Some (granted_row by_ m).
Proof.
  intros Hsh Hs Hk Hn Ho.
  destruct (as_member_event _ Hs _ _ Hk) as [ev Hev]. destruct (as_member_user _ Hs _ _ Hk) as [us Hus].
  assert (cascade em_event_id (kept_events u d) d.(event_memberships) !! k = Some m) as Hc.
  { apply lookup_cascade. split; [done|]. exists ev. by apply kept_event. }
  assert (exists b, regranted u (set_event_memberships (cascade em_event_id (kept_events u d)) d) !! k
                    = Some (granted_row b m)) as [b Hb].
  { unfold regranted, update_where. rewrite map_lookup_imap. simpl. rewrite Hc. simpl.
    case_match; [by eexists|]. exists m.(em_granted_by). by destruct m. }
  exists b. rewrite (dl_members _ _ _ Hsh). apply lookup_cascade. split; [done|].
  eexists. apply kept_user. eauto.
Qed.
Lemma fmap_Some_swap {A B} (f : A -> B) o b : f <$> o = Some b -> exists a, f a = b /\ o = Some a.
Proof. intros (a & -> & ->)%fmap_Some. eauto. Qed.
Lemma uniq_sub {R C} (col : R -> C) (t t' : gmap string R) :
  (forall k r', t' !! k = Some r' -> exists r, t !! k = Some r /\ col r' = col r) -> uniq col t -> uniq col t'.
Proof.
  intros H Hu k r k' r' Hk Hk' Hc. destruct (H _ _ Hk) as (x & Hx & Hxc), (H _ _ Hk') as (y & Hy & Hyc).
  eapply Hu; [done..|congruence].
Qed.
Lemma deletion_sound u d d1 : in_turn (delete_statements u) d = Some d1 -> keeps AccountsSound d d1.
Proof.
  intros Hsh%deletion_shape Hs. pose proof Hs as [].
  assert (Hev : forall k r', d1.(events) !! k = Some r' ->
            exists r, d.(events) !! k = Some r /\ owns u d k = false /\ r'.(e_status) = r.(e_status)).
  { intros k r'. rewrite (dl_events _ _ _ Hsh). intros (r & <- & [Hr Ho]%kept_event)%fmap_Some_swap.
    exists r. split_and!; [done|done|]. unfold unlinked. destruct (e_series_id r); [case_bool_decide|]; done. }
  split.
  - apply uniq_sub with d.(users); [|done]. intros k r'. rewrite (dl_users _ _ _ Hsh).
    intros (_ & r & Hr & ->)%kept_user. exists r. split; [done|]. by case_bool_decide.
  - intros k r'. rewrite (dl_users _ _ _ Hsh). intros (_ & r & Hr & ->)%kept_user.
    case_bool_decide; [|by eapply as_users0]. exact (as_users0 _ _ Hr).
  - rewrite (dl_links _ _ _ Hsh). eapply uniq_from_old; [|done]. apply from_old_delete_where, _.
  - intros k r. rewrite (dl_links _ _ _ Hsh). intros [Hk Hn%bool_decide_eq_false]%lookup_delete_where.
    destruct (as_link_user0 _ _ Hk). by eapply kept_user_of.
  - rewrite (dl_logins _ _ _ Hsh). eapply uniq_from_old; [|done]. apply from_old_delete_where, _.
  - intros k r. rewrite (dl_logins _ _ _ Hsh). intros [Hk Hn%bool_decide_eq_false]%lookup_delete_where.
    destruct (as_login_user0 _ _ Hk). by eapply kept_user_of.
  - rewrite (dl_invites _ _ _ Hsh). apply uniq_sub with d.(account_invites); [|done].
    intros k r [[Hk _]%lookup_delete_where _]%lookup_delete_where. eauto.
  - intros k r. rewrite (dl_invites _ _ _ Hsh).
    intros [[Hk _]%lookup_delete_where [Hn%bool_decide_eq_false _]%orb_false_iff]%lookup_delete_where.
    destruct (as_invite_user0 _ _ Hk). by eapply kept_user_of.
  - apply uniq_sub with d.(event_memberships); [|done]. intros k m Hk.
    destruct (kept_members _ _ _ _ _ Hsh Hk) as (_ & _ & m0 & b & H0 & ->). eauto.
  - intros k m Hk. destruct (kept_members _ _ _ _ _ Hsh Hk) as (_ & Ho & m0 & b & H0 & ->). simpl in *.
    destruct (as_member_event0 _ _ H0) as [r Hr]. rewrite (dl_events _ _ _ Hsh), fmap_is_Some.
    exists r. by apply kept_event.
  - intros k m Hk. destruct (kept_members _ _ _ _ _ Hsh Hk) as (Hn & Ho & m0 & b & H0 & ->). simpl in *.
    destruct (as_member_user0 _ _ H0). by eapply kept_user_of.
  - intros k m Hk. destruct (kept_members _ _ _ _ _ Hsh Hk) as (_ & _ & m0 & b & H0 & ->).
    exact (as_roles0 _ _ H0).
  - intros k m k' m' Hk Hk'.
    destruct (kept_members _ _ _ _ _ Hsh Hk) as (_ & _ & m0 & b & H0 & ->).
    destruct (kept_members _ _ _ _ _ Hsh Hk') as (_ & _ & m1 & b' & H1 & ->). exact (as_one_owner0 _ _ _ _ H0 H1).
  - intros e [r' Hr']. destruct (Hev _ _ Hr') as (r & Hr & Ho & _).
    destruct (as_owner0 e) as (k & m & Hk & He & Hm); [eauto|].
    assert (em_user_id m <> u) as Hn.
    { intros Hu. assert (owns u d e = true) as Ht; [|congruence]. apply owns_spec. by exists k, m. }
    destruct (keeps_member _ _ _ _ _ Hsh Hs Hk Hn) as [b Hb]; [by rewrite He|].
    exists k, (granted_row b m). by split_and!.
  - intros e r' Hr'. destruct (Hev _ _ Hr') as (r & Hr & _ & ->). by eapply as_status0.
  - intros k r. rewrite (dl_series _ _ _ Hsh). case_bool_decide as Hk; [done|]. intros Hr.
    destruct (as_series_owner0 _ _ Hr). eapply kept_user_of; [done| |done].
    intros Hu. apply Hk, series_ids. eauto.
Qed.
Lemma acc_moves_sound Del St d d' : acc_moves Del St d d' -> AccountsSound d -> AccountsSound d'.
Proof.
  apply (rtc_rel _ (keeps AccountsSound)). intros x y [y' H|id r y' H|u y' _ H].
  - by eapply acc_step_sound.
  - by eapply insert_link_sound.
  - by eapply deletion_sound.
Qed.

(** ** An active administrator *)

Definition has_admin (d : Database) : Prop :=
  exists id u, d.(users) !! id = Some u /\ active_admin u = true.

Lemma acc_step_admin St d d' : acc_step St d d' -> keeps has_admin d d'.
Proof.
  assert (forall d', users d' = users d -> keeps has_admin d d') as Hsame
    by (intros d0 He (id & u & ?); exists id, u; by rewrite He).
  destruct 1; try (by apply Hsame);
    try (match goal with
      H : ?f _ _ _ = Some _ |- _ => unfold f in H; insert_cases H; by apply Hsame end).
  - destruct H as [Ha _]. unfold accounts in Ha. simplify_eq. by apply Hsame.
  - unfold insert_user in H. insert_cases H. intros (id' & u & Hu & Ha). exists id', u. simpl.
    split; [|done]. rewrite lookup_insert_ne; [done|]. intros ->.
    match goal with H : negb (has _ _) = true |- _ => apply has_false in H; congruence end.
  - intros (id' & u & Hu & Ha). destruct (decide (id' = id)) as [->|Hn].
    + simplify_eq. match goal with H : admin_safe _ _ _ _ |- _ => destruct (H Ha) as [Hr'|(i & x & Hi & Hx)] end.
      * exists id, r'. simpl. by rewrite lookup_insert_eq.
      * exists i, x. simpl. by rewrite lookup_insert_ne.
    + exists id', u. simpl. by rewrite lookup_insert_ne.
  - unfold insert_event in H. insert_cases H.
    unfold insert_membership in H0. insert_cases H0. by apply Hsame.
  - apply update_members_ok in H0 as (_ & -> & _), H1 as (_ & -> & _). by apply Hsame.
  - apply update_members_ok in H0 as (_ & -> & _).
    unfold insert_membership in H1. insert_cases H1. by apply Hsame.
Qed.
Lemma acc_steps_admin St d d' : acc_steps St d d' -> has_admin d -> has_admin d'.
Proof. apply (rtc_rel _ (keeps has_admin)), acc_step_admin. Qed.
Lemma acc_moves_admin Del St d d' :
  (forall u, ~ Del u) -> acc_moves Del St d d' -> has_admin d -> has_admin d'.
Proof.
  intros Hd. apply (rtc_rel _ (keeps has_admin)). intros x y [y' H|id r y' H|u y' Hu _].
  - by eapply acc_step_admin.
  - unfold insert_magic_link in H. insert_cases H. by intros [id' ?]; exists id'.
  - by destruct (Hd u).
Qed.

(** The only active administrator. *)
Definition only_admin (u : string) (d : Database) : Prop :=
  (exists r, d.(users) !! u = Some r /\ active_admin r = true) /\
  forall id r, d.(users) !! id = Some r -> active_admin r = true -> id = u.
(** Any other administrator outlives the deletion of a user. *)
Lemma deletion_admin u d d1 :
  in_turn (delete_statements u) d = Some d1 -> has_admin d -> has_admin d1 \/ only_admin u d.
Proof.
  intros Hsh%deletion_shape (id & r & Hr & Ha).
  destruct (decide (map_Exists (fun k x => k <> u /\ active_admin x = true) d.(users))) as [He|Hn].
  - left. apply map_Exists_lookup_1 in He as (k & x & Hx & Hk & Hax). exists k.
    eexists. split; [rewrite (dl_users _ _ _ Hsh); apply kept_user; eauto|]. by case_bool_decide.
  - right. assert (forall k x, d.(users) !! k = Some x -> active_admin x = true -> k = u) as Hall.
    { intros k x Hx Hax. destruct (decide (k = u)) as [|Hk]; [done|]. destruct Hn.
      apply map_Exists_lookup_2 with k x; done. }
    split; [|done]. exists r. by rewrite <- (Hall _ _ Hr Ha).
Qed.

(** ** What happens to events *)

(** No event goes; one that is new or has another status is one that may. *)
Definition event_change (St : status_change) (d d' : Database) : Prop := forall id,
  match d.(events) !! id, d'.(events) !! id with
  | Some r, Some r' => r'.(e_status) = r.(e_status) \/ St id (Some r) r'.(e_status)
  | None, Some r' => St id None r'.(e_status)
  | Some _, None => False
  | None, None => True
  end.
(** Allowed changes look at the status and add up to allowed changes. *)
Record closed (St : status_change) : Prop := {
  cl_status id r r' b : r'.(e_status) = r.(e_status) -> St id (Some r) b -> St id (Some r') b;
  cl_trans id o r b : St id o r.(e_status) -> St id (Some r) b -> St id o b }.
Lemma event_change_preorder St : closed St -> PreOrder (event_change St).
Proof.
  intros [Hst Htr]. split; [intros d id; case_match; auto|].
  intros x y z Hxy Hyz id. specialize (Hxy id). specialize (Hyz id).
  destruct (events x !! id) as [r|], (events y !! id) as [r1|], (events z !! id) as [r2|]; try done.
  - destruct Hyz as [->|Hyz]; [done|]. right. destruct Hxy as [Hxy|Hxy]; eauto.
  - destruct Hyz as [->|Hyz]; [done|]. eauto.
Qed.
Lemma same_events_change St d d' : d'.(events) = d.(events) -> event_change St d d'.
Proof. intros He id. rewrite He. case_match; auto. Qed.
Lemma acc_step_change St d d' : acc_step St d d' -> event_change St d d'.
Proof.
  destruct 1; try (by apply same_events_change);
    try (match goal with
      H : ?f _ _ _ = Some _ |- _ => unfold f in H; insert_cases H; by apply same_events_change end).
  - by apply same_events_change, H.
  - unfold insert_event in H. insert_cases H. unfold insert_membership in H0. insert_cases H0.
    intros k. simpl. destruct (decide (k = id)) as [->|Hk].
    + rewrite lookup_insert_eq. match goal with H : negb (has _ (events d)) = true |- _ =>
        apply has_false in H; by rewrite H end.
    + rewrite lookup_insert_ne by done. case_match; auto.
  - intros k. simpl. destruct (decide (k = id)) as [->|Hk].
    + by rewrite lookup_insert_eq, H.
    + rewrite lookup_insert_ne by done. case_match; auto.
  - intros k. unfold delete_series. simpl. rewrite lookup_update_where.
    destruct (events d !! k); simpl; [|done]. left. by case_match.
  - apply update_members_ok in H0 as (_ & -> & _), H1 as (_ & -> & _). by apply same_events_change.
  - apply update_members_ok in H0 as (_ & -> & _).
    unfold insert_membership in H1. insert_cases H1. by apply same_events_change.
Qed.
Lemma acc_moves_change Del St d d' :
  (forall u, ~ Del u) -> closed St -> acc_moves Del St d d' -> event_change St d d'.
Proof.
  intros Hd Hc. pose proof (event_change_preorder _ Hc). apply rtc_rel; [done|].
  intros x y [y' H1|id r y' H1|u y' Hu _].
  - by apply acc_step_change.
  - unfold insert_magic_link in H1. insert_cases H1. by apply same_events_change.
  - by destruct (Hd u).
Qed.
Lemma change_of_closed op d : closed (change_of op d).
Proof.
  split.
  - intros id r r' b Hr. destruct op; simpl; try done; by rewrite ?Hr.
  - intros id o r b. destruct op, o; simpl; try done; intros Ha Hb; destruct_and?; split_and?; congruence.
Qed.
