(* ===== verification/AccountDemo.v ===== *)
(** * A staffed instance and quiet services

    The demonstration database with an administrator and an invited cohost, and
    services whose callbacks do nothing: used to show that the hypotheses of the
    theorems on accounts can hold. *)

From S2P Require Import Prelude.
From S2P Require Import GoStr.
From S2P Require Import GoTime.
From S2P Require Import Schema.
From S2P Require Import Eff.
From S2P Require Import Http.
From S2P Require Import Respect.
From S2P Require Import Demo.
From S2P Require Import Tables.
From S2P Require Import History.
From S2P Require Import System.
From S2P Require Import Auth.
From S2P Require Import AccountDelete.
From S2P Require Import AuthHandler.
From S2P Require Import UserAdmin.
From S2P Require Import Event.
From S2P Require Import EventHandler.
From S2P Require Import Series.
From S2P Require Import Instance.
From S2P Require Import AccountSteps.
From S2P Require Import EventSteps.
From S2P Require Import AccountSystem.
From S2P Require Import AccountFacts.


Local Open Scope Z_scope.

Definition demo_cfg : Config :=
  MkConfig "https://owl.example" "Owl" "UTC" true (900 * ns_per_sec) (86400 * ns_per_sec)
    (86400 * ns_per_sec) 3 true "boot".
Definition demo_auth : Auth.Service := MkAuthService demo_cfg (Some (fun _ _ _ _ => ret ())).
Definition demo_events : Event.Service := MkEventService 30 None None None.
Definition demo_services : Services :=
  MkServices demo_auth (MkSeriesService demo_events 30 None)
    (MkEventHandler demo_events true None None 3 None).

Lemma demo_quiet : quiet_services demo_services.
Proof.
  split.
  - intros f to subject html plain [= <-]. intros w. by split.
  - by repeat split.
Qed.

Definition demo_admin : UserRow :=
  {| u_email := "root@b.c"; u_norm_email := "root@b.c"; u_display_name := "Root";
     u_timezone := "UTC"; u_role := "admin"; u_status := "active"; u_invited_by := None;
     u_activated_at := Some demo_text; u_last_login_at := None; u_created_at := demo_text;
     u_updated_at := demo_text |}.
Definition demo_invited : UserRow :=
  {| u_email := "new@b.c"; u_norm_email := "new@b.c"; u_display_name := ""; u_timezone := "UTC";
     u_role := "user"; u_status := "invited"; u_invited_by := Some "root";
     u_activated_at := None; u_last_login_at := None; u_created_at := demo_text;
     u_updated_at := demo_text |}.
Definition demo_account_invite : AccountInviteRow :=
  {| ai_target := "new"; ai_norm_email := "new@b.c"; ai_token_hash := hex_encode "offer";
     ai_invited_by := "root"; ai_event_id := Some "ev"; ai_event_role := Some "cohost";
     ai_expires_at := demo_later; ai_accepted_at := None; ai_revoked_at := None;
     ai_created_at := demo_text |}.

Definition staffed_db : Database :=
  set_users (fun _ => {["org" := demo_user; "root" := demo_admin; "new" := demo_invited]})
    (set_account_invites (fun _ => {["offer" := demo_account_invite]}) demo_db).
Definition staffed_world : World := with_db staffed_db demo_world.

(** Users as read from their rows. *)
Definition demo_as (id : string) (r : UserRow) : option User :=
  match user_of_row id r with Ok u => Some u | Err _ => None end.
Definition demo_root : option User := demo_as "root" demo_admin.
Definition demo_org : option User := demo_as "org" demo_user.

(** An instance that was not set up. *)
Definition fresh_world : World :=
  with_db (set_instances (fun _ => {["default" :=
    {| in_name := "Owl"; in_timezone := "UTC"; in_allow_signups := false; in_support_email := "";
       in_setup_completed_at := None; in_created_at := demo_text; in_updated_at := demo_text |}]})
    demo_db) demo_world.
Definition demo_setup : BootstrapRequest :=
  {| bs_Token := "boot"; bs_AdminEmail := "boss@b.c"; bs_AdminName := "Boss"; bs_InstanceName := "Owls";
     bs_DefaultTimezone := "UTC"; bs_AllowSignups := true; bs_SupportEmail := "" |}.

Lemma demo_uuids m n : @uuid_v7 demo_env m = @uuid_v7 demo_env n -> m = n.
Proof.
  intros H0. assert (itoa (Z.of_nat m) = itoa (Z.of_nat n)) as H by (injection H0 as H0; exact H0).
  apply (f_equal to_bytes) in H. unfold itoa in H. rewrite !to_of_bytes in H. unfold itoa_bytes in H.
  destruct (Z.ltb_spec (Z.of_nat m) 0), (Z.ltb_spec (Z.of_nat n) 0); [lia..|].
  apply (f_equal atou) in H. rewrite !atou_utoa in H by lia. injection H as H. lia.
Qed.

(** Decided over all pairs of rows. *)
Lemma uniq_check {R C} `{EqDecision C} (col : R -> C) (t : gmap string R) :
  bool_decide (map_Forall (fun k r => map_Forall (fun k' r' => col r = col r' -> k = k') t) t) = true ->
  uniq col t.
Proof. intros H%bool_decide_eq_true k r k' r' Hk Hk'. by apply (H _ _ Hk _ _ Hk'). Qed.
Lemma refs_check {R R'} (col : R -> string) (t : gmap string R) (u : gmap string R') :
  bool_decide (map_Forall (fun _ r => is_Some (u !! col r)) t) = true -> refs col t u.
Proof. intros H%bool_decide_eq_true k r Hk. by apply (H _ _ Hk). Qed.
Lemma rows_check {R} (P : R -> bool) (t : gmap string R) :
  bool_decide (map_Forall (fun _ r => P r = true) t) = true -> forall k r, t !! k = Some r -> P r = true.
Proof. intros Ht%bool_decide_eq_true k r Hk. by apply (Ht _ _ Hk). Qed.

Lemma staffed_sound : AccountsSound staffed_db.
Proof.
  split; try first
    [ apply uniq_check; vm_compute; reflexivity
    | apply refs_check; vm_compute; reflexivity ].
  - apply rows_check. by vm_compute.
  - intros k m. simpl. by intros [<- <-]%lookup_singleton_Some.
  - intros k m k' m'. simpl. intros [<- <-]%lookup_singleton_Some [<- <-]%lookup_singleton_Some. done.
  - intros id. simpl. intros [r [<- <-]%lookup_singleton_Some]. by exists "own", demo_owner.
  - intros id r. simpl. by intros [<- <-]%lookup_singleton_Some.
Qed.
