(* ===== verification/LoginFacts.v ===== *)
(** * What logging in and the account requests promise

    Theorems over any requests to the services, with any driver faults: the
    invariant, the history, the last administrator, single use of magic links and
    account invitations, and what a session needs to be accepted. *)

From S2P Require Import Prelude.
From S2P Require Import GoStr.
From S2P Require Import GoTime.
From S2P Require Import Schema.
From S2P Require Import Eff.
From S2P Require Import Http.
From S2P Require Import Respect.
From S2P Require Import Demo.
From S2P Require Import Tables.
From S2P Require Import History.
From S2P Require Import System.
From S2P Require Import Auth.
From S2P Require Import AccountDelete.
From S2P Require Import AuthHandler.
From S2P Require Import UserAdmin.
From S2P Require Import Event.
From S2P Require Import EventHandler.
From S2P Require Import Series.
From S2P Require Import Instance.
From S2P Require Import AccountSteps.
From S2P Require Import EventSteps.
From S2P Require Import AccountSystem.
From S2P Require Import AccountFacts.
From S2P Require Import AccountDemo.

Local Open Scope Z_scope.

(** ** Runs *)

Section runs.
Context `{E : Env, HttpEnv} (s : Services) (Hq : quiet_services s).

Lemma run_accounts_sound ops w : AccountsSound w.(w_db) -> AccountsSound (run_accounts s ops w).(w_db).
Proof.
  eapply acc_moves_sound, (run_accounts_moves s Hq (fun _ => True)). done.
Qed.
Lemma no_deletion op u : (forall u, op <> ODeleteAccount u) -> ~ deletion_of op u.
Proof. intros Hn Hd. by apply (Hn u). Qed.
Lemma run_account_evolves op w :
  (forall u, op <> ODeleteAccount u) -> acc_evolves w.(w_db) (run_account s op w).2.(w_db).
Proof.
  intros Hn. eapply acc_moves_evolve; [|by apply run_account_moves]. intros u. by apply no_deletion.
Qed.
Lemma run_accounts_evolve ops w :
  (forall u, ODeleteAccount u ∉ ops) -> acc_evolves w.(w_db) (run_accounts s ops w).(w_db).
Proof.
  intros Hn. apply (run_accounts_rel s acc_evolves). intros op w' Hin. apply run_account_evolves.
  intros u ->. by apply (Hn u).
Qed.

(** The first deletion, of an account that was then the only active
    administrator's. *)
Definition last_admin_left (ops : list account_op) (w : World) : Prop :=
  exists before u after, ops = before ++ ODeleteAccount u :: after /\
    only_admin u (run_accounts s before w).(w_db).

Lemma run_account_admin op w :
  has_admin w.(w_db) ->
  has_admin (run_account s op w).2.(w_db) \/ exists u, op = ODeleteAccount u /\ only_admin u w.(w_db).
Proof.
  intros Ha. destruct op as [| | | | | | u| | | | | | | | | | | | | | | | | | | | | | | | |];
    try (left; eapply acc_moves_admin; [|by apply run_account_moves|done]; intros x Hx; discriminate Hx).
  simpl. destruct (DeleteAccount u w) as [[[]|e] w1] eqn:Hw; simpl.
  - destruct (deletion_admin _ _ _ (deletion_runs _ _ _ Hw) Ha); eauto.
  - unfold DeleteAccount, DeleteOrganizerCascade in Hw. apply with_tx_err in Hw. rewrite Hw. by left.
Qed.
Lemma run_accounts_admin ops w :
  has_admin w.(w_db) -> has_admin (run_accounts s ops w).(w_db) \/ last_admin_left ops w.
Proof.
  revert w. induction ops as [|op ops IH]; intros w Ha; [by left|].
  destruct (run_account_admin op w Ha) as [H1|(u & -> & Hu)].
  - destruct (IH _ H1) as [|(b & u & a & -> & Hu)]; [by left|]. right. by exists (op :: b), u, a.
  - right. by exists [], u, ops.
Qed.

(** [C20] Over any requests to the account, event and series services and to the
    invitation store, the deletion of accounts included, with any driver faults, keys
    stay unique, references stay resolved, roles and statuses stay valid, and every
    event has exactly one owner. *)
Theorem accounts_sound ops w :
  AccountsSound w.(w_db) -> AccountsSound (run_accounts s ops w).(w_db).
Proof. apply run_accounts_sound. Qed.

(** Over any requests that delete no account, with any driver faults: users, magic
    links, account invitations, the instance and the audit log lose no row;
    addresses, tokens and audit entries never change; a used link, an accepted or
    revoked invitation and a completed setup stay so. *)
Theorem account_history ops w :
  (forall u, ODeleteAccount u ∉ ops) ->
  let d := w.(w_db) in let d' := (run_accounts s ops w).(w_db) in
  table_le user_le d.(users) d'.(users) /\
  table_le link_le d.(magic_links) d'.(magic_links) /\
  table_le invite_le d.(account_invites) d'.(account_invites) /\
  table_le instance_le d.(instances) d'.(instances) /\
  table_le eq d.(admin_audit_log) d'.(admin_audit_log).
Proof. intros Hn d d'. by destruct (run_accounts_evolve ops w Hn). Qed.


End runs.

(** ** Magic links *)

Section links.
Context `{E : Env, HttpEnv} (s : Services).

Lemma magic_link_of_row_ok id r l :
  magic_link_of_row id r = Ok l ->
  l.(link_ID) = id /\ l.(link_OrganizerID) = r.(ml_user_id) /\
  parse_rfc3339 r.(ml_expires_at) = Some l.(link_ExpiresAt) /\
  (l.(link_UsedAt) = None -> r.(ml_used_at) = None).
Proof.
  unfold magic_link_of_row. intros H1.
  apply res_bind_ok in H1 as (ex & Hex & H1). apply res_bind_ok in H1 as (cr & _ & H1).
  apply res_bind_ok in H1 as (us & Hus & H1). injection H1 as <-. simpl.
  unfold parse_time in Hex. destruct (parse_rfc3339 (ml_expires_at r)); simplify_eq/=.
  split_and!; try done. unfold parse_time_opt in Hus. destruct (ml_used_at r); [|done].
  apply res_bind_ok in Hus as (? & _ & [= <-]). done.
Qed.
Lemma FindMagicLinkByHash_ok hash w o w' :
  FindMagicLinkByHash hash w = (Ok o, w') ->
  w'.(w_db) = w.(w_db) /\ w'.(w_clock) = w.(w_clock) /\
  match o with
  | None => select_row (fun _ r => bool_decide (r.(ml_token_hash) = hash)) w.(w_db).(magic_links) = None
  | Some l => exists r, w.(w_db).(magic_links) !! l.(link_ID) = Some r /\ r.(ml_token_hash) = hash /\
                        magic_link_of_row l.(link_ID) r = Ok l
  end.
Proof.
  unfold FindMagicLinkByHash. intros H1. run_ok.
  destruct (select_row _ (magic_links (w_db w))) as [[k r]|] eqn:Es; run_ok; [|done].
  split; [done|]. split; [done|]. apply select_row_Some in Es as [Hk Hh%bool_decide_eq_true].
  match goal with H : magic_link_of_row _ _ = Ok _ |- _ =>
    pose proof H as (Hid & _)%magic_link_of_row_ok; rename H into Hl end.
  rewrite Hid. eauto.
Qed.

(** Every link of this hash was used. *)
Definition spent (h : string) (d : Database) : Prop :=
  forall k r, d.(magic_links) !! k = Some r -> r.(ml_token_hash) = h -> r.(ml_used_at) <> None.
Lemma spent_refused a token w :
  spent (hashToken token) w.(w_db) ->
  exists e w', VerifyMagicLink a token w = (Err e, w') /\ w'.(w_db) = w.(w_db).
Proof.
  intros Hs. unfold VerifyMagicLink, bind.
  destruct (FindMagicLinkByHash _ w) as [[o|e] w1] eqn:Ef.
  - pose proof (FindMagicLinkByHash_ok _ _ _ _ Ef) as (Hd & _ & Ho). destruct o as [l|].
    + destruct Ho as (r & Hr & Hh & Hl). apply magic_link_of_row_ok in Hl as (_ & _ & _ & Hn).
      case_bool_decide as Hb; [by destruct (Hs _ _ Hr Hh); apply Hn|]. simpl. eauto.
    + simpl. eauto.
  - exists e, w1. split; [done|]. by apply (reads_world _ _ _ _ (FindMagicLinkByHash_reads _) Ef).
Qed.

(** No later request for a login link stores one of this hash: the hash is of a
    token of 32 random bytes. *)
Fixpoint no_redraw (h : string) (ops : list account_op) (w : World) : bool :=
  match ops with
  | [] => true
  | op :: ops =>
      let w' := (run_account s op w).2 in
      match op with
      | ORequestLink _ => bool_decide (map_Forall (fun k r => r.(ml_token_hash) = h ->
          has k w.(w_db).(magic_links) = true) w'.(w_db).(magic_links))
      | _ => true
      end && no_redraw h ops w'
  end.

Lemma acc_steps_spent St h d d' : acc_steps St d d' -> spent h d -> spent h d'.
Proof.
  apply (rtc_rel _ (keeps (spent h))). intros x y Hxy Hs k r' Hr' Hh.
  destruct (acc_step_links _ _ _ Hxy _ _ Hr') as (r & Hr & H1 & _ & _ & Hu).
  assert (ml_used_at r <> None) as Hn by (eapply Hs; [done|congruence]). by rewrite Hu.
Qed.
Lemma deletion_spent u h d d' : in_turn (delete_statements u) d = Some d' -> spent h d -> spent h d'.
Proof.
  intros Hsh%deletion_shape Hs k r. rewrite (dl_links _ _ _ Hsh). intros [Hk _]%lookup_delete_where. by eapply Hs.
Qed.
Lemma run_spent (Hq : quiet_services s) h ops w :
  spent h w.(w_db) -> no_redraw h ops w = true -> spent h (run_accounts s ops w).(w_db).
Proof.
  revert w. induction ops as [|op ops IH]; intros w Hs Hn; [done|]. simpl in Hn.
  apply andb_true_iff in Hn as [Hop Hn]. simpl. apply IH; [|done]. clear IH Hn.
  destruct (plain op) eqn:Hp; [by eapply acc_steps_spent; [apply run_account_steps|]|].
  destruct op as [email| | | | | |u| | | | | | | | | | | | | | | | | | | | | | | | |]; try discriminate Hp.
  - apply bool_decide_eq_true in Hop. intros k r Hr Hh.
    destruct (proj1 (has_spec _ _) (Hop _ _ Hr Hh)) as [r0 Hr0].
    assert (acc_evolves (w_db w) (run_account s (ORequestLink email) w).2.(w_db)) as He
      by (by apply run_account_evolves).
    destruct (ae_links _ _ He _ _ Hr0) as (r1 & Hr1 & H1 & _ & _ & Hu). rewrite Hr in Hr1. injection Hr1 as <-.
    assert (ml_used_at r0 <> None) as H0 by (eapply Hs; [done|congruence]). by rewrite Hu.
  - simpl. destruct (DeleteAccount u w) as [[[]|e] w1] eqn:Hw; simpl.
    + eapply deletion_spent; [by apply deletion_runs|done].
    + unfold DeleteAccount, DeleteOrganizerCascade in Hw. apply with_tx_err in Hw. by rewrite Hw.
Qed.

Lemma markMagicLinkUsed_ok id t w u w' :
  markMagicLinkUsed id t w = (Ok u, w') ->
  exists r, w.(w_db).(magic_links) !! id = Some r /\ live_link (format_rfc3339 t) r = true /\
    w'.(w_db) = set_magic_links (fun _ => <[id := use_link_row (format_rfc3339 t) r]>
                  w.(w_db).(magic_links)) w.(w_db).
Proof.
  unfold markMagicLinkUsed. intros H1. run_ok.
  match goal with H : context [update_id] |- _ => rename H into Hu end.
  destruct (update_id id _ _ _) as [t' n] eqn:Eu. injection Hu as -> Hd.
  apply update_id_cases in Eu as [(-> & r & Hr & HQ & ->)|(-> & _)]; [|done]. eauto.
Qed.

(** The transaction of a login: the user is active, the link is used up and the
    session stored. *)
Lemma consume_link_ok l hash t w u w' :
  consume_link l hash t w = (Ok u, w') ->
  (exists r, w.(w_db).(users) !! l.(link_OrganizerID) = Some r /\ r.(u_status) = UserStatusActive /\
             u.(user_ID) = l.(link_OrganizerID)) /\
  (exists r, w'.(w_db).(magic_links) !! l.(link_ID) = Some r /\ r.(ml_used_at) <> None) /\
  exists k se, w'.(w_db).(sessions) !! k = Some se /\ se.(us_token_hash) = hash /\
               se.(us_user_id) = l.(link_OrganizerID).
Proof.
  unfold consume_link. intros H1. apply bind_ok in H1 as (o & w1 & Ho & H1).
  destruct o as [user|]; [|done]. apply findOrganizerByID_ok in Ho as (Hd1 & r & Hr & Hu).
  apply user_of_row_ok in Hu as (Hid & Hst & _). unfold is_active, createSession, TouchLastLoginTx, update_user in H1.
  run_ok.
  match goal with H : markMagicLinkUsed _ _ _ = _ |- _ => apply markMagicLinkUsed_ok in H as (lr & Hlr & _ & Hd2) end.
  match goal with H : context [update_id] |- _ => rename H into Hup end.
  destruct (update_id _ _ _ _) as [t' n] eqn:Eu. injection Hup as -> Hd3.
  match goal with H : insert_user_session _ _ _ = _ |- _ => rename H into Hins end.
  unfold insert_user_session in Hins. insert_cases Hins.
  split_and!.
  - exists r. split_and!; [done| |done]. rewrite <- Hst. by eapply bool_decide_eq_true.
  - dbs. rewrite lookup_insert_eq. eexists. by split.
  - dbs. eexists _, _. by rewrite lookup_insert_eq.
Qed.

(** [C18] A magic link that logged somebody in was unused, unexpired and of an
    active user, who gets a session; after it, whatever requests, the deletion of
    accounts included, and driver faults follow, verifying the same token again fails
    and writes nothing, as long as no later request for a login link draws a token of
    the same hash. *)
Theorem magic_link_single_use token w resp w1 :
  quiet_services s -> AccountsSound w.(w_db) ->
  VerifyMagicLink s.(sv_auth) token w = (Ok resp, w1) ->
  (exists k r u, w.(w_db).(magic_links) !! k = Some r /\ r.(ml_token_hash) = hashToken token /\
     r.(ml_used_at) = None /\ w.(w_db).(users) !! r.(ml_user_id) = Some u /\
     u.(u_status) = UserStatusActive /\ resp.(ar_Organizer).(user_ID) = r.(ml_user_id) /\
     exists expires, parse_rfc3339 r.(ml_expires_at) = Some expires /\ clock w.(w_clock) <= expires) /\
  (exists k se, w1.(w_db).(sessions) !! k = Some se /\
     se.(us_token_hash) = hashToken resp.(ar_Token) /\
     se.(us_user_id) = resp.(ar_Organizer).(user_ID)) /\
  forall ops, no_redraw (hashToken token) ops w1 = true ->
    let w2 := run_accounts s ops w1 in
    exists e w3, VerifyMagicLink s.(sv_auth) token w2 = (Err e, w3) /\ w3.(w_db) = w2.(w_db).
Proof.
  intros Hq Hs Hv. pose proof (VerifyMagicLink_steps s any_change token w) as Hst. rewrite Hv in Hst.
  unfold VerifyMagicLink in Hv. run_ok.
  match goal with H : FindMagicLinkByHash _ _ = _ |- _ => apply FindMagicLinkByHash_ok in H as (Hd & Hck & Ho) end.
  destruct x as [l|]; [|by run_ok]. destruct Ho as (r & Hr & Hh & Hl). run_ok.
  pose proof Hl as (_ & Huser & Hex & Hn)%magic_link_of_row_ok.
  match goal with H : read_random _ _ = _ |- _ => injection H as Hrd Hw end.
  match goal with H : consume_link _ _ _ _ = _ |- _ =>
    apply consume_link_ok in H as ((u & Hu & Hact & Hid) & (r' & Hr' & Hused) & k & se & Hk & Hse & Hsu) end.
  assert (Hdb : w_db x14 = w_db w) by (subst x9; simpl in *; congruence).
  rewrite Hdb in Hu. rewrite Huser in *.
  split_and!.
  - exists (link_ID l), r, u. split_and!; try done.
    + apply Hn. by eapply bool_decide_eq_true.
    + exists (link_ExpiresAt l). split; [done|]. rewrite <- Hck.
      match goal with H : (_ <=? _) = true |- _ => by apply Z.leb_le in H end.
  - exists k, se. dbs. split_and!; try done. congruence.
  - intros ops Hn2. apply spent_refused, (run_spent Hq); [|done]. intros k1 r1 Hr1 Hh1.
    assert (AccountsSound (w_db w1)) as Hs1 by exact (acc_steps_sound _ _ _ Hst Hs).
    assert (magic_links (w_db w1) !! link_ID l = Some r') as Hr2 by (dbs; exact Hr').
    pose proof (acc_steps_evolve _ _ _ Hst) as He0.
    destruct (ae_links _ _ He0 _ _ Hr) as (r0 & Hr0 & Hh0 & _). rewrite Hr2 in Hr0. injection Hr0 as <-.
    assert (k1 = link_ID l) as -> by (eapply (as_links _ Hs1); [done..|congruence]). by simplify_eq.
Qed.
End links.

(** ** Sessions *)

Section logins.
Context `{E : Env}.

(** A stored login session of a token with the active user it belongs to. *)
Definition session_of (d : Database) (token : string) (k : string) (se : UserSessionRow)
    (r : UserRow) : Prop :=
  d.(sessions) !! k = Some se /\ se.(us_token_hash) = hashToken token /\
  d.(users) !! se.(us_user_id) = Some r /\ r.(u_status) = UserStatusActive.

Lemma session_of_row_ok k r x :
  session_of_row k r = Ok x ->
  x.(ses_ID) = k /\ x.(ses_OrganizerID) = r.(us_user_id) /\
  parse_rfc3339 r.(us_expires_at) = Some x.(ses_ExpiresAt).
Proof.
  unfold session_of_row, parse_time. intros H1. repeat case_match; simplify_eq/=. done.
Qed.
Lemma FindSessionByHash_ok hash w o w' :
  FindSessionByHash hash w = (Ok o, w') ->
  w'.(w_db) = w.(w_db) /\ w'.(w_clock) = w.(w_clock) /\
  forall x, o = Some x ->
    exists r, w.(w_db).(sessions) !! x.(ses_ID) = Some r /\ r.(us_token_hash) = hash /\
              session_of_row x.(ses_ID) r = Ok x.
Proof.
  unfold FindSessionByHash. intros H1. run_ok.
  destruct (select_row _ (sessions (w_db w))) as [[k r]|] eqn:Es; run_ok; [|done].
  split; [done|]. split; [done|]. intros y [= ->].
  apply select_row_Some in Es as [Hk Hh%bool_decide_eq_true].
  match goal with H : session_of_row _ _ = Ok _ |- _ =>
    pose proof H as (Hid & _)%session_of_row_ok end.
  rewrite Hid. eauto.
Qed.
Lemma findOrganizerByID_clock id w o w' :
  findOrganizerByID id w = (Ok o, w') -> w'.(w_clock) = w.(w_clock).
Proof. unfold findOrganizerByID. intros H1. by run_ok. Qed.

(** What an accepted token proves. *)
Lemma ValidateSession_ok token w u w' :
  ValidateSession token w = (Ok u, w') ->
  w'.(w_db) = w.(w_db) /\
  exists k se r, session_of w.(w_db) token k se r /\ user_of_row se.(us_user_id) r = Ok u /\
    exists expires, parse_rfc3339 se.(us_expires_at) = Some expires /\ clock w.(w_clock) <= expires.
Proof.
  unfold ValidateSession. intros H1. apply bind_ok in H1 as (o & w1 & Ho & H1).
  apply FindSessionByHash_ok in Ho as (Hd & Hc & Hs). destruct o as [x|]; [|by run_ok].
  destruct (Hs _ eq_refl) as (se & Hse & Hh & Hrow).
  pose proof Hrow as (_ & Hu & Hex)%session_of_row_ok.
  apply bind_ok in H1 as (t & w2 & Ht & H1). apply now_ok in Ht as (-> & Hd2 & _).
  destruct (Z.ltb_spec (ses_ExpiresAt x) (clock (w_clock w1))); [by run_ok|].
  apply bind_ok in H1 as (o & w3 & Ho & H1). destruct o as [y|]; [|by run_ok].
  apply findOrganizerByID_ok in Ho as (Hd3 & r & Hr & Hy).
  destruct (is_active y) eqn:Ha; [|by run_ok]. run_ok.
  pose proof Hy as (_ & Hst & _)%user_of_row_ok. split; [congruence|].
  exists (ses_ID x), se, r. rewrite Hd2, Hd in Hr. rewrite Hu in Hr, Hy. split; [|split; [done|]].
  - split_and!; try done. rewrite <- Hst. unfold is_active in Ha. by eapply bool_decide_eq_true.
  - exists (ses_ExpiresAt x). split; [done|]. rewrite <- Hc. lia.
Qed.

(** What a refused token may change: its own row goes. *)
Lemma ValidateSession_err token w e w' :
  ValidateSession token w = (Err e, w') ->
  w'.(w_db) = w.(w_db) \/
  exists k se, w.(w_db).(sessions) !! k = Some se /\ se.(us_token_hash) = hashToken token /\
    w'.(w_db) = set_sessions (delete k) w.(w_db).
Proof.
  assert (Hdel : forall k w0 w1 (r : res User), w0.(w_db) = w.(w_db) ->
    (ignore_err (DeleteSession k) ;;; fail ErrSessionNotFound : M User) w0 = (r, w1) ->
    w1.(w_db) = w.(w_db) \/ w1.(w_db) = set_sessions (delete k) w.(w_db)).
  { intros k w0 w1 r Hd H1. unfold bind, ignore_err, fail in H1. injection H1 as _ <-.
    unfold DeleteSession, exec, stmt, bind, driver. rewrite <- Hd.
    destruct (w_faults w0) as [|[] ?]; simpl; auto. }
  unfold ValidateSession, bind at 1.
  destruct (FindSessionByHash _ w) as [[o|e1] w1] eqn:Ef.
  2: { intros [= <- <-]. left. by apply (reads_world _ _ _ _ (FindSessionByHash_reads _) Ef). }
  apply FindSessionByHash_ok in Ef as (Hd & _ & Hs). destruct o as [x|]; [|by intros [= <- <-]; left].
  destruct (Hs _ eq_refl) as (se & Hse & Hh & _). unfold bind at 1, now at 1.
  set (w2 := MkWorld _ _ _ _ _). assert (Hd2 : w_db w2 = w_db w) by done.
  assert (Hgo : forall w0 r, w0.(w_db) = w.(w_db) ->
    (ignore_err (DeleteSession (ses_ID x)) ;;; fail ErrSessionNotFound : M User) w0 = (r, w') ->
    w'.(w_db) = w.(w_db) \/ exists k se, sessions (w_db w) !! k = Some se /\
      us_token_hash se = hashToken token /\ w'.(w_db) = set_sessions (delete k) w.(w_db)).
  { intros w0 r H0 H1. destruct (Hdel _ _ _ _ H0 H1); [by left|right; eauto]. }
  destruct (_ <? _); [by apply Hgo|]. unfold bind at 1.
  destruct (findOrganizerByID _ w2) as [[o|e1] w3] eqn:Eo.
  - pose proof (reads_world _ _ _ _ (findOrganizerByID_reads _) Eo) as Hd3.
    destruct o as [y|]; [destruct (is_active y); [done|]|]; apply Hgo; congruence.
  - intros [= <- <-]. left. pose proof (reads_world _ _ _ _ (findOrganizerByID_reads _) Eo). congruence.
Qed.
End logins.

Section gate.
Context `{E : Env}.

(** [C17] The handler behind [RequireAuth] runs only with the active user whose
    stored, unexpired session the request's token names, and on the database as
    it was; every other request gets the 401 reply, and at most the session of its
    own token is deleted. *)
Theorem session_gate {R} (deny : R) (cred : Credentials) (next : User -> M R) w :
  (exists u w1, RequireAuth deny cred next w = next u w1 /\ w1.(w_db) = w.(w_db) /\
     extractToken cred <> "" /\
     exists k se r, session_of w.(w_db) (extractToken cred) k se r /\
       user_of_row se.(us_user_id) r = Ok u /\
       exists expires, parse_rfc3339 se.(us_expires_at) = Some expires /\
                       clock w.(w_clock) <= expires) \/
  (exists w1, RequireAuth deny cred next w = (Ok deny, w1) /\
     (w1.(w_db) = w.(w_db) \/
      exists k se, w.(w_db).(sessions) !! k = Some se /\
        se.(us_token_hash) = hashToken (extractToken cred) /\
        w1.(w_db) = set_sessions (delete k) w.(w_db))).
Proof.
  unfold RequireAuth. cbv zeta. case_bool_decide as Ht; [right; exists w; by split; [|left]|].
  unfold bind, attempt. destruct (ValidateSession (extractToken cred) w) as [[u|e] w1] eqn:Ev.
  - left. exists u, w1. apply ValidateSession_ok in Ev as [Hd Hs]. done.
  - right. exists w1. split; [done|]. by eapply ValidateSession_err.
Qed.

Definition inactive (d : Database) (userID : string) : Prop :=
  forall r, d.(users) !! userID = Some r -> r.(u_status) <> UserStatusActive.

Lemma membership_role_inactive d eventID userID :
  inactive d userID -> membership_role eventID userID d = None.
Proof.
  intros Hi. unfold membership_role.
  destruct (select_row _ (event_memberships d)) as [[k m]|] eqn:Es; simpl; [|done].
  apply select_row_Some in Es as [_ Hm]. unfold is_member in Hm. split_guards.
  match goal with H : bool_decide (em_user_id m = userID) = true |- _ =>
    apply bool_decide_eq_true in H; rewrite H end.
  destruct (users d !! userID) as [r|] eqn:Er; simpl; [|done].
  destruct (bool_decide_reflect (u_status r = "active")) as [Hs|]; [by destruct (Hi _ Er)|done].
Qed.
Lemma FindMembershipRole_ok e u w role w' :
  FindMembershipRole e u w = (Ok role, w') -> role = default "" (membership_role e u w.(w_db)).
Proof. unfold FindMembershipRole. intros H1. by run_ok. Qed.
Lemma CanManageEvent_ok e u w w' :
  CanManageEvent e u w = (Ok true, w') ->
  membership_role e u w.(w_db) = Some "owner" \/ membership_role e u w.(w_db) = Some "cohost".
Proof.
  unfold CanManageEvent. intros H1. apply bind_ok in H1 as (o & w1 & Hf & H1).
  pose proof (reads_world _ _ _ _ (Store_FindByID_reads e) Hf) as Hd.
  destruct o; [|by run_ok]. apply bind_ok in H1 as (role & w2 & Hr & H1).
  apply FindMembershipRole_ok in Hr. rewrite Hd in Hr. run_ok.
  match goal with H : _ || _ = true |- _ => apply orb_true_iff in H as [H|H];
    apply bool_decide_eq_true in H end;
    destruct (membership_role e u (w_db w)); simpl in *; subst; first [done | auto].
Qed.
Lemma IsEventOwner_ok e u w w' :
  IsEventOwner e u w = (Ok true, w') -> membership_role e u w.(w_db) = Some "owner".
Proof.
  unfold IsEventOwner. intros H1. apply bind_ok in H1 as (o & w1 & Hf & H1).
  pose proof (reads_world _ _ _ _ (Store_FindByID_reads e) Hf) as Hd.
  destruct o; [|by run_ok]. apply bind_ok in H1 as (role & w2 & Hr & H1).
  apply FindMembershipRole_ok in Hr. rewrite Hd in Hr. run_ok.
  match goal with H : bool_decide _ = true |- _ => apply bool_decide_eq_true in H end.
  destruct (membership_role e u (w_db w)); simpl in *; by subst.
Qed.

(** A user who is not active (invited, disabled or deleted) cannot act: no
    request is handled as hers, no magic link logs her in, and no access check of
    an event admits her. *)
Theorem inactive_user_powerless (a : Auth.Service) (userID : string) w :
  inactive w.(w_db) userID ->
  (forall R (deny : R) cred (next next' : User -> M R),
     (forall u, u.(user_ID) <> userID -> next u = next' u) ->
     RequireAuth deny cred next w = RequireAuth deny cred next' w) /\
  (forall token resp w', VerifyMagicLink a token w = (Ok resp, w') ->
     resp.(ar_Organizer).(user_ID) <> userID) /\
  (forall eventID w', CanManageEvent eventID userID w <> (Ok true, w')) /\
  (forall eventID w', IsEventOwner eventID userID w <> (Ok true, w')).
Proof.
  intros Hi. split_and!.
  - intros R deny cred next next' Hn. unfold RequireAuth. cbv zeta. case_bool_decide; [done|].
    unfold bind, attempt. destruct (ValidateSession (extractToken cred) w) as [[u|e] w1] eqn:Ev; [|done].
    apply ValidateSession_ok in Ev as [_ (k & se & r & (_ & _ & Hr & Ha) & Hu & _)].
    apply user_of_row_ok in Hu as [Hid _]. rewrite Hn; [done|]. rewrite Hid. intros He.
    rewrite He in Hr. by apply (Hi _ Hr).
  - intros token resp w' Hv. unfold VerifyMagicLink in Hv. run_ok.
    match goal with H : FindMagicLinkByHash _ _ = _ |- _ => apply FindMagicLinkByHash_ok in H as (Hd & _ & _) end.
    destruct x as [l|]; [|by run_ok]. run_ok.
    match goal with H : read_random _ _ = _ |- _ => injection H as Hrd Hw end.
    match goal with H : consume_link _ _ _ _ = _ |- _ =>
      apply consume_link_ok in H as ((u & Hu & Hact & Hid) & _) end.
    rewrite Hid. intros He. rewrite He in Hu. apply (Hi u); [|done].
    assert (w_db x14 = w_db w) as <- by (subst x9; simpl in *; congruence). done.
  - intros e w' Hc. apply CanManageEvent_ok in Hc. rewrite membership_role_inactive in Hc by done.
    by destruct Hc.
  - intros e w' Hc. apply IsEventOwner_ok in Hc. by rewrite membership_role_inactive in Hc.
Qed.
End gate.

(** ** The hypotheses can hold *)

Definition demo_requests : list account_op :=
  [ OVerify "magic"; OInviteCohost None "ev" "x@y.z"; OAccept "offer"; ORequestLink "root@b.c";
    OSetStatus None "org" UserStatusDisabled; OPublish "ev" "org"; OCancel "ev" "org" false;
    ODeleteAccount "org" ].

Lemma accounts_sound_witness : AccountsSound (run_accounts (E:=demo_env) demo_services demo_requests staffed_world).(w_db).
Proof.
  apply (accounts_sound (E:=demo_env) demo_services demo_quiet demo_requests staffed_world).
  exact staffed_sound.
Defined.

Lemma account_history_witness : table_le user_le staffed_world.(w_db).(users)
    (run_accounts (E:=demo_env) demo_services [OVerify "magic"] staffed_world).(w_db).(users).
Proof.
  destruct (account_history (E:=demo_env) demo_services demo_quiet [OVerify "magic"] staffed_world)
    as [H _]; [|exact H].
  intros u Hu. apply list_elem_of_singleton in Hu. discriminate Hu.
Defined.



Lemma magic_link_single_use_witness :
  exists resp w1, VerifyMagicLink (E:=demo_env) demo_auth "magic" staffed_world = (Ok resp, w1) /\
    exists e w3, VerifyMagicLink (E:=demo_env) demo_auth "magic"
      (run_accounts (E:=demo_env) demo_services demo_requests w1) = (Err e, w3).
Proof.
  destruct (VerifyMagicLink (E:=demo_env) demo_auth "magic" staffed_world) as [[resp|e] w1] eqn:Hv;
    [|vm_compute in Hv; discriminate Hv].
  exists resp, w1. split; [reflexivity|].
  destruct (magic_link_single_use (E:=demo_env) demo_services "magic" staffed_world resp w1
    demo_quiet staffed_sound Hv) as (_ & _ & H).
  destruct (H demo_requests) as (e & w3 & He & _); [|exists e, w3; exact He].
  replace w1 with (VerifyMagicLink (E:=demo_env) demo_auth "magic" staffed_world).2 by (rewrite Hv; reflexivity).
  vm_compute. reflexivity.
Defined.

Lemma inactive_user_powerless_witness :
  (CanManageEvent "ev" "new" staffed_world).1 <> Ok true.
Proof.
  destruct (inactive_user_powerless (E:=demo_env) demo_auth "new" staffed_world) as (_ & _ & H & _).
  - intros r Hr. vm_compute in Hr. injection Hr as <-. discriminate.
  - intros Hc. destruct (CanManageEvent "ev" "new" staffed_world) as [r w'] eqn:He.
    simpl in Hc. rewrite Hc in He. exact (H _ _ He).
Defined.
