(* ===== verification/AdminFacts.v ===== *)
(** * What user administration and the setup promise

    Disabling a user, single use of account invitations, the cohost limit and the
    one-time bootstrap. *)

From S2P Require Import Prelude.
From S2P Require Import GoStr.
From S2P Require Import GoTime.
From S2P Require Import Schema.
From S2P Require Import Eff.
From S2P Require Import Http.
From S2P Require Import Respect.
From S2P Require Import Demo.
From S2P Require Import Tables.
From S2P Require Import History.
From S2P Require Import System.
From S2P Require Import Auth.
From S2P Require Import UserAdmin.
From S2P Require Import Event.
From S2P Require Import EventHandler.
From S2P Require Import Series.
From S2P Require Import Instance.
From S2P Require Import AccountSteps.
From S2P Require Import EventSteps.
From S2P Require Import AccountSystem.
From S2P Require Import AccountFacts.
From S2P Require Import AccountDemo.
From S2P Require Import LoginFacts.

Local Open Scope Z_scope.

Section admin.
Context `{E : Env}.

Lemma update_user_ok ctx id Q f w n w' :
  update_user ctx id Q f w = (Ok n, w') ->
  (n = 1 /\ exists r, w.(w_db).(users) !! id = Some r /\ Q r = true /\
     w'.(w_db) = set_users (fun _ => <[id := f r]> w.(w_db).(users)) w.(w_db)) \/
  (n = 0 /\ w'.(w_db) = set_users (fun _ => w.(w_db).(users)) w.(w_db)).
Proof.
  unfold update_user. intros H. run_ok. match goal with H : context [update_id] |- _ => rename H into Hu end.
  destruct (update_id id Q f _) as [t k] eqn:Eu. injection Hu as -> Hd.
  apply update_id_cases in Eu as [(-> & r & Hr & HQ & ->)|(-> & -> & _)]; [left|right]; eauto.
Qed.

Lemma InsertAudit_ok a action target meta t w u w' :
  UserAdmin.InsertAuditTx a action target meta t w = (Ok u, w') ->
  exists id al, w'.(w_db) = set_admin_audit_log <[id := al]> w.(w_db) /\
    al.(al_actor) = Some a /\ al.(al_action) = action /\ al.(al_target) = Some target.
Proof.
  unfold UserAdmin.InsertAuditTx. intros H. run_ok.
  match goal with H : insert_audit _ _ _ = _ |- _ => unfold insert_audit in H; insert_cases H; rename H into Hd end.
  eexists _, _. split; [rewrite <- Hd; match goal with H : w_db _ = w_db w |- _ => by rewrite H end|done].
Qed.

(** The actor as stored. *)
Lemma persisted_actor_ok id P w u w' :
  persisted_actor id P w = (Ok u, w') ->
  w'.(w_db) = w.(w_db) /\ P u = true /\ exists r, w.(w_db).(users) !! id = Some r /\ user_of_row id r = Ok u.
Proof.
  unfold persisted_actor. intros H. apply bind_ok in H as (o & w1 & Ho & H). destruct o as [v|]; [|done].
  apply findOrganizerByID_ok in Ho as (Hd & r & Hr & Hu). run_ok. eauto.
Qed.

Lemma is_active_admin_row id r u :
  user_of_row id r = Ok u -> is_active_admin u = true -> active_admin r = true.
Proof.
  intros (_ & Hs & _ & Ha & _)%user_of_row_ok. unfold is_active_admin, is_active, active_admin.
  by rewrite Ha, Hs.
Qed.

(** Disabling a stored user: no session and no pending invitation is left. *)
Lemma UpdateStatusTx_disabled id t w u w' :
  UpdateStatusTx id UserStatusDisabled t w = (Ok u, w') ->
  (exists r, w'.(w_db).(users) !! id = Some r /\ r.(u_status) = UserStatusDisabled) /\
  (forall k se, w'.(w_db).(sessions) !! k = Some se -> se.(us_user_id) <> id) /\
  (forall k i, w'.(w_db).(account_invites) !! k = Some i -> i.(ai_target) = id -> pending i = false).
Proof.
  unfold UpdateStatusTx, RevokePendingInvitesTx. intros H. run_ok.
  match goal with H : update_user _ _ _ _ _ = _ |- _ =>
    apply update_user_ok in H as [(-> & r & Hr & _ & Hd)|(-> & _)]; [|done] end.
  run_ok.
  split_and!; dbs.
  - rewrite lookup_insert_eq. by eexists.
  - intros k se [_ Hk%bool_decide_eq_false]%lookup_delete_where. done.
  - intros k i Hk Ht. rewrite lookup_update_where in Hk.
    match type of Hk with context [account_invites ?d !! k] =>
      destruct (account_invites d !! k) as [i0|]; [|done] end.
    injection Hk as <-. destruct (bool_decide_reflect (ai_target i0 = id)) as [Hi|Hi]; [simpl in *|by destruct Hi].
    destruct (pending i0) eqn:Hp; [by apply andb_false_r|done].
Qed.

(** A successful disabling was asked for by a stored active administrator;
    afterwards the user is disabled, and unless she already was, she has no login
    session and no pending invitation and the audit log says who did it. *)
Theorem disabling_locks_out (actor : option User) userID w w1 :
  SetUserStatus actor userID UserStatusDisabled w = (Ok (), w1) ->
  (exists a r, actor = Some a /\ w.(w_db).(users) !! a.(user_ID) = Some r /\ active_admin r = true) /\
  exists r, w1.(w_db).(users) !! userID = Some r /\ r.(u_status) = UserStatusDisabled /\
  (w.(w_db).(users) !! userID = Some r \/
   (forall k se, w1.(w_db).(sessions) !! k = Some se -> se.(us_user_id) <> userID) /\
   (forall k i, w1.(w_db).(account_invites) !! k = Some i -> i.(ai_target) = userID -> pending i = false) /\
   exists k al, w1.(w_db).(admin_audit_log) !! k = Some al /\ al.(al_action) = "user_disabled" /\
     al.(al_target) = Some userID /\ al.(al_actor) = user_ID <$> actor).
Proof.
  unfold SetUserStatus, changeUser. intros H. apply bind_ok in H as (? & w0 & Hv & H).
  apply require_ok in Hv as [_ <-]. destruct actor as [a|]; [|done].
  apply bind_ok in H as (? & w0 & Hv & H). apply require_ok in Hv as [_ <-]. run_ok.
  repeat match goal with
  | H : LockAdminMutationTx _ = _ |- _ => apply (reads_world _ _ _ _ LockAdmin_reads) in H
  | H : persisted_actor _ _ _ = _ |- _ => apply persisted_actor_ok in H as (? & Hact & ra & Hra & Hua)
  | H : findOrganizerByID _ _ = _ |- _ => apply findOrganizerByID_ok in H as (? & r & Hr & Hu)
  | H : CountActiveAdminsTx _ = _ |- _ => apply query_ok in H as (? & ? & _)
  end.
  match goal with H : apply_status _ _ _ _ ?w2 = _ |- _ => rename H into Happ;
    assert (Hw : w_db w2 = w_db w) by congruence end.
  apply user_of_row_ok in Hu as (_ & Hst & _).
  split.
  { exists a, ra. split; [done|]. split; [congruence|]. by eapply is_active_admin_row. }
  unfold apply_status in Happ. simpl in Happ.
  match type of Happ with context [bool_decide (user_Status ?x = _)] =>
    destruct (bool_decide_reflect (user_Status x = UserStatusDisabled)) as [Hs|Hs] end.
  - run_ok. exists r. assert (users (w_db w) !! userID = Some r) as Hr0 by congruence.
    split; [congruence|]. split; [congruence|by left].
  - run_ok. match goal with H : UpdateStatusTx _ _ _ _ = _ |- _ =>
      apply UpdateStatusTx_disabled in H as ((r' & Hr' & Hs') & Hse & Hin) end.
    apply InsertAudit_ok in Happ as (k & al & Hd & Hac & Han & Hta).
    exists r'. dbs. split; [done|]. split; [done|]. right.
    split; [done|]. split; [done|]. exists k, al. rewrite lookup_insert_eq. done.
Qed.

(** ** Parts of a login *)

Lemma createSession_ok hash id t w se w' :
  createSession hash id t w = (Ok se, w') ->
  exists k r, w'.(w_db) = set_sessions <[k := r]> w.(w_db) /\
    r.(us_token_hash) = hash /\ r.(us_user_id) = id.
Proof.
  unfold createSession. intros H. run_ok.
  match goal with H : insert_user_session _ _ _ = _ |- _ =>
    unfold insert_user_session in H; insert_cases H; rename H into Hd end.
  eexists _, _. split; [by dbs|done].
Qed.
Lemma TouchLastLoginTx_ok id t w u w' :
  TouchLastLoginTx id t w = (Ok u, w') ->
  exists r, w.(w_db).(users) !! id = Some r /\ r.(u_status) = UserStatusActive /\
    w'.(w_db) = set_users (fun _ => <[id := login_row (format_rfc3339 t) r]> w.(w_db).(users)) w.(w_db).
Proof.
  unfold TouchLastLoginTx. intros H. run_ok.
  match goal with H : update_user _ _ _ _ _ = _ |- _ =>
    apply update_user_ok in H as [(-> & r & Hr & Hs & Hd)|(-> & _)]; [|done] end.
  exists r. split_and!; [done| |done]. by eapply bool_decide_eq_true.
Qed.
Lemma FindOrganizerByEmail_ok email w o w' :
  FindOrganizerByEmail email w = (Ok o, w') ->
  w'.(w_db) = w.(w_db) /\
  match o with
  | None => forall k r, w.(w_db).(users) !! k = Some r -> r.(u_norm_email) <> normalizeEmail email
  | Some u => exists r, w.(w_db).(users) !! u.(user_ID) = Some r /\
                        r.(u_norm_email) = normalizeEmail email /\ user_of_row u.(user_ID) r = Ok u
  end.
Proof.
  unfold FindOrganizerByEmail, scanOrganizer. intros H. run_ok. split; [done|].
  destruct (select_row _ (users (w_db w))) as [[k r]|] eqn:Es.
  - match goal with H : res_bind _ _ = Ok _ |- _ => apply res_bind_ok in H as (u & Hu & [= <-]) end.
    apply select_row_Some in Es as [Hk He%bool_decide_eq_true].
    pose proof Hu as (Hid & _)%user_of_row_ok. rewrite Hid. eauto.
  - simplify_eq. intros k r Hk. eapply select_row_None in Es; [|done].
    by apply bool_decide_eq_false in Es.
Qed.

(** ** Account invitations *)

Lemma invite_of_row_ok id r i :
  invite_of_row id r = Ok i ->
  i.(inv_ID) = id /\ i.(inv_TargetUserID) = r.(ai_target) /\ i.(inv_EventID) = r.(ai_event_id) /\
  i.(inv_EventRole) = r.(ai_event_role).
Proof.
  unfold invite_of_row. intros H.
  repeat match goal with H : res_bind _ _ = Ok _ |- _ => apply res_bind_ok in H as (? & _ & H) end.
  by injection H as <-.
Qed.
Lemma FindLiveInvite_ok hash t w o w' :
  FindLiveInviteByHashTx hash t w = (Ok o, w') ->
  w'.(w_db) = w.(w_db) /\
  forall i, o = Some i ->
    exists r, w.(w_db).(account_invites) !! i.(inv_ID) = Some r /\ r.(ai_token_hash) = hash /\
      live_invite (format_rfc3339 t) r = true /\ i.(inv_TargetUserID) = r.(ai_target) /\
      i.(inv_EventID) = r.(ai_event_id) /\ i.(inv_EventRole) = r.(ai_event_role).
Proof.
  unfold FindLiveInviteByHashTx, scanInvite. intros H. run_ok. split; [done|]. intros i ->.
  match goal with H : match ?x with _ => _ end = _ |- _ =>
    destruct x as [[k r]|] eqn:Es; [|done]; apply res_bind_ok in H as (i' & Hi & [= ->]) end.
  apply select_row_Some in Es as [Hk [Hh%bool_decide_eq_true Hl]%andb_true_iff].
  pose proof Hi as (-> & ?)%invite_of_row_ok. destruct_and!. eauto 10.
Qed.
Lemma ConsumeInviteTx_ok id t w u w' :
  ConsumeInviteTx id t w = (Ok u, w') ->
  exists r, w.(w_db).(account_invites) !! id = Some r /\
    w'.(w_db) = set_account_invites (fun _ => <[id := accept_invite_row (format_rfc3339 t) r]>
                  w.(w_db).(account_invites)) w.(w_db).
Proof.
  unfold ConsumeInviteTx, update_invite. intros H. run_ok.
  match goal with H : context [update_id] |- _ => rename H into Hu end.
  destruct (update_id id _ _ _) as [t' n] eqn:Eu. injection Hu as -> Hd.
  apply update_id_cases in Eu as [(-> & r & Hr & _ & ->)|(-> & _)]; [|done]. eauto.
Qed.
Lemma ActivateInvitedUserTx_ok id t w o w' :
  ActivateInvitedUserTx id t w = (Ok o, w') ->
  exists r, w.(w_db).(users) !! id = Some r /\ r.(u_status) = UserStatusInvited /\
    w'.(w_db) = set_users (fun _ => <[id := activate_row (format_rfc3339 t) r]> w.(w_db).(users)) w.(w_db) /\
    forall u, o = Some u -> u.(user_ID) = id.
Proof.
  unfold ActivateInvitedUserTx. intros H. run_ok.
  match goal with H : update_user _ _ _ _ _ = _ |- _ =>
    apply update_user_ok in H as [(-> & r & Hr & Hs & Hd)|(-> & _)]; [|done] end.
  match goal with H : findOrganizerByID _ _ = _ |- _ =>
    pose proof (reads_world _ _ _ _ (findOrganizerByID_reads _) H) as Hd'; rename H into Hf end.
  exists r. split_and!; [done| |congruence|]; [by eapply bool_decide_eq_true|].
  intros u ->. by apply findOrganizerByID_ok in Hf as (_ & ? & _ & (? & _)%user_of_row_ok).
Qed.
Lemma or_err_ok {A} e (m : M A) w a w' : or_err e m w = (Ok a, w') -> m w = (Ok a, w').
Proof. unfold or_err. destruct (m w) as [[]]; naive_solver. Qed.

(** A granted membership changes neither users nor invitations. *)
Lemma grant_cohost_ok i id t w u w' :
  grant_cohost i id t w = (Ok u, w') ->
  w'.(w_db).(users) = w.(w_db).(users) /\ w'.(w_db).(account_invites) = w.(w_db).(account_invites) /\
  forall e, i.(inv_EventID) = Some e -> i.(inv_EventRole) = Some "cohost" ->
    exists k m, w'.(w_db).(event_memberships) !! k = Some m /\ m.(em_event_id) = e /\
                m.(em_user_id) = id /\ m.(em_role) = "cohost".
Proof.
  unfold grant_cohost, LockEventTx, CreateCohostMembershipTx. intros H.
  destruct (inv_EventID i) as [e|]; [destruct (inv_EventRole i) as [role|]|]; [| |by run_ok].
  2: { run_ok. split_and!; [done|done|]. by intros ? _. }
  destruct (bool_decide_reflect (role = "cohost")) as [Hro|Hr]; [subst role|].
  - run_ok. repeat match goal with H : or_err _ _ _ = _ |- _ => apply or_err_ok in H end. run_ok.
    match goal with H : insert_membership _ _ _ = _ |- _ =>
      unfold insert_membership in H; insert_cases H; rename H into Hd end.
    split_and!; dbs; [done|done|]. intros e' [= <-] _. eexists _, _. by rewrite lookup_insert_eq.
  - run_ok. split_and!; [done|done|]. by intros e' _ [= ->].
Qed.


(** The transaction of an acceptance. *)
Lemma accept_invite_tx_ok s token t w resp w' :
  accept_invite_tx s token t w = (Ok resp, w') ->
  exists k i u, w.(w_db).(account_invites) !! k = Some i /\ i.(ai_token_hash) = tokenDigest token /\
    live_invite (format_rfc3339 t) i = true /\ w.(w_db).(users) !! i.(ai_target) = Some u /\
    u.(u_status) = UserStatusInvited /\ resp.(ar_Organizer).(user_ID) = i.(ai_target) /\
    (exists u', w'.(w_db).(users) !! i.(ai_target) = Some u' /\ u'.(u_status) = UserStatusActive) /\
    (exists i', w'.(w_db).(account_invites) !! k = Some i' /\ i'.(ai_accepted_at) <> None) /\
    forall e, i.(ai_event_id) = Some e -> i.(ai_event_role) = Some "cohost" ->
      exists k' m, w'.(w_db).(event_memberships) !! k' = Some m /\ m.(em_event_id) = e /\
                   m.(em_user_id) = i.(ai_target) /\ m.(em_role) = "cohost".
Proof.
  unfold accept_invite_tx. intros H. apply bind_ok in H as (o & w1 & Hf & H).
  apply FindLiveInvite_ok in Hf as [Hd1 Hf]. destruct o as [inv|]; [|done].
  destruct (Hf _ eq_refl) as (i & Hi & Hh & Hl & Ht & He & Hr). run_ok.
  repeat match goal with H : or_err _ _ _ = _ |- _ => apply or_err_ok in H end.
  repeat match goal with
  | H : ConsumeInviteTx _ _ _ = _ |- _ => apply ConsumeInviteTx_ok in H as (i1 & Hi1 & ?)
  | H : ActivateInvitedUserTx _ _ _ = _ |- _ => apply ActivateInvitedUserTx_ok in H as (u & Hu & Hs & ? & Hid)
  | H : grant_cohost _ _ _ _ = _ |- _ => apply grant_cohost_ok in H as (Hgu & Hgi & Hgm)
  | H : createSession _ _ _ _ = _ |- _ => apply createSession_ok in H as (? & ? & ? & _)
  | H : TouchLastLoginTx _ _ _ = _ |- _ => apply TouchLastLoginTx_ok in H as (u' & Hu' & Hs' & ?)
  | H : generateToken _ _ = _ |- _ => apply (reads_world _ _ _ _ (generateToken_reads _)) in H
  end.
  specialize (Hid _ eq_refl). rewrite Hid, Ht in *. rewrite He, Hr in Hgm.
  exists (inv_ID inv), i, u.
  match goal with H : w_db w1 = _, H' : w_db _ = set_account_invites _ _, H2 : w_db _ = set_users _ _ |- _ =>
    rename H' into Hd2 end.
  rewrite Hd2 in Hu. simpl in Hu. rewrite Hd1 in Hu.
  split_and!; try done; dbs.
  - rewrite lookup_insert_eq. eexists. by split.
  - rewrite Hgi. dbs. rewrite lookup_insert_eq. eexists. by split.
  - done.
Qed.

(** An account invitation that was accepted was pending, unexpired and of an
    invited user, whom it activated and, if it offered it, made a cohost; after it,
    whatever requests and driver faults follow, the deletion of accounts aside,
    accepting the same token again fails and writes nothing. *)
Theorem account_invite_single_use (s : Services) token w resp w1 :
  quiet_services s -> AccountsSound w.(w_db) ->
  AcceptInvite s.(sv_auth) token w = (Ok resp, w1) ->
  (exists k i u u', w.(w_db).(account_invites) !! k = Some i /\
     i.(ai_token_hash) = tokenDigest (trim_space token) /\
     live_invite (format_rfc3339 (clock w.(w_clock))) i = true /\
     w.(w_db).(users) !! i.(ai_target) = Some u /\ u.(u_status) = UserStatusInvited /\
     resp.(ar_Organizer).(user_ID) = i.(ai_target) /\
     w1.(w_db).(users) !! i.(ai_target) = Some u' /\ u'.(u_status) = UserStatusActive /\
     forall e, i.(ai_event_id) = Some e -> i.(ai_event_role) = Some "cohost" ->
       exists k' m, w1.(w_db).(event_memberships) !! k' = Some m /\ m.(em_event_id) = e /\
                    m.(em_user_id) = i.(ai_target) /\ m.(em_role) = "cohost") /\
  forall ops, (forall u, ODeleteAccount u ∉ ops) -> let w2 := run_accounts s ops w1 in
    exists e w3, AcceptInvite s.(sv_auth) token w2 = (Err e, w3) /\ w3.(w_db) = w2.(w_db).
Proof.
  intros Hq Hs Ha. pose proof (AcceptInvite_steps s any_change token w) as Hst. rewrite Ha in Hst. simpl in Hst.
  unfold AcceptInvite in Ha.
  destruct (bool_decide_reflect (trim_space token = "")) as [|Hne]; [done|].
  apply bind_ok in Ha as (t & w0 & Ht & Ha). apply now_ok in Ht as (-> & Hd0 & _).
  apply with_tx_ok in Ha as (wa & wb & Ha & Hda & Hdb & _).
  apply accept_invite_tx_ok in Ha as
    (k & i & u & Hi & Hh & Hl & Hu & Hus & Hid & (u' & Hu' & Hus') & (i' & Hi' & Hacc) & Hm).
  rewrite Hda, Hd0 in *. rewrite <- Hdb in *.
  split; [exists k, i, u, u'; by split_and!|].
  intros ops Hnd w2. destruct (AcceptInvite (sv_auth s) token w2) as [[r2|e] w3] eqn:Ea.
  - exfalso. unfold AcceptInvite in Ea. rewrite bool_decide_false in Ea by done.
    apply bind_ok in Ea as (t & w4 & Ht & Ea). apply now_ok in Ht as (-> & Hd4 & _).
    apply with_tx_ok in Ea as (wc & wd & Ea & Hdc & _).
    apply accept_invite_tx_ok in Ea as (k2 & i2 & _ & Hi2 & Hh2 & Hl2 & _). rewrite Hdc, Hd4 in Hi2.
    assert (acc_evolves (w_db w1) (w_db w2)) as Hrun by apply (run_accounts_evolve s Hq ops w1 Hnd).
    assert (acc_evolves (w_db w) (w_db w2)) as Hall by (etrans; [by eapply acc_steps_evolve|exact Hrun]).
    assert (AccountsSound (w_db w2)) as Hs2.
    { apply (run_accounts_sound s Hq ops w1). by eapply acc_steps_sound. }
    destruct (ae_invites _ _ Hall _ _ Hi) as (i3 & Hi3 & Hh3 & _).
    destruct (ae_invites _ _ Hrun _ _ Hi') as (i4 & Hi4 & _ & _ & _ & _ & _ & _ & Hp).
    assert (k2 = k) as -> by (eapply (as_invites _ Hs2); [exact Hi2|exact Hi3|congruence]).
    rewrite Hi2 in Hi3, Hi4. simplify_eq. unfold live_invite, pending in *.
    destruct (ai_accepted_at i') as [x|] eqn:Ex; [|done]. simpl in Hp. destruct (Hp eq_refl) as [Hp1 _].
    by rewrite Hp1 in Hl2.
  - exists e, w3. split; [done|]. unfold AcceptInvite in Ea. rewrite bool_decide_false in Ea by done.
    unfold bind at 1, now in Ea. by apply with_tx_err in Ea.
Qed.
End admin.

(** ** The hypotheses can hold *)

Lemma disabling_locks_out_witness :
  exists w1, SetUserStatus (E:=demo_env) demo_root "org" UserStatusDisabled staffed_world = (Ok (), w1) /\
    exists r, w1.(w_db).(users) !! "org" = Some r /\ r.(u_status) = UserStatusDisabled.
Proof.
  destruct (SetUserStatus (E:=demo_env) demo_root "org" UserStatusDisabled staffed_world)
    as [[[]|e] w1] eqn:Hv; [|vm_compute in Hv; discriminate Hv].
  exists w1. split; [reflexivity|].
  destruct (disabling_locks_out (E:=demo_env) demo_root "org" staffed_world w1 Hv)
    as (_ & r & H1 & H2 & _). exists r. split; [exact H1|exact H2].
Defined.

Lemma account_invite_single_use_witness :
  exists resp w1, AcceptInvite (E:=demo_env) demo_auth "offer" staffed_world = (Ok resp, w1) /\
    exists e w3, AcceptInvite (E:=demo_env) demo_auth "offer"
      (run_accounts (E:=demo_env) demo_services [OAccept "offer"] w1) = (Err e, w3).
Proof.
  destruct (AcceptInvite (E:=demo_env) demo_auth "offer" staffed_world) as [[resp|e] w1] eqn:Hv;
    [|vm_compute in Hv; discriminate Hv].
  exists resp, w1. split; [reflexivity|].
  destruct (account_invite_single_use (E:=demo_env) demo_services "offer" staffed_world resp w1
    demo_quiet staffed_sound Hv) as (_ & H).
  destruct (H [OAccept "offer"]) as (e & w3 & He & _); [|exists e, w3; exact He].
  intros u Hu. apply list_elem_of_singleton in Hu. discriminate Hu.
Defined.
