(* ===== verification/EventAdminFacts.v ===== *)
(** * What event administration promises

    A transfer that succeeds was asked for by a stored active administrator,
    leaves the event with the new owner alone, makes the old one a cohost, and
    changes no other membership; an administrator who joins gets a cohost's row
    and no more. *)

From S2P Require Import Prelude.
From S2P Require Import GoStr.
From S2P Require Import GoTime.
From S2P Require Import Schema.
From S2P Require Import Eff.
From S2P Require Import Http.
From S2P Require Import Respect.
From S2P Require Import Demo.
From S2P Require Import Tables.
From S2P Require Import History.
From S2P Require Import System.
From S2P Require Import Auth.
From S2P Require Import UserAdmin.
From S2P Require Import Event.
From S2P Require Import Instance.
From S2P Require Import EventAdmin.
From S2P Require Import AccountSteps.
From S2P Require Import AccountSystem.
From S2P Require Import AccountFacts.
From S2P Require Import AccountDemo.
From S2P Require Import AdminFacts.

Local Open Scope Z_scope.

Section event_admin.
Context `{E : Env}.

Lemma authorize_ok a e w p w' :
  authorize a e w = (Ok p, w') ->
  w'.(w_db) = w.(w_db) /\ is_Some (w.(w_db).(events) !! e) /\ p.1.(user_ID) = a.(user_ID) /\
  exists r, w.(w_db).(users) !! a.(user_ID) = Some r /\ active_admin r = true.
Proof.
  intros H. pose proof (reads_world _ _ _ _ (authorize_reads a e) H) as Hd. split; [done|].
  unfold authorize in H. apply bind_ok in H as (f & w1 & Hq & H). apply query_ok in Hq as (-> & Hd1 & _).
  apply bind_ok in H as (? & w2 & Hr & H).
  apply require_ok in Hr as [Hev%bool_decide_eq_true <-]. split; [done|].
  apply bind_ok in H as (o & w3 & Ho & H). destruct o as [u|]; [|done].
  apply findOrganizerByID_ok in Ho as (_ & r & Hr & Hu). run_ok. simpl.
  rewrite Hd1 in Hr. pose proof (is_active_admin_row _ _ _ Hu ltac:(eassumption)).
  apply user_of_row_ok in Hu as (Hid & _). eauto.
Qed.

Lemma beginAuthorized_ok actor e c k w x w' :
  beginAuthorized actor e c k w = (Ok x, w') ->
  exists a r, actor = Some a /\ w.(w_db).(users) !! a.(user_ID) = Some r /\ active_admin r = true /\
    is_Some (w.(w_db).(events) !! e) /\
    exists u t w1 w2, u.(user_ID) = a.(user_ID) /\ w1.(w_db) = w.(w_db) /\
      k u t w1 = (Ok x, w2) /\ w2.(w_db) = w'.(w_db).
Proof.
  unfold beginAuthorized. destruct actor as [a|]; [|done]. intros H.
  apply with_tx_ok in H as (w0 & w1 & H & Hw0 & Hw1 & _).
  apply bind_ok in H as (p & w2 & Ha%authorize_ok & H).
  destruct Ha as (Hd & He & Hid & r & Hr & Hadm). rewrite Hw0 in *.
  exists a, r. split_and!; try done. exists p.1, p.2, w2, w1. split_and!; congruence.
Qed.

Lemma Instance_audit_ok a k act t e meta now_ w x w' :
  Instance.InsertAuditTx a k act t e meta now_ w = (Ok x, w') ->
  exists id al, w'.(w_db) = set_admin_audit_log <[id := al]> w.(w_db) /\
    al.(al_actor) = a /\ al.(al_action) = act /\ al.(al_target) = t /\ al.(al_event) = e.
Proof.
  unfold Instance.InsertAuditTx. intros H. run_ok.
  match goal with H : insert_audit _ _ _ = _ |- _ => unfold insert_audit in H; insert_cases H; rename H into Hd end.
  eexists _, _. split; [rewrite <- Hd; match goal with H : w_db _ = w_db w |- _ => by rewrite H end|done].
Qed.

(** How a transfer of [e] to [u] changes one row. *)
Definition handed (e u : string) (m m' : MembershipRow) : Prop :=
  member_key m' = member_key m /\
  m'.(em_role) = (if member_of e u m then "owner" else if owner_of e m then "cohost" else m.(em_role)) /\
  (member_of e u m = false -> owner_of e m = false -> m' = m).

Definition handed_over (e u : string) (t t' : gmap string MembershipRow) : Prop :=
  (forall k m, t !! k = Some m -> exists m', t' !! k = Some m' /\ handed e u m m') /\
  (forall k m', t' !! k = Some m' -> is_Some (t !! k) \/ member_of e u m' = true) /\
  (exists k m', t' !! k = Some m' /\ member_of e u m' = true /\ m'.(em_role) = "owner").

Lemma owner_of_spec e m : owner_of e m = true <-> m.(em_event_id) = e /\ m.(em_role) = "owner".
Proof. unfold owner_of. by rewrite andb_true_iff, !bool_decide_eq_true. Qed.
Lemma member_of_spec e u m : member_of e u m = true <-> m.(em_event_id) = e /\ m.(em_user_id) = u.
Proof. unfold member_of. by rewrite andb_true_iff, !bool_decide_eq_true. Qed.
Lemma member_of_owner e m : owner_of e m = true -> member_of e m.(em_user_id) m = true.
Proof. rewrite owner_of_spec, member_of_spec. tauto. Qed.

(** The demotion and the promotion, row by row. *)
Definition demoted_row (e old g now : string) (m : MembershipRow) : MembershipRow :=
  if member_of e old m && owner_of e m then regrant_row "cohost" g now m else m.
Definition promoted_row (e u g now : string) (m : MembershipRow) : MembershipRow :=
  if member_of e u m then regrant_row "owner" g now m else m.

Lemma demoted_handed e u old g now m :
  (owner_of e m = true -> m.(em_user_id) = old) -> old <> u ->
  handed e u m (promoted_row e u g now (demoted_row e old g now m)).
Proof.
  intros Hone Hne. unfold handed, promoted_row, demoted_row.
  destruct (owner_of e m) eqn:Ho.
  - rewrite <- (Hone eq_refl), (member_of_owner _ _ Ho). simpl.
    assert (member_of e u (regrant_row "cohost" g now m) = false) as ->.
    { unfold member_of. simpl. rewrite Hone by done. by rewrite (bool_decide_eq_false_2 _ Hne), andb_false_r. }
    assert (member_of e u m = false) as ->; [|done].
    unfold member_of. rewrite Hone by done. by rewrite (bool_decide_eq_false_2 _ Hne), andb_false_r.
  - rewrite andb_false_r. by destruct (member_of e u m).
Qed.
Lemma demoted_not_promoted e u old g now m :
  (owner_of e m = true -> m.(em_user_id) = old) -> old <> u ->
  member_of e u (demoted_row e old g now m) = false ->
  handed e u m (demoted_row e old g now m).
Proof.
  intros Hone Hne Hf. pose proof (demoted_handed e u old g now m Hone Hne) as H.
  unfold promoted_row in H. by rewrite Hf in H.
Qed.

Lemma moved_handed e u old g now d n d1 d2 k0 m0 :
  AccountsSound d ->
  d.(event_memberships) !! k0 = Some m0 -> owner_of e m0 = true -> m0.(em_user_id) = old -> old <> u ->
  update_members (fun m => member_of e old m && owner_of e m) "cohost" g now d = Some (n, d1) ->
  promoted e u g now d1 d2 ->
  handed_over e u d.(event_memberships) d2.(event_memberships).
Proof.
  intros Hs Hk0 Hm0 Hold Hne (_ & -> & _)%update_members_ok Hp.
  assert (forall k m, d.(event_memberships) !! k = Some m -> owner_of e m = true ->
    m.(em_user_id) = old) as Hone.
  { intros k m Hk Hm. pose proof Hm as Hm'. rewrite owner_of_spec in Hm, Hm0. destruct_and!.
    assert (k = k0) as -> by (eapply (as_one_owner _ Hs); eauto; unfold is_owner_row; congruence).
    congruence. }
  assert (forall k, event_memberships (set_event_memberships (fun _ =>
      update_where (fun _ m => member_of e old m && owner_of e m) (regrant_row "cohost" g now)
        (event_memberships d)) d) !! k = demoted_row e old g now <$> event_memberships d !! k) as Hdem.
  { intros k. simpl. rewrite lookup_update_where. by destruct (event_memberships d !! k). }
  destruct Hp as [(n2 & Hn & (Hc & -> & _)%update_members_ok)|(Hc & id & Hi)].
  - simpl in Hdem. split; [|split].
    + intros k m Hk. simpl. rewrite lookup_update_where, Hdem, Hk. simpl.
      eexists. split; [done|]. apply demoted_handed; eauto.
    + intros k m'. simpl. rewrite lookup_update_where, Hdem. destruct (_ !! k); [by left; eexists|done].
    + simpl in Hc. unfold count in Hc. destruct (select _ _) as [|[k m] l] eqn:Es; [by simpl in Hc|].
      assert ((k, m) ∈ (k, m) :: l) as Hin by left.
      rewrite <- Es in Hin. apply elem_of_select in Hin as [Hk Hm].
      exists k, (regrant_row "owner" g now m). simpl. rewrite lookup_update_where, Hk. simpl.
      rewrite Hm. done.
  - pose proof Hi as Hi0. unfold insert_membership in Hi. insert_cases Hi.
    match goal with H : negb (has id _) = true |- _ => apply has_false in H; rename H into Hnew end.
    rewrite Hdem in Hnew. split; [|split].
    + intros k m Hk. exists (demoted_row e old g now m). simpl.
      rewrite lookup_insert_ne by (intros ->; by rewrite Hk in Hnew).
      simpl in Hdem. rewrite Hdem, Hk. split; [done|]. apply demoted_not_promoted; eauto.
      refine (count_zero (fun _ => member_of e u) _ k _ Hc _). simpl. by rewrite Hdem, Hk.
    + intros k m'. simpl. rewrite lookup_insert_Some. simpl in Hdem. rewrite Hdem.
      intros [[_ <-]|[_ Hk]]; [right|left; by destruct (event_memberships d !! k)].
      unfold member_of. simpl. by rewrite !bool_decide_eq_true_2.
    + exists id. eexists. simpl. rewrite lookup_insert_eq. split; [done|]. unfold member_of. simpl.
      by rewrite !bool_decide_eq_true_2.
Qed.

Lemma not_moved_handed e u d k0 m0 :
  AccountsSound d ->
  d.(event_memberships) !! k0 = Some m0 -> owner_of e m0 = true -> m0.(em_user_id) = u ->
  handed_over e u d.(event_memberships) d.(event_memberships).
Proof.
  intros Hs Hk0 Hm0 <-. pose proof (member_of_owner _ _ Hm0) as Hu. split_and!.
  - intros k m Hk. exists m. split; [done|]. split_and!; [done| |done].
    destruct (member_of e _ m) eqn:Em.
    + assert (k = k0) as ->; [|apply owner_of_spec in Hm0; simplify_eq; tauto].
      eapply (as_members _ Hs); [done..|]. unfold member_key.
      rewrite member_of_spec in Hu, Em. destruct_and!. congruence.
    + destruct (owner_of e m) eqn:Eo; [|done].
      assert (k = k0) as ->; [|simplify_eq; congruence].
      rewrite owner_of_spec in Hm0, Eo. unfold is_owner_row in *. destruct_and!.
      eapply (as_one_owner _ Hs); [done..|congruence].
  - intros k m' Hk. left. by eexists.
  - exists k0, m0. rewrite owner_of_spec in Hm0. by destruct_and!.
Qed.

Lemma transfer_ok actor e u w w' :
  AccountsSound w.(w_db) -> TransferOwnership actor e u w = (Ok (), w') ->
  (exists a r, actor = Some a /\ w.(w_db).(users) !! a.(user_ID) = Some r /\ active_admin r = true) /\
  (exists r, w.(w_db).(users) !! u = Some r /\ r.(u_status) = UserStatusActive) /\
  handed_over e u w.(w_db).(event_memberships) w'.(w_db).(event_memberships) /\
  (w'.(w_db) = w.(w_db) \/
   exists k al, w'.(w_db).(admin_audit_log) !! k = Some al /\ al.(al_actor) = user_ID <$> actor /\
     al.(al_action) = "event_ownership_transferred" /\ al.(al_target) = Some u /\ al.(al_event) = Some e).
Proof.
  intros Hs H. apply beginAuthorized_ok in H as (a & ra & -> & Hra & Hadm & _ & v & t & w1 & w2 & Hv & Hw1 & Hm & <-).
  apply move_ownership_ok in Hm as (old & r & k & m & Hu & Hst & Hk & Ho & Hold & Hm). rewrite Hw1 in *.
  split; [eauto|]. split; [eauto|].
  destruct Hm as [[-> ->]|(Hne & n & d & w3 & Hd & Hp & Ha)].
  - split; [by eapply not_moved_handed|by left].
  - apply Instance_audit_ok in Ha as (ka & al & Hdb & Hac & Han & Hta & Hev). rewrite Hdb.
    split.
    { exact (moved_handed _ _ _ _ _ _ _ _ _ _ _ Hs Hk Ho Hold Hne Hd Hp). }
    right. exists ka, al. simpl. by rewrite lookup_insert_eq, Hac, Hv.
Qed.

(** [C31] A transfer that succeeds was asked for by a stored active administrator and
    names a stored active user.  Afterwards that user is the owner of the event
    and nobody else is; the former owner is a cohost; every other membership is
    as it was and no other appeared; and unless the user owned the event
    already, the audit log names the administrator, the user and the event. *)
Theorem ownership_transferred actor e u w w' :
  AccountsSound w.(w_db) -> TransferOwnership actor e u w = (Ok (), w') ->
  (exists a r, actor = Some a /\ w.(w_db).(users) !! a.(user_ID) = Some r /\ active_admin r = true) /\
  (exists r, w.(w_db).(users) !! u = Some r /\ r.(u_status) = UserStatusActive) /\
  handed_over e u w.(w_db).(event_memberships) w'.(w_db).(event_memberships) /\
  (forall k m, w'.(w_db).(event_memberships) !! k = Some m -> owner_of e m = true -> m.(em_user_id) = u) /\
  AccountsSound w'.(w_db) /\
  (w'.(w_db) = w.(w_db) \/
   exists k al, w'.(w_db).(admin_audit_log) !! k = Some al /\ al.(al_actor) = user_ID <$> actor /\
     al.(al_action) = "event_ownership_transferred" /\ al.(al_target) = Some u /\ al.(al_event) = Some e).
Proof.
  intros Hs H. destruct (transfer_ok _ _ _ _ _ Hs H) as (Ha & Hu & Hh & Hl).
  assert (AccountsSound w'.(w_db)) as Hs'.
  { pose proof (TransferOwnership_steps any_change actor e u w) as Hst. rewrite H in Hst.
    by apply (acc_steps_sound _ _ _ Hst). }
  split_and!; try done. intros k m Hk Ho. destruct Hh as (_ & _ & k' & m' & Hk' & Hm' & Hr).
  rewrite owner_of_spec in Ho. rewrite member_of_spec in Hm'. destruct_and!.
  assert (k = k') as ->; [|simplify_eq; done].
  eapply (as_one_owner _ Hs'); [done..|congruence].
Qed.

(** An administrator who joins: no membership of others changes, and the new
    row, if any, is the administrator's, as a cohost. *)
Theorem administrator_joins actor e w w' :
  AddSelf actor e w = (Ok (), w') ->
  exists a r, actor = Some a /\ w.(w_db).(users) !! a.(user_ID) = Some r /\ active_admin r = true /\
  (exists k m, w'.(w_db).(event_memberships) !! k = Some m /\ member_of e a.(user_ID) m = true) /\
  (w'.(w_db) = w.(w_db) \/
   exists k m ka al,
     w'.(w_db).(event_memberships) = <[k := m]> w.(w_db).(event_memberships) /\
     w.(w_db).(event_memberships) !! k = None /\ m.(em_role) = "cohost" /\
     member_of e a.(user_ID) m = true /\
     w'.(w_db).(admin_audit_log) !! ka = Some al /\ al.(al_actor) = Some a.(user_ID) /\
     al.(al_action) = "administrator_joined_event" /\ al.(al_event) = Some e).
Proof.
  intros H. apply beginAuthorized_ok in H as (a & ra & -> & Hra & Hadm & _ & v & t & w1 & w2 & Hv & Hw1 & Hj & <-).
  exists a, ra. split; [done|]. split; [done|]. split; [done|]. unfold join_event in Hj.
  apply bind_ok in Hj as (o & w3 & Hq & Hj). unfold membership_role in Hq.
  apply query_ok in Hq as (-> & Hw3 & _). rewrite Hw1, Hv in *.
  destruct (select_row _ _) as [[k m]|] eqn:Es; simpl in Hj.
  - apply select_row_Some in Es as [Hk Hm]. injection Hj as <-. rewrite Hw3.
    split; [eauto|by left].
  - apply bind_ok in Hj as (id & w4 & Hid & Hj). apply new_uuid_ok in Hid as (_ & Hw4 & _).
    apply bind_ok in Hj as ([] & w5 & Hi & Hj). apply exec_ok in Hi as (Hi & _).
    apply Instance_audit_ok in Hj as (ka & al & Hdb & Hac & Han & _ & Hev). rewrite Hw4, Hw3 in Hi.
    unfold insert_membership in Hi. insert_cases Hi. rewrite Hdb, <- Hi. simpl.
    match goal with H : negb (has id _) = true |- _ => apply has_false in H; rename H into Hnew end.
    split.
    { exists id. eexists. rewrite lookup_insert_eq. split; [done|]. by apply member_of_spec. }
    right. exists id. eexists _, ka, al. rewrite lookup_insert_eq.
    split_and!; try done. by apply member_of_spec.
Qed.
(** ** The command of the host *)

Lemma PromoteBootstrapAdmin_ok id name tz t w o w' :
  PromoteBootstrapAdminTx id name tz t w = (Ok o, w') ->
  exists r u, w.(w_db).(users) !! id = Some r /\ o = Some u /\ u.(user_ID) = id /\
    w'.(w_db) = set_users (fun _ => <[id := promote_row name (if bool_decide (tz = "") then "UTC" else tz)
                                              (format_rfc3339 t) r]> w.(w_db).(users)) w.(w_db).
Proof.
  unfold PromoteBootstrapAdminTx. intros H. run_ok.
  match goal with H : update_user _ _ _ _ _ = _ |- _ =>
    apply update_user_ok in H as [(-> & r & Hr & _ & Hd)|(-> & _)]; [|done] end.
  destruct o as [u|].
  - apply findOrganizerByID_ok in H as (Hd' & r' & Hr' & (Hid & _)%user_of_row_ok).
    exists r, u. split_and!; congruence.
  - exfalso. unfold findOrganizerByID, scanOrganizer in H. run_ok.
    rewrite Hd in *. simpl in *. rewrite lookup_insert_eq in *. simpl in *.
    repeat match goal with X : res_bind _ _ = Ok _ |- _ => apply res_bind_ok in X as (? & _ & X) end. discriminate.
Qed.

(** The command of the host that succeeds made exactly one user, whose stored address
    is the one given, an active administrator; nobody else changed, and the audit log
    says that the host did it. *)
Theorem administrator_promoted email w u w' :
  PromoteAdmin email w = (Ok u, w') ->
  exists r r', w.(w_db).(users) !! u.(user_ID) = Some r /\
    r.(u_norm_email) = normalizeEmail (to_lower (trim_space email)) /\
    w'.(w_db).(users) = <[u.(user_ID) := r']> w.(w_db).(users) /\ active_admin r' = true /\
    same_identity r r' /\ r'.(u_display_name) = r.(u_display_name) /\
    exists k al, w'.(w_db).(admin_audit_log) !! k = Some al /\ al.(al_actor) = None /\
      al.(al_action) = "emergency_role_recovery" /\ al.(al_target) = Some u.(user_ID).
Proof.
  unfold PromoteAdmin, promote_tx. case_bool_decide as Hne; [done|]. intros H. run_ok.
  match goal with H : FindOrganizerByEmail _ _ = _ |- _ =>
    apply FindOrganizerByEmail_ok in H as [Hd Hf]; rename x3 into o end.
  destruct o as [user|]; [|done]. destruct Hf as (r & Hr & Hn & Hu).
  assert (user.(user_Name) = r.(u_display_name)) as Hname.
  { unfold user_of_row in Hu. repeat (apply res_bind_ok in Hu as (? & _ & Hu)). by injection Hu as <-. }
  run_ok.
  match goal with H : PromoteBootstrapAdminTx _ _ _ _ _ = _ |- _ =>
    apply PromoteBootstrapAdmin_ok in H as (r1 & u1 & Hr1 & [= <-] & Hid & Hd1) end.
  match goal with H : Instance.InsertAuditTx _ _ _ _ _ _ _ _ = _ |- _ =>
    apply Instance_audit_ok in H as (ka & al & Hd2 & Ha & Hac & Ht & _) end.
  repeat match goal with H : w_db ?x = w_db _ |- _ => is_var x; rewrite H in *; clear H end.
  assert (r1 = r) as -> by congruence. rewrite Hd2, Hd1. simpl. rewrite Hid. eexists r, _.
  split_and!; [done..| |done|]; [done|].
  exists ka, al. rewrite lookup_insert_eq. split_and!; congruence.
Qed.
Lemma promoted_reads k r u name tz t :
  user_of_row k r = Ok u -> time_ok t = true ->
  exists u', user_of_row k (promote_row name tz (format_rfc3339 t) r) = Ok u' /\ u'.(user_ID) = k.
Proof.
  intros Hu Ht. unfold user_of_row in *. simpl.
  apply res_bind_ok in Hu as (act & Hact & Hu). apply res_bind_ok in Hu as (login & Hlogin & Hu).
  apply res_bind_ok in Hu as (created & Hcreated & _).
  assert (parse_time "parse updated_at" (format_rfc3339 t) = Ok (floor_sec t)) as Hp
    by (unfold parse_time; by rewrite parse_rfc3339_format).
  assert (exists a, parse_time "parse activated_at" (default (format_rfc3339 t) r.(u_activated_at)) = Ok a)
    as [a ->].
  { destruct r.(u_activated_at); simpl in *.
    - apply res_bind_ok in Hact as (a & Ha & _). eauto.
    - unfold parse_time. rewrite parse_rfc3339_format by done. eauto. }
  simpl. rewrite Hlogin. simpl. rewrite Hcreated. simpl. rewrite Hp. simpl. eauto.
Qed.

Lemma FindOrganizerByEmail_run email w k r u :
  w.(w_faults) = [] -> uniq u_norm_email w.(w_db).(users) -> w.(w_db).(users) !! k = Some r ->
  r.(u_norm_email) = normalizeEmail email -> user_of_row k r = Ok u ->
  FindOrganizerByEmail email w = (Ok (Some u), w).
Proof.
  intros Hf Hu Hr Hn Hok. unfold FindOrganizerByEmail, scanOrganizer.
  erewrite bind_run by (by apply query_run). erewrite (select_row_unique _ _ k r); [|done|..].
  - unfold of_res. by rewrite Hok.
  - by apply bool_decide_eq_true.
  - intros k' r' Hk' Hn'%bool_decide_eq_true. eapply Hu; [done..|congruence].
Qed.
Lemma findOrganizerByID_run id w r u :
  w.(w_faults) = [] -> w.(w_db).(users) !! id = Some r -> user_of_row id r = Ok u ->
  findOrganizerByID id w = (Ok (Some u), w).
Proof.
  intros Hf Hr Hok. unfold findOrganizerByID, scanOrganizer.
  erewrite bind_run by (by apply query_run). rewrite Hr. simpl. unfold of_res. by rewrite Hok.
Qed.

Lemma PromoteBootstrapAdmin_run id name tz t w r u :
  let row := promote_row name (if bool_decide (tz = "") then "UTC" else tz) (format_rfc3339 t) r in
  w.(w_faults) = [] -> w.(w_db).(users) !! id = Some r -> user_of_row id row = Ok u ->
  PromoteBootstrapAdminTx id name tz t w
  = (Ok (Some u), with_db (set_users (fun _ => <[id := row]> w.(w_db).(users)) w.(w_db)) w).
Proof.
  intros row Hf Hr Hu. unfold PromoteBootstrapAdminTx, update_user.
  erewrite bind_run; [|apply stmt_run; [done|]; simpl; unfold update_id; rewrite Hr; done].
  erewrite bind_run by done. eapply findOrganizerByID_run; [done|simpl; apply lookup_insert_eq|done].
Qed.

Lemma Instance_audit_run act k meta t w :
  w.(w_faults) = [] -> w.(w_db).(admin_audit_log) !! uuid_v7 w.(w_uuids) = None ->
  is_Some (w.(w_db).(users) !! k) ->
  exists w', Instance.InsertAuditTx None "cli" act (Some k) None meta t w = (Ok (), w') /\
    w'.(w_faults) = [] /\ w'.(w_db).(users) = w.(w_db).(users).
Proof.
  intros Hf Hfresh Hk. unfold Instance.InsertAuditTx, bind at 1, new_uuid.
  eexists. split; [|split]; [apply exec_run; [exact Hf|]|exact Hf|].
  - simpl. unfold insert_audit. simpl.
    assert (has (uuid_v7 w.(w_uuids)) w.(w_db).(admin_audit_log) = false) as ->
      by (unfold has; by rewrite Hfresh).
    assert (has k w.(w_db).(users) = true) as -> by (unfold has; by destruct Hk as [? ->]). done.
  - done.
Qed.

(** An instance cannot lose its last administrator for good: where no statement
    fails, the command of the host makes any stored user one. *)
Theorem recovery_available email w k r u :
  AccountsSound w.(w_db) -> w.(w_faults) = [] ->
  to_lower (trim_space email) <> "" ->
  w.(w_db).(users) !! k = Some r -> r.(u_norm_email) = normalizeEmail (to_lower (trim_space email)) ->
  user_of_row k r = Ok u -> w.(w_db).(admin_audit_log) !! uuid_v7 w.(w_uuids) = None ->
  time_ok (clock w.(w_clock)) = true ->
  exists u' w', PromoteAdmin email w = (Ok u', w') /\ u'.(user_ID) = k /\ has_admin w'.(w_db).
Proof.
  intros Hs Hf Hne Hr Hn Hu Hfresh Ht. unfold PromoteAdmin. rewrite bool_decide_eq_false_2 by done.
  set (tz := if bool_decide (u.(user_Timezone) = "") then "UTC" else u.(user_Timezone)).
  set (row := promote_row u.(user_Name) tz (format_rfc3339 (clock w.(w_clock))) r).
  destruct (promoted_reads k r u u.(user_Name) tz _ Hu Ht) as (u' & Hu' & Hid).
  pose proof (user_of_row_ok _ _ _ Hu) as (Huid & _). pose proof (as_emails _ Hs) as Huniq.
  assert (exists w', promote_tx (to_lower (trim_space email)) w = (Ok u', w') /\ w'.(w_faults) = [] /\
            w'.(w_db).(users) = <[k := row]> w.(w_db).(users)) as (w' & Hrun & Hf' & Hdb).
  { unfold promote_tx. erewrite bind_run by (by apply exec_run).
    erewrite bind_run by (by eapply FindOrganizerByEmail_run). cbv beta iota. rewrite ?Huid.
    erewrite bind_run by apply now_run.
    erewrite bind_run by (apply PromoteBootstrapAdmin_run; [done|exact Hr|exact Hu']). fold tz. fold row.
    erewrite bind_run by done. rewrite Hid.
    edestruct (Instance_audit_run) as (w' & Ha & Hf' & Hdb); [..|erewrite bind_run by exact Ha];
      simpl; [done|done|rewrite lookup_insert_eq; by eexists|].
    exists w'. split; [done|]. split; [done|]. by rewrite Hdb. }
  exists u', w'. split; [by apply with_tx_run|]. split; [done|].
  exists k, row. rewrite Hdb, lookup_insert_eq. split; done.
Qed.
End event_admin.

(** ** Witnesses *)

#[local] Existing Instance demo_env.

(** The administrator takes the event of [org]. *)
Definition transfer_run : res () * World := TransferOwnership demo_root "ev" "root" staffed_world.
Example transfer_example :
  transfer_run.1 = Ok () /\
  (fun m => (m.(em_user_id), m.(em_role))) <$> (map_to_list transfer_run.2.(w_db).(event_memberships)).*2
  = [("org", "cohost"); ("root", "owner")].
Proof. vm_compute. split; reflexivity. Qed.

Lemma ownership_transferred_witness :
  (exists r, staffed_db.(users) !! "root" = Some r /\ r.(u_status) = UserStatusActive) /\
  AccountsSound transfer_run.2.(w_db).
Proof.
  destruct (ownership_transferred demo_root "ev" "root" staffed_world transfer_run.2) as (_ & H1 & _ & _ & H2 & _).
  - exact staffed_sound.
  - vm_compute. reflexivity.
  - split; [exact H1|exact H2].
Defined.
Lemma administrator_joins_witness :
  exists a, demo_root = Some a /\
  exists k m, (AddSelf demo_root "ev" staffed_world).2.(w_db).(event_memberships) !! k = Some m /\
    member_of "ev" a.(user_ID) m = true.
Proof.
  destruct (administrator_joins demo_root "ev" staffed_world (AddSelf demo_root "ev" staffed_world).2)
    as (a & r & H1 & _ & _ & H2 & _).
  - vm_compute. reflexivity.
  - exists a. split; [exact H1|exact H2].
Defined.
(** The organizer [org] is made an administrator from the host. *)
Definition recovery_run : res User * World := PromoteAdmin " O@B.C " staffed_world.

Lemma recovery_available_witness :
  exists u' w', PromoteAdmin " O@B.C " staffed_world = (Ok u', w') /\ u'.(user_ID) = "org" /\ has_admin w'.(w_db).
Proof.
  destruct (user_of_row "org" (default demo_admin (staffed_db.(users) !! "org"))) as [u|] eqn:Hu;
    [|vm_compute in Hu; discriminate Hu].
  apply (recovery_available " O@B.C " staffed_world "org" (default demo_admin (staffed_db.(users) !! "org")) u).
  - exact staffed_sound.
  - reflexivity.
  - vm_compute. discriminate.
  - vm_compute. reflexivity.
  - vm_compute. reflexivity.
  - exact Hu.
  - vm_compute. reflexivity.
  - vm_compute. reflexivity.
Defined.
Lemma administrator_promoted_witness :
  exists u w' r', PromoteAdmin " O@B.C " staffed_world = (Ok u, w') /\
    w'.(w_db).(users) = <[u.(user_ID) := r']> staffed_db.(users) /\ active_admin r' = true.
Proof.
  destruct (PromoteAdmin " O@B.C " staffed_world) as [[u|e] w'] eqn:Hv; [|vm_compute in Hv; discriminate Hv].
  destruct (administrator_promoted _ _ _ _ Hv) as (r & r' & _ & _ & Hr' & Ha & _).
  exists u, w', r'. split; [reflexivity|split; [exact Hr'|exact Ha]].
Defined.
