(* ===== verification/SetupFacts.v ===== *)
(** * The one-time setup and the cohosts of an event

    Who may bootstrap the instance and that it happens once; who may invite cohosts
    and how many an event can have. *)

From S2P Require Import Prelude.
From S2P Require Import GoStr.
From S2P Require Import GoTime.
From S2P Require Import Schema.
From S2P Require Import Eff.
From S2P Require Import Http.
From S2P Require Import Respect.
From S2P Require Import Demo.
From S2P Require Import Tables.
From S2P Require Import History.
From S2P Require Import System.
From S2P Require Import Submission.
From S2P Require Import Auth.
From S2P Require Import UserAdmin.
From S2P Require Import Event.
From S2P Require Import EventHandler.
From S2P Require Import Series.
From S2P Require Import Instance.
From S2P Require Import AccountSteps.
From S2P Require Import EventSteps.
From S2P Require Import AccountSystem.
From S2P Require Import AccountFacts.
From S2P Require Import AccountDemo.
From S2P Require Import LoginFacts.

From S2P Require Import AdminFacts.

Local Open Scope Z_scope.

(** The instance after the setup: every setting asked for, and the time of it. *)
Definition set_up (inp : BootstrapRequest) (before after : InstanceRow) : Prop :=
  after.(in_name) = inp.(bs_InstanceName) /\ after.(in_timezone) = inp.(bs_DefaultTimezone) /\
  after.(in_allow_signups) = inp.(bs_AllowSignups) /\
  after.(in_support_email) = inp.(bs_SupportEmail) /\
  after.(in_setup_completed_at) = Some after.(in_updated_at) /\
  after.(in_created_at) = before.(in_created_at).
(** The administrator asked for. *)
Definition set_up_admin `{E : Env} (inp : BootstrapRequest) (u : UserRow) : Prop :=
  active_admin u = true /\
  u.(u_norm_email) = normalizeEmail (to_lower (trim_space inp.(bs_AdminEmail))) /\
  u.(u_display_name) = inp.(bs_AdminName) /\
  u.(u_timezone) = (if bool_decide (inp.(bs_DefaultTimezone) = "") then "UTC" else inp.(bs_DefaultTimezone)).

Section setup.
Context `{E : Env}.

Lemma has_active_admin_iff d :
  has_active_admin d = true <-> exists id r, d.(users) !! id = Some r /\ active_admin r = true.
Proof.
  unfold has_active_admin. rewrite existsb_exists. split.
  - intros ([id r] & Hin%list_elem_of_In%elem_of_map_to_list & H). eauto.
  - intros (id & r & Hr & H). exists (id, r). split; [|done].
    by apply list_elem_of_In, elem_of_map_to_list.
Qed.

Lemma ClaimBootstrapTx_ok inp t w b w' :
  ClaimBootstrapTx inp t w = (Ok b, w') -> b = true ->
  exists i, w.(w_db).(instances) !! singletonInstanceID = Some i /\ i.(in_setup_completed_at) = None /\
    has_active_admin w.(w_db) = false /\
    w'.(w_db) = set_instances (fun _ => <[singletonInstanceID := claim_row inp (format_rfc3339 t) i]>
                  w.(w_db).(instances)) w.(w_db).
Proof.
  unfold ClaimBootstrapTx. intros H Hb. run_ok.
  match goal with H : context [update_id] |- _ => rename H into Hu end.
  destruct (update_id _ _ _ _) as [t' n] eqn:Eu. injection Hu as -> Hd.
  apply update_id_cases in Eu as [(-> & i & Hi & [Hs Ha]%andb_true_iff & ->)|(-> & _)]; [|done].
  exists i. split_and!; [done| | |done].
  - by eapply bool_decide_eq_true.
  - by apply negb_true_iff.
Qed.

Lemma createUser_ok email name tz role status by_ w o w' :
  createUser email name tz role status by_ w = (Ok o, w') ->
  exists id r, w'.(w_db) = set_users <[id := r]> w.(w_db) /\ w.(w_db).(users) !! id = None /\
    r.(u_norm_email) = normalizeEmail (trim_space email) /\ r.(u_role) = role /\
    r.(u_status) = status /\ r.(u_display_name) = name /\
    r.(u_timezone) = (if bool_decide (tz = "") then "UTC" else tz) /\
    forall u, o = Some u -> user_of_row id r = Ok u.
Proof.
  unfold createUser. intros H. run_ok.
  match goal with H : findOrganizerByID _ _ = _ |- _ =>
    pose proof (reads_world _ _ _ _ (findOrganizerByID_reads _) H) as Hd'; rename H into Hf end.
  match goal with H : insert_user _ _ _ = _ |- _ =>
    unfold insert_user in H; insert_cases H; rename H into Hd end.
  eexists _, _. split; [by dbs|]. split_and!; try done.
  - match goal with H : negb (has _ _) = true |- _ => apply has_false in H end. congruence.
  - intros u ->. apply findOrganizerByID_ok in Hf as (_ & r & Hr & Hu).
    rewrite <- Hd in Hr. simpl in Hr. rewrite lookup_insert_eq in Hr. by injection Hr as <-.
Qed.

(** The administrator of the setup is one. *)
Lemma bootstrap_admin_ok inp t w u w' :
  bootstrap_admin inp t w = (Ok u, w') ->
  w'.(w_db).(instances) = w.(w_db).(instances) /\
  exists r, w'.(w_db).(users) !! u.(user_ID) = Some r /\ set_up_admin inp r.
Proof.
  unfold bootstrap_admin. intros H. apply bind_ok in H as (o & w1 & Hf & H).
  apply FindOrganizerByEmail_ok in Hf as [Hd1 Hf]. destruct o as [u0|]; run_ok.
  - destruct Hf as (r0 & Hr0 & Hn & _). unfold PromoteBootstrapAdminTx in *. run_ok.
    match goal with H : update_user _ _ _ _ _ = _ |- _ =>
      apply update_user_ok in H as [(-> & r & Hr & _ & Hd)|(-> & _)]; [|done] end.
    match goal with H : findOrganizerByID _ _ = _ |- _ =>
      apply findOrganizerByID_ok in H as (Hd' & r' & Hr' & (Hid & _)%user_of_row_ok) end.
    rewrite Hd', Hd, Hid. simpl. split; [congruence|]. rewrite lookup_insert_eq.
    eexists. split; [done|]. split_and!; [done| |done|done]. simpl. congruence.
  - match goal with H : createUser _ _ _ _ _ _ _ = _ |- _ =>
      apply createUser_ok in H as (id & r & Hd & _ & Hn & Hr & Hs & Hdn & Htz & Hid) end.
    rewrite Hd. simpl. split; [congruence|].
    destruct (user_of_row_ok _ _ _ (Hid _ eq_refl)) as [-> _]. rewrite lookup_insert_eq. exists r. split; [done|]. split_and!; [| |done|done].
    + unfold active_admin. by rewrite Hr, Hs.
    + rewrite Hn. unfold normalizeEmail. by rewrite !trim_space_idemp.
Qed.

Lemma InsertAuditTx_ok a k act target ev meta t w u w' :
  Instance.InsertAuditTx a k act target ev meta t w = (Ok u, w') ->
  exists id al, w'.(w_db) = set_admin_audit_log <[id := al]> w.(w_db) /\ al.(al_action) = act.
Proof.
  unfold Instance.InsertAuditTx. intros H. run_ok.
  match goal with H : insert_audit _ _ _ = _ |- _ => unfold insert_audit in H; insert_cases H; rename H into Hd end.
  eexists _, _. split; [by dbs|done].
Qed.

Lemma newToken_ok w p w' :
  newToken w = (Ok p, w') -> w'.(w_db) = w.(w_db) /\ p.2 = hex_encode (sha256 p.1).
Proof.
  intros H. assert (reads newToken) as Hr by (unfold newToken; respect).
  split; [by apply (reads_world _ _ _ _ Hr H)|]. unfold newToken in H. run_ok. done.
Qed.

(** The transaction of the setup. *)
Lemma bootstrap_tx_ok cfg inp w r w' :
  bootstrap_tx cfg inp w = (Ok r, w') ->
  has_active_admin w.(w_db) = false /\
  (exists i i', w.(w_db).(instances) !! singletonInstanceID = Some i /\ i.(in_setup_completed_at) = None /\
     w'.(w_db).(instances) !! singletonInstanceID = Some i' /\ set_up inp i i') /\
  (exists u, w'.(w_db).(users) !! r.(br_User).(user_ID) = Some u /\ set_up_admin inp u) /\
  exists k se, w'.(w_db).(sessions) !! k = Some se /\ se.(us_user_id) = r.(br_User).(user_ID) /\
    se.(us_token_hash) = hex_encode (sha256 r.(br_SessionToken)).
Proof.
  unfold bootstrap_tx. intros H. run_ok.
  repeat match goal with
  | H : ClaimBootstrapTx _ _ _ = _ |- _ => apply ClaimBootstrapTx_ok in H as (i & Hi & His & Hna & ?); [|done]
  | H : bootstrap_admin _ _ _ = _ |- _ => apply bootstrap_admin_ok in H as (Hin & u & Hu & Hua)
  | H : newToken _ = _ |- _ => apply newToken_ok in H as [? Htok]
  | H : createSession _ _ _ _ = _ |- _ => apply createSession_ok in H as (ks & se & ? & Hsh & Hsu)
  | H : TouchLastLoginTx _ _ _ = _ |- _ => apply TouchLastLoginTx_ok in H as (u' & Hu' & Hs' & ?)
  | H : Instance.InsertAuditTx _ _ _ _ _ _ _ _ = _ |- _ => apply InsertAuditTx_ok in H as (? & ? & ? & _)
  end.
  split_and!.
  - congruence.
  - eexists i, _. split; [congruence|]. split; [done|]. dbs. rewrite Hin. dbs. rewrite lookup_insert_eq.
    split; [reflexivity|]. by split_and!.
  - match type of Hu' with users (w_db ?y) !! _ = _ =>
      assert (users (w_db y) !! user_ID x5 = Some u) as Hu2 by (dbs; exact Hu) end.
    rewrite Hu' in Hu2. injection Hu2 as ->. dbs. rewrite lookup_insert_eq. by eexists.
  - exists ks, se. dbs. rewrite lookup_insert_eq. split_and!; [done|done|]. by rewrite Hsh, Htok.
Qed.

(** [C22] The setup succeeds only with the configured bootstrap token, which is not
    empty, on an instance that was not set up and has no active administrator; it
    leaves every setting asked for, an active administrator with the address, name
    and time zone asked for and a session of hers for the returned token, and after
    it, whatever requests, the deletion of accounts included, and driver faults follow,
    no setup succeeds or writes anything. *)
Theorem bootstrap_once (s : Services) inp w r w1 :
  quiet_services s -> Bootstrap s.(sv_auth).(cfg) inp w = (Ok r, w1) ->
  (s.(sv_auth).(cfg).(BootstrapToken) <> "" /\
   sha256 inp.(bs_Token) = sha256 s.(sv_auth).(cfg).(BootstrapToken) /\ ~ has_admin w.(w_db)) /\
  (exists i i', w.(w_db).(instances) !! singletonInstanceID = Some i /\ i.(in_setup_completed_at) = None /\
     w1.(w_db).(instances) !! singletonInstanceID = Some i' /\ set_up inp i i') /\
  (exists u, w1.(w_db).(users) !! r.(br_User).(user_ID) = Some u /\ set_up_admin inp u) /\
  (exists k se, w1.(w_db).(sessions) !! k = Some se /\ se.(us_user_id) = r.(br_User).(user_ID) /\
     se.(us_token_hash) = hex_encode (sha256 r.(br_SessionToken))) /\
  forall ops inp', let w2 := run_accounts s ops w1 in
    exists e w3, Bootstrap s.(sv_auth).(cfg) inp' w2 = (Err e, w3) /\ w3.(w_db) = w2.(w_db).
Proof.
  intros Hq H. unfold Bootstrap in H. apply bind_ok in H as (? & w0 & Hr & H).
  apply require_ok in Hr as [[Heq%bool_decide_eq_true Hne%negb_true_iff%bool_decide_eq_false]%andb_true_iff <-].
  apply with_tx_ok in H as (wa & wb & H & Hda & Hdb & _).
  apply bootstrap_tx_ok in H as (Hna & (i & i' & Hi & His & Hi1 & Hset) & Hu & Hse).
  rewrite Hda, <- Hdb in *. split_and!; try done.
  - intros Hadm%has_active_admin_iff. congruence.
  - exists i, i'. by split_and!.
  - intros ops inp' w2. unfold Bootstrap.
    destruct (constantTimeTokenEqual _ _ && _); [|by eexists _, _]. unfold bind at 1, require, ret.
    destruct (with_tx _ _ (bootstrap_tx _ inp') w2) as [[r2|e] w3] eqn:Ea.
    + exfalso. apply with_tx_ok in Ea as (wc & wd & Ea & Hdc & _).
      apply bootstrap_tx_ok in Ea as (_ & (i2 & _ & Hi2 & Hs2 & _) & _). rewrite Hdc in Hi2.
      pose proof (acc_moves_instances _ _ _ _ (run_accounts_moves s Hq (fun _ => True) ops w1 ltac:(done))) as He.
      destruct (He _ _ Hi1) as (i3 & Hi3 & Hle). fold w2 in Hi3.
      rewrite Hi2 in Hi3. injection Hi3 as <-. destruct Hset as (_ & _ & _ & _ & Hc & _).
      rewrite Hle in Hs2; congruence.
    + exists e, w3. split; [done|]. by apply with_tx_err in Ea.
Qed.
End setup.

(** ** Cohosts *)

Section cohosts.
Context `{E : Env}.

Lemma IsEventOwnerTx_ok e u w w' :
  IsEventOwnerTx e u w = (Ok true, w') ->
  w'.(w_db) = w.(w_db) /\ exists k m, w.(w_db).(event_memberships) !! k = Some m /\
    m.(em_event_id) = e /\ m.(em_user_id) = u /\ m.(em_role) = "owner".
Proof.
  unfold IsEventOwnerTx. intros H. run_ok. split; [done|].
  match goal with H : (_ =? 1) = true |- _ => apply Z.eqb_eq, count_one_select in H as (k & m & Hk & HP) end.
  exists k, m. split_guards.
  repeat match goal with H : bool_decide _ = true |- _ => apply bool_decide_eq_true in H end. done.
Qed.
Lemma LockEventTx_ok e w u w' :
  LockEventTx e w = (Ok u, w') -> w'.(w_db) = w.(w_db) /\ is_Some (w.(w_db).(events) !! e).
Proof.
  unfold LockEventTx, has. intros H. run_ok. split; [done|].
  match goal with H : bool_decide _ = true |- _ => by apply bool_decide_eq_true in H end.
Qed.
Lemma CreateCohostMembershipTx_ok e u g t w x w' :
  CreateCohostMembershipTx e u g t w = (Ok x, w') ->
  exists k m, w'.(w_db) = set_event_memberships <[k := m]> w.(w_db) /\
    w.(w_db).(event_memberships) !! k = None /\ m = membership_row e u "cohost" g (format_rfc3339 t).
Proof.
  unfold CreateCohostMembershipTx. intros H. run_ok.
  match goal with H : insert_membership _ _ _ = _ |- _ =>
    unfold insert_membership in H; insert_cases H; rename H into Hd end.
  eexists _, _. split; [by dbs|]. split; [|done].
  match goal with H : negb (has _ _) = true |- _ => apply has_false in H end. congruence.
Qed.
Lemma CreateInviteTx_ok u a h e r ex t w i w' :
  CreateInviteTx u a h e r ex t w = (Ok i, w') ->
  exists k row, w'.(w_db) = set_account_invites <[k := row]> w.(w_db) /\
    w.(w_db).(account_invites) !! k = None /\ row.(ai_target) = u.(user_ID) /\
    row.(ai_event_id) = e /\ row.(ai_event_role) = r /\ row.(ai_token_hash) = h /\
    pending row = true.
Proof.
  unfold CreateInviteTx. intros H. run_ok.
  match goal with H : insert_account_invite _ _ _ = _ |- _ =>
    unfold insert_account_invite in H; insert_cases H; rename H into Hd end.
  eexists _, _. split; [by dbs|]. split; [|done].
  match goal with H : negb (has _ _) = true |- _ => apply has_false in H end. congruence.
Qed.
Lemma create_invited_ok s email by_ w u w' :
  create_invited s email by_ w = (Ok u, w') ->
  exists k r, w'.(w_db) = set_users <[k := r]> w.(w_db) /\ w.(w_db).(users) !! k = None /\
    user_of_row k r = Ok u /\ r.(u_status) = UserStatusInvited /\
    r.(u_norm_email) = normalizeEmail (trim_space email).
Proof.
  unfold create_invited. intros H. run_ok.
  match goal with H : createUser _ _ _ _ _ _ _ = _ |- _ =>
    apply createUser_ok in H as (k & r & Hd & Hk & Hn & _ & Hs & Hid) end.
  exists k, r. split_and!; try done. by apply Hid.
Qed.

(** What counts against the limit depends on two tables and grows by one row. *)
Lemma commitments_same e t d d' :
  d'.(event_memberships) = d.(event_memberships) -> d'.(account_invites) = d.(account_invites) ->
  cohost_commitments e t d' = cohost_commitments e t d.
Proof. unfold cohost_commitments. by intros -> ->. Qed.
Lemma commitments_member e t d k m :
  d.(event_memberships) !! k = None ->
  cohost_commitments e t (set_event_memberships <[k := m]> d) <= cohost_commitments e t d + 1.
Proof. intros Hk. unfold cohost_commitments. simpl. rewrite count_insert by done. case_match; lia. Qed.
Lemma commitments_offer e t d k i :
  d.(account_invites) !! k = None ->
  cohost_commitments e t (set_account_invites <[k := i]> d) <= cohost_commitments e t d + 1.
Proof. intros Hk. unfold cohost_commitments. simpl. rewrite count_insert by done. case_match; lia. Qed.

(** What the invitation of a cohost commits, after the checks. *)
Definition offered (e email : string) (d : Database) (r : cohost_outcome) : Prop :=
  match r with
  | CohostAdded _ => exists k m u, d.(event_memberships) !! k = Some m /\ m.(em_event_id) = e /\
      m.(em_role) = "cohost" /\ d.(users) !! m.(em_user_id) = Some u /\
      u.(u_norm_email) = normalizeEmail email /\ u.(u_status) = UserStatusActive
  | CohostInvited _ raw => exists k i u, d.(account_invites) !! k = Some i /\
      i.(ai_event_id) = Some e /\ i.(ai_event_role) = Some "cohost" /\ pending i = true /\
      i.(ai_token_hash) = tokenDigest raw /\ d.(users) !! i.(ai_target) = Some u /\
      u.(u_norm_email) = normalizeEmail email /\ u.(u_status) = UserStatusInvited
  end.

Lemma generateToken_ok c w p w' :
  generateToken c w = (Ok p, w') -> w'.(w_db) = w.(w_db) /\ p.2 = tokenDigest p.1.
Proof.
  intros H. split; [by apply (reads_world _ _ _ _ (generateToken_reads c) H)|].
  unfold generateToken in H. run_ok. done.
Qed.

(** The row is written: a membership of an active user or an offer to an invited one. *)
Definition offer_row (s : Auth.Service) (a : User) (e : string) (target : User) (t : time) : M cohost_outcome :=
  if is_active target then
    member <- HasEventMembershipTx e target.(user_ID) ;;
    require (negb member) ErrUserExists ;;;
    CreateCohostMembershipTx e target.(user_ID) a.(user_ID) t ;;;
    ret (CohostAdded target.(user_Email))
  else
    require (bool_decide (target.(user_Status) = UserStatusInvited)) ErrUserExists ;;;
    token <- generateToken "generate cohost invite" ;;
    invite <- CreateInviteTx target a.(user_ID) token.2 (Some e) (Some "cohost")
                (t + s.(cfg).(AccountInviteExpiry)) t ;;
    ret (CohostInvited invite token.1).

Lemma offer_row_ok s a e email target t w r w' :
  offer_row s a e target t w = (Ok r, w') ->
  (exists u, w.(w_db).(users) !! target.(user_ID) = Some u /\ u.(u_status) = target.(user_Status) /\
     u.(u_norm_email) = normalizeEmail email) ->
  cohost_commitments e (format_rfc3339 t) w'.(w_db) <=
    cohost_commitments e (format_rfc3339 t) w.(w_db) + 1 /\
  offered e email w'.(w_db) r.
Proof.
  unfold offer_row. intros H (u & Hu & Hst & Hn).
  destruct (is_active target) eqn:Hact; unfold is_active in Hact.
  - apply bool_decide_eq_true in Hact. run_ok.
    match goal with H : HasEventMembershipTx _ _ _ = _ |- _ => unfold HasEventMembershipTx in H end. run_ok.
    match goal with H : CreateCohostMembershipTx _ _ _ _ _ = _ |- _ =>
      apply CreateCohostMembershipTx_ok in H as (k & m & Hd & Hk & ->) end.
    match type of Hk with event_memberships (w_db ?y) !! _ = _ =>
      assert (Hw : w_db y = w_db w) by congruence; rewrite Hw in * end.
    rewrite Hd. split; [by apply commitments_member|]. exists k. eexists _, u. simpl.
    rewrite lookup_insert_eq. split_and!; try done. congruence.
  - run_ok. match goal with H : bool_decide _ = true |- _ => apply bool_decide_eq_true in H as Hinv end.
    match goal with H : generateToken _ _ = _ |- _ => apply generateToken_ok in H as [Hw Hp] end.
    match goal with H : CreateInviteTx _ _ _ _ _ _ _ _ = _ |- _ =>
      apply CreateInviteTx_ok in H as (k & i & Hd & Hk & Ht & He & Hr & Hh & Hpe) end.
    rewrite Hw in *. rewrite Hd. split; [by apply commitments_offer|]. exists k, i, u. simpl.
    rewrite lookup_insert_eq. split_and!; try done; congruence.
Qed.

(** The target of the invitation: the user of the address, or a new invited one. *)
Lemma cohost_target_ok s a email o w w0 u w' :
  match o with
  | None => create_invited s email a
  | Some u => ret u
  end w = (Ok u, w') ->
  match o with
  | None => True
  | Some u => exists r, w0.(w_db).(users) !! u.(user_ID) = Some r /\
                        r.(u_norm_email) = normalizeEmail email /\ user_of_row u.(user_ID) r = Ok u
  end ->
  w.(w_db).(users) = w0.(w_db).(users) ->
  w'.(w_db).(event_memberships) = w.(w_db).(event_memberships) /\
  w'.(w_db).(account_invites) = w.(w_db).(account_invites) /\
  exists r, w'.(w_db).(users) !! u.(user_ID) = Some r /\ r.(u_status) = u.(user_Status) /\
    r.(u_norm_email) = normalizeEmail email.
Proof.
  intros H Ho Hw. destruct o as [v|].
  - run_ok. destruct Ho as (r & Hr & Hn & (_ & Hs & _)%user_of_row_ok). rewrite Hw. eauto 10.
  - apply create_invited_ok in H as (k & r & Hd & _ & (Hid & Hs & _)%user_of_row_ok & _ & Hn).
    rewrite Hd, Hid. simpl. rewrite lookup_insert_eq. split_and!; [done|done|]. exists r.
    split_and!; [done|congruence|]. rewrite Hn. unfold normalizeEmail. by rewrite trim_space_idemp.
Qed.

Lemma RevokePending_ok id t w u w' :
  RevokePendingInvitesTx id t w = (Ok u, w') ->
  w'.(w_db).(users) = w.(w_db).(users) /\ w'.(w_db).(event_memberships) = w.(w_db).(event_memberships).
Proof. unfold RevokePendingInvitesTx. intros H. run_ok. by dbs. Qed.

Lemma invite_cohost_tx_ok s a e email w r w' :
  invite_cohost_tx s a e email w = (Ok r, w') ->
  (exists u, w.(w_db).(users) !! a = Some u /\ u.(u_status) = UserStatusActive) /\
  (exists k m, w.(w_db).(event_memberships) !! k = Some m /\ m.(em_event_id) = e /\
     m.(em_user_id) = a /\ m.(em_role) = "owner") /\
  (exists t, cohost_commitments e (format_rfc3339 t) w'.(w_db) <= s.(cfg).(MaxCoHostsPerEvent)) /\
  offered e email w'.(w_db) r.
Proof.
  unfold invite_cohost_tx. intros H.
  apply bind_ok in H as (? & w1 & Hl & H). apply LockEventTx_ok in Hl as [Hd1 _].
  apply bind_ok in H as (actor & w2 & Ha & H).
  apply persisted_actor_ok in Ha as (Hd2 & Hact & ra & Hra & Hua).
  apply bind_ok in H as (owner & w3 & Ho & H). apply bind_ok in H as (? & ? & Hreq & H).
  apply require_ok in Hreq as [-> <-]. apply IsEventOwnerTx_ok in Ho as (Hd3 & Hown).
  apply bind_ok in H as (o & w4 & Ho & H). apply FindOrganizerByEmail_ok in Ho as [Hd4 Ho].
  apply bind_ok in H as (? & w5 & Hrev & H).
  assert (Hw5 : users (w_db w5) = users (w_db w3)).
  { destruct o as [v|]; [case_match|]; run_ok; try congruence.
    match goal with H : RevokePendingInvitesTx _ _ _ = _ |- _ => apply RevokePending_ok in H as [? _] end.
    congruence. }
  clear Hrev. apply bind_ok in H as (t & w6 & Ht & H). apply now_ok in Ht as (_ & Hd6 & _).
  apply bind_ok in H as (n & w7 & Hn & H). apply query_ok in Hn as (-> & Hd7 & _).
  apply bind_ok in H as (? & ? & Hreq & H). apply require_ok in Hreq as [Hlim%Z.ltb_lt <-].
  apply bind_ok in H as (target & w8 & Ht & H).
  apply cohost_target_ok with (email := email) (w0 := w3) in Ht as (Hm & Hi & Hu);
    [|by destruct o; rewrite Hd3 in *|congruence].
  apply (offer_row_ok s actor e email target t) in H as [Hc Hoff]; [|done].
  rewrite (commitments_same _ _ (w_db w7) (w_db w8)), Hd7 in Hc by done.
  assert (w_db w2 = w_db w) as Hdb by congruence.
  pose proof Hua as (Hid & Hst & _)%user_of_row_ok. rewrite Hid in Hown. rewrite Hdb in Hown.
  split_and!; [|done| |done].
  - exists ra. split; [congruence|]. rewrite <- Hst. by eapply bool_decide_eq_true.
  - exists t. lia.
Qed.

(** A cohost can be invited only by an active owner of the event, and after the
    invitation the event has at most the configured number of cohosts and live
    offers; the invited address then belongs to an active user with a cohost
    membership, or to an invited user with a pending invitation to the event. *)
Theorem cohost_limit (s : Auth.Service) actor e email w b w1 :
  quiet_sender s -> InviteEventCohost s actor e email w = (Ok b, w1) ->
  (exists a u, actor = Some a /\ w.(w_db).(users) !! a.(user_ID) = Some u /\
     u.(u_status) = UserStatusActive /\
     exists k m, w.(w_db).(event_memberships) !! k = Some m /\ m.(em_event_id) = e /\
       m.(em_user_id) = a.(user_ID) /\ m.(em_role) = "owner") /\
  (exists t, cohost_commitments e (format_rfc3339 t) w1.(w_db) <= s.(cfg).(MaxCoHostsPerEvent)) /\
  exists r, offered e (to_lower (trim_space email)) w1.(w_db) r /\
            b = match r with CohostAdded _ => false | CohostInvited _ _ => true end.
Proof.
  intros Hq H. unfold InviteEventCohost in H. destruct actor as [a|]; [|done].
  destruct (sendEmail s) as [send|] eqn:Es; [|done].
  apply bind_ok in H as (? & w0 & Hr & H). apply require_ok in Hr as [_ <-].
  apply bind_ok in H as (? & w0 & Hr & H). apply require_ok in Hr as [_ <-].
  apply bind_ok in H as (r & w2 & Htx & H).
  apply with_tx_ok in Htx as (wa & wb & Htx & Hda & Hdb & _).
  apply invite_cohost_tx_ok in Htx as ((u & Hu & Hus) & Hown & (t & Hlim) & Hoff).
  rewrite Hda in *. rewrite <- Hdb in *.
  assert (Hsent : accounts (w_db w1) = accounts (w_db w2) /\
    b = match r with CohostAdded _ => false | CohostInvited _ _ => true end).
  { destruct r as [to|inv raw]; [|destruct (renderInviteEmail s raw (inv_ExpiresAt inv)) as [html plain]].
    all: apply bind_ok in H as (? & w3 & Hs & H); apply ret_ok in H as [<- <-].
    all: match type of Hs with ?sf ?x1 ?x2 ?x3 ?x4 _ = _ => specialize (Hq _ x1 x2 x3 x4 Es w2) end.
    all: rewrite Hs in Hq; split; [apply Hq|done]. }
  destruct Hsent as [Hacc Hb]. unfold accounts in Hacc. injection Hacc as Hus1 _ _ Hm Hi _ _ _.
  split_and!.
  - exists a, u. by split_and!.
  - exists t. by rewrite (commitments_same _ _ (w_db w2)).
  - exists r. split; [|done]. destruct r; unfold offered in *; by rewrite ?Hus1, ?Hm, ?Hi.
Qed.
End cohosts.

(** ** The hypotheses can hold *)

Lemma bootstrap_once_witness :
  exists r w1, Bootstrap (E:=demo_env) demo_cfg demo_setup fresh_world = (Ok r, w1) /\
    exists e w3, Bootstrap (E:=demo_env) demo_cfg demo_setup
      (run_accounts (E:=demo_env) demo_services [OSetStatus None "boss" "disabled"; ODeleteAccount "boss"] w1) = (Err e, w3).
Proof.
  destruct (Bootstrap (E:=demo_env) demo_cfg demo_setup fresh_world) as [[r|e] w1] eqn:Hv;
    [|vm_compute in Hv; discriminate Hv].
  exists r, w1. split; [reflexivity|].
  destruct (bootstrap_once (E:=demo_env) demo_services demo_setup fresh_world r w1 demo_quiet Hv)
    as (_ & _ & _ & _ & H).
  destruct (H [OSetStatus None "boss" "disabled"; ODeleteAccount "boss"] demo_setup) as (e & w3 & He & _).
  exists e, w3. exact He.
Defined.

Lemma cohost_limit_witness :
  exists w1, InviteEventCohost (E:=demo_env) demo_auth demo_org "ev" "pal@b.c" staffed_world = (Ok true, w1) /\
    exists t, cohost_commitments "ev" (format_rfc3339 t) w1.(w_db) <= 3.
Proof.
  destruct (InviteEventCohost (E:=demo_env) demo_auth demo_org "ev" "pal@b.c" staffed_world)
    as [[[]|e] w1] eqn:Hv; [|vm_compute in Hv; discriminate Hv..].
  exists w1. split; [reflexivity|].
  destruct (cohost_limit (E:=demo_env) demo_auth demo_org "ev" "pal@b.c" staffed_world true w1)
    as (_ & (t & Ht) & _); [|exact Hv|exists t; exact Ht].
  apply demo_quiet.
Defined.
