(* ===== verification/AccountDeleteFacts.v ===== *)
(** * What the deletion of an account leaves

    Nothing of the user and of the events she owns; everything of the other
    users and of the events that others own. *)

From S2P Require Import Prelude.
From S2P Require Import GoStr.
From S2P Require Import GoTime.
From S2P Require Import Schema.
From S2P Require Import Eff.
From S2P Require Import Respect.
From S2P Require Import Demo.
From S2P Require Import Tables.
From S2P Require Import History.
From S2P Require Import Integrity.
From S2P Require Import Auth.
From S2P Require Import AccountDelete.
From S2P Require Import AccountFacts.
From S2P Require Import AccountDemo.

Local Open Scope Z_scope.

(** ** What a deletion keeps *)

Section shape.
Context (u : string) (d : Database).

(** An open enrollment belongs to the event of its invitations. *)
Definition open_linked : Prop :=
  forall k i o, d.(invitations) !! k = Some i -> i.(i_open_id) = Some o ->
    exists r, d.(open_enrollments) !! o = Some r /\ r.(o_event_id) = i.(i_event_id).

Context (Hi : Integrity d) (Ho : open_linked).

Lemma kept_invitation k i :
  kept_invitations u d !! k = Some i <-> d.(invitations) !! k = Some i /\ owns u d i.(i_event_id) = false.
Proof.
  unfold kept_invitations. rewrite lookup_delete_where, orb_false_iff. split.
  - intros (Hk & Hg & _). split; [done|]. unfold gone in Hg.
    apply negb_false_iff, has_spec in Hg as [r [_ Hr]%kept_event]. done.
  - intros [Hk Hown]. split; [done|]. destruct (in_event _ Hi _ _ Hk) as [r Hr].
    assert (is_Some (kept_events u d !! i_event_id i)) as He by (exists r; by apply kept_event).
    unfold gone. split; [by apply negb_false_iff, has_spec|].
    destruct (i_open_id i) as [o|] eqn:Eo; [|done]. simpl. unfold gone. apply negb_false_iff, has_spec.
    destruct (Ho _ _ _ Hk Eo) as (ro & Hro & Heq). exists ro. apply lookup_cascade. by rewrite Heq.
Qed.
Lemma owned_spec k i : d.(invitations) !! k = Some i -> invitation_owned u d k = owns u d i.(i_event_id).
Proof. unfold invitation_owned. by intros ->. Qed.
Lemma kept_by_invitation {R} (f : R -> string) t (Href : refs f t d.(invitations)) k r :
  cascade f (kept_invitations u d) t !! k = Some r <-> t !! k = Some r /\ invitation_owned u d (f r) = false.
Proof.
  rewrite lookup_cascade. split.
  - intros (Hk & i & [Hf Hown]%kept_invitation). split; [done|]. by rewrite (owned_spec _ _ Hf).
  - intros [Hk Hown]. split; [done|]. destruct (Href _ _ Hk) as [i Hf]. exists i. apply kept_invitation.
    split; [done|]. by rewrite <- (owned_spec _ _ Hf).
Qed.
Lemma below_kept {R} (f : R -> string) t k r :
  cascade f (kept_invitations u d) t !! k = Some r -> t !! k = Some r /\ invitation_owned u d (f r) = false.
Proof.
  intros [Hk [i [Hf Hown]%kept_invitation]]%lookup_cascade. split; [done|]. by rewrite (owned_spec _ _ Hf).
Qed.
Lemma kept_guest k g :
  kept_guests u d !! k = Some g <-> d.(guests) !! k = Some g /\ invitation_owned u d g.(g_invitation_id) = false.
Proof. apply kept_by_invitation, in_guest_ref, Hi. Qed.
Lemma kept_by_guest {R} (f : R -> string) t (Href : refs f t d.(guests)) k r :
  cascade f (kept_guests u d) t !! k = Some r <-> t !! k = Some r /\ guest_owned u d (f r) = false.
Proof.
  rewrite lookup_cascade. unfold guest_owned. split.
  - intros (Hk & g & [Hf Hown]%kept_guest). split; [done|]. by rewrite Hf.
  - intros [Hk Hown]. split; [done|]. destruct (Href _ _ Hk) as [g Hf]. rewrite Hf in Hown.
    exists g. by apply kept_guest.
Qed.
End shape.

(** ** What goes and what stays *)

(** Below an event, an invitation, a guest or a webhook that is not the user's. *)
Definition spared (u : string) (d : Database) (e : string) : Prop :=
  owns u d e = false /\ is_Some (d.(events) !! e).
Definition spared_opt (u : string) (d : Database) (e : option string) : Prop :=
  match e with Some e => spared u d e | None => True end.
Definition not_owned (u : string) (d : Database) (e : option string) : Prop :=
  match e with Some e => owns u d e = false | None => True end.
Definition response_owned (u : string) (d : Database) (responseID : string) : bool :=
  match d.(rsvp_responses) !! responseID with
  | Some r => invitation_owned u d r.(r_invitation_id)
  | None => false
  end.

(** No row of the user or of her events is left, in any table. *)
Record erased (u : string) (d d1 : Database) : Prop := {
  er_user : d1.(users) !! u = None;
  er_inviter k r : d1.(users) !! k = Some r -> r.(u_invited_by) <> Some u;
  er_login k r : d1.(sessions) !! k = Some r -> r.(us_user_id) <> u;
  er_link k r : d1.(magic_links) !! k = Some r -> r.(ml_user_id) <> u;
  er_invite k r : d1.(account_invites) !! k = Some r ->
    r.(ai_target) <> u /\ r.(ai_invited_by) <> u /\ not_owned u d r.(ai_event_id);
  er_series k r : d1.(event_series) !! k = Some r -> r.(sr_owner) <> u;
  er_member k r : d1.(event_memberships) !! k = Some r ->
    r.(em_user_id) <> u /\ r.(em_granted_by) <> u /\ owns u d r.(em_event_id) = false;
  er_audit k r : d1.(admin_audit_log) !! k = Some r ->
    r.(al_actor) <> Some u /\ r.(al_target) <> Some u /\ not_owned u d r.(al_event);
  er_event e : owns u d e = true -> d1.(events) !! e = None;
  er_question k r : d1.(event_questions) !! k = Some r -> owns u d r.(q_event_id) = false;
  er_open k r : d1.(open_enrollments) !! k = Some r ->
    owns u d r.(o_event_id) = false /\ r.(o_created_by) <> Some u;
  er_invitation k r : d1.(invitations) !! k = Some r ->
    owns u d r.(i_event_id) = false /\ r.(i_created_by) <> Some u;
  er_guest k r : d1.(guests) !! k = Some r -> invitation_owned u d r.(g_invitation_id) = false;
  er_response k r : d1.(rsvp_responses) !! k = Some r -> invitation_owned u d r.(r_invitation_id) = false;
  er_guest_response k r : d1.(guest_responses) !! k = Some r ->
    response_owned u d r.(gr_response_id) = false /\ guest_owned u d r.(gr_guest_id) = false;
  er_invitation_answer k r : d1.(invitation_answers) !! k = Some r ->
    invitation_owned u d r.(ia_invitation_id) = false;
  er_guest_answer k r : d1.(guest_answers) !! k = Some r -> guest_owned u d r.(ga_guest_id) = false;
  er_session k r : d1.(invitation_sessions) !! k = Some r -> invitation_owned u d r.(s_invitation_id) = false;
  er_recovery k r : d1.(invitation_recovery_tokens) !! k = Some r ->
    invitation_owned u d r.(rt_invitation_id) = false;
  er_attempt k r : d1.(invitation_recovery_attempts) !! k = Some r -> owns u d r.(ra_event_id) = false;
  er_message k r : d1.(invitation_messages) !! k = Some r ->
    owns u d r.(m_event_id) = false /\ r.(m_sender) <> Some u;
  er_card k r : d1.(invite_cards) !! k = Some r -> owns u d r.(c_event_id) = false;
  er_log k r : d1.(notification_log) !! k = Some r ->
    owns u d r.(l_event_id) = false /\ forall i, r.(l_invitation_id) = Some i -> invitation_owned u d i = false;
  er_reminder k r : d1.(reminders) !! k = Some r -> owns u d r.(rm_event_id) = false;
  er_webhook k r : d1.(webhooks) !! k = Some r -> owns u d r.(wh_event_id) = false;
  er_delivery k r : d1.(webhook_deliveries) !! k = Some r -> webhook_owned u d r.(wd_webhook_id) = false;
  er_suppression k r : d1.(email_suppressions) !! k = Some r -> not_owned u d r.(sp_event_id);
  er_token k r : d1.(unsubscribe_tokens) !! k = Some r -> not_owned u d r.(ut_event_id) }.

(** Every other row, in every table, is what it was, up to references to what went:
    these became NULL, and a granter became the event's owner. *)
Record untouched (u : string) (d d1 : Database) : Prop := {
  un_user k r : k <> u -> d.(users) !! k = Some r -> d1.(users) !! k =
    Some (if bool_decide (r.(u_invited_by) = Some u) then uninvited_row r else r);
  un_login k r : r.(us_user_id) <> u -> d.(sessions) !! k = Some r -> d1.(sessions) !! k = Some r;
  un_link k r : r.(ml_user_id) <> u -> d.(magic_links) !! k = Some r -> d1.(magic_links) !! k = Some r;
  un_invite k r : r.(ai_target) <> u -> r.(ai_invited_by) <> u -> spared_opt u d r.(ai_event_id) ->
    d.(account_invites) !! k = Some r -> d1.(account_invites) !! k = Some r;
  un_series k r : r.(sr_owner) <> u -> d.(event_series) !! k = Some r -> d1.(event_series) !! k = Some r;
  un_member k r : owns u d r.(em_event_id) = false -> r.(em_user_id) <> u ->
    d.(event_memberships) !! k = Some r ->
    exists by_, d1.(event_memberships) !! k = Some (granted_row by_ r) /\
      (by_ = r.(em_granted_by) \/
       r.(em_granted_by) = u /\ exists k' o, d.(event_memberships) !! k' = Some o /\
         o.(em_event_id) = r.(em_event_id) /\ o.(em_role) = "owner" /\ by_ = o.(em_user_id));
  un_audit k r : d.(admin_audit_log) !! k = Some r ->
    d1.(admin_audit_log) !! k = Some (audit_user_row d1.(users) (audit_event_row d1.(events) r));
  un_event e r : owns u d e = false -> d.(events) !! e = Some r ->
    exists r', d1.(events) !! e = Some r' /\
      (r' = r \/ r' = unlink_series r /\ exists i s, r.(e_series_id) = Some i /\
                   d.(event_series) !! i = Some s /\ s.(sr_owner) = u);
  un_question k r : spared u d r.(q_event_id) ->
    d.(event_questions) !! k = Some r -> d1.(event_questions) !! k = Some r;
  un_open k r : spared u d r.(o_event_id) -> d.(open_enrollments) !! k = Some r ->
    d1.(open_enrollments) !! k = Some (open_creator_row d1.(users) r);
  un_invitation k r : owns u d r.(i_event_id) = false -> d.(invitations) !! k = Some r ->
    d1.(invitations) !! k = Some (invitation_creator_row d1.(users) r);
  un_guest k r : invitation_owned u d r.(g_invitation_id) = false ->
    d.(guests) !! k = Some r -> d1.(guests) !! k = Some r;
  un_response k r : invitation_owned u d r.(r_invitation_id) = false ->
    d.(rsvp_responses) !! k = Some r -> d1.(rsvp_responses) !! k = Some r;
  un_guest_response k r : response_owned u d r.(gr_response_id) = false ->
    guest_owned u d r.(gr_guest_id) = false ->
    d.(guest_responses) !! k = Some r -> d1.(guest_responses) !! k = Some r;
  un_invitation_answer k r : invitation_owned u d r.(ia_invitation_id) = false ->
    d.(invitation_answers) !! k = Some r -> d1.(invitation_answers) !! k = Some r;
  un_guest_answer k r : guest_owned u d r.(ga_guest_id) = false ->
    d.(guest_answers) !! k = Some r -> d1.(guest_answers) !! k = Some r;
  un_session k r : invitation_owned u d r.(s_invitation_id) = false ->
    d.(invitation_sessions) !! k = Some r -> d1.(invitation_sessions) !! k = Some r;
  un_recovery k r : invitation_owned u d r.(rt_invitation_id) = false ->
    d.(invitation_recovery_tokens) !! k = Some r -> d1.(invitation_recovery_tokens) !! k = Some r;
  un_attempt k r : spared u d r.(ra_event_id) ->
    d.(invitation_recovery_attempts) !! k = Some r -> d1.(invitation_recovery_attempts) !! k = Some r;
  un_message k r : spared u d r.(m_event_id) -> d.(invitation_messages) !! k = Some r ->
    d1.(invitation_messages) !! k = Some (sender_row d1.(users) r);
  un_card k r : spared u d r.(c_event_id) ->
    d.(invite_cards) !! k = Some r -> d1.(invite_cards) !! k = Some r;
  un_log k r : spared u d r.(l_event_id) -> d.(notification_log) !! k = Some r ->
    d1.(notification_log) !! k = Some (log_event_row d1.(invitations) r);
  un_reminder k r : spared u d r.(rm_event_id) ->
    d.(reminders) !! k = Some r -> d1.(reminders) !! k = Some r;
  un_webhook k r : spared u d r.(wh_event_id) ->
    d.(webhooks) !! k = Some r -> d1.(webhooks) !! k = Some r;
  un_delivery k r x : d.(webhooks) !! r.(wd_webhook_id) = Some x -> spared u d x.(wh_event_id) ->
    d.(webhook_deliveries) !! k = Some r -> d1.(webhook_deliveries) !! k = Some r;
  un_suppression k r : spared_opt u d r.(sp_event_id) ->
    d.(email_suppressions) !! k = Some r -> d1.(email_suppressions) !! k = Some r;
  un_token k r : spared_opt u d r.(ut_event_id) ->
    d.(unsubscribe_tokens) !! k = Some r -> d1.(unsubscribe_tokens) !! k = Some r;
  un_instances : d1.(instances) = d.(instances) }.

Section tables.
Context (u : string) (d : Database) (Hi : Integrity d) (Ho : open_linked d).

Lemma cascade_event {R} (f : R -> string) t k r :
  cascade f (kept_events u d) t !! k = Some r <-> t !! k = Some r /\ spared u d (f r).
Proof.
  rewrite lookup_cascade. split; intros [Hk H]; (split; [done|]).
  - destruct H as [ev [He Hn]%kept_event]. by split.
  - destruct H as [Hn [ev He]]. exists ev. by apply kept_event.
Qed.
Lemma gone_event e : gone_opt (kept_events u d) e = false <-> spared_opt u d e.
Proof.
  destruct e as [e|]; simpl; [|done]. unfold gone. rewrite negb_false_iff, has_spec. split.
  - intros [ev [He Hn]%kept_event]. by split.
  - intros [Hn [ev He]]. exists ev. by apply kept_event.
Qed.
Lemma spared_not_owned e : spared_opt u d e -> not_owned u d e.
Proof. destruct e as [e|]; [|done]. by intros [? _]. Qed.
Lemma kept_user_iff k : is_Some (kept_users u d !! k) <-> k <> u /\ is_Some (d.(users) !! k).
Proof.
  split.
  - intros [r (Hn & r0 & Hr & _)%kept_user]. eauto.
  - intros [Hn [r Hr]]. eexists. apply kept_user. eauto.
Qed.
Lemma or_null_user x : or_null (kept_users u d) x <> Some u.
Proof.
  unfold or_null. destruct x as [x|]; simpl; [|done]. destruct (has x (kept_users u d)) eqn:Hx; [|done].
  intros [= ->]. apply has_spec, kept_user_iff in Hx as [? _]. done.
Qed.
Lemma or_null_event x : not_owned u d (or_null (kept_events u d) x).
Proof.
  unfold or_null. destruct x as [x|]; simpl; [|done]. destruct (has x (kept_events u d)) eqn:Hx; [|done].
  simpl. by apply has_spec in Hx as [r [_ ?]%kept_event].
Qed.
Lemma or_null_dom {R R'} (t : gmap string R) (t' : gmap string R') x :
  (forall k, is_Some (t !! k) <-> is_Some (t' !! k)) -> or_null t x = or_null t' x.
Proof.
  intros Ht. unfold or_null, has_opt. destruct x as [x|]; [|done].
  assert (has x t = has x t') as ->; [|done]. apply eq_true_iff_eq. by rewrite !has_spec.
Qed.
End tables.


Section result.
Context (u : string) (d d1 : Database) (Hi : Integrity d) (Ha : AccountsSound d) (Ho : open_linked d)
  (Hs : shape u d d1).

Lemma deletion_erases : erased u d d1.
Proof.
  split.
  - rewrite (dl_users _ _ _ Hs). unfold kept_users. apply lookup_delete_eq.
  - intros k r. rewrite (dl_users _ _ _ Hs). intros (_ & r0 & _ & ->)%kept_user.
    case_bool_decide; [done|]. congruence.
  - intros k r. rewrite (dl_logins _ _ _ Hs). intros [_ Hk]%lookup_delete_where. by eapply bool_decide_eq_false.
  - intros k r. rewrite (dl_links _ _ _ Hs). intros [_ Hk]%lookup_delete_where. by eapply bool_decide_eq_false.
  - intros k r. rewrite (dl_invites _ _ _ Hs).
    intros [[_ Hg%gone_event%spared_not_owned]%lookup_delete_where [Ht Hb]%orb_false_iff]%lookup_delete_where.
    split_and!; [by eapply bool_decide_eq_false..|done].
  - intros k r. rewrite (dl_series _ _ _ Hs). case_bool_decide as Hk; [done|]. intros Hr' Hown. apply Hk, series_ids. eauto.
  - intros k r Hk. destruct (kept_members _ _ _ _ _ Hs Hk) as (Hn & Hown & _). split_and!; [done| |done].
    destruct (users_resolve_ok _ (dl_resolved _ _ _ Hs) _ _ Hk) as [r' Hr']. rewrite (dl_users _ _ _ Hs) in Hr'.
    by apply kept_user in Hr' as [? _].
  - intros k r. rewrite (dl_audit _ _ _ Hs), !lookup_fmap. intros (r1 & (r0 & Hr0 & ->)%fmap_Some & ->)%fmap_Some.
    simpl. split_and!; [apply or_null_user..|apply or_null_event].
  - intros e Hown. rewrite (dl_events _ _ _ Hs). destruct (kept_events u d !! e) as [r|] eqn:Ek; [|done].
    apply kept_event in Ek as [_ Hn]. congruence.
  - intros k r. rewrite (dl_questions _ _ _ Hs). by intros [_ [? _]]%cascade_event.
  - intros k r. rewrite (dl_open _ _ _ Hs), lookup_fmap_Some. intros (r0 & <- & [_ [? _]]%cascade_event).
    split; [done|apply or_null_user].
  - intros k r. rewrite (dl_invitations _ _ _ Hs), lookup_fmap_Some. intros (r0 & <- & Hk). apply (kept_invitation u d Hi Ho) in Hk as [_ Hk].
    split; [done|apply or_null_user].
  - intros k r. rewrite (dl_guests _ _ _ Hs). intros Hk. by apply (below_kept u d Hi Ho) in Hk as [_ ?].
  - intros k r. rewrite (dl_responses _ _ _ Hs). intros Hk. by apply (below_kept u d Hi Ho) in Hk as [_ ?].
  - intros k r. rewrite (dl_guest_responses _ _ _ Hs).
    intros [_ [Hr Hg]%orb_false_iff]%lookup_delete_where. unfold gone in *.
    apply negb_false_iff, has_spec in Hr as [x Hx], Hg as [g Hg].
    apply (below_kept u d Hi Ho) in Hx as [Hx Hxo], Hg as [Hg Hgo]. unfold response_owned, guest_owned. by rewrite Hx, Hg.
  - intros k r. rewrite (dl_invitation_answers _ _ _ Hs). by intros [[_ ?]%lookup_delete_where _]%lookup_cascade.
  - intros k r. rewrite (dl_guest_answers _ _ _ Hs). by intros [[_ ?]%lookup_delete_where _]%lookup_cascade.
  - intros k r. rewrite (dl_invitation_sessions _ _ _ Hs). intros Hk. by apply (below_kept u d Hi Ho) in Hk as [_ ?].
  - intros k r. rewrite (dl_recovery_tokens _ _ _ Hs). intros Hk. by apply (below_kept u d Hi Ho) in Hk as [_ ?].
  - intros k r. rewrite (dl_recovery_attempts _ _ _ Hs). by intros [_ [? _]]%cascade_event.
  - intros k r. rewrite (dl_messages _ _ _ Hs), lookup_fmap_Some. intros (r0 & <- & [_ [? _]]%cascade_event).
    split; [done|apply or_null_user].
  - intros k r. rewrite (dl_cards _ _ _ Hs). by intros [_ [? _]]%cascade_event.
  - intros k r. rewrite (dl_log _ _ _ Hs), lookup_fmap_Some. intros (r0 & <- & [_ [? _]]%cascade_event).
    split; [done|]. simpl. intros i. unfold or_null. destruct (l_invitation_id r0) as [j|]; [|done]. simpl.
    destruct (has j _) eqn:Hj; [|done]. intros [= ->].
    apply has_spec in Hj as [x Hx]. apply (kept_invitation u d Hi Ho) in Hx as [Hx Hxo]. by rewrite (owned_spec _ _ _ _ Hx).
  - intros k r. rewrite (dl_reminders _ _ _ Hs). by intros [_ [? _]]%cascade_event.
  - intros k r. rewrite (dl_webhooks _ _ _ Hs). by intros [_ [? _]]%cascade_event.
  - intros k r. rewrite (dl_deliveries _ _ _ Hs). by intros [[_ ?]%lookup_delete_where _]%lookup_cascade.
  - intros k r. rewrite (dl_suppressions _ _ _ Hs).
    by intros [_ ?%gone_event%spared_not_owned]%lookup_delete_where.
  - intros k r. rewrite (dl_tokens _ _ _ Hs). by intros [_ ?%gone_event%spared_not_owned]%lookup_delete_where.
Qed.

(** Who granted a membership that stays. *)
Lemma regranted_by k r :
  owns u d r.(em_event_id) = false -> r.(em_user_id) <> u -> d.(event_memberships) !! k = Some r ->
  exists by_, d1.(event_memberships) !! k = Some (granted_row by_ r) /\
    (by_ = r.(em_granted_by) \/
     r.(em_granted_by) = u /\ exists k' o, d.(event_memberships) !! k' = Some o /\
       o.(em_event_id) = r.(em_event_id) /\ o.(em_role) = "owner" /\ by_ = o.(em_user_id)).
Proof.
  intros Hn Hne Hk.
  destruct (as_member_event _ Ha _ _ Hk) as [ev Hev]. destruct (as_member_user _ Ha _ _ Hk) as [us Hus].
  set (dm := set_event_memberships (cascade em_event_id (kept_events u d)) d).
  assert (event_memberships dm !! k = Some r) as Hc.
  { apply cascade_event. split; [done|]. split; [done|by exists ev]. }
  assert (is_Some (kept_users u d !! em_user_id r)) as Hku by (apply kept_user_iff; eauto).
  rewrite (dl_members _ _ _ Hs). fold dm.
  assert (regranted u dm !! k = Some (if granted_to_others u r
            then granted_row (default "" (owner_id r.(em_event_id) dm)) r else r)) as Hrg.
  { unfold regranted, update_where. by rewrite map_lookup_imap, Hc. }
  destruct (granted_to_others u r) eqn:Hg.
  - eexists. split; [apply lookup_cascade; split; [exact Hrg|done]|]. right.
    apply andb_true_iff in Hg as [Hg%bool_decide_eq_true _]. split; [done|].
    unfold owner_id. destruct (select_row _ (event_memberships dm)) as [[k' o]|] eqn:Es; simpl.
    + apply select_row_Some in Es as [Ho' [He%bool_decide_eq_true Hr%bool_decide_eq_true]%andb_true_iff].
      apply cascade_event in Ho' as [Ho' _]. by exists k', o.
    + destruct (as_owner _ Ha (em_event_id r)) as (k' & o & Ho' & He & Hr); [eauto|].
      assert (event_memberships dm !! k' = Some o) as Ho2
        by (apply cascade_event; split; [done|rewrite He; split; [done|by exists ev]]).
      pose proof (select_row_None _ _ _ _ Es Ho2) as Hf. simpl in Hf. unfold is_owner_row in Hr.
      by rewrite He, Hr, !bool_decide_eq_true_2 in Hf.
  - exists r.(em_granted_by). split; [|by left]. apply lookup_cascade. split; [|done].
    rewrite Hrg. by destruct r.
Qed.

Lemma deletion_spares : untouched u d d1.
Proof.
  assert (forall k, is_Some (kept_events u d !! k) <-> is_Some (d1.(events) !! k)) as Hdom
    by (intros k; by rewrite (dl_events _ _ _ Hs), fmap_is_Some).
  split.
  - intros k r Hn Hk. rewrite (dl_users _ _ _ Hs). apply kept_user. eauto.
  - intros k r Hn Hk. rewrite (dl_logins _ _ _ Hs). apply lookup_delete_where. split; [done|]. by apply bool_decide_eq_false.
  - intros k r Hn Hk. rewrite (dl_links _ _ _ Hs). apply lookup_delete_where. split; [done|]. by apply bool_decide_eq_false.
  - intros k r Ht Hb He Hk. rewrite (dl_invites _ _ _ Hs). apply lookup_delete_where.
    split; [apply lookup_delete_where; split; [done|by apply gone_event]|].
    apply orb_false_iff. by split; apply bool_decide_eq_false.
  - intros k r Hn Hk. rewrite (dl_series _ _ _ Hs). rewrite bool_decide_false; [done|].
    intros (r' & Hr' & Hown)%series_ids. congruence.
  - apply regranted_by.
  - intros k r Hk. rewrite (dl_audit _ _ _ Hs), !lookup_fmap, Hk. simpl. rewrite (dl_users _ _ _ Hs).
    unfold audit_event_row. by rewrite (or_null_dom _ _ _ Hdom).
  - intros e r Hn Hk. rewrite (dl_events _ _ _ Hs), (proj2 (kept_event u d e r)) by done. simpl. eexists. split; [done|].
    unfold unlinked. destruct (e_series_id r) as [i|] eqn:Ei; [|by left].
    case_bool_decide as Hin; [|by left]. apply series_ids in Hin as (x & Hx & Hxo). right. split; [done|]. by exists i, x.
  - intros k r Hn Hk. rewrite (dl_questions _ _ _ Hs). by apply cascade_event.
  - intros k r Hn Hk. rewrite (dl_open _ _ _ Hs), (dl_users _ _ _ Hs), lookup_fmap. unfold kept_open.
    by rewrite (proj2 (cascade_event u d o_event_id _ _ r)).
  - intros k r Hn Hk. rewrite (dl_invitations _ _ _ Hs), (dl_users _ _ _ Hs), lookup_fmap.
    by rewrite (proj2 (kept_invitation u d Hi Ho k r)).
  - intros k r Hn Hk. rewrite (dl_guests _ _ _ Hs). by apply (kept_guest u d Hi Ho).
  - intros k r Hn Hk. rewrite (dl_responses _ _ _ Hs). by apply (kept_by_invitation u d Hi Ho _ _ (in_response_ref _ Hi)).
  - intros k r Hx Hg Hk. rewrite (dl_guest_responses _ _ _ Hs). apply lookup_delete_where. split; [done|].
    destruct (in_gr_response _ Hi _ _ Hk) as [x Hxr]. destruct (in_gr_guest _ Hi _ _ Hk) as [g Hgr].
    unfold response_owned in Hx. rewrite Hxr in Hx. unfold guest_owned in Hg. rewrite Hgr in Hg.
    apply orb_false_iff. unfold gone. rewrite !negb_false_iff, !has_spec. split; eexists.
    + by apply (kept_by_invitation u d Hi Ho _ _ (in_response_ref _ Hi)).
    + by apply (kept_guest u d Hi Ho).
  - intros k r Hn Hk. rewrite (dl_invitation_answers _ _ _ Hs). apply lookup_cascade.
    split; [by apply lookup_delete_where|].
    assert (cascade ia_invitation_id (kept_invitations u d) d.(invitation_answers) !! k = Some r) as Hc
      by by apply (kept_by_invitation u d Hi Ho _ _ (in_ia_ref _ Hi)).
    by apply lookup_cascade in Hc as [_ Hc].
  - intros k r Hn Hk. rewrite (dl_guest_answers _ _ _ Hs). apply lookup_cascade.
    assert (cascade ga_guest_id (kept_guests u d) d.(guest_answers) !! k = Some r) as Hc
      by by apply (kept_by_guest u d Hi Ho _ _ (in_ga_ref _ Hi)).
    apply lookup_cascade in Hc as [_ Hc]. split; [|done]. by apply lookup_delete_where.
  - intros k r Hn Hk. rewrite (dl_invitation_sessions _ _ _ Hs). by apply (kept_by_invitation u d Hi Ho _ _ (in_session_ref _ Hi)).
  - intros k r Hn Hk. rewrite (dl_recovery_tokens _ _ _ Hs). by apply (kept_by_invitation u d Hi Ho _ _ (in_token_ref _ Hi)).
  - intros k r Hn Hk. rewrite (dl_recovery_attempts _ _ _ Hs). by apply cascade_event.
  - intros k r Hn Hk. rewrite (dl_messages _ _ _ Hs), (dl_users _ _ _ Hs), lookup_fmap.
    by rewrite (proj2 (cascade_event u d m_event_id _ _ r)).
  - intros k r Hn Hk. rewrite (dl_cards _ _ _ Hs). by apply cascade_event.
  - intros k r Hn Hk. rewrite (dl_log _ _ _ Hs), lookup_fmap, (proj2 (cascade_event u d l_event_id _ _ r)) by done.
    simpl. f_equal. unfold log_event_row. f_equal. apply or_null_dom. intros j.
    by rewrite (dl_invitations _ _ _ Hs), lookup_fmap, fmap_is_Some.
  - intros k r Hn Hk. rewrite (dl_reminders _ _ _ Hs). by apply cascade_event.
  - intros k r Hn Hk. rewrite (dl_webhooks _ _ _ Hs). by apply cascade_event.
  - intros k r x Hx Hn Hk. rewrite (dl_deliveries _ _ _ Hs). apply lookup_cascade. split.
    + apply lookup_delete_where. split; [done|]. unfold webhook_owned. rewrite Hx. apply Hn.
    + exists x. by apply cascade_event.
  - intros k r Hn Hk. rewrite (dl_suppressions _ _ _ Hs). apply lookup_delete_where. split; [done|]. by apply gone_event.
  - intros k r Hn Hk. rewrite (dl_tokens _ _ _ Hs). apply lookup_delete_where. split; [done|]. by apply gone_event.
  - apply (dl_instances _ _ _ Hs).
Qed.
End result.

Section delete.
Context `{E : Env}.

(** [C26] A failed deletion of an account changes nothing; a successful one leaves no
    row of the user nor of the events she owns, and what it leaves of the other
    users, their events and their households is what it was, up to the references to
    the user, which become NULL or the event's owner. *)
Theorem account_deleted u w r w1 :
  Integrity w.(w_db) -> AccountsSound w.(w_db) -> open_linked w.(w_db) ->
  DeleteAccount u w = (r, w1) ->
  match r with
  | Ok _ => erased u w.(w_db) w1.(w_db) /\ untouched u w.(w_db) w1.(w_db)
  | Err _ => w1.(w_db) = w.(w_db)
  end.
Proof.
  intros Hi Ha Ho H. destruct r as [[]|e]; [|by apply with_tx_err in H].
  apply deletion_runs, deletion_shape in H. split; [by apply deletion_erases|by apply deletion_spares].
Qed.
End delete.

(** ** The hypotheses can hold *)

Lemma staffed_integrity : Integrity staffed_db.
Proof.
  split; first
    [ apply uniq_check; vm_compute; reflexivity
    | apply refs_check; vm_compute; reflexivity ].
Qed.
Lemma account_deleted_witness :
  exists w1, DeleteAccount "org" staffed_world = (Ok (), w1) /\ erased "org" staffed_db w1.(w_db).
Proof.
  destruct (DeleteAccount "org" staffed_world) as [[[]|e] w1] eqn:Hv; [|vm_compute in Hv; discriminate Hv].
  exists w1. split; [reflexivity|].
  destruct (account_deleted "org" staffed_world (Ok ()) w1) as [H _];
    [exact staffed_integrity|exact staffed_sound| |exact Hv|exact H].
  intros k i o. simpl. intros [<- <-]%lookup_singleton_Some. discriminate.
Defined.
