(* ===== verification/AccountExport.v ===== *)
(** * The export of an account (internal/auth: store.go, service.go, handler.go)

    The document an organizer downloads: the rows of the tables that belong to the
    events she owns.  The queries over the tables below an event are the entries of
    a Go map, which is ranged over in any order: the order is an argument.  A field
    that no query filled is nil ([None]). *)

From S2P Require Import Prelude.
From S2P Require Import GoStr.
From S2P Require Import GoTime.
From S2P Require Import Schema.
From S2P Require Import Eff.
From S2P Require Import Http.
From S2P Require Import Auth.
From S2P Require Import AuthHandler.
From S2P Require Import Demo.
From S2P Require Import AccountDelete.
From S2P Require Import AccountSteps.
From S2P Require Import AccountSystem.
From S2P Require Import AccountDemo.

Local Open Scope Z_scope.

(** The rows of a query, with their keys. *)
#[local] Abbreviation Rows R := (list (string * R)).

Record ExportDocument := MkExport {
  xd_ExportedAt : string;
  xd_Organizer : User;
  xd_Events : Rows EventRow;
  xd_Series : Rows SeriesRow;
  xd_Invitations : option (Rows InvitationRow);
  xd_Guests : option (Rows GuestRow);
  xd_Responses : option (Rows ResponseRow);
  xd_GuestResponses : option (Rows GuestResponseRow);
  xd_Questions : option (Rows QuestionRow);
  xd_InvitationAnswers : option (Rows InvAnswerRow);
  xd_GuestAnswers : option (Rows GuestAnswerRow);
  xd_Messages : option (Rows MessageRow);
  xd_Webhooks : option (Rows WebhookRow);
  xd_Reminders : option (Rows ReminderRow);
  xd_InviteCards : option (Rows CardRow);
  xd_NotificationLog : option (Rows LogRow) }.

Definition with_children (doc : ExportDocument)
    (v_Guests : Rows GuestRow) (v_Responses : Rows ResponseRow) (v_InvitationAnswers : Rows InvAnswerRow)
    (v_GuestResponses : Rows GuestResponseRow) (v_GuestAnswers : Rows GuestAnswerRow) : ExportDocument :=
  MkExport doc.(xd_ExportedAt) doc.(xd_Organizer) doc.(xd_Events) doc.(xd_Series)
    doc.(xd_Invitations) (Some v_Guests) (Some v_Responses) (Some v_GuestResponses)
    doc.(xd_Questions) (Some v_InvitationAnswers) (Some v_GuestAnswers) doc.(xd_Messages)
    doc.(xd_Webhooks) doc.(xd_Reminders) doc.(xd_InviteCards) doc.(xd_NotificationLog).
Definition with_Invitations (v_Invitations : Rows InvitationRow) (doc : ExportDocument) : ExportDocument :=
  MkExport doc.(xd_ExportedAt) doc.(xd_Organizer) doc.(xd_Events) doc.(xd_Series) (Some
    v_Invitations) doc.(xd_Guests) doc.(xd_Responses) doc.(xd_GuestResponses) doc.(xd_Questions)
    doc.(xd_InvitationAnswers) doc.(xd_GuestAnswers) doc.(xd_Messages) doc.(xd_Webhooks)
    doc.(xd_Reminders) doc.(xd_InviteCards) doc.(xd_NotificationLog).
Definition with_Questions (v_Questions : Rows QuestionRow) (doc : ExportDocument) : ExportDocument :=
  MkExport doc.(xd_ExportedAt) doc.(xd_Organizer) doc.(xd_Events) doc.(xd_Series)
    doc.(xd_Invitations) doc.(xd_Guests) doc.(xd_Responses) doc.(xd_GuestResponses) (Some
    v_Questions) doc.(xd_InvitationAnswers) doc.(xd_GuestAnswers) doc.(xd_Messages)
    doc.(xd_Webhooks) doc.(xd_Reminders) doc.(xd_InviteCards) doc.(xd_NotificationLog).
Definition with_Messages (v_Messages : Rows MessageRow) (doc : ExportDocument) : ExportDocument :=
  MkExport doc.(xd_ExportedAt) doc.(xd_Organizer) doc.(xd_Events) doc.(xd_Series)
    doc.(xd_Invitations) doc.(xd_Guests) doc.(xd_Responses) doc.(xd_GuestResponses)
    doc.(xd_Questions) doc.(xd_InvitationAnswers) doc.(xd_GuestAnswers) (Some v_Messages)
    doc.(xd_Webhooks) doc.(xd_Reminders) doc.(xd_InviteCards) doc.(xd_NotificationLog).
Definition with_Webhooks (v_Webhooks : Rows WebhookRow) (doc : ExportDocument) : ExportDocument :=
  MkExport doc.(xd_ExportedAt) doc.(xd_Organizer) doc.(xd_Events) doc.(xd_Series)
    doc.(xd_Invitations) doc.(xd_Guests) doc.(xd_Responses) doc.(xd_GuestResponses)
    doc.(xd_Questions) doc.(xd_InvitationAnswers) doc.(xd_GuestAnswers) doc.(xd_Messages) (Some
    v_Webhooks) doc.(xd_Reminders) doc.(xd_InviteCards) doc.(xd_NotificationLog).
Definition with_Reminders (v_Reminders : Rows ReminderRow) (doc : ExportDocument) : ExportDocument :=
  MkExport doc.(xd_ExportedAt) doc.(xd_Organizer) doc.(xd_Events) doc.(xd_Series)
    doc.(xd_Invitations) doc.(xd_Guests) doc.(xd_Responses) doc.(xd_GuestResponses)
    doc.(xd_Questions) doc.(xd_InvitationAnswers) doc.(xd_GuestAnswers) doc.(xd_Messages)
    doc.(xd_Webhooks) (Some v_Reminders) doc.(xd_InviteCards) doc.(xd_NotificationLog).
Definition with_InviteCards (v_InviteCards : Rows CardRow) (doc : ExportDocument) : ExportDocument :=
  MkExport doc.(xd_ExportedAt) doc.(xd_Organizer) doc.(xd_Events) doc.(xd_Series)
    doc.(xd_Invitations) doc.(xd_Guests) doc.(xd_Responses) doc.(xd_GuestResponses)
    doc.(xd_Questions) doc.(xd_InvitationAnswers) doc.(xd_GuestAnswers) doc.(xd_Messages)
    doc.(xd_Webhooks) doc.(xd_Reminders) (Some v_InviteCards) doc.(xd_NotificationLog).
Definition with_NotificationLog (v_NotificationLog : Rows LogRow) (doc : ExportDocument) : ExportDocument :=
  MkExport doc.(xd_ExportedAt) doc.(xd_Organizer) doc.(xd_Events) doc.(xd_Series)
    doc.(xd_Invitations) doc.(xd_Guests) doc.(xd_Responses) doc.(xd_GuestResponses)
    doc.(xd_Questions) doc.(xd_InvitationAnswers) doc.(xd_GuestAnswers) doc.(xd_Messages)
    doc.(xd_Webhooks) doc.(xd_Reminders) doc.(xd_InviteCards) (Some v_NotificationLog).

(** The entries of the map. *)
Inductive Child := CInvitations | CQuestions | CMessages | CWebhooks | CReminders | CInviteCards | CNotificationLog.
#[global] Instance child_eq_dec : EqDecision Child.
Proof. solve_decision. Defined.
Definition eventChildren : list Child :=
  [CInvitations; CQuestions; CMessages; CWebhooks; CReminders; CInviteCards; CNotificationLog].

(** [SELECT * FROM t WHERE column IN (?, ...)] *)
Definition rows_in {R} (ids : list string) (column : R -> string) (t : gmap string R) : Rows R :=
  select (fun _ r => bool_decide (column r ∈ ids)) t.
(** ... of a table joined with [guests]. *)
Definition rows_of_guests {R} (ids : list string) (guest : R -> string) (d : Database)
    (t : gmap string R) : Rows R :=
  select (fun _ r => match d.(guests) !! guest r with
                     | Some g => bool_decide (g.(g_invitation_id) ∈ ids)
                     | None => false
                     end) t.
Definition owner_membership (userID : string) (m : MembershipRow) : bool :=
  bool_decide (m.(em_user_id) = userID) && bool_decide (m.(em_role) = "owner").
Definition export_child (ids : list string) (c : Child) (d : Database) : ExportDocument -> ExportDocument :=
  match c with
  | CInvitations => with_Invitations (rows_in ids i_event_id d.(invitations))
  | CQuestions => with_Questions (rows_in ids q_event_id d.(event_questions))
  | CMessages => with_Messages (rows_in ids m_event_id d.(invitation_messages))
  | CWebhooks => with_Webhooks (rows_in ids wh_event_id d.(webhooks))
  | CReminders => with_Reminders (rows_in ids rm_event_id d.(reminders))
  | CInviteCards => with_InviteCards (rows_in ids c_event_id d.(invite_cards))
  | CNotificationLog => with_NotificationLog (rows_in ids l_event_id d.(notification_log))
  end.

Section export.
Context `{E : Env}.

Definition organizerEventIDs (organizerID : string) : M (list string) :=
  query "list event ids" (fun d =>
    map (fun x => x.2.(em_event_id)) (select (fun _ => owner_membership organizerID) d.(event_memberships))).
Definition eventInvitationIDs (eventIDs : list string) : M (list string) :=
  query "list invitation ids" (fun d => (rows_in eventIDs i_event_id d.(invitations)).*1).

(** The loop over the map, in the order of this run. *)
Fixpoint export_children (ids : list string) (order : list Child) (doc : ExportDocument) : M ExportDocument :=
  match order with
  | [] => ret doc
  | c :: rest =>
      rows <- query "export event children" (export_child ids c) ;;
      export_children ids rest (rows doc)
  end.
(** The tables below the invitations. *)
Definition export_households (ids : list string) (doc : ExportDocument) : M ExportDocument :=
  guests_ <- query "export guests" (fun d => rows_in ids g_invitation_id d.(guests)) ;;
  responses <- query "export responses" (fun d => rows_in ids r_invitation_id d.(rsvp_responses)) ;;
  answers <- query "export answers" (fun d => rows_in ids ia_invitation_id d.(invitation_answers)) ;;
  guestResponses <- query "export guest responses"
    (fun d => rows_of_guests ids gr_guest_id d d.(guest_responses)) ;;
  guestAnswers <- query "export guest answers"
    (fun d => rows_of_guests ids ga_guest_id d d.(guest_answers)) ;;
  ret (with_children doc guests_ responses answers guestResponses guestAnswers).

Definition ErrNoRows : err := EInternal "sql: no rows in result set".
Definition ExportOrganizerData (order : list Child) (organizerID : string) : M ExportDocument :=
  o <- findOrganizerByID organizerID ;;
  match o with
  | None => fail ErrNoRows
  | Some organizer =>
      t <- now ;;
      eventIDs <- organizerEventIDs organizerID ;;
      events_ <- query "export events" (fun d =>
        order_by (fun a b => text_le a.2.(e_created_at) b.2.(e_created_at))
          (select (fun id _ => owns organizerID d id) d.(events))) ;;
      series <- query "export series" (fun d =>
        order_by (fun a b => text_le a.2.(sr_created_at) b.2.(sr_created_at))
          (select (is_owner_of sr_owner organizerID) d.(event_series))) ;;
      let doc := MkExport (format_rfc3339 t) organizer events_ series
                   None None None None None None None None None None None None in
      if bool_decide (eventIDs = []) then ret doc else
      doc <- export_children eventIDs order doc ;;
      invitationIDs <- eventInvitationIDs eventIDs ;;
      if bool_decide (invitationIDs = []) then ret doc else export_households invitationIDs doc
  end.
Definition ExportData (order : list Child) (organizerID : string) : M ExportDocument :=
  ExportOrganizerData order organizerID.

(** The reply also names the file of the attachment. *)
Definition handleExportMe (order : list Child) (organizer : option User) : M (Resp ExportDocument) :=
  match organizer with
  | None => ret auth_unauthorized
  | Some u =>
      r <- attempt (ExportData order u.(user_ID)) ;;
      match r with
      | Ok doc => ret (json 200 doc)
      | Err _ => auth_internal
      end
  end.
End export.

(** ** What the document holds *)

Section promises.
Context `{E : Env}.

Lemma elem_of_rows_in {R} ids (column : R -> string) t k r :
  (k, r) ∈ rows_in ids column t <-> t !! k = Some r /\ column r ∈ ids.
Proof. unfold rows_in. rewrite elem_of_select. simpl. by rewrite bool_decide_eq_true. Qed.

Lemma owned_ids u d e :
  e ∈ map (fun x => x.2.(em_event_id)) (select (fun _ => owner_membership u) d.(event_memberships))
  <-> owns u d e = true.
Proof.
  rewrite owns_spec, list_elem_of_In, in_map_iff. unfold owner_membership. split.
  - intros ([k m] & <- & Hin). apply list_elem_of_In, elem_of_select in Hin as [Hk H]. simpl in *.
    rewrite andb_true_iff, !bool_decide_eq_true in H. destruct H. by exists k, m.
  - intros (k & m & Hk & <- & Hu & Hr). exists (k, m). split; [done|].
    apply list_elem_of_In, elem_of_select. split; [done|]. simpl. by rewrite !bool_decide_eq_true_2.
Qed.
Lemma owned_invitations u d ids k :
  (forall e, e ∈ ids <-> owns u d e = true) ->
  k ∈ (rows_in ids i_event_id d.(invitations)).*1 <-> invitation_owned u d k = true.
Proof.
  intros Hids. rewrite list_elem_of_fmap. unfold invitation_owned. split.
  - intros ([k' r] & -> & [Hk He]%elem_of_rows_in). simpl. rewrite Hk. by apply Hids.
  - destruct (d.(invitations) !! k) as [i|] eqn:Hk; [|done]. intros Ho. exists (k, i).
    split; [done|]. apply elem_of_rows_in. split; [done|]. by apply Hids.
Qed.

(** The rows of one table: none are shown where the field is nil. *)
Definition shows {R} (field : option (Rows R)) (t : gmap string R) (own : R -> bool) : Prop :=
  forall k r, (k, r) ∈ default [] field <-> t !! k = Some r /\ own r = true.

Lemma shows_in {R} ids (column : R -> string) (t : gmap string R) (own : string -> bool) :
  (forall e, e ∈ ids <-> own e = true) ->
  shows (Some (rows_in ids column t)) t (fun r => own (column r)).
Proof. intros H k r. simpl. by rewrite elem_of_rows_in, H. Qed.
Lemma shows_nil {R} (t : gmap string R) (own : R -> bool) :
  (forall k r, t !! k = Some r -> own r = false) -> shows None t own.
Proof. intros H k r. simpl. split; [by intros ?%elem_of_nil|]. intros [Hk Ho]. by rewrite (H k r Hk) in Ho. Qed.

(** The fields of the tables below the events, in one record of propositions. *)
Record ShowsEvents (u : string) (d : Database) (doc : ExportDocument) : Prop := {
  sh_invitations : shows doc.(xd_Invitations) d.(invitations) (fun r => owns u d r.(i_event_id));
  sh_questions : shows doc.(xd_Questions) d.(event_questions) (fun r => owns u d r.(q_event_id));
  sh_messages : shows doc.(xd_Messages) d.(invitation_messages) (fun r => owns u d r.(m_event_id));
  sh_webhooks : shows doc.(xd_Webhooks) d.(webhooks) (fun r => owns u d r.(wh_event_id));
  sh_reminders : shows doc.(xd_Reminders) d.(reminders) (fun r => owns u d r.(rm_event_id));
  sh_cards : shows doc.(xd_InviteCards) d.(invite_cards) (fun r => owns u d r.(c_event_id));
  sh_log : shows doc.(xd_NotificationLog) d.(notification_log) (fun r => owns u d r.(l_event_id)) }.
Record ShowsHouseholds (u : string) (d : Database) (doc : ExportDocument) : Prop := {
  sh_guests : shows doc.(xd_Guests) d.(guests) (fun r => invitation_owned u d r.(g_invitation_id));
  sh_responses : shows doc.(xd_Responses) d.(rsvp_responses) (fun r => invitation_owned u d r.(r_invitation_id));
  sh_answers : shows doc.(xd_InvitationAnswers) d.(invitation_answers)
    (fun r => invitation_owned u d r.(ia_invitation_id));
  sh_guest_responses : shows doc.(xd_GuestResponses) d.(guest_responses)
    (fun r => guest_owned u d r.(gr_guest_id));
  sh_guest_answers : shows doc.(xd_GuestAnswers) d.(guest_answers) (fun r => guest_owned u d r.(ga_guest_id)) }.

(** Two documents with the same fields outside the loop. *)
Definition same_frame (a b : ExportDocument) : Prop :=
  a.(xd_Organizer) = b.(xd_Organizer) /\ a.(xd_Events) = b.(xd_Events) /\ a.(xd_Series) = b.(xd_Series) /\
  a.(xd_Guests) = b.(xd_Guests) /\ a.(xd_Responses) = b.(xd_Responses) /\
  a.(xd_InvitationAnswers) = b.(xd_InvitationAnswers) /\
  a.(xd_GuestResponses) = b.(xd_GuestResponses) /\ a.(xd_GuestAnswers) = b.(xd_GuestAnswers).

(** ** The order of the map *)

Lemma child_commutes ids d c c' doc :
  c <> c' -> export_child ids c d (export_child ids c' d doc) = export_child ids c' d (export_child ids c d doc).
Proof. by destruct c, c'. Qed.

Definition filled (ids : list string) (d : Database) (order : list Child) (doc : ExportDocument) : ExportDocument :=
  fold_left (fun doc c => export_child ids c d doc) order doc.
#[global] Instance filled_perm ids d : Proper ((≡ₚ) ==> eq ==> eq) (filled ids d).
Proof.
  intros o o' H. induction H as [|c o o' _ IH|c c' o|o1 o2 o3 _ IH1 _ IH2]; intros doc ? <-.
  - done.
  - simpl. by apply IH.
  - unfold filled. simpl. destruct (decide (c = c')) as [->|Hne]; [done|]. by rewrite child_commutes.
  - by rewrite (IH1 doc doc eq_refl), (IH2 doc doc eq_refl).
Qed.

(** A run of the loop is as many reads as there are entries, whichever they are. *)
Lemma query_swap {A B C} ctx (f : Database -> A) (g : Database -> B) (k k' : A -> B -> M C) w :
  (forall a b w1, a = f w.(w_db) -> b = g w.(w_db) -> k a b w1 = k' a b w1) ->
  (a <- query ctx f ;; b <- query ctx g ;; k a b) w = (b <- query ctx g ;; a <- query ctx f ;; k' a b) w.
Proof.
  intros H. unfold query, stmt, bind, driver.
  destruct w as [d [|[] [|[] fs]] ? ? ?]; simpl; try done; apply H; done.
Qed.
Lemma export_children_perm ids o o' doc w :
  o ≡ₚ o' -> export_children ids o doc w = export_children ids o' doc w.
Proof.
  intros H. revert doc w. induction H as [|c o o' _ IH|c c' o|o1 o2 o3 _ IH1 _ IH2]; intros doc w.
  - done.
  - simpl. apply bind_ext. intros a w1. apply IH.
  - simpl. apply query_swap. intros a b w1 -> ->. destruct (decide (c = c')) as [->|Hne]; [done|].
    by rewrite child_commutes.
  - by rewrite IH1, IH2.
Qed.

(** The map is ranged over in any order: the answer is the same, faults included. *)
Theorem export_any_order o o' u w :
  o ≡ₚ o' -> ExportOrganizerData o u w = ExportOrganizerData o' u w.
Proof.
  intros H. unfold ExportOrganizerData. apply bind_ext. intros [organizer|] w1; [|done].
  do 4 (apply bind_ext; intros ? ?). case_bool_decide; [done|].
  unfold bind at 1 3. by erewrite export_children_perm by exact H.
Qed.

(** ** The rows of the document *)

Lemma shows_of_guests {R} u d ids (guest : R -> string) (t : gmap string R) :
  (forall k, k ∈ ids <-> invitation_owned u d k = true) ->
  shows (Some (rows_of_guests ids guest d t)) t (fun r => guest_owned u d (guest r)).
Proof.
  intros H k r. simpl. unfold rows_of_guests, guest_owned. rewrite elem_of_select. simpl.
  destruct (d.(guests) !! guest r); [|done]. by rewrite bool_decide_eq_true, H.
Qed.

Lemma filled_shows u d ids doc :
  (forall e, e ∈ ids <-> owns u d e = true) -> ShowsEvents u d (filled ids d eventChildren doc).
Proof. intros H. split; simpl; by apply (shows_in ids _ _ (owns u d)). Qed.
Lemma filled_frame ids d order doc : same_frame (filled ids d order doc) doc.
Proof.
  revert doc. induction order as [|c order IH]; intros doc; [by repeat split|].
  simpl. destruct (IH (export_child ids c d doc)) as (?&?&?&?&?&?&?&?). by destruct c; repeat split.
Qed.
Lemma empty_shows u d doc :
  (forall e, owns u d e = false) ->
  doc.(xd_Invitations) = None -> doc.(xd_Questions) = None -> doc.(xd_Messages) = None ->
  doc.(xd_Webhooks) = None -> doc.(xd_Reminders) = None -> doc.(xd_InviteCards) = None ->
  doc.(xd_NotificationLog) = None -> ShowsEvents u d doc.
Proof. intros H E1 E2 E3 E4 E5 E6 E7. split; rewrite ?E1, ?E2, ?E3, ?E4, ?E5, ?E6, ?E7; apply shows_nil; auto. Qed.
Lemma no_households u d doc :
  (forall k, invitation_owned u d k = false) ->
  doc.(xd_Guests) = None -> doc.(xd_Responses) = None -> doc.(xd_InvitationAnswers) = None ->
  doc.(xd_GuestResponses) = None -> doc.(xd_GuestAnswers) = None -> ShowsHouseholds u d doc.
Proof.
  intros H E1 E2 E3 E4 E5. split; rewrite ?E1, ?E2, ?E3, ?E4, ?E5; apply shows_nil; intros; auto;
    unfold guest_owned; by case_match.
Qed.

Lemma export_children_ok ids order doc w doc' w' :
  export_children ids order doc w = (Ok doc', w') ->
  doc' = filled ids w.(w_db) order doc /\ w'.(w_db) = w.(w_db).
Proof.
  revert doc w. induction order as [|c order IH]; intros doc w H; simpl in H.
  - by injection H as <- <-.
  - apply bind_ok in H as (rows & w1 & Hq & H). apply query_ok in Hq as (-> & Hd & _).
    apply IH in H as [-> Hd']. rewrite Hd in *. done.
Qed.
Lemma export_households_ok u ids doc w doc' w' :
  (forall k, k ∈ ids <-> invitation_owned u w.(w_db) k = true) ->
  export_households ids doc w = (Ok doc', w') ->
  w'.(w_db) = w.(w_db) /\ ShowsHouseholds u w.(w_db) doc' /\
  doc'.(xd_Organizer) = doc.(xd_Organizer) /\ doc'.(xd_Events) = doc.(xd_Events) /\
  doc'.(xd_Series) = doc.(xd_Series) /\ (ShowsEvents u w.(w_db) doc -> ShowsEvents u w.(w_db) doc').
Proof.
  intros Hids H. unfold export_households in H.
  apply bind_ok in H as (? & w1 & (-> & H1 & _)%query_ok & H).
  apply bind_ok in H as (? & w2 & (-> & H2 & _)%query_ok & H).
  apply bind_ok in H as (? & w3 & (-> & H3 & _)%query_ok & H).
  apply bind_ok in H as (? & w4 & (-> & H4 & _)%query_ok & H).
  apply bind_ok in H as (? & w5 & (-> & H5 & _)%query_ok & H).
  injection H as <- <-. rewrite ?H5, ?H4, ?H3, ?H2, ?H1. split; [done|]. split.
  { split; simpl; first [by apply (shows_in ids _ _ (invitation_owned u (w_db w)))|by apply shows_of_guests]. }
  do 3 (split; [done|]). by intros [].
Qed.

(** The document before the tables below the events are read. *)
Definition first_document (user : User) (t : time) (u : string) (d : Database) : ExportDocument :=
  MkExport (format_rfc3339 t) user
    (order_by (fun a b => text_le a.2.(e_created_at) b.2.(e_created_at))
       (select (fun id _ => owns u d id) d.(events)))
    (order_by (fun a b => text_le a.2.(sr_created_at) b.2.(sr_created_at))
       (select (is_owner_of sr_owner u) d.(event_series)))
    None None None None None None None None None None None None.
Definition owned_event_ids (u : string) (d : Database) : list string :=
  map (fun x => x.2.(em_event_id)) (select (fun _ => owner_membership u) d.(event_memberships)).

Lemma export_run order u w doc w' :
  order ≡ₚ eventChildren -> ExportData order u w = (Ok doc, w') ->
  exists user t, user.(user_ID) = u /\
    let d := w.(w_db) in let ids := owned_event_ids u d in
    let doc0 := first_document user t u d in
    let doc1 := filled ids d eventChildren doc0 in
    let invs := (rows_in ids i_event_id d.(invitations)).*1 in
    (ids = [] /\ doc = doc0 /\ w'.(w_db) = d) \/ (invs = [] /\ doc = doc1 /\ w'.(w_db) = d) \/
    exists w1, w1.(w_db) = d /\ export_households invs doc1 w1 = (Ok doc, w').
Proof.
  intros Hperm H. unfold ExportData in H. rewrite (export_any_order _ _ u w Hperm) in H.
  unfold ExportOrganizerData in H. apply bind_ok in H as (o & w1 & Ho & H).
  destruct o as [user|]; [|done].
  apply findOrganizerByID_ok in Ho as (Hd1 & r & _ & (Hid & _)%user_of_row_ok).
  apply bind_ok in H as (t & w2 & [= <- <-] & H).
  apply bind_ok in H as (ids & w3 & (-> & Hd3 & _)%query_ok & H).
  apply bind_ok in H as (evs & w4 & (-> & Hd4 & _)%query_ok & H).
  apply bind_ok in H as (sers & w5 & (-> & Hd5 & _)%query_ok & H).
  simpl in Hd3. rewrite Hd4, Hd3, Hd1 in *. exists user, (clock w1.(w_clock)). split; [done|].
  case_bool_decide as Hnil.
  { apply ret_ok in H as [<- <-]. left. split; [exact Hnil|]. split; [reflexivity|congruence]. }
  right. apply bind_ok in H as (doc1 & w6 & Hc & H). apply export_children_ok in Hc as [-> Hd6].
  apply bind_ok in H as (invs & w7 & (-> & Hd7 & _)%query_ok & H).
  rewrite Hd6, Hd5 in *. case_bool_decide as Hinv; [left|right].
  - apply ret_ok in H as [<- <-]. split; [exact Hinv|]. split; [reflexivity|congruence].
  - exists w7. split; [congruence|exact H].
Qed.

Lemma first_document_rows user t u d :
  (forall k r, (k, r) ∈ (first_document user t u d).(xd_Events) <->
     d.(events) !! k = Some r /\ owns u d k = true) /\
  (forall k r, (k, r) ∈ (first_document user t u d).(xd_Series) <->
     d.(event_series) !! k = Some r /\ r.(sr_owner) = u).
Proof.
  split; intros k r; simpl; rewrite order_by_perm, elem_of_select; [done|].
  unfold is_owner_of. simpl. by rewrite bool_decide_eq_true.
Qed.

(** [C29] An export that succeeds changes nothing and holds the organizer, exactly the
    events she owns, exactly her series, and of every table it lists exactly the
    rows below these events: nothing of an event that somebody else owns. *)
Theorem export_own order u w doc w' :
  order ≡ₚ eventChildren -> ExportData order u w = (Ok doc, w') ->
  let d := w.(w_db) in
  w'.(w_db) = d /\ doc.(xd_Organizer).(user_ID) = u /\
  (forall k r, (k, r) ∈ doc.(xd_Events) <-> d.(events) !! k = Some r /\ owns u d k = true) /\
  (forall k r, (k, r) ∈ doc.(xd_Series) <-> d.(event_series) !! k = Some r /\ r.(sr_owner) = u) /\
  ShowsEvents u d doc /\ ShowsHouseholds u d doc.
Proof.
  intros Hperm H d. destruct (export_run _ _ _ _ _ Hperm H) as (user & t & Hid & Hrun). fold d in Hrun.
  pose proof (owned_ids u d) as Hids. fold (owned_event_ids u d) in Hids.
  destruct (first_document_rows user t u d) as [Hev Hse].
  pose proof (filled_shows u d _ (first_document user t u d) Hids) as Hsh.
  destruct (filled_frame (owned_event_ids u d) d eventChildren (first_document user t u d))
    as (Fo & Fe & Fs & Fg & Fr & Fa & Fgr & Fga).
  destruct Hrun as [(Hnil & -> & Hd)|[(Hnil & -> & Hd)|(w1 & Hd1 & Hh)]].
  - assert (forall e, owns u d e = false) as Hno.
    { intros e. destruct (owns u d e) eqn:He; [|done]. apply Hids in He. rewrite Hnil in He.
      by apply elem_of_nil in He. }
    split_and!; [done..|by apply empty_shows|apply no_households; try done].
    intros k. unfold invitation_owned. by case_match.
  - rewrite Fo, Fe, Fs. split_and!; [done..|]. apply no_households; [|exact Fg|exact Fr|exact Fa|exact Fgr|exact Fga].
    intros k. destruct (invitation_owned u d k) eqn:Hk; [|done].
    apply (owned_invitations u d _ k Hids) in Hk. rewrite Hnil in Hk. by apply elem_of_nil in Hk.
  - eapply export_households_ok in Hh as (Hd & Hhs & Ho & He & Hs & Hkeep);
      [|rewrite Hd1; intros k; by apply owned_invitations].
    rewrite Hd1 in *. rewrite Ho, He, Hs, Fo, Fe, Fs. split_and!; auto.
Qed.
End promises.

(** ** Witness *)

#[local] Existing Instance demo_env.

Lemma export_own_witness :
  exists doc w', ExportData (rev eventChildren) "org" staffed_world = (Ok doc, w') /\
    ShowsEvents "org" staffed_db doc /\ ShowsHouseholds "org" staffed_db doc /\
    doc.(xd_Events).*1 = ["ev"].
Proof.
  destruct (ExportData (rev eventChildren) "org" staffed_world) as [[doc|e] w'] eqn:Hv;
    [|vm_compute in Hv; discriminate Hv].
  destruct (export_own (rev eventChildren) "org" staffed_world doc w') as (_ & _ & _ & _ & H1 & H2);
    [symmetry; apply Permutation_rev|exact Hv|].
  exists doc, w'. split; [reflexivity|]. split; [exact H1|]. split; [exact H2|].
  vm_compute in Hv. injection Hv as <- _. reflexivity.
Defined.
