(* ===== verification/EventFacts.v ===== *)
(** * What the event service promises

    Who may change an event, what becomes of a created event when it is read
    again, and the rate limiter of the cohost endpoint, which answers like the one
    of the security package although it compacts its entries in place. *)

From S2P Require Import Prelude.
From S2P Require Import GoStr.
From S2P Require Import GoTime.
From S2P Require Import Schema.
From S2P Require Import Eff.
From S2P Require Import Http.
From S2P Require Import Respect.
From S2P Require Import Demo.
From S2P Require Import Tables.
From S2P Require Import History.
From S2P Require Import Submission.
From S2P Require Import RateLimit.
From S2P Require Import Auth.
From S2P Require Import Event.
From S2P Require Import EventHandler.
From S2P Require Import AccountSteps.
From S2P Require Import EventSteps.
From S2P Require Import AccountFacts.
From S2P Require Import AccountDemo.
From S2P Require Import LoginFacts.

Local Open Scope Z_scope.

(** ** The limiter of the cohost endpoint *)

(** Requests of keys at times, answered one after the other. *)
Fixpoint cohost_run (rl : coHostRateLimiter) (reqs : list (string * time)) : list bool :=
  match reqs with
  | [] => []
  | (key, now) :: rest =>
      let '(b, rl') := limiter_allow key now rl in b :: cohost_run rl' rest
  end.

(** The entries from position [i] on are still to be seen, those before [idx] are
    kept. *)
Lemma compact_spec cutoff n i idx l :
  (idx <= i)%nat -> (i + n = length l)%nat ->
  let '(l', idx') := compact cutoff n i idx l in
  take idx' l' = take idx l ++ pruneEntries (drop i l) cutoff.
Proof.
  revert i idx l. induction n as [|n IH]; intros i idx l Hi Hn; simpl.
  - rewrite drop_ge by lia. by rewrite app_nil_r.
  - destruct (lookup_lt_is_Some_2 l i) as [e He]; [lia|].
    rewrite (nth_lookup_Some _ _ _ _ He), (drop_S _ _ _ He). unfold pruneEntries in *. simpl.
    destruct (Z.ltb_spec e cutoff); simpl; [by apply IH; lia|].
    specialize (IH (S i) (S idx) (<[idx := e]> l)). rewrite length_insert in IH.
    destruct (compact _ _ _ _ _) as [l' idx'] eqn:Ec. rewrite IH by lia.
    rewrite drop_insert_lt by lia. rewrite (take_S_r _ _ e) by (apply list_lookup_insert_eq; lia).
    rewrite take_insert_ge by lia. by rewrite <- app_assoc.
Qed.

(** The same answer, and the same entries are kept. *)
Lemma limiter_allow_allow key now t limit window :
  limiter_allow key now (MkCoHostLimiter t limit window) =
  let '(b, rl) := Allow key now (MkLimiter t limit window) in
  (b, MkCoHostLimiter rl.(RateLimit.windows) limit window).
Proof.
  unfold limiter_allow, Allow. simpl.
  pose proof (compact_spec (now - window) (length (default [] (t !! key))) 0 0 (default [] (t !! key))) as H.
  destruct (compact _ _ _ _ _) as [l' idx]. rewrite H by lia. simpl.
  by destruct (_ <=? _).
Qed.

(** Over any requests, the rate limiter of the cohost endpoint answers exactly
    as the limiter of the security package does. *)
Theorem cohost_limiter_equivalent limit window reqs :
  map Some (cohost_run (newCoHostRateLimiter limit window) reqs) =
  limiter_run (NewRateLimiter limit window) (map (fun x => OpAllow x.1 x.2) reqs).
Proof.
  unfold newCoHostRateLimiter, NewRateLimiter. generalize (∅ : gmap string (list time)).
  induction reqs as [|[key now] reqs IH]; intros t; [done|]. cbn -[limiter_allow Allow].
  rewrite limiter_allow_allow.
  assert (limit = RateLimit.limit (Allow key now (MkLimiter t limit window)).2 /\
          window = RateLimit.window (Allow key now (MkLimiter t limit window)).2) as [Hl Hw].
  { unfold Allow. simpl. by destruct (_ <=? _). }
  destruct (Allow key now _) as [b [t' l' w']]. simpl in *. subst. by rewrite IH.
Qed.

(** ** Who may change an event *)

Inductive event_request :=
| QUpdate (req : UpdateEventRequest)
| QPublish
| QCancel (notifyInvitees : bool)
| QReopen
| QDuplicate
| QDelete.

Section access.
Context `{E : Env} (s : Event.Service).

Definition event_call (q : event_request) (eventID organizerID : string) : M () :=
  match q with
  | QUpdate req => Update eventID organizerID req ;;; ret ()
  | QPublish => Publish s eventID organizerID ;;; ret ()
  | QCancel b => Cancel s eventID organizerID b ;;; ret ()
  | QReopen => Reopen eventID organizerID ;;; ret ()
  | QDuplicate => Duplicate s eventID organizerID ;;; ret ()
  | QDelete => Delete eventID organizerID
  end.

(** Duplicating and deleting need the owner, the rest a member. *)
Definition role_suffices (q : event_request) (role : option string) : Prop :=
  match q with
  | QDuplicate | QDelete => role = Some "owner"
  | _ => role = Some "owner" \/ role = Some "cohost"
  end.

(** The event as the store gives it. *)
Definition stored_event (id : string) (d : Database) : res (option Event) :=
  scanEvent (event_columns d ∘ pair id <$> d.(events) !! id).

Lemma Store_FindByID_run id w :
  w.(w_faults) = [] -> Store_FindByID id w = (stored_event id w.(w_db), w).
Proof. intros Hf. unfold Store_FindByID. by erewrite bind_run by by apply query_run. Qed.

(** An access check that does not admit refuses, and says why without faults. *)
Definition refusing (m : M bool) (id : string) (w : World) : Prop :=
  (forall w', m w <> (Ok true, w')) /\
  forall ev, w.(w_faults) = [] -> stored_event id w.(w_db) = Ok (Some ev) -> m w = (Ok false, w).

Definition refused {A} (id : string) (w : World) (x : res A * World) : Prop :=
  exists er, x.1 = Err er /\ x.2.(w_db) = w.(w_db) /\
    (w.(w_faults) = [] -> w.(w_db).(events) !! id = None -> er = ErrEventNotFound) /\
    (w.(w_faults) = [] -> forall ev, stored_event id w.(w_db) = Ok (Some ev) -> er = ErrForbidden).

Lemma refused_bind {A B} id w (m : M A) (k : A -> M B) :
  refused id w (m w) -> refused id w (bind m k w).
Proof.
  intros (er & Hr & Hd & H). exists er. unfold bind. destruct (m w) as [[a|e] w1]; [done|].
  simpl in *. injection Hr as ->. done.
Qed.

Lemma load_event_refused access id u w :
  (forall e u, reads (access e u)) ->
  (forall w0, w0.(w_db) = w.(w_db) -> refusing (access id u) id w0) ->
  refused id w (load_event access id u w).
Proof.
  intros Hreads Hacc. destruct (load_event access id u w) as [[e|er] w1] eqn:Hl.
  - apply load_event_ok in Hl as (_ & _ & _ & wa & wb & Hd & Hw); [|done].
    destruct (Hacc wa Hd) as [Hn _]. by destruct (Hn wb).
  - exists er. simpl. split; [done|].
    split; [by apply (reads_world _ _ _ _ (load_event_reads _ id u Hreads) Hl)|].
    unfold load_event in Hl. split; intros Hf.
    + intros Hn. erewrite bind_run in Hl
        by (rewrite Store_FindByID_run by done; unfold stored_event; by rewrite Hn).
      by injection Hl as <- <-.
    + intros ev He. erewrite bind_run in Hl by (rewrite Store_FindByID_run, He by done; done).
      simpl in Hl. unfold bind at 1, ret at 1 in Hl.
      destruct (Hacc w eq_refl) as [_ Hno]. erewrite bind_run in Hl by by eapply Hno.
      by injection Hl as <- <-.
Qed.

Lemma FindMembershipRole_run id u w :
  w.(w_faults) = [] ->
  FindMembershipRole id u w = (Ok (default "" (membership_role id u w.(w_db))), w).
Proof. intros Hf. unfold FindMembershipRole. by erewrite bind_run by by apply query_run. Qed.

Lemma CanManageEvent_refusing id u w :
  ~ (membership_role id u w.(w_db) = Some "owner" \/ membership_role id u w.(w_db) = Some "cohost") ->
  refusing (CanManageEvent id u) id w.
Proof.
  intros Hr. split; [by intros w' ?%CanManageEvent_ok|]. intros ev Hf He. unfold CanManageEvent.
  erewrite bind_run by (rewrite Store_FindByID_run, He by done; done). simpl.
  erewrite bind_run by by apply FindMembershipRole_run.
  destruct (membership_role id u (w_db w)) as [role|]; [|done]. simpl. unfold ret. do 2 f_equal.
  apply orb_false_iff. split; apply bool_decide_eq_false; intros ->; auto.
Qed.
Lemma IsEventOwner_refusing id u w :
  membership_role id u w.(w_db) <> Some "owner" -> refusing (IsEventOwner id u) id w.
Proof.
  intros Hr. split; [by intros w' ?%IsEventOwner_ok|]. intros ev Hf He. unfold IsEventOwner.
  erewrite bind_run by (rewrite Store_FindByID_run, He by done; done). simpl.
  erewrite bind_run by by apply FindMembershipRole_run.
  destruct (membership_role id u (w_db w)) as [role|]; [|done]. simpl. unfold ret. do 2 f_equal.
  apply bool_decide_eq_false. intros ->. auto.
Qed.

(** [C24] A user without the role that a request on an event needs (an active owner or
    cohost to change it, the active owner to duplicate or delete it) gets an error
    and changes nothing; without driver faults it says that the event does not exist
    when it does not, and that the request is forbidden when it does. *)
Theorem event_authority q eventID userID w :
  ~ role_suffices q (membership_role eventID userID w.(w_db)) ->
  refused eventID w (event_call q eventID userID w).
Proof.
  intros Hq.
  assert (refused eventID w (load_event
    (match q with QDuplicate | QDelete => IsEventOwner | _ => CanManageEvent end) eventID userID w)) as H.
  { apply load_event_refused.
    - intros. destruct q; first [apply IsEventOwner_reads | apply CanManageEvent_reads].
    - intros w0 Hd. destruct q; first [apply IsEventOwner_refusing | apply CanManageEvent_refusing]; by rewrite Hd. }
  destruct q; cbn [event_call];
    unfold Update, Publish, Cancel, Reopen, Duplicate, Delete, transition;
    repeat first [exact H | apply refused_bind].
Qed.
End access.

(** ** A created event read again *)

(** Times as the store keeps them, to the second. *)
Definition as_kept (now : time) (e : Event) : Event :=
  {| ev_ID := e.(ev_ID); ev_OrganizerID := e.(ev_OrganizerID); ev_Title := e.(ev_Title);
     ev_Description := e.(ev_Description); ev_EventDate := floor_sec e.(ev_EventDate);
     ev_EndDate := floor_sec <$> e.(ev_EndDate); ev_Location := e.(ev_Location);
     ev_Timezone := e.(ev_Timezone); ev_RetentionDays := e.(ev_RetentionDays);
     ev_Status := e.(ev_Status); ev_ShowHeadcount := e.(ev_ShowHeadcount);
     ev_ShowGuestList := e.(ev_ShowGuestList); ev_RSVPDeadline := floor_sec <$> e.(ev_RSVPDeadline);
     ev_SeriesID := e.(ev_SeriesID); ev_SeriesIndex := e.(ev_SeriesIndex);
     ev_SeriesOverride := e.(ev_SeriesOverride); ev_CreatedAt := floor_sec now;
     ev_UpdatedAt := floor_sec now |}.
Definition times_ok (e : Event) : Prop :=
  time_ok e.(ev_EventDate) = true /\
  (forall t, e.(ev_EndDate) = Some t -> time_ok t = true) /\
  (forall t, e.(ev_RSVPDeadline) = Some t -> time_ok t = true).

Lemma parse_time_format ctx t : time_ok t = true -> parse_time ctx (format_rfc3339 t) = Ok (floor_sec t).
Proof. intros Ht. unfold parse_time. by rewrite parse_rfc3339_format. Qed.
Lemma parse_time_opt_format ctx o :
  (forall t, o = Some t -> time_ok t = true) ->
  parse_time_opt ctx (format_rfc3339 <$> o) = Ok (floor_sec <$> o).
Proof. destruct o as [t|]; simpl; [|done]. intros Ht. by rewrite parse_time_format by auto. Qed.

(** What is written of an event is read as the event. *)
Lemma event_row_parses e now :
  times_ok e -> time_ok now = true ->
  parseEventTimes e.(ev_ID) e.(ev_OrganizerID) (event_row e (format_rfc3339 now) (format_rfc3339 now))
  = Ok (as_kept now e).
Proof.
  intros (Hd & He & Hr) Hn. unfold parseEventTimes, event_row. simpl.
  rewrite parse_time_format by done. simpl. rewrite parse_time_opt_format by done. simpl.
  rewrite parse_time_opt_format by done. simpl. by do 2 (rewrite parse_time_format by done; simpl).
Qed.

Section created.
Context `{E : Env} (s : Event.Service).

Lemma Store_Create_ok e w e' w1 :
  Store_Create e w = (Ok e', w1) ->
  let now := clock w.(w_clock) in
  e' = with_times (reparse (format_rfc3339 now)) (reparse (format_rfc3339 now)) e /\
  w.(w_db).(events) !! e.(ev_ID) = None /\
  w1.(w_db).(events) = <[e.(ev_ID) := event_row e (format_rfc3339 now) (format_rfc3339 now)]> w.(w_db).(events) /\
  owner_of e.(ev_ID) w1.(w_db) = Some e.(ev_OrganizerID).
Proof.
  intros H. unfold Store_Create, createEvent in H. run_ok. repeat match goal with
    | H : insert_membership _ _ _ = _ |- _ => unfold insert_membership in H; insert_cases H; rename H into Hm
    | H : insert_event _ _ _ = _ |- _ => unfold insert_event in H; insert_cases H; rename H into Hi
    end.
  match goal with H : negb (has (ev_ID e) _) = true |- _ => apply has_false in H as Hnew end.
  match goal with H : negb (bool_decide _) || unique _ _ _ = true |- _ => rename H into Hown end.
  dbs. replace (w_clock x) with (w_clock w) in * by congruence.
  split_and!; [done|congruence|done|]. simpl in Hown. rewrite unique_spec in Hown.
  assert (event_memberships (w_db x6) = event_memberships (w_db w)) as Hmem by by dbs.
  rewrite Hmem in Hown.
  unfold owner_of. simpl. erewrite (select_row_unique _ _ (uuid_v7 (w_uuids x4)) _ (lookup_insert_eq _ _ _)); [done|..].
  - simpl. by rewrite !bool_decide_true.
  - intros k m Hk [He Hr]%andb_true_iff. apply bool_decide_eq_true in He, Hr. simpl in Hk.
    apply lookup_insert_Some in Hk as [[<- _]|[_ Hk]]; [done|].
    destruct (Hown _ _ Hk). congruence.
Qed.

Lemma check_len_ok what limit t u : check_len what limit t = Ok u -> len t <= limit.
Proof. unfold check_len. destruct (Z.ltb_spec limit (len t)); [done|]. lia. Qed.
Lemma wrap_validation_ok {A} ctx (r : res A) a : wrap_validation ctx r = Ok a -> r = Ok a.
Proof. by destruct r as [|[]]. Qed.
Lemma parse_deadline_ok t date deadline : parse_deadline t date = Ok deadline -> deadline <= date.
Proof.
  unfold parse_deadline. intros (d & _ & H)%res_bind_ok. destruct (Z.ltb_spec date d); [done|].
  by injection H as <-.
Qed.

(** An optional text of a request as a time: absent when it is missing or empty. *)
Definition asked_time (text : option string) (t : option time) : Prop :=
  match text with
  | Some x => if bool_decide (x = "") then t = None else exists t', parseFlexibleTime x = Ok t' /\ t = Some t'
  | None => t = None
  end.
(** Every field of the event is the one asked for, or its default. *)
Record as_requested (days : Z) (u : string) (req : CreateEventRequest) (e : Event) : Prop := {
  rq_owner : e.(ev_OrganizerID) = u;
  rq_title : e.(ev_Title) = req.(ce_Title) /\ 0 < len e.(ev_Title) <= maxTitleLen;
  rq_description : e.(ev_Description) = req.(ce_Description) /\ len e.(ev_Description) <= maxDescriptionLen;
  rq_location : e.(ev_Location) = req.(ce_Location) /\ len e.(ev_Location) <= maxLocationLen;
  rq_date : parseFlexibleTime req.(ce_EventDate) = Ok e.(ev_EventDate);
  rq_end : asked_time req.(ce_EndDate) e.(ev_EndDate);
  rq_deadline : asked_time req.(ce_RSVPDeadline) e.(ev_RSVPDeadline) /\
    forall t, e.(ev_RSVPDeadline) = Some t -> t <= e.(ev_EventDate);
  rq_timezone : e.(ev_Timezone) =
    if bool_decide (req.(ce_Timezone) = "") then "America/New_York" else req.(ce_Timezone);
  rq_retention : e.(ev_RetentionDays) =
    match req.(ce_RetentionDays) with Some n => if 0 <? n then n else days | None => days end;
  rq_headcount : e.(ev_ShowHeadcount) = match req.(ce_ShowHeadcount) with Some b => b | None => false end;
  rq_guest_list : e.(ev_ShowGuestList) = match req.(ce_ShowGuestList) with Some b => b | None => false end;
  rq_status : e.(ev_Status) = "draft";
  rq_series : e.(ev_SeriesID) = None /\ e.(ev_SeriesIndex) = None /\ e.(ev_SeriesOverride) = false }.

Lemma asked_time_ok parse text t :
  (forall x t', parse x = Ok t' -> parseFlexibleTime x = Ok t') ->
  map_res parse (non_empty text) = Ok t -> asked_time text t.
Proof.
  intros Hp. unfold asked_time. destruct text as [x|]; simpl; [|by intros [= <-]].
  destruct (bool_decide (x = "")); simpl; [by intros [= <-]|].
  intros (t' & Hx & [= <-])%res_bind_ok. eauto.
Qed.
Lemma event_of_request_ok days u req make id :
  event_of_request days u req = Ok make -> (make id).(ev_ID) = id /\ as_requested days u req (make id).
Proof.
  unfold event_of_request. intros H.
  destruct (bool_decide_reflect (ce_Title req = "")) as [|Hne]; [done|].
  apply res_bind_ok in H as (? & Ht & H). apply res_bind_ok in H as (? & Hd & H).
  apply res_bind_ok in H as (? & Hl & H). destruct (bool_decide _); [done|].
  apply res_bind_ok in H as (date & Hdate & H). apply res_bind_ok in H as (fin & Hend & H).
  apply res_bind_ok in H as (deadline & Hdl & [= <-]).
  apply check_len_ok in Ht, Hd, Hl. apply wrap_validation_ok in Hdate.
  split; [done|]. split; simpl; try done.
  - split; [done|]. split; [|done]. destruct (ce_Title req); [done|]. unfold len. simpl. lia.
  - eapply asked_time_ok; [|exact Hend]. intros y t' Hy. by apply wrap_validation_ok in Hy.
  - split.
    + eapply asked_time_ok; [|exact Hdl]. intros y t' Hy. unfold parse_deadline in Hy.
      apply res_bind_ok in Hy as (d & Hy%wrap_validation_ok & H'). destruct (_ <? _); [done|]. by injection H' as <-.
    + intros t ->. destruct (non_empty (ce_RSVPDeadline req)) as [dl|]; simpl in Hdl; [|done].
      apply res_bind_ok in Hdl as (t' & Hp & [= <-]). by eapply parse_deadline_ok.
Qed.

End created.

(** ** On concrete events *)

Definition far_date : string := "9999-12-31T23:59:59-12:00".
Definition event_on (date : string) : CreateEventRequest :=
  MkCreateEvent "Party" "" date None "Home" "UTC" None None None None.

(** A date that its zone offset moves to the year 10000 is accepted, and stored as a
    text that no reader accepts: from then on the event cannot be read, changed or
    deleted, and none of its organizer's events can be listed. *)
Lemma far_date_unreadable :
  let w1 := (Create (E:=demo_env) demo_events "org" (event_on far_date) demo_world).2 in
  (exists e, (Create (E:=demo_env) demo_events "org" (event_on far_date) demo_world).1 = Ok e /\
             e.(ev_ID) = "u0") /\
  (e_event_date <$> w1.(w_db).(events) !! "u0") = Some "10000-01-01T11:59:59Z" /\
  (GetByID "u0" w1).1 = Err (EInternal "parse event_date") /\
  (Delete (E:=demo_env) "u0" "org" w1).1 = Err (EInternal "parse event_date") /\
  (ListByOrganizer "org" w1).1 = Err (EInternal "parse event_date").
Proof. vm_compute. split_and!; try done. by eexists. Qed.

(** ** The hypotheses can hold *)

Lemma event_authority_witness :
  refused "ev" staffed_world (event_call (E:=demo_env) demo_events QDelete "ev" "root" staffed_world).
Proof.
  apply (event_authority (E:=demo_env) demo_events QDelete "ev" "root" staffed_world).
  vm_compute. discriminate.
Defined.

