(* ===== verification/SeriesFacts.v ===== *)
(** * What the generation of occurrences promises

    The dates of a recurrence, the occurrences a run of the generator adds, and two
    behaviours of the rolling window. *)

From S2P Require Import Prelude.
From S2P Require Import GoStr.
From S2P Require Import GoTime.
From S2P Require Import Schema.
From S2P Require Import Eff.
From S2P Require Import Http.
From S2P Require Import Respect.
From S2P Require Import Demo.
From S2P Require Import Tables.
From S2P Require Import History.
From S2P Require Import System.
From S2P Require Import Submission.
From S2P Require Import Auth.
From S2P Require Import UserAdmin.
From S2P Require Import Event.
From S2P Require Import EventHandler.
From S2P Require Import Series.
From S2P Require Import Instance.
From S2P Require Import AccountSteps.
From S2P Require Import EventSteps.
From S2P Require Import AccountSystem.
From S2P Require Import AccountFacts.
From S2P Require Import AccountDemo.
From S2P Require Import LoginFacts.

Local Open Scope Z_scope.

(** ** Dates *)

Lemma days_of_time t : t / ns_per_day = sec_of t / 86400.
Proof. unfold ns_per_day, sec_of. by rewrite Z.div_div, (Z.mul_comm 86400). Qed.

(** The month after a date, and the day of the month kept as far as it goes. *)
Definition month_after (y m : Z) : Z * Z := if m =? 12 then (y + 1, 1) else (y, m + 1).

Lemma nextMonthly_date from y m d originalDay :
  date_of from = (y, m, d) -> 1 <= originalDay ->
  let '(y', m') := month_after y m in
  date_of (nextMonthly from originalDay) = (y', m', Z.min originalDay (days_in m' y')) /\
  second_of_day (nextMonthly from originalDay) = second_of_day from.
Proof.
  intros Hd Ho. pose proof Hd as Hc. unfold date_of in Hc. apply civil_facts in Hc as (Hm & _).
  unfold nextMonthly, month_after. rewrite Hd.
  set (y' := if 12 <? m + 1 then y + 1 else y). set (m' := if 12 <? m + 1 then 1 else m + 1).
  assert ((if m =? 12 then (y + 1, 1) else (y, m + 1)) = (y', m')) as ->.
  { unfold y', m'. destruct (Z.eqb_spec m 12), (Z.ltb_spec 12 (m + 1)); try lia; done. }
  assert (1 <= m' <= 12) as Hm' by (unfold m'; destruct (Z.ltb_spec 12 (m + 1)); lia).
  rewrite day_of_last by done. pose proof (days_in_bounds m' y').
  assert ((if days_in m' y' <? originalDay then days_in m' y' else originalDay)
          = Z.min originalDay (days_in m' y')) as -> by (destruct (Z.ltb_spec (days_in m' y') originalDay); lia).
  apply date_of_time_date; [done|lia|apply second_of_day_bound].
Qed.

(** A later month is a later instant. *)
Lemma later_month a b y m d y' m' d' :
  date_of a = (y, m, d) -> date_of b = (y', m', d') -> (y', m') = month_after y m -> a < b.
Proof.
  unfold date_of, month_after. intros Ha Hb He.
  assert (a / ns_per_day < b / ns_per_day) as Hlt.
  { apply day_key_lt. rewrite (day_key_civil _ _ _ _ Ha), (day_key_civil _ _ _ _ Hb).
    apply civil_facts in Ha as (Hm & Hd & _). apply civil_facts in Hb as (Hm' & Hd' & _).
    pose proof (days_in_bounds m y). destruct (Z.eqb_spec m 12); simplify_eq; lia. }
  unfold ns_per_day, ns_per_sec in *. Z.div_mod_to_equations. lia.
Qed.

Lemma calculate_later from rule originalDay :
  isValidRecurrenceRule rule = true -> 1 <= originalDay ->
  from < calculateNextOccurrence from rule originalDay.
Proof.
  intros Hv Ho. apply bool_decide_eq_true in Hv. unfold calculateNextOccurrence.
  destruct (bool_decide_reflect (rule = "weekly")); [unfold ns_per_day, ns_per_sec; lia|].
  destruct (bool_decide_reflect (rule = "biweekly")); [unfold ns_per_day, ns_per_sec; lia|].
  destruct (bool_decide_reflect (rule = "monthly")) as [->|]; [|set_solver].
  destruct (date_of from) as [[y m] d] eqn:Hd.
  pose proof (nextMonthly_date from y m d originalDay Hd Ho) as Hn.
  destruct (month_after y m) as [y' m'] eqn:E. destruct Hn as [Hn _]. by eapply later_month.
Qed.

(** The next occurrence of a valid rule is strictly later; weekly and biweekly
    ones keep the time at 7 and 14 days' distance, and a monthly one is in the next
    calendar month, on the original day or, when the month is shorter, on its last
    day, at the same time of the day. *)
Theorem next_occurrence from rule originalDay y m d :
  isValidRecurrenceRule rule = true -> 1 <= originalDay -> date_of from = (y, m, d) ->
  let next := calculateNextOccurrence from rule originalDay in
  from < next /\
  (rule = "weekly" -> next = from + 7 * ns_per_day) /\
  (rule = "biweekly" -> next = from + 14 * ns_per_day) /\
  (rule = "monthly" ->
     let '(y', m') := month_after y m in
     date_of next = (y', m', Z.min originalDay (days_in m' y')) /\
     second_of_day next = second_of_day from).
Proof.
  intros Hv Ho Hd. split; [by apply calculate_later|]. unfold calculateNextOccurrence.
  split_and!; [by intros ->..|intros ->]. by apply (nextMonthly_date _ _ _ d).
Qed.

(** ** The calendar *)

(** The [n]-th date of a rule after a date: 7 or 14 days apart, or so many months on,
    on the same day of the month or, in a shorter month, on its last, at the same time
    of the day. *)
Definition due_date (rule : string) (from : time) (n : Z) (t : time) : Prop :=
  (rule = "weekly" /\ t = from + 7 * n * ns_per_day) \/
  (rule = "biweekly" /\ t = from + 14 * n * ns_per_day) \/
  (rule = "monthly" /\ let '(y, m, d) := date_of from in
     let month := 12 * y + (m - 1) + n in
     date_of t = (month / 12, month mod 12 + 1, Z.min d (days_in (month mod 12 + 1) (month / 12))) /\
     second_of_day t = second_of_day from /\ (0 < n -> t mod ns_per_sec = 0)).

Lemma due_date_now rule t : isValidRecurrenceRule rule = true -> due_date rule t 0 t.
Proof.
  intros Hv%bool_decide_eq_true. unfold due_date. destruct (date_of t) as [[y m] d] eqn:Hd.
  assert (rule = "weekly" \/ rule = "biweekly" \/ rule = "monthly") as [->|[->| ->]] by set_solver;
    [left; split; [done|lia]|right; left; split; [done|lia]|right; right].
  split; [done|]. unfold date_of in Hd. pose proof (civil_facts _ _ _ _ Hd) as (Hm & Hday & _).
  rewrite Z.add_0_r. replace ((12 * y + (m - 1)) / 12) with y by (Z.div_mod_to_equations; lia).
  replace ((12 * y + (m - 1)) mod 12 + 1) with m by (Z.div_mod_to_equations; lia).
  split_and!; [|done|lia]. f_equal. lia.
Qed.
Lemma due_date_next rule from n t :
  0 <= n -> due_date rule from n t ->
  due_date rule from (n + 1) (calculateNextOccurrence t rule (day_of from)).
Proof.
  intros Hn. unfold due_date, day_of, calculateNextOccurrence.
  destruct (date_of from) as [[y m] d] eqn:Hd. simpl.
  intros [[-> ->]|[[-> ->]|[-> (Ht & Hs & _)]]]; simpl; [left; split; [done|lia]|right; left; split; [done|lia]|].
  right. right. split; [done|].
  unfold date_of in Hd. pose proof (civil_facts _ _ _ _ Hd) as (Hm & Hday & _).
  set (month := 12 * y + (m - 1) + n) in *.
  pose proof (nextMonthly_date t _ _ _ d Ht ltac:(lia)) as Hnext. unfold month_after in Hnext.
  replace (12 * y + (m - 1) + (n + 1)) with (month + 1) by lia.
  assert ((if month mod 12 + 1 =? 12 then (month / 12 + 1, 1) else (month / 12, month mod 12 + 1 + 1))
          = ((month + 1) / 12, (month + 1) mod 12 + 1)) as He.
  { destruct (Z.eqb_spec (month mod 12 + 1) 12); f_equal; Z.div_mod_to_equations; lia. }
  rewrite He in Hnext. destruct Hnext as [Hd1 Hs1]. split_and!; [done|congruence|]. intros _.
  unfold nextMonthly. rewrite Ht. unfold time_date. apply Z.mod_mul. unfold ns_per_sec. lia.
Qed.

(** ** The occurrences of a run *)

(** What the generator should add with [n] turns left: dates and indexes. *)
Fixpoint upcoming (n : nat) (es : EventSeries) (lastDate : time) (total originalDay : Z)
    : list (time * Z) :=
  match n with
  | O => []
  | S n =>
      let next := calculateNextOccurrence lastDate es.(es_RecurrenceRule) originalDay in
      if reached_max es total || past_end es next then []
      else (next, total + 1) :: upcoming n es next (total + 1) originalDay
  end.

(** The window filled up: consecutive dates of the rule after [from], numbered on from
    [total], none past the end date or the maximal number, and less than [needed] of
    them only where the next one would be. *)
Record full_window (es : EventSeries) (from : time) (total needed : Z) (l : list (time * Z)) : Prop := {
  fw_length : Z.of_nat (length l) <= needed;
  fw_entry (i : nat) x : l !! i = Some x ->
    due_date es.(es_RecurrenceRule) from (Z.of_nat i + 1) x.1 /\ x.2 = total + Z.of_nat i + 1 /\
    (forall e, es.(es_RecurrenceEnd) = Some e -> x.1 <= e) /\
    (forall m, es.(es_MaxOccurrences) = Some m -> x.2 <= m);
  fw_stop : Z.of_nat (length l) < needed ->
    (exists m, es.(es_MaxOccurrences) = Some m /\ m <= total + Z.of_nat (length l)) \/
    (exists e t, es.(es_RecurrenceEnd) = Some e /\ e < t /\
       due_date es.(es_RecurrenceRule) from (Z.of_nat (length l) + 1) t) }.

(** A date up to the form of its number. *)
Ltac at_turn H :=
  match goal with |- due_date _ _ ?x _ =>
    match type of H with due_date _ _ ?y _ => replace x with y by lia; exact H end end.

Lemma upcoming_window (n : nat) es from i t total :
  0 <= i -> due_date es.(es_RecurrenceRule) from i t ->
  let l := upcoming n es t (total + i) (day_of from) in
  (length l <= n)%nat /\
  (forall (j : nat) x, l !! j = Some x ->
     due_date es.(es_RecurrenceRule) from (i + Z.of_nat j + 1) x.1 /\ x.2 = total + i + Z.of_nat j + 1 /\
     (forall e, es.(es_RecurrenceEnd) = Some e -> x.1 <= e) /\
     (forall m, es.(es_MaxOccurrences) = Some m -> x.2 <= m)) /\
  ((length l < n)%nat ->
     (exists m, es.(es_MaxOccurrences) = Some m /\ m <= total + i + Z.of_nat (length l)) \/
     (exists e t, es.(es_RecurrenceEnd) = Some e /\ e < t /\
        due_date es.(es_RecurrenceRule) from (i + Z.of_nat (length l) + 1) t)).
Proof.
  revert i t. induction n as [|n IH]; intros i t Hi Ht l; [split_and!; [done|done|by intros ?%Nat.nlt_0_r]|].
  pose proof (due_date_next _ _ _ _ Hi Ht) as Hnext. subst l. simpl.
  set (next := calculateNextOccurrence t _ _) in *.
  destruct (reached_max es (total + i) || past_end es next) eqn:Hstop; simpl.
  - split_and!; [lia|done|]. intros _. replace (total + i + 0) with (total + i) by lia.
    apply orb_true_iff in Hstop as [Hs|Hs]; [left|right].
    + unfold reached_max in Hs. destruct (es_MaxOccurrences es) as [m|]; [|done]. exists m. split; [done|lia].
    + unfold past_end in Hs. destruct (es_RecurrenceEnd es) as [e|]; [|done]. exists e, next.
      split_and!; [done|lia|at_turn Hnext].
  - apply orb_false_iff in Hstop as [Hmax Hend].
    destruct (IH (i + 1) next ltac:(lia) Hnext) as (Hl & He & Hs). rewrite Z.add_assoc in *. split_and!.
    + lia.
    + intros [|j] x; simpl.
      * intros [= <-]. simpl. split_and!; [at_turn Hnext|lia| |].
        -- intros e Hee. unfold past_end in Hend. rewrite Hee in Hend. lia.
        -- intros m Hm. unfold reached_max in Hmax. rewrite Hm in Hmax. lia.
      * intros Hj. destruct (He _ _ Hj) as (Hd & Hx & ?). split_and!; [at_turn Hd|lia|tauto|tauto].
    + intros Hlt. destruct (Hs ltac:(lia)) as [(m & Hm & ?)|(e & t' & He' & Het & Hd)]; [left|right].
      * exists m. split; [done|lia].
      * exists e, t'. split_and!; [done..|].
        at_turn Hd.
Qed.
Lemma upcoming_full es from total needed :
  isValidRecurrenceRule es.(es_RecurrenceRule) = true -> 0 <= needed ->
  full_window es from total needed (upcoming (Z.to_nat needed) es from total (day_of from)).
Proof.
  intros Hv Hn. pose proof (upcoming_window (Z.to_nat needed) es from 0 from total) as H.
  rewrite Z.add_0_r in H. destruct H as (Hl & He & Hs); [lia|by apply due_date_now|]. split.
  - lia.
  - intros i x Hi. destruct (He _ _ Hi) as (Hd & Hx & ?). split_and!; [done|lia|tauto|tauto].
  - intros Hlt. apply Hs. lia.
Qed.

(** The row of an occurrence: the template of the series at a date. *)
Record occurrence_row (es : EventSeries) (date : time) (index : Z) (r : EventRow) : Prop := {
  or_template : r.(e_title) = es.(es_Title) /\ r.(e_description) = es.(es_Description) /\
    r.(e_location) = es.(es_Location) /\ r.(e_timezone) = es.(es_Timezone) /\
    r.(e_retention_days) = es.(es_RetentionDays) /\ r.(e_show_headcount) = es.(es_ShowHeadcount) /\
    r.(e_show_guest_list) = es.(es_ShowGuestList);
  or_status : r.(e_status) = "published";
  or_date : r.(e_event_date) = format_rfc3339 date;
  or_end : r.(e_end_date) = match es.(es_DurationMinutes) with
    | Some n => if 0 <? n then Some (format_rfc3339 (date + duration n minute)) else None
    | None => None end;
  or_deadline : r.(e_rsvp_deadline) = match es.(es_RSVPDeadlineOffsetHours) with
    | Some n => if 0 <? n then Some (format_rfc3339 (date + duration (- n) hour)) else None
    | None => None end;
  or_series : r.(e_series_id) = Some es.(es_ID) /\ r.(e_series_index) = Some index /\
    r.(e_series_override) = false }.
Lemma occurrence_row_ok es date index id now :
  occurrence_row es date index (event_row (occurrence es date index id) now now).
Proof.
  split; simpl; try done; unfold positive;
    [destruct (es_DurationMinutes es)|destruct (es_RSVPDeadlineOffsetHours es)]; simpl; try done; by case_match.
Qed.

(** Events are added, one new row per occurrence, and nothing else happens to
    [events]. *)
Inductive adds (es : EventSeries) : gmap string EventRow -> list (time * Z) -> gmap string EventRow -> Prop :=
| adds_nil t : adds es t [] t
| adds_cons t id r date index l t' :
    t !! id = None -> occurrence_row es date index r ->
    adds es (<[id := r]> t) l t' ->
    adds es t ((date, index) :: l) t'.

Section generation.
Context `{E : Env} (s : SeriesService) (Hq : quiet_series s).

Lemma create_occurrence_adds ctx es date index w r w' :
  create_occurrence s ctx es date index w = (r, w') ->
  match r with
  | Err _ => w'.(w_db).(events) = w.(w_db).(events)
  | Ok _ => adds es w.(w_db).(events) [(date, index)] w'.(w_db).(events)
  end.
Proof.
  unfold create_occurrence, buildOccurrenceFromSeries. intros H.
  unfold bind at 1 2, new_uuid, ret in H. cbn beta iota in H.
  match type of H with bind _ _ ?w0 = _ => set (w1 := w0) in *; assert (Hd : w_db w1 = w_db w) by done end.
  clearbody w1. unfold bind, or_err, CreateFromSeries in H.
  match type of H with context [Store_Create ?o] => set (occ := o) in * end.
  unfold bind in H. destruct (Store_Create occ w1) as [[e|er] w2] eqn:Ec.
  - assert (r = Ok () /\ w'.(w_db).(events) = w2.(w_db).(events)) as [-> He].
    { destruct (ss_onCreateOccurrence s) as [f|] eqn:Ef; [|by injection H as <- <-].
      unfold ignore_err in H. injection H as <- <-. split; [done|]. by apply (qs_create _ Hq f _ _ Ef w2). }
    rewrite He. clear H He.
    unfold Store_Create, createEvent in Ec. run_ok. repeat match goal with
      | H : insert_membership _ _ _ = _ |- _ => unfold insert_membership in H; insert_cases H; rename H into Hm
      | H : insert_event _ _ _ = _ |- _ => unfold insert_event in H; insert_cases H; rename H into Hi
      end. dbs.
    match goal with H : negb (has _ (events _)) = true |- _ => apply has_false in H end.
    eapply adds_cons; [|apply occurrence_row_ok|apply adds_nil]. congruence.
  - simpl in H. injection H as <- <-. rewrite <- Hd. by apply with_tx_err in Ec as ->.
Qed.

Lemma adds_app es t l1 t1 l2 t2 : adds es t l1 t1 -> adds es t1 l2 t2 -> adds es t (l1 ++ l2) t2.
Proof. induction 1; simpl; [done|]. intros. econstructor; eauto. Qed.

(** The loop adds a prefix of what it should, all of it when it succeeds. *)
Lemma generate_loop_adds n es lastDate total originalDay w r w' :
  generate_loop s n es lastDate total originalDay w = (r, w') ->
  exists l, l `prefix_of` upcoming n es lastDate total originalDay /\
    adds es w.(w_db).(events) l w'.(w_db).(events) /\
    (r = Ok () -> l = upcoming n es lastDate total originalDay).
Proof.
  revert lastDate total w. induction n as [|n IH]; intros lastDate total w H; simpl in *.
  - injection H as <- <-. exists []. split_and!; [done|constructor|done].
  - set (next := calculateNextOccurrence _ _ _) in *.
    destruct (reached_max es total || past_end es next).
    { injection H as <- <-. exists []. split_and!; [done|constructor|done]. }
    unfold bind at 1 in H. destruct (create_occurrence s _ es next (total + 1) w) as [[[]|e] w1] eqn:Ec.
    + apply create_occurrence_adds in Ec. apply IH in H as (l & Hp & Ha & Hr).
      exists ((next, total + 1) :: l). split_and!.
      * by apply prefix_cons.
      * by eapply (adds_app _ _ [_]).
      * intros Hok. by rewrite Hr.
    + apply create_occurrence_adds in Ec. injection H as <- <-. exists [].
      split_and!; [apply prefix_nil| |done]. rewrite Ec. constructor.
Qed.

End generation.

Section window.
Context `{E : Env}.

(** The events a query of them gives, the last of which is the latest. *)
Lemma find_events_last ctx P w l w' :
  find_events ctx earlier_event P w = (Ok l, w') ->
  Z.of_nat (length l) = count (P w.(w_db)) w.(w_db).(events) /\
  forall e, last l = Some e ->
    exists k r, w.(w_db).(events) !! k = Some r /\ P w.(w_db) k r = true /\
      parse_time "parse event_date" r.(e_event_date) = Ok e.(ev_EventDate) /\
      forall k' r', w.(w_db).(events) !! k' = Some r' -> P w.(w_db) k' r' = true ->
        text_le r'.(e_event_date) r.(e_event_date) = true.
Proof.
  unfold find_events. intros H. run_ok.
  match goal with H : mapM _ _ _ = _ |- _ => apply mapM_ok in H; rename H into Hf end. split.
  { apply Forall2_length in Hf. rewrite <- Hf, order_by_perm, length_map. done. }
  intros e He. apply Forall2_last in Hf. rewrite He in Hf. inversion Hf as [x y (w1 & w2 & Hs) Hx|]; subst.
  symmetry in Hx. pose proof (last_Some_elem_of _ _ Hx) as Hin.
  rewrite order_by_perm in Hin. apply list_elem_of_fmap in Hin as ([k r] & -> & [Hk HP]%elem_of_select).
  apply of_res_ok in Hs as [Hr _].
  exists k, r. split_and!; [done|done| |].
  - unfold scanEventRow, scan_event_as, event_columns in Hr. simpl in Hr.
    destruct (owner_of k _); [|done]. unfold parseEventTimes in Hr.
    apply res_bind_ok in Hr as (d & Hd & Hr). rewrite Hd. f_equal.
    repeat (apply res_bind_ok in Hr as (? & _ & Hr)). by injection Hr as <-.
  - intros k' r' Hk' HP'.
    assert (In' : event_columns (w_db w) (k', r') ∈ map (event_columns (w_db w)) (select (P (w_db w)) (events (w_db w)))).
    { apply list_elem_of_fmap. eexists. split; [done|]. by apply elem_of_select. }
    apply (order_by_last earlier_event) with (x := event_columns (w_db w) (k, r)) in In' as [He'|Hle]; auto.
    + injection He' as _ _ ->. unfold text_le, str_lt. by rewrite bytes_lt_irrefl.
    + intros a b c. apply text_le_trans.
    + intros a b. apply text_le_total.
Qed.

(** Where the window of a series goes on from: its latest future occurrence, without
    one its latest occurrence, without any the present. *)
Definition in_series (sid : string) (r : EventRow) : bool := bool_decide (r.(e_series_id) = Some sid).
Definition latest (P : EventRow -> bool) (d : Database) (t : time) : Prop :=
  exists k r, d.(events) !! k = Some r /\ P r = true /\
    parse_time "parse event_date" r.(e_event_date) = Ok t /\
    forall k' r', d.(events) !! k' = Some r' -> P r' = true ->
      text_le r'.(e_event_date) r.(e_event_date) = true.
Definition window_end (sid : string) (present : time) (d : Database) (t : time) : Prop :=
  let future := future_event sid (format_rfc3339 present) in
  if 0 <? count (fun _ r => future r) d.(events) then latest future d t
  else if 0 <? count (fun _ r => in_series sid r) d.(events) then latest (in_series sid) d t
  else exists n, t = clock n.

Lemma FindFuture_window sid w l w' :
  FindFutureBySeriesID sid w = (Ok l, w') ->
  let present := clock w.(w_clock) in
  w'.(w_db) = w.(w_db) /\
  Z.of_nat (length l)
    = count (fun _ r => future_event sid (format_rfc3339 present) r) w.(w_db).(events) /\
  forall e, last l = Some e ->
    latest (future_event sid (format_rfc3339 present)) w.(w_db) e.(ev_EventDate).
Proof.
  intros H present. pose proof (FindFuture_ok _ _ _ _ H) as [Hd _]. split; [done|].
  unfold FindFutureBySeriesID in H. apply bind_ok in H as (t & w1 & (-> & Hn & _)%now_ok & H).
  by apply find_events_last in H; rewrite Hn in H.
Qed.

Lemma last_date_window existing sid present w t w' :
  Z.of_nat (length existing)
    = count (fun _ r => future_event sid (format_rfc3339 present) r) w.(w_db).(events) ->
  (forall e, last existing = Some e ->
    latest (future_event sid (format_rfc3339 present)) w.(w_db) e.(ev_EventDate)) ->
  last_date existing sid w = (Ok t, w') ->
  w'.(w_db) = w.(w_db) /\ window_end sid present w.(w_db) t.
Proof.
  intros Hc Hl H. unfold last_date, window_end in *. rewrite <- Hc. clear Hc.
  destruct (last existing) as [e|] eqn:El.
  - apply ret_ok in H as [<- <-]. split; [done|]. destruct existing; [done|]. simpl. by apply Hl.
  - apply last_None in El as ->. simpl. apply bind_ok in H as (all & w1 & Ha & H).
    pose proof (find_events_ok _ _ _ _ _ _ Ha) as [Hd _]. apply find_events_last in Ha as [Hn Ha].
    unfold in_series at 1. rewrite <- Hn. destruct (last all) as [e|] eqn:El.
    + apply ret_ok in H as [<- <-]. split; [done|]. destruct all; [done|]. simpl. by apply Ha.
    + apply last_None in El as ->. apply now_ok in H as (-> & Hd' & _). simpl. split; [congruence|eauto].
Qed.

Lemma last_date_reads l sid : reads (last_date l sid).
Proof. unfold last_date. respect. apply FindBySeries_reads. Qed.
Lemma SeriesStore_FindByID_ok sid w es w' :
  SeriesStore_FindByID sid w = (Ok es, w') ->
  w'.(w_clock) = w.(w_clock) /\
  match w.(w_db).(event_series) !! sid with
  | None => es = None
  | Some row => exists e, parseSeriesFields sid row = Ok e /\ es = Some e
  end.
Proof.
  unfold SeriesStore_FindByID. intros H. apply bind_ok in H as (o & w1 & (-> & _ & Hc & _)%query_ok & [H ->]%of_res_ok).
  split; [done|]. destruct (event_series (w_db w) !! sid) as [row|]; simpl in H; [|by injection H as <-].
  apply res_bind_ok in H as (e & Hp & [= <-]). eauto.
Qed.
Lemma parseSeriesFields_ok sid row es :
  parseSeriesFields sid row = Ok es ->
  es.(es_ID) = sid /\ es.(es_SeriesStatus) = row.(sr_status) /\ es.(es_RecurrenceRule) = row.(sr_rule) /\
  es.(es_OrganizerID) = row.(sr_owner).
Proof.
  intros Hp. unfold parseSeriesFields in Hp. repeat (apply res_bind_ok in Hp as (? & _ & Hp)). by injection Hp as <-.
Qed.
Lemma day_of_pos t : 1 <= day_of t.
Proof.
  unfold day_of. destruct (date_of t) as [[y m] d] eqn:Ed. unfold date_of in Ed.
  apply civil_facts in Ed as (_ & Hd & _). simpl. lia.
Qed.
End window.

Section run.
Context `{E : Env} (s : SeriesService) (Hq : quiet_series s).

Lemma store_run ctx e w :
  AccountsSound w.(w_db) -> w.(w_faults) = [] -> valid_event_status e.(ev_Status) = true ->
  has_opt e.(ev_SeriesID) w.(w_db).(event_series) = true -> has e.(ev_OrganizerID) w.(w_db).(users) = true ->
  w.(w_db).(events) !! e.(ev_ID) = None -> w.(w_db).(event_memberships) !! uuid_v7 w.(w_uuids) = None ->
  exists r m w', or_err ctx (CreateFromSeries e) w = (Ok (), w') /\ w'.(w_faults) = [] /\
    w'.(w_uuids) = S w.(w_uuids) /\
    w'.(w_db) = set_event_memberships <[uuid_v7 w.(w_uuids) := m]> (set_events <[e.(ev_ID) := r]> w.(w_db)).
Proof.
  intros Hs Hf Hst Hser Hown Hnew Hm.
  set (now_ := format_rfc3339 (clock w.(w_clock))).
  set (m := {| em_event_id := e.(ev_ID); em_user_id := e.(ev_OrganizerID); em_role := "owner";
     em_granted_by := e.(ev_OrganizerID); em_created_at := now_; em_updated_at := now_ |}).
  set (d1 := set_events <[e.(ev_ID) := event_row e now_ now_]> w.(w_db)).
  assert (insert_event e.(ev_ID) (event_row e now_ now_) w.(w_db) = Some d1) as Hi1.
  { unfold insert_event. simpl. unfold has at 1. rewrite Hnew, Hst, Hser. done. }
  assert (forall k x, d1.(event_memberships) !! k = Some x -> em_event_id x <> e.(ev_ID)) as Hno.
  { intros k x Hx He. destruct (as_member_event _ Hs _ _ Hx) as [y Hy]. rewrite He in Hy. congruence. }
  assert (insert_membership (uuid_v7 w.(w_uuids)) m d1 = Some (set_event_memberships <[uuid_v7 w.(w_uuids) := m]> d1)) as Hi2.
  { unfold insert_membership. unfold has at 1 2. simpl. rewrite Hm, lookup_insert_eq, Hown. simpl.
    rewrite (proj2 (unique_spec _ _ _)), (proj2 (unique_spec _ _ _)); [done|..];
      intros k x Hx He; by eapply (Hno k x); [|injection He as ->]. }
  exists (event_row e now_ now_), m. eexists. split_and!.
  - unfold or_err, CreateFromSeries. erewrite bind_run; [reflexivity|]. unfold Store_Create.
    apply with_tx_run; [done| |]; [|shelve]. unfold createEvent.
    erewrite bind_run by apply now_run. erewrite bind_run by (apply exec_run; [exact Hf|exact Hi1]).
    unfold bind at 1, new_uuid. simpl. erewrite bind_run by (apply exec_run; [exact Hf|exact Hi2]). reflexivity.
    Unshelve. done.
  - done.
  - done.
  - done.
Qed.

(** What a run without driver faults needs to succeed: readable rows, the owner of the
    series, ids that are not in use, and a callback that brings no faults. *)
Record generator_ready (sid : string) (w : World) : Prop := {
  rdy_faults : w.(w_faults) = [];
  rdy_sound : AccountsSound w.(w_db);
  rdy_rows k r : w.(w_db).(events) !! k = Some r -> r.(e_series_id) = Some sid ->
    exists e, scanEventRow (event_columns w.(w_db) (k, r)) = Ok e;
  rdy_ids : forall n, (w.(w_uuids) <= n)%nat ->
    w.(w_db).(events) !! uuid_v7 n = None /\ w.(w_db).(event_memberships) !! uuid_v7 n = None;
  rdy_distinct : forall m n, uuid_v7 m = uuid_v7 n -> m = n;
  rdy_callback f a b w1 : s.(ss_onCreateOccurrence) = Some f -> w1.(w_faults) = [] ->
    (f a b w1).2.(w_faults) = [] /\ (w1.(w_uuids) <= (f a b w1).2.(w_uuids))%nat }.

Definition loop_ready (sid owner : string) (w : World) : Prop :=
  w.(w_faults) = [] /\ AccountsSound w.(w_db) /\
  has sid w.(w_db).(event_series) = true /\ has owner w.(w_db).(users) = true /\
  forall n, (w.(w_uuids) <= n)%nat ->
    w.(w_db).(events) !! uuid_v7 n = None /\ w.(w_db).(event_memberships) !! uuid_v7 n = None.

Lemma create_occurrence_run sid ctx es date index w :
  (forall m n, uuid_v7 m = uuid_v7 n -> m = n) ->
  (forall f a b w1, s.(ss_onCreateOccurrence) = Some f -> w1.(w_faults) = [] ->
    (f a b w1).2.(w_faults) = [] /\ (w1.(w_uuids) <= (f a b w1).2.(w_uuids))%nat) ->
  es.(es_ID) = sid -> loop_ready sid es.(es_OrganizerID) w ->
  exists w', create_occurrence s ctx es date index w = (Ok (), w') /\ loop_ready sid es.(es_OrganizerID) w'.
Proof.
  intros Hinj Hcb Hid (Hf & Hs & Hser & Hown & Hfresh). unfold create_occurrence, buildOccurrenceFromSeries.
  unfold bind at 1 2, new_uuid, ret. cbn beta iota. set (w0 := MkWorld _ _ _ _ _).
  set (occ := occurrence es date index _).
  destruct (store_run (EInternal ctx) occ w0) as (r & m & w1 & Hr & Hf1 & Hu1 & Hd1); try done.
  { simpl. by rewrite Hid. }
  { apply (Hfresh (w_uuids w)). lia. }
  { apply (Hfresh (S (w_uuids w))). lia. }
  rewrite (bind_run _ _ _ _ _ Hr).
  assert (Hsnd : AccountsSound (w_db w1) /\ has sid (event_series (w_db w1)) = true /\
            has (es_OrganizerID es) (users (w_db w1)) = true /\
            forall n, (w_uuids w1 <= n)%nat ->
              events (w_db w1) !! uuid_v7 n = None /\ event_memberships (w_db w1) !! uuid_v7 n = None).
  { split; [|rewrite Hd1; simpl; split_and!; [done..|]].
    - pose proof (acc_steps_sound _ _ _ (Store_Create_steps any_change occ I w0) Hs) as Hs1.
      unfold or_err, CreateFromSeries, bind in Hr. destruct (Store_Create occ w0) as [[e'|e'] w2]; [|done].
      simpl in Hr. injection Hr as <-. exact Hs1.
    - intros n Hn. rewrite Hu1 in Hn. simpl in *. destruct (Hfresh n) as [H1 H2]; [lia|].
      rewrite !lookup_insert_ne; [done|intros He%Hinj; lia..]. }
  destruct (ss_onCreateOccurrence s) as [f|] eqn:Ef; [|by exists w1; destruct Hsnd as (? & ? & ? & ?)].
  unfold ignore_err. eexists. split; [reflexivity|]. destruct Hsnd as (H1 & H2 & H3 & H4).
  destruct (Hcb f (es_ID es) (ev_ID occ) w1 eq_refl Hf1) as [Hf2 Hu2].
  pose proof (qs_create _ Hq f (es_ID es) (ev_ID occ) Ef w1) as Hqt.
  destruct (f _ _ w1) as [rf w2]. simpl in *. pose proof (quiet_sound _ _ Hqt H1) as Hs2.
  destruct Hqt as [Hacc Hev]. unfold accounts in Hacc. injection Hacc. intros.
  split_and!; [done|done|congruence|congruence|]. intros n Hn. destruct (H4 n) as [? ?]; [lia|]. split; congruence.
Qed.
Lemma generate_loop_run sid n es t total day w :
  (forall m n, uuid_v7 m = uuid_v7 n -> m = n) ->
  (forall f a b w1, s.(ss_onCreateOccurrence) = Some f -> w1.(w_faults) = [] ->
    (f a b w1).2.(w_faults) = [] /\ (w1.(w_uuids) <= (f a b w1).2.(w_uuids))%nat) ->
  es.(es_ID) = sid -> loop_ready sid es.(es_OrganizerID) w ->
  exists w', generate_loop s n es t total day w = (Ok (), w').
Proof.
  intros Hinj Hcb Hid. revert t total w. induction n as [|n IH]; intros t total w Hr; [by eexists|]. simpl.
  destruct (reached_max es total || past_end es _); [by eexists|].
  destruct (create_occurrence_run sid "create occurrence" es (calculateNextOccurrence t (es_RecurrenceRule es) day)
    (total + 1) w Hinj Hcb Hid Hr) as (w1 & H1 & Hr1).
  rewrite (bind_run _ _ _ _ _ H1). by apply IH.
Qed.
Lemma mapM_res_run {A B} (f : A -> res B) l w :
  (forall x, x ∈ l -> exists y, f x = Ok y) -> exists ys, mapM (fun x => of_res (f x)) l w = (Ok ys, w).
Proof.
  induction l as [|x l IH]; intros Hl; [by eexists|]. destruct (Hl x) as [y Hy]; [left|].
  destruct IH as [ys Hys]; [intros; apply Hl; by right|]. simpl. rewrite Hy. unfold bind, of_res, ret in *.
  rewrite Hys. by eexists.
Qed.
Lemma find_events_run ctx le P w :
  w.(w_faults) = [] ->
  (forall k r, w.(w_db).(events) !! k = Some r -> P w.(w_db) k r = true ->
     exists e, scanEventRow (event_columns w.(w_db) (k, r)) = Ok e) ->
  exists l, find_events ctx le P w = (Ok l, w).
Proof.
  intros Hf Hrows. unfold find_events. erewrite bind_run by (by apply query_run).
  apply mapM_res_run. intros x Hx. rewrite order_by_perm in Hx. apply list_elem_of_fmap in Hx as ([k r] & -> & Hx).
  apply elem_of_select in Hx as [Hk HP]. eauto.
Qed.

Lemma generator_runs sid row es w :
  w.(w_db).(event_series) !! sid = Some row -> parseSeriesFields sid row = Ok es ->
  generator_ready sid w -> exists w', GenerateOccurrences s sid w = (Ok (), w').
Proof.
  intros Hrow Hp [Hf Hs Hrows Hids Hinj Hcb]. unfold GenerateOccurrences.
  pose proof (parseSeriesFields_ok _ _ _ Hp) as (Hid & _ & _ & Hown).
  assert (SeriesStore_FindByID sid w = (Ok (Some es), w)) as Hrun.
  { unfold SeriesStore_FindByID. erewrite bind_run by (by apply query_run). rewrite Hrow. simpl. by rewrite Hp. }
  rewrite (bind_run _ _ _ _ _ Hrun). clear Hrun.
  destruct (negb _); [by eexists|].
  destruct (find_events_run "find future events by series" earlier_event
    (fun _ _ r => future_event sid (format_rfc3339 (clock w.(w_clock))) r) (tick w)) as [l Hl]; [done| |].
  { intros k r Hk HP. unfold future_event in HP. split_guards. eapply Hrows; [done|]. by eapply bool_decide_eq_true. }
  assert (FindFutureBySeriesID sid w = (Ok l, tick w)) as Hrun by exact Hl.
  rewrite (bind_run _ _ _ _ _ Hrun). clear Hrun.
  destruct (_ <=? 0); [by eexists|].
  assert (exists t w1, last_date l sid (tick w) = (Ok t, w1) /\ w1.(w_db) = w.(w_db) /\ w1.(w_faults) = [] /\
            w1.(w_uuids) = w.(w_uuids)) as (t & w1 & Hrun & Hd1 & Hf1 & Hu1).
  { unfold last_date. destruct (last l) as [e|]; [by eexists _, _|].
    destruct (find_events_run "find events by series" earlier_event
      (fun _ _ r => bool_decide (r.(e_series_id) = Some sid)) (tick w)) as [l2 Hl2]; [done| |].
    { intros k r Hk HP%bool_decide_eq_true. by eapply Hrows. }
    assert (FindBySeriesID sid (tick w) = (Ok l2, tick w)) as Hrun by exact Hl2.
    rewrite (bind_run _ _ _ _ _ Hrun). destruct (last l2) as [e|]; by eexists _, _. }
  rewrite (bind_run _ _ _ _ _ Hrun). clear Hrun.
  unfold CountBySeriesID. erewrite bind_run by (by apply query_run).
  apply (generate_loop_run sid); [done..|]. split_and!; rewrite ?Hd1, ?Hu1; try done.
  - apply has_spec. by exists row.
  - rewrite Hown. apply has_spec. by eapply (as_series_owner _ Hs).
Qed.

(** [C23] A run of the generator, with any driver faults, for a series as the schema
    allows them: to the events it adds occurrences and nothing else, none unless the
    series is active and has fewer than four upcoming occurrences, and then the first
    ones of the window: the dates of the calendar of its rule after its latest upcoming
    occurrence (without one its latest, without any the present), numbered on from
    the number of its events, as far as the end date and the maximal number allow.  A
    run that succeeds fills the window up to four; and one without driver faults, with
    readable rows, unused ids and the owner in place, succeeds. *)
Theorem series_window sid w r w' row es :
  w.(w_db).(event_series) !! sid = Some row -> parseSeriesFields sid row = Ok es -> series_check row = true ->
  GenerateOccurrences s sid w = (r, w') ->
  let d := w.(w_db) in
  let upcoming_ := count (fun _ r => future_event sid (format_rfc3339 (clock w.(w_clock))) r) d.(events) in
  let total := count (fun _ r => in_series sid r) d.(events) in
  let runs := row.(sr_status) = "active" /\ upcoming_ < 4 in
  let window from l := window_end sid (clock w.(w_clock)) d from /\ full_window es from total (4 - upcoming_) l in
  (exists l, adds es d.(events) l w'.(w_db).(events) /\
     (l = [] \/ runs /\ exists from full, window from full /\ l `prefix_of` full)) /\
  (r = Ok () -> runs -> exists from l, window from l /\ adds es d.(events) l w'.(w_db).(events)) /\
  (generator_ready sid w -> r = Ok ()).
Proof.
  intros Hrow Hparse Hcheck H d upc total runs window.
  assert (Hready : generator_ready sid w -> r = Ok ()).
  { intros Hr. destruct (generator_runs _ _ _ _ Hrow Hparse Hr) as [w2 H2]. congruence. }
  pose proof (parseSeriesFields_ok _ _ _ Hparse) as (Hid & Hstat & Hrule & _).
  assert (Hnone : forall w1, w1.(w_db).(events) = d.(events) -> r = Ok () -> ~ runs -> w' = w1 ->
     (exists l, adds es d.(events) l w'.(w_db).(events) /\
     (l = [] \/ runs /\ exists from full, window from full /\ l `prefix_of` full)) /\
     (r = Ok () -> runs -> exists from l, window from l /\ adds es d.(events) l w'.(w_db).(events)) /\
     (generator_ready sid w -> r = Ok ())).
  { intros w1 He Hr Hn ->. split_and!; [|done|done]. exists []. split; [|by left]. rewrite He. constructor. }
  assert (Hfail : w'.(w_db) = d -> (exists e, r = Err e) ->
     (exists l, adds es d.(events) l w'.(w_db).(events) /\
     (l = [] \/ runs /\ exists from full, window from full /\ l `prefix_of` full)) /\
     (r = Ok () -> runs -> exists from l, window from l /\ adds es d.(events) l w'.(w_db).(events)) /\
     (generator_ready sid w -> r = Ok ())).
  { intros He [e ->]. split_and!; [|done|done]. exists []. split; [|by left]. rewrite He. constructor. }
  unfold GenerateOccurrences in H.
  apply bind_reads in H as [(Hd & He)|(o & w1 & Ho & Hd1 & H)]; [by apply Hfail|..|apply SeriesStore_FindByID_reads].
  apply SeriesStore_FindByID_ok in Ho as [Hc1 Ho]. rewrite Hrow in Ho. destruct Ho as (es' & Hp' & ->).
  rewrite Hparse in Hp'. injection Hp' as <-.
  destruct (bool_decide_reflect (es_SeriesStatus es = "active")) as [Hact|Hact]; cbn [negb] in H.
  2: { injection H as <- <-. apply (Hnone w1); [by rewrite Hd1|done| |done]. intros [Ha _]. congruence. }
  apply bind_reads in H as [(Hd & He)|(fut & w2 & Hf & Hd2 & H)]; [by apply Hfail; [unfold d; congruence|]|..|apply FindFuture_reads].
  apply FindFuture_window in Hf as (_ & Hfn & Hlast). rewrite Hc1, Hd1 in Hfn, Hlast. fold d upc in Hfn.
  destruct (Z.leb_spec (4 - Z.of_nat (length fut)) 0) as [Hge|Hneed].
  { injection H as <- <-. apply (Hnone w2); [unfold d; congruence|done| |done]. intros [_ ?]. lia. }
  apply bind_reads in H as [(Hd & He)|(from & w3 & Hl & Hd3 & H)]; [apply Hfail; [unfold d; congruence|done]|..|apply last_date_reads].
  apply bind_reads in H as [(Hd & He)|(n & w4 & Hn & Hd4 & H)]; [apply Hfail; [unfold d; congruence|done]|..|apply CountBySeries_reads].
  apply (last_date_window _ _ (clock w.(w_clock))) in Hl as [_ Hend]; [|by rewrite Hd2, Hd1..].
  rewrite Hd2, Hd1 in Hend. apply query_ok in Hn as (-> & _). rewrite Hd3, Hd2, Hd1 in H.
  change (count _ (events (w_db w))) with total in H.
  apply (generate_loop_adds s Hq) in H as (l & Hp & Ha & Hok). rewrite Hd4, Hd3, Hd2, Hd1 in Ha.
  assert (Hv : isValidRecurrenceRule es.(es_RecurrenceRule) = true).
  { rewrite Hrule. apply andb_true_iff in Hcheck as [Hc _]. unfold isValidRecurrenceRule. apply bool_decide_eq_true.
    unfold one_of in Hc. apply bool_decide_eq_true in Hc. set_solver. }
  pose proof (upcoming_full es from total (4 - Z.of_nat (length fut)) Hv ltac:(lia)) as Hfull.
  assert (Hwin : window from (upcoming (Z.to_nat (4 - Z.of_nat (length fut))) es from total (day_of from)))
    by (split; [done|by rewrite <- Hfn]).
  split_and!; [|intros Hr _|done].
  - exists l. split; [done|]. right. split; [split; [congruence|lia]|]. eauto.
  - exists from, l. rewrite (Hok Hr). split; [done|]. by rewrite <- (Hok Hr).
Qed.
End run.

(** ** On concrete series *)

Definition demo_series (rule : string) : SeriesRow :=
  {| sr_owner := "org"; sr_title := "Club"; sr_description := ""; sr_location := "";
     sr_timezone := "UTC"; sr_event_time := "18:00"; sr_duration := Some 60; sr_rule := rule;
     sr_end := None; sr_max := None; sr_status := "active"; sr_retention_days := 30;
     sr_show_headcount := false; sr_show_guest_list := false; sr_deadline_hours := None;
     sr_created_at := demo_text; sr_updated_at := demo_text |}.
Definition series_world (rule : string) : World :=
  with_db (set_event_series (fun _ => {["ser" := demo_series rule]}) demo_db) demo_world.
Definition demo_series_service : SeriesService := MkSeriesService demo_events 30 None.

(** The occurrences as dates with their states. *)
Definition agenda (w : World) : list (string * string) :=
  map (fun x => (x.2.(e_event_date), x.2.(e_status)))
    (order_by (fun a b => text_le a.2.(e_event_date) b.2.(e_event_date))
       (select (fun _ r => in_series "ser" r) w.(w_db).(events))).

Definition after {A} (m : M A) (w : World) : World := (m w).2.
Definition generated (w : World) : World :=
  after (GenerateOccurrences (E:=demo_env) demo_series_service "ser") w.
Definition cancelled_last (w : World) : World :=
  after (Cancel (E:=demo_env) demo_events "u6" "org" false) w.

(** Cancelling the last occurrence of a weekly series makes the next run publish a new
    occurrence on the cancelled date: the window goes on from the latest occurrence
    that is not cancelled. *)
Lemma cancelled_date_again :
  agenda (generated (cancelled_last (generated (series_world "weekly")))) =
  [("2026-01-08T00:00:01Z", "published"); ("2026-01-15T00:00:01Z", "published");
   ("2026-01-22T00:00:01Z", "published"); ("2026-01-29T00:00:01Z", "cancelled");
   ("2026-01-29T00:00:01Z", "published")].
Proof. vm_compute. reflexivity. Qed.

(** A monthly series whose window ends on 31 January and is extended on two occasions
    leaves the 31st for good: each run takes the day of the last occurrence for the
    original one. *)
Definition month_end_event : EventRow :=
  {| e_title := "Club"; e_description := ""; e_event_date := "2026-01-31T18:00:00Z";
     e_end_date := None; e_location := ""; e_timezone := "UTC"; e_status := "published";
     e_retention_days := 30; e_show_headcount := false; e_show_guest_list := false;
     e_rsvp_deadline := None; e_series_id := Some "ser"; e_series_index := Some 1;
     e_series_override := false; e_created_at := demo_text; e_updated_at := demo_text |}.
Definition month_end_world : World :=
  with_db (set_events <["ev" := month_end_event]> (series_world "monthly").(w_db)) demo_world.
(** The demonstration environment forty days on. *)
Definition later_env : Env := {|
  clock n := demo_start + 40 * ns_per_day + Z.of_nat n * ns_per_sec;
  uuid_v7 := @uuid_v7 demo_env; rand_read := @rand_read demo_env;
  hmac_sha256 := @hmac_sha256 demo_env; sha256 := @sha256 demo_env;
  unicode_lower := @unicode_lower demo_env; json_strings := @json_strings demo_env;
  json_background := @json_background demo_env; url_scheme := @url_scheme demo_env;
  go_quote := @go_quote demo_env; render_invitation_html := @render_invitation_html demo_env;
  render_magic_link_html := @render_magic_link_html demo_env;
  format_event_date := @format_event_date demo_env; json_object := @json_object demo_env;
  json_list := @json_list demo_env; json_payload := @json_payload demo_env;
  mail_address := @mail_address demo_env; dialect := "sqlite" |}.
Lemma month_end_lost :
  map fst (agenda (after (GenerateOccurrences (E:=later_env) demo_series_service "ser")
                     (generated month_end_world))) =
  ["2026-01-31T18:00:00Z"; "2026-02-28T18:00:00Z"; "2026-03-31T18:00:00Z";
   "2026-04-30T18:00:00Z"; "2026-05-30T18:00:00Z"].
Proof. vm_compute. reflexivity. Qed.

(** An occurrence its organizer has given its own title takes the title of the series
    at the next update of the series: editing an occurrence does not mark it as
    overridden. *)
Definition edit_event (title : string) : UpdateEventRequest :=
  MkUpdateEvent (Some title) None None None None None None None None None.
Definition edit_series (title : string) : UpdateSeriesRequest :=
  MkUpdateSeries (Some title) None None None None None None None None None None None.
Lemma edited_occurrence_overwritten :
  let w1 := after (Update (E:=demo_env) "u0" "org" (edit_event "Special"))
              (generated (series_world "weekly")) in
  let w2 := after (UpdateSeries (E:=demo_env) "ser" "org" (edit_series "Club 2")) w1 in
  e_title <$> w1.(w_db).(events) !! "u0" = Some "Special" /\
  e_series_override <$> w1.(w_db).(events) !! "u0" = Some false /\
  e_title <$> w2.(w_db).(events) !! "u0" = Some "Club 2".
Proof. vm_compute. done. Qed.

(** ** The hypotheses can hold *)

Lemma next_occurrence_witness :
  let jan31 := time_date 2026 1 31 64800 in
  let next := calculateNextOccurrence jan31 "monthly" 31 in
  date_of next = (2026, 2, 28) /\ second_of_day next = 64800.
Proof.
  destruct (next_occurrence (time_date 2026 1 31 64800) "monthly" 31 2026 1 31) as (_ & _ & _ & H).
  - reflexivity.
  - lia.
  - reflexivity.
  - exact (H eq_refl).
Defined.

Lemma series_world_sound : AccountsSound (series_world "weekly").(w_db).
Proof.
  split; try first
    [ apply uniq_check; vm_compute; reflexivity
    | apply refs_check; vm_compute; reflexivity ].
  - apply rows_check. by vm_compute.
  - intros k m. simpl. by intros [<- <-]%lookup_singleton_Some.
  - intros k m k' m'. simpl. intros [<- <-]%lookup_singleton_Some [<- <-]%lookup_singleton_Some. done.
  - intros id. simpl. intros [r [<- <-]%lookup_singleton_Some]. by exists "own", demo_owner.
  - intros id r. simpl. by intros [<- <-]%lookup_singleton_Some.
Qed.
Lemma series_window_witness :
  let w := series_world "weekly" in
  generator_ready (E:=demo_env) demo_series_service "ser" w /\
  exists w', GenerateOccurrences (E:=demo_env) demo_series_service "ser" w = (Ok (), w') /\
    exists es l, adds es w.(w_db).(events) l w'.(w_db).(events).
Proof.
  cbv zeta. assert (Hr : generator_ready (E:=demo_env) demo_series_service "ser" (series_world "weekly")).
  { split; try done.
    - apply series_world_sound.
    - intros k r. simpl. intros [<- <-]%lookup_singleton_Some. discriminate.
    - intros m n H. by apply demo_uuids. }
  split; [exact Hr|]. destruct (GenerateOccurrences _ "ser" _) as [r w'] eqn:Hv.
  destruct (parseSeriesFields "ser" (demo_series "weekly")) as [es|e] eqn:He; [|vm_compute in He; discriminate He].
  destruct (series_window (E:=demo_env) demo_series_service) with (sid := "ser") (row := demo_series "weekly")
    (w := series_world "weekly") (r := r) (w' := w') (es := es) as ((l & Hl & _) & _ & Hok).
  - split; [repeat split; discriminate|discriminate].
  - reflexivity.
  - exact He.
  - reflexivity.
  - exact Hv.
  - exists w'. rewrite (Hok Hr). split; [reflexivity|]. exists es, l. exact Hl.
Defined.
