(* ===== verification/Reminders.v ===== *)
(** * Reminders (internal/scheduler: reminder_store.go, reminder.go, handler.go)

    The reminder store, the job that delivers due reminders and the organizers'
    routes.  Delivery is a callback of the job; the check of event access is one of
    the handler.  [RowsAffected] does not fail. *)

From S2P Require Import Prelude.
From S2P Require Import GoStr.
From S2P Require Import GoTime.
From S2P Require Import Schema.
From S2P Require Import Eff.
From S2P Require Import Http.
From S2P Require Import Auth.
From S2P Require Import Event.

Local Open Scope Z_scope.

(** ** reminder_store.go *)

Record Reminder := MkReminder {
  re_ID : string; re_EventID : string; re_RemindAt : time; re_TargetGroup : string;
  re_Message : string; re_Status : string; re_CreatedAt : time; re_UpdatedAt : time }.

Definition parseReminderTimes (id : string) (r : ReminderRow) : res Reminder :=
  remindAt <-r parse_time "parse remind_at" r.(rm_remind_at) ;;
  created <-r parse_time "parse created_at" r.(rm_created_at) ;;
  updated <-r parse_time "parse updated_at" r.(rm_updated_at) ;;
  Ok (MkReminder id r.(rm_event_id) remindAt r.(rm_group) r.(rm_message) r.(rm_status)
        created updated).

Definition reminder_row (r : Reminder) (now : string) : ReminderRow :=
  {| rm_event_id := r.(re_EventID); rm_remind_at := format_rfc3339 r.(re_RemindAt);
     rm_group := r.(re_TargetGroup); rm_message := r.(re_Message); rm_status := r.(re_Status);
     rm_created_at := now; rm_updated_at := now |}.
Definition reminder_status_row (status now : string) (r : ReminderRow) : ReminderRow :=
  {| rm_event_id := r.(rm_event_id); rm_remind_at := r.(rm_remind_at); rm_group := r.(rm_group);
     rm_message := r.(rm_message); rm_status := status; rm_created_at := r.(rm_created_at);
     rm_updated_at := now |}.
(** The columns [Update] sets. *)
Definition reminder_update_row (r : Reminder) (now : string) (old : ReminderRow) : ReminderRow :=
  {| rm_event_id := old.(rm_event_id); rm_remind_at := format_rfc3339 r.(re_RemindAt);
     rm_group := r.(re_TargetGroup); rm_message := r.(re_Message); rm_status := r.(re_Status);
     rm_created_at := old.(rm_created_at); rm_updated_at := now |}.

Definition scheduled (r : ReminderRow) : bool := bool_decide (r.(rm_status) = "scheduled").
(** [WHERE remind_at <= ? AND status = 'scheduled'] *)
Definition due (now : string) (r : ReminderRow) : bool :=
  text_le r.(rm_remind_at) now && scheduled r.
Definition sooner (a b : string * ReminderRow) : bool :=
  text_le a.2.(rm_remind_at) b.2.(rm_remind_at).

(** [UPDATE reminders SET ... WHERE id = ? AND Q], with the CHECK constraints and
    the number of rows affected. *)
Definition update_reminder (id : string) (Q : ReminderRow -> bool) (f : ReminderRow -> ReminderRow)
    (d : Database) : option (Z * Database) :=
  match d.(reminders) !! id with
  | Some r =>
      if Q r then
        if reminder_check (f r) then Some (1, set_reminders <[id := f r]> d) else None
      else Some (0, d)
  | None => Some (0, d)
  end.

Section store.
Context `{E : Env}.


Definition ReminderStore_Create (r : Reminder) : M Reminder :=
  nowText <- now_text ;;
  exec "create reminder" (insert_reminder r.(re_ID) (reminder_row r nowText)) ;;;
  ret (MkReminder r.(re_ID) r.(re_EventID) r.(re_RemindAt) r.(re_TargetGroup) r.(re_Message)
         r.(re_Status) (reparse nowText) (reparse nowText)).

Definition ReminderStore_FindByID (id : string) : M (option Reminder) :=
  row <- query "scan reminder" (fun d => d.(reminders) !! id) ;;
  of_res match row with
         | None => Ok None
         | Some r => x <-r parseReminderTimes id r ;; Ok (Some x)
         end.

Definition find_reminders (ctx : string) (P : ReminderRow -> bool) : M (list Reminder) :=
  rows <- query ctx (fun d => order_by sooner (select (fun _ r => P r) d.(reminders))) ;;
  mapM (fun x => of_res (parseReminderTimes x.1 x.2)) rows.
Definition ReminderStore_FindByEventID (eventID : string) : M (list Reminder) :=
  find_reminders "find reminders by event" (fun r => bool_decide (r.(rm_event_id) = eventID)).
Definition FindDue : M (list Reminder) :=
  nowText <- now_text ;;
  find_reminders "find due reminders" (due nowText).

Definition ReminderStore_Update (r : Reminder) : M Reminder :=
  nowText <- now_text ;;
  stmt "update reminder"
    (update_reminder r.(re_ID) (fun _ => true) (reminder_update_row r nowText)) ;;;
  ret (MkReminder r.(re_ID) r.(re_EventID) r.(re_RemindAt) r.(re_TargetGroup) r.(re_Message)
         r.(re_Status) r.(re_CreatedAt) (reparse nowText)).

Definition not_scheduled : string := "reminder not found or not in scheduled status".
Definition ReminderStore_Cancel (id : string) : M () :=
  nowText <- now_text ;;
  rows <- stmt "cancel reminder"
            (update_reminder id scheduled (reminder_status_row "cancelled" nowText)) ;;
  require (negb (rows =? 0)) (EText not_scheduled).

Definition ClaimForProcessing (id : string) : M bool :=
  nowText <- now_text ;;
  rows <- stmt "claim reminder"
            (update_reminder id scheduled (reminder_status_row "processing" nowText)) ;;
  ret (0 <? rows).

Definition SetStatus (id status : string) : M () :=
  nowText <- now_text ;;
  stmt "set reminder status"
    (update_reminder id (fun _ => true) (reminder_status_row status nowText)) ;;;
  ret ().

(** ** reminder.go *)

(** [ReminderDeliveryFunc]: event, recipient group, subject, body. *)
Definition ReminderDeliveryFunc : Type := string -> string -> string -> string -> M Z.

Definition reminder_body (r : Reminder) : string :=
  if bool_decide (r.(re_Message) = "") then "You have an upcoming event. Don't forget!"
  else r.(re_Message).

Definition processReminder (deliver : option ReminderDeliveryFunc) (r : Reminder) : M () :=
  claimed <- ClaimForProcessing r.(re_ID) ;;
  if negb claimed then ret () else
  match deliver with
  | None =>
      ignore_err (SetStatus r.(re_ID) "failed") ;;;
      fail (EText "invitation reminder delivery is not configured")
  | Some f =>
      sent <- attempt (f r.(re_EventID) r.(re_TargetGroup) "Event reminder" (reminder_body r)) ;;
      match sent with
      | Err e => ignore_err (SetStatus r.(re_ID) "failed") ;;; fail e
      | Ok _ => SetStatus r.(re_ID) "sent"
      end
  end.

(** [ReminderJob.Run]: the error of one reminder is only logged. *)
Definition Run (deliver : option ReminderDeliveryFunc) : M () :=
  l <- FindDue ;;
  forM l (fun r => ignore_err (processReminder deliver r)).
End store.

(** ** handler.go *)

Record CreateReminderRequest := MkCreateReminder {
  cr_RemindAt : string; cr_TargetGroup : string; cr_Message : string }.
Record UpdateReminderRequest := MkUpdateReminder {
  ur_RemindAt : option string; ur_TargetGroup : option string; ur_Message : option string }.

Inductive ReminderPayload :=
| PReminder (r : Reminder)
| PReminders (l : list Reminder)
| PReminderMessage (message : string).
Abbreviation Answer := (M (Resp ReminderPayload)).

Definition validGroups : list string := ["all"; "attending"; "maybe"; "declined"; "pending"].
Definition bad_group : Resp ReminderPayload :=
  bad_request "targetGroup must be one of: all, attending, maybe, declined, pending".
Definition no_reminder : Resp ReminderPayload := json_error 404 "not_found" "reminder not found".
Definition not_cancellable : Resp ReminderPayload := json_error 404 "not_found" not_scheduled.
Definition max_message : Z := 10000.

Section handler.
Context `{E : Env} (checkEventOwner : string -> string -> M ()).

(** The checks of a requested time: [Err] is the answer to a bad one. *)
Definition future_time (text : string) : M (time + Resp ReminderPayload) :=
  match parse_rfc3339 text with
  | None => ret (inr (bad_request "remindAt must be in RFC3339 format"))
  | Some at_ =>
      t <- now ;;
      ret (if at_ <? t then inr (bad_request "remindAt must be in the future") else inl at_)
  end.
Definition group_or (old : string) (group : option string) : string + Resp ReminderPayload :=
  match group with
  | None => inl old
  | Some g => if one_of g validGroups then inl g else inr bad_group
  end.
Definition message_or (old : string) (message : option string) : string + Resp ReminderPayload :=
  match message with
  | None => inl old
  | Some m =>
      let value := trim_space m in
      if max_message <? len value
      then inr (bad_request "message must be 10000 characters or fewer") else inl value
  end.
Definition stops {A} (x : A + Resp ReminderPayload) (k : A -> Answer) : Answer :=
  match x with inl a => k a | inr reply => ret reply end.

Definition handleCreate (organizer : option string) (eventID : string)
    (body : option CreateReminderRequest) : Answer :=
  for_user organizer (fun organizerID =>
  on_ok (checkEventOwner eventID organizerID) (fun _ => ret no_event) (fun _ =>
  for_body body (fun req =>
  if bool_decide (req.(cr_RemindAt) = "") then ret (bad_request "remindAt is required") else
  at_ <- future_time req.(cr_RemindAt) ;;
  stops at_ (fun remindAt =>
  let group := if bool_decide (req.(cr_TargetGroup) = "") then "all" else req.(cr_TargetGroup) in
  stops (group_or "" (Some group)) (fun targetGroup =>
  stops (message_or "" (Some req.(cr_Message))) (fun message =>
  id <- new_uuid ;;
  on_ok (ReminderStore_Create (MkReminder id eventID remindAt targetGroup message "scheduled"
           zero_time zero_time)) (fun _ => internal_error)
    (fun r => ret (json 201 (PReminder r))))))))).

Definition handleListByEvent (organizer : option string) (eventID : string) : Answer :=
  for_user organizer (fun organizerID =>
  on_ok (checkEventOwner eventID organizerID) (fun _ => ret no_event) (fun _ =>
  on_ok (ReminderStore_FindByEventID eventID) (fun _ => internal_error)
    (fun l => ret (json 200 (PReminders l))))).

(** A requested time replaces the stored one. *)
Definition new_time (r : Reminder) (req : UpdateReminderRequest) : M (time + Resp ReminderPayload) :=
  match req.(ur_RemindAt) with None => ret (inl r.(re_RemindAt)) | Some text => future_time text end.

Definition handleUpdate (organizer : option string) (reminderID : string)
    (body : option UpdateReminderRequest) : Answer :=
  for_user organizer (fun organizerID =>
  for_body body (fun req =>
  on_ok (ReminderStore_FindByID reminderID) (fun _ => internal_error) (fun found =>
  match found with
  | None => ret no_reminder
  | Some r =>
      on_ok (checkEventOwner r.(re_EventID) organizerID) (fun _ => ret no_reminder) (fun _ =>
      if negb (bool_decide (r.(re_Status) = "scheduled"))
      then ret (bad_request "only scheduled reminders can be updated") else
      at_ <- new_time r req ;;
      stops at_ (fun remindAt =>
      stops (group_or r.(re_TargetGroup) req.(ur_TargetGroup)) (fun targetGroup =>
      stops (message_or r.(re_Message) req.(ur_Message)) (fun message =>
      on_ok (ReminderStore_Update (MkReminder r.(re_ID) r.(re_EventID) remindAt targetGroup message
               r.(re_Status) r.(re_CreatedAt) r.(re_UpdatedAt))) (fun _ => internal_error)
        (fun r => ret (json 200 (PReminder r)))))))
  end))).

Definition handleCancel (organizer : option string) (reminderID : string) : Answer :=
  for_user organizer (fun organizerID =>
  on_ok (ReminderStore_FindByID reminderID) (fun _ => internal_error) (fun found =>
  match found with
  | None => ret not_cancellable
  | Some r =>
      on_ok (checkEventOwner r.(re_EventID) organizerID) (fun _ => ret not_cancellable) (fun _ =>
      on_ok (ReminderStore_Cancel reminderID)
        (fun e => if bool_decide (e = EText not_scheduled) then ret not_cancellable
                  else internal_error)
        (fun _ => ret (json 200 (PReminderMessage "reminder cancelled"))))
  end)).
End handler.
