(* ===== verification/Cards.v ===== *)
(** * Invite cards (internal/invite)

    The look of an event's invitation: sanitised colours, fonts and background
    image, one card an event, and the uploads directory its images live in.
    The directory is a map from file names to contents, [None] when it does not
    exist; a program that touches it takes it and returns it.  JSON is a parameter:
    [json_map] and [json_of_map] are [json.Unmarshal] into a [map[string]any] and
    [json.Marshal] of one, whose nil map is [None]. *)

From S2P Require Import Prelude.
From S2P Require Import GoStr.
From S2P Require Import GoTime.
From S2P Require Import Schema.
From S2P Require Import Eff.
From S2P Require Import Http.
From S2P Require Import InvModel.
From S2P Require Import InvStore.
From S2P Require Import Auth.

Local Open Scope Z_scope.

(** ** model.go *)

Record InviteCard := MkCard {
  card_ID : string; card_EventID : string; card_TemplateID : string; card_Heading : string;
  card_Body : string; card_Footer : string; card_PrimaryColor : string;
  card_SecondaryColor : string; card_Font : string; card_CustomData : string;
  card_CreatedAt : time; card_UpdatedAt : time }.
Record Template := MkTemplate { tm_ID : string; tm_Name : string; tm_Description : string }.
Record SaveInviteRequest := MkSave {
  sv_TemplateID : string; sv_Heading : string; sv_Body : string; sv_Footer : string;
  sv_PrimaryColor : string; sv_SecondaryColor : string; sv_Font : string;
  sv_CustomData : string }.

(** ** JSON and files *)

(** What [any] holds after a decoding; only texts are looked at. *)
Inductive value := VText (s : string) | VOther (json : string).
Definition custom : Type := option (gmap string value).

Class CardEnv := {
  json_map : string -> option custom;
  json_of_map : custom -> string;
  (** whether [os.Remove] and [os.WriteFile] of a name succeed *)
  removable : string -> bool;
  writable : string -> bool }.

Definition Disk : Type := option (gmap string string).

Section cards.
Context `{E : Env, !CardEnv}.

(** [os.Remove(filepath.Join(uploadsDir, name))]: an empty name is the directory,
    which goes when it is empty; the parent directory never is. *)
Definition remove_upload (name : string) (disk : Disk) : Disk :=
  match disk with
  | None => None
  | Some files =>
      if negb (removable name) then disk
      else if one_of name [""; "."] then if bool_decide (files = ∅) then None else disk
      else Some (delete name files)
  end.

(** ** store.go *)

Definition parse_card (id : string) (r : CardRow) : res InviteCard :=
  created <-r parse_time "parse created_at" r.(c_created_at) ;;
  updated <-r parse_time "parse updated_at" r.(c_updated_at) ;;
  Ok (MkCard id r.(c_event_id) r.(c_template) r.(c_heading) r.(c_body) r.(c_footer) r.(c_primary)
        r.(c_secondary) r.(c_font) r.(c_custom) created updated).
Definition scanInviteCard (row : option (string * CardRow)) : res (option InviteCard) :=
  match row with
  | None => Ok None
  | Some (id, r) => c <-r parse_card id r ;; Ok (Some c)
  end.
Definition FindByEventID (eventID : string) : M (option InviteCard) :=
  row <- query "scan invite card" (fun d =>
           select_row (fun _ r => bool_decide (r.(c_event_id) = eventID)) d.(invite_cards)) ;;
  of_res (scanInviteCard row).

Definition card_row (card : InviteCard) (created updated : string) : CardRow :=
  {| c_event_id := card.(card_EventID); c_template := card.(card_TemplateID);
     c_heading := card.(card_Heading); c_body := card.(card_Body); c_footer := card.(card_Footer);
     c_primary := card.(card_PrimaryColor); c_secondary := card.(card_SecondaryColor);
     c_font := card.(card_Font); c_custom := card.(card_CustomData); c_created_at := created;
     c_updated_at := updated |}.
(** The columns [UPDATE invite_cards] sets. *)
Definition recard_row (card : InviteCard) (now : string) (r : CardRow) : CardRow :=
  {| c_event_id := r.(c_event_id); c_template := card.(card_TemplateID);
     c_heading := card.(card_Heading); c_body := card.(card_Body); c_footer := card.(card_Footer);
     c_primary := card.(card_PrimaryColor); c_secondary := card.(card_SecondaryColor);
     c_font := card.(card_Font); c_custom := card.(card_CustomData);
     c_created_at := r.(c_created_at); c_updated_at := now |}.
Definition stamp_card (id : string) (created updated : time) (c : InviteCard) : InviteCard :=
  MkCard id c.(card_EventID) c.(card_TemplateID) c.(card_Heading) c.(card_Body) c.(card_Footer)
    c.(card_PrimaryColor) c.(card_SecondaryColor) c.(card_Font) c.(card_CustomData) created updated.
(** [t, _ = time.Parse(...)]: the zero time on an error. *)
Definition parse_or_zero (s : string) : time :=
  match parse_rfc3339 s with Some t => t | None => zero_time end.

Definition Upsert (card : InviteCard) : M InviteCard :=
  t <- now ;;
  let nowText := format_rfc3339 t in
  existing <- FindByEventID card.(card_EventID) ;;
  match existing with
  | Some old =>
      exec "update invite card" (fun d => Some (set_invite_cards
        (fun t => (update_id old.(card_ID) (fun _ => true) (recard_row card nowText) t).1) d)) ;;;
      ret (stamp_card old.(card_ID) old.(card_CreatedAt) (parse_or_zero nowText) card)
  | None =>
      exec "insert invite card" (insert_card card.(card_ID) (card_row card nowText nowText)) ;;;
      ret (stamp_card card.(card_ID) (parse_or_zero nowText) (parse_or_zero nowText) card)
  end.

(** ** service.go *)

Definition colorPattern : string -> bool := guestColorPattern.
Definition fontPattern : string -> bool := guestFontPattern.

Definition sanitizeColor (c0 : string) : string :=
  let c := trim_space c0 in
  if bool_decide (c = "") then "" else if colorPattern c then c else "".
Definition sanitizeFont (f0 : string) : string :=
  let f := trim_space f0 in
  if bool_decide (f = "") || (100 <? len f) then "" else if fontPattern f then f else "".

Definition sanitizeBackgroundURL (raw : string) : string :=
  let s := trim_space raw in
  if bool_decide (s = "") then ""
  else if existsb unsafe_css_byte (to_bytes s) then ""
  else if has_prefix s "/" then s
  else match url_scheme s with
       | None => ""
       | Some scheme =>
           if negb (bool_decide (scheme = "http")) && negb (bool_decide (scheme = "https"))
           then "" else s
       end.

(** [data["backgroundImage"].(string)] *)
Definition background (data : custom) : option string :=
  match data ≫= (fun m => m !! "backgroundImage") with Some (VText s) => Some s | _ => None end.
Definition clean_background (data : custom) : custom :=
  match background data with
  | None => data
  | Some bg =>
      let cleaned := sanitizeBackgroundURL bg in
      if bool_decide (cleaned = "") then delete "backgroundImage" <$> data
      else <["backgroundImage" := VText cleaned]> <$> data
  end.
Definition sanitizeCustomData (raw : string) : string :=
  if bool_decide (raw = "") then "{}" else
  match json_map raw with
  | None => "{}"
  | Some data => json_of_map (clean_background data)
  end.

Definition builtInTemplates : list Template :=
  [MkTemplate "balloon-party" "Balloon Party"
     "Colorful balloons and festive decorations for a fun celebration.";
   MkTemplate "confetti" "Confetti" "Bright confetti bursts for a joyful and lively event.";
   MkTemplate "unicorn-magic" "Unicorn Magic"
     "Whimsical unicorns and rainbow colors for a magical gathering.";
   MkTemplate "superhero" "Superhero" "Bold superhero theme with dynamic comic-style graphics.";
   MkTemplate "garden-picnic" "Garden Picnic"
     "Relaxed garden vibes with floral accents for outdoor events.";
   MkTemplate "elegant-affair" "Elegant Affair"
     "Thin border, italic heading, and subtle shadow for a refined look.";
   MkTemplate "clean-minimal" "Clean Minimal"
     "No frills, white background, and clean lines for a modern feel.";
   MkTemplate "tropical-vibes" "Tropical Vibes"
     "Warm colors and wave decorations for a beachy, tropical event.";
   MkTemplate "vintage-retro" "Vintage Retro"
     "Double border, uppercase heading, and sepia tones for a classic vibe.";
   MkTemplate "chalkboard" "Chalkboard"
     "Dark background with chalk-style text for a cozy, handwritten feel."].
Definition ListTemplates : list Template := builtInTemplates.

Definition GetByEventID (eventID : string) : M InviteCard :=
  o <- FindByEventID eventID ;;
  of_option (EText "invite card not found") o.

Definition extractBackgroundImage (customData : string) : string :=
  if bool_decide (customData = "") || bool_decide (customData = "{}") then "" else
  match json_map customData with
  | None => ""
  | Some data => default "" (background data)
  end.

(** [strings.Split(url, "/")] and its last part. *)
Definition last_segment (url : string) : string := default "" (last (split url "/"%char)).

Context (uploadsDir : string).

Definition cleanupOldImage (eventID newCustomData : string) (disk : Disk) : M Disk :=
  if bool_decide (uploadsDir = "") then ret disk else
  o <- attempt (FindByEventID eventID) ;;
  match o with
  | Err _ | Ok None => ret disk
  | Ok (Some old) =>
      let oldURL := extractBackgroundImage old.(card_CustomData) in
      let newURL := extractBackgroundImage newCustomData in
      if negb (bool_decide (oldURL = "")) && negb (bool_decide (oldURL = newURL))
      then ret (remove_upload (last_segment oldURL) disk) else ret disk
  end.

Definition or_default (s dflt : string) : string := if bool_decide (s = "") then dflt else s.

(** The card as built from a request, its template checked. *)
Definition card_of_request (id eventID template : string) (req : SaveInviteRequest) : InviteCard :=
  MkCard id eventID template req.(sv_Heading) req.(sv_Body) req.(sv_Footer)
    (or_default (sanitizeColor req.(sv_PrimaryColor)) "#6366f1")
    (or_default (sanitizeColor req.(sv_SecondaryColor)) "#f0abfc")
    (or_default (sanitizeFont req.(sv_Font)) "Inter")
    (or_default (sanitizeCustomData req.(sv_CustomData)) "{}") zero_time zero_time.

(** The directory changes even when the card is not stored in the end. *)
Definition Save (eventID : string) (req : SaveInviteRequest) (disk : Disk)
    : M (res InviteCard * Disk) :=
  let template := or_default req.(sv_TemplateID) "balloon-party" in
  if negb (existsb (fun t => bool_decide (t.(tm_ID) = template)) builtInTemplates)
  then ret (Err (EValidation ("invalid templateId: " +:+ template)), disk) else
  id <- new_uuid ;;
  let card := card_of_request id eventID template req in
  disk' <- cleanupOldImage eventID card.(card_CustomData) disk ;;
  r <- attempt (Upsert card) ;;
  ret (r, disk').

Definition GetPreview (eventID : string) : M InviteCard :=
  o <- FindByEventID eventID ;;
  ret (default (MkCard "" eventID "balloon-party" "" "" "" "#6366f1" "#f0abfc" "Inter" "{}"
                  zero_time zero_time) o).

(** ** upload.go *)

Definition maxUploadSize : Z := 2 * 2 ^ 20.

(** The three of [http.DetectContentType]'s signatures that [allowedImageTypes]
    lists; no earlier signature of its table shares their first bytes. *)
Definition png_signature : bytes := byte_of <$> [137; 80; 78; 71; 13; 10; 26; 10].
Definition jpeg_signature : bytes := byte_of <$> [255; 216; 255].
Definition webp_at_8 (data : bytes) (tag : string) : bool :=
  bytes_prefix (to_bytes "RIFF") data && bytes_prefix (to_bytes tag) (drop 8 data).
Definition sniff_image (data : bytes) : option string :=
  if webp_at_8 data "WEBPVP" then Some "image/webp"
  else if bytes_prefix png_signature data then Some "image/png"
  else if bytes_prefix jpeg_signature data then Some "image/jpeg"
  else None.
Definition allowedImageTypes : list (string * string) :=
  [("image/jpeg", ".jpg"); ("image/png", ".png"); ("image/webp", ".webp")].

Definition byte_at (data : bytes) (i : nat) (n : Z) : bool := bool_decide (data !! i = Some (byte_of n)).
Definition verifyImageSignature (mime : string) (data : bytes) : bool :=
  let n := length data in
  if bool_decide (mime = "image/png") then
    (8 <=? n)%nat && bool_decide (take 8 data = png_signature)
  else if bool_decide (mime = "image/jpeg") then
    if (n <? 4)%nat || negb (byte_at data 0 255) || negb (byte_at data 1 216)
       || negb (byte_at data 2 255) then false
    else byte_at data (n - 2) 255 && byte_at data (n - 1) 217
  else if bool_decide (mime = "image/webp") then
    (12 <=? n)%nat && bool_decide (take 4 data = to_bytes "RIFF")
    && bool_decide (take 4 (drop 8 data) = to_bytes "WEBP")
  else false.

(** The type and the extension, or two empty strings. *)
Definition detectImageType (data : bytes) : string * string :=
  match sniff_image data with
  | None => ("", "")
  | Some ct =>
      match list_find (fun p => p.1 = ct) allowedImageTypes with
      | None => ("", "")
      | Some (_, (_, e)) => if negb (verifyImageSignature ct data) then ("", "") else (ct, e)
      end
  end.

(** ** handler.go *)

Inductive CardPayload :=
| PTemplates (l : list Template)
| PCard (c : InviteCard)
| PURL (url : string).

Context (checkEventOwner : string -> string -> M ()).

Definition for_owner {A} (organizer : option string) (eventID : string) (deny : Resp CardPayload -> A)
    (k : M A) : M A :=
  match organizer with
  | None => ret (deny login_needed)
  | Some organizerID =>
      o <- attempt (checkEventOwner eventID organizerID) ;;
      match o with Err _ => ret (deny no_event) | Ok _ => k end
  end.

Definition handleListTemplates : Resp CardPayload := json 200 (PTemplates ListTemplates).

Definition handleGetByEvent (organizer : option string) (eventID : string) : M (Resp CardPayload) :=
  for_owner organizer eventID (fun r => r)
    (on_ok (GetByEventID eventID)
       (fun e => match e with
                 | EText "invite card not found" =>
                     ret (json_error 404 "not_found" "invite card not found")
                 | _ => internal_error
                 end)
       (fun card => ret (json 200 (PCard card)))).

(** [body] is the decoded JSON, [None] when it did not decode. *)
Definition handleSave (organizer : option string) (eventID : string)
    (body : option SaveInviteRequest) (disk : Disk) : M (Resp CardPayload * Disk) :=
  for_owner organizer eventID (fun r => (r, disk))
    match body with
    | None => ret (bad_body, disk)
    | Some req =>
        p <- Save eventID req disk ;;
        r <- match p.1 with
             | Ok card => ret (json 200 (PCard card))
             | Err (EValidation msg) => ret (error_text 400 "bad_request" (EValidation msg))
             | Err _ => internal_error
             end ;;
        ret (r, p.2)
    end.

Definition handlePreview (organizer : option string) (eventID : string) : M (Resp CardPayload) :=
  for_owner organizer eventID (fun r => r)
    (on_ok (GetPreview eventID) (fun _ => internal_error) (fun card => ret (json 200 (PCard card)))).

(** What the multipart form holds. *)
Inductive Upload := FormError | NoImage | ReadError | Image (data : string).

Definition cleanupEventImages (eventID : string) (disk : Disk) : Disk :=
  if bool_decide (uploadsDir = "") then disk else
  match disk with
  | None => None
  | Some files =>
      Some (filter (fun kv => ~ (has_prefix kv.1 (eventID +:+ "_") = true /\ removable kv.1 = true)) files)
  end.

Definition image_name (eventID : string) (t : time) (ext : string) : string :=
  eventID +:+ "_" +:+ itoa (t `div` ns_per_sec) +:+ ext.

Definition store_image (eventID data ext : string) (disk : Disk) : M (Resp CardPayload * Disk) :=
  let disk := cleanupEventImages eventID disk in
  t <- now ;;
  let filename := image_name eventID t ext in
  match disk with
  | Some files =>
      if writable filename
      then ret (json 200 (PURL ("/api/v1/uploads/" +:+ filename)), Some (<[filename := data]> files))
      else ret (json_error 500 "internal_error" "failed to save image", disk)
  | None => ret (json_error 500 "internal_error" "failed to save image", disk)
  end.

Definition handleUploadImage (organizer : option string) (eventID : string) (body : Upload)
    (disk : Disk) : M (Resp CardPayload * Disk) :=
  for_owner organizer eventID (fun r => (r, disk))
    match body with
    | FormError => ret (bad_request "file too large (max 2MB)", disk)
    | NoImage => ret (bad_request "missing image file", disk)
    | ReadError => ret (bad_request "failed to read file", disk)
    | Image data =>
        let ext := (detectImageType (to_bytes data)).2 in
        if bool_decide (ext = "")
        then ret (bad_request "invalid image type (allowed: JPEG, PNG, WebP)", disk)
        else store_image eventID data ext disk
    end.
End cards.
