(* ===== verification/Webhook.v ===== *)
(** * Webhooks (internal/webhook)

    Registered endpoints of an event, the records of deliveries to them, the
    delivery itself and the organizers' routes. *)

From S2P Require Import Prelude.
From S2P Require Import GoStr.
From S2P Require Import GoTime.
From S2P Require Import Schema.
From S2P Require Import Eff.
From S2P Require Import Http.
From S2P Require Import TrustedProxy.
From S2P Require Import Auth.
From S2P Require Import Event.
From S2P Require Import Reminders.

Local Open Scope Z_scope.

(** ** model.go *)

Definition ValidEventTypes : list string := ["event.published"; "event.cancelled"].

Record Webhook := MkWebhook {
  hk_ID : string; hk_EventID : string; hk_URL : string; hk_Secret : string;
  hk_EventTypes : list string; hk_Description : string; hk_Enabled : bool;
  hk_CreatedAt : time; hk_UpdatedAt : time }.

Record CreateWebhookRequest := MkCreateWebhook {
  cw_URL : string; cw_EventTypes : list string; cw_Description : string }.
Record UpdateWebhookRequest := MkUpdateWebhook {
  uw_URL : option string; uw_EventTypes : option (list string); uw_Description : option string;
  uw_Enabled : option bool }.

Record Delivery := MkDelivery {
  dl_ID : string; dl_WebhookID : string; dl_EventType : string; dl_Payload : string;
  dl_ResponseStatus : option Z; dl_ResponseBody : option string; dl_Error : option string;
  dl_Attempt : Z; dl_DeliveredAt : option time; dl_CreatedAt : time }.

(** ** store.go *)

Section rows.
Context `{E : Env}.

(** [json.Unmarshal] of a stored list; the empty text is an empty list. *)
Definition parse_list (ctx text : string) : res (list string) :=
  if bool_decide (text = "") then Ok [] else
  match json_strings text with Some l => Ok l | None => Err (EInternal ctx) end.

Definition parseWebhook (id : string) (r : WebhookRow) : res Webhook :=
  types <-r parse_list "parse event_types" r.(wh_types) ;;
  created <-r parse_time "parse created_at" r.(wh_created_at) ;;
  updated <-r parse_time "parse updated_at" r.(wh_updated_at) ;;
  Ok (MkWebhook id r.(wh_event_id) r.(wh_url) r.(wh_secret) types r.(wh_description)
        r.(wh_enabled) created updated).

Definition webhook_row (w : Webhook) (now : string) : WebhookRow :=
  {| wh_event_id := w.(hk_EventID); wh_url := w.(hk_URL); wh_secret := w.(hk_Secret);
     wh_types := json_list w.(hk_EventTypes); wh_description := w.(hk_Description);
     wh_enabled := w.(hk_Enabled); wh_created_at := now; wh_updated_at := now |}.
Definition webhook_update_row (w : Webhook) (now : string) (old : WebhookRow) : WebhookRow :=
  {| wh_event_id := old.(wh_event_id); wh_url := w.(hk_URL); wh_secret := w.(hk_Secret);
     wh_types := json_list w.(hk_EventTypes); wh_description := w.(hk_Description);
     wh_enabled := w.(hk_Enabled); wh_created_at := old.(wh_created_at); wh_updated_at := now |}.
End rows.

Definition delivery_row (x : Delivery) (now : string) : DeliveryRow :=
  {| wd_webhook_id := x.(dl_WebhookID); wd_event_type := x.(dl_EventType);
     wd_payload := x.(dl_Payload); wd_response_status := x.(dl_ResponseStatus);
     wd_response_body := x.(dl_ResponseBody); wd_error := x.(dl_Error);
     wd_attempt := x.(dl_Attempt); wd_delivered_at := format_rfc3339 <$> x.(dl_DeliveredAt);
     wd_created_at := now |}.
(** The columns [UpdateDelivery] sets. *)
Definition delivery_update_row (x : Delivery) (old : DeliveryRow) : DeliveryRow :=
  {| wd_webhook_id := old.(wd_webhook_id); wd_event_type := old.(wd_event_type);
     wd_payload := old.(wd_payload); wd_response_status := x.(dl_ResponseStatus);
     wd_response_body := x.(dl_ResponseBody); wd_error := x.(dl_Error);
     wd_attempt := x.(dl_Attempt); wd_delivered_at := format_rfc3339 <$> x.(dl_DeliveredAt);
     wd_created_at := old.(wd_created_at) |}.
(** A time that does not parse is dropped. *)
Definition scanDeliveryRow (id : string) (r : DeliveryRow) : Delivery :=
  MkDelivery id r.(wd_webhook_id) r.(wd_event_type) r.(wd_payload) r.(wd_response_status)
    r.(wd_response_body) r.(wd_error) r.(wd_attempt) (r.(wd_delivered_at) ≫= parse_rfc3339)
    (reparse r.(wd_created_at)).

Definition of_event (eventID : string) (r : WebhookRow) : bool :=
  bool_decide (r.(wh_event_id) = eventID).
Definition webhook_older (a b : string * WebhookRow) : bool :=
  text_le a.2.(wh_created_at) b.2.(wh_created_at).
Definition delivery_newer (a b : string * DeliveryRow) : bool :=
  text_le b.2.(wd_created_at) a.2.(wd_created_at).

(** [DELETE FROM webhooks WHERE id = ?]; the deliveries go with the webhook. *)
Definition delete_webhook (id : string) (d : Database) : Database :=
  set_webhook_deliveries (delete_where (fun _ x => bool_decide (x.(wd_webhook_id) = id)))
    (set_webhooks (delete id) d).

Section store.
Context `{E : Env}.

Definition Store_CreateWebhook (w : Webhook) : M Webhook :=
  nowText <- now_text ;;
  exec "create webhook" (insert_webhook w.(hk_ID) (webhook_row w nowText)) ;;;
  ret (MkWebhook w.(hk_ID) w.(hk_EventID) w.(hk_URL) w.(hk_Secret) w.(hk_EventTypes)
         w.(hk_Description) w.(hk_Enabled) (reparse nowText) (reparse nowText)).

Definition scanWebhook (id : string) (row : option WebhookRow) : res (option Webhook) :=
  match row with
  | None => Ok None
  | Some r => w <-r parseWebhook id r ;; Ok (Some w)
  end.
Definition Store_FindByID (id : string) : M (option Webhook) :=
  row <- query "scan webhook" (fun d => d.(webhooks) !! id) ;;
  of_res (scanWebhook id row).

Definition Store_FindByEventID (eventID : string) : M (list Webhook) :=
  rows <- query "find webhooks by event" (fun d =>
    order_by webhook_older (select (fun _ r => of_event eventID r) d.(webhooks))) ;;
  mapM (fun x => of_res (parseWebhook x.1 x.2)) rows.

Definition FindEnabledByEventAndType (eventID eventType : string) : M (list Webhook) :=
  rows <- query "find enabled webhooks" (fun d =>
    select (fun _ r => of_event eventID r && r.(wh_enabled)) d.(webhooks)) ;;
  l <- mapM (fun x => of_res (parseWebhook x.1 x.2)) rows ;;
  ret (List.filter (fun w => one_of eventType w.(hk_EventTypes)) l).

Definition Store_UpdateWebhook (w : Webhook) : M Webhook :=
  nowText <- now_text ;;
  exec "update webhook" (fun d => Some (set_webhooks
    (update_where (fun id _ => bool_decide (id = w.(hk_ID))) (webhook_update_row w nowText)) d)) ;;;
  ret (MkWebhook w.(hk_ID) w.(hk_EventID) w.(hk_URL) w.(hk_Secret) w.(hk_EventTypes)
         w.(hk_Description) w.(hk_Enabled) w.(hk_CreatedAt) (reparse nowText)).

Definition Store_DeleteWebhook (id : string) : M () :=
  exec "delete webhook" (fun d => Some (delete_webhook id d)).

Definition CountByEvent (eventID : string) : M Z :=
  query "count webhooks by event" (fun d => count (fun _ r => of_event eventID r) d.(webhooks)).

Definition CreateDelivery (x : Delivery) : M Delivery :=
  nowText <- now_text ;;
  exec "create delivery" (insert_delivery x.(dl_ID) (delivery_row x nowText)) ;;;
  ret (MkDelivery x.(dl_ID) x.(dl_WebhookID) x.(dl_EventType) x.(dl_Payload)
         x.(dl_ResponseStatus) x.(dl_ResponseBody) x.(dl_Error) x.(dl_Attempt)
         x.(dl_DeliveredAt) (reparse nowText)).

Definition UpdateDelivery (x : Delivery) : M () :=
  exec "update delivery" (fun d => Some (set_webhook_deliveries
    (update_where (fun id _ => bool_decide (id = x.(dl_ID))) (delivery_update_row x)) d)).

Definition FindDeliveriesByWebhook (webhookID : string) (limit : nat) : M (list Delivery) :=
  query "find deliveries by webhook" (fun d =>
    map (fun x => scanDeliveryRow x.1 x.2) (take limit
      (order_by delivery_newer (select (fun _ r => bool_decide (r.(wd_webhook_id) = webhookID))
         d.(webhook_deliveries))))).
End store.

(** ** service.go *)

Definition maxWebhooksPerEvent : Z := 10.

(** Of [dispatcher.go]: basic validation of an endpoint. *)
Definition isValidWebhookURL (rawURL : string) (requireHTTPS : bool) : bool :=
  if bool_decide (rawURL = "") then false else
  if 2048 <? len rawURL then false else
  if has_prefix rawURL "https://" then true else
  if has_prefix rawURL "http://" then negb requireHTTPS else false.

Section service.
Context `{E : Env} (requireHTTPS : bool).

Definition bad_url : err :=
  EText (if requireHTTPS then "invalid webhook URL: must be an https:// URL"
         else "invalid webhook URL: must be an http:// or https:// URL").
Definition check_url (text : string) : M string :=
  let url := trim_space text in
  require (isValidWebhookURL url requireHTTPS) bad_url ;;; ret url.
Definition check_types (types : list string) : M () :=
  require (negb (bool_decide (types = []))) (EText "at least one event type is required") ;;;
  forM types (fun et => require (one_of et ValidEventTypes) (EText ("invalid event type: " +:+ et))).

(** [generateSecret]. *)
Definition generateSecret : M string :=
  raw <- read_random 32 ;;
  bytes <- of_option (EInternal "generate secret") raw ;;
  ret ("whsec_" +:+ hex_encode bytes).

Definition webhook_missing : err := EText "webhook not found".
Definition load_webhook (id : string) : M Webhook :=
  o <- Store_FindByID id ;;
  of_option webhook_missing o.

Definition CreateWebhook (eventID : string) (req : CreateWebhookRequest) : M Webhook :=
  url <- check_url req.(cw_URL) ;;
  check_types req.(cw_EventTypes) ;;;
  count <- or_err (EInternal "count webhooks") (CountByEvent eventID) ;;
  require (count <? maxWebhooksPerEvent)
    (EText ("maximum " +:+ itoa maxWebhooksPerEvent +:+ " webhooks per event")) ;;;
  secret <- generateSecret ;;
  id <- new_uuid ;;
  Store_CreateWebhook (MkWebhook id eventID url secret req.(cw_EventTypes)
    (trim_space req.(cw_Description)) true zero_time zero_time).

Definition GetWebhook (id : string) : M Webhook := load_webhook id.
Definition ListByEvent (eventID : string) : M (list Webhook) := Store_FindByEventID eventID.

Definition UpdateWebhook (id : string) (req : UpdateWebhookRequest) : M Webhook :=
  w <- load_webhook id ;;
  url <- match req.(uw_URL) with None => ret w.(hk_URL) | Some text => check_url text end ;;
  types <- match req.(uw_EventTypes) with
           | None => ret w.(hk_EventTypes)
           | Some types => check_types types ;;; ret types
           end ;;
  Store_UpdateWebhook (MkWebhook w.(hk_ID) w.(hk_EventID) url w.(hk_Secret) types
    match req.(uw_Description) with None => w.(hk_Description) | Some text => trim_space text end
    (default w.(hk_Enabled) req.(uw_Enabled)) w.(hk_CreatedAt) w.(hk_UpdatedAt)).

Definition DeleteWebhook (id : string) : M () :=
  load_webhook id ;;; Store_DeleteWebhook id.

Definition RotateSecret (id : string) : M Webhook :=
  w <- load_webhook id ;;
  secret <- generateSecret ;;
  Store_UpdateWebhook (MkWebhook w.(hk_ID) w.(hk_EventID) w.(hk_URL) secret w.(hk_EventTypes)
    w.(hk_Description) w.(hk_Enabled) w.(hk_CreatedAt) w.(hk_UpdatedAt)).

Definition GetDeliveries (webhookID : string) : M (list Delivery) :=
  FindDeliveriesByWebhook webhookID 100.

(** [getDeliveryByID]: no row is an error of [Scan]. *)
Definition getDeliveryByID (id : string) : M Delivery :=
  row <- query "scan delivery" (fun d => d.(webhook_deliveries) !! id) ;;
  r <- of_option (EInternal "scan delivery") row ;;
  ret (scanDeliveryRow id r).
End service.

(** ** Webhook delivery (internal/webhook/dispatcher.go) and the organizers' routes
    (internal/webhook/handler.go)

    The HTTP client, the requests it refuses to build and the waiting between
    attempts are parameters ([Client]); package net is a parameter of the dialer
    ([DialEnv]).  [Dispatch] starts each delivery in a goroutine of its own: here
    it returns the deliveries to run, which [deliver_all] runs in some order. *)

(** ** The client *)

Definition maxResponseBodySize : Z := 4096.
Definition maxRetries : Z := 3.

Record HttpRequest := MkRequest {
  rq_url : string; rq_body : string; rq_headers : list (string * string) }.
Record HttpResponse := MkResponse { rp_status : Z; rp_body : string }.

Record Client := MkClient {
  (** the error of [http.NewRequestWithContext] for a URL *)
  cl_request_error : string -> option string;
  (** [client.Do]: the response or the text of an error *)
  cl_do : HttpRequest -> M (string + HttpResponse);
  (** waiting that many seconds; false when the context is done first *)
  cl_wait : Z -> M bool }.

Definition legacySignatureHeader : string := "X-OpenRSVP-Signature".
Definition legacyEventHeader : string := "X-OpenRSVP-Event".
Definition legacyDeliveryHeader : string := "X-OpenRSVP-Delivery".
Definition legacyWebhookAgent : string := "OpenRSVP-Webhook/1.0".

(** ** deliver *)

(** [delivery] is a pointer: its fields change as the attempts go on. *)
Definition with_attempt (n : Z) (x : Delivery) : Delivery :=
  MkDelivery x.(dl_ID) x.(dl_WebhookID) x.(dl_EventType) x.(dl_Payload) x.(dl_ResponseStatus)
    x.(dl_ResponseBody) x.(dl_Error) n x.(dl_DeliveredAt) x.(dl_CreatedAt).
Definition with_response (status : Z) (body : string) (x : Delivery) : Delivery :=
  MkDelivery x.(dl_ID) x.(dl_WebhookID) x.(dl_EventType) x.(dl_Payload) (Some status) (Some body)
    x.(dl_Error) x.(dl_Attempt) x.(dl_DeliveredAt) x.(dl_CreatedAt).
Definition with_error (e : string) (x : Delivery) : Delivery :=
  MkDelivery x.(dl_ID) x.(dl_WebhookID) x.(dl_EventType) x.(dl_Payload) x.(dl_ResponseStatus)
    x.(dl_ResponseBody) (Some e) x.(dl_Attempt) x.(dl_DeliveredAt) x.(dl_CreatedAt).
Definition with_delivered (t : time) (x : Delivery) : Delivery :=
  MkDelivery x.(dl_ID) x.(dl_WebhookID) x.(dl_EventType) x.(dl_Payload) x.(dl_ResponseStatus)
    x.(dl_ResponseBody) None x.(dl_Attempt) (Some t) x.(dl_CreatedAt).

(** [io.LimitReader] *)
Definition limit_body (body : string) : string := str_take maxResponseBodySize body.

(** What one turn of the loop decides: return, or try again after an error. *)
Inductive verdict := Return (x : Delivery) | Again (x : Delivery) (lastErr : string).

Section deliver.
Context `{E : Env} (client : Client).

Definition signature (wh : Webhook) (payload : string) : string :=
  "sha256=" +:+ hex_encode (hmac_sha256 wh.(hk_Secret) payload).
Definition delivery_request (wh : Webhook) (x : Delivery) (payload : string) : HttpRequest :=
  MkRequest wh.(hk_URL) payload
    [("Content-Type", "application/json"); (legacySignatureHeader, signature wh payload);
     (legacyEventHeader, x.(dl_EventType)); (legacyDeliveryHeader, x.(dl_ID));
     ("User-Agent", legacyWebhookAgent)].

Definition record_and_return (x : Delivery) : M verdict :=
  ignore_err (UpdateDelivery x) ;;; ret (Return x).

(** The turn after the waiting: one request and what follows from its answer. *)
Definition send_attempt (wh : Webhook) (x : Delivery) (payload : string) : M verdict :=
  match client.(cl_request_error) wh.(hk_URL) with
  | Some e => record_and_return (with_error ("create request: " +:+ e) x)
  | None =>
      answer <- client.(cl_do) (delivery_request wh x payload) ;;
      match answer with
      | inl e => ret (Again x e)
      | inr rp =>
          let x := with_response rp.(rp_status) (limit_body rp.(rp_body)) x in
          let code := itoa rp.(rp_status) in
          if (200 <=? rp.(rp_status)) && (rp.(rp_status) <? 300) then
            t <- now ;; record_and_return (with_delivered t x)
          else if (400 <=? rp.(rp_status)) && (rp.(rp_status) <? 500) then
            record_and_return (with_error ("HTTP " +:+ code +:+ " (not retryable)") x)
          else ret (Again x ("HTTP " +:+ code))
      end
  end.

(** [time.Duration(1<<(2*(attempt-1))) * time.Second], in seconds. *)
Definition backoff (attempt : Z) : Z := Z.shiftl 1 (2 * (attempt - 1)).

Definition attempt_turn (wh : Webhook) (attempt : Z) (x : Delivery) (payload : string) : M verdict :=
  let x := with_attempt attempt x in
  waited <- (if 1 <? attempt then client.(cl_wait) (backoff attempt) else ret true) ;;
  if negb waited then record_and_return (with_error "context cancelled during backoff" x)
  else send_attempt wh x payload.

Definition exhausted (x : Delivery) (lastErr : option string) : Delivery :=
  match lastErr with
  | Some e => with_error ("all " +:+ itoa maxRetries +:+ " attempts failed: " +:+ e) x
  | None => x
  end.

(** [for attempt := 1; attempt <= maxRetries; attempt++]; [None] when the fuel
    does not suffice. *)
Fixpoint deliver_loop (fuel : nat) (attempt : Z) (wh : Webhook) (x : Delivery) (payload : string)
    (lastErr : option string) : M (option Delivery) :=
  match fuel with
  | O => ret None
  | S fuel =>
      if maxRetries <? attempt then
        let x := exhausted x lastErr in
        ignore_err (UpdateDelivery x) ;;; ret (Some x)
      else
        v <- attempt_turn wh attempt x payload ;;
        match v with
        | Return x => ret (Some x)
        | Again x e => deliver_loop fuel (attempt + 1) wh x payload (Some e)
        end
  end.
Definition deliver_fuel : nat := S (Z.to_nat maxRetries).

(** The delivery record as [deliver] leaves it. *)
Definition deliver (wh : Webhook) (x : Delivery) (payload : string) : M Delivery :=
  o <- deliver_loop deliver_fuel 1 wh x payload None ;;
  ret (default x o).

(** ** Dispatch *)

(** One webhook: the record, whose failure only skips the webhook. *)
Definition record_delivery (eventType payload : string) (wh : Webhook)
    : M (option (Webhook * Delivery)) :=
  id <- new_uuid ;;
  r <- attempt (CreateDelivery (MkDelivery id wh.(hk_ID) eventType payload None None None 0 None
         zero_time)) ;;
  ret match r with Ok x => Some (wh, x) | Err _ => None end.

Definition Dispatch (eventID eventType data : string) : M (list (Webhook * Delivery)) :=
  r <- attempt (FindEnabledByEventAndType eventID eventType) ;;
  match r with
  | Err _ | Ok [] => ret []
  | Ok l =>
      t <- now ;;
      let payload := json_payload eventType (format_rfc3339 t) data in
      started <- mapM (record_delivery eventType payload) l ;;
      ret (omap id started)
  end.
Definition deliver_all (l : list (Webhook * Delivery)) : M () :=
  forM l (fun p => deliver p.1 p.2 p.2.(dl_Payload) ;;; ret ()).

(** [Service.SendTest]: a delivery that is awaited. *)
Definition SendTest (webhookID : string) : M Delivery :=
  w <- load_webhook webhookID ;;
  t <- now ;;
  let payload := json_payload "test" (format_rfc3339 t)
    (json_object [("message", "This is a test webhook delivery from Owl Invites.")]) in
  id <- new_uuid ;;
  x <- or_err (EInternal "create test delivery")
         (CreateDelivery (MkDelivery id w.(hk_ID) "test" payload None None None 0 None zero_time)) ;;
  x <- deliver w x payload ;;
  updated <- attempt (getDeliveryByID id) ;;
  ret match updated with Ok y => y | Err _ => x end.
End deliver.

(** ** The dialer *)

(** More of package net: the resolver and the classes of addresses. *)
Class DialEnv `{NetEnv} := {
  lookup_ip_addr : string -> option (list IP);
  is_unspecified : IP -> bool;
  is_loopback : IP -> bool;
  is_link_local_unicast : IP -> bool;
  is_link_local_multicast : IP -> bool }.

Inductive dial :=
| DialTo (network address : string)  (* [dialer.DialContext] *)
| DialRefused (reason : string).

Section dialer.
Context `{HttpEnv, DialEnv}.

Definition privateCIDRs : list string :=
  ["10.0.0.0/8"; "172.16.0.0/12"; "192.168.0.0/16"; "127.0.0.0/8"; "169.254.0.0/16"; "0.0.0.0/8";
   "::1/128"; "fc00::/7"; "fe80::/10"].
(** [init] panics when one does not parse. *)
Definition privateRanges : list IPNet := omap parse_cidr privateCIDRs.

(** [None] is a nil address. *)
Definition isPrivateIP (ip : option IP) : bool :=
  match ip with
  | None => true
  | Some ip =>
      is_unspecified ip || is_loopback ip || is_link_local_unicast ip || is_link_local_multicast ip
      || existsb (fun r => net_contains r ip) privateRanges
  end.

Definition ssrfSafeDialer (network addr : string) : dial :=
  match split_host_port addr with
  | None => DialRefused "invalid address"
  | Some (host, port) =>
      match lookup_ip_addr host with
      | None => DialRefused "DNS lookup failed"
      | Some ips =>
          match head ips with
          | None => DialRefused "no IP addresses found for host"
          | Some first =>
              match List.find (fun ip => isPrivateIP (Some ip)) ips with
              | Some ip => DialRefused ("webhook URL resolves to private IP " +:+ ip_string ip)
              | None => DialTo network (join_host_port (ip_string first) port)
              end
          end
      end
  end.
End dialer.

(** ** handler.go *)

(** What the API shows of a webhook: everything but the secret. *)
Record WebhookView := MkWebhookView {
  wv_ID : string; wv_EventID : string; wv_URL : string; wv_EventTypes : list string;
  wv_Description : string; wv_Enabled : bool; wv_CreatedAt : time; wv_UpdatedAt : time }.
Definition view (w : Webhook) : WebhookView :=
  MkWebhookView w.(hk_ID) w.(hk_EventID) w.(hk_URL) w.(hk_EventTypes) w.(hk_Description)
    w.(hk_Enabled) w.(hk_CreatedAt) w.(hk_UpdatedAt).

Inductive WebhookPayload :=
| PWebhook (w : WebhookView)
| PWebhooks (l : list WebhookView)
| PWithSecret (w : WebhookView) (secret : string)
| PDeliveries (l : list Delivery)
| PDelivery (x : Delivery)
| PWebhookMessage (message : string).
Abbreviation Answer := (M (Resp WebhookPayload)).

Section handler.
Context `{E : Env} (client : Client) (requireHTTPS : bool)
  (checkOwner : string -> string -> M ()).

Definition no_webhook : Resp WebhookPayload := json_error 404 "not_found" "webhook not found".

Definition for_event (organizer : option string) (eventID : string) (k : Answer) : Answer :=
  for_user organizer (fun organizerID =>
  on_ok (checkOwner eventID organizerID) (fun _ => ret no_event) (fun _ => k)).
(** The routes of one webhook: any error of the lookup is a 404. *)
Definition for_webhook (organizer : option string) (webhookID : string) (k : Webhook -> Answer)
    : Answer :=
  for_user organizer (fun organizerID =>
  on_ok (GetWebhook webhookID) (fun _ => ret no_webhook) (fun wh =>
  on_ok (checkOwner wh.(hk_EventID) organizerID) (fun _ => ret no_webhook) (fun _ => k wh))).

Definition handleCreate (organizer : option string) (eventID : string)
    (body : option CreateWebhookRequest) : Answer :=
  for_event organizer eventID (for_body body (fun req =>
  on_ok (CreateWebhook requireHTTPS eventID req) (fun e => ret (error_text 400 "bad_request" e))
    (fun w => ret (json 201 (PWithSecret (view w) w.(hk_Secret)))))).

Definition handleList (organizer : option string) (eventID : string) : Answer :=
  for_event organizer eventID (
  on_ok (ListByEvent eventID) (fun _ => internal_error)
    (fun l => ret (json 200 (PWebhooks (map view l))))).

Definition handleGet (organizer : option string) (webhookID : string) : Answer :=
  for_webhook organizer webhookID (fun wh => ret (json 200 (PWebhook (view wh)))).

Definition handleUpdate (organizer : option string) (webhookID : string)
    (body : option UpdateWebhookRequest) : Answer :=
  for_webhook organizer webhookID (fun _ => for_body body (fun req =>
  on_ok (UpdateWebhook requireHTTPS webhookID req) (fun e => ret (error_text 400 "bad_request" e))
    (fun w => ret (json 200 (PWebhook (view w)))))).

Definition handleDelete (organizer : option string) (webhookID : string) : Answer :=
  for_webhook organizer webhookID (fun _ =>
  on_ok (DeleteWebhook webhookID) (fun _ => internal_error)
    (fun _ => ret (json 200 (PWebhookMessage "webhook deleted")))).

Definition handleRotateSecret (organizer : option string) (webhookID : string) : Answer :=
  for_webhook organizer webhookID (fun _ =>
  on_ok (RotateSecret webhookID) (fun _ => internal_error)
    (fun w => ret (json 200 (PWithSecret (view w) w.(hk_Secret))))).

Definition handleGetDeliveries (organizer : option string) (webhookID : string) : Answer :=
  for_webhook organizer webhookID (fun _ =>
  on_ok (GetDeliveries webhookID) (fun _ => internal_error)
    (fun l => ret (json 200 (PDeliveries l)))).

Definition handleSendTest (organizer : option string) (webhookID : string) : Answer :=
  for_webhook organizer webhookID (fun _ =>
  on_ok (SendTest client webhookID) (fun _ => internal_error)
    (fun x => ret (json 200 (PDelivery x)))).
End handler.
