(* ===== verification/Suppression.v ===== *)
(** * Suppressed addresses (internal/suppression)

    Addresses that opted out, bounced or complained, for one event or (event NULL)
    for the whole instance, and the tokens of unsubscribe links, of which only the
    digest is stored. *)

From S2P Require Import Prelude.
From S2P Require Import GoStr.
From S2P Require Import GoTime.
From S2P Require Import Schema.
From S2P Require Import Eff.
From S2P Require Import Http.
From S2P Require Import Reminders.

Local Open Scope Z_scope.

(** ** model.go *)

Definition ReasonUnsubscribe : string := "unsubscribe".
Definition ReasonBounce : string := "bounce".
Definition ReasonComplaint : string := "complaint".
Definition ValidReasons : list string := [ReasonUnsubscribe; ReasonBounce; ReasonComplaint].

(** ** store.go *)

(** [eventID == nil || *eventID == ""]: the column is NULL. *)
Definition event_scope (eventID : option string) : option string :=
  match eventID with Some e => if bool_decide (e = "") then None else Some e | None => None end.

(** [WHERE email = ? AND (event_id IS NULL OR event_id = ?)] *)
Definition suppresses (email : string) (scope : option string) (r : SuppressionRow) : bool :=
  bool_decide (r.(sp_email) = email)
  && (is_null r.(sp_event_id)
      || negb (is_null scope) && bool_decide (r.(sp_event_id) = scope)).
Definition suppression_is (email : string) (scope : option string) (r : SuppressionRow) : bool :=
  bool_decide (r.(sp_email) = email) && bool_decide (r.(sp_event_id) = scope).

Section store.
Context `{E : Env}.

Definition Store_IsSuppressed (email : string) (eventID : option string) : M bool :=
  n <- query "query suppression" (fun d =>
    count (fun _ r => suppresses email (event_scope eventID) r) d.(email_suppressions)) ;;
  ret (0 <? n).

Definition existsExact (email : string) (eventID : option string) : M bool :=
  n <- query "check suppression exists" (fun d =>
    count (fun _ r => suppression_is email (event_scope eventID) r) d.(email_suppressions)) ;;
  ret (0 <? n).

Definition Store_Suppress (email : string) (eventID : option string) (reason : string) : M () :=
  exists_ <- existsExact email eventID ;;
  if exists_ : bool then ret () else
  nowText <- now_text ;;
  id <- new_uuid ;;
  r <- attempt (exec "insert suppression" (insert_suppression id
         {| sp_email := email; sp_event_id := event_scope eventID; sp_reason := reason;
            sp_created_at := nowText |})) ;;
  match r with
  | Ok _ => ret ()
  | Err e =>
      again <- attempt (existsExact email eventID) ;;
      match again with Ok true => ret () | _ => fail e end
  end.

Definition CreateToken (tokenHash email : string) (eventID : option string) : M () :=
  nowText <- now_text ;;
  id <- new_uuid ;;
  exec "insert unsubscribe token" (insert_unsubscribe id
    {| ut_token_hash := tokenHash; ut_email := email; ut_event_id := event_scope eventID;
       ut_created_at := nowText |}).

Definition FindTokenByHash (tokenHash : string) : M (option (string * option string)) :=
  row <- query "find unsubscribe token" (fun d =>
    select_row (fun _ r => bool_decide (r.(ut_token_hash) = tokenHash)) d.(unsubscribe_tokens)) ;;
  ret ((fun x => (x.2.(ut_email), x.2.(ut_event_id))) <$> row).

(** ** service.go *)

Definition normalizeEmail (email : string) : string := to_lower (trim_space email).
Definition normalizeEventID (eventID : string) : option string :=
  if bool_decide (trim_space eventID = "") then None else Some eventID.

(** An error of the lookup counts as not suppressed. *)
Definition IsSuppressed (email eventID : string) : M bool :=
  r <- attempt (Store_IsSuppressed (normalizeEmail email) (normalizeEventID eventID)) ;;
  ret match r with Ok b => b | Err _ => false end.

Definition Suppress (email eventID reason : string) : M () :=
  require (one_of reason ValidReasons)
    (EText ("invalid suppression reason: " +:+ go_quote reason)) ;;;
  Store_Suppress (normalizeEmail email) (normalizeEventID eventID) reason.

Definition hashToken (token : string) : string := hex_encode (sha256 token).

Definition GenerateUnsubscribeToken (email eventID : string) : M string :=
  raw <- read_random 32 ;;
  bytes <- of_option (EInternal "generate unsubscribe token") raw ;;
  let token := hex_encode bytes in
  CreateToken (hashToken token) (normalizeEmail email) (normalizeEventID eventID) ;;;
  ret token.

Definition VerifyUnsubscribeToken (token : string) : M (option (string * option string)) :=
  if bool_decide (trim_space token = "") then ret None else FindTokenByHash (hashToken token).
End store.

(** ** handler.go *)

Inductive UnsubscribePayload :=
| PUnsubscribe (email : string) (eventID : option string)
| PUnsubscribeStatus (status : string).
Abbreviation Answer := (M (Resp UnsubscribePayload)).

Section handler.
Context `{E : Env}.

Definition token_required : Resp UnsubscribePayload := bad_request "token is required".
Definition bad_link : Resp UnsubscribePayload :=
  json_error 404 "not_found" "invalid or expired unsubscribe link".

Definition with_token (token : string) (k : string -> option string -> Answer) : Answer :=
  if bool_decide (token = "") then ret token_required else
  on_ok (VerifyUnsubscribeToken token) (fun _ => internal_error) (fun found =>
  match found with None => ret bad_link | Some (email, eventID) => k email eventID end).

Definition handleResolve (token : string) : Answer :=
  with_token token (fun email eventID => ret (json 200 (PUnsubscribe email eventID))).

Definition handleUnsubscribe (body : option string) : Answer :=
  for_body body (fun token =>
  with_token token (fun email eventID =>
  on_ok (Suppress email (default "" eventID) ReasonUnsubscribe) (fun _ => internal_error)
    (fun _ => ret (json 200 (PUnsubscribeStatus "unsubscribed"))))).
End handler.
