(* ===== verification/Notification.v ===== *)
(** * Notifications (internal/notification: provider.go, registry.go, service.go,
    tracking.go, handler.go)

    Providers are external services ([Provider]); a message that was handed over or
    failed is recorded in the notification log, which the tracking of openings and
    provider events advances.  Waiting and cancellation of the context are fields
    of the service.  A message is a pointer in the code: what [Send] appends to it
    is seen by nobody else, since every caller builds its own. *)

From S2P Require Import Prelude.
From S2P Require Import GoStr.
From S2P Require Import GoTime.
From S2P Require Import Schema.
From S2P Require Import Eff.
From S2P Require Import Http.
From S2P Require Import Event.
From S2P Require Import Reminders.
From S2P Require Import Suppression.

Local Open Scope Z_scope.

(** ** provider.go and registry.go *)

Definition ChannelEmail : string := "email".
Definition ChannelSMS : string := "sms".

Record Attachment := MkAttachment {
  at_Filename : string; at_ContentType : string; at_Data : string }.
Record Message := MkMessage {
  msg_To : string; msg_Subject : string; msg_Body : string; msg_Plain : string;
  msg_Attachments : list Attachment }.
Record SendResult := MkSendResult { sres_MessageID : string }.

(** [Send] gives the text of an error or a result, which may be nil; [SendBatch]
    the two slices of the code. *)
Record Provider := MkProvider {
  p_Name : string;
  p_Channel : string;
  p_Send : Message -> M (string + option SendResult);
  p_SendBatch : list Message -> M (list (option SendResult) * list (option string)) }.

Definition Registry : Type := gmap string Provider.
Definition NewRegistry : Registry := ∅.
Definition Register (p : Provider) (r : Registry) : Registry := <[p.(p_Channel) := p]> r.
Definition Get (ch : string) (r : Registry) : res Provider :=
  match r !! ch with
  | Some p => Ok p
  | None => Err (EText ("no provider registered for channel: " +:+ ch))
  end.
Definition Has (ch : string) (r : Registry) : bool := bool_decide (is_Some (r !! ch)).
Definition Channels (r : Registry) : list string := (map_to_list r).*1.

(** ** service.go *)

(** The optional dependency [SuppressionChecker]. *)
Record SuppressionChecker := MkChecker {
  sc_IsSuppressed : string -> string -> M bool;
  sc_GenerateUnsubscribeToken : string -> string -> M string }.
Record Options := MkOptions {
  op_BaseURL : string; op_OpenTrackingEnabled : bool; op_Suppression : option SuppressionChecker }.
Record Service := MkNotification {
  nt_registry : Registry; nt_opts : Options;
  nt_cancelled : M bool;       (* [ctx.Err() != nil] *)
  nt_retryWait : Z -> M bool   (* false when the context is done first *) }.

Definition maxSendAttempts : Z := 3.

(** [strings.LastIndex]: the position of the last occurrence. *)
Fixpoint last_index_bytes (s p : bytes) : option nat :=
  match s with
  | [] => if bytes_prefix p [] then Some 0%nat else None
  | _ :: t =>
      match last_index_bytes t p with
      | Some i => Some (S i)
      | None => if bytes_prefix p s then Some 0%nat else None
      end
  end.

Definition log_row (eventID : string) (invitationID : option string)
    (channel provider status errText recipient subject : string) (sentAt : option time)
    (createdAt : time) : LogRow :=
  {| l_event_id := eventID; l_invitation_id := invitationID; l_channel := channel;
     l_provider := provider; l_status := status; l_error := Some errText;
     l_sent_at := format_rfc3339 <$> sentAt; l_created_at := format_rfc3339 createdAt;
     l_recipient := recipient; l_subject := subject; l_message_id := None;
     l_delivery_status := "unknown"; l_delivered_at := None; l_opened_at := None;
     l_clicked_at := None; l_bounced_at := None; l_bounce_type := None; l_complaint_at := None |}.
(** The columns [updateLog] sets. *)
Definition log_update_row (status errText : string) (messageID sentAt : option string)
    (l : LogRow) : LogRow :=
  {| l_event_id := l.(l_event_id); l_invitation_id := l.(l_invitation_id);
     l_channel := l.(l_channel); l_provider := l.(l_provider); l_status := status;
     l_error := Some errText; l_sent_at := sentAt; l_created_at := l.(l_created_at);
     l_recipient := l.(l_recipient); l_subject := l.(l_subject); l_message_id := messageID;
     l_delivery_status := l.(l_delivery_status); l_delivered_at := l.(l_delivered_at);
     l_opened_at := l.(l_opened_at); l_clicked_at := l.(l_clicked_at);
     l_bounced_at := l.(l_bounced_at); l_bounce_type := l.(l_bounce_type);
     l_complaint_at := l.(l_complaint_at) |}.

(** The empty text as NULL. *)
Definition non_blank (s : string) : option string := if bool_decide (s = "") then None else Some s.

(** [UPDATE notification_log SET ... WHERE id = ? AND Q], with the CHECK constraints. *)
Definition update_log (id : string) (Q : LogRow -> bool) (f : LogRow -> LogRow) (d : Database)
    : option Database :=
  match d.(notification_log) !! id with
  | Some l => if Q l then if log_check (f l) then Some (set_notification_log <[id := f l]> d) else None
              else Some d
  | None => Some d
  end.

Section service.
Context `{E : Env}.

Definition insertLog (id eventID invitationID channel provider status errText recipient subject
    : string) (sentAt : option time) (createdAt : time) : M () :=
  exec "insert notification log" (insert_log id
    (log_row eventID (non_blank invitationID) channel provider status errText recipient subject
       sentAt createdAt)).
Definition updateLog (id status errText messageID : string) (sentAt : option time) : M () :=
  exec "update notification log" (update_log id (fun _ => true)
    (log_update_row status errText (non_blank messageID) (format_rfc3339 <$> sentAt))).

(** [strings.LastIndex(strings.ToLower(body), "</body>")], and the body cut there:
    the index is one of the lower-case text.  [None] is a slice out of bounds. *)
Definition insert_at_body_end (body part : string) : option string :=
  match last_index_bytes (to_bytes (to_lower body)) (to_bytes "</body>") with
  | None => Some (body +:+ part)
  | Some i =>
      if (i <=? length (to_bytes body))%nat
      then Some (of_bytes (take i (to_bytes body)) +:+ part +:+ of_bytes (drop i (to_bytes body)))
      else None
  end.
Definition slice_panic : err := EInternal "slice bounds out of range".

Variable s : Service.

Definition isSuppressedEmail (ch email eventID : string) : M bool :=
  match s.(nt_opts).(op_Suppression) with
  | None => ret false
  | Some c => if negb (bool_decide (ch = ChannelEmail)) || bool_decide (email = "") then ret false
              else c.(sc_IsSuppressed) email eventID
  end.

Definition base_url : string := trim_right_set s.(nt_opts).(op_BaseURL) ["/"%char].
Definition pixel (logID : string) : string :=
  "<img src=" +:+ dq +:+ base_url +:+ "/api/v1/notifications/track/open/" +:+ logID +:+ dq
  +:+ " width=" +:+ dq +:+ "1" +:+ dq +:+ " height=" +:+ dq +:+ "1" +:+ dq +:+ " alt=" +:+ dq
  +:+ dq +:+ " style=" +:+ dq +:+ "display:none" +:+ dq +:+ " />".
Definition embedOpenPixel (msg : Message) (logID : string) : M Message :=
  if negb s.(nt_opts).(op_OpenTrackingEnabled) || bool_decide (s.(nt_opts).(op_BaseURL) = "")
     || bool_decide (msg.(msg_Body) = "")
  then ret msg
  else
    body <- of_option slice_panic (insert_at_body_end msg.(msg_Body) (pixel logID)) ;;
    ret (MkMessage msg.(msg_To) msg.(msg_Subject) body msg.(msg_Plain) msg.(msg_Attachments)).

Definition footer_html (link : string) : string :=
  "<div style=" +:+ dq +:+ "margin-top:24px;font-size:12px;color:#A8A29E;text-align:center" +:+ dq
  +:+ "><a href=" +:+ dq +:+ link +:+ dq +:+ " style=" +:+ dq +:+ "color:#A8A29E" +:+ dq
  +:+ ">Unsubscribe from these emails</a></div>".
Definition footer_plain (link : string) : string :=
  nl +:+ nl +:+ "---" +:+ nl +:+ "Unsubscribe from these emails: " +:+ link +:+ nl.
(** A token that cannot be made leaves the message as it is. *)
Definition applyUnsubscribeFooter (msg : Message) (eventID : string) : M Message :=
  match s.(nt_opts).(op_Suppression) with
  | None => ret msg
  | Some c =>
      if bool_decide (s.(nt_opts).(op_BaseURL) = "") || bool_decide (msg.(msg_To) = "")
      then ret msg
      else
        r <- attempt (c.(sc_GenerateUnsubscribeToken) msg.(msg_To) eventID) ;;
        match r with
        | Err _ => ret msg
        | Ok token =>
            let link := base_url +:+ "/unsubscribe?token=" +:+ token in
            body <- (if bool_decide (msg.(msg_Body) = "") then ret msg.(msg_Body)
                     else of_option slice_panic
                            (insert_at_body_end msg.(msg_Body) (footer_html link))) ;;
            let plain := if bool_decide (msg.(msg_Plain) = "") then msg.(msg_Plain)
                         else msg.(msg_Plain) +:+ footer_plain link in
            ret (MkMessage msg.(msg_To) msg.(msg_Subject) body plain msg.(msg_Attachments))
        end
  end.

(** [for attempt := 1; attempt <= maxSendAttempts; attempt++], with the attempts
    that are left after this one. *)
Fixpoint send_attempts (p : Provider) (msg : Message) (more : nat) : M (string + option SendResult) :=
  r <- p.(p_Send) msg ;;
  match r, more with
  | inl e, S more =>
      let attempt := maxSendAttempts - 1 - Z.of_nat more in
      cancelled <- s.(nt_cancelled) ;;
      if cancelled : bool then ret (inl e) else
      waited <- s.(nt_retryWait) (Z.shiftl 1 (attempt - 1)) ;;
      if waited : bool then send_attempts p msg more else ret (inl e)
  | r, _ => ret r
  end.

(** The message as it is handed over. *)
Definition prepare (ch eventID logID : string) (msg : Message) : M Message :=
  if bool_decide (ch = ChannelEmail) then
    m <- applyUnsubscribeFooter msg eventID ;;
    embedOpenPixel m logID
  else ret msg.

Definition message_id (r : option SendResult) : string :=
  match r with Some x => x.(sres_MessageID) | None => "" end.
(** What the log says of a message that was sent, and of one that was not. *)
Definition log_sent (logID : string) (r : option SendResult) : M () :=
  t <- now ;; ignore_err (updateLog logID "sent" "" (message_id r) (Some t)).
Definition log_failed (logID e : string) : M () := ignore_err (updateLog logID "failed" e "" None).

Definition get_provider (ch : string) : M Provider :=
  of_res match Get ch s.(nt_registry) with
         | Ok p => Ok p
         | Err _ => Err (EText ("get provider: no provider registered for channel: " +:+ ch))
         end.

Definition Send (eventID invitationID ch : string) (msg : Message) : M () :=
  p <- get_provider ch ;;
  suppressed <- isSuppressedEmail ch msg.(msg_To) eventID ;;
  if suppressed : bool then ret () else
  logID <- new_uuid ;;
  t <- now ;;
  msg <- prepare ch eventID logID msg ;;
  ignore_err (insertLog logID eventID invitationID ch p.(p_Name) "pending" "" msg.(msg_To)
                msg.(msg_Subject) None t) ;;;
  r <- send_attempts p msg (Z.to_nat maxSendAttempts - 1) ;;
  match r with
  | inl e => log_failed logID e ;;; fail (EText ("send notification: " +:+ e))
  | inr x => log_sent logID x
  end.

(** One message of a batch before the batch is handed over. *)
Definition batch_entry (p : Provider) (eventID invitationID ch : string) (t : time)
    (msg : Message) : M (string * Message) :=
  logID <- new_uuid ;;
  msg <- prepare ch eventID logID msg ;;
  ignore_err (insertLog logID eventID invitationID ch p.(p_Name) "pending" "" msg.(msg_To)
                msg.(msg_Subject) None t) ;;;
  ret (logID, msg).
(** One error of the provider's answer, with the log entry and result at its index. *)
Definition batch_outcome (ids : list string) (results : list (option SendResult))
    (x : nat * option string) : M () :=
  let '(i, e) := x in
  match e with
  | Some text => id <- of_option slice_panic (ids !! i) ;; log_failed id text
  | None =>
      r <- of_option slice_panic (results !! i) ;;
      id <- of_option slice_panic (ids !! i) ;;
      log_sent id r
  end.
(** The errors by message; without a provider, the same one for each. *)
Definition SendBatch (eventID invitationID ch : string) (msgs : list Message)
    : M (list (option string)) :=
  match Get ch s.(nt_registry) with
  | Err _ => ret (replicate (length msgs)
               (Some ("get provider: no provider registered for channel: " +:+ ch)))
  | Ok p =>
      t <- now ;;
      entries <- mapM (batch_entry p eventID invitationID ch t) msgs ;;
      let* (results, errs) := p.(p_SendBatch) entries.*2 in
      forM (imap pair errs) (batch_outcome entries.*1 results) ;;;
      ret errs
  end.
End service.

(** ** Reading the log *)

Record LogEntry := MkLogEntry {
  le_ID : string; le_EventID : string; le_InvitationID : string; le_Channel : string;
  le_Provider : string; le_Status : string; le_DeliveryStatus : string; le_Error : string;
  le_Recipient : string; le_Subject : string; le_MessageID : string; le_SentAt : option time;
  le_DeliveredAt : option time; le_OpenedAt : option time; le_ClickedAt : option time;
  le_BouncedAt : option time; le_BounceType : string; le_ComplaintAt : option time;
  le_CreatedAt : time }.

Definition parseNullTime (s : option string) : option time := s ≫= parse_rfc3339.
Definition scanLogEntry (id : string) (l : LogRow) : LogEntry :=
  MkLogEntry id l.(l_event_id) (default "" l.(l_invitation_id)) l.(l_channel) l.(l_provider)
    l.(l_status) l.(l_delivery_status) (default "" l.(l_error)) l.(l_recipient) l.(l_subject)
    (default "" l.(l_message_id)) (parseNullTime l.(l_sent_at)) (parseNullTime l.(l_delivered_at))
    (parseNullTime l.(l_opened_at)) (parseNullTime l.(l_clicked_at))
    (parseNullTime l.(l_bounced_at)) (default "" l.(l_bounce_type))
    (parseNullTime l.(l_complaint_at)) (reparse l.(l_created_at)).

Definition log_newer (a b : string * LogRow) : bool := text_le b.2.(l_created_at) a.2.(l_created_at).
Definition GetLogByID (id : string) : M LogEntry :=
  row <- query "scan notification log" (fun d => d.(notification_log) !! id) ;;
  l <- of_option (EInternal "scan notification log") row ;;
  ret (scanLogEntry id l).
Definition GetLogsByEvent (eventID : string) : M (list LogEntry) :=
  query "query notification logs" (fun d =>
    map (fun x => scanLogEntry x.1 x.2) (order_by log_newer
      (select (fun _ l => bool_decide (l.(l_event_id) = eventID)) d.(notification_log)))).

(** ** tracking.go *)

Record DeliveryEvent := MkDeliveryEvent {
  dv_MessageID : string; dv_EventType : string; dv_Timestamp : time; dv_BounceType : string }.
Record EmailStats := MkEmailStats {
  st_TotalSent : Z; st_Delivered : Z; st_Opened : Z; st_Clicked : Z; st_Bounced : Z;
  st_Complained : Z; st_Failed : Z; st_Pending : Z }.

Definition validDeliveryStatuses : list string :=
  ["unknown"; "delivered"; "opened"; "clicked"; "bounced"; "complained"].
(** An unknown key of the map reads as 0. *)
Definition deliveryStatusOrder (status : string) : Z :=
  if bool_decide (status = "delivered") then 1 else
  if bool_decide (status = "opened") then 2 else
  if bool_decide (status = "clicked") then 3 else
  if bool_decide (status = "bounced") then 4 else
  if bool_decide (status = "complained") then 5 else 0.

(** The columns one event sets: the status and the time of its kind. *)
Definition track_row (event ts bounceType : string) (l : LogRow) : LogRow :=
  let stamp (kind : string) (old : option string) :=
    if bool_decide (event = kind) then Some ts else old in
  {| l_event_id := l.(l_event_id); l_invitation_id := l.(l_invitation_id);
     l_channel := l.(l_channel); l_provider := l.(l_provider); l_status := l.(l_status);
     l_error := l.(l_error); l_sent_at := l.(l_sent_at); l_created_at := l.(l_created_at);
     l_recipient := l.(l_recipient); l_subject := l.(l_subject);
     l_message_id := l.(l_message_id); l_delivery_status := event;
     l_delivered_at := stamp "delivered" l.(l_delivered_at);
     l_opened_at := stamp "opened" l.(l_opened_at); l_clicked_at := stamp "clicked" l.(l_clicked_at);
     l_bounced_at := stamp "bounced" l.(l_bounced_at);
     l_bounce_type := if bool_decide (event = "bounced") then Some bounceType else l.(l_bounce_type);
     l_complaint_at := stamp "complained" l.(l_complaint_at) |}.

Section tracking.
Context `{E : Env}.

(** Bounces and complaints override; other events only advance the status. *)
Definition advances (event status : string) : bool :=
  one_of event ["bounced"; "complained"]
  || (deliveryStatusOrder status <? deliveryStatusOrder event).

Definition ProcessDeliveryEvent (event : DeliveryEvent) : M () :=
  let kind := event.(dv_EventType) in
  require (one_of kind validDeliveryStatuses)
    (EText ("invalid delivery event type: " +:+ kind)) ;;;
  row <- query "query notification log" (fun d =>
    select_row (fun _ l => bool_decide (l.(l_message_id) = Some event.(dv_MessageID)))
      d.(notification_log)) ;;
  x <- of_option (EText ("no notification log entry for message_id: " +:+ event.(dv_MessageID))) row ;;
  if negb (advances kind x.2.(l_delivery_status)) then ret () else
  exec "update delivery status" (update_log x.1 (fun _ => true)
    (track_row kind (format_rfc3339 event.(dv_Timestamp)) event.(dv_BounceType))).

(** [UPDATE ... WHERE id = ? AND delivery_status IN ('unknown', 'delivered')]: an
    error is only logged. *)
Definition unopened (l : LogRow) : bool := one_of l.(l_delivery_status) ["unknown"; "delivered"].
Definition RecordOpen (logID : string) : M () :=
  nowText <- now_text ;;
  ignore_err (exec "record open" (update_log logID unopened (track_row "opened" nowText ""))).

(** The sums over the groups of equal statuses. *)
Definition count_logs (eventID : string) (P : LogRow -> bool) (d : Database) : Z :=
  count (fun _ l => bool_decide (l.(l_event_id) = eventID) && bool_decide (l.(l_channel) = "email")
                    && P l) d.(notification_log).
Definition GetEmailStats (eventID : string) : M EmailStats :=
  let status (s : string) := count_logs eventID (fun l => bool_decide (l.(l_status) = s)) in
  let delivery (s : string) := count_logs eventID (fun l => bool_decide (l.(l_delivery_status) = s)) in
  query "query email stats" (fun d =>
    MkEmailStats (status "sent" d) (delivery "delivered" d) (delivery "opened" d)
      (delivery "clicked" d) (delivery "bounced" d) (delivery "complained" d) (status "failed" d)
      (status "pending" d)).
End tracking.

(** ** handler.go *)

Record sendGridEvent := MkSendGridEvent {
  sg_Email : string; sg_Event : string; sg_MessageID : string; sg_Timestamp : Z }.
(** The kind of an event and of a bounce; the empty kind is not tracked. *)
Definition mapSendGridEvent (e : sendGridEvent) : string * string :=
  let named_as (s : string) := bool_decide (e.(sg_Event) = s) in
  if named_as "delivered" then ("delivered", "") else
  if named_as "open" then ("opened", "") else
  if named_as "click" then ("clicked", "") else
  if named_as "bounce" then ("bounced", "hard") else
  if named_as "blocked" then ("bounced", "soft") else
  if named_as "dropped" then ("bounced", "hard") else
  if named_as "spamreport" then ("complained", "") else ("", "").

Record sesEvent := MkSesEvent {
  se_NotificationType : string; se_MessageID : string; se_BounceType : string;
  se_BouncedRecipients : list string; se_ComplainedRecipients : list string }.
Definition mapSESEvent (e : sesEvent) : string * string * list string :=
  let named_as (s : string) := bool_decide (e.(se_NotificationType) = s) in
  let named := List.filter (fun a => negb (bool_decide (a = ""))) in
  if named_as "Delivery" then ("delivered", "", []) else
  if named_as "Bounce" then
    ("bounced", if bool_decide (e.(se_BounceType) = "Permanent") then "hard" else "soft",
     named e.(se_BouncedRecipients)) else
  if named_as "Complaint" then ("complained", "", named e.(se_ComplainedRecipients)) else ("", "", []).

Definition suppression_reason (eventType bounceType : string) : option string :=
  if bool_decide (eventType = "bounced") && bool_decide (bounceType = "hard") then Some "bounce" else
  if bool_decide (eventType = "complained") then Some "complaint" else None.

Inductive NotificationPayload :=
| PStats (s : EmailStats)
| PLog (l : list LogEntry)
| PPixel.
Abbreviation Answer := (M (Resp NotificationPayload)).

Section handler.
Context `{E : Env} (suppress : option (string -> string -> string -> M ()))
  (checkOwner : string -> string -> M ()).

Definition suppressOnFailure (eventType bounceType email : string) : M () :=
  match suppress with
  | None => ret ()
  | Some f =>
      if bool_decide (email = "") then ret () else
      match suppression_reason eventType bounceType with
      | None => ret ()
      | Some reason => ignore_err (f email "" reason)
      end
  end.

(** The opening is recorded in a goroutine, here before the reply. *)
Definition handleTrackOpen (logID : string) : Answer :=
  RecordOpen logID ;;; ret (json 200 PPixel).

(** The errors of one event are only logged. *)
Definition sendgrid_event (e : sendGridEvent) : M () :=
  let '(eventType, bounceType) := mapSendGridEvent e in
  if bool_decide (eventType = "") then ret () else
  t <- now ;;
  let ts := if 0 <? e.(sg_Timestamp) then e.(sg_Timestamp) * ns_per_sec else t in
  (if bool_decide (e.(sg_MessageID) = "") then ret ()
   else ignore_err (ProcessDeliveryEvent
          (MkDeliveryEvent e.(sg_MessageID) eventType ts bounceType))) ;;;
  suppressOnFailure eventType bounceType e.(sg_Email).
(** The status written. *)
Definition handleSendGridWebhook (body : option (list sendGridEvent)) : M Z :=
  match body with
  | None => ret 400
  | Some events => forM events sendgrid_event ;;; ret 200
  end.
Definition handleSESWebhook (body : option sesEvent) : M Z :=
  match body with
  | None => ret 400
  | Some e =>
      let '(eventType, bounceType, recipients) := mapSESEvent e in
      if bool_decide (eventType = "") then ret 200 else
      (if bool_decide (e.(se_MessageID) = "") then ret ()
       else t <- now ;;
            ignore_err (ProcessDeliveryEvent
              (MkDeliveryEvent e.(se_MessageID) eventType t bounceType))) ;;;
      forM recipients (suppressOnFailure eventType bounceType) ;;;
      ret 200
  end.

Definition error_only (status : Z) (message : string) : Resp NotificationPayload :=
  MkResp status (JErrorOnly message) [].
Definition for_event (organizer : option string) (eventID : string) (k : Answer) : Answer :=
  match organizer with
  | None => ret (error_only 401 "unauthorized")
  | Some organizerID =>
      on_ok (checkOwner eventID organizerID) (fun _ => ret (error_only 404 "event not found"))
        (fun _ => k)
  end.
Definition handleGetStats (organizer : option string) (eventID : string) : Answer :=
  for_event organizer eventID (
  on_ok (GetEmailStats eventID) (fun _ => ret (error_only 500 "internal error"))
    (fun s => ret (json 200 (PStats s)))).
Definition handleGetLog (organizer : option string) (eventID : string) : Answer :=
  for_event organizer eventID (
  on_ok (GetLogsByEvent eventID) (fun _ => ret (error_only 500 "internal error"))
    (fun l => ret (json 200 (PLog l)))).
End handler.
