(* ===== verification/ReminderFacts.v ===== *)
(** * What reminders promise

    The life of a reminder over any requests and runs of the job, the claim that
    keeps a reminder from being delivered twice, and what delivering one does. *)

From S2P Require Import Prelude.
From S2P Require Import GoStr.
From S2P Require Import GoTime.
From S2P Require Import Schema.
From S2P Require Import Eff.
From S2P Require Import Http.
From S2P Require Import Respect.
From S2P Require Import Demo.
From S2P Require Import Tables.
From S2P Require Import Auth.
From S2P Require Import Event.
From S2P Require Import Reminders.

Local Open Scope Z_scope.

(** ** The life of one reminder *)

(** What a reminder says: when, to whom, what. *)
Definition content (r : ReminderRow) : string * string * string * string * string :=
  (r.(rm_event_id), r.(rm_remind_at), r.(rm_group), r.(rm_message), r.(rm_created_at)).

Inductive reminder_step : ReminderRow -> ReminderRow -> Prop :=
| REdit r r' :
    r.(rm_status) = "scheduled" -> r'.(rm_status) = "scheduled" ->
    r'.(rm_event_id) = r.(rm_event_id) -> reminder_step r r'
| RCancel r r' :
    r.(rm_status) = "scheduled" -> r'.(rm_status) = "cancelled" -> content r' = content r ->
    reminder_step r r'
| RClaim r r' :
    r.(rm_status) = "scheduled" -> r'.(rm_status) = "processing" -> content r' = content r ->
    reminder_step r r'
| RDone r r' :
    r.(rm_status) = "processing" -> one_of r'.(rm_status) ["sent"; "failed"] = true ->
    content r' = content r -> reminder_step r r'.

Definition reminder_steps : ReminderRow -> ReminderRow -> Prop := rtc reminder_step.

(** No reminder is lost, each moves by steps, and new ones start scheduled. *)
Definition evolve (d d' : Database) : Prop :=
  table_le reminder_steps d.(reminders) d'.(reminders) /\
  forall k r', d.(reminders) !! k = None -> d'.(reminders) !! k = Some r' ->
    exists r, r.(rm_status) = "scheduled" /\ reminder_steps r r'.

#[global] Instance evolve_preorder : PreOrder evolve.
Proof.
  split.
  - intros d. split; [apply table_le_preorder; apply _|]. intros k r' H1 H2. congruence.
  - intros d1 d2 d3 [H12 N12] [H23 N23]. split; [by etrans|].
    intros k r' H1 H3. destruct (d2.(reminders) !! k) as [r2|] eqn:E2.
    + destruct (N12 _ _ H1 E2) as (r & Hr & Hs). exists r. split; [done|].
      destruct (H23 _ _ E2) as (x & Hx & Hs2). simplify_eq. by etrans.
    + by eapply N23.
Qed.

Lemma evolve_same d d' : d'.(reminders) = d.(reminders) -> evolve d d'.
Proof.
  intros H. split; rewrite H; [by apply table_le_preorder; apply _|]. intros k r' H1 H2. congruence.
Qed.
Lemma evolve_new id r d d' :
  insert_reminder id r d = Some d' -> r.(rm_status) = "scheduled" -> evolve d d'.
Proof.
  unfold insert_reminder. intros Hi Hs. case_match eqn:Hc; [|done]. injection Hi as <-.
  apply andb_true_iff in Hc as [[Hn _]%andb_true_iff _].
  assert (d.(reminders) !! id = None) as Hid.
  { apply eq_None_not_Some. rewrite <- has_spec. by destruct (has id (reminders d)). }
  split; simpl; [apply table_le_insert_new; [apply _|done]|].
  intros k r' H1 [[<- <-]|[_ H2]]%lookup_insert_Some; [|congruence]. by exists r.
Qed.
Lemma evolve_step id r r' d :
  d.(reminders) !! id = Some r -> reminder_step r r' -> evolve d (set_reminders <[id := r']> d).
Proof.
  intros Hr Hs. split; simpl.
  - eapply table_le_insert_old; [apply _|done|by apply rtc_once].
  - intros k x H1 [[<- <-]|[_ H2]]%lookup_insert_Some; congruence.
Qed.

(** ** Statements *)

(** An UPDATE found the row, or changed nothing. *)
Lemma update_reminder_cases id Q f d n d' :
  update_reminder id Q f d = Some (n, d') ->
  (n = 1 /\ exists r, d.(reminders) !! id = Some r /\ Q r = true /\ reminder_check (f r) = true /\
     d' = set_reminders <[id := f r]> d) \/
  (n = 0 /\ d' = d /\ forall r, d.(reminders) !! id = Some r -> Q r = false).
Proof.
  unfold update_reminder. destruct (d.(reminders) !! id) as [r|] eqn:E; [destruct (Q r) eqn:EQ|].
  - destruct (reminder_check (f r)) eqn:Ec; [|done]. intros [= <- <-]. left. eauto 10.
  - intros [= <- <-]. right. naive_solver.
  - intros [= <- <-]. right. naive_solver.
Qed.
Lemma update_reminder_evolve id Q f d n d' :
  (forall r, d.(reminders) !! id = Some r -> Q r = true -> reminder_step r (f r)) ->
  update_reminder id Q f d = Some (n, d') -> evolve d d'.
Proof.
  intros Hf [(_ & r & Hr & HQ & _ & ->)|(_ & -> & _)]%update_reminder_cases; [|done].
  by eapply evolve_step; eauto.
Qed.

Lemma scheduled_spec r : scheduled r = true <-> r.(rm_status) = "scheduled".
Proof. apply bool_decide_eq_true. Qed.

Section lifecycle.
Context `{E : Env}.

Lemma Create_evolve r :
  r.(re_Status) = "scheduled" -> respects evolve (ReminderStore_Create r).
Proof. intros Hs. unfold ReminderStore_Create. respect_reply. intros Hi. by eapply evolve_new. Qed.
Lemma reminder_read id : reads (ReminderStore_FindByID id).
Proof. unfold ReminderStore_FindByID. respect_reply. Qed.
Lemma find_reminders_reads ctx P : reads (find_reminders ctx P).
Proof. unfold find_reminders. respect_reply. Qed.
Lemma FindDue_reads : reads FindDue.
Proof. unfold FindDue. respect_reply. apply find_reminders_reads. Qed.
Lemma Cancel_evolve id : respects evolve (ReminderStore_Cancel id).
Proof.
  unfold ReminderStore_Cancel. respect_reply. apply update_reminder_evolve.
  intros r _ Hq%scheduled_spec. by apply RCancel.
Qed.
Lemma Claim_evolve id : respects evolve (ClaimForProcessing id).
Proof.
  unfold ClaimForProcessing. respect_reply. apply update_reminder_evolve.
  intros r _ Hq%scheduled_spec. by apply RClaim.
Qed.

(** A run of a statement after the clock was read. *)
Lemma wp_timed {A B} ctx (f : string -> Database -> option (A * Database)) (k : string -> A -> M B)
    (Q : res B -> World -> Prop) w :
  (forall w', w'.(w_db) = w.(w_db) -> Q (Err (EInternal ctx)) w') ->
  (forall t a d w', f t w.(w_db) = Some (a, d) -> w'.(w_db) = d -> wp (k t a) Q w') ->
  wp (t <- now_text ;; a <- stmt ctx (f t) ;; k t a) Q w.
Proof.
  intros He Hk. apply wp_bind. unfold now_text. apply wp_bind, wp_now. intros w1 [Hd1 _] _.
  apply wp_ret. apply wp_bind, wp_stmt.
  - intros w2 [Hd2 _] _. apply He. congruence.
  - intros a d w2 Hf [Hd2 _]. eapply Hk; [|done]. by rewrite <- Hd1.
Qed.

Lemma SetStatus_evolve id status w r :
  w.(w_db).(reminders) !! id = Some r -> r.(rm_status) = "processing" ->
  one_of status ["sent"; "failed"] = true ->
  wp (SetStatus id status) (fun _ w' => evolve w.(w_db) w'.(w_db)) w.
Proof.
  intros Hr Hp Hs. unfold SetStatus. apply wp_timed; [by intros w' ->|].
  intros t n d w' Hu Hd. apply wp_ret. rewrite Hd.
  eapply update_reminder_evolve; [|exact Hu]. intros x Hx _. simplify_eq. by apply RDone.
Qed.

(** What claiming a reminder found and left. *)
Lemma Claim_ok id b w w' :
  ClaimForProcessing id w = (Ok b, w') ->
  if b then exists r t, w.(w_db).(reminders) !! id = Some r /\ scheduled r = true /\
              w'.(w_db) = set_reminders <[id := reminder_status_row "processing" t r]> w.(w_db)
  else w'.(w_db) = w.(w_db) /\ forall r, w.(w_db).(reminders) !! id = Some r -> scheduled r = false.
Proof.
  unfold ClaimForProcessing, now_text. intros H. run_ok.
  match goal with H : update_reminder _ _ _ _ = Some _ |- _ =>
    apply update_reminder_cases in H as [(-> & r & Hr & HQ & _ & Hd)|(-> & Hd & Hn)] end.
  - simpl. rewrite Hd. eexists r, _. split_and!; [congruence|done|]. by dbs.
  - simpl. split; [congruence|]. intros r Hr. apply Hn. congruence.
Qed.

(** ** The job *)

(** Delivering a reminder leaves the reminders alone. *)
Definition keeps_reminders (d d' : Database) : Prop := d'.(reminders) = d.(reminders).
#[global] Instance keeps_reminders_preorder : PreOrder keeps_reminders.
Proof. split; [by intros ?|]. intros ???. unfold keeps_reminders. congruence. Qed.
Definition quiet_delivery (deliver : option ReminderDeliveryFunc) : Prop :=
  forall f a b c e, deliver = Some f -> respects keeps_reminders (f a b c e).

Lemma wp_ignore_evolve {A} (m : M A) w0 w :
  evolve w0 w.(w_db) -> wp m (fun _ w' => evolve w.(w_db) w'.(w_db)) w ->
  wp (ignore_err m) (fun _ w' => evolve w0 w'.(w_db)) w.
Proof. intros H0 H. apply wp_ignore_err. eapply wp_mono; [exact H|]. intros r w' Hw. by etrans. Qed.

Lemma process_evolve deliver r :
  quiet_delivery deliver -> respects evolve (processReminder deliver r).
Proof.
  intros Hq w. change (wp (processReminder deliver r) (fun _ w' => evolve w.(w_db) w'.(w_db)) w).
  unfold processReminder. apply wp_bind, wp_run. intros x w1 Hc.
  pose proof (Claim_evolve r.(re_ID) w) as He. rewrite Hc in He. simpl in He.
  destruct x as [[]|e]; simpl; [|by apply wp_ret|done].
  apply Claim_ok in Hc as (row & t & Hrow & _ & Hd).
  assert (w1.(w_db).(reminders) !! re_ID r = Some (reminder_status_row "processing" t row)) as Hr1
    by (rewrite Hd; simpl; apply lookup_insert_eq).
  destruct deliver as [f|].
  - apply wp_bind, wp_attempt, wp_run. intros sent w2 Hf.
    pose proof (Hq f r.(re_EventID) r.(re_TargetGroup) "Event reminder" (reminder_body r) eq_refl w1) as Hk.
    rewrite Hf in Hk. unfold keeps_reminders in Hk. simpl in Hk.
    assert (evolve w.(w_db) w2.(w_db)) as He2 by (etrans; [exact He|by apply evolve_same]).
    rewrite <- Hk in Hr1. destruct sent as [n|e].
    + eapply wp_mono; [by eapply SetStatus_evolve|]. intros ? ? Hs. by etrans.
    + apply wp_bind. eapply wp_mono; [apply wp_ignore_evolve; [exact He2|by eapply SetStatus_evolve]|].
      intros [u|e'] w3 H3; [by apply wp_fail|done].
  - apply wp_bind. eapply wp_mono; [apply wp_ignore_evolve; [exact He|by eapply SetStatus_evolve]|].
    intros [u|e'] w3 H3; [by apply wp_fail|done].
Qed.

Lemma Run_evolve deliver : quiet_delivery deliver -> respects evolve (Run deliver).
Proof.
  intros Hq. unfold Run. respect_reply.
  - apply reads_respects; [apply _|apply FindDue_reads].
  - by apply process_evolve.
Qed.

(** ** The routes *)

Context (check : string -> string -> M ()) (Hcheck : forall e u, reads (check e u)).

Lemma future_time_reads text : reads (future_time text).
Proof. unfold future_time. respect_reply. Qed.
Lemma respects_stops R `{!PreOrder R} {A} (x : A + Resp ReminderPayload) k :
  (forall a, respects R (k a)) -> respects R (stops x k).
Proof. intros H. destruct x; [apply H|by apply respects_ret]. Qed.

Lemma handleCreate_evolve organizer eventID body :
  respects evolve (handleCreate check organizer eventID body).
Proof.
  unfold handleCreate. respect_reply.
  - apply reads_respects; [apply _|done].
  - apply reads_respects; [apply _|apply future_time_reads].
  - repeat (apply respects_stops; [apply _|intros ?]). respect_reply. by apply Create_evolve.
Qed.
Lemma handleList_reads organizer eventID : reads (handleListByEvent check organizer eventID).
Proof. unfold handleListByEvent. respect_reply. apply find_reminders_reads. Qed.

(** A reminder as read, and its row. *)
Lemma FindByID_ok id w x w' :
  ReminderStore_FindByID id w = (Ok (Some x), w') ->
  exists r, w.(w_db).(reminders) !! id = Some r /\ x.(re_ID) = id /\ x.(re_Status) = r.(rm_status) /\
    x.(re_EventID) = r.(rm_event_id).
Proof.
  unfold ReminderStore_FindByID. intros H. run_ok.
  destruct (reminders (w_db w) !! id) as [r|] eqn:Er; [|done]. exists r. split; [done|].
  unfold parseReminderTimes in *.
  destruct (parse_time _ (rm_remind_at r)); simpl in *; [|done].
  destruct (parse_time _ (rm_created_at r)); simpl in *; [|done].
  destruct (parse_time _ (rm_updated_at r)); simpl in *; [|done]. by simplify_eq.
Qed.

Lemma Update_evolve x w r :
  w.(w_db).(reminders) !! x.(re_ID) = Some r -> r.(rm_status) = "scheduled" ->
  x.(re_Status) = "scheduled" ->
  wp (ReminderStore_Update x) (fun _ w' => evolve w.(w_db) w'.(w_db)) w.
Proof.
  intros Hr Hs Hx. unfold ReminderStore_Update. apply wp_timed; [by intros w' ->|].
  intros t n d w' Hu Hd. apply wp_ret. rewrite Hd.
  eapply update_reminder_evolve; [|exact Hu]. intros y Hy _. simplify_eq. by apply REdit.
Qed.

Lemma internal_error_db (Q : Database -> Prop) w :
  Q w.(w_db) -> wp (internal_error : Answer) (fun _ w' => Q w'.(w_db)) w.
Proof. apply wp_reads. apply respects_internal_error, _. Qed.
Lemma ret_db {A} (a : A) (Q : Database -> Prop) w : Q w.(w_db) -> wp (ret a) (fun _ w' => Q w'.(w_db)) w.
Proof. done. Qed.

Lemma handleUpdate_evolve organizer id body : respects evolve (handleUpdate check organizer id body).
Proof.
  unfold handleUpdate. apply respects_for_user; [apply _|]. intros uid.
  apply respects_for_body; [apply _|]. intros req w. set (Q := evolve w.(w_db)).
  assert (Q w.(w_db)) as H0 by (unfold Q; reflexivity).
  apply (wp_on_ok_reads _ _ _ (fun _ w' => Q w'.(w_db))); [apply reminder_read|intros e w' Hd; apply internal_error_db; by rewrite Hd|].
  intros found w1 Hf Hd1. destruct found as [x|]; [|apply ret_db; by rewrite Hd1].
  apply FindByID_ok in Hf as (r & Hr & Hid & Hst & _).
  apply wp_on_ok_reads; [apply Hcheck|intros e w' Hd; apply ret_db; by rewrite Hd, Hd1|].
  intros _ w2 _ Hd2. destruct (bool_decide_reflect (re_Status x = "scheduled")) as [Hs|]; simpl;
    [|apply ret_db; by rewrite Hd2, Hd1].
  apply wp_bind_reads.
  - unfold new_time. destruct (ur_RemindAt req); [apply future_time_reads|by apply respects_ret, _].
  - by rewrite Hd2, Hd1.
  - intros at_ w3 _ Hd3. assert (w3.(w_db) = w.(w_db)) as Hd by congruence.
    destruct at_ as [remindAt|reply]; simpl; [|apply ret_db; by rewrite Hd].
    destruct (group_or _ _) as [g|reply]; simpl; [|apply ret_db; by rewrite Hd].
    destruct (message_or _ _) as [m|reply]; simpl; [|apply ret_db; by rewrite Hd].
    apply wp_on_ok. eapply wp_mono; [eapply (Update_evolve _ w3 r); simpl; congruence|].
    intros y w4 H4. rewrite Hd in H4. by destruct y; [apply ret_db|apply internal_error_db].
Qed.

Lemma handleCancel_evolve organizer id : respects evolve (handleCancel check organizer id).
Proof.
  unfold handleCancel. respect_reply.
  - apply reads_respects; [apply _|apply reminder_read].
  - apply reads_respects; [apply _|done].
  - apply Cancel_evolve.
Qed.

(** ** Runs of requests *)

Inductive reminder_op :=
| OCreate (organizer : option string) (eventID : string) (body : option CreateReminderRequest)
| OList (organizer : option string) (eventID : string)
| OUpdate (organizer : option string) (id : string) (body : option UpdateReminderRequest)
| OCancel (organizer : option string) (id : string)
| ORun (deliver : option ReminderDeliveryFunc).

Definition run_reminder (op : reminder_op) : M () :=
  match op with
  | OCreate u e b => handleCreate check u e b ;;; ret ()
  | OList u e => handleListByEvent check u e ;;; ret ()
  | OUpdate u i b => handleUpdate check u i b ;;; ret ()
  | OCancel u i => handleCancel check u i ;;; ret ()
  | ORun f => Run f
  end.
Definition run_reminders (ops : list reminder_op) (w : World) : World :=
  fold_left (fun w op => (run_reminder op w).2) ops w.
Definition quiet_op (op : reminder_op) : Prop :=
  match op with ORun f => quiet_delivery f | _ => True end.

Lemma run_reminder_evolve op : quiet_op op -> respects evolve (run_reminder op).
Proof.
  destruct op; simpl; intros Hq.
  - respect_reply. apply handleCreate_evolve.
  - respect_reply. apply reads_respects; [apply _|apply handleList_reads].
  - respect_reply. apply handleUpdate_evolve.
  - respect_reply. apply handleCancel_evolve.
  - by apply Run_evolve.
Qed.
Lemma run_reminders_evolve ops w :
  Forall quiet_op ops -> evolve w.(w_db) (run_reminders ops w).(w_db).
Proof.
  intros H. revert w. induction H as [|op ops Hq _ IH]; intros w; simpl; [done|].
  etrans; [by apply run_reminder_evolve|apply IH].
Qed.

(** What the steps mean for a reminder that left the schedule. *)
Lemma steps_content r r' :
  reminder_steps r r' -> r.(rm_status) <> "scheduled" -> content r' = content r /\
    r'.(rm_status) <> "scheduled".
Proof.
  induction 1 as [|r1 r2 r3 Hs _ IH]; [done|]. intros Hn. destruct Hs; try congruence.
  destruct IH as [Hc Hn']; [|by rewrite Hc].
  intros He. by rewrite He in *.
Qed.
Definition final (status : string) : bool := one_of status ["sent"; "failed"; "cancelled"].
Lemma steps_final r r' : reminder_steps r r' -> final r.(rm_status) = true -> r' = r.
Proof.
  induction 1 as [|r1 r2 r3 Hs _ IH]; [done|]. intros Hf.
  destruct Hs as [a b Ha|a b Ha|a b Ha|a b Ha]; rewrite Ha in Hf; by vm_compute in Hf.
Qed.
End lifecycle.


(** ** Interleaved store calls *)

Inductive reminder_call :=
| CCreate (r : Reminder)
| CUpdate (r : Reminder)
| CCancel (id : string)
| CClaim (id : string)
| CSetStatus (id status : string).

Section calls.
Context `{E : Env}.

Definition run_call (c : reminder_call) : M () :=
  match c with
  | CCreate r => ReminderStore_Create r ;;; ret ()
  | CUpdate r => ReminderStore_Update r ;;; ret ()
  | CCancel id => ReminderStore_Cancel id
  | CClaim id => ClaimForProcessing id ;;; ret ()
  | CSetStatus id status => SetStatus id status
  end.
Definition run_calls (l : list reminder_call) (w : World) : World :=
  fold_left (fun w c => (run_call c w).2) l w.

(** The call does not put the reminder back on the schedule: no edit of it, and
    no status but those the job sets. *)
Definition spares (id : string) (c : reminder_call) : Prop :=
  match c with
  | CUpdate r => r.(re_ID) <> id
  | CSetStatus _ status => status <> "scheduled"
  | _ => True
  end.
Definition unscheduled (id : string) (d : Database) : Prop :=
  exists r, d.(reminders) !! id = Some r /\ scheduled r = false.

Lemma unscheduled_update id i Q f d n d' :
  (forall r, i = id -> scheduled r = false -> Q r = true -> scheduled (f r) = false) ->
  update_reminder i Q f d = Some (n, d') -> keeps (unscheduled id) d d'.
Proof.
  intros Hf Hu (x & Hx & Hs). unfold unscheduled.
  apply update_reminder_cases in Hu as [(_ & r & Hr & HQ & _ & ->)|(_ & -> & _)]; [|eauto]. simpl. destruct (decide (i = id)) as [->|Hn].
  - rewrite lookup_insert_eq. exists (f r). split; [done|]. apply Hf; congruence.
  - rewrite lookup_insert_ne by done. by exists x.
Qed.
Lemma run_call_unscheduled id c : spares id c -> respects (keeps (unscheduled id)) (run_call c).
Proof.
  destruct c as [r|r|i|i|i status]; simpl; intros Hs.
  - unfold ReminderStore_Create, insert_reminder. respect_reply. case_match eqn:Hc; [|done].
    intros [= <-] (x & Hx & Hsc). exists x. simpl. split; [|done].
    apply andb_true_iff in Hc as [[Hn%negb_true_iff _]%andb_true_iff _].
    rewrite lookup_insert_ne; [done|]. intros Hi. rewrite Hi in Hn.
    assert (has id d.(reminders) = true) by (apply has_spec; eauto). congruence.
  - unfold ReminderStore_Update. respect_reply. apply unscheduled_update. congruence.
  - unfold ReminderStore_Cancel. respect_reply. by apply unscheduled_update.
  - unfold ClaimForProcessing. respect_reply. by apply unscheduled_update.
  - unfold SetStatus. respect_reply. apply unscheduled_update. intros r _ _ _.
    unfold scheduled. simpl. by apply bool_decide_eq_false_2.
Qed.
Lemma run_calls_unscheduled id l w :
  Forall (spares id) l -> unscheduled id w.(w_db) -> unscheduled id (run_calls l w).(w_db).
Proof.
  intros H. revert w. induction H as [|c l Hc _ IH]; intros w Hw; simpl; [done|].
  apply IH. by apply (run_call_unscheduled _ _ Hc w).
Qed.
Lemma Claim_unscheduled id w :
  unscheduled id w.(w_db) -> (ClaimForProcessing id w).1 <> Ok true /\
  (ClaimForProcessing id w).2.(w_db) = w.(w_db).
Proof.
  intros (r & Hr & Hs). split.
  - destruct (ClaimForProcessing id w) as [[b|e] w'] eqn:Ec; simpl; [|done]. intros [= ->].
    apply Claim_ok in Ec as (x & t & Hx & Hsx & _). congruence.
  - assert (respects (fun d d' => unscheduled id d -> d' = d) (ClaimForProcessing id)) as Hk; [|].
    { unfold ClaimForProcessing, now_text. intros w0.
      change (wp (t <- now_text ;; a <- stmt "claim reminder" (update_reminder id scheduled
        (reminder_status_row "processing" t)) ;; ret (0 <? a))
        (fun _ w' => unscheduled id w0.(w_db) -> w'.(w_db) = w0.(w_db)) w0).
      apply wp_timed; [auto|]. intros t n d w' Hu Hd. apply wp_ret. intros (y & Hy & Hsy).
      apply update_reminder_cases in Hu as [(_ & z & Hz & HQ & _)|(_ & -> & _)]; congruence. }
    apply Hk. by exists r.
Qed.
End calls.

(** A reminder is claimed at most once: after a claim succeeded, whatever calls
    to the store follow and interleave, of other runs of the job and of requests,
    with any driver faults, no later claim of it succeeds or writes anything, unless
    an edit of this reminder that had read it before the claim is written after it
    ([stale_edit_sends_again]). *)
Theorem reminder_claimed_once `{E : Env} id w w1 calls :
  ClaimForProcessing id w = (Ok true, w1) -> Forall (spares id) calls ->
  let w2 := run_calls calls w1 in
  (ClaimForProcessing id w2).1 <> Ok true /\ (ClaimForProcessing id w2).2.(w_db) = w2.(w_db).
Proof.
  intros (r & t & Hr & _ & Hd)%Claim_ok Hs w2. apply Claim_unscheduled, run_calls_unscheduled; [done|].
  rewrite Hd. eexists. simpl. rewrite lookup_insert_eq. by split.
Qed.

(** ** Delivering one reminder *)

Section delivery.
Context `{E : Env}.

Lemma update_reminder_run ctx id Q f r w :
  w.(w_faults) = [] -> w.(w_db).(reminders) !! id = Some r -> Q r = true ->
  reminder_check (f r) = true ->
  stmt ctx (update_reminder id Q f) w = (Ok 1, with_db (set_reminders <[id := f r]> w.(w_db)) w).
Proof.
  intros Hf Hr HQ Hc. apply stmt_run; [done|]. unfold update_reminder. by rewrite Hr, HQ, Hc.
Qed.
Lemma status_check status t r :
  reminder_check r = true ->
  one_of status ["scheduled"; "processing"; "sent"; "cancelled"; "failed"] = true ->
  reminder_check (reminder_status_row status t r) = true.
Proof. unfold reminder_check. intros [? _]%andb_true_iff ?. by apply andb_true_iff. Qed.

Definition stamp (w : World) : string := format_rfc3339 (clock w.(w_clock)).
(** The world in which the reminder is claimed. *)
Definition claimed_world (id : string) (row : ReminderRow) (w : World) : World :=
  with_db (set_reminders <[id := reminder_status_row "processing" (stamp w) row]> w.(w_db)) (tick w).

Lemma Claim_run id row w :
  w.(w_faults) = [] -> w.(w_db).(reminders) !! id = Some row -> scheduled row = true ->
  reminder_check row = true -> ClaimForProcessing id w = (Ok true, claimed_world id row w).
Proof.
  intros Hf Hr Hs Hc. unfold ClaimForProcessing, now_text.
  erewrite bind_run by (erewrite bind_run by apply now_run; reflexivity).
  erewrite bind_run by (apply update_reminder_run; [done|exact Hr|done|by apply status_check]). done.
Qed.
Lemma SetStatus_run id status row w :
  w.(w_faults) = [] -> w.(w_db).(reminders) !! id = Some row -> reminder_check row = true ->
  one_of status ["scheduled"; "processing"; "sent"; "cancelled"; "failed"] = true ->
  SetStatus id status w
  = (Ok (), with_db (set_reminders <[id := reminder_status_row status (stamp w) row]> w.(w_db)) (tick w)).
Proof.
  intros Hf Hr Hc Hs. unfold SetStatus, now_text.
  erewrite bind_run by (erewrite bind_run by apply now_run; reflexivity).
  erewrite bind_run by (apply update_reminder_run; [done|exact Hr|done|by apply status_check]). done.
Qed.

Definition outcome_status {A} (r : res A) : string := match r with Ok _ => "sent" | Err _ => "failed" end.
End delivery.

(** Processing a scheduled reminder claims it, hands its event, group and text
    (a standard one when it has none) to the delivery, and marks it sent or failed as
    the delivery ended, whose error it returns; a reminder that is not scheduled
    is left alone. *)
Theorem reminder_processed `{E : Env} f r row w :
  w.(w_faults) = [] -> w.(w_db).(reminders) !! r.(re_ID) = Some row -> reminder_check row = true ->
  (forall a b c e w, w.(w_faults) = [] -> (f a b c e w).2.(w_faults) = [] /\
     (f a b c e w).2.(w_db).(reminders) = w.(w_db).(reminders)) ->
  let out := processReminder (Some f) r w in
  if scheduled row then
    let claimed := claimed_world r.(re_ID) row w in
    let sent := f r.(re_EventID) r.(re_TargetGroup) "Event reminder" (reminder_body r) claimed in
    out.1 = match sent.1 with Ok _ => Ok () | Err e => Err e end /\
    out.2.(w_db) = set_reminders <[r.(re_ID) := reminder_status_row (outcome_status sent.1)
      (stamp sent.2) (reminder_status_row "processing" (stamp w) row)]> sent.2.(w_db)
  else out.1 = Ok () /\ out.2.(w_db) = w.(w_db).
Proof.
  intros Hf Hr Hc Hq out. destruct (scheduled row) eqn:Hs.
  - intros claimed sent. unfold sent. clear sent.
    destruct (Hq r.(re_EventID) r.(re_TargetGroup) "Event reminder" (reminder_body r) claimed Hf) as [Hf2 Hr2].
    destruct (f _ _ _ _ claimed) as [x w2] eqn:Ef. simpl in Hf2, Hr2.
    assert (w2.(w_db).(reminders) !! r.(re_ID) = Some (reminder_status_row "processing" (stamp w) row)) as Hr3
      by (rewrite Hr2; apply lookup_insert_eq).
    assert (out = (match x with Ok _ => Ok () | Err e => Err e end,
      with_db (set_reminders <[r.(re_ID) := reminder_status_row (outcome_status x) (stamp w2)
        (reminder_status_row "processing" (stamp w) row)]> w2.(w_db)) (tick w2))) as ->; [|by destruct x].
    unfold out, processReminder. erewrite bind_run by (apply Claim_run; done). simpl. fold claimed.
    unfold bind at 1, attempt. rewrite Ef. destruct x as [n|e].
    + rewrite (SetStatus_run _ _ _ _ Hf2 Hr3) by (done || by apply status_check). done.
    + unfold bind, ignore_err. rewrite (SetStatus_run _ _ _ _ Hf2 Hr3) by (done || by apply status_check). done.
  - unfold out, processReminder.
    assert (unscheduled r.(re_ID) w.(w_db)) as Hu by (by exists row).
    destruct (Claim_unscheduled _ _ Hu) as [Hn Hd].
    assert (ClaimForProcessing r.(re_ID) w = (Ok false, tick w)) as Hcl.
    { unfold ClaimForProcessing, now_text.
      erewrite bind_run by (erewrite bind_run by apply now_run; reflexivity).
      erewrite bind_run; [|apply stmt_run; [done|]; unfold update_reminder; simpl; by rewrite Hr, Hs].
      by destruct w. }
    unfold bind. by rewrite Hcl.
Qed.

(** ** Examples *)

Definition demo_reminder : ReminderRow :=
  {| rm_event_id := "ev"; rm_remind_at := demo_text; rm_group := "all"; rm_message := "";
     rm_status := "scheduled"; rm_created_at := demo_text; rm_updated_at := demo_text |}.
Definition reminder_world : World :=
  with_db (set_reminders (fun _ => {["rem" := demo_reminder]}) demo_db) demo_world.
Definition demo_check : string -> string -> M () := fun _ _ => ret ().
(** A delivery that reaches three households. *)
Definition demo_deliver : ReminderDeliveryFunc := fun _ _ _ _ => ret 3.
Definition demo_edit : UpdateReminderRequest := MkUpdateReminder None None (Some "Bring a hat").
Definition demo_reminder_read : Reminder :=
  MkReminder "rem" "ev" demo_start "all" "" "scheduled" demo_start demo_start.

Lemma demo_check_reads e u : reads (demo_check e u).
Proof. by apply respects_ret, _. Qed.
Lemma demo_quiet_delivery : quiet_op (ORun (Some demo_deliver)).
Proof. intros f a b c e [= <-]. by apply respects_ret, _. Qed.

Definition demo_ops : list reminder_op :=
  [OUpdate (Some "org") "rem" (Some demo_edit); ORun (Some demo_deliver); OCancel (Some "org") "rem"].
Definition status_of (id : string) (w : World) : option string := rm_status <$> w.(w_db).(reminders) !! id.


Lemma reminder_claimed_once_witness :
  (@ClaimForProcessing demo_env "rem"
    (@run_calls demo_env [CCancel "rem"; CSetStatus "rem" "failed"; CClaim "rem"]
      (@ClaimForProcessing demo_env "rem" reminder_world).2)).1 <> Ok true.
Proof.
  apply (@reminder_claimed_once demo_env "rem" reminder_world).
  - vm_compute. reflexivity.
  - repeat constructor; discriminate.
Defined.

(** An edit that read the reminder before the job claimed it writes the old status
    back: the next run of the job claims and delivers it again. *)
Example stale_edit_sends_again :
  let w1 := (@ClaimForProcessing demo_env "rem" reminder_world).2 in
  let w2 := (@SetStatus demo_env "rem" "sent" w1).2 in
  let w3 := (@ReminderStore_Update demo_env demo_reminder_read w2).2 in
  (@ReminderStore_FindByID "rem" reminder_world).1 = Ok (Some demo_reminder_read) /\
  (@ClaimForProcessing demo_env "rem" w3).1 = Ok true.
Proof. vm_compute. split; reflexivity. Qed.

Lemma reminder_processed_witness :
  (@processReminder demo_env (Some demo_deliver) demo_reminder_read reminder_world).1 = Ok ().
Proof.
  exact (proj1 (@reminder_processed demo_env demo_deliver demo_reminder_read demo_reminder
    reminder_world eq_refl eq_refl eq_refl (fun a b c e w H => conj H eq_refl))).
Defined.
