(* ===== verification/Cleanup.v ===== *)
(** * The scheduler's jobs: retention and series (internal/scheduler: cleanup.go,
    series_job.go, scheduler.go)

    [CleanupJob] keeps in memory which events it warned about; its callbacks are
    fields.  Deleting an event runs the REFERENCES actions of [AccountDelete].
    [executeJob] is one iteration of a job, whose error is only logged; the scheduler's
    goroutines, their tickers, cancellation and [Stop] are a step relation at the end. *)

From S2P Require Import Prelude.
From S2P Require Import GoStr.
From S2P Require Import GoTime.
From S2P Require Import Schema.
From S2P Require Import Eff.
From S2P Require Import Respect.
From S2P Require Import Demo.
From S2P Require Import Tables.
From S2P Require Import Auth.
From S2P Require Import AccountDelete.
From S2P Require Import Event.
From S2P Require Import Series.
From S2P Require Import AccountDeleteFacts.
From S2P Require Import Reminders.

Local Open Scope Z_scope.

(** [t.AddDate(0, 0, days)] of a time in UTC. *)
Definition add_days (days : Z) (t : time) : time := t + days * ns_per_day.

Record CleanupJob := MkCleanupJob {
  cj_retentionNotify : option (string -> string -> time -> M ());
  cj_onDeleteEvent : option (string -> M ());
  cj_warnedEvents : gset string }.

(** An event, its date and the days it is kept; [None] when the date does not
    parse, which skips the event. *)
Definition expires_at (r : EventRow) : option time :=
  add_days r.(e_retention_days) <$> parse_rfc3339 r.(e_event_date).

Definition warning_threshold : Z := 7 * 24 * hour.

Record WarningEvent := MkWarning {
  we_id : string; we_title : string; we_organizerEmail : string; we_expiresAt : time }.

(** The JOIN of an event with its owners' accounts. *)
Definition owners_of (eventID : string) (d : Database) : list UserRow :=
  omap (fun x => if bool_decide (x.2.(em_event_id) = eventID) && bool_decide (x.2.(em_role) = "owner")
                 then d.(users) !! x.2.(em_user_id) else None) (map_to_list d.(event_memberships)).
Definition unarchived (d : Database) : list (string * EventRow) :=
  select (fun _ r => not_archived r) d.(events).

Definition warning_of (now : time) (x : (string * EventRow) * UserRow) : option WarningEvent :=
  let '((id, r), u) := x in
  expiresAt ← expires_at r;
  let left := expiresAt - now in
  if (0 <? left) && (left <=? warning_threshold)
  then Some (MkWarning id r.(e_title) u.(u_email) expiresAt) else None.

Definition expired (now : time) (r : EventRow) : bool :=
  match expires_at r with Some t => t <? now | None => false end.

Section jobs.
Context `{E : Env}.

(** One warning: the notification, unless the event was warned about before. *)
Definition warn (notify : option (string -> string -> time -> M ())) (warned : gset string)
    (ev : WarningEvent) : M (gset string) :=
  if bool_decide (ev.(we_id) ∈ warned) then ret warned else
  match notify with
  | Some f => if bool_decide (ev.(we_organizerEmail) = "") then ret ()
              else ignore_err (f ev.(we_organizerEmail) ev.(we_title) ev.(we_expiresAt))
  | None => ret ()
  end ;;;
  ret ({[ev.(we_id)]} ∪ warned).

Definition warnExpiring (j : CleanupJob) : M (gset string) :=
  t <- now ;;
  rows <- query "query expiring events" (fun d =>
    mbind (fun x => map (pair x) (owners_of x.1 d)) (unarchived d)) ;;
  foldM (warn j.(cj_retentionNotify)) j.(cj_warnedEvents) (omap (warning_of t) rows).

(** One event of the transaction: the error of the statement is only logged. *)
Definition delete_expired_event (onDelete : option (string -> M ())) (id : string) : M () :=
  match onDelete with Some f => ignore_err (f id) | None => ret () end ;;;
  ignore_err (exec "delete expired event" (delete_events (fun k => bool_decide (k = id)))).

Definition deleteExpired (j : CleanupJob) : M () :=
  t <- now ;;
  rows <- query "query expired events" unarchived ;;
  let ids := map fst (List.filter (fun x => expired t x.2) rows) in
  if bool_decide (ids = []) then ret () else
  with_tx "begin tx" "commit tx" (forM ids (delete_expired_event j.(cj_onDeleteEvent))).

(** [CleanupJob.Run]: the set of warned events after it and the error it returns. *)
Definition Cleanup_Run (j : CleanupJob) : M (gset string * option err) :=
  w <- attempt (warnExpiring j) ;;
  r <- attempt (deleteExpired j) ;;
  ret (match w with Ok warned => warned | Err _ => j.(cj_warnedEvents) end,
       match r with Ok _ => None | Err _ => Some (EInternal "delete expired events") end).

(** [SeriesGeneratorJob.Run]. *)
Definition SeriesJob_Run (s : SeriesService) : M () := GenerateOccurrencesForAll s.

(** One iteration of any job. *)
Definition executeJob {A} (run : M A) : M () := ignore_err run.
End jobs.

(** ** What the retention cleanup deletes and what it keeps *)

(** ** Deleting one event *)

Definition only (id : string) : string -> bool := fun k => bool_decide (k = id).

(** The households and webhooks of an event, and references to it or to none. *)
Definition of_event (d : Database) (e k : string) : Prop :=
  exists i, d.(invitations) !! k = Some i /\ i.(i_event_id) = e.
Definition guest_of_event (d : Database) (e k : string) : Prop :=
  exists g, d.(guests) !! k = Some g /\ of_event d e g.(g_invitation_id).
Definition response_of_event (d : Database) (e k : string) : Prop :=
  exists r, d.(rsvp_responses) !! k = Some r /\ of_event d e r.(r_invitation_id).
Definition webhook_of_event (d : Database) (e k : string) : Prop :=
  exists x, d.(webhooks) !! k = Some x /\ x.(wh_event_id) = e.
(** The rows of a table for which [P] are kept. *)
Definition rows_kept {R} (P : R -> Prop) (t t' : gmap string R) : Prop :=
  forall k r, t !! k = Some r -> P r -> t' !! k = Some r.

(** The rows of event [e], of its households and of everything below it are what they
    were, in every table, and so are the rows that refer to no event. *)
Record event_kept (e : string) (d d' : Database) : Prop := {
  ek_event : d'.(events) !! e = d.(events) !! e;
  ek_question : rows_kept (fun q => q.(q_event_id) = e) d.(event_questions) d'.(event_questions);
  ek_open : rows_kept (fun o => o.(o_event_id) = e) d.(open_enrollments) d'.(open_enrollments);
  ek_invitation : rows_kept (fun i => i.(i_event_id) = e) d.(invitations) d'.(invitations);
  ek_guest : rows_kept (fun g => of_event d e g.(g_invitation_id)) d.(guests) d'.(guests);
  ek_response : rows_kept (fun r => of_event d e r.(r_invitation_id)) d.(rsvp_responses) d'.(rsvp_responses);
  ek_guest_response : rows_kept (fun r => response_of_event d e r.(gr_response_id) /\
      guest_of_event d e r.(gr_guest_id)) d.(guest_responses) d'.(guest_responses);
  ek_answer : rows_kept (fun a => of_event d e a.(ia_invitation_id))
      d.(invitation_answers) d'.(invitation_answers);
  ek_guest_answer : rows_kept (fun a => guest_of_event d e a.(ga_guest_id)) d.(guest_answers) d'.(guest_answers);
  ek_session : rows_kept (fun s => of_event d e s.(s_invitation_id))
      d.(invitation_sessions) d'.(invitation_sessions);
  ek_recovery : rows_kept (fun t => of_event d e t.(rt_invitation_id))
      d.(invitation_recovery_tokens) d'.(invitation_recovery_tokens);
  ek_attempt : rows_kept (fun a => a.(ra_event_id) = e)
      d.(invitation_recovery_attempts) d'.(invitation_recovery_attempts);
  ek_message : rows_kept (fun m => m.(m_event_id) = e) d.(invitation_messages) d'.(invitation_messages);
  ek_card : rows_kept (fun c => c.(c_event_id) = e) d.(invite_cards) d'.(invite_cards);
  ek_log : rows_kept (fun l => l.(l_event_id) = e /\ forall i, l.(l_invitation_id) = Some i -> of_event d e i)
      d.(notification_log) d'.(notification_log);
  ek_reminder : rows_kept (fun r => r.(rm_event_id) = e) d.(reminders) d'.(reminders);
  ek_webhook : rows_kept (fun x => x.(wh_event_id) = e) d.(webhooks) d'.(webhooks);
  ek_delivery : rows_kept (fun x => webhook_of_event d e x.(wd_webhook_id))
      d.(webhook_deliveries) d'.(webhook_deliveries);
  ek_suppression : rows_kept (fun x => x.(sp_event_id) = None \/ x.(sp_event_id) = Some e)
      d.(email_suppressions) d'.(email_suppressions);
  ek_token : rows_kept (fun x => x.(ut_event_id) = None \/ x.(ut_event_id) = Some e)
      d.(unsubscribe_tokens) d'.(unsubscribe_tokens);
  ek_member : rows_kept (fun m => m.(em_event_id) = e) d.(event_memberships) d'.(event_memberships);
  ek_invite : rows_kept (fun a => a.(ai_event_id) = None \/ a.(ai_event_id) = Some e)
      d.(account_invites) d'.(account_invites);
  ek_audit : rows_kept (fun a => a.(al_event) = None \/ a.(al_event) = Some e)
      d.(admin_audit_log) d'.(admin_audit_log);
  ek_users : d'.(users) = d.(users);
  ek_links : d'.(magic_links) = d.(magic_links);
  ek_logins : d'.(sessions) = d.(sessions);
  ek_series : d'.(event_series) = d.(event_series);
  ek_instances : d'.(instances) = d.(instances) }.

Lemma rows_kept_trans {R} (P P' : R -> Prop) t1 t2 t3 :
  (forall r, P r -> P' r) -> rows_kept P t1 t2 -> rows_kept P' t2 t3 -> rows_kept P t1 t3.
Proof. intros HP H12 H23 k r Hk Hr. eauto. Qed.
#[global] Instance event_kept_preorder e : PreOrder (event_kept e).
Proof.
  split; [intros d; split; try done; by intros k r Hk _|]. intros d1 d2 d3 H12 H23.
  assert (forall k, of_event d1 e k -> of_event d2 e k) as Hinv
    by (intros k (i & Hi & He); exists i; split; [by eapply ek_invitation|done]).
  assert (forall k, guest_of_event d1 e k -> guest_of_event d2 e k) as Hg
    by (intros k (g & Hgk & He); exists g; split; [by eapply ek_guest|auto]).
  assert (forall k, response_of_event d1 e k -> response_of_event d2 e k) as Hr
    by (intros k (r & Hrk & He); exists r; split; [by eapply ek_response|auto]).
  assert (forall k, webhook_of_event d1 e k -> webhook_of_event d2 e k) as Hw
    by (intros k (x & Hx & He); exists x; split; [by eapply ek_webhook|done]).
  destruct H12, H23. split; try congruence; (eapply rows_kept_trans; [|eassumption..]);
    simpl; intros r; naive_solver.
Qed.

(** Answers are to questions of the event of their household. *)
Definition answers_local (d : Database) : Prop :=
  (forall k a, d.(invitation_answers) !! k = Some a ->
    exists i q, d.(invitations) !! a.(ia_invitation_id) = Some i /\
      d.(event_questions) !! a.(ia_question_id) = Some q /\ q.(q_event_id) = i.(i_event_id)) /\
  (forall k a, d.(guest_answers) !! k = Some a ->
    exists g i q, d.(guests) !! a.(ga_guest_id) = Some g /\ d.(invitations) !! g.(g_invitation_id) = Some i /\
      d.(event_questions) !! a.(ga_question_id) = Some q /\ q.(q_event_id) = i.(i_event_id)).

Section one.
Context (id : string) (d d' : Database)
  (Hd : d' = cascade_events (set_events (delete_where (fun k _ => only id k)) d)).
Local Notation es := d'.(events).
Local Notation opens := d'.(open_enrollments).

Lemma es_lookup e r : es !! e = Some r <-> d.(events) !! e = Some r /\ e <> id.
Proof.
  rewrite Hd. change (delete_where (fun k _ => only id k) d.(events) !! e = Some r
    <-> d.(events) !! e = Some r /\ e <> id).
  rewrite (lookup_delete_where (fun k _ => only id k)). unfold only. by rewrite bool_decide_eq_false.
Qed.
(** The tables after the statement. *)
Let es0 := delete_where (fun k _ => only id k) d.(events).
Let open0 := cascade o_event_id es0 d.(open_enrollments).
Let inv0 := delete_where (fun _ i => gone es0 i.(i_event_id) || gone_opt open0 i.(i_open_id)) d.(invitations).
Let guests0 := cascade g_invitation_id inv0 d.(guests).
Let resp0 := cascade r_invitation_id inv0 d.(rsvp_responses).
Record tables_after : Prop := {
  ta_open : opens = cascade o_event_id es d.(open_enrollments);
  ta_invitations : d'.(invitations) =
    delete_where (fun _ i => gone es i.(i_event_id) || gone_opt opens i.(i_open_id)) d.(invitations);
  ta_guests : d'.(guests) = cascade g_invitation_id d'.(invitations) d.(guests);
  ta_responses : d'.(rsvp_responses) = cascade r_invitation_id d'.(invitations) d.(rsvp_responses);
  ta_guest_responses : d'.(guest_responses) =
    delete_where (fun _ g => gone d'.(rsvp_responses) g.(gr_response_id) || gone d'.(guests) g.(gr_guest_id))
      d.(guest_responses);
  ta_sessions : d'.(invitation_sessions) = cascade s_invitation_id d'.(invitations) d.(invitation_sessions);
  ta_recovery : d'.(invitation_recovery_tokens) =
    cascade rt_invitation_id d'.(invitations) d.(invitation_recovery_tokens);
  ta_attempts : d'.(invitation_recovery_attempts) = cascade ra_event_id es d.(invitation_recovery_attempts);
  ta_answers : d'.(invitation_answers) = cascade ia_invitation_id d'.(invitations) d.(invitation_answers);
  ta_guest_answers : d'.(guest_answers) = cascade ga_guest_id d'.(guests) d.(guest_answers);
  ta_questions : d'.(event_questions) = cascade q_event_id es d.(event_questions);
  ta_messages : d'.(invitation_messages) = cascade m_event_id es d.(invitation_messages);
  ta_cards : d'.(invite_cards) = cascade c_event_id es d.(invite_cards);
  ta_log : d'.(notification_log) =
    log_event_row d'.(invitations) <$> cascade l_event_id es d.(notification_log);
  ta_reminders : d'.(reminders) = cascade rm_event_id es d.(reminders);
  ta_webhooks : d'.(webhooks) = cascade wh_event_id es d.(webhooks);
  ta_deliveries : d'.(webhook_deliveries) = cascade wd_webhook_id d'.(webhooks) d.(webhook_deliveries);
  ta_suppressions : d'.(email_suppressions) =
    delete_where (fun _ x => gone_opt es x.(sp_event_id)) d.(email_suppressions);
  ta_tokens : d'.(unsubscribe_tokens) =
    delete_where (fun _ x => gone_opt es x.(ut_event_id)) d.(unsubscribe_tokens);
  ta_members : d'.(event_memberships) = cascade em_event_id es d.(event_memberships);
  ta_invites : d'.(account_invites) =
    delete_where (fun _ a => gone_opt es a.(ai_event_id)) d.(account_invites);
  ta_audit : d'.(admin_audit_log) = audit_event_row es <$> d.(admin_audit_log);
  ta_accounts : d'.(users) = d.(users) /\ d'.(magic_links) = d.(magic_links) /\ d'.(sessions) = d.(sessions) /\
    d'.(event_series) = d.(event_series) /\ d'.(instances) = d.(instances) }.
Lemma step_tables : tables_after.
Proof.
  assert (es = es0) as He by (rewrite Hd; reflexivity).
  assert (opens = open0) as Ho by (rewrite Hd; reflexivity).
  assert (d'.(invitations) = inv0) as Hi by (rewrite Hd; reflexivity).
  assert (d'.(guests) = guests0) as Hg by (rewrite Hd; reflexivity).
  assert (d'.(rsvp_responses) = resp0) as Hr by (rewrite Hd; reflexivity).
  assert (d'.(webhooks) = cascade wh_event_id es0 d.(webhooks)) as Hw by (rewrite Hd; reflexivity).
  split; rewrite ?He, ?Ho, ?Hi, ?Hg, ?Hr, ?Hw; try reflexivity; rewrite Hd; [reflexivity..|].
  split_and!; reflexivity.
Qed.
Lemma step_below {R P} (t t' : gmap string R) (f : R -> string) (parents : gmap string P) :
  t' = cascade f parents t ->
  forall k r, t' !! k = Some r <-> t !! k = Some r /\ is_Some (parents !! f r).
Proof. intros ->. apply lookup_cascade. Qed.
Lemma es_other e : e <> id -> es !! e = d.(events) !! e.
Proof.
  intros Hn. destruct (d.(events) !! e) as [r|] eqn:Hr; [by apply es_lookup|].
  apply eq_None_not_Some. intros [r [Hr' _]%es_lookup]. congruence.
Qed.

Lemma step_invitation k i :
  d'.(invitations) !! k = Some i <->
  d.(invitations) !! k = Some i /\ is_Some (es !! i.(i_event_id)) /\ gone_opt opens i.(i_open_id) = false.
Proof.
  rewrite (ta_invitations step_tables), lookup_delete_where, orb_false_iff.
  unfold gone at 1. by rewrite negb_false_iff, has_spec.
Qed.
Lemma step_open k o : opens !! k = Some o <-> d.(open_enrollments) !! k = Some o /\ is_Some (es !! o.(o_event_id)).
Proof. exact (step_below _ _ _ _ (ta_open step_tables) k o). Qed.
Lemma step_invitation_stays k i :
  open_linked d -> d.(invitations) !! k = Some i -> is_Some (es !! i.(i_event_id)) ->
  d'.(invitations) !! k = Some i.
Proof.
  intros Ho Hk He. apply step_invitation. split; [done|]. split; [done|].
  destruct (i_open_id i) as [o|] eqn:Eo; [|done]. simpl. unfold gone.
  apply negb_false_iff, has_spec. destruct (Ho _ _ _ Hk Eo) as (r & Hr & Heq).
  exists r. apply step_open. by rewrite Heq.
Qed.
Lemma step_question k q : d'.(event_questions) !! k = Some q <->
  d.(event_questions) !! k = Some q /\ is_Some (es !! q.(q_event_id)).
Proof. exact (step_below _ _ _ _ (ta_questions step_tables) k q). Qed.

Lemma step_open_linked : open_linked d -> open_linked d'.
Proof.
  intros Ho k i o Hk Eo. apply step_invitation in Hk as (Hk & _ & Hg).
  destruct (Ho _ _ _ Hk Eo) as (r & Hr & Heq). exists r. split; [|done]. rewrite Eo in Hg.
  simpl in Hg. unfold gone in Hg. apply negb_false_iff, has_spec in Hg as [x Hx].
  pose proof (proj1 (step_open _ _) Hx) as [Hx' _]. congruence.
Qed.
Lemma step_answers : answers_local d -> answers_local d'.
Proof.
  pose proof (ta_guests step_tables) as Hgs. pose proof (ta_answers step_tables) as Hia.
  pose proof (ta_guest_answers step_tables) as Hga. intros [Hi Hg]. split.
  - intros k a Ha. apply (step_below _ _ _ _ Hia) in Ha as [Hk [i Hi']].
    destruct (Hi _ _ Hk) as (i0 & q & H1 & H2 & Heq).
    pose proof (proj1 (step_invitation _ _) Hi') as (H1' & He & _). rewrite H1 in H1'.
    injection H1' as <-. exists i0, q. split; [exact Hi'|]. split; [|exact Heq].
    apply step_question. by rewrite Heq.
  - intros k a Ha. apply (step_below _ _ _ _ Hga) in Ha as [Hk [g Hg']].
    destruct (Hg _ _ Hk) as (g0 & i0 & q & H0 & H1 & H2 & Heq).
    pose proof (proj1 (step_below _ _ _ _ Hgs _ _) Hg') as (H0' & i & Hi'). rewrite H0 in H0'.
    injection H0' as <-. pose proof (proj1 (step_invitation _ _) Hi') as (H1' & He & _).
    rewrite H1 in H1'. injection H1' as <-.
    exists g0, i0, q. split; [exact Hg'|]. split; [exact Hi'|]. split; [|exact Heq].
    apply step_question. by rewrite Heq.
Qed.
Lemma step_resolves : answers_local d -> answers_resolve d' = true.
Proof.
  intros Hl. destruct (step_answers Hl) as [Hi Hg]. unfold answers_resolve. apply andb_true_iff.
  split; apply forallb_forall; intros [k a] Ha%list_elem_of_In%elem_of_map_to_list; apply has_spec; simpl.
  - destruct (Hi _ _ Ha) as (_ & q & _ & Hq & _). by exists q.
  - destruct (Hg _ _ Ha) as (_ & _ & q & _ & _ & Hq & _). by exists q.
Qed.

Lemma step_kept e : open_linked d -> e <> id -> is_Some (d.(events) !! e) -> event_kept e d d'.
Proof.
  intros Ho Hn [r Hr]. assert (es !! e = Some r) as Hr' by (by apply es_lookup).
  assert (is_Some (es !! e)) as He by (by exists r).
  assert (forall k i, d.(invitations) !! k = Some i -> i.(i_event_id) = e -> d'.(invitations) !! k = Some i) as Hinv.
  { intros k i Hk Heq. apply step_invitation_stays; [done|done|by rewrite Heq]. }
  assert (forall k, of_event d e k -> is_Some (d'.(invitations) !! k)) as Hof
    by (intros k (i & Hi & Heq); exists i; eauto).
  assert (forall k, guest_of_event d e k -> is_Some (d'.(guests) !! k)) as Hgu.
  { intros k (g & Hk & Hi). exists g. apply (step_below _ _ _ _ (ta_guests step_tables)). eauto. }
  assert (forall k, response_of_event d e k -> is_Some (d'.(rsvp_responses) !! k)) as Hre.
  { intros k (x & Hk & Hi). exists x. apply (step_below _ _ _ _ (ta_responses step_tables)). eauto. }
  assert (forall k, webhook_of_event d e k -> is_Some (d'.(webhooks) !! k)) as Hwe.
  { intros k (x & Hk & Heq). exists x. apply (step_below _ _ _ _ (ta_webhooks step_tables)). by rewrite Heq. }
  assert (forall o, o = None \/ o = Some e -> gone_opt es o = false) as Hgo.
  { intros o [->| ->]; [done|]. unfold gone_opt, gone. by apply negb_false_iff, has_spec. }
  assert (forall {R} (t t' : gmap string R) f, t' = cascade f es t -> rows_kept (fun r => f r = e) t t') as Hdirect.
  { intros R t t' f Ht k x Hk Heq. apply (step_below _ _ _ _ Ht). by rewrite Heq. }
  destruct (ta_accounts step_tables) as (Hu & Hl & Hs & Hse & Hin). split; try done.
  - congruence.
  - apply Hdirect, (ta_questions step_tables).
  - apply Hdirect, (ta_open step_tables).
  - intros k g Hk Hi. apply (step_below _ _ _ _ (ta_guests step_tables)). eauto.
  - intros k x Hk Hi. apply (step_below _ _ _ _ (ta_responses step_tables)). eauto.
  - intros k x Hk [Hx Hg]. rewrite (ta_guest_responses step_tables). apply lookup_delete_where. split; [done|].
    apply orb_false_iff. unfold gone. rewrite !negb_false_iff, !has_spec. auto.
  - intros k x Hk Hi. apply (step_below _ _ _ _ (ta_answers step_tables)). eauto.
  - intros k x Hk Hi. apply (step_below _ _ _ _ (ta_guest_answers step_tables)). eauto.
  - intros k x Hk Hi. apply (step_below _ _ _ _ (ta_sessions step_tables)). eauto.
  - intros k x Hk Hi. apply (step_below _ _ _ _ (ta_recovery step_tables)). eauto.
  - apply Hdirect, (ta_attempts step_tables).
  - apply Hdirect, (ta_messages step_tables).
  - apply Hdirect, (ta_cards step_tables).
  - intros k l Hk [Heq Hi]. rewrite (ta_log step_tables), lookup_fmap.
    rewrite (proj2 (step_below _ _ _ _ eq_refl k l)) by (by rewrite Heq). simpl. f_equal.
    unfold log_event_row, or_null. destruct l as [? [i|]]; simpl in *; [|done].
    by rewrite (proj2 (has_spec _ _) (Hof _ (Hi _ eq_refl))).
  - apply Hdirect, (ta_reminders step_tables).
  - apply Hdirect, (ta_webhooks step_tables).
  - intros k x Hk Hi. apply (step_below _ _ _ _ (ta_deliveries step_tables)). eauto.
  - intros k x Hk Hx. rewrite (ta_suppressions step_tables). apply lookup_delete_where. auto.
  - intros k x Hk Hx. rewrite (ta_tokens step_tables). apply lookup_delete_where. auto.
  - apply Hdirect, (ta_members step_tables).
  - intros k x Hk Hx. rewrite (ta_invites step_tables). apply lookup_delete_where. auto.
  - intros k x Hk Hx. rewrite (ta_audit step_tables), lookup_fmap, Hk. simpl. f_equal.
    unfold audit_event_row, or_null. destruct x as [? ? ? ? o ? ?]; simpl in *. f_equal.
    destruct Hx as [->| ->]; [done|]. simpl. by rewrite (proj2 (has_spec _ _) He).
Qed.

(** No row of any table belongs to event [e]: those that name an event name another or
    none, and those below a household, a response, a guest or a webhook are below one
    that is there. *)
Record no_trace (e : string) (d : Database) : Prop := {
  nt_event : d.(events) !! e = None;
  nt_question k r : d.(event_questions) !! k = Some r -> r.(q_event_id) <> e;
  nt_open k r : d.(open_enrollments) !! k = Some r -> r.(o_event_id) <> e;
  nt_invitation k r : d.(invitations) !! k = Some r -> r.(i_event_id) <> e;
  nt_guest k r : d.(guests) !! k = Some r -> is_Some (d.(invitations) !! r.(g_invitation_id));
  nt_response k r : d.(rsvp_responses) !! k = Some r -> is_Some (d.(invitations) !! r.(r_invitation_id));
  nt_guest_response k r : d.(guest_responses) !! k = Some r ->
    is_Some (d.(rsvp_responses) !! r.(gr_response_id)) /\ is_Some (d.(guests) !! r.(gr_guest_id));
  nt_answer k r : d.(invitation_answers) !! k = Some r -> is_Some (d.(invitations) !! r.(ia_invitation_id));
  nt_guest_answer k r : d.(guest_answers) !! k = Some r -> is_Some (d.(guests) !! r.(ga_guest_id));
  nt_session k r : d.(invitation_sessions) !! k = Some r -> is_Some (d.(invitations) !! r.(s_invitation_id));
  nt_recovery k r : d.(invitation_recovery_tokens) !! k = Some r ->
    is_Some (d.(invitations) !! r.(rt_invitation_id));
  nt_attempt k r : d.(invitation_recovery_attempts) !! k = Some r -> r.(ra_event_id) <> e;
  nt_message k r : d.(invitation_messages) !! k = Some r -> r.(m_event_id) <> e;
  nt_card k r : d.(invite_cards) !! k = Some r -> r.(c_event_id) <> e;
  nt_log k r : d.(notification_log) !! k = Some r -> r.(l_event_id) <> e /\
    forall i, r.(l_invitation_id) = Some i -> is_Some (d.(invitations) !! i);
  nt_reminder k r : d.(reminders) !! k = Some r -> r.(rm_event_id) <> e;
  nt_webhook k r : d.(webhooks) !! k = Some r -> r.(wh_event_id) <> e;
  nt_delivery k r : d.(webhook_deliveries) !! k = Some r -> is_Some (d.(webhooks) !! r.(wd_webhook_id));
  nt_suppression k r : d.(email_suppressions) !! k = Some r -> r.(sp_event_id) <> Some e;
  nt_token k r : d.(unsubscribe_tokens) !! k = Some r -> r.(ut_event_id) <> Some e;
  nt_member k r : d.(event_memberships) !! k = Some r -> r.(em_event_id) <> e;
  nt_invite k r : d.(account_invites) !! k = Some r -> r.(ai_event_id) <> Some e;
  nt_audit k r : d.(admin_audit_log) !! k = Some r -> r.(al_event) <> Some e }.
Lemma step_no_trace e : es !! e = None -> no_trace e d'.
Proof.
  intros He. assert (forall x, is_Some (es !! x) -> x <> e) as Hx by (intros x [r Hr] ->; congruence).
  assert (forall o, gone_opt es o = false -> o <> Some e) as Hg.
  { intros o Ho ->. simpl in Ho. unfold gone in Ho. apply negb_false_iff, has_spec in Ho. by apply Hx in Ho. }
  pose proof step_tables as T. split; [done|..]; intros k r Hr.
  - by apply Hx; apply (step_below _ _ _ _ (ta_questions T)) in Hr as [_ ?].
  - by apply Hx; apply (step_below _ _ _ _ (ta_open T)) in Hr as [_ ?].
  - by apply Hx; apply step_invitation in Hr as (_ & ? & _).
  - by apply (step_below _ _ _ _ (ta_guests T)) in Hr as [_ ?].
  - by apply (step_below _ _ _ _ (ta_responses T)) in Hr as [_ ?].
  - rewrite (ta_guest_responses T) in Hr.
    apply lookup_delete_where in Hr as [_ [H1 H2]%orb_false_iff]. unfold gone in *.
    apply negb_false_iff, has_spec in H1, H2. done.
  - by apply (step_below _ _ _ _ (ta_answers T)) in Hr as [_ ?].
  - by apply (step_below _ _ _ _ (ta_guest_answers T)) in Hr as [_ ?].
  - by apply (step_below _ _ _ _ (ta_sessions T)) in Hr as [_ ?].
  - by apply (step_below _ _ _ _ (ta_recovery T)) in Hr as [_ ?].
  - by apply Hx; apply (step_below _ _ _ _ (ta_attempts T)) in Hr as [_ ?].
  - by apply Hx; apply (step_below _ _ _ _ (ta_messages T)) in Hr as [_ ?].
  - by apply Hx; apply (step_below _ _ _ _ (ta_cards T)) in Hr as [_ ?].
  - rewrite (ta_log T) in Hr. apply lookup_fmap_Some in Hr as (r0 & <- & [_ Hs]%lookup_cascade).
    split; [by apply Hx|]. simpl. unfold or_null. destruct (l_invitation_id r0) as [j|]; [|done]. simpl.
    destruct (has j _) eqn:Hj; [|done]. intros i [= <-]. by apply has_spec.
  - by apply Hx; apply (step_below _ _ _ _ (ta_reminders T)) in Hr as [_ ?].
  - by apply Hx; apply (step_below _ _ _ _ (ta_webhooks T)) in Hr as [_ ?].
  - by apply (step_below _ _ _ _ (ta_deliveries T)) in Hr as [_ ?].
  - rewrite (ta_suppressions T) in Hr. by apply lookup_delete_where in Hr as [_ ?%Hg].
  - rewrite (ta_tokens T) in Hr. by apply lookup_delete_where in Hr as [_ ?%Hg].
  - by apply Hx; apply (step_below _ _ _ _ (ta_members T)) in Hr as [_ ?].
  - rewrite (ta_invites T) in Hr. by apply lookup_delete_where in Hr as [_ ?%Hg].
  - rewrite (ta_audit T) in Hr. apply lookup_fmap_Some in Hr as (r0 & <- & _). simpl. unfold or_null.
    destruct (al_event r0) as [x|]; [|done]. simpl. destruct (has x es) eqn:Hh; [|done].
    intros [= ->]. apply has_spec in Hh. by apply Hx in Hh.
Qed.
End one.

(** ** A run *)

(** What the deletion of some of the events [ids] keeps. *)
Definition cleaned (ids : list string) (d d' : Database) : Prop :=
  (open_linked d -> open_linked d') /\ (answers_local d -> answers_local d') /\
  (forall e, is_Some (d'.(events) !! e) -> is_Some (d.(events) !! e)) /\
  (open_linked d -> forall e, e ∉ ids -> is_Some (d.(events) !! e) -> event_kept e d d').
#[global] Instance cleaned_preorder ids : PreOrder (cleaned ids).
Proof.
  split; [by intros d; split_and!|]. intros d1 d2 d3 (O1 & A1 & E1 & K1) (O2 & A2 & E2 & K2).
  split_and!; auto. intros Ho e He Hs. etrans; [by apply K1|].
  apply K2; [auto|done|]. by rewrite (ek_event _ _ _ (K1 Ho e He Hs)).
Qed.

Lemma delete_cleaned ids id d d' :
  id ∈ ids -> delete_events (only id) d = Some d' -> cleaned ids d d'.
Proof.
  intros Hid Hd%delete_events_ok. split_and!.
  - by eapply step_open_linked.
  - by eapply step_answers.
  - intros e [r Hr]. apply (es_lookup _ _ _ Hd) in Hr as [Hr _]. by exists r.
  - intros Ho e He Hs. eapply step_kept; [done|done|congruence|done].
Qed.

Section run.
Context `{E : Env} (j : CleanupJob)
  (Hcb : forall f e, j.(cj_onDeleteEvent) = Some f -> reads (f e)).

Lemma delete_expired_cleaned ids id :
  id ∈ ids -> respects (cleaned ids) (delete_expired_event j.(cj_onDeleteEvent) id).
Proof.
  intros Hid. unfold delete_expired_event. respect_reply.
  - apply reads_respects; [apply _|]. by eapply Hcb.
  - intros Hd. by eapply delete_cleaned.
Qed.

Definition expired_ids (now : time) (d : Database) : list string :=
  map fst (List.filter (fun x => expired now x.2) (unarchived d)).
Lemma expired_ids_spec now d e :
  e ∈ expired_ids now d <->
  exists r, d.(events) !! e = Some r /\ not_archived r = true /\ expired now r = true.
Proof.
  unfold expired_ids, unarchived. rewrite list_elem_of_fmap. split.
  - intros ([k r] & -> & Hx). apply list_elem_of_In, filter_In in Hx as [Hx He].
    apply list_elem_of_In, elem_of_select in Hx as [Hk Ha]. by exists r.
  - intros (r & Hr & Ha & He). exists (e, r). split; [done|]. apply list_elem_of_In, filter_In.
    split; [|done]. apply list_elem_of_In, elem_of_select. done.
Qed.

Lemma deleteExpired_cleaned w :
  cleaned (expired_ids (clock w.(w_clock)) w.(w_db)) w.(w_db) (deleteExpired j w).2.(w_db).
Proof.
  set (ids := expired_ids _ _).
  change (wp (deleteExpired j) (fun _ w' => cleaned ids w.(w_db) w'.(w_db)) w).
  unfold deleteExpired. apply wp_bind, wp_now. intros w1 [Hd1 _] _. apply wp_bind, wp_query.
  - intros w2 [Hd2 _] _. by rewrite Hd2, Hd1.
  - intros w2 [Hd2 _]. rewrite Hd1. fold (expired_ids (clock w.(w_clock)) w.(w_db)). fold ids.
    case_bool_decide; [apply wp_ret; by rewrite Hd2, Hd1|]. rewrite <- Hd1, <- Hd2.
    assert (respects (cleaned ids) (with_tx "begin tx" "commit tx"
      (forM ids (delete_expired_event (cj_onDeleteEvent j))))) as Hr; [|apply Hr].
    respect. by apply delete_expired_cleaned.
Qed.
End run.

(** ** Runs without faults *)

Section complete.
Context `{E : Env} (j : CleanupJob).

(** The callbacks read at most, and do not touch the driver. *)
Definition quiet_callback : Prop := forall f e w, j.(cj_onDeleteEvent) = Some f ->
  (f e w).2.(w_db) = w.(w_db) /\ (w.(w_faults) = [] -> (f e w).2.(w_faults) = []).

Lemma delete_expired_run id w :
  quiet_callback -> w.(w_faults) = [] -> answers_local w.(w_db) ->
  exists w', delete_expired_event j.(cj_onDeleteEvent) id w = (Ok (), w') /\ w'.(w_faults) = [] /\
    delete_events (only id) w.(w_db) = Some w'.(w_db).
Proof.
  intros Hq Hf Hl. unfold delete_expired_event.
  assert (exists w1, (match j.(cj_onDeleteEvent) with Some f => ignore_err (f id) | None => ret () end) w
    = (Ok (), w1) /\ w1.(w_db) = w.(w_db) /\ w1.(w_faults) = []) as (w1 & Hr & Hd & Hf1).
  { destruct (cj_onDeleteEvent j) as [f|] eqn:Ef; [|by exists w]. exists (f id w).2.
    destruct (Hq f id w Ef) as [? ?]. split_and!; auto. }
  erewrite bind_run by exact Hr. unfold ignore_err.
  destruct (delete_events (only id) w.(w_db)) as [d'|] eqn:Hdel.
  - erewrite exec_run; [|exact Hf1|rewrite Hd; exact Hdel]. simpl. eexists. split; [reflexivity|]. done.
  - exfalso. unfold delete_events in Hdel.
    erewrite (step_resolves id w.(w_db)) in Hdel; [discriminate Hdel|reflexivity|exact Hl].
Qed.

Lemma delete_traces id e d d' :
  delete_events (only id) d = Some d' -> no_trace e d \/ e = id -> no_trace e d'.
Proof.
  intros Hd%delete_events_ok He. eapply step_no_trace; [exact Hd|].
  apply eq_None_not_Some. intros [r Hr]. apply (es_lookup _ _ _ Hd) in Hr as [Hr Hn].
  destruct He as [He| ->]; [|done]. rewrite (nt_event _ _ He) in Hr. done.
Qed.
Lemma delete_loop_run ids w :
  quiet_callback -> w.(w_faults) = [] -> answers_local w.(w_db) ->
  exists w', forM ids (delete_expired_event j.(cj_onDeleteEvent)) w = (Ok (), w') /\ w'.(w_faults) = [] /\
    forall e, no_trace e w.(w_db) \/ e ∈ ids -> no_trace e w'.(w_db).
Proof.
  intros Hq. revert w. induction ids as [|id ids IH]; intros w Hf Hl.
  - exists w. split_and!; [done|done|]. intros e [He|He]; [done|]. by apply elem_of_nil in He.
  - destruct (delete_expired_run id w Hq Hf Hl) as (w1 & Hr & Hf1 & Hd).
    assert (answers_local w1.(w_db)) as Hl1.
    { pose proof (delete_events_ok _ _ _ Hd) as Hd'. by eapply step_answers. }
    destruct (IH w1 Hf1 Hl1) as (w' & Hr' & Hf' & Ht). exists w'. split_and!; [|done|].
    + unfold forM. simpl. erewrite bind_run by exact Hr. exact Hr'.
    + intros e He. apply Ht. rewrite elem_of_cons in He. destruct He as [He|[->|He]]; [left|left|by right];
        eapply delete_traces; eauto.
Qed.

Lemma deleteExpired_run w :
  quiet_callback -> w.(w_faults) = [] -> answers_local w.(w_db) ->
  exists w', deleteExpired j w = (Ok (), w') /\
    forall e, e ∈ expired_ids (clock w.(w_clock)) w.(w_db) -> no_trace e w'.(w_db).
Proof.
  intros Hq Hf Hl. unfold deleteExpired. erewrite bind_run by apply now_run.
  erewrite bind_run by (by apply query_run). simpl.
  change (map fst _) with (expired_ids (clock w.(w_clock)) w.(w_db)).
  case_bool_decide as Hn.
  - eexists. split; [reflexivity|]. rewrite Hn. intros e He. by apply elem_of_nil in He.
  - destruct (delete_loop_run (expired_ids (clock w.(w_clock)) w.(w_db)) (tick w) Hq Hf Hl) as (w' & Hr & Hf' & Ht).
    exists w'. split; [by apply with_tx_run|]. intros e He. apply Ht. by right.
Qed.
End complete.


(** ** An example: one event is over, one is not *)

Definition cleanup_job : CleanupJob := MkCleanupJob None None ∅.
Definition past_event : EventRow :=
  {| e_title := "Old"; e_description := ""; e_event_date := "2025-01-01T00:00:00Z";
     e_end_date := None; e_location := ""; e_timezone := "UTC"; e_status := "published";
     e_retention_days := 30; e_show_headcount := false; e_show_guest_list := false;
     e_rsvp_deadline := None; e_series_id := None; e_series_index := None;
     e_series_override := false; e_created_at := demo_text; e_updated_at := demo_text |}.
Definition cleanup_world : World :=
  with_db (set_events (fun _ => {["ev" := demo_event; "old" := past_event]}) demo_db) demo_world.


(** ** The scheduler's goroutines (scheduler.go)

    One goroutine per job, as the steps it takes: the first iteration, then a loop
    that waits for the context or the ticker, whose channel holds one tick.  An
    iteration is [executeJob], which ends whatever the job does. *)

Inductive phase := PBegin | PFirst | PSelect | PAgain | PFinished.
Record Goroutine := MkGo { go_phase : phase; go_tick : bool; go_runs : nat }.
Definition finished (g : Goroutine) : bool := match g.(go_phase) with PFinished => true | _ => false end.

(** [runJob] *)
Inductive runJob (cancelled : bool) : Goroutine -> Goroutine -> Prop :=
| run_first t n : runJob cancelled (MkGo PBegin t n) (MkGo PFirst t (S n))
| run_first_end t n : runJob cancelled (MkGo PFirst t n) (MkGo PSelect t n)
| run_tick ph t n : ph = PSelect \/ ph = PAgain -> runJob cancelled (MkGo ph t n) (MkGo ph true n)
| run_again n : runJob cancelled (MkGo PSelect true n) (MkGo PAgain false (S n))
| run_again_end t n : runJob cancelled (MkGo PAgain t n) (MkGo PSelect t n)
| run_done t n : cancelled = true -> runJob cancelled (MkGo PSelect t n) (MkGo PFinished t n).

(** Where the call of [Stop] is. *)
Inductive stopping := NotCalled | Waiting | Returned.
Record Scheduler := MkScheduler {
  sc_jobs : list Goroutine; sc_wg : Z;
  sc_parent : bool;     (** the context [Start] was given is cancelled *)
  sc_cancelled : bool;  (** [s.cancel] was called *)
  sc_stop : stopping }.
(** The context of the jobs is done when its parent is or it was cancelled itself. *)
Definition ctx_done (s : Scheduler) : bool := s.(sc_parent) || s.(sc_cancelled).
(** [Start] with [n] registered jobs: a goroutine each, counted by the wait group. *)
Definition Start (n : nat) : Scheduler :=
  MkScheduler (replicate n (MkGo PBegin false 0)) (Z.of_nat n) false false NotCalled.
(** A step of a goroutine, with its deferred [wg.Done]; the cancellation of the context
    [Start] was given; and [Stop]: cancel, then return when the wait group is empty. *)
Inductive sched_step (s : Scheduler) : Scheduler -> Prop :=
| step_job i g g' :
    s.(sc_jobs) !! i = Some g -> runJob (ctx_done s) g g' ->
    sched_step s (MkScheduler (<[i := g']> s.(sc_jobs)) (if finished g' then s.(sc_wg) - 1 else s.(sc_wg))
                    s.(sc_parent) s.(sc_cancelled) s.(sc_stop))
| step_parent : sched_step s (MkScheduler s.(sc_jobs) s.(sc_wg) true s.(sc_cancelled) s.(sc_stop))
| step_stop :
    s.(sc_stop) = NotCalled -> sched_step s (MkScheduler s.(sc_jobs) s.(sc_wg) s.(sc_parent) true Waiting)
| step_stopped :
    s.(sc_stop) = Waiting -> s.(sc_wg) = 0 ->
    sched_step s (MkScheduler s.(sc_jobs) s.(sc_wg) s.(sc_parent) s.(sc_cancelled) Returned).

Definition total (f : Goroutine -> Z) (l : list Goroutine) : Z := fold_right (fun g n => f g + n) 0 l.
Definition live (g : Goroutine) : Z := if finished g then 0 else 1.
(** The steps that a cancelled goroutine still has to take. *)
Definition left_to_do (g : Goroutine) : Z :=
  match g.(go_phase) with PBegin => 3 | PFirst => 2 | PSelect => 1 | PAgain => 2 | PFinished => 0 end.

Lemma total_cons f g l : total f (g :: l) = f g + total f l.
Proof. done. Qed.
Lemma total_insert f l i g g' : l !! i = Some g -> total f (<[i := g']> l) = total f l - f g + f g'.
Proof.
  revert i. induction l as [|x l IH]; intros [|i] Hi; try done; simpl in Hi.
  - injection Hi as ->. change (<[0%nat := g']> (g :: l)) with (g' :: l). rewrite !total_cons. lia.
  - change (<[S i := g']> (x :: l)) with (x :: <[i := g']> l). rewrite !total_cons, (IH i Hi). lia.
Qed.
Lemma total_pos f l : 0 < total f l -> exists i g, l !! i = Some g /\ 0 < f g.
Proof.
  induction l as [|x l IH]; [done|]. rewrite total_cons. intros H.
  destruct (Z.ltb_spec 0 (f x)) as [Hx|Hx]; [by exists 0%nat, x|].
  destruct IH as (i & g & Hi & Hg); [lia|]. by exists (S i), g.
Qed.
Lemma live_bounds g : 0 <= live g <= left_to_do g.
Proof. destruct g as [[] t n]; unfold live, left_to_do; simpl; lia. Qed.
Lemma live_zero g : live g = 0 -> g.(go_phase) = PFinished.
Proof. by destruct g as [[] t n]. Qed.
Lemma live_left l : 0 <= total live l <= total left_to_do l.
Proof.
  induction l as [|g l IH]; [done|]. rewrite !total_cons. pose proof (live_bounds g). lia.
Qed.
Lemma total_live_zero l : total live l = 0 -> Forall (fun g => g.(go_phase) = PFinished) l.
Proof.
  induction l as [|g l IH]; [constructor|]. rewrite total_cons. intros Ht. pose proof (live_left l).
  pose proof (live_bounds g). constructor; [apply live_zero; lia|apply IH; lia].
Qed.

(** What holds in every state the scheduler reaches. *)
Record scheduler_ok (n : nat) (s : Scheduler) : Prop := {
  so_length : length s.(sc_jobs) = n;
  so_wg : s.(sc_wg) = total live s.(sc_jobs);
  so_ran : Forall (fun g => g.(go_phase) <> PBegin -> (1 <= g.(go_runs))%nat) s.(sc_jobs);
  so_cancelled : s.(sc_stop) <> NotCalled -> s.(sc_cancelled) = true;
  so_returned : s.(sc_stop) = Returned -> total live s.(sc_jobs) = 0 }.

Lemma runJob_live c g g' : runJob c g g' -> live g = 1.
Proof. destruct 1; try done. by destruct H as [->| ->]. Qed.
Lemma start_ok n : scheduler_ok n (Start n).
Proof.
  split; simpl; try done; [apply length_replicate| |by apply Forall_replicate].
  induction n as [|n IH]; [done|]. cbn [replicate total fold_right]. rewrite Nat2Z.inj_succ, IH.
  unfold live at 2, finished. simpl. unfold total. lia.
Qed.
Lemma step_ok n s s' : sched_step s s' -> scheduler_ok n s -> scheduler_ok n s'.
Proof.
  intros Hstep [Hl Hw Hr Hc Hret]. destruct Hstep as [i g g' Hi Hg| |Hs|Hs Hz].
  - pose proof (runJob_live _ _ _ Hg) as Hlive. split; simpl; [by rewrite length_insert| | |done|].
    + rewrite (total_insert _ _ _ _ _ Hi), Hlive, Hw.
      change (live g') with (if finished g' then 0 else 1). destruct (finished g'); lia.
    + apply Forall_insert; [done|]. pose proof (Forall_lookup_1 _ _ _ _ Hr Hi) as Hrun. simpl in Hrun.
      destruct Hg; simpl in *; intros Hph; try lia; by apply Hrun.
    + intros Hs%Hret. exfalso.
      pose proof (total_insert live _ _ _ (MkGo PFinished false 0) Hi) as Ht. rewrite Hlive in Ht.
      pose proof (live_left (<[i := MkGo PFinished false 0]> (sc_jobs s))).
      change (live (MkGo PFinished false 0)) with 0 in Ht. lia.
  - by split.
  - split; simpl; try done.
  - split; simpl; [done|done|done|by intros _; apply Hc; rewrite Hs|]. intros _. lia.
Qed.
Lemma reachable_ok n s s' : rtc sched_step s s' -> scheduler_ok n s -> scheduler_ok n s'.
Proof. induction 1; eauto using step_ok. Qed.

(** A cancelled goroutine can always go on towards its end. *)
Lemma cancelled_progress g :
  0 < left_to_do g -> exists g', runJob true g g' /\ left_to_do g' = left_to_do g - 1.
Proof.
  destruct g as [[] t n]; unfold left_to_do; simpl; intros H; try lia.
  - exists (MkGo PFirst t (S n)). split; [constructor|done].
  - exists (MkGo PSelect t n). split; [constructor|done].
  - exists (MkGo PFinished t n). split; [by constructor|done].
  - exists (MkGo PSelect t n). split; [constructor|done].
Qed.
Lemma stop_can_return n s :
  scheduler_ok n s -> s.(sc_stop) = Waiting ->
  exists s', rtc sched_step s s' /\ s'.(sc_stop) = Returned /\ s'.(sc_parent) = s.(sc_parent).
Proof.
  remember (Z.to_nat (total left_to_do s.(sc_jobs))) as k eqn:Hk. revert s Hk.
  induction k as [k IH] using lt_wf_ind. intros s -> Hok Hs. pose proof (live_left s.(sc_jobs)) as Hll.
  destruct (Z.ltb_spec 0 (total left_to_do s.(sc_jobs))) as [Hp|Hz].
  - destruct (total_pos _ _ Hp) as (i & g & Hi & Hg). destruct (cancelled_progress g Hg) as (g' & Hrun & Hleft).
    assert (s.(sc_cancelled) = true) as Hc by (apply (so_cancelled _ _ Hok); by rewrite Hs).
    assert (ctx_done s = true) as Hdone by (unfold ctx_done; rewrite Hc; apply orb_true_r).
    rewrite <- Hdone in Hrun. pose proof (step_job s i g g' Hi Hrun) as Hstep.
    set (s1 := MkScheduler _ _ _ _ _) in Hstep.
    destruct (IH (Z.to_nat (total left_to_do s1.(sc_jobs)))) with (s := s1) as (s' & Hs' & Hret & Hpar);
      [|reflexivity|by eapply step_ok|done|].
    + simpl. rewrite (total_insert _ _ _ _ _ Hi). lia.
    + exists s'. split; [by eapply rtc_l|done].
  - eexists. split; [apply rtc_once, step_stopped; [done|]|done]. rewrite (so_wg _ _ Hok).
    pose proof (live_left s.(sc_jobs)). lia.
Qed.

(** [C39] However the goroutines of [n] jobs, their tickers, the context and [Stop]
    interleave, if every iteration ends: the wait group counts the goroutines that have
    not finished; when [Stop] has returned every job has run at least once, all have
    finished, and none ever does anything again; and once [Stop] was called there is
    always a way on which it returns, by steps of the goroutines and without anybody
    else cancelling the context. *)
Theorem scheduler_stops n s :
  rtc sched_step (Start n) s ->
  s.(sc_wg) = total live s.(sc_jobs) /\
  (s.(sc_stop) = Returned ->
     length s.(sc_jobs) = n /\
     Forall (fun g => g.(go_phase) = PFinished /\ (1 <= g.(go_runs))%nat) s.(sc_jobs) /\
     forall s', rtc sched_step s s' -> s'.(sc_jobs) = s.(sc_jobs)) /\
  (s.(sc_stop) <> NotCalled ->
     exists s', rtc sched_step s s' /\ s'.(sc_stop) = Returned /\ s'.(sc_parent) = s.(sc_parent)).
Proof.
  intros Hreach. pose proof (reachable_ok n _ _ Hreach (start_ok n)) as Hok.
  split; [apply (so_wg _ _ Hok)|]. split.
  - intros Hret. pose proof (total_live_zero _ (so_returned _ _ Hok Hret)) as Hfin.
    split; [apply (so_length _ _ Hok)|]. split.
    + pose proof (so_ran _ _ Hok) as Hran. rewrite Forall_forall in Hfin, Hran |- *. intros g Hg.
      split; [by apply Hfin|]. apply Hran; [done|]. by rewrite Hfin.
    + intros s' Hs'. clear Hreach. induction Hs' as [s|s s1 s' Hstep _ IH]; [done|].
      assert (s1.(sc_jobs) = s.(sc_jobs) /\ s1.(sc_stop) = Returned) as [Hj Hst].
      { destruct Hstep as [i g g' Hi Hg| |Hs|Hs Hz]; [|done|congruence|done].
        pose proof (runJob_live _ _ _ Hg) as Hl. apply (Forall_lookup_1 _ _ _ _ Hfin) in Hi.
        unfold live, finished in Hl. by rewrite Hi in Hl. }
      rewrite <- Hj. apply IH; [by eapply step_ok|done|by rewrite Hj].
  - intros Hs. destruct (s.(sc_stop)) eqn:Hst; [done|by eapply stop_can_return|]. exists s. by split.
Qed.

(** One job, started and stopped during its first iteration. *)
Definition stopped_scheduler : Scheduler :=
  MkScheduler [MkGo PFinished false 1] 0 false true Returned.
Lemma scheduler_stops_witness :
  rtc sched_step (Start 1) stopped_scheduler /\
  Forall (fun g => go_phase g = PFinished /\ (1 <= go_runs g)%nat) stopped_scheduler.(sc_jobs).
Proof.
  assert (rtc sched_step (Start 1) stopped_scheduler) as H.
  { eapply rtc_l; [eapply (step_job _ 0 _ (MkGo PFirst false 1)); [reflexivity|constructor]|].
    eapply rtc_l; [eapply step_stop; reflexivity|].
    eapply rtc_l; [eapply (step_job _ 0 _ (MkGo PSelect false 1)); [reflexivity|constructor]|].
    eapply rtc_l; [eapply (step_job _ 0 _ (MkGo PFinished false 1)); [reflexivity|by constructor]|].
    eapply rtc_l; [eapply step_stopped; reflexivity|]. apply rtc_refl. }
  split; [exact H|]. destruct (scheduler_stops 1 _ H) as (_ & Hret & _).
  by destruct (Hret eq_refl) as (_ & Hf & _).
Defined.
(** A tick that waits when the context is cancelled can start one more iteration. *)
Example runs_after_cancel :
  exists s, rtc sched_step (Start 1) (MkScheduler [MkGo PSelect true 1] 1 true false NotCalled) /\
    sched_step (MkScheduler [MkGo PSelect true 1] 1 true false NotCalled) s /\ sc_jobs s = [MkGo PAgain false 2].
Proof.
  eexists. split_and!.
  - eapply rtc_l; [eapply (step_job _ 0 _ (MkGo PFirst false 1)); [reflexivity|constructor]|].
    eapply rtc_l; [eapply (step_job _ 0 _ (MkGo PSelect false 1)); [reflexivity|constructor]|].
    eapply rtc_l; [eapply (step_job _ 0 _ (MkGo PSelect true 1)); [reflexivity|constructor; by left]|].
    eapply rtc_l; [apply step_parent|]. apply rtc_refl.
  - eapply (step_job _ 0 _ (MkGo PAgain false 2)); [reflexivity|constructor].
  - reflexivity.
Qed.
