(* ===== verification/NotificationFacts.v ===== *)
(** * What notifications promise, and that unsubscribing works

    From the link in a message to the message that is no longer sent; the log of a
    message that is; and what providers report about it. *)

From S2P Require Import Prelude.
From S2P Require Import GoStr.
From S2P Require Import GoTime.
From S2P Require Import Schema.
From S2P Require Import Eff.
From S2P Require Import Http.
From S2P Require Import Respect.
From S2P Require Import Demo.
From S2P Require Import Tables.
From S2P Require Import Contacts.
From S2P Require Import Reminders.
From S2P Require Import Suppression.
From S2P Require Import Notification.

Local Open Scope Z_scope.

Lemma count_pos {R} (P : string -> R -> bool) t :
  0 < count P t <-> exists k r, t !! k = Some r /\ P k r = true.
Proof.
  unfold count. split.
  - intros H. destruct (select P t) as [|[k r] l] eqn:Es; simpl in H; [lia|].
    exists k, r. apply elem_of_select. rewrite Es. constructor.
  - intros (k & r & Hk & HP). assert ((k, r) ∈ select P t) as Hin by (by apply elem_of_select).
    destruct (select P t); [by apply not_elem_of_nil in Hin|simpl; lia].
Qed.

Lemma uniq_of_size_1 {R A} (f : R -> A) (t : gmap string R) : size t = 1%nat -> uniq f t.
Proof.
  rewrite <- length_map_to_list. intros Hl k r k' r' Hk%elem_of_map_to_list Hk'%elem_of_map_to_list _.
  destruct (map_to_list t) as [|[a x] [|]]; simplify_eq/=.
  by apply list_elem_of_singleton in Hk as [= -> ->], Hk' as [= <- <-].
Qed.

(** A successful handler of [on_ok] and the guards. *)
Lemma on_ok_ok {A P} (m : M A) (one : err -> M (Resp P)) k w x w' :
  on_ok m one k w = (Ok x, w') ->
  (exists a w1, m w = (Ok a, w1) /\ k a w1 = (Ok x, w')) \/
  (exists e w1, m w = (Err e, w1) /\ one e w1 = (Ok x, w')).
Proof. unfold on_ok, bind, attempt. destruct (m w) as [[a|e] w1]; eauto. Qed.
Lemma internal_error_status `{E : Env} {P} w (x : Resp P) w' :
  internal_error w = (Ok x, w') -> rs_status x = 500.
Proof. unfold internal_error, Ref. intros H. by run_ok. Qed.

Section unsubscribe.
Context `{E : Env}.

(** The row a token leaves. *)
Lemma Generate_ok email ev w token w1 :
  GenerateUnsubscribeToken email ev w = (Ok token, w1) ->
  exists k r, w1.(w_db).(unsubscribe_tokens) !! k = Some r /\ r.(ut_token_hash) = hashToken token /\
    r.(ut_email) = normalizeEmail email /\ r.(ut_event_id) = event_scope (normalizeEventID ev).
Proof.
  unfold GenerateUnsubscribeToken, CreateToken, now_text. intros H. run_ok.
  match goal with H : read_random _ _ = _ |- _ => injection H as _ <- end.
  match goal with H : insert_unsubscribe ?id ?row _ = Some _ |- _ =>
    unfold insert_unsubscribe in H; case_match; [|done]; exists id, row;
    apply (inj Some) in H; rewrite <- H end.
  split; [apply lookup_insert_eq|done].
Qed.

(** A token is resolved to its row. *)
Lemma Verify_ok token k r w x w' :
  uniq ut_token_hash w.(w_db).(unsubscribe_tokens) ->
  w.(w_db).(unsubscribe_tokens) !! k = Some r -> r.(ut_token_hash) = hashToken token ->
  VerifyUnsubscribeToken token w = (Ok (Some x), w') -> x = (r.(ut_email), r.(ut_event_id)).
Proof.
  intros Hu Hk Hh. unfold VerifyUnsubscribeToken. case_bool_decide; [done|].
  unfold FindTokenByHash. intros H0. run_ok.
  match goal with H : _ <$> select_row _ _ = Some _ |- _ => apply fmap_Some in H as ([k' r'] & Hs & ->) end.
  apply select_row_Some in Hs as [Hk' Hh']. apply bool_decide_eq_true in Hh'.
  assert (k' = k) as -> by (eapply Hu; [done|done|congruence]). simpl. congruence.
Qed.

Definition suppressed_row (email : string) (scope : option string) (d : Database) : Prop :=
  exists k r, d.(email_suppressions) !! k = Some r /\ r.(sp_email) = email /\ r.(sp_event_id) = scope.

Lemma suppression_is_spec email scope r :
  suppression_is email scope r = true <-> r.(sp_email) = email /\ r.(sp_event_id) = scope.
Proof. unfold suppression_is. by rewrite andb_true_iff, !bool_decide_eq_true. Qed.
Lemma existsExact_ok email ev b w w' :
  existsExact email ev w = (Ok b, w') ->
  w'.(w_db) = w.(w_db) /\ (b = true -> suppressed_row email (event_scope ev) w.(w_db)).
Proof.
  unfold existsExact. intros H. run_ok. split; [done|]. intros Hc%Z.ltb_lt%count_pos.
  destruct Hc as (k & r & Hk & [Hm He]%suppression_is_spec). by exists k, r.
Qed.
Lemma Store_Suppress_ok email ev reason w u w' :
  Store_Suppress email ev reason w = (Ok u, w') -> suppressed_row email (event_scope ev) w'.(w_db).
Proof.
  unfold Store_Suppress. intros H. run_ok1.
  match goal with He : existsExact _ _ _ = (Ok ?b, _) |- _ =>
    apply existsExact_ok in He as [Hd Hs]; destruct b end.
  - run_ok. rewrite Hd. by apply Hs.
  - unfold now_text, attempt in H. run_ok. repeat (run_ok1; simplify_eq/=).
    match goal with H : context [exec ?c ?f ?w] |- _ => destruct (exec c f w) as [[[]|e] w3] eqn:Hx end;
      simplify_eq/=.
    + apply exec_ok in Hx as (Hx & _). unfold insert_suppression in Hx. case_match; [|done].
      apply (inj Some) in Hx. run_ok. eexists _, _. rewrite <- Hx. split; [apply lookup_insert_eq|done].
    + repeat (run_ok1; simplify_eq/=).
      match goal with H : context [existsExact ?a ?b ?c] |- _ => destruct (existsExact a b c) as [[[]|e'] w5] eqn:Hy end;
        simplify_eq/=; run_ok; [|done..].
      apply existsExact_ok in Hy as [-> Hy]. by apply Hy.
Qed.

Definition scope_of (ev : string) : option string := event_scope (normalizeEventID ev).
Lemma scope_of_default ev : scope_of (default "" (scope_of ev)) = scope_of ev.
Proof.
  destruct (scope_of ev) as [e|] eqn:He; [|done]. simpl.
  assert (e = ev) as ->; [|done]. unfold scope_of, normalizeEventID, event_scope in He.
  repeat case_bool_decide; by simplify_eq/=.
Qed.
Lemma scope_of_blank ev : trim_space ev = "" -> scope_of ev = None.
Proof. intros H. unfold scope_of, normalizeEventID. by rewrite bool_decide_eq_true_2. Qed.

(** What a successful unsubscription of a token leaves. *)
Lemma handleUnsubscribe_ok `{!TextLaws E} token k r w x w' :
  uniq ut_token_hash w.(w_db).(unsubscribe_tokens) ->
  w.(w_db).(unsubscribe_tokens) !! k = Some r -> r.(ut_token_hash) = hashToken token ->
  handleUnsubscribe (Some token) w = (Ok x, w') -> x.(rs_status) = 200 ->
  suppressed_row (normalizeEmail r.(ut_email)) (scope_of (default "" r.(ut_event_id))) w'.(w_db).
Proof.
  intros Hu Hk Hh H Hx. unfold handleUnsubscribe, with_token in H. simpl in H.
  case_bool_decide; [run_ok; done|]. apply on_ok_ok in H as [(f & w1 & Hf & H)|(e & w1 & _ & H)];
    [|apply internal_error_status in H; congruence].
  destruct f as [[m e]|]; [|run_ok; done].
  apply (Verify_ok _ _ _ _ _ _ Hu Hk Hh) in Hf. injection Hf as -> ->.
  apply on_ok_ok in H as [(u & w2 & Hs & H)|(e & w2 & _ & H)];
    [|apply internal_error_status in H; congruence].
  run_ok. unfold Suppress in Hs. run_ok. by apply Store_Suppress_ok in Hs.
Qed.

(** A row of the address covers the messages of its event, and of all events when
    it names none. *)
Lemma IsSuppressed_row email scope ev w :
  w.(w_faults) = [] -> suppressed_row (normalizeEmail email) scope w.(w_db) ->
  scope = None \/ scope = scope_of ev -> IsSuppressed email ev w = (Ok true, w).
Proof.
  intros Hf (k & r & Hk & Hm & He) Hs.
  assert (Store_IsSuppressed (normalizeEmail email) (normalizeEventID ev) w = (Ok true, w)) as Hq;
    [|unfold IsSuppressed, bind, attempt; by rewrite Hq].
  unfold Store_IsSuppressed. erewrite bind_run by by apply query_run.
  assert (0 < count (fun _ r => suppresses (normalizeEmail email) (scope_of ev) r)
    w.(w_db).(email_suppressions)) as Hc%Z.ltb_lt.
  { apply count_pos. exists k, r. split; [done|]. unfold suppresses. rewrite Hm, bool_decide_eq_true_2 by done.
    simpl. rewrite He. destruct Hs as [->| ->]; [done|]. destruct (scope_of ev); simpl; [|done].
    by rewrite bool_decide_eq_true_2. }
  unfold scope_of in Hc. unfold ret. by rewrite Hc.
Qed.

(** The e-mail channel with a suppressed address. *)
Lemma Send_suppressed (s : Service) ev inv (msg : Message) c w w1 :
  is_Some (s.(nt_registry) !! ChannelEmail) -> s.(nt_opts).(op_Suppression) = Some c ->
  msg.(msg_To) <> "" -> c.(sc_IsSuppressed) msg.(msg_To) ev w = (Ok true, w1) ->
  Send s ev inv ChannelEmail msg w = (Ok (), w1).
Proof.
  intros [p Hp] Hc Hm Hs. unfold Send, get_provider, Get. rewrite Hp. simpl.
  erewrite bind_run by reflexivity. unfold isSuppressedEmail. rewrite Hc. simpl.
  rewrite (bool_decide_eq_false_2 (msg.(msg_To) = "")) by done. unfold bind at 1. by rewrite Hs.
Qed.
End unsubscribe.


(** ** Example *)

Definition demo_mailer : Provider :=
  MkProvider "smtp" ChannelEmail (fun _ => ret (inr (Some (MkSendResult "m1"))))
    (fun l => ret (map (fun _ => Some (MkSendResult "m1")) l, map (fun _ => None) l)).
Definition demo_notifier : Service :=
  @MkNotification (Register demo_mailer NewRegistry)
    (MkOptions "https://owl.example" true
       (Some (MkChecker (@IsSuppressed demo_env) (@GenerateUnsubscribeToken demo_env))))
    (ret false) (fun _ => ret true).
Definition demo_message : Message := MkMessage " Jane@Example.org" "Party" "<body>Come</body>" "Come" [].
Definition demo_minted : res string * World :=
  @GenerateUnsubscribeToken demo_env "jane@example.org" "ev" demo_world.
Definition demo_raw_token : string := match demo_minted.1 with Ok t => t | Err _ => "" end.
Definition demo_unsubscribed : res (Resp UnsubscribePayload) * World :=
  @handleUnsubscribe demo_env (Some demo_raw_token) demo_minted.2.


(** ** What the notification log promises

    The record [Send] leaves of a message, the number of times it hands a message
    over, and the progress of the delivery status over provider events, openings
    and webhook calls in any order. *)

(** ** The delivery status *)

(** Bounces and complaints rank alike: each may replace the other. *)
Definition rank (l : LogRow) : Z := Z.min 4 (deliveryStatusOrder l.(l_delivery_status)).

(** What tracking never touches. *)
Definition mailing (l : LogRow) :=
  (l.(l_event_id), l.(l_invitation_id), l.(l_channel), l.(l_provider), l.(l_status), l.(l_error),
   (l.(l_sent_at), l.(l_created_at), l.(l_recipient), l.(l_subject), l.(l_message_id))).

(** A time that was recorded stays recorded. *)
Definition recorded (a b : option string) : Prop := is_Some a -> is_Some b.
#[global] Instance recorded_preorder : PreOrder recorded.
Proof. split; unfold recorded; [by intros ?|by intros ???; auto]. Qed.

Definition track_le (l l' : LogRow) : Prop :=
  rank l <= rank l' /\ mailing l' = mailing l /\
  recorded l.(l_delivered_at) l'.(l_delivered_at) /\ recorded l.(l_opened_at) l'.(l_opened_at) /\
  recorded l.(l_clicked_at) l'.(l_clicked_at) /\ recorded l.(l_bounced_at) l'.(l_bounced_at) /\
  recorded l.(l_complaint_at) l'.(l_complaint_at).
#[global] Instance track_le_preorder : PreOrder track_le.
Proof.
  split.
  - intros l. by repeat split.
  - intros a b c (? & ? & ? & ? & ? & ? & ?) (? & ? & ? & ? & ? & ? & ?).
    repeat split; [lia|congruence|..]; by etrans.
Qed.

(** No entry appears or goes; each only advances. *)
Definition tracked (d d' : Database) : Prop :=
  table_le track_le d.(notification_log) d'.(notification_log) /\
  dom d'.(notification_log) = dom d.(notification_log).
#[global] Instance tracked_preorder : PreOrder tracked.
Proof.
  split.
  - intros d. split; [apply table_le_preorder; apply _|done].
  - intros a b c [T1 D1] [T2 D2]. split; [by etrans|congruence].
Qed.
Lemma tracked_same d d' : d'.(notification_log) = d.(notification_log) -> tracked d d'.
Proof. intros H. unfold tracked. rewrite H. split; [apply table_le_preorder; apply _|done]. Qed.

Lemma recorded_stamp (b : bool) t old : recorded old (if b then Some t else old).
Proof. destruct b; [by intros _|by intros ?]. Qed.
Lemma track_row_le kind ts bt l :
  rank l <= Z.min 4 (deliveryStatusOrder kind) -> track_le l (track_row kind ts bt l).
Proof. intros H. repeat split; try apply recorded_stamp. exact H. Qed.

(** The guard of the code is what keeps the rank. *)
Lemma advances_rank kind l :
  advances kind l.(l_delivery_status) = true -> rank l <= Z.min 4 (deliveryStatusOrder kind).
Proof.
  unfold advances, rank. intros [H|H%Z.ltb_lt]%orb_true_iff; [|lia].
  unfold one_of in H. apply bool_decide_eq_true in H.
  apply elem_of_cons in H as [->|[->|[]%not_elem_of_nil]%elem_of_cons]; apply Z.le_min_l.
Qed.
Lemma unopened_rank l : unopened l = true -> rank l <= 2.
Proof.
  unfold unopened, one_of, rank. intros H%bool_decide_eq_true.
  by apply elem_of_cons in H as [->|[->|[]%not_elem_of_nil]%elem_of_cons].
Qed.

Lemma update_log_tracked id Q f d d' :
  (forall l, d.(notification_log) !! id = Some l -> Q l = true -> track_le l (f l)) ->
  update_log id Q f d = Some d' -> tracked d d'.
Proof.
  unfold update_log. intros Hf. destruct (d.(notification_log) !! id) as [l|] eqn:Hl; [|by intros [= <-]].
  destruct (Q l) eqn:HQ; [|by intros [= <-]]. destruct (log_check (f l)); [|done].
  intros H. apply (inj Some) in H. rewrite <- H. split; simpl.
  - eapply table_le_insert_old; [apply _|done|by apply Hf].
  - rewrite dom_insert_L. apply elem_of_dom_2 in Hl. set_solver.
Qed.

(** ** Operations *)

Inductive track_op :=
| TEvent (e : DeliveryEvent)
| TOpen (logID : string)
| TSendGrid (body : option (list sendGridEvent))
| TSes (body : option sesEvent).

Section tracking.
Context `{E : Env}.
(** What a hard bounce or a complaint calls; the log is not its business. *)
Variable suppress : option (string -> string -> string -> M ()).

Definition run_track_op (o : track_op) : M () :=
  match o with
  | TEvent e => ProcessDeliveryEvent e
  | TOpen id => RecordOpen id
  | TSendGrid b => ignore_err (handleSendGridWebhook suppress b)
  | TSes b => ignore_err (handleSESWebhook suppress b)
  end.
Definition run_tracking (ops : list track_op) (w : World) : World :=
  fold_left (fun w o => (run_track_op o w).2) ops w.

Lemma RecordOpen_tracked id : respects tracked (RecordOpen id).
Proof.
  unfold RecordOpen. respect_reply. apply update_log_tracked. intros l _ H%unopened_rank.
  by apply track_row_le.
Qed.
(** The row the guard looked at is the one the UPDATE finds. *)
Lemma ProcessDeliveryEvent_tracked e : respects tracked (ProcessDeliveryEvent e).
Proof.
  intros w. change (wp (ProcessDeliveryEvent e) (fun _ w' => tracked w.(w_db) w'.(w_db)) w).
  unfold ProcessDeliveryEvent. apply wp_bind_reads; [by respect|done|]. intros _ w1 _ H1.
  apply wp_bind_reads; [by respect|by rewrite H1|]. intros row w2 [-> _]%query_ok H2.
  apply wp_bind_reads; [by respect|by rewrite H2, H1|]. intros [id l] w3 [Hl <-]%of_option_ok _.
  apply select_row_Some in Hl as [Hl _]. rewrite <- H2 in Hl.
  assert (tracked w.(w_db) w2.(w_db)) as Hw by (by rewrite H2, H1).
  destruct (advances _ _) eqn:Ha; simpl; [|exact Hw]. apply wp_exec.
  - intros w' (-> & _) _. exact Hw.
  - intros d w' Hu (-> & _). etrans; [exact Hw|]. eapply update_log_tracked; [|exact Hu].
    intros l' Hl' _. simpl in Hl'. assert (l' = l) as -> by congruence. by apply track_row_le, advances_rank.
Qed.

Hypothesis suppress_tracked : forall f a b c, suppress = Some f -> respects tracked (f a b c).

Lemma suppressOnFailure_tracked k b m : respects tracked (suppressOnFailure suppress k b m).
Proof. unfold suppressOnFailure. respect_reply. Qed.
Hint Resolve RecordOpen_tracked ProcessDeliveryEvent_tracked suppressOnFailure_tracked : respects.
Lemma sendgrid_event_tracked e : respects tracked (sendgrid_event suppress e).
Proof. unfold sendgrid_event. destruct (mapSendGridEvent e). respect_reply. Qed.
Hint Resolve sendgrid_event_tracked : respects.
Lemma run_track_op_tracked o : respects tracked (run_track_op o).
Proof.
  destruct o; simpl; [eauto with respects..| |]; apply respects_ignore_err.
  - unfold handleSendGridWebhook. respect_reply.
  - unfold handleSESWebhook. destruct body as [e|]; [|respect_reply].
    destruct (mapSESEvent e) as [[]]. respect_reply.
Qed.
Lemma run_tracking_tracked ops w : tracked w.(w_db) (run_tracking ops w).(w_db).
Proof.
  revert w. induction ops as [|o ops IH]; intros w; simpl; [done|].
  etrans; [apply run_track_op_tracked|apply IH].
Qed.
End tracking.

(** The suppression list is another table. *)
Lemma Suppress_tracked `{E : Env} a b c : respects tracked (Suppress a b c).
Proof.
  unfold Suppress, Store_Suppress, existsExact. respect_reply.
  intros Hi. apply tracked_same. unfold insert_suppression in Hi. case_match; [|done].
  apply (inj Some) in Hi. by rewrite <- Hi.
Qed.

(** ** Sending *)

Record external_service (s : Service) (p : Provider) : Prop := {
  es_send m : external (p.(p_Send) m);
  es_cancelled : external s.(nt_cancelled);
  es_wait n : external (s.(nt_retryWait) n) }.

Section sending.
Context `{E : Env} (s : Service) (p : Provider).

(** [x] is an answer of the provider to [msg]. *)
Definition answered (msg : Message) (x : string + option SendResult) : Prop :=
  exists w w', p.(p_Send) msg w = (Ok x, w').

Lemma send_attempts_wp (H : external_service s p) msg more w :
  wp (send_attempts s p msg more) (fun r w' =>
    idle w w' /\ exists x, r = Ok x /\ answered msg x) w.
Proof.
  revert w. induction more as [|more IH]; intros w; simpl; apply wp_bind, wp_external; try apply H;
    intros x w1 Hx Hf; assert (answered msg x) as Ha by (by exists w, w1).
  - destruct x; apply wp_ret; eauto.
  - destruct x as [e|r]; [|apply wp_ret; eauto].
    apply wp_bind, wp_external; [apply H|]. intros [] w2 _ Hf2; [apply wp_ret; split; [by etrans|eauto]|].
    apply wp_bind, wp_external; [apply H|].
    intros [] w3 _ Hf3; [|apply wp_ret; split; [do 2 (etrans; [done|]); done|eauto]].
    eapply wp_mono; [apply IH|]. intros r w' [Hf4 Hr]. split; [|done]. by do 3 (etrans; [done|]).
Qed.

(** Each attempt hands the message over once: a count that only the provider's
    [Send] raises, by at most one, has risen by at most the attempts. *)
Lemma send_attempts_count (count : World -> Z) msg more w :
  (forall w, count (p.(p_Send) msg w).2 <= count w + 1) ->
  (forall w, count (s.(nt_cancelled) w).2 <= count w) ->
  (forall n w, count (s.(nt_retryWait) n w).2 <= count w) ->
  count (send_attempts s p msg more w).2 <= count w + 1 + Z.of_nat more.
Proof.
  intros Hs Hc Hr. revert w. induction more as [|more IH]; intros w; cbn [send_attempts]; unfold bind, ret;
    specialize (Hs w); destruct (p_Send p msg w) as [[x|e] w1]; simpl in *; try lia.
  - destruct x; simpl; lia.
  - destruct x as [e|r]; simpl; [|lia]. specialize (Hc w1).
    destruct (nt_cancelled s w1) as [[[]|] w2]; simpl in *; try lia.
    match goal with |- context [nt_retryWait s ?n w2] =>
      specialize (Hr n w2); destruct (nt_retryWait s n w2) as [[[]|] w3] end; simpl in *; try lia.
    specialize (IH w3). lia.
Qed.

(** What [Send] does before it writes the log leaves the log, and what the log refers to. *)
Definition apart (w w' : World) : Prop :=
  (w.(w_faults) = [] -> w'.(w_faults) = []) /\
  w'.(w_db).(notification_log) = w.(w_db).(notification_log) /\
  w'.(w_db).(events) = w.(w_db).(events) /\ w'.(w_db).(invitations) = w.(w_db).(invitations).
#[global] Instance apart_preorder : PreOrder apart.
Proof.
  split; [by intros w|]. intros a b c (? & ? & ? & ?) (? & ? & ? & ?). repeat split; [auto|congruence..].
Qed.
Lemma idle_apart w w' : idle w w' -> apart w w'.
Proof. intros (Hd & Hf & _). unfold apart. by rewrite Hd. Qed.

Lemma Generate_apart email ev w : wp (GenerateUnsubscribeToken email ev) (fun _ w' => apart w w') w.
Proof.
  unfold GenerateUnsubscribeToken, CreateToken, now_text.
  apply wp_bind, wp_read_random. intros w1 H1%idle_apart. apply wp_bind, wp_of_option; [|done].
  intros raw _. apply wp_bind, wp_bind, wp_bind, wp_now. intros w2 H2%idle_apart _. apply wp_ret.
  apply wp_bind, wp_new_uuid. intros w3 H3%idle_apart.
  assert (apart w w3) as H by (by do 2 (etrans; [done|])). apply wp_exec.
  - intros w4 H4 _. etrans; [done|by apply idle_apart].
  - intros d w4 Hi H4. apply wp_ret. etrans; [done|]. destruct H4 as (Hd & Hf & _).
    unfold insert_unsubscribe in Hi. case_match; [|done]. apply (inj Some) in Hi.
    split; [done|]. by rewrite Hd, <- Hi.
Qed.

(** The checker of the program, or none. *)
Definition program_checker : Prop :=
  forall c, s.(nt_opts).(op_Suppression) = Some c -> c = MkChecker IsSuppressed GenerateUnsubscribeToken.
Definition envelope (m : Message) : string * string := (m.(msg_To), m.(msg_Subject)).

Lemma of_option_panic {A} (o : option A) w Q :
  (forall a, o = Some a -> Q (Ok a) w) -> Q (Err slice_panic) w -> wp (of_option slice_panic o) Q w.
Proof. intros H1 H2. by apply wp_of_option. Qed.

(** The message handed over has the recipient and subject of the caller's. *)
Definition prepared (msg : Message) (w : World) (r : res Message) (w' : World) : Prop :=
  apart w w' /\ match r with Ok m => envelope m = envelope msg | Err e => e = slice_panic end.
Lemma footer_wp (Hc : program_checker) msg ev w :
  wp (applyUnsubscribeFooter s msg ev) (prepared msg w) w.
Proof.
  unfold applyUnsubscribeFooter. destruct (op_Suppression _) as [c|] eqn:Eo; [|by apply wp_ret].
  apply Hc in Eo as ->. destruct (_ || _); [by apply wp_ret|]. apply wp_bind, wp_attempt.
  eapply wp_mono; [apply Generate_apart|]. intros [token|e] w1 H1; [|by apply wp_ret].
  apply wp_bind. destruct (bool_decide _); [by apply wp_ret, wp_ret|].
  apply of_option_panic; [|done]. intros body _. by apply wp_ret.
Qed.
Lemma pixel_wp msg id w : wp (embedOpenPixel s msg id) (prepared msg w) w.
Proof.
  unfold embedOpenPixel. destruct (_ || _); [by apply wp_ret|].
  apply wp_bind, of_option_panic; [|done]. intros body _. by apply wp_ret.
Qed.
Lemma prepare_wp (Hc : program_checker) ch ev id msg w :
  wp (prepare s ch ev id msg) (prepared msg w) w.
Proof.
  unfold prepare. destruct (bool_decide _); [|by apply wp_ret].
  apply wp_bind. eapply wp_mono; [by apply footer_wp|]. intros [m|e] w1 [H1 Hm]; [|done].
  eapply wp_mono; [apply pixel_wp|]. intros r w2 [H2 Hr]. split; [by etrans|].
  destruct r; [congruence|done].
Qed.
End sending.

Section send_logged.
Context `{E : Env}.

(** The outcome as the log tells it, given what the provider answered. *)
Definition outcome_of (msgID : string) (answer : string + option SendResult) (r : res ())
    (l : LogRow) : Prop :=
  match answer with
  | inr _ => r = Ok () /\ l.(l_status) = "sent" /\ is_Some l.(l_sent_at) /\
             l.(l_message_id) = non_blank msgID
  | inl e => r = Err (EText ("send notification: " +:+ e)) /\ l.(l_status) = "failed" /\
             l.(l_error) = Some e /\ l.(l_sent_at) = None
  end.
Definition answer_id (x : string + option SendResult) : string :=
  match x with inr r => message_id r | inl _ => "" end.
Definition addressed (ev inv ch name : string) (msg : Message) (l : LogRow) : Prop :=
  l.(l_event_id) = ev /\ l.(l_invitation_id) = non_blank inv /\ l.(l_channel) = ch /\
  l.(l_provider) = name /\ l.(l_recipient) = msg.(msg_To) /\ l.(l_subject) = msg.(msg_Subject).

(** The UPDATE of an entry that is there, without faults. *)
Lemma updateLog_run id status e mid sent w l :
  w.(w_faults) = [] -> w.(w_db).(notification_log) !! id = Some l -> log_check l = true ->
  one_of status ["pending"; "sent"; "failed"] = true ->
  updateLog id status e mid sent w = (Ok (), with_db (set_notification_log
    <[id := log_update_row status e (non_blank mid) (format_rfc3339 <$> sent) l]> w.(w_db)) w).
Proof.
  intros Hf Hl Hc Hs. unfold updateLog. apply exec_run; [done|]. unfold update_log. rewrite Hl.
  apply andb_true_iff in Hc as [Hc _]. unfold log_check. simpl. by rewrite Hc, Hs.
Qed.
Lemma insertLog_run id ev inv ch name rcpt subj t w :
  w.(w_faults) = [] -> w.(w_db).(notification_log) !! id = None -> has ev w.(w_db).(events) = true ->
  has_opt (non_blank inv) w.(w_db).(invitations) = true -> one_of ch ["email"; "sms"] = true ->
  insertLog id ev inv ch name "pending" "" rcpt subj None t w
  = (Ok (), with_db (set_notification_log
      <[id := log_row ev (non_blank inv) ch name "pending" "" rcpt subj None t]> w.(w_db)) w).
Proof.
  intros Hf Hl He Hi Hc. unfold insertLog. apply exec_run; [done|]. unfold insert_log, has at 1.
  rewrite Hl. simpl. rewrite He, Hi. unfold log_check. simpl. by rewrite Hc.
Qed.

(** From the entry that says pending to the answer. *)
Lemma send_tail_wp s p msg m id ev inv ch t w (Q : res () -> World -> Prop) :
  w.(w_faults) = [] -> external_service s p -> envelope m = envelope msg ->
  has ev w.(w_db).(events) = true -> has_opt (non_blank inv) w.(w_db).(invitations) = true ->
  one_of ch ["email"; "sms"] = true -> w.(w_db).(notification_log) !! id = None ->
  (forall l x r w', w'.(w_db).(notification_log) = <[id := l]> w.(w_db).(notification_log) ->
     addressed ev inv ch p.(p_Name) msg l -> answered p m x -> outcome_of (answer_id x) x r l -> Q r w') ->
  wp (ignore_err (insertLog id ev inv ch p.(p_Name) "pending" "" m.(msg_To) m.(msg_Subject) None t) ;;;
      r <- send_attempts s p m (Z.to_nat maxSendAttempts - 1) ;;
      match r with
      | inl e => log_failed id e ;;; fail (EText ("send notification: " +:+ e))
      | inr x => log_sent id x
      end) Q w.
Proof.
  intros Hf Hx Hm He Hi Hc Hid HQ. apply wp_bind, wp_ignore_err, wp_run. intros r w1 Hr.
  rewrite insertLog_run in Hr by done. injection Hr as <- <-. injection Hm as Hto Hsub.
  apply wp_bind. eapply wp_mono; [by apply send_attempts_wp|].
  intros r w2 [(Hd & Hf2 & _) (x & -> & Ha)]. specialize (Hf2 Hf). simpl in Hd.
  set (l0 := log_row _ _ _ _ _ _ _ _ _ _) in Hd.
  assert (w2.(w_db).(notification_log) !! id = Some l0) as Hl by (rewrite Hd; apply lookup_insert_eq).
  assert (log_check l0 = true) as Hl0 by (unfold log_check; simpl; by rewrite Hc).
  destruct x as [e|x].
  - apply wp_bind, wp_ignore_err, wp_run. intros r w3 Hr.
    rewrite (updateLog_run _ _ _ _ _ _ _ Hf2 Hl Hl0) in Hr by done. injection Hr as _ <-.
    apply wp_fail. eapply (HQ _ (inl e)); [simpl; rewrite Hd; apply insert_insert_eq| |done|];
      by repeat split.
  - apply wp_bind, wp_now. intros w3 (Hd3 & Hf3 & _) _. simpl in Hf3. specialize (Hf3 Hf2). rewrite <- Hd3 in Hl.
    apply wp_ignore_err, wp_run. intros r w4 Hr.
    rewrite (updateLog_run _ _ _ _ _ _ _ Hf3 Hl Hl0) in Hr by done. injection Hr as _ <-.
    eapply (HQ _ (inr x)); [simpl; rewrite Hd3, Hd; apply insert_insert_eq| |done|];
      repeat split; done || by eexists.
Qed.
End send_logged.


(** The delivery status of a message only moves forward, over any provider
    events, openings and provider webhook calls in any order and with any driver faults,
    bounces and complaints (which may replace each other) being last; no entry appears or
    goes, what was sent to whom and when stays, and a time once recorded is never lost. *)
Theorem tracking_forward `{E : Env} ops w id l :
  w.(w_db).(notification_log) !! id = Some l ->
  exists l', (run_tracking (Some Suppress) ops w).(w_db).(notification_log) !! id = Some l' /\
    track_le l l' /\
    dom (run_tracking (Some Suppress) ops w).(w_db).(notification_log) = dom w.(w_db).(notification_log).
Proof.
  intros Hl. assert (forall f a b c, Some Suppress = Some f -> respects tracked (f a b c)) as Hs
    by (intros f a b c [= <-]; apply Suppress_tracked).
  destruct (run_tracking_tracked (Some Suppress) Hs ops w) as [Ht Hd].
  destruct (Ht _ _ Hl) as (l' & Hl' & Hle). eauto.
Qed.

(** ** Examples *)

Definition demo_mail_provider : Provider :=
  MkProvider "smtp" ChannelEmail (fun _ => ret (inr (Some (MkSendResult "m1"))))
    (fun l => ret (map (fun _ => Some (MkSendResult "m1")) l, map (fun _ => None) l)).
Definition demo_mail_service : Service :=
  MkNotification (Register demo_mail_provider NewRegistry)
    (MkOptions "https://owl.example" true
       (Some (MkChecker (@IsSuppressed demo_env) (@GenerateUnsubscribeToken demo_env))))
    (ret false) (fun _ => ret true).
Definition demo_mail : Message :=
  MkMessage "jane@example.org" "Party" "<html><body>Come</body></html>" "Come" [].
Definition demo_sent : World :=
  (@Send demo_env demo_mail_service "ev" "inv" ChannelEmail demo_mail demo_world).2.

Lemma external_ret {A} (a : A) : external (ret a).
Proof. intros w. by exists a, w. Qed.


Definition delivery (kind : string) : track_op :=
  TEvent (MkDeliveryEvent "m1" kind demo_start "hard").
Definition delivery_of (id : string) (w : World) : option string :=
  l_delivery_status <$> w.(w_db).(notification_log) !! id.
Definition demo_track : list track_op :=
  [TOpen "u0"; delivery "delivered"; TSes None; delivery "complained"; delivery "clicked"].

(** An opening before the report of the delivery is not undone by it. *)
Lemma tracking_forward_witness :
  delivery_of "u0" (@run_tracking demo_env (Some (@Suppress demo_env)) (take 3 demo_track) demo_sent)
    = Some "opened" /\
  delivery_of "u0" (@run_tracking demo_env (Some (@Suppress demo_env)) demo_track demo_sent)
    = Some "complained" /\
  exists l', (@run_tracking demo_env (Some (@Suppress demo_env)) demo_track demo_sent).(w_db)
    .(notification_log) !! "u0" = Some l' /\ l'.(l_recipient) = "jane@example.org".
Proof.
  split; [vm_compute; reflexivity|]. split; [vm_compute; reflexivity|].
  destruct (demo_sent.(w_db).(notification_log) !! "u0") as [l|] eqn:Hl; [|vm_compute in Hl; discriminate Hl].
  destruct (@tracking_forward demo_env demo_track demo_sent "u0" l Hl) as (l' & Hl' & (_ & Hm & _) & _).
  exists l'. split; [exact Hl'|]. revert Hl. injection Hm as _ _ _ _ _ _ _ _ -> _ _.
  vm_compute. intros [= <-]. reflexivity.
Defined.

(** U+023A is two bytes, and its lower case three. *)
Definition env_long_lower : Env :=
  let long s := String (ascii_of_nat 226) (String (ascii_of_nat 177) (String (ascii_of_nat 165) s)) in
  {| clock := @clock demo_env; uuid_v7 := @uuid_v7 demo_env; rand_read := @rand_read demo_env;
     hmac_sha256 := @hmac_sha256 demo_env; sha256 := @sha256 demo_env;
     unicode_lower := fix f s := match s with
       | String a ((String b u) as t) =>
           if Ascii.eqb a (ascii_of_nat 200) && Ascii.eqb b (ascii_of_nat 186)
           then long (f u) else String a (f t)
       | _ => s end;
     json_strings := @json_strings demo_env; json_background := @json_background demo_env;
     url_scheme := @url_scheme demo_env; go_quote := @go_quote demo_env;
     render_invitation_html := @render_invitation_html demo_env;
     render_magic_link_html := @render_magic_link_html demo_env;
     format_event_date := @format_event_date demo_env; json_object := @json_object demo_env;
     json_list := @json_list demo_env; json_payload := @json_payload demo_env;
     mail_address := @mail_address demo_env; dialect := @dialect demo_env |}.
Definition a_with_stroke : string := String (ascii_of_nat 200) (String (ascii_of_nat 186) "").

(** The place of the closing tag is looked up in the lower-case text: letters whose
    lower case is longer push it past the end of the text that is cut there. *)
Example footer_panics :
  @insert_at_body_end env_long_lower (String.concat "" (replicate 8 a_with_stroke) +:+ "</body>") "x" = None.
Proof. vm_compute. reflexivity. Qed.
