(* ===== verification/WebhookFacts.v ===== *)
(** * What webhooks promise

    The delivery loop ends, after at most three requests, and records how; the dialer
    only connects to public addresses it has checked; the registered endpoints stay
    within the limits over any requests. *)

From S2P Require Import Prelude.
From S2P Require Import GoStr.
From S2P Require Import GoTime.
From S2P Require Import Schema.
From S2P Require Import Eff.
From S2P Require Import Http.
From S2P Require Import Respect.
From S2P Require Import Demo.
From S2P Require Import Tables.
From S2P Require Import TrustedProxy.
From S2P Require Import Auth.
From S2P Require Import Event.
From S2P Require Import Reminders.
From S2P Require Import Webhook.

Local Open Scope Z_scope.

(** ** The delivery loop *)

Record external_client (c : Client) : Prop := {
  ec_do rq : external (c.(cl_do) rq);
  ec_wait n : external (c.(cl_wait) n) }.

(** How a delivery ends: with an answer in 200..299 and the time of it, or with an error. *)
Definition delivered (x : Delivery) : Prop :=
  is_Some x.(dl_DeliveredAt) /\ x.(dl_Error) = None /\
  exists status, x.(dl_ResponseStatus) = Some status /\ 200 <= status < 300.
Definition undelivered (x0 x : Delivery) : Prop :=
  x.(dl_DeliveredAt) = x0.(dl_DeliveredAt) /\ is_Some x.(dl_Error).
(** What identifies a delivery. *)
Definition parcel (x : Delivery) :=
  (x.(dl_ID), x.(dl_WebhookID), x.(dl_EventType), x.(dl_Payload), x.(dl_CreatedAt)).
Definition settled (x0 x : Delivery) : Prop :=
  parcel x = parcel x0 /\ 1 <= x.(dl_Attempt) <= maxRetries /\ (delivered x \/ undelivered x0 x).

(** The record is written once, at the end. *)
Definition written (x : Delivery) (w w' : World) : Prop :=
  w.(w_faults) = [] ->
  w'.(w_db).(webhook_deliveries) = update_where (fun id _ => bool_decide (id = x.(dl_ID)))
    (delivery_update_row x) w.(w_db).(webhook_deliveries).

Section deliver.
Context `{E : Env} (client : Client) (Hc : external_client client).

Definition turn_done (x0 : Delivery) (attempt : Z) (w : World) (r : res verdict) (w' : World) : Prop :=
  match r with
  | Ok (Return x) => settled x0 x /\ written x w w'
  | Ok (Again x e) => parcel x = parcel x0 /\ x.(dl_DeliveredAt) = x0.(dl_DeliveredAt) /\
      x.(dl_Attempt) = attempt /\ idle w w'
  | Err _ => False
  end.

Lemma record_wp x0 x attempt w0 w :
  idle w0 w -> settled x0 x -> wp (record_and_return x) (turn_done x0 attempt w0) w.
Proof.
  intros Hw Hx. unfold record_and_return. apply wp_bind, wp_ignore_err. unfold UpdateDelivery.
  destruct Hw as (Hd & Hf & _). apply wp_exec.
  - intros w' Hw' Hn. apply wp_ret. split; [done|]. intros H0. specialize (Hn (Hf H0)). done.
  - intros d w' Hs (Hd' & _). apply wp_ret. split; [done|]. intros _.
    apply (inj Some) in Hs. by rewrite Hd', <- Hs, <- Hd.
Qed.

Lemma again_done x0 x e attempt w0 w :
  parcel x = parcel x0 -> x.(dl_DeliveredAt) = x0.(dl_DeliveredAt) -> x.(dl_Attempt) = attempt ->
  idle w0 w -> turn_done x0 attempt w0 (Ok (Again x e)) w.
Proof. done. Qed.
Lemma failed_settled x0 x e :
  parcel x = parcel x0 -> x.(dl_DeliveredAt) = x0.(dl_DeliveredAt) -> 1 <= x.(dl_Attempt) <= maxRetries ->
  settled x0 (with_error e x).
Proof. intros Hp Hd Ha. split; [done|]. split; [done|]. right. by split; [|eexists]. Qed.

Lemma send_attempt_wp wh x0 x payload attempt w0 w :
  idle w0 w -> parcel x = parcel x0 -> x.(dl_DeliveredAt) = x0.(dl_DeliveredAt) ->
  x.(dl_Attempt) = attempt -> 1 <= attempt <= maxRetries ->
  wp (send_attempt client wh x payload) (turn_done x0 attempt w0) w.
Proof.
  intros Hw Hp Hd <- Hr. unfold send_attempt.
  destruct (cl_request_error _ _) as [e|]; [by apply record_wp, failed_settled|].
  apply wp_bind, wp_external; [apply Hc|]. intros [e|rp] w1 _ Hw1; [apply wp_ret, again_done; try done; by etrans|].
  assert (idle w0 w1) as Hw2 by by etrans. clear Hw Hw1.
  destruct ((200 <=? _) && _) eqn:H2; [|destruct ((400 <=? _) && _)].
  - apply wp_bind, wp_now. intros w2 Hw3 _. apply record_wp; [by etrans|].
    split; [done|]. split; [done|]. left. split; [by eexists|]. split; [done|]. eexists. split; [done|]. lia.
  - by apply record_wp, failed_settled.
  - by apply wp_ret, again_done.
Qed.

Lemma attempt_turn_wp wh x0 x payload attempt w0 w :
  idle w0 w -> parcel x = parcel x0 -> x.(dl_DeliveredAt) = x0.(dl_DeliveredAt) ->
  1 <= attempt <= maxRetries ->
  wp (attempt_turn client wh attempt x payload) (turn_done x0 attempt w0) w.
Proof.
  intros Hw Hp Hd Hr. unfold attempt_turn. apply wp_bind.
  assert (wp (if 1 <? attempt then cl_wait client (backoff attempt) else ret true)
    (fun r w' => exists b, r = Ok b /\ idle w w') w) as Hb.
  { destruct (1 <? attempt); [|apply wp_ret; by exists true].
    apply wp_external; [apply Hc|]. eauto. }
  eapply wp_mono; [exact Hb|]. intros r w1 (b & -> & Hw1). destruct b; simpl.
  - apply send_attempt_wp; try done. by etrans.
  - apply record_wp; [by etrans|]. by apply failed_settled.
Qed.

(** The loop from any turn, with fuel for the turns that are left. *)
Lemma deliver_loop_wp wh x0 payload fuel attempt x lastErr w0 w :
  idle w0 w -> parcel x = parcel x0 -> x.(dl_DeliveredAt) = x0.(dl_DeliveredAt) ->
  1 <= attempt <= maxRetries + 1 -> (attempt <> 1 -> x.(dl_Attempt) = attempt - 1 /\ is_Some lastErr) ->
  maxRetries + 2 - attempt <= Z.of_nat fuel ->
  wp (deliver_loop client fuel attempt wh x payload lastErr)
    (fun r w' => exists y, r = Ok (Some y) /\ settled x0 y /\ written y w0 w') w.
Proof.
  revert attempt x lastErr w. induction fuel as [|fuel IH]; intros attempt x lastErr w Hw Hp Hd Hr Hl Hf; [lia|].
  simpl. destruct (Z.ltb_spec maxRetries attempt) as [Hm|Hm].
  - unfold maxRetries in *. destruct Hl as [Ha [e ->]]; [lia|].
    pose proof (record_wp x0 (with_error ("all " +:+ itoa 3 +:+ " attempts failed: " +:+ e) x) attempt w0 w Hw
      ltac:(apply failed_settled; [done|done|unfold maxRetries; lia])) as H.
    unfold record_and_return, wp, bind, ignore_err, ret in H |- *. simpl in H |- *. eauto.
  - apply wp_bind. eapply wp_mono; [apply (attempt_turn_wp wh x0 x payload attempt w0 w); [done..|lia]|].
    intros [[y|y e]|e] w1; simpl; [|intros (Hp1 & Hd1 & Ha1 & Hw1)|done].
    + intros [Hs Hy]. apply wp_ret. eauto.
    + apply IH; [done..|lia| |lia]. intros _. split; [lia|by eexists].
Qed.
End deliver.

(** More fuel than the turns need changes nothing. *)
Lemma deliver_loop_S `{E : Env} client fuel attempt wh x payload lastErr :
  deliver_loop client (S fuel) attempt wh x payload lastErr =
  if maxRetries <? attempt then
    ignore_err (UpdateDelivery (exhausted x lastErr)) ;;; ret (Some (exhausted x lastErr))
  else
    v <- attempt_turn client wh attempt x payload ;;
    match v with
    | Return x => ret (Some x)
    | Again x e => deliver_loop client fuel (attempt + 1) wh x payload (Some e)
    end.
Proof. done. Qed.
Lemma deliver_loop_fuel `{E : Env} client wh payload fuel attempt x lastErr w :
  (0 < fuel)%nat -> maxRetries + 2 - attempt <= Z.of_nat fuel ->
  deliver_loop client (S fuel) attempt wh x payload lastErr w
  = deliver_loop client fuel attempt wh x payload lastErr w.
Proof.
  revert attempt x lastErr w. induction fuel as [|fuel IH]; intros attempt x lastErr w H0 Hf; [lia|].
  rewrite (deliver_loop_S client (S fuel)), (deliver_loop_S client fuel).
  destruct (Z.ltb_spec maxRetries attempt) as [Hm|Hm]; [done|].
  apply bind_ext. intros [y|y e] w1; [done|]. apply IH; unfold maxRetries in *; lia.
Qed.
Lemma deliver_loop_enough `{E : Env} client wh payload fuel x w :
  (deliver_fuel <= fuel)%nat ->
  deliver_loop client fuel 1 wh x payload None w = deliver_loop client deliver_fuel 1 wh x payload None w.
Proof.
  induction 1 as [|fuel H IH]; [done|]. rewrite <- IH. unfold deliver_fuel, maxRetries in H.
  apply deliver_loop_fuel; unfold maxRetries; lia.
Qed.


(** ** The dialer *)

Section dialer.
Context `{HttpEnv, DialEnv}.

(** Not special, and in none of the private ranges. *)
Definition public (ip : IP) : Prop :=
  is_unspecified ip = false /\ is_loopback ip = false /\ is_link_local_unicast ip = false /\
  is_link_local_multicast ip = false /\
  forall cidr r, cidr ∈ privateCIDRs -> parse_cidr cidr = Some r -> net_contains r ip = false.
Lemma isPrivateIP_public ip : isPrivateIP (Some ip) = false <-> public ip.
Proof.
  unfold isPrivateIP, public. rewrite !orb_false_iff. split.
  - intros [[[[A1 A2] A3] A4] A5]. repeat split; try done. intros cidr r Hc Hr.
    destruct (net_contains r ip) eqn:Hn; [|done]. rewrite <- A5. symmetry. apply existsb_exists.
    exists r. split; [|done]. apply list_elem_of_In. unfold privateRanges. apply list_elem_of_omap. by exists cidr.
  - intros (A1 & A2 & A3 & A4 & A5). repeat split; try done. apply not_true_is_false.
    intros (r & Hr & Hn)%existsb_exists. apply list_elem_of_In in Hr. unfold privateRanges in Hr.
    apply list_elem_of_omap in Hr as (cidr & Hc & Hr). by rewrite (A5 _ _ Hc Hr) in Hn.
Qed.
Lemma find_private ips :
  List.find (fun ip => isPrivateIP (Some ip)) ips = None <-> Forall public ips.
Proof.
  rewrite Forall_forall. split.
  - intros Hf ip Hip%list_elem_of_In. apply isPrivateIP_public.
    exact (List.find_none _ _ Hf _ Hip).
  - intros Hp. destruct (List.find _ ips) as [ip|] eqn:Hf; [|done]. apply List.find_some in Hf as [Hin Hf].
    apply list_elem_of_In, Hp, isPrivateIP_public in Hin. congruence.
Qed.
End dialer.

(** Webhook connections reach public addresses only: the dialer connects exactly
    when the name resolves and no address it resolves to is unspecified, loopback,
    link-local or in one of the private ranges, and then to the first of the addresses
    that were checked, as an address and not by name, at the port that was asked. *)
Theorem dialer_safe `{HttpEnv, DialEnv} network addr network' address :
  ssrfSafeDialer network addr = DialTo network' address <->
  network' = network /\ exists host port ip ips, split_host_port addr = Some (host, port) /\
    lookup_ip_addr host = Some (ip :: ips) /\ Forall public (ip :: ips) /\
    address = join_host_port (ip_string ip) port.
Proof.
  unfold ssrfSafeDialer. split.
  - destruct (split_host_port addr) as [[host port]|]; [|done].
    destruct (lookup_ip_addr host) as [[|ip ips]|] eqn:Hl; [done| |done]. simpl head. cbv iota.
    destruct (List.find _ (ip :: ips)) as [bad|] eqn:Hf; [done|]. intros [= <- <-].
    split; [done|]. exists host, port, ip, ips. by rewrite find_private in Hf.
  - intros (-> & host & port & ip & ips & -> & -> & Hp & ->). cbn [head].
    apply find_private in Hp. by rewrite Hp.
Qed.

(** ** The registered endpoints *)

Section sound.
Context `{E : Env, !JsonLaws E} (requireHTTPS : bool).

Definition types_ok (l : list string) : Prop := l <> [] /\ Forall (fun t => one_of t ValidEventTypes = true) l.
Definition endpoint_ok (r : WebhookRow) : Prop :=
  isValidWebhookURL r.(wh_url) requireHTTPS = true /\
  exists l, parse_list "parse event_types" r.(wh_types) = Ok l /\ types_ok l.
Definition registered (ev : string) (d : Database) : Z := count (fun _ r => of_event ev r) d.(webhooks).
Definition WebhooksSound (d : Database) : Prop :=
  (forall k r, d.(webhooks) !! k = Some r -> endpoint_ok r) /\
  forall ev, registered ev d <= maxWebhooksPerEvent.

Lemma sound_same d d' : d'.(webhooks) = d.(webhooks) -> keeps WebhooksSound d d'.
Proof. intros H. unfold keeps, WebhooksSound, registered. by rewrite H. Qed.
Lemma webhooks_insert id r d d' :
  insert_webhook id r d = Some d' -> endpoint_ok r -> registered r.(wh_event_id) d < maxWebhooksPerEvent ->
  WebhooksSound d -> WebhooksSound d'.
Proof.
  unfold insert_webhook. intros Hi Hr Hl [Hq Hc]. case_match eqn:Hg; [|done].
  apply (inj Some) in Hi. rewrite <- Hi. clear Hi.
  assert (d.(webhooks) !! id = None) as Hn.
  { apply eq_None_not_Some. rewrite <- has_spec. intros H. by rewrite H in Hg. }
  split; simpl.
  - by intros k r' [[<- <-]|[_ H]]%lookup_insert_Some; [|eapply Hq].
  - intros ev. unfold registered. simpl. rewrite count_insert by done. specialize (Hc ev).
    fold (registered ev d). destruct (of_event ev r) eqn:Hev; [|lia].
    apply bool_decide_eq_true in Hev as <-. lia.
Qed.
(** The columns of one webhook, but not its event. *)
Lemma webhooks_update id f d :
  (forall r, endpoint_ok (f r)) -> (forall r, (f r).(wh_event_id) = r.(wh_event_id)) ->
  WebhooksSound d ->
  WebhooksSound (set_webhooks (update_where (fun k _ => bool_decide (k = id)) f) d).
Proof.
  intros Hf He [Hq Hc]. split; simpl.
  - intros k r. rewrite lookup_update_where. destruct (d.(webhooks) !! k) as [r0|] eqn:Hr; [|done].
    simpl. destruct (bool_decide _); intros [= <-]; [apply Hf|by eapply Hq].
  - intros ev. specialize (Hc ev). unfold registered in *. simpl. rewrite update_where_one.
    destruct (d.(webhooks) !! id) as [r|] eqn:Hr; [|done].
    pose proof (count_update (fun _ r => of_event ev r) _ _ _ (f r) Hr) as Hn. cbv beta in Hn.
    assert (of_event ev (f r) = of_event ev r) as Ho by (unfold of_event; by rewrite He).
    rewrite Ho in Hn. lia.
Qed.
Lemma sound_delete id d : WebhooksSound d -> WebhooksSound (delete_webhook id d).
Proof.
  intros [Hq Hc]. split; simpl.
  - intros k r [_ Hr]%lookup_delete_Some. by eapply Hq.
  - intros ev. specialize (Hc ev). unfold registered in *. simpl.
    destruct (d.(webhooks) !! id) as [r|] eqn:Hr; [|by rewrite delete_id].
    rewrite <- (insert_delete_id d.(webhooks) id r), count_insert in Hc by (done || apply lookup_delete_eq).
    destruct (of_event ev r); lia.
Qed.

Lemma check_url_ok text w url w' :
  check_url requireHTTPS text w = (Ok url, w') -> isValidWebhookURL url requireHTTPS = true /\ w' = w.
Proof. unfold check_url. intros H. by run_ok. Qed.
Lemma check_types_ok l w u w' : check_types l w = (Ok u, w') -> types_ok l /\ w' = w.
Proof.
  unfold check_types. intros H. apply bind_ok in H as (u0 & w1 & [Hn <-]%require_ok & H).
  assert (Forall (fun t => one_of t ValidEventTypes = true) l /\ w' = w) as [Hl ->].
  { clear Hn. revert H. unfold forM. generalize (). induction l as [|t l IH]; simpl; intros v H; [by run_ok|].
    apply bind_ok in H as (? & ? & [Ht <-]%require_ok & H). apply IH in H as [Hl ->]. by repeat constructor. }
  split; [|done]. split; [|done]. intros ->. by simpl in Hn.
Qed.
Lemma types_parse l : types_ok l -> parse_list "parse event_types" (json_list l) = Ok l.
Proof.
  intros [_ Hl]. unfold parse_list. rewrite bool_decide_eq_false_2 by apply json_list_ne.
  rewrite json_strings_list; [done|]. eapply Forall_impl; [exact Hl|].
  intros t Ht. apply bool_decide_eq_true in Ht.
  apply elem_of_cons in Ht as [->|[->|[]%not_elem_of_nil]%elem_of_cons]; done.
Qed.
Lemma endpoint_row w t old :
  isValidWebhookURL w.(hk_URL) requireHTTPS = true -> types_ok w.(hk_EventTypes) ->
  endpoint_ok (webhook_row w t) /\ endpoint_ok (webhook_update_row w t old).
Proof. intros Hu Ht. split; (split; [done|]); exists w.(hk_EventTypes); split; by try apply types_parse. Qed.

Lemma load_ok id w0 wh w' :
  WebhooksSound w0.(w_db) -> load_webhook id w0 = (Ok wh, w') ->
  isValidWebhookURL wh.(hk_URL) requireHTTPS = true /\ types_ok wh.(hk_EventTypes).
Proof.
  intros [Hq _] H. unfold load_webhook, Store_FindByID in H.
  apply bind_ok in H as (o & w1 & H & Ho).
  apply bind_ok in H as (row & w2 & (-> & _)%query_ok & [Hp _]%of_res_ok).
  apply of_option_ok in Ho as [-> _].
  destruct (w0.(w_db).(webhooks) !! id) as [r|] eqn:Hr; [|done].
  destruct (Hq _ _ Hr) as (Hu & l & Hl & Ht). unfold scanWebhook, parseWebhook, parse_time in Hp.
  rewrite Hl in Hp. simpl in Hp. destruct (parse_rfc3339 r.(wh_created_at)); [|done]; simpl in Hp.
  destruct (parse_rfc3339 r.(wh_updated_at)); [|done]; simpl in Hp. by injection Hp as <-.
Qed.
Lemma load_reads id : reads (load_webhook id).
Proof. unfold load_webhook, Store_FindByID. respect. Qed.
Hint Resolve load_reads : respects.

(** One webhook read and written back. *)
Lemma Store_UpdateWebhook_sound wh :
  isValidWebhookURL wh.(hk_URL) requireHTTPS = true -> types_ok wh.(hk_EventTypes) ->
  respects (keeps WebhooksSound) (Store_UpdateWebhook wh).
Proof.
  intros Hu Ht. unfold Store_UpdateWebhook. respect_reply. intros Hs. apply (inj Some) in Hs.
  rewrite <- Hs. unfold keeps. apply webhooks_update; [|done]. intros r. by apply endpoint_row.
Qed.

(** A read, and a write that keeps the limits whatever was read. *)
Lemma sound_then {A B} (m : M A) (k : A -> M B) w :
  reads m -> WebhooksSound w.(w_db) ->
  (forall a w', m w = (Ok a, w') -> w'.(w_db) = w.(w_db) -> respects (keeps WebhooksSound) (k a)) ->
  wp (bind m k) (fun _ w' => WebhooksSound w'.(w_db)) w.
Proof.
  intros Hm Hw Hk. apply wp_bind_reads; [done..|]. intros a w1 Ha H1.
  apply (Hk _ _ Ha H1 w1). by rewrite H1.
Qed.
Lemma generateSecret_reads : reads generateSecret.
Proof. unfold generateSecret. respect. Qed.
Lemma check_url_reads t : reads (check_url requireHTTPS t).
Proof. unfold check_url. respect. Qed.
Lemma check_types_reads l : reads (check_types l).
Proof. unfold check_types. respect. Qed.
Hint Resolve generateSecret_reads check_url_reads check_types_reads : respects.

Lemma CreateWebhook_sound ev req : respects (keeps WebhooksSound) (CreateWebhook requireHTTPS ev req).
Proof.
  apply keeps_wp. intros w Hw. unfold CreateWebhook.
  apply wp_bind_reads; [auto with respects|done|]. intros url w1 [Hu _]%check_url_ok H1.
  apply wp_bind_reads; [auto with respects|by rewrite H1|]. intros [] w2 [Ht _]%check_types_ok H2.
  apply wp_bind_reads; [apply respects_or_err; unfold CountByEvent; by respect|by rewrite H2, H1|].
  intros n w3 Hn H3. apply wp_bind, wp_require; intros Hlt; [|by rewrite H3, H2, H1].
  apply wp_bind_reads; [auto with respects|by rewrite H3, H2, H1|]. intros secret w4 _ H4.
  apply wp_bind, wp_new_uuid. intros w5 (H5 & _). unfold Store_CreateWebhook, now_text.
  assert (w5.(w_db) = w.(w_db)) as Hd by congruence.
  apply wp_bind_reads; [by respect|by rewrite Hd|]. intros t w6 _ H6. rewrite Hd in H6.
  apply wp_bind, wp_exec; [intros w7 (-> & _) _; by rewrite H6|].
  intros d w7 Hi (Hd' & _). apply wp_ret. simpl. rewrite Hd'.
  eapply webhooks_insert; [exact Hi|by apply endpoint_row| |by rewrite H6]. simpl. rewrite H6.
  unfold or_err in Hn. destruct (CountByEvent ev w2) as [[m|] w8] eqn:Hm; [|done].
  injection Hn as -> _. unfold CountByEvent in Hm. apply query_ok in Hm as (-> & _).
  rewrite <- H1, <- H2. unfold registered. lia.
Qed.
Lemma UpdateWebhook_sound id req : respects (keeps WebhooksSound) (UpdateWebhook requireHTTPS id req).
Proof.
  apply keeps_wp. intros w Hw. unfold UpdateWebhook.
  apply wp_bind_reads; [auto with respects|done|]. intros wh w1 Hwh H1.
  apply load_ok in Hwh as [Hu Ht]; [|done]. rewrite <- H1 in Hw. clear H1.
  apply wp_bind_reads; [by respect|done|]. intros url w2 Hurl H2.
  assert (isValidWebhookURL url requireHTTPS = true) as Hu'.
  { destruct (uw_URL req); [by apply check_url_ok in Hurl as [? _]|by run_ok]. }
  rewrite <- H2 in Hw. apply sound_then; [by respect|done|]. intros types w3 Htypes H3.
  assert (types_ok types) as Ht'.
  { destruct (uw_EventTypes req); [|by run_ok].
    apply bind_ok in Htypes as (? & ? & [Hl _]%check_types_ok & [<- _]%ret_ok). done. }
  by apply Store_UpdateWebhook_sound.
Qed.
Lemma RotateSecret_sound id : respects (keeps WebhooksSound) (RotateSecret id).
Proof.
  apply keeps_wp. intros w Hw. unfold RotateSecret.
  apply sound_then; [auto with respects|done|]. intros wh w1 Hwh _. apply load_ok in Hwh as [Hu Ht]; [|done].
  apply respects_bind; [apply _|apply reads_respects; [apply _|auto with respects]|].
  intros secret. by apply Store_UpdateWebhook_sound.
Qed.
Lemma DeleteWebhook_sound id : respects (keeps WebhooksSound) (DeleteWebhook id).
Proof.
  unfold DeleteWebhook, Store_DeleteWebhook. respect_reply.
  - apply reads_respects; [apply _|auto with respects].
  - intros Hs. apply (inj Some) in Hs. rewrite <- Hs. unfold keeps. apply sound_delete.
Qed.

(** Deliveries are another table. *)
Variable client : Client.
Hypothesis client_reads : (forall rq, reads (client.(cl_do) rq)) /\ forall n, reads (client.(cl_wait) n).

Lemma CreateDelivery_sound x : respects (keeps WebhooksSound) (CreateDelivery x).
Proof.
  unfold CreateDelivery. respect_reply. unfold insert_delivery. intros Hi. case_match; [|done].
  apply (inj Some) in Hi. rewrite <- Hi. by apply sound_same.
Qed.
Lemma UpdateDelivery_sound x : respects (keeps WebhooksSound) (UpdateDelivery x).
Proof.
  unfold UpdateDelivery. respect_reply. intros Hi. apply (inj Some) in Hi. rewrite <- Hi. by apply sound_same.
Qed.
Hint Resolve CreateDelivery_sound UpdateDelivery_sound : respects.
Lemma client_sound : (forall rq, respects (keeps WebhooksSound) (client.(cl_do) rq)) /\
  forall n, respects (keeps WebhooksSound) (client.(cl_wait) n).
Proof. destruct client_reads. split; intros; (apply reads_respects; [apply _|auto]). Qed.
Lemma deliver_sound wh x payload : respects (keeps WebhooksSound) (deliver client wh x payload).
Proof.
  destruct client_sound as [Hdo Hwait].
  assert (forall wh x payload, respects (keeps WebhooksSound) (send_attempt client wh x payload)) as Hs.
  { intros. unfold send_attempt, record_and_return. respect_reply. }
  assert (forall fuel a wh x payload e, respects (keeps WebhooksSound) (deliver_loop client fuel a wh x payload e)) as Hl.
  { induction fuel as [|fuel IH]; intros; simpl; unfold attempt_turn, record_and_return; respect_reply. }
  unfold deliver. respect_reply.
Qed.
Lemma SendTest_sound id : respects (keeps WebhooksSound) (SendTest client id).
Proof.
  unfold SendTest, getDeliveryByID. respect_reply; [apply reads_respects; [apply _|auto with respects]|].
  apply deliver_sound.
Qed.
Lemma Dispatch_sound ev kind data : respects (keeps WebhooksSound) (Dispatch ev kind data).
Proof. unfold Dispatch, FindEnabledByEventAndType, record_delivery. respect_reply. Qed.
Lemma deliver_all_sound l : respects (keeps WebhooksSound) (deliver_all client l).
Proof. unfold deliver_all. respect_reply. apply deliver_sound. Qed.
Hint Resolve CreateWebhook_sound UpdateWebhook_sound RotateSecret_sound DeleteWebhook_sound
  SendTest_sound Dispatch_sound deliver_all_sound : respects.

(** ** Requests *)

Variable checkOwner : string -> string -> M ().
Hypothesis checkOwner_reads : forall ev u, reads (checkOwner ev u).

Inductive webhook_op :=
| WCreate (u : option string) (ev : string) (body : option CreateWebhookRequest)
| WList (u : option string) (ev : string)
| WGet (u : option string) (id : string)
| WUpdate (u : option string) (id : string) (body : option UpdateWebhookRequest)
| WDelete (u : option string) (id : string)
| WRotate (u : option string) (id : string)
| WDeliveries (u : option string) (id : string)
| WTest (u : option string) (id : string)
| WEvent (ev kind data : string).
Definition run_webhook (o : webhook_op) : M () :=
  match o with
  | WCreate u ev b => ignore_err (handleCreate requireHTTPS checkOwner u ev b)
  | WList u ev => ignore_err (handleList checkOwner u ev)
  | WGet u id => ignore_err (handleGet checkOwner u id)
  | WUpdate u id b => ignore_err (handleUpdate requireHTTPS checkOwner u id b)
  | WDelete u id => ignore_err (handleDelete checkOwner u id)
  | WRotate u id => ignore_err (handleRotateSecret checkOwner u id)
  | WDeliveries u id => ignore_err (handleGetDeliveries checkOwner u id)
  | WTest u id => ignore_err (handleSendTest client checkOwner u id)
  | WEvent ev kind data => ignore_err (l <- Dispatch ev kind data ;; deliver_all client l)
  end.
Definition run_webhooks (ops : list webhook_op) (w : World) : World :=
  fold_left (fun w o => (run_webhook o w).2) ops w.

Lemma for_event_keeps u ev k :
  respects (keeps WebhooksSound) k -> respects (keeps WebhooksSound) (for_event checkOwner u ev k).
Proof. intros Hk. unfold for_event. respect_reply. apply reads_respects; [apply _|auto]. Qed.
Lemma for_webhook_keeps u id k :
  (forall wh, respects (keeps WebhooksSound) (k wh)) ->
  respects (keeps WebhooksSound) (for_webhook checkOwner u id k).
Proof.
  intros Hk. unfold for_webhook, GetWebhook. respect_reply; (apply reads_respects; [apply _|auto with respects]).
Qed.
Lemma run_webhook_sound o : respects (keeps WebhooksSound) (run_webhook o).
Proof.
  destruct o; apply respects_ignore_err; try apply for_event_keeps; try (apply for_webhook_keeps; intros wh);
    unfold ListByEvent, Store_FindByEventID, GetDeliveries, FindDeliveriesByWebhook; respect_reply.
Qed.
End sound.

(** The registered webhooks stay within their limits over any requests, test
    deliveries and published or cancelled events, whatever the endpoints answer and with any
    driver faults: every stored endpoint has an acceptable URL and a non-empty list of known
    event types, and no event has more than ten of them. *)
Theorem webhooks_sound `{E : Env, !JsonLaws E} requireHTTPS client checkOwner ops w :
  (forall rq, reads (client.(cl_do) rq)) -> (forall n, reads (client.(cl_wait) n)) ->
  (forall ev u, reads (checkOwner ev u)) ->
  WebhooksSound requireHTTPS w.(w_db) ->
  WebhooksSound requireHTTPS (run_webhooks requireHTTPS client checkOwner ops w).(w_db).
Proof.
  intros Hd Hw Hc. revert w. induction ops as [|o ops IH]; intros w Hs; simpl; [done|].
  apply IH. by apply (run_webhook_sound requireHTTPS client (conj Hd Hw) checkOwner Hc o w).
Qed.

(** ** Examples *)

(** An endpoint that is down twice, and a client that waits. *)
Definition demo_client : Client :=
  MkClient (fun _ => None)
    (fun _ => n <- read_random (E:=json_env) 1 ;;
       ret (if bool_decide (n = Some (of_bytes [byte_of 2])) then inr (MkResponse 204 "") else inl "refused"))
    (fun _ => ret true).
Definition demo_hook_request : CreateWebhookRequest :=
  MkCreateWebhook " https://example.org/hook" ["event.cancelled"] "".
Definition allow : string -> string -> M () := fun _ _ => ret ().
Definition hook_world : World :=
  with_db (set_webhooks (fun _ => ∅) (set_webhook_deliveries (fun _ => ∅) demo_db)) demo_world.
Definition demo_hook_ops : list webhook_op :=
  [WCreate (Some "org") "ev" (Some demo_hook_request); WTest (Some "org") "u0";
   WEvent "ev" "event.cancelled" "{}"; WRotate (Some "org") "u0"].

Lemma demo_client_external : external_client demo_client.
Proof. split; intros rq w; eexists _, _; by repeat split. Qed.

Definition demo_hook : Webhook :=
  MkWebhook "h" "ev" "https://example.org/hook" "s" ["event.cancelled"] "" true demo_start demo_start.
Definition demo_delivery : Delivery :=
  MkDelivery "d" "h" "event.cancelled" "{}" None None None 0 None demo_start.


Lemma webhooks_sound_witness :
  WebhooksSound (E:=json_env) true
    (run_webhooks (E:=json_env) true demo_client allow demo_hook_ops hook_world).(w_db).
Proof.
  apply (@webhooks_sound json_env json_env_laws true demo_client allow demo_hook_ops hook_world).
  - intros rq w. reflexivity.
  - intros n w. reflexivity.
  - intros ev u w. reflexivity.
  - split; [intros k r [=]|]. intros ev. vm_compute. discriminate.
Defined.
(** The example registers an endpoint and delivers to it twice. *)
Example demo_hook_registered :
  let d := (run_webhooks (E:=json_env) true demo_client allow demo_hook_ops hook_world).(w_db) in
  size d.(webhooks) = 1%nat /\ size d.(webhook_deliveries) = 2%nat.
Proof. vm_compute. split; reflexivity. Qed.

(** IPv4 addresses as numbers; two names. *)
Definition demo_cidrs : list (string * (Z * Z)) :=
  [("10.0.0.0/8", (10, 24)); ("127.0.0.0/8", (127, 24)); ("192.168.0.0/16", (49320, 16))].
Definition demo_net : NetEnv := {|
  IP := Z; IPNet := Z * Z; parse_ip _ := None; ip_string n := itoa n;
  net_contains r n := Z.shiftr n r.2 =? r.1; is_ip4 _ := true; host_net n b := (n, 32 - b);
  parse_cidr s := snd <$> List.find (fun e => bool_decide (e.1 = s)) demo_cidrs;
  join_host_port h p := h +:+ ":" +:+ p |}.
Definition demo_lookup (s : string) : option (list Z) :=
  if bool_decide (s = "example.org") then Some [1572395042]
  else if bool_decide (s = "inner") then Some [1572395042; 3232235777] else None.
Definition demo_dial : @DialEnv demo_net :=
  @Build_DialEnv demo_net demo_lookup (fun n => Z.eqb n 0) (fun n => Z.eqb (Z.shiftr n 24) 127)
    (fun _ => false) (fun _ => false).
Definition demo_split : HttpEnv := {| split_host_port s :=
  match split s ":" with [h; p] => Some (h, p) | _ => None end |}.

(** One private address among the answers is enough to refuse. *)
Lemma dialer_safe_witness :
  Forall (@public demo_net demo_dial) [1572395042] /\
  @ssrfSafeDialer demo_split demo_net demo_dial "tcp" "inner:443"
  = DialRefused "webhook URL resolves to private IP 3232235777".
Proof.
  split; [|vm_compute; reflexivity].
  destruct (proj1 (@dialer_safe demo_split demo_net demo_dial "tcp" "example.org:443" "tcp"
    "1572395042:443") ltac:(vm_compute; reflexivity)) as (_ & host & port & ip & ips & Hs & Hl & Hp & _).
  vm_compute in Hs. injection Hs as <- <-. vm_compute in Hl. injection Hl as <- <-. exact Hp.
Defined.
