(* ===== verification/Questions.v ===== *)
(** * Questions of an event (internal/question)

    Organizers define the questions that households answer (the answers belong to
    the invitation package).  A question is deleted by marking it; the list of
    options is stored as a JSON text. *)

From S2P Require Import Prelude.
From S2P Require Import GoStr.
From S2P Require Import GoTime.
From S2P Require Import Schema.
From S2P Require Import Eff.
From S2P Require Import Http.
From S2P Require Import Respect.
From S2P Require Import Demo.
From S2P Require Import Tables.
From S2P Require Import Auth.
From S2P Require Import Event.
From S2P Require Import Reminders.
From S2P Require Import Webhook.

Local Open Scope Z_scope.

(** ** model.go *)

Record Question := MkQuestion {
  qn_ID : string; qn_EventID : string; qn_Label : string; qn_Type : string;
  qn_Options : list string; qn_Required : bool; qn_Scope : string; qn_SortOrder : Z;
  qn_Deleted : bool; qn_CreatedAt : time; qn_UpdatedAt : time }.

(** A nil slice of options and an empty one are told apart in an update. *)
Record CreateQuestionRequest := MkCreateQuestion {
  cq_Label : string; cq_Type : string; cq_Options : option (list string);
  cq_Required : option bool; cq_Scope : string; cq_SortOrder : option Z }.
Record UpdateQuestionRequest := MkUpdateQuestion {
  uq_Label : option string; uq_Type : option string; uq_Options : option (list string);
  uq_Required : option bool; uq_Scope : option string; uq_SortOrder : option Z }.

(** ** store.go *)

Section rows.
Context `{E : Env}.

Definition parseQuestion (id : string) (r : QuestionRow) : res Question :=
  options <-r parse_list "parse options" r.(q_options) ;;
  created <-r parse_time "parse created_at" r.(q_created_at) ;;
  updated <-r parse_time "parse updated_at" r.(q_updated_at) ;;
  Ok (MkQuestion id r.(q_event_id) r.(q_label) r.(q_type) options r.(q_required) r.(q_scope)
        r.(q_sort_order) r.(q_deleted) created updated).

Definition question_row (q : Question) (now : string) : QuestionRow :=
  {| q_event_id := q.(qn_EventID); q_label := q.(qn_Label); q_type := q.(qn_Type);
     q_options := json_list q.(qn_Options); q_required := q.(qn_Required);
     q_scope := q.(qn_Scope); q_sort_order := q.(qn_SortOrder); q_deleted := false;
     q_created_at := now; q_updated_at := now |}.
Definition question_update_row (q : Question) (now : string) (old : QuestionRow) : QuestionRow :=
  {| q_event_id := old.(q_event_id); q_label := q.(qn_Label); q_type := q.(qn_Type);
     q_options := json_list q.(qn_Options); q_required := q.(qn_Required);
     q_scope := q.(qn_Scope); q_sort_order := q.(qn_SortOrder); q_deleted := old.(q_deleted);
     q_created_at := old.(q_created_at); q_updated_at := now |}.
End rows.

Definition question_deleted_row (now : string) (r : QuestionRow) : QuestionRow :=
  {| q_event_id := r.(q_event_id); q_label := r.(q_label); q_type := r.(q_type);
     q_options := r.(q_options); q_required := r.(q_required); q_scope := r.(q_scope);
     q_sort_order := r.(q_sort_order); q_deleted := true; q_created_at := r.(q_created_at);
     q_updated_at := now |}.
Definition question_order_row (i : Z) (now : string) (r : QuestionRow) : QuestionRow :=
  {| q_event_id := r.(q_event_id); q_label := r.(q_label); q_type := r.(q_type);
     q_options := r.(q_options); q_required := r.(q_required); q_scope := r.(q_scope);
     q_sort_order := i; q_deleted := r.(q_deleted); q_created_at := r.(q_created_at);
     q_updated_at := now |}.

(** [WHERE event_id = ? AND deleted = 0] *)
Definition live_question (eventID : string) (r : QuestionRow) : bool :=
  bool_decide (r.(q_event_id) = eventID) && negb r.(q_deleted).
Definition question_before (a b : string * QuestionRow) : bool :=
  a.2.(q_sort_order) <=? b.2.(q_sort_order).

(** [UPDATE event_questions SET ... WHERE id = ? AND Q], with the CHECK constraints. *)
Definition update_question (id : string) (Q : QuestionRow -> bool) (f : QuestionRow -> QuestionRow)
    (d : Database) : option Database :=
  match d.(event_questions) !! id with
  | Some r =>
      if Q r then
        if question_check (f r) then Some (set_event_questions <[id := f r]> d) else None
      else Some d
  | None => Some d
  end.

Section store.
Context `{E : Env}.

Definition Store_Create (q : Question) : M Question :=
  nowText <- now_text ;;
  exec "create question" (insert_question q.(qn_ID) (question_row q nowText)) ;;;
  ret (MkQuestion q.(qn_ID) q.(qn_EventID) q.(qn_Label) q.(qn_Type) q.(qn_Options)
         q.(qn_Required) q.(qn_Scope) q.(qn_SortOrder) q.(qn_Deleted) (reparse nowText)
         (reparse nowText)).

Definition Store_FindByEventID (eventID : string) : M (list Question) :=
  rows <- query "find questions by event" (fun d =>
    order_by question_before (select (fun _ r => live_question eventID r) d.(event_questions))) ;;
  mapM (fun x => of_res (parseQuestion x.1 x.2)) rows.

Definition Store_FindByID (id : string) : M (option Question) :=
  row <- query "scan question" (fun d => d.(event_questions) !! id) ;;
  of_res match row with
         | None => Ok None
         | Some r => q <-r parseQuestion id r ;; Ok (Some q)
         end.

Definition Store_Update (q : Question) : M Question :=
  nowText <- now_text ;;
  exec "update question"
    (update_question q.(qn_ID) (fun _ => true) (question_update_row q nowText)) ;;;
  ret (MkQuestion q.(qn_ID) q.(qn_EventID) q.(qn_Label) q.(qn_Type) q.(qn_Options)
         q.(qn_Required) q.(qn_Scope) q.(qn_SortOrder) q.(qn_Deleted) q.(qn_CreatedAt)
         (reparse nowText)).

Definition SoftDelete (id : string) : M () :=
  nowText <- now_text ;;
  exec "soft delete question" (update_question id (fun _ => true) (question_deleted_row nowText)).

Definition CountByEventID (eventID : string) : M Z :=
  query "count questions by event" (fun d =>
    count (fun _ r => live_question eventID r) d.(event_questions)).

Definition UpdateSortOrders (eventID : string) (orderedIDs : list string) : M () :=
  with_tx "begin tx" "commit sort order update" (
    nowText <- now_text ;;
    forM (imap pair orderedIDs) (fun x =>
      exec ("update sort order for " +:+ x.2)
        (update_question x.2 (live_question eventID)
           (question_order_row (Z.of_nat x.1) nowText)))).
End store.

(** ** service.go *)

Definition maxQuestionsPerEvent : Z := 10.
Definition maxOptionsPerQuestion : Z := 20.
Definition maxLabelLength : Z := 500.
Definition maxOptionLength : Z := 200.
Definition validTypes : list string := ["text"; "select"; "checkbox"].
Definition validScopes : list string := ["invitation"; "guest"].

Definition num (n : Z) (before after : string) : err := EText (before +:+ itoa n +:+ after).

Definition check_label (text : string) : res string :=
  let label := trim_space text in
  if bool_decide (label = "") then Err (EText "label is required") else
  if maxLabelLength <? len label
  then Err (num maxLabelLength "label must be " " characters or fewer") else Ok label.
Definition check_type (type : string) : res () :=
  if one_of type validTypes then Ok ()
  else Err (EText "invalid question type: must be text, select, or checkbox").
Definition check_scope (scope : string) : res () :=
  if one_of scope validScopes then Ok ()
  else Err (EText "invalid question scope: must be invitation or guest").
(** The loop over the options. *)
Fixpoint check_options (options : list string) : res () :=
  match options with
  | [] => Ok ()
  | o :: rest =>
      if bool_decide (trim_space o = "") then Err (EText "option values cannot be empty") else
      if maxOptionLength <? len o
      then Err (num maxOptionLength "option values must be " " characters or fewer")
      else check_options rest
  end.
(** A question to choose from needs a choice. *)
Definition enough_options (type : string) (options : list string) : res () :=
  if one_of type ["select"; "checkbox"] && (Z.of_nat (length options) <? 2)
  then Err (EText "select and checkbox questions require at least 2 options") else Ok ().
Definition few_options (options : list string) : res () :=
  if maxOptionsPerQuestion <? Z.of_nat (length options)
  then Err (num maxOptionsPerQuestion "maximum " " options per question") else Ok ().

Section service.
Context `{E : Env}.

Definition Create (eventID : string) (req : CreateQuestionRequest) : M Question :=
  let options := default [] req.(cq_Options) in
  label <- of_res (check_label req.(cq_Label)) ;;
  of_res (check_type req.(cq_Type)) ;;;
  of_res (enough_options req.(cq_Type) options) ;;;
  of_res (few_options options) ;;;
  of_res (check_options options) ;;;
  count <- or_err (EInternal "count questions") (CountByEventID eventID) ;;
  require (count <? maxQuestionsPerEvent)
    (num maxQuestionsPerEvent "maximum " " questions per event") ;;;
  let scope := if bool_decide (req.(cq_Scope) = "") then "guest" else req.(cq_Scope) in
  of_res (check_scope scope) ;;;
  id <- new_uuid ;;
  Store_Create (MkQuestion id eventID label req.(cq_Type) options
    (default false req.(cq_Required)) scope (default count req.(cq_SortOrder)) false
    zero_time zero_time).

Definition question_missing : err := EText "question not found".
Definition load_question (id : string) : M Question :=
  o <- Store_FindByID id ;;
  match o with
  | Some q => require (negb q.(qn_Deleted)) question_missing ;;; ret q
  | None => fail question_missing
  end.

(** The fields of a request applied to the question, in the order of the code. *)
Definition apply_update (q : Question) (req : UpdateQuestionRequest) : res Question :=
  label <-r match req.(uq_Label) with None => Ok q.(qn_Label) | Some l => check_label l end ;;
  type <-r match req.(uq_Type) with
           | None => Ok q.(qn_Type)
           | Some t => _ <-r check_type t ;; Ok t
           end ;;
  options <-r match req.(uq_Options) with
              | None => Ok q.(qn_Options)
              | Some l => _ <-r check_options l ;; Ok l
              end ;;
  _ <-r enough_options type options ;;
  _ <-r few_options options ;;
  scope <-r match req.(uq_Scope) with
            | None => Ok q.(qn_Scope)
            | Some s => _ <-r check_scope s ;; Ok s
            end ;;
  Ok (MkQuestion q.(qn_ID) q.(qn_EventID) label type options
        (default q.(qn_Required) req.(uq_Required)) scope
        (default q.(qn_SortOrder) req.(uq_SortOrder)) q.(qn_Deleted) q.(qn_CreatedAt)
        q.(qn_UpdatedAt)).

Definition Update (questionID : string) (req : UpdateQuestionRequest) : M Question :=
  q <- load_question questionID ;;
  q' <- of_res (apply_update q req) ;;
  Store_Update q'.

Definition Delete (questionID : string) : M () :=
  load_question questionID ;;; SoftDelete questionID.

Definition ListByEvent (eventID : string) : M (list Question) := Store_FindByEventID eventID.
Definition Reorder (eventID : string) (orderedIDs : list string) : M () :=
  UpdateSortOrders eventID orderedIDs.
End service.

(** ** handler.go *)

Inductive QuestionPayload :=
| PQuestion (q : Question)
| PQuestions (l : list Question)
| PQuestionMessage (message : string).
Abbreviation Answer := (M (Resp QuestionPayload)).

Section handler.
Context `{E : Env} (checkEventOwner : string -> string -> M ()).

Definition no_question : Resp QuestionPayload := json_error 404 "not_found" "question not found".

Definition for_event (organizer : option string) (eventID : string) (k : Answer) : Answer :=
  for_user organizer (fun organizerID =>
  on_ok (checkEventOwner eventID organizerID) (fun _ => ret no_event) (fun _ => k)).
(** The routes of one question of the event. *)
Definition for_question (organizer : option string) (eventID questionID : string) (k : Answer)
    : Answer :=
  for_event organizer eventID (
  on_ok (Store_FindByID questionID) (fun _ => ret plain_internal) (fun existing =>
  match existing with
  | Some q => if q.(qn_Deleted) || negb (bool_decide (q.(qn_EventID) = eventID))
              then ret no_question else k
  | None => ret no_question
  end)).

Definition handleList (organizer : option string) (eventID : string) : Answer :=
  for_event organizer eventID (
  on_ok (ListByEvent eventID) (fun _ => ret plain_internal)
    (fun l => ret (json 200 (PQuestions l)))).

Definition handleCreate (organizer : option string) (eventID : string)
    (body : option CreateQuestionRequest) : Answer :=
  for_event organizer eventID (for_body body (fun req =>
  on_ok (Create eventID req) (fun e => ret (error_text 400 "bad_request" e))
    (fun q => ret (json 201 (PQuestion q))))).

Definition handleUpdate (organizer : option string) (eventID questionID : string)
    (body : option UpdateQuestionRequest) : Answer :=
  for_question organizer eventID questionID (for_body body (fun req =>
  on_ok (Update questionID req) (fun e => ret (error_text 400 "bad_request" e))
    (fun q => ret (json 200 (PQuestion q))))).

Definition handleDelete (organizer : option string) (eventID questionID : string) : Answer :=
  for_question organizer eventID questionID (
  on_ok (Delete questionID) (fun _ => ret plain_internal)
    (fun _ => ret (json 200 (PQuestionMessage "question deleted")))).

Definition handleReorder (organizer : option string) (eventID : string)
    (body : option (list string)) : Answer :=
  for_event organizer eventID (for_body body (fun questionIDs =>
  if bool_decide (questionIDs = []) then ret (bad_request "questionIds is required") else
  if maxQuestionsPerEvent <? Z.of_nat (length questionIDs)
  then ret (bad_request ("too many question IDs (max " +:+ itoa maxQuestionsPerEvent +:+ ")")) else
  on_ok (Reorder eventID questionIDs) (fun _ => ret plain_internal)
    (fun _ => ret (json 200 (PQuestionMessage "questions reordered"))))).
End handler.

(** ** What questions promise

    The limits on the questions of an event hold after any requests, and a question
    that was created reads back as it was asked. *)

(** ** The limits *)

Section sound.
Context `{E : Env}.

Definition label_ok (l : string) : Prop := trim_space l = l /\ l <> "" /\ len l <= maxLabelLength.
Definition option_ok (o : string) : Prop := trim_space o <> "" /\ len o <= maxOptionLength.
Definition options_ok (type : string) (l : list string) : Prop :=
  Z.of_nat (length l) <= maxOptionsPerQuestion /\ Forall option_ok l /\
  (one_of type ["select"; "checkbox"] = true -> 2 <= Z.of_nat (length l)).

Definition question_ok (r : QuestionRow) : Prop :=
  label_ok r.(q_label) /\ one_of r.(q_type) validTypes = true /\
  one_of r.(q_scope) validScopes = true /\
  exists l, parse_list "parse options" r.(q_options) = Ok l /\ decoded l /\ options_ok r.(q_type) l.
Definition live_questions (ev : string) (d : Database) : Z :=
  count (fun _ r => live_question ev r) d.(event_questions).
Definition QuestionsSound (d : Database) : Prop :=
  (forall k r, d.(event_questions) !! k = Some r -> question_ok r) /\
  forall ev, live_questions ev d <= maxQuestionsPerEvent.

(** Writing a row: one more question, or one changed in place. *)
Lemma questions_insert id r d d' :
  insert_question id r d = Some d' -> question_ok r -> live_questions r.(q_event_id) d < maxQuestionsPerEvent ->
  QuestionsSound d -> QuestionsSound d'.
Proof.
  unfold insert_question. intros Hi Hr Hl [Hq Hc]. case_match eqn:Hg; [|done].
  apply (inj Some) in Hi. rewrite <- Hi. clear Hi.
  assert (d.(event_questions) !! id = None) as Hn.
  { apply eq_None_not_Some. rewrite <- has_spec. intros H. by rewrite H in Hg. }
  split; simpl.
  - by intros k r' [[<- <-]|[_ H]]%lookup_insert_Some; [|eapply Hq].
  - intros ev. unfold live_questions. simpl. rewrite count_insert by done.
    specialize (Hc ev). fold (live_questions ev d). destruct (live_question ev r) eqn:Hev; [|lia].
    unfold live_question in Hev. apply andb_true_iff in Hev as [<-%bool_decide_eq_true _]. lia.
Qed.
Lemma questions_update id Q f d d' :
  (forall r, d.(event_questions) !! id = Some r -> Q r = true -> question_ok r -> question_ok (f r) /\
     (forall ev, live_question ev (f r) = true -> live_question ev r = true)) ->
  update_question id Q f d = Some d' -> QuestionsSound d -> QuestionsSound d'.
Proof.
  unfold update_question. intros Hf Hu [Hq Hc]. destruct (d.(event_questions) !! id) as [r|] eqn:Hr;
    [|by injection Hu as <-]. destruct (Q r) eqn:HQ; [|by injection Hu as <-].
  destruct (question_check (f r)); [|done]. apply (inj Some) in Hu. rewrite <- Hu. clear Hu.
  destruct (Hf r eq_refl HQ (Hq _ _ Hr)) as [Hok Hlive]. split; simpl.
  - by intros k r' [[<- <-]|[_ H]]%lookup_insert_Some; [|eapply Hq].
  - intros ev. specialize (Hc ev). unfold live_questions in *. simpl.
    pose proof (count_update (fun _ r => live_question ev r) _ _ _ (f r) Hr) as Hn. cbv beta in Hn.
    specialize (Hlive ev). destruct (live_question ev (f r)), (live_question ev r); lia.
Qed.

(** ** The checks *)

Lemma check_label_ok l x : check_label l = Ok x -> label_ok x.
Proof.
  unfold check_label. case_bool_decide; [done|]. case_match eqn:Hl; [done|]. intros [= <-].
  split; [apply trim_space_idemp|]. split; [done|lia].
Qed.
Lemma check_options_ok l : check_options l = Ok () -> Forall option_ok l.
Proof.
  induction l as [|o l IH]; simpl; [by constructor|]. case_bool_decide; [done|].
  case_match; [done|]. intros H1%IH. constructor; [split; [done|lia]|done].
Qed.
Lemma options_checked type l :
  enough_options type l = Ok () -> few_options l = Ok () -> Forall option_ok l -> options_ok type l.
Proof.
  unfold enough_options, few_options. intros He Hf Hl. split; [|split; [done|]].
  - by destruct (Z.ltb_spec maxOptionsPerQuestion (Z.of_nat (length l))).
  - intros Ht. rewrite Ht in He. by destruct (Z.ltb_spec (Z.of_nat (length l)) 2).
Qed.
Lemma check_type_ok t : check_type t = Ok () -> one_of t validTypes = true.
Proof. unfold check_type. by destruct (one_of _ _). Qed.
Lemma check_scope_ok t : check_scope t = Ok () -> one_of t validScopes = true.
Proof. unfold check_scope. by destruct (one_of _ _). Qed.

(** What a validated question is. *)
Definition valid (q : Question) : Prop :=
  label_ok q.(qn_Label) /\ one_of q.(qn_Type) validTypes = true /\
  one_of q.(qn_Scope) validScopes = true /\ options_ok q.(qn_Type) q.(qn_Options).

Lemma question_update_ok q req q' : apply_update q req = Ok q' -> valid q ->
  valid q' /\ q'.(qn_ID) = q.(qn_ID) /\
  (q'.(qn_Options) = q.(qn_Options) \/ req.(uq_Options) = Some q'.(qn_Options)).
Proof.
  unfold apply_update. intros H (Hl & Ht & Hs & Ho).
  destruct (match uq_Label req with None => _ | _ => _ end) as [label|] eqn:El; [|done]; simpl in H.
  destruct (match uq_Type req with None => _ | _ => _ end) as [type|] eqn:Et; [|done]; simpl in H.
  destruct (match uq_Options req with None => _ | _ => _ end) as [options|] eqn:Eo; [|done]; simpl in H.
  destruct (enough_options type options) as [[]|] eqn:Ee; [|done]; simpl in H.
  destruct (few_options options) as [[]|] eqn:Ef; [|done]; simpl in H.
  destruct (match uq_Scope req with None => _ | _ => _ end) as [scope|] eqn:Es; [|done]; simpl in H.
  injection H as <-. unfold valid. simpl. split; [|split; [done|]].
  - split; [|split; [|split]].
    + destruct (uq_Label req); [by eapply check_label_ok|by simplify_eq].
    + destruct (uq_Type req) as [t|]; [|by simplify_eq].
      destruct (check_type t) as [[]|] eqn:E'; simplify_eq/=. by apply check_type_ok.
    + destruct (uq_Scope req) as [t|]; [|by simplify_eq].
      destruct (check_scope t) as [[]|] eqn:E'; simplify_eq/=. by apply check_scope_ok.
    + apply options_checked; [done..|]. destruct (uq_Options req) as [l|]; [|simplify_eq; apply Ho].
      destruct (check_options l) as [[]|] eqn:E'; simplify_eq/=. by apply check_options_ok.
  - destruct (uq_Options req) as [l|]; [|left; by simplify_eq]. right.
    destruct (check_options l) as [[]|]; by simplify_eq/=.
Qed.
End sound.

(** ** The operations *)

Section operations.
Context `{E : Env, !JsonLaws E}.

Lemma parse_decoded ctx l : decoded l -> parse_list ctx (json_list l) = Ok l.
Proof.
  intros [text Ht]. unfold parse_list. rewrite bool_decide_eq_false_2 by apply json_list_ne.
  by rewrite (json_strings_again _ _ Ht).
Qed.
Lemma parsed_decoded ctx s l : parse_list ctx s = Ok l -> decoded l.
Proof.
  unfold parse_list. case_bool_decide; [intros [= <-]; apply decoded_nil|].
  destruct (json_strings s) eqn:Hs; [|done]. intros [= <-]. by exists s.
Qed.

Lemma parseQuestion_ok id r q :
  parseQuestion id r = Ok q -> question_ok r ->
  valid q /\ decoded q.(qn_Options) /\ q.(qn_ID) = id /\ q.(qn_Deleted) = r.(q_deleted).
Proof.
  unfold parseQuestion, parse_time. intros H (Hl & Ht & Hs & l & Hp & Hd & Ho). rewrite Hp in H. simpl in H.
  destruct (parse_rfc3339 r.(q_created_at)); [|done]; simpl in H.
  destruct (parse_rfc3339 r.(q_updated_at)); [|done]; simpl in H.
  by injection H as <-.
Qed.
Lemma valid_row q t :
  valid q -> decoded q.(qn_Options) -> question_ok (question_row q t) /\
  forall old, question_ok (question_update_row q t old).
Proof.
  intros (Hl & Ht & Hs & Ho) Hd. unfold question_ok. simpl.
  split; [|intros old]; (split; [done|]; split; [done|]; split; [done|]; exists q.(qn_Options);
    split; [by apply parse_decoded|done]).
Qed.

Lemma Store_Create_sound q :
  valid q -> decoded q.(qn_Options) -> forall w, QuestionsSound w.(w_db) ->
  live_questions q.(qn_EventID) w.(w_db) < maxQuestionsPerEvent ->
  wp (Store_Create q) (fun _ w' => QuestionsSound w'.(w_db)) w.
Proof.
  intros Hv Hd w Hw Hc. unfold Store_Create, now_text.
  apply wp_bind_reads; [by respect|done|]. intros t w1 _ H1. apply wp_bind, wp_exec.
  - intros w' (-> & _) _. by rewrite H1.
  - intros d w' Hi (Hd' & _). apply wp_ret. simpl. rewrite Hd'. eapply questions_insert; [exact Hi|by apply valid_row|by rewrite H1|by rewrite H1].
Qed.
Lemma sound_row_update ctx id f :
  (forall r, question_ok r -> question_ok (f r)) ->
  (forall ev r, live_question ev (f r) = true -> live_question ev r = true) ->
  forall Q, respects (keeps QuestionsSound) (exec ctx (update_question id Q f)).
Proof.
  intros Hf Hl Q. apply respects_exec; [apply _|]. intros d d' Hu. unfold keeps.
  eapply questions_update; [|exact Hu]. intros r _ _ Hr. split; [by apply Hf|]. intros ev. apply Hl.
Qed.

Lemma CountByEventID_reads ev : reads (CountByEventID ev).
Proof. unfold CountByEventID. respect. Qed.
Lemma Questions_FindByID_reads id : reads (Store_FindByID id).
Proof. unfold Store_FindByID. respect. Qed.
Hint Resolve CountByEventID_reads Questions_FindByID_reads : respects.

Lemma Create_sound ev req :
  decoded (default [] req.(cq_Options)) -> respects (keeps QuestionsSound) (Create ev req).
Proof.
  intros Hd. apply keeps_wp. intros w Hw. unfold Create.
  apply wp_bind, wp_of_res. destruct (check_label _) as [label|] eqn:Hl; [|done].
  apply wp_bind, wp_of_res. destruct (check_type _) as [[]|] eqn:Ht; [|done].
  apply wp_bind, wp_of_res. destruct (enough_options _ _) as [[]|] eqn:He; [|done].
  apply wp_bind, wp_of_res. destruct (few_options _) as [[]|] eqn:Hf; [|done].
  apply wp_bind, wp_of_res. destruct (check_options _) as [[]|] eqn:Ho; [|done].
  apply wp_bind_reads; [by apply respects_or_err, CountByEventID_reads|done|]. intros n w1 Hn H1.
  apply wp_bind, wp_require; intros Hlt; [|by rewrite H1].
  apply wp_bind, wp_of_res. destruct (check_scope _) as [[]|] eqn:Hs; [|by rewrite H1].
  apply wp_bind, wp_new_uuid. intros w2 (H2 & _).
  apply Store_Create_sound; simpl.
  - split; [by eapply check_label_ok|]. split; [by apply check_type_ok|]. split; [by apply check_scope_ok|].
    by apply options_checked; [..|apply check_options_ok].
  - done.
  - by rewrite H2, H1.
  - unfold or_err in Hn. destruct (CountByEventID ev w) as [[m|] w3] eqn:Hm; [|done].
    injection Hn as -> ->. unfold CountByEventID in Hm. apply query_ok in Hm as (-> & _).
    rewrite H2, H1. unfold live_questions. lia.
Qed.

Lemma load_question_ok id w q w' :
  QuestionsSound w.(w_db) -> load_question id w = (Ok q, w') ->
  valid q /\ decoded q.(qn_Options) /\ q.(qn_ID) = id /\ q.(qn_Deleted) = false.
Proof.
  intros [Hq _] H. unfold load_question, Store_FindByID in H. run_ok1.
  match goal with H : bind (query _ _) _ _ = _ |- _ => rename H into Hf end.
  apply bind_ok in Hf as (row & w1 & (-> & _)%query_ok & [Hp _]%of_res_ok).
  destruct (w.(w_db).(event_questions) !! id) as [r|] eqn:Hr.
  - destruct (parseQuestion id r) as [q'|] eqn:Hp'; [|done]. simpl in Hp. injection Hp as <-.
    apply bind_ok in H as (? & ? & [Hnd _]%require_ok & [<- _]%ret_ok).
    destruct (parseQuestion_ok _ _ _ Hp' (Hq _ _ Hr)) as (Hv & Hd & Hi & _). by destruct (qn_Deleted q').
  - injection Hp as <-. done.
Qed.

Lemma Update_sound id req :
  (forall l, req.(uq_Options) = Some l -> decoded l) -> respects (keeps QuestionsSound) (Update id req).
Proof.
  intros Hreq. apply keeps_wp. intros w Hw. unfold Update.
  apply wp_bind_reads; [unfold load_question; respect|done|]. intros q w1 Hq H1.
  apply load_question_ok in Hq as (Hv & Hd & Hi & Hn); [|done].
  apply wp_bind, wp_of_res. destruct (apply_update q req) as [q'|] eqn:Ha; [|by rewrite H1].
  apply question_update_ok in Ha as (Hv' & Hi' & Ho); [|done].
  assert (decoded q'.(qn_Options)) as Hd' by (destruct Ho as [-> |Ho]; [done|by apply Hreq]).
  unfold Store_Update, now_text. apply wp_bind_reads; [by respect|by rewrite H1|]. intros t w2 _ H2.
  assert (respects (keeps QuestionsSound) (exec "update question" (update_question (qn_ID q') (fun _ => true)
    (question_update_row q' t)))) as Hx by (apply sound_row_update; [intros r _; by apply valid_row|done]).
  apply wp_bind. specialize (Hx w2). rewrite H2, H1 in Hx. specialize (Hx Hw).
  unfold wp. destruct (exec _ _ w2) as [[[]|] w3]; exact Hx.
Qed.
Lemma Delete_sound id : respects (keeps QuestionsSound) (Delete id).
Proof.
  unfold Delete, SoftDelete, load_question. respect_reply.
  - apply reads_respects; [apply _|auto with respects].
  - intros Hu. unfold keeps. eapply questions_update; [|exact Hu]. intros r _ _ Hr. split; [exact Hr|].
    intros ev [_ Hf]%andb_true_iff. done.
Qed.
Lemma Reorder_sound ev ids : respects (keeps QuestionsSound) (Reorder ev ids).
Proof.
  unfold Reorder, UpdateSortOrders. respect_reply. intros Hu. unfold keeps.
  eapply questions_update; [|exact Hu]. by intros r _ _ Hr.
Qed.
Hint Resolve Create_sound Update_sound Delete_sound Reorder_sound : respects.

(** ** Requests *)

Variable checkOwner : string -> string -> M ().
Hypothesis checkOwner_reads : forall ev u, reads (checkOwner ev u).

Inductive question_op :=
| QList (organizer : option string) (ev : string)
| QCreate (organizer : option string) (ev : string) (body : option CreateQuestionRequest)
| QUpdate (organizer : option string) (ev id : string) (body : option UpdateQuestionRequest)
| QDelete (organizer : option string) (ev id : string)
| QReorder (organizer : option string) (ev : string) (body : option (list string)).
Definition run_question (o : question_op) : M (Resp QuestionPayload) :=
  match o with
  | QList u ev => handleList checkOwner u ev
  | QCreate u ev b => handleCreate checkOwner u ev b
  | QUpdate u ev id b => handleUpdate checkOwner u ev id b
  | QDelete u ev id => handleDelete checkOwner u ev id
  | QReorder u ev b => handleReorder checkOwner u ev b
  end.
(** The options of a body are decoded from JSON. *)
Definition from_json (o : question_op) : Prop :=
  match o with
  | QCreate _ _ (Some b) => decoded (default [] b.(cq_Options))
  | QUpdate _ _ _ (Some b) => forall l, b.(uq_Options) = Some l -> decoded l
  | _ => True
  end.
Definition run_questions (ops : list question_op) (w : World) : World :=
  fold_left (fun w o => (run_question o w).2) ops w.

Lemma for_event_sound u ev k :
  respects (keeps QuestionsSound) k -> respects (keeps QuestionsSound) (for_event checkOwner u ev k).
Proof.
  intros Hk. unfold for_event. respect_reply. apply reads_respects; [apply _|auto].
Qed.
Lemma for_question_sound u ev id k :
  respects (keeps QuestionsSound) k -> respects (keeps QuestionsSound) (for_question checkOwner u ev id k).
Proof.
  intros Hk. apply for_event_sound. respect_reply. apply reads_respects; [apply _|auto with respects].
Qed.
Lemma run_question_sound o : from_json o -> respects (keeps QuestionsSound) (run_question o).
Proof.
  destruct o as [u ev|u ev b|u ev id b|u ev id|u ev b]; simpl; intros Hj.
  - apply for_event_sound. unfold ListByEvent, Store_FindByEventID. respect_reply.
  - apply for_event_sound. destruct b; simpl in Hj; cbn [for_body]; respect_reply.
  - apply for_question_sound. destruct b; simpl in Hj; cbn [for_body]; respect_reply.
  - apply for_question_sound. respect_reply.
  - apply for_event_sound. respect_reply.
Qed.
End operations.

(** The questions of an event stay within their limits over any requests to the
    question routes, with any driver faults: every stored question has a trimmed label of
    1 to 500 bytes, a known type and scope and at most 20 options, none blank or over 200
    bytes and two or more where one is to be chosen, that read back as they were written;
    and no event ever has more than ten questions that are not deleted. *)
Theorem questions_sound `{E : Env, !JsonLaws E} checkOwner ops w :
  (forall ev u, reads (checkOwner ev u)) -> Forall from_json ops ->
  QuestionsSound w.(w_db) -> QuestionsSound (run_questions checkOwner ops w).(w_db).
Proof.
  intros Hc Ho. revert w. induction Ho as [|o ops Hj _ IH]; intros w Hw; simpl; [done|].
  apply IH. by apply (run_question_sound checkOwner Hc o Hj w).
Qed.

(** ** Reading back *)

Lemma check_label_Ok l x : check_label l = Ok x -> x = trim_space l.
Proof. unfold check_label. case_bool_decide; [done|]. case_match; [done|]. by intros [= <-]. Qed.
Lemma insert_question_lookup id r d d' :
  insert_question id r d = Some d' -> d'.(event_questions) !! id = Some r.
Proof.
  unfold insert_question. case_match; [|done]. intros Hi. apply (inj Some) in Hi. rewrite <- Hi.
  apply lookup_insert_eq.
Qed.
Lemma CountByEventID_clock `{E : Env} e ev w n w' :
  or_err e (CountByEventID ev) w = (Ok n, w') -> w'.(w_clock) = w.(w_clock).
Proof.
  unfold or_err, CountByEventID. destruct (query _ _ w) as [[m|] w1] eqn:Hq; [|done].
  intros [= _ <-]. by apply query_ok in Hq as (_ & _ & ? & _).
Qed.
Lemma parseQuestion_row `{E : Env, !JsonLaws E} id q t :
  decoded q.(qn_Options) -> q.(qn_Deleted) = false -> time_ok t = true ->
  parseQuestion id (question_row q (format_rfc3339 t)) = Ok (MkQuestion id q.(qn_EventID) q.(qn_Label)
    q.(qn_Type) q.(qn_Options) q.(qn_Required) q.(qn_Scope) q.(qn_SortOrder) false
    (reparse (format_rfc3339 t)) (reparse (format_rfc3339 t))).
Proof.
  intros Hd Hn Ht. unfold parseQuestion, parse_time, reparse. simpl. rewrite parse_decoded by done.
  by rewrite parse_rfc3339_format.
Qed.

(** A question that was created reads back as it was asked: trimmed label, type,
    options, scope, order and flag, with the same times and the id it was given, as
    long as its row is there. *)
Theorem question_roundtrip `{E : Env, !JsonLaws E} ev req w q w' w2 :
  Create ev req w = (Ok q, w') -> decoded (default [] req.(cq_Options)) ->
  time_ok (clock w.(w_clock)) = true ->
  w'.(w_db).(event_questions) ⊆ w2.(w_db).(event_questions) -> w2.(w_faults) = [] ->
  Store_FindByID q.(qn_ID) w2 = (Ok (Some q), w2) /\
  q.(qn_EventID) = ev /\ q.(qn_Label) = trim_space req.(cq_Label) /\ q.(qn_Type) = req.(cq_Type) /\
  q.(qn_Options) = default [] req.(cq_Options) /\ q.(qn_Required) = default false req.(cq_Required) /\
  q.(qn_Scope) = (if bool_decide (req.(cq_Scope) = "") then "guest" else req.(cq_Scope)) /\
  q.(qn_Deleted) = false.
Proof.
  intros H Hd Ht Hw Hf. unfold Create, Store_Create, now_text in H. run_ok.
  match goal with H : check_label _ = Ok _ |- _ => apply check_label_Ok in H as -> end.
  match goal with H : or_err _ _ _ = (Ok _, _) |- _ => apply CountByEventID_clock in H as Hk end.
  split; [|by repeat split].
  unfold Store_FindByID. erewrite bind_run by by apply query_run.
  erewrite lookup_weaken by (done || by eapply insert_question_lookup).
  rewrite parseQuestion_row by (done || congruence). done.
Qed.

(** ** Examples *)

Definition demo_request : CreateQuestionRequest :=
  MkCreateQuestion " Meal " "select" (Some ["Fish"; "Beans"]) (Some true) "" None.
Definition no_check : string -> string -> M () := fun _ _ => ret ().
Definition demo_questions_ops : list question_op :=
  [QCreate (Some "org") "ev" (Some demo_request); QDelete (Some "org") "ev" "q";
   QReorder (Some "org") "ev" (Some ["u0"])].
Definition questions_world : World :=
  with_db (set_event_questions (fun _ => ∅) demo_db) demo_world.

Lemma demo_decoded : decoded (E:=json_env) ["Fish"; "Beans"].
Proof. exists (write_list ["Fish"; "Beans"]). apply read_write_list. Qed.

Lemma questions_sound_witness :
  QuestionsSound (E:=json_env) (run_questions (E:=json_env) no_check demo_questions_ops questions_world).(w_db).
Proof.
  apply (@questions_sound json_env json_env_laws no_check demo_questions_ops questions_world).
  - intros ev u. apply respects_ret, _.
  - repeat constructor. exact demo_decoded.
  - split; [intros k r [=]|]. intros ev. vm_compute. discriminate.
Defined.

Definition demo_created : res Question * World := Create (E:=json_env) "ev" demo_request questions_world.
Lemma question_roundtrip_witness :
  exists q, demo_created.1 = Ok q /\
    Store_FindByID (E:=json_env) q.(qn_ID) demo_created.2 = (Ok (Some q), demo_created.2).
Proof.
  destruct (demo_created.1) as [q|e] eqn:Hq; [|vm_compute in Hq; discriminate Hq].
  exists q. split; [reflexivity|].
  refine (proj1 (@question_roundtrip json_env json_env_laws "ev" demo_request questions_world q
    demo_created.2 demo_created.2 _ demo_decoded _ _ _)).
  - rewrite <- Hq. apply surjective_pairing.
  - vm_compute. reflexivity.
  - done.
  - vm_compute. reflexivity.
Defined.
