(* ===== verification/Rewrite.v ===== *)
(** * Placeholders for PostgreSQL (internal/database/rewrite.go)

    The state machine that numbers the [?] of a query, and what it computes: the
    query cut into SQL fragments, with the placeholders numbered from left to right and
    everything inside literals, quoted identifiers and comments left alone. *)

From S2P Require Import Prelude.
From S2P Require Import GoStr.

Local Open Scope Z_scope.

(** ** rewritePlaceholders *)

Inductive mode := normal | inSingleQuote | inDoubleQuote | inLineComment | inBlockComment.

Definition chr (n : Z) : ascii := byte_of n.
Definition squote : ascii := chr 39.
Definition dquote : ascii := chr 34.

(** [i+1 < len(query) && query[i+1] == c] *)
Definition next_is (c : ascii) (rest : bytes) : bool :=
  match rest with d :: _ => bool_decide (d = c) | [] => false end.

(** The state after a byte in the normal state that is not a placeholder. *)
Definition enter (c : ascii) (rest : bytes) : mode :=
  if bool_decide (c = squote) then inSingleQuote else
  if bool_decide (c = dquote) then inDoubleQuote else
  if bool_decide (c = "-"%char) && next_is "-"%char rest then inLineComment else
  if bool_decide (c = "/"%char) && next_is "*"%char rest then inBlockComment else normal.

(** [emit]: the buffer is allocated at the first placeholder. *)
Definition emit (c : ascii) (b : option bytes) : option bytes := (fun l => l ++ [c]) <$> b.

(** The loop; [seen] is [query[:i]]. *)
Fixpoint rewrite_loop (query seen : bytes) (state : mode) (n : Z) (b : option bytes) : option bytes :=
  match query with
  | [] => b
  | c :: rest =>
      match state with
      | normal =>
          if bool_decide (c = "?"%char)
          then rewrite_loop rest (seen ++ [c]) normal (n + 1)
                 (Some (default seen b ++ "$"%char :: to_bytes (itoa (n + 1))))
          else rewrite_loop rest (seen ++ [c]) (enter c rest) n (emit c b)
      | inSingleQuote =>
          rewrite_loop rest (seen ++ [c])
            (if bool_decide (c = squote) then normal else inSingleQuote) n (emit c b)
      | inDoubleQuote =>
          rewrite_loop rest (seen ++ [c])
            (if bool_decide (c = dquote) then normal else inDoubleQuote) n (emit c b)
      | inLineComment =>
          rewrite_loop rest (seen ++ [c])
            (if bool_decide (c = chr 10) then normal else inLineComment) n (emit c b)
      | inBlockComment =>
          match rest with
          | d :: rest' =>
              if bool_decide (c = "*"%char) && bool_decide (d = "/"%char)
              then rewrite_loop rest' (seen ++ [c; d]) normal n (emit d (emit c b))
              else rewrite_loop rest (seen ++ [c]) inBlockComment n (emit c b)
          | [] => rewrite_loop rest (seen ++ [c]) inBlockComment n (emit c b)
          end
      end
  end.

Definition rewritePlaceholders (query : string) : string :=
  match rewrite_loop (to_bytes query) [] normal 0 None with
  | Some b => of_bytes b
  | None => query
  end.

Example rewrite_ex :
  rewritePlaceholders "SELECT '?', x -- ?" = "SELECT '?', x -- ?" /\
  rewritePlaceholders "a = ? AND b = 'it''s ?' /* ? */ AND c IN (?, ?)"
  = "a = $1 AND b = 'it''s ?' /* ? */ AND c IN ($2, $3)".
Proof. vm_compute. split; reflexivity. Qed.

(** ** The reference

    A query as a list of fragments of SQL. *)

Inductive fragment :=
| Placeholder
| Plain (c : ascii)
| Literal (body : bytes)       (* '...' *)
| Identifier (body : bytes)    (* "..." *)
| LineComment (body : bytes)   (* --... and a newline *)
| BlockComment (body : bytes)  (* /*...*/ *)
| ShortComment                 (* /*/, which the code takes for a whole comment *)
| Unclosed (text : bytes)      (* an opening and what follows it to the end *).

Definition newline : ascii := chr 10.
Definition comment_end : bytes := ["*"%char; "/"%char].
Definition render1 (f : fragment) : bytes :=
  match f with
  | Placeholder => ["?"%char]
  | Plain c => [c]
  | Literal body => squote :: body ++ [squote]
  | Identifier body => dquote :: body ++ [dquote]
  | LineComment body => "-"%char :: "-"%char :: body ++ [newline]
  | BlockComment body => "/"%char :: "*"%char :: body ++ comment_end
  | ShortComment => ["/"%char; "*"%char; "/"%char]
  | Unclosed text => text
  end.
Definition render (l : list fragment) : bytes := mbind render1 l.
(** The placeholders numbered from [n + 1] on, and the rest as it is. *)
Fixpoint number (n : Z) (l : list fragment) : bytes :=
  match l with
  | [] => []
  | Placeholder :: l => "$"%char :: to_bytes (itoa (n + 1)) ++ number (n + 1) l
  | f :: l => render1 f ++ number n l
  end.

(** An opening quote or comment that nothing closes. *)
Definition unclosed (text : bytes) : Prop :=
  (exists body, text = squote :: body /\ squote ∉ body) \/
  (exists body, text = dquote :: body /\ dquote ∉ body) \/
  (exists body, text = "-"%char :: "-"%char :: body /\ newline ∉ body) \/
  (exists body, text = "/"%char :: "*"%char :: body /\
     bytes_contains ("*"%char :: body) comment_end = false).
(** Fragments cut where they should be, [rest] being what follows. *)
Definition well_cut1 (f : fragment) (rest : bytes) : Prop :=
  match f with
  | Placeholder | ShortComment => True
  | Plain c => c <> "?"%char /\ enter c rest = normal
  | Literal body => squote ∉ body
  | Identifier body => dquote ∉ body
  | LineComment body => newline ∉ body
  | BlockComment body => bytes_contains ("*"%char :: body ++ ["*"%char]) comment_end = false
  | Unclosed text => rest = [] /\ unclosed text
  end.
Fixpoint well_cut (l : list fragment) : Prop :=
  match l with [] => True | f :: l => well_cut1 f (render l) /\ well_cut l end.

(** ** The machine without its buffer *)

Fixpoint scan (query : bytes) (state : mode) (n : Z) : bytes :=
  match query with
  | [] => []
  | c :: rest =>
      match state with
      | normal =>
          if bool_decide (c = "?"%char)
          then "$"%char :: to_bytes (itoa (n + 1)) ++ scan rest normal (n + 1)
          else c :: scan rest (enter c rest) n
      | inSingleQuote => c :: scan rest (if bool_decide (c = squote) then normal else inSingleQuote) n
      | inDoubleQuote => c :: scan rest (if bool_decide (c = dquote) then normal else inDoubleQuote) n
      | inLineComment => c :: scan rest (if bool_decide (c = chr 10) then normal else inLineComment) n
      | inBlockComment =>
          match rest with
          | d :: rest' =>
              if bool_decide (c = "*"%char) && bool_decide (d = "/"%char)
              then c :: d :: scan rest' normal n else c :: scan rest inBlockComment n
          | [] => c :: scan rest inBlockComment n
          end
      end
  end.

Lemma default_emit seen c b : default (seen ++ [c]) (emit c b) = default seen b ++ [c].
Proof. by destruct b. Qed.
Lemma loop_scan_fuel k query seen st n b :
  (length query <= k)%nat ->
  default (seen ++ query) (rewrite_loop query seen st n b) = default seen b ++ scan query st n.
Proof.
  revert query seen st n b. induction k as [|k IH]; intros [|c rest] seen st n b Hk; simpl in Hk; try lia;
    [by rewrite !app_nil_r; destruct b..|].
  assert (forall b st, default (seen ++ c :: rest) (rewrite_loop rest (seen ++ [c]) st n (emit c b))
    = default seen b ++ c :: scan rest st n) as Hstep.
  { intros b' st'. rewrite cons_middle, app_assoc, IH by lia. rewrite default_emit. by rewrite <- app_assoc. }
  destruct st; simpl; try apply Hstep.
  - case_bool_decide as Hc; [|apply Hstep].
    rewrite cons_middle, app_assoc, IH by lia. simpl. by rewrite <- app_assoc.
  - destruct rest as [|d rest']; [apply Hstep|]. destruct (_ && _); [|apply Hstep].
    change (c :: d :: rest') with ([c; d] ++ rest'). rewrite app_assoc, IH by (simpl in Hk; lia).
    destruct b; simpl; by rewrite <- !app_assoc.
Qed.
Lemma rewrite_scan q : to_bytes (rewritePlaceholders q) = scan (to_bytes q) normal 0.
Proof.
  pose proof (loop_scan_fuel _ (to_bytes q) [] normal 0 None (le_n _)) as H. simpl in H.
  unfold rewritePlaceholders. destruct (rewrite_loop _ _ _ _ _); simpl in H; [by rewrite to_of_bytes|done].
Qed.

(** ** Fragments through the machine *)

(** The states that one byte ends. *)
Definition ends (st : mode) (q : ascii) : Prop :=
  forall c rest n, scan (c :: rest) st n = c :: scan rest (if bool_decide (c = q) then normal else st) n.
Lemma ends_all : ends inSingleQuote squote /\ ends inDoubleQuote dquote /\ ends inLineComment newline.
Proof. done. Qed.

Lemma scan_closed st q body rest n :
  ends st q -> q ∉ body -> scan (body ++ q :: rest) st n = body ++ q :: scan rest normal n.
Proof.
  intros He. induction body as [|c body IH]; intros Hq; rewrite ?app_nil_l, <- ?app_comm_cons, He.
  - by rewrite bool_decide_eq_true_2.
  - apply not_elem_of_cons in Hq as [Hc Hq]. rewrite bool_decide_eq_false_2 by done. by rewrite IH.
Qed.
Lemma scan_unclosed st q body n : ends st q -> q ∉ body -> scan body st n = body.
Proof.
  intros He. induction body as [|c body IH]; intros Hq; [done|].
  apply not_elem_of_cons in Hq as [Hc Hq]. rewrite He, bool_decide_eq_false_2 by done. by rewrite IH.
Qed.

Lemma contains_cons c s p :
  bytes_contains (c :: s) p = false -> bytes_prefix p (c :: s) = false /\ bytes_contains s p = false.
Proof. simpl. apply orb_false_iff. Qed.
Definition closes (c d : ascii) : bool := bool_decide (c = "*"%char) && bool_decide (d = "/"%char).
Lemma closes_spec c d : closes c d = true <-> c = "*"%char /\ d = "/"%char.
Proof. unfold closes. by rewrite andb_true_iff, !bool_decide_eq_true. Qed.
Lemma not_closes c d s : bytes_prefix comment_end (c :: d :: s) = false -> closes c d = false.
Proof. intros H. destruct (closes c d) eqn:E; [|done]. apply closes_spec in E as [-> ->]. by vm_compute in H. Qed.
Lemma scan_block_step c d rest n :
  scan (c :: d :: rest) inBlockComment n
  = if closes c d then c :: d :: scan rest normal n else c :: scan (d :: rest) inBlockComment n.
Proof. done. Qed.

Lemma scan_block body rest n :
  bytes_contains (body ++ ["*"%char]) comment_end = false ->
  scan (body ++ comment_end ++ rest) inBlockComment n = body ++ comment_end ++ scan rest normal n.
Proof.
  induction body as [|c body IH]; intros H; [done|]. rewrite <- !app_comm_cons in *.
  apply contains_cons in H as [Hp Hc]. specialize (IH Hc). destruct body as [|d body].
  - simpl app in *. rewrite scan_block_step. destruct (closes c "*") eqn:E; [|by rewrite IH].
    by apply closes_spec in E as [_ E].
  - simpl app in *. rewrite scan_block_step, (not_closes _ _ _ Hp), IH. done.
Qed.
Lemma scan_block_unclosed body n :
  bytes_contains body comment_end = false -> scan body inBlockComment n = body.
Proof.
  induction body as [|c body IH]; intros H; [done|]. apply contains_cons in H as [Hp Hc]. specialize (IH Hc).
  destruct body as [|d body]; [done|]. by rewrite scan_block_step, (not_closes _ _ _ Hp), IH.
Qed.

(** Entering a state. *)
Lemma scan_normal c rest n :
  c <> "?"%char -> scan (c :: rest) normal n = c :: scan rest (enter c rest) n.
Proof. intros Hc. simpl. by rewrite bool_decide_eq_false_2. Qed.
Lemma enter_squote rest : enter squote rest = inSingleQuote. Proof. done. Qed.
Lemma enter_dquote rest : enter dquote rest = inDoubleQuote. Proof. done. Qed.
Lemma enter_dash rest : enter "-"%char ("-"%char :: rest) = inLineComment. Proof. done. Qed.
Lemma enter_slash rest : enter "/"%char ("*"%char :: rest) = inBlockComment. Proof. done. Qed.
Lemma scan_line_dash rest n :
  scan ("-"%char :: rest) inLineComment n = "-"%char :: scan rest inLineComment n.
Proof. done. Qed.

Lemma scan_unclosed_fragment text n : unclosed text -> scan text normal n = text.
Proof.
  destruct ends_all as (Hs & Hd & Hl).
  intros [(body & -> & Hb)|[(body & -> & Hb)|[(body & -> & Hb)|(body & -> & Hb)]]]; rewrite scan_normal by done.
  - by rewrite enter_squote, (scan_unclosed _ _ _ _ Hs).
  - by rewrite enter_dquote, (scan_unclosed _ _ _ _ Hd).
  - by rewrite enter_dash, scan_line_dash, (scan_unclosed _ _ _ _ Hl).
  - by rewrite enter_slash, scan_block_unclosed.
Qed.

Lemma scan_render l n : well_cut l -> scan (render l) normal n = number n l.
Proof.
  destruct ends_all as (Hs & Hd & Hl). revert n.
  induction l as [|f l IH]; intros n; [done|]. intros [Hf Hw]. specialize (fun n => IH n Hw).
  change (render (f :: l)) with (render1 f ++ render l).
  destruct f as [|c|body|body|body|body| |text]; simpl in Hf; cbn [render1 number].
  - rewrite <- IH. done.
  - destruct Hf as [Hc He]. simpl app. by rewrite scan_normal, He, IH.
  - rewrite <- !app_comm_cons, scan_normal, enter_squote, <- !app_assoc by done. simpl app.
    by rewrite (scan_closed _ _ _ _ _ Hs Hf), IH.
  - rewrite <- !app_comm_cons, scan_normal, enter_dquote, <- !app_assoc by done. simpl app.
    by rewrite (scan_closed _ _ _ _ _ Hd Hf), IH.
  - rewrite <- !app_comm_cons, scan_normal, enter_dash, scan_line_dash, <- !app_assoc by done. simpl app.
    by rewrite (scan_closed _ _ _ _ _ Hl Hf), IH.
  - rewrite <- !app_comm_cons, scan_normal, enter_slash, <- !app_assoc by done.
    rewrite !app_comm_cons, (scan_block ("*"%char :: body)) by done. by rewrite IH.
  - rewrite <- IH. done.
  - destruct Hf as [Hr Hu]. rewrite Hr, app_nil_r, <- IH, Hr. simpl. rewrite app_nil_r.
    by apply scan_unclosed_fragment.
Qed.

(** ** Every query is cut into fragments *)

Lemma first_byte (q : ascii) (l : bytes) : q ∉ l \/ exists body rest, l = body ++ q :: rest /\ q ∉ body.
Proof.
  destruct (decide (q ∈ l)) as [H|H]; [right|by left].
  apply list_elem_of_split_l in H as (l1 & l2 & -> & Hn). eauto.
Qed.
Lemma prefix_closes c d s : bytes_prefix comment_end (c :: d :: s) = closes c d.
Proof.
  destruct (closes c d) eqn:E; [by apply closes_spec in E as [-> ->]|].
  apply not_true_is_false. intros H. apply bytes_prefix_spec in H as [k H]. injection H as -> -> _.
  done.
Qed.
Lemma first_close l :
  bytes_contains l comment_end = false \/
  exists pre rest, l = pre ++ comment_end ++ rest /\ bytes_contains (pre ++ ["*"%char]) comment_end = false.
Proof.
  induction l as [|c l IH]; [by left|]. destruct (bytes_prefix comment_end (c :: l)) eqn:Hp.
  { right. apply bytes_prefix_spec in Hp as [k ->]. by exists [], k. }
  destruct IH as [H|(pre & rest & -> & H)]; [left; simpl in *; by rewrite Hp, H|].
  right. exists (c :: pre), rest. split; [done|]. rewrite <- app_comm_cons.
  change (bytes_prefix comment_end (c :: pre ++ ["*"%char]) || bytes_contains (pre ++ ["*"%char]) comment_end = false).
  rewrite H, orb_false_r. destruct pre as [|d pre]; simpl app in *; rewrite prefix_closes in *; [|done].
  destruct (closes c "*") eqn:E; [|done]. by apply closes_spec in E as [_ E].
Qed.

Lemma cut_unclosed text : unclosed text -> exists l, well_cut l /\ render l = text.
Proof. intros H. exists [Unclosed text]. simpl. by rewrite app_nil_r. Qed.
Lemma cut_cons f rest text :
  (exists l, well_cut l /\ render l = rest) -> (forall l, render l = rest -> well_cut1 f (render l)) ->
  render1 f ++ rest = text -> exists l, well_cut l /\ render l = text.
Proof. intros (l & Hw & Hl) Hf <-. exists (f :: l). split; [split; [by apply Hf|done]|]. by rewrite <- Hl. Qed.

Lemma enter_cases c rest :
  enter c rest = normal \/ c = squote \/ c = dquote \/
  (c = "-"%char /\ exists t, rest = "-"%char :: t) \/ (c = "/"%char /\ exists t, rest = "*"%char :: t).
Proof.
  unfold enter. case_bool_decide; [by auto|]. case_bool_decide; [by auto|].
  assert (forall d, next_is d rest = true -> exists t, rest = d :: t) as Hn.
  { intros d. destruct rest as [|e t]; [done|]. intros ->%bool_decide_eq_true. eauto. }
  destruct (bool_decide (c = "-"%char) && _) eqn:E1.
  { apply andb_true_iff in E1 as [->%bool_decide_eq_true E1]. auto 10. }
  destruct (bool_decide (c = "/"%char) && _) eqn:E2; [|by left].
  apply andb_true_iff in E2 as [->%bool_decide_eq_true E2]. auto 10.
Qed.

Lemma query_cut k q : (length q <= k)%nat -> exists l, well_cut l /\ render l = q.
Proof.
  revert q. induction k as [|k IH]; intros [|c rest] Hk; simpl in Hk; [by exists []|lia|by exists []|].
  destruct (decide (c = "?"%char)) as [->|Hq].
  { apply (cut_cons Placeholder rest); [apply IH; lia|done..]. }
  assert (forall body tl, rest = body ++ tl -> exists l, well_cut l /\ render l = tl) as IH'.
  { intros body tl ->. apply IH. rewrite length_app in Hk. lia. }
  destruct (enter_cases c rest) as [He|[->|[->|[[-> (t & ->)]|[-> (t & ->)]]]]].
  - apply (cut_cons (Plain c) rest); [apply IH; lia| |done]. by intros l ->.
  - destruct (first_byte squote rest) as [Hn|(body & tl & -> & Hn)]; [apply cut_unclosed; left; eauto|].
    apply (cut_cons (Literal body) tl); [apply (IH' (body ++ [squote])); by rewrite <- app_assoc|done|].
    simpl. by rewrite <- app_assoc.
  - destruct (first_byte dquote rest) as [Hn|(body & tl & -> & Hn)]; [apply cut_unclosed; right; left; eauto|].
    apply (cut_cons (Identifier body) tl); [apply (IH' (body ++ [dquote])); by rewrite <- app_assoc|done|].
    simpl. by rewrite <- app_assoc.
  - destruct (first_byte newline t) as [Hn|(body & tl & -> & Hn)]; [apply cut_unclosed; right; right; left; eauto|].
    apply (cut_cons (LineComment body) tl); [|done|simpl; by rewrite <- app_assoc].
    apply (IH' ("-"%char :: body ++ [newline])). simpl. by rewrite <- app_assoc.
  - destruct (first_close ("*"%char :: t)) as [Hn|([|e pre] & tl & Ht & Hn)].
    + apply cut_unclosed. right. right. right. eauto.
    + injection Ht as ->. apply (cut_cons ShortComment tl); [|done..]. apply (IH' ["*"%char; "/"%char]). done.
    + injection Ht as <- ->. apply (cut_cons (BlockComment pre) tl); [|done|simpl; by rewrite <- app_assoc].
      apply (IH' ("*"%char :: pre ++ comment_end)). simpl. by rewrite <- app_assoc.
Qed.


(** The cut is what decides: a query built from fragments is rewritten by them. *)
Theorem rewrite_of_fragments l :
  well_cut l -> rewritePlaceholders (of_bytes (render l)) = of_bytes (number 0 l).
Proof.
  intros H. rewrite <- (of_to_bytes (rewritePlaceholders _)), rewrite_scan, to_of_bytes. f_equal.
  by apply scan_render.
Qed.

(** A block comment that starts with a slash is taken for closed: the question mark
    in it is rewritten. *)
Example short_comment : rewritePlaceholders "/*/ ? */ ?" = "/*/ $1 */ $2".
Proof. vm_compute. reflexivity. Qed.
