(* ===== verification/Ics.v ===== *)
(** * Calendar files (internal/calendar/ics.go)

    The ICS text of an event and its Google Calendar link; the time zone database and
    the encoding of a URL's query are parameters ([Zones]).  The theorems are about the
    two encodings that have an inverse: escaping of texts and folding of lines. *)

From S2P Require Import Prelude.
From S2P Require Import GoStr.
From S2P Require Import GoTime.

Local Open Scope Z_scope.

(** Package time's zones, and [url.Values.Encode] of the pairs set. *)
Class Zones := {
  Location : Type;
  load_location : string -> option Location;
  utc : Location;
  (** [t.In(loc).Zone()]: abbreviation and offset in seconds *)
  zone_at : Location -> time -> string * Z;
  (** [time.Date(year, month, 1, 12, 0, 0, 0, loc)] *)
  noon_of_first : Location -> Z -> Z -> time;
  url_encode : list (string * string) -> string }.

Definition legacyICSUIDSuffix : string := "@openrsvp".
Definition legacyICSProductID : string := "-//OpenRSVP//EN".

Record EventData := MkEventData {
  cd_ID : string; cd_Title : string; cd_Description : string; cd_Location : string;
  cd_EventDate : time; cd_EndDate : option time; cd_Timezone : string; cd_URL : string }.

Definition crlf : string := of_bytes [byte_of 13; byte_of 10].

(** ** Escaping and folding *)

(** [strings.ReplaceAll(s, c, to)] for one byte [c]. *)
Definition replace_byte (c : ascii) (to : bytes) (s : bytes) : bytes :=
  mbind (fun d => if bool_decide (d = c) then to else [d]) s.
Definition backslash : ascii := byte_of 92.
Definition escapeICSText (s : string) : string :=
  let s := replace_byte backslash [backslash; backslash] (to_bytes s) in
  let s := replace_byte ";"%char [backslash; ";"%char] s in
  let s := replace_byte ","%char [backslash; ","%char] s in
  let s := replace_byte (byte_of 10) [backslash; "n"%char] s in
  of_bytes (replace_byte (byte_of 13) [] s).

Definition maxLineLen : nat := 75.
(** [for len(line) > 0]: each turn takes at least one byte, so the length is fuel enough. *)
Fixpoint fold_rest (fuel : nat) (line : bytes) : bytes :=
  match fuel, line with
  | S fuel, _ :: _ =>
      let chunkLen := (maxLineLen - 1)%nat in
      " "%char :: take chunkLen line ++ to_bytes crlf ++ fold_rest fuel (drop chunkLen line)
  | _, _ => []
  end.
(** What [writeFoldedLine] writes. *)
Definition writeFoldedLine (line : string) : string :=
  let l := to_bytes line in
  if (length l <=? maxLineLen)%nat then line +:+ crlf else
  of_bytes (take maxLineLen l ++ to_bytes crlf ++ fold_rest (length l) (drop maxLineLen l)).

(** ** The file *)

(** [t.Format("20060102T150405")] of an instant read in UTC. *)
Definition two (n : Z) : bytes := pad 2 n.
Definition basic_stamp (t : time) : string :=
  let '(y, m, d) := date_of t in
  let s := second_of_day t in
  of_bytes (year_bytes y ++ two m ++ two d ++ "T"%char ::
            two (s / 3600) ++ two (s mod 3600 / 60) ++ two (s mod 60)).

(** The magnitude is negated in an [int], which for an offset does not overflow. *)
Definition formatUTCOffset (offsetSec : Z) : string :=
  let sign := if offsetSec <? 0 then "-" else "+" in
  let s := Z.abs offsetSec in
  sign +:+ of_bytes (two (s / 3600) ++ two (s mod 3600 / 60)).

Section file.
Context `{Zones}.

Definition local_stamp (loc : Location) (t : time) : string :=
  basic_stamp (t + (zone_at loc t).2 * ns_per_sec).
Definition raw_line (s : string) : string := s +:+ crlf.

Definition component (kind start rule from to name : string) : string :=
  raw_line ("BEGIN:" +:+ kind) +:+ raw_line ("DTSTART:" +:+ start)
  +:+ (if bool_decide (rule = "") then "" else raw_line rule)
  +:+ raw_line ("TZOFFSETFROM:" +:+ from) +:+ raw_line ("TZOFFSETTO:" +:+ to)
  +:+ (if bool_decide (name = "") then "" else raw_line ("TZNAME:" +:+ name))
  +:+ raw_line ("END:" +:+ kind).

Definition generateVTIMEZONE (tzName : string) (loc : Location) (refTime : time) : string :=
  let '(y, _, _) := date_of (refTime + (zone_at loc refTime).2 * ns_per_sec) in
  let '(janName, janOffset) := zone_at loc (noon_of_first loc y 1) in
  let '(julName, julOffset) := zone_at loc (noon_of_first loc y 7) in
  raw_line "BEGIN:VTIMEZONE" +:+ raw_line ("TZID:" +:+ tzName)
  +:+ (if janOffset =? julOffset then
         component "STANDARD" "19700101T000000" "" (formatUTCOffset janOffset)
           (formatUTCOffset janOffset) janName
       else
         let '(stdOffset, dstOffset, stdName, dstName) :=
           if janOffset <? julOffset then (janOffset, julOffset, janName, julName)
           else (julOffset, janOffset, julName, janName) in
         component "STANDARD" "19701101T020000" "RRULE:FREQ=YEARLY;BYDAY=1SU;BYMONTH=11"
           (formatUTCOffset dstOffset) (formatUTCOffset stdOffset) stdName
         +:+ component "DAYLIGHT" "19700308T020000" "RRULE:FREQ=YEARLY;BYDAY=2SU;BYMONTH=3"
           (formatUTCOffset stdOffset) (formatUTCOffset dstOffset) dstName)
  +:+ raw_line "END:VTIMEZONE".

(** The zone of an event: New York when it names none, UTC when it is unknown. *)
Definition event_zone (timezone : string) : string * Location :=
  let tz := if bool_decide (timezone = "") then "America/New_York" else timezone in
  match load_location tz with Some loc => (tz, loc) | None => ("UTC", utc) end.

Definition two_hours : Z := 2 * hour.
(** A line that is written only when the field is not empty. *)
Definition optional_line (name value text : string) : string :=
  if bool_decide (value = "") then "" else writeFoldedLine (name +:+ text).

Definition GenerateICS (now : time) (e : EventData) : string :=
  let '(tz, loc) := event_zone e.(cd_Timezone) in
  let end_ := default (e.(cd_EventDate) + two_hours) e.(cd_EndDate) in
  raw_line "BEGIN:VCALENDAR" +:+ raw_line "VERSION:2.0"
  +:+ raw_line ("PRODID:" +:+ legacyICSProductID) +:+ raw_line "CALSCALE:GREGORIAN"
  +:+ raw_line "METHOD:PUBLISH"
  +:+ generateVTIMEZONE tz loc e.(cd_EventDate)
  +:+ raw_line "BEGIN:VEVENT"
  +:+ writeFoldedLine ("UID:" +:+ e.(cd_ID) +:+ legacyICSUIDSuffix)
  +:+ writeFoldedLine ("DTSTAMP:" +:+ basic_stamp now +:+ "Z")
  +:+ writeFoldedLine ("DTSTART;TZID=" +:+ tz +:+ ":" +:+ local_stamp loc e.(cd_EventDate))
  +:+ writeFoldedLine ("DTEND;TZID=" +:+ tz +:+ ":" +:+ local_stamp loc end_)
  +:+ writeFoldedLine ("SUMMARY:" +:+ escapeICSText e.(cd_Title))
  +:+ optional_line "DESCRIPTION:" e.(cd_Description) (escapeICSText e.(cd_Description))
  +:+ optional_line "LOCATION:" e.(cd_Location) (escapeICSText e.(cd_Location))
  +:+ optional_line "URL:" e.(cd_URL) e.(cd_URL)
  +:+ raw_line "STATUS:CONFIRMED" +:+ raw_line "END:VEVENT" +:+ raw_line "END:VCALENDAR".

Definition GoogleCalendarURL (e : EventData) : string :=
  let start := basic_stamp e.(cd_EventDate) +:+ "Z" in
  let end_ := basic_stamp (default (e.(cd_EventDate) + two_hours) e.(cd_EndDate)) +:+ "Z" in
  let desc := of_bytes (take 1500 (to_bytes e.(cd_Description))) in
  "https://calendar.google.com/calendar/render?"
  +:+ url_encode [("action", "TEMPLATE"); ("text", e.(cd_Title)); ("dates", start +:+ "/" +:+ end_);
                  ("location", e.(cd_Location)); ("details", desc)].
End file.

Example offsets : formatUTCOffset (-16200) = "-0430" /\ formatUTCOffset 20700 = "+0545".
Proof. vm_compute. split; reflexivity. Qed.
Example stamp_ex : basic_stamp (1767225600 * ns_per_sec) = "20260101T000000".
Proof. vm_compute. reflexivity. Qed.
Example escape_ex : to_bytes (escapeICSText (of_bytes [byte_of 97; byte_of 59; byte_of 13; byte_of 10]))
  = [byte_of 97; backslash; byte_of 59; backslash; byte_of 110].
Proof. vm_compute. reflexivity. Qed.

(** ** Reading it back *)

Definition cr : ascii := byte_of 13.
Definition lf : ascii := byte_of 10.

(** RFC 5545: a line break and a space are no part of the text. *)
Fixpoint unfold_lines (s : bytes) : bytes :=
  match s with
  | [] => []
  | c :: t =>
      match t with
      | d :: e :: u =>
          if bool_decide (c = cr) && bool_decide (d = lf) && bool_decide (e = " "%char)
          then unfold_lines u else c :: unfold_lines t
      | _ => c :: unfold_lines t
      end
  end.
(** Physical lines, each ended by a line break. *)
Definition physical (lines : list bytes) : bytes := mbind (fun l => l ++ to_bytes crlf) lines.

Lemma unfold_plain s t : cr ∉ s -> unfold_lines (s ++ t) = s ++ unfold_lines t.
Proof.
  induction s as [|c s IH]; intros Hc; [done|]. apply not_elem_of_cons in Hc as [Hc Hs].
  rewrite <- app_comm_cons. simpl. rewrite IH by done.
  destruct (s ++ t) as [|d [|e u]]; [done..|]. rewrite bool_decide_eq_false_2 by congruence. done.
Qed.
Lemma unfold_break t : unfold_lines (to_bytes crlf ++ " "%char :: t) = unfold_lines t.
Proof. done. Qed.

Lemma fold_rest_ok fuel line :
  cr ∉ line -> (length line <= fuel)%nat ->
  (exists lines, fold_rest fuel line = physical lines /\ Forall (fun l => length l <= maxLineLen)%nat lines) /\
  unfold_lines (to_bytes crlf ++ fold_rest fuel line) = line ++ to_bytes crlf.
Proof.
  revert line. induction fuel as [|fuel IH]; intros line Hc Hl.
  { destruct line; [|simpl in Hl; lia]. split; [by exists []|done]. }
  destruct line as [|c line]; [split; [by exists []|done]|]. cbn [fold_rest].
  set (l := c :: line) in *. set (n := (maxLineLen - 1)%nat).
  assert ((cr ∉ take n l) /\ (cr ∉ drop n l)) as [Ht Hd].
  { rewrite <- (take_drop n l) in Hc. by apply not_elem_of_app in Hc. }
  destruct (IH (drop n l) Hd) as [(lines & Hp & HF) Hu].
  { rewrite length_drop. unfold n, maxLineLen, l in *. simpl in *. lia. }
  split.
  - exists ((" "%char :: take n l) :: lines). split; [rewrite Hp; unfold physical; simpl; by rewrite <- app_assoc|].
    constructor; [|done]. simpl. rewrite length_take. unfold n, maxLineLen. lia.
  - rewrite unfold_break, unfold_plain, Hu, app_assoc, take_drop by done. done.
Qed.

(** Folding a content line keeps the limit and loses nothing: a line without
    carriage returns is written as physical lines of at most 75 octets, and unfolding
    them, as a calendar client does, gives the line back. *)
Theorem folded_line line :
  cr ∉ to_bytes line ->
  (exists lines, to_bytes (writeFoldedLine line) = physical lines /\
     Forall (fun l => length l <= 75)%nat lines) /\
  unfold_lines (to_bytes (writeFoldedLine line)) = to_bytes (line +:+ crlf).
Proof.
  intros Hc. unfold writeFoldedLine. destruct (Nat.leb_spec (length (to_bytes line)) maxLineLen) as [Hl|Hl].
  - rewrite to_bytes_app. split; [|by rewrite unfold_plain].
    exists [to_bytes line]. split; [unfold physical; simpl; by rewrite app_nil_r|by apply Forall_singleton].
  - rewrite to_of_bytes, to_bytes_app. set (l := to_bytes line) in *.
    assert ((cr ∉ take maxLineLen l) /\ (cr ∉ drop maxLineLen l)) as [Ht Hd].
    { rewrite <- (take_drop maxLineLen l) in Hc. by apply not_elem_of_app in Hc. }
    destruct (fold_rest_ok (length l) (drop maxLineLen l) Hd) as [(lines & Hp & HF) Hu]; [rewrite length_drop; lia|].
    split.
    + exists (take maxLineLen l :: lines). split; [rewrite Hp; unfold physical; simpl; by rewrite <- app_assoc|].
      constructor; [|done]. rewrite length_take. unfold maxLineLen. lia.
    + rewrite unfold_plain, Hu, app_assoc, take_drop by done. done.
Qed.

(** ** Escaping *)

(** What becomes of one byte. *)
Definition escape1 (c : ascii) : bytes :=
  if bool_decide (c = backslash) then [backslash; backslash] else
  if bool_decide (c = ";"%char) then [backslash; ";"%char] else
  if bool_decide (c = ","%char) then [backslash; ","%char] else
  if bool_decide (c = lf) then [backslash; "n"%char] else
  if bool_decide (c = cr) then [] else [c].
(** RFC 5545: a backslash and what it escapes. *)
Fixpoint unescape (s : bytes) : bytes :=
  match s with
  | [] => []
  | c :: t =>
      match t with
      | d :: u => if bool_decide (c = backslash)
                  then (if bool_decide (d = "n"%char) then lf else d) :: unescape u
                  else c :: unescape t
      | [] => [c]
      end
  end.

Lemma replace_byte_app c to s t : replace_byte c to (s ++ t) = replace_byte c to s ++ replace_byte c to t.
Proof. unfold replace_byte. by rewrite bind_app. Qed.
Lemma replace_byte_other c to d : d <> c -> replace_byte c to [d] = [d].
Proof. intros H. unfold replace_byte. simpl. by rewrite bool_decide_eq_false_2. Qed.
(** The replacements one after the other do to each byte what [escape1] does. *)
Lemma escape_bytes s : to_bytes (escapeICSText s) = mbind escape1 (to_bytes s).
Proof.
  unfold escapeICSText. rewrite to_of_bytes. generalize (to_bytes s). clear s. intros s.
  induction s as [|c s IH]; [done|].
  change (c :: s) with ([c] ++ s). rewrite bind_app, !replace_byte_app, IH. f_equal.
  simpl mbind. rewrite app_nil_r. unfold escape1.
  repeat (case_bool_decide; [subst c; reflexivity|]). by rewrite !replace_byte_other.
Qed.

Lemma unescape1 c t :
  c <> cr -> unescape (escape1 c ++ t) = c :: unescape t.
Proof.
  intros Hc. unfold escape1. repeat (case_bool_decide; [by subst c|]).
  simpl. destruct t as [|d u]; [done|]. by rewrite bool_decide_eq_false_2.
Qed.

(** Escaping loses nothing but carriage returns: what a calendar client
    unescapes is the text without them, and the escaped text holds no line break of
    its own, so that a field cannot add lines to the file. *)
Theorem escape_roundtrip s :
  unescape (to_bytes (escapeICSText s)) = filter (fun c => c <> cr) (to_bytes s) /\
  (cr ∉ to_bytes (escapeICSText s)) /\ (lf ∉ to_bytes (escapeICSText s)).
Proof.
  rewrite escape_bytes. induction (to_bytes s) as [|c t (IH & Hc & Hl)]; [by repeat split; apply not_elem_of_nil|].
  change (mbind escape1 (c :: t)) with (escape1 c ++ mbind escape1 t).
  assert ((cr ∉ escape1 c) /\ (lf ∉ escape1 c)) as [Hc1 Hl1].
  { unfold escape1. repeat case_bool_decide; rewrite ?not_elem_of_cons; repeat split; try apply not_elem_of_nil;
    first [congruence | by vm_compute]. }
  split; [|by rewrite !not_elem_of_app].
  destruct (decide (c = cr)) as [->|Hn]; [by rewrite filter_cons_False by naive_solver|].
  rewrite unescape1, IH by done. by rewrite filter_cons_True.
Qed.

(** A title of two lines, longer than a physical line, through the file and back. *)
Definition demo_title : string := "Summer; party, with friends and family and everyone else" +:+ nl +:+ "and cake".
Lemma folded_line_witness :
  unescape (unfold_lines (to_bytes (writeFoldedLine ("SUMMARY:" +:+ escapeICSText demo_title))))
  = to_bytes ("SUMMARY:" +:+ demo_title +:+ crlf).
Proof.
  destruct (folded_line ("SUMMARY:" +:+ escapeICSText demo_title)) as [_ H].
  - vm_compute. intros Hin. repeat (apply elem_of_cons in Hin as [Hin|Hin]; [discriminate Hin|]).
    by apply not_elem_of_nil in Hin.
  - rewrite H. vm_compute. reflexivity.
Defined.
