(* ===== verification/CardFacts.v ===== *)
(** * What invite cards promise

    An event has at most one card; whatever an organizer sends, the stored
    template is a built-in one, and the stored colours, font and background image
    cannot leave the CSS context they are put in; guests see the stored card as it
    is; and an uploaded image replaces the images of its event alone. *)

From S2P Require Import Prelude.
From S2P Require Import GoStr.
From S2P Require Import GoTime.
From S2P Require Import Schema.
From S2P Require Import Eff.
From S2P Require Import Http.
From S2P Require Import Respect.
From S2P Require Import Demo.
From S2P Require Import Tables.
From S2P Require Import InvModel.
From S2P Require Import InvStore.
From S2P Require Import History.
From S2P Require Import System.
From S2P Require Import Auth.
From S2P Require Import Event.
From S2P Require Import EventSteps.
From S2P Require Import Reminders.
From S2P Require Import Cards.

Local Open Scope Z_scope.

(** ** Sanitised texts *)

(** A background image that stays inside [url()]. *)
Definition safe_image `{E : Env} (s : string) : Prop :=
  s = "" \/
  (existsb unsafe_css_byte (to_bytes s) = false /\
   (has_prefix s "/" = true \/ url_scheme s = Some "http" \/ url_scheme s = Some "https")).

(** The JSON encoder gives back a cleaned map as it was. *)
Class CardLaws (E : Env) (C : CardEnv) : Prop :=
  json_map_again text data :
    json_map text = Some data -> json_map (json_of_map (clean_background data)) = Some (clean_background data).

Section sanitised.
Context `{E : Env} {C : CardEnv}.

Lemma sanitizeColor_ok c : sanitizeColor c = "" \/ colorPattern (sanitizeColor c) = true.
Proof. unfold sanitizeColor. repeat case_match; auto. Qed.
Lemma sanitizeFont_ok f :
  sanitizeFont f = "" \/ fontPattern (sanitizeFont f) = true /\ len (sanitizeFont f) <= 100.
Proof.
  unfold sanitizeFont. destruct (_ || _) eqn:Eb; [by left|].
  destruct (fontPattern _) eqn:Ef; [|by left]. right. split; [done|].
  apply orb_false_iff in Eb as [_ ?%Z.ltb_ge]. lia.
Qed.
Lemma or_default_cases (P : string -> Prop) s d : (s = "" \/ P s) -> P d -> P (or_default s d).
Proof. unfold or_default. case_bool_decide as Hb; intros [Hs|Hs] Hd; by try done. Qed.

Lemma sanitizeBackgroundURL_safe s : safe_image (sanitizeBackgroundURL s).
Proof.
  unfold sanitizeBackgroundURL, safe_image.
  case_bool_decide; [by left|]. destruct (existsb _ _) eqn:Eb; [by left|].
  destruct (has_prefix _ _) eqn:Ep; [by auto|].
  destruct (url_scheme _) as [sch|] eqn:Es; [|by left].
  destruct (bool_decide_reflect (sch = "http")) as [->|]; [simpl; auto|].
  destruct (bool_decide_reflect (sch = "https")) as [->|]; simpl; auto.
Qed.

(** What the cleaning leaves under [backgroundImage]. *)
Lemma clean_background_safe data :
  safe_image (default "" (background (clean_background data))).
Proof.
  unfold clean_background. destruct (background data) as [bg|] eqn:Eb; [|by rewrite Eb; left].
  pose proof (sanitizeBackgroundURL_safe bg) as Hs. destruct data as [m|]; [|by left].
  unfold background. case_bool_decide; simpl.
  - rewrite lookup_delete_eq. by left.
  - by rewrite lookup_insert_eq.
Qed.
Lemma stored_image_safe `{LW : !CardLaws E C} raw :
  safe_image (extractBackgroundImage (or_default (sanitizeCustomData raw) "{}")).
Proof.
  unfold sanitizeCustomData. case_bool_decide; [by left|].
  destruct (json_map raw) as [data|] eqn:Er; [|by left].
  pose proof (json_map_again _ _ Er) as Hd. unfold or_default. case_bool_decide; [by left|].
  unfold extractBackgroundImage. destruct (_ || _); [by left|]. rewrite Hd.
  apply clean_background_safe.
Qed.
End sanitised.

(** ** The invariant *)

Section invariant.
Context `{E : Env} {C : CardEnv}.

Record safe_card (r : CardRow) : Prop := {
  sc_template : one_of r.(c_template) guestTemplates = true;
  sc_primary : colorPattern r.(c_primary) = true;
  sc_secondary : colorPattern r.(c_secondary) = true;
  sc_font : fontPattern r.(c_font) = true /\ len r.(c_font) <= 100;
  sc_image : safe_image (extractBackgroundImage r.(c_custom)) }.

Record CardsSound (d : Database) : Prop := {
  cs_event : refs c_event_id d.(invite_cards) d.(events);
  cs_one : uniq c_event_id d.(invite_cards);
  cs_safe : forall k r, d.(invite_cards) !! k = Some r -> safe_card r }.

(** What [Save] hands to the store. *)
Definition safe_to_store (c : InviteCard) : Prop := forall t1 t2, safe_card (card_row c t1 t2).

Lemma built_in template :
  existsb (fun t => bool_decide (t.(tm_ID) = template)) builtInTemplates = true ->
  one_of template guestTemplates = true.
Proof.
  intros [t [Hin Ht%bool_decide_eq_true]]%existsb_exists. subst template.
  unfold builtInTemplates in Hin. simpl in Hin.
  repeat destruct Hin as [<-|Hin]; done.
Qed.
Lemma card_of_request_safe `{LW : !CardLaws E C} id e template req :
  existsb (fun t => bool_decide (t.(tm_ID) = template)) builtInTemplates = true ->
  safe_to_store (card_of_request id e template req).
Proof.
  intros Ht t1 t2. split; simpl.
  - by apply built_in.
  - apply (or_default_cases (fun s => colorPattern s = true)); [apply sanitizeColor_ok|done].
  - apply (or_default_cases (fun s => colorPattern s = true)); [apply sanitizeColor_ok|done].
  - apply (or_default_cases (fun s => fontPattern s = true /\ len s <= 100));
      [apply sanitizeFont_ok|by vm_compute].
  - apply stored_image_safe.
Qed.

Lemma FindByEventID_reads e : reads (FindByEventID e).
Proof. unfold FindByEventID. respect. Qed.
Lemma cleanupOldImage_reads dir e new disk : reads (cleanupOldImage dir e new disk).
Proof. unfold cleanupOldImage. respect; apply FindByEventID_reads. Qed.

Lemma Upsert_sound c : safe_to_store c -> respects (keeps CardsSound) (Upsert c).
Proof.
  intros Hc. unfold Upsert. respect; [apply reads_respects; [apply _|apply FindByEventID_reads]| |].
  - intros [= <-] []. unfold update_id, set_invite_cards.
    simpl. destruct (invite_cards d !! _) as [r|] eqn:Er; simpl; [|by split].
    split; simpl.
    + eapply refs_from_old; [|done]. eapply from_old_insert; [apply _|exact Er|done].
    + eapply uniq_from_old; [|done]. eapply from_old_insert; [apply _|exact Er|done].
    + intros k r'. rewrite lookup_insert_Some. intros [[<- <-]|[_ Hk]]; [|eauto].
      split; apply (Hc "" "").
  - intros H []. unfold insert_card in H. insert_cases H. split; simpl.
    + by apply refs_insert.
    + by apply uniq_insert.
    + intros k r'. rewrite lookup_insert_Some. intros [[<- <-]|[_ Hk]]; [apply Hc|eauto].
Qed.
Lemma Save_sound `{LW : !CardLaws E C} dir e req disk : respects (keeps CardsSound) (Save dir e req disk).
Proof.
  unfold Save. destruct (negb _) eqn:Et; [by apply respects_ret, _|].
  apply negb_false_iff in Et.
  respect; [apply reads_respects; [apply _|apply cleanupOldImage_reads]|].
  by apply Upsert_sound, card_of_request_safe.
Qed.

(** A sound card reaches the guests as it is stored. *)
Lemma safe_card_shown r :
  safe_card r ->
  presentation_of_card r =
  MkPresentation r.(c_template) r.(c_heading) r.(c_body) r.(c_footer) r.(c_primary) r.(c_secondary)
    r.(c_font) (guestBackgroundImage r.(c_custom)).
Proof.
  intros [Ht Hp Hs [Hf Hl] _]. unfold presentation_of_card, colorPattern, fontPattern in *.
  rewrite Ht, Hp, Hs, Hf. by destruct (Z.ltb_spec 100 (len r.(c_font))); [lia|].
Qed.

Lemma parse_card_ok id r c :
  parse_card id r = Ok c -> c.(card_ID) = id /\ c.(card_EventID) = r.(c_event_id).
Proof.
  unfold parse_card. intros H. apply res_bind_ok in H as (t1 & _ & H).
  apply res_bind_ok in H as (t2 & _ & H). by injection H as <-.
Qed.
Lemma FindByEventID_ok e w o w' :
  FindByEventID e w = (Ok o, w') ->
  w'.(w_db) = w.(w_db) /\
  match o with
  | Some c => exists r, w.(w_db).(invite_cards) !! c.(card_ID) = Some r /\ r.(c_event_id) = e
  | None => forall k r, w.(w_db).(invite_cards) !! k = Some r -> r.(c_event_id) <> e
  end.
Proof.
  intros H. split; [by apply (reads_db _ _ _ _ (FindByEventID_reads e) H)|].
  unfold FindByEventID in H. run_ok. destruct (select_row _ _) as [[id r]|] eqn:Es.
  - apply select_row_Some in Es as [Hk He%bool_decide_eq_true].
    match goal with H : scanInviteCard _ = Ok o |- _ => simpl in H; apply res_bind_ok in H as (c & Hc & [= <-]) end.
    apply parse_card_ok in Hc as [<- _]. eauto.
  - match goal with H : scanInviteCard _ = Ok o |- _ => simpl in H; injection H as <- end.
    intros k r Hk He. pose proof (select_row_None _ _ _ _ Es Hk) as Hf. simpl in Hf.
    by rewrite bool_decide_eq_true_2 in Hf.
Qed.

(** The row an [Upsert] leaves. *)
Lemma Upsert_ok c w c' w' :
  Upsert c w = (Ok c', w') ->
  exists r t1 t2,
    w'.(w_db).(invite_cards) !! c'.(card_ID) = Some r /\ r = card_row c t1 t2 /\
    c' = stamp_card c'.(card_ID) c'.(card_CreatedAt) c'.(card_UpdatedAt) c.
Proof.
  unfold Upsert. intros H. apply bind_ok in H as (t & w1 & Ht & H). apply now_ok in Ht as (_ & Hw1 & _).
  apply bind_ok in H as (o & w2 & Ho & H). apply FindByEventID_ok in Ho as (Hw2 & Ho).
  destruct o as [old|].
  - destruct Ho as (r & Hr & He). apply bind_ok in H as ([] & w3 & Hx & H).
    apply exec_ok in Hx as (Hx & _). injection H as <- <-. simpl.
    exists (recard_row c (format_rfc3339 t) r), r.(c_created_at), (format_rfc3339 t).
    injection Hx as <-. simpl. unfold update_id. rewrite Hw2, Hr. simpl.
    rewrite lookup_insert_eq. split; [done|]. split; [|done]. unfold recard_row, card_row. by rewrite He.
  - apply bind_ok in H as ([] & w3 & Hx & H). apply exec_ok in Hx as (Hx & _). injection H as <- <-.
    unfold insert_card in Hx. insert_cases Hx. rewrite <- Hx. simpl.
    eexists _, _, _. rewrite lookup_insert_eq. done.
Qed.
End invariant.

(** ** Requests *)

Section requests.
Context `{E : Env} {C : CardEnv} (dir : string) (checkEventOwner : string -> string -> M ()).

Inductive card_op :=
| KGet (organizer : option string) (eventID : string)
| KSave (organizer : option string) (eventID : string) (body : option SaveInviteRequest)
| KPreview (organizer : option string) (eventID : string)
| KUpload (organizer : option string) (eventID : string) (body : Upload).

Definition run_card (op : card_op) (disk : Disk) : M (Resp CardPayload * Disk) :=
  match op with
  | KGet o e => r <- handleGetByEvent checkEventOwner o e ;; ret (r, disk)
  | KSave o e body => handleSave dir checkEventOwner o e body disk
  | KPreview o e => r <- handlePreview checkEventOwner o e ;; ret (r, disk)
  | KUpload o e body => handleUploadImage dir checkEventOwner o e body disk
  end.
Definition card_step (s : Disk * World) (op : card_op) : Disk * World :=
  match run_card op s.1 s.2 with (Ok (_, disk), w) => (disk, w) | (Err _, w) => (s.1, w) end.
Definition run_cards (ops : list card_op) (s : Disk * World) : Disk * World := fold_left card_step ops s.

Context (Hc : forall e o, reads (checkEventOwner e o)).

Lemma respects_for_owner {A} R `{!PreOrder R} o e (deny : Resp CardPayload -> A) k :
  respects R k -> respects R (for_owner checkEventOwner o e deny k).
Proof.
  intros Hk. unfold for_owner. respect. apply reads_respects; [done|apply Hc].
Qed.
Lemma run_card_sound `{LW : !CardLaws E C} op disk : respects (keeps CardsSound) (run_card op disk).
Proof.
  assert (forall e, reads (GetByEventID e)) as Hget
    by (intros e; unfold GetByEventID; respect; apply FindByEventID_reads).
  assert (forall e, reads (GetPreview e)) as Hprev
    by (intros e; unfold GetPreview; respect; apply FindByEventID_reads).
  destruct op; simpl; unfold handleGetByEvent, handleSave, handlePreview, handleUploadImage, store_image.
  - respect. apply respects_for_owner; [apply _|]. respect_reply. by apply reads_respects; [apply _|].
  - apply respects_for_owner; [apply _|]. respect_reply. by apply Save_sound.
  - respect. apply respects_for_owner; [apply _|]. respect_reply. by apply reads_respects; [apply _|].
  - apply respects_for_owner; [apply _|]. respect.
Qed.
Lemma run_cards_keeps `{LW : !CardLaws E C} ops s :
  CardsSound s.2.(w_db) -> CardsSound (run_cards ops s).2.(w_db).
Proof.
  revert s. induction ops as [|op ops IH]; intros s Hs; simpl; [done|]. apply IH.
  pose proof (run_card_sound op s.1 s.2 Hs) as H. unfold card_step.
  by destruct (run_card op s.1 s.2) as [[[? ?]|] ?].
Qed.

(** [C32] Whatever requests organizers send to the card routes, an event keeps at most
    one card, and every stored card has a built-in template, hexadecimal colours,
    a font of the allowed bytes and a background image that cannot leave
    [url()]. *)
Theorem cards_sound `{LW : !CardLaws E C} ops disk w :
  CardsSound w.(w_db) -> CardsSound (run_cards ops (disk, w)).2.(w_db).
Proof. intros Hs. by apply run_cards_keeps. Qed.

(** A card that was saved is the one guests are shown: template, texts, colours
    and font of the reply, those of the request where they pass the checks and the
    defaults elsewhere. *)
Theorem card_shown_as_saved `{LW : !CardLaws E C} e req disk w card disk' w' :
  CardsSound w.(w_db) ->
  Save dir e req disk w = (Ok (Ok card, disk'), w') -> w'.(w_faults) = [] ->
  (loadGuestPresentation e w').1
  = Ok (MkPresentation (or_default req.(sv_TemplateID) "balloon-party")
          req.(sv_Heading) req.(sv_Body) req.(sv_Footer)
          (or_default (sanitizeColor req.(sv_PrimaryColor)) "#6366f1")
          (or_default (sanitizeColor req.(sv_SecondaryColor)) "#f0abfc")
          (or_default (sanitizeFont req.(sv_Font)) "Inter")
          (guestBackgroundImage card.(card_CustomData))).
Proof.
  intros Hs H Hf. pose proof (Save_sound dir e req disk w Hs) as Hs'. rewrite H in Hs'. simpl in Hs'.
  unfold Save in H. destruct (negb _) eqn:Et; [done|].
  apply bind_ok in H as (id & w1 & _ & H). apply bind_ok in H as (disk1 & w2 & _ & H).
  apply bind_ok in H as (r & w3 & Hu & H). injection H as -> -> <-.
  unfold attempt in Hu. destruct (Upsert _ w2) as [r w4] eqn:Eu. injection Hu as -> ->.
  apply Upsert_ok in Eu as (row & t1 & t2 & Hrow & -> & Hcard).
  unfold loadGuestPresentation. erewrite bind_run by (by apply query_run).
  erewrite (select_row_unique _ _ _ _ Hrow).
  - simpl. rewrite safe_card_shown by (by eapply cs_safe). rewrite Hcard. done.
  - by apply bool_decide_eq_true.
  - intros k r Hk Hr%bool_decide_eq_true. by eapply (cs_one _ Hs').
Qed.
End requests.

(** ** Uploads *)

Section uploads.
Context `{E : Env} {C : CardEnv}.

(** The bytes an accepted image must have. *)
Definition image_bytes (data : bytes) (ext : string) : Prop :=
  (ext = ".png" /\ exists rest, data = png_signature ++ rest) \/
  (ext = ".jpg" /\ exists rest, data = jpeg_signature ++ rest /\
     exists body, data = body ++ [byte_of 255; byte_of 217]) \/
  (ext = ".webp" /\ exists size rest, length size = 4%nat /\
     data = to_bytes "RIFF" ++ size ++ to_bytes "WEBP" ++ rest).

Lemma bytes_prefix_app p s : bytes_prefix p s = true -> s = p ++ drop (length p) s.
Proof.
  revert s. induction p as [|c p IH]; intros s H; [done|]. destruct s as [|d s]; [done|].
  simpl in *. destruct (ascii_dec c d) as [->|]; [|done]. by rewrite <- IH.
Qed.
Lemma ends_with (data : bytes) a b :
  (2 <= length data)%nat -> data !! (length data - 2)%nat = Some a ->
  data !! (length data - 1)%nat = Some b -> exists body, data = body ++ [a; b].
Proof.
  intros Hl Ha Hb. exists (take (length data - 2) data).
  rewrite <- (take_drop (length data - 2) data) at 1. f_equal.
  rewrite (drop_S _ _ _ Ha). f_equal. replace (S (length data - 2)) with (length data - 1)%nat by lia.
  rewrite (drop_S _ _ _ Hb). f_equal. apply drop_ge. lia.
Qed.


Lemma webp_ok data :
  webp_at_8 data "WEBPVP" = true ->
  exists size rest, length size = 4%nat /\ data = to_bytes "RIFF" ++ size ++ to_bytes "WEBP" ++ rest.
Proof.
  unfold webp_at_8. intros [H1%bytes_prefix_app H2%bytes_prefix_app]%andb_true_iff.
  assert (8 < length data)%nat as Hl.
  { assert (length (drop 8 data) <> 0)%nat as Hn by (rewrite H2; simpl; lia).
    rewrite length_drop in Hn. lia. }
  exists (take 4 (drop 4 data)), (to_bytes "VP" ++ drop 6 (drop 8 data)). split.
  { rewrite length_take, length_drop. lia. }
  rewrite H1 at 1. f_equal. simpl length. rewrite <- (take_drop 4 (drop 4 data)) at 1. f_equal.
  rewrite drop_drop. exact H2.
Qed.
Lemma jpeg_end data : verifyImageSignature "image/jpeg" data = true ->
  exists body, data = body ++ [byte_of 255; byte_of 217].
Proof.
  unfold verifyImageSignature, byte_at. rewrite bool_decide_eq_false_2, bool_decide_eq_true_2 by done.
  destruct (_ || _) eqn:Eb; [done|]. rewrite !orb_false_iff in Eb. destruct Eb as (((Hn & _) & _) & _).
  apply Nat.ltb_ge in Hn. rewrite andb_true_iff, !bool_decide_eq_true. intros [H1 H2].
  apply ends_with; [lia|done..].
Qed.

Lemma sniff_cases data ct :
  sniff_image data = Some ct ->
  (ct = "image/webp" /\ webp_at_8 data "WEBPVP" = true) \/
  (ct = "image/png" /\ bytes_prefix png_signature data = true) \/
  (ct = "image/jpeg" /\ bytes_prefix jpeg_signature data = true).
Proof. unfold sniff_image. repeat case_match; intros [= <-]; auto. Qed.

Lemma detectImageType_ok data :
  (detectImageType data).2 <> "" -> image_bytes data (detectImageType data).2.
Proof.
  unfold detectImageType. destruct (sniff_image data) as [ct|] eqn:Es; [|done].
  apply sniff_cases in Es as [[-> Hw]|[[-> Hp%bytes_prefix_app]|[-> Hj%bytes_prefix_app]]].
  - change (list_find _ allowedImageTypes) with (Some (2%nat, ("image/webp", ".webp"))).
    cbv iota beta. destruct (negb _); [done|]. intros _. right; right. split; [done|]. by apply webp_ok.
  - change (list_find _ allowedImageTypes) with (Some (1%nat, ("image/png", ".png"))).
    cbv iota beta. destruct (negb _); [done|]. intros _. left. split; [done|]. by eexists.
  - change (list_find _ allowedImageTypes) with (Some (0%nat, ("image/jpeg", ".jpg"))).
    cbv iota beta. destruct (verifyImageSignature _ _) eqn:Ev; [|done]. intros _. right; left.
    split; [done|]. eexists. split; [exact Hj|]. by apply jpeg_end.
Qed.

(** What a directory holds after another: the same files but those a predicate selects. *)
Definition same_but (P : string -> Prop) (disk disk' : Disk) : Prop :=
  match disk, disk' with
  | Some a, Some b => forall k, ~ P k -> b !! k = a !! k
  | _, _ => disk' = disk
  end.
Definition image_of (eventID name : string) : Prop := has_prefix name (eventID +:+ "_") = true.

Lemma has_prefix_append p s : has_prefix (p +:+ s) p = true.
Proof.
  unfold has_prefix. rewrite to_bytes_app. induction (to_bytes p) as [|c l IH]; [done|]. simpl.
  by destruct (ascii_dec c c).
Qed.

Lemma append_one (e s k : string) : (e +:+ s) +:+ k = e +:+ s +:+ k.
Proof. induction e as [|c e IH]; [done|]. change (String c ((e +:+ s) +:+ k) = String c (e +:+ s +:+ k)). by f_equal. Qed.

(** An upload that is answered with 200 came from someone who may manage the event,
    holds one of the three image formats, and is stored under the URL of the reply;
    the other files of the directory that do not carry the event's prefix are as they
    were, and of those that do, the ones the system lets go are gone. *)
Theorem upload_replaces dir checkEventOwner organizer e body disk w r disk' w' :
  handleUploadImage dir checkEventOwner organizer e body disk w = (Ok (r, disk'), w') ->
  r.(rs_status) = 200 -> dir <> "" ->
  exists id data name ext files files',
    organizer = Some id /\ (exists u, (checkEventOwner e id w).1 = Ok u) /\
    body = Image data /\ image_bytes (to_bytes data) ext /\
    r = json 200 (PURL ("/api/v1/uploads/" +:+ name)) /\ image_of e name /\
    disk = Some files /\ disk' = Some files' /\ files' !! name = Some data /\
    (forall k, ~ image_of e k -> files' !! k = files !! k) /\
    (forall k, image_of e k -> removable k = true -> k <> name -> files' !! k = None).
Proof.
  unfold handleUploadImage, for_owner. destruct organizer as [id|]; [|by intros [= <-]].
  intros H Hr Hdir. apply bind_ok in H as (o & w1 & Ho & H). unfold attempt in Ho.
  destruct (checkEventOwner e id w) as [o1 w2] eqn:Ec. injection Ho as <- <-.
  destruct o1 as [u|]; [|by injection H as <-]. destruct body as [| | |data]; try (by injection H as <-).
  case_bool_decide as Hext; [by injection H as <-|]. apply detectImageType_ok in Hext.
  unfold store_image in H. apply bind_ok in H as (t & w3 & _ & H).
  set (name := image_name e t _) in *. unfold cleanupEventImages in H.
  rewrite bool_decide_eq_false_2 in H by done.
  destruct disk as [files|]; [|by injection H as <-].
  destruct (writable name); [|by injection H as <-]. injection H as <- <- <-.
  assert (image_of e name) as Hname.
  { unfold name, image_name, image_of.
    rewrite <- append_one. apply has_prefix_append. }
  eexists id, data, name, _, files, _. split_and!; try done; [exists u; by rewrite Ec|by rewrite lookup_insert_eq| |].
  - intros k Hk. rewrite lookup_insert_ne by (intros <-; done).
    destruct (files !! k) as [x|] eqn:Ek.
    + apply map_lookup_filter_Some. split; [done|]. simpl. by intros [? _].
    + apply map_lookup_filter_None. by left.
  - intros k Hk Hrm Hne. rewrite lookup_insert_ne by done. apply map_lookup_filter_None. right.
    intros x _ Hx. by apply Hx.
Qed.
End uploads.

(** ** Witnesses *)

(** An environment with an encoding of maps of texts: the number stdpp gives them. *)
#[local] Instance value_eq_dec : EqDecision value.
Proof. solve_decision. Defined.
#[local] Instance value_countable : Countable value.
Proof.
  refine (inj_countable' (fun v => match v with VText s => inl s | VOther s => inr s end)
    (fun x => match x with inl s => VText s | inr s => VOther s end) _).
  by intros [].
Defined.
Definition demo_cards : CardEnv :=
  {| json_map s := match s with String _ t => decode (read_bits t) | "" => None end;
     json_of_map m := String "{"%char (write_bits (encode m));
     removable _ := true; writable _ := true |}.
#[local] Existing Instance demo_env.
#[local] Existing Instance demo_cards.

#[local] Instance demo_cards_laws : CardLaws demo_env demo_cards.
Proof. intros text data _. simpl. by rewrite read_write_bits, decode_encode. Qed.

Definition demo_image (url : string) : string :=
  json_of_map (Some {["backgroundImage" := VText url]}).
Definition demo_save : SaveInviteRequest :=
  MkSave "confetti" "Party" "" "" " #ABC " "red; }" "Georgia, serif" (demo_image "javascript:alert(1)").
Definition demo_check : string -> string -> M () := fun _ _ => ret ().

Lemma demo_cards_sound : CardsSound demo_db.
Proof. split; intros k r; simpl; rewrite lookup_empty; done. Qed.

Lemma cards_sound_witness :
  CardsSound (run_cards "/uploads" demo_check [KSave (Some "org") "ev" (Some demo_save)]
                (Some ∅, demo_world)).2.(w_db).
Proof. apply cards_sound; [intros e o w; reflexivity|exact demo_cards_laws|exact demo_cards_sound]. Defined.

Definition saved_run : res (res InviteCard * Disk) * World := Save "/uploads" "ev" demo_save (Some ∅) demo_world.
Lemma card_shown_as_saved_witness :
  exists card disk,
    saved_run.1 = Ok (Ok card, disk) /\
    (loadGuestPresentation "ev" saved_run.2).1
    = Ok (MkPresentation "confetti" "Party" "" "" "#ABC" "#f0abfc" "Georgia, serif"
            (guestBackgroundImage card.(card_CustomData))).
Proof.
  destruct saved_run as [[[[card|]  disk]|] w'] eqn:Er; [|vm_compute in Er; discriminate..].
  exists card, disk. split; [reflexivity|].
  apply (card_shown_as_saved "/uploads" "ev" demo_save (Some ∅) demo_world card disk w').
  1: exact demo_cards_sound. 1: exact Er. vm_compute in Er. by injection Er as _ _ <-.
Defined.

Definition demo_png : string := of_bytes png_signature +:+ "...".
Lemma upload_replaces_witness :
  exists name files,
    (handleUploadImage "/uploads" demo_check (Some "org") "ev" (Image demo_png)
       (Some {["ev_1.jpg" := "old"; "other_1.jpg" := "kept"]}) demo_world).1
    = Ok (json 200 (PURL ("/api/v1/uploads/" +:+ name)), Some files) /\ files !! name = Some demo_png.
Proof.
  set (s := handleUploadImage _ _ _ _ _ _ _).
  destruct s as [[[r [d|]]|] w'] eqn:Es; [|vm_compute in Es; discriminate..]. unfold s in Es.
  destruct (upload_replaces _ _ _ _ _ _ _ _ _ _ Es) as (id & data & name & ext & files & files' & _ & _ & Hd & _ & Hr & _ & _ & Hf & Hn & _).
  - vm_compute in Es. injection Es as <- _ _. reflexivity.
  - discriminate.
  - injection Hd as <-. exists name, files'. rewrite Hr, Hf. split; [reflexivity|exact Hn].
Defined.

(** The clean-up of [Save] takes the last part of the former background image as the
    name of a file of the directory, whatever event the file belongs to: a card that
    named another event's image deletes it when the image is changed. *)
Definition hijack_save (custom : string) : SaveInviteRequest := MkSave "" "" "" "" "" "" "" custom.
Definition victim_files : Disk := Some {["victim_1.png" := "image"]}.
Example foreign_image_deleted :
  (run_cards "/uploads" demo_check
     [KSave (Some "org") "ev" (Some (hijack_save (demo_image "/x/victim_1.png")));
      KSave (Some "org") "ev" (Some (hijack_save ""))] (victim_files, demo_world)).1 = Some ∅.
Proof. vm_compute. reflexivity. Qed.
(** A protocol-relative URL counts as a path of the same origin. *)
Example other_origin_kept : sanitizeBackgroundURL "//evil.example/x.png" = "//evil.example/x.png".
Proof. reflexivity. Qed.
