(* ===== verification/Stats.v ===== *)
(** * Instance statistics (internal/stats)

    Aggregates of the whole instance, kept in memory for five minutes.  A
    [GROUP BY] is the list of its groups; the order of the groups is one of those
    SQL allows, and no number depends on it.  The average of guests an event is
    the IEEE double that Go's division gives. *)

From S2P Require Import Prelude.
From S2P Require Import GoStr.
From S2P Require Import GoTime.
From S2P Require Import Schema.
From S2P Require Import Eff.
From S2P Require Import Http.
From S2P Require Import Respect.
From S2P Require Import Demo.
From S2P Require Import Tables.
From Stdlib Require Import SpecFloat.

Local Open Scope Z_scope.

(** ** model.go *)

Record EventStats := MkEventStats {
  es_Total : Z; es_Draft : Z; es_Published : Z; es_Cancelled : Z; es_Archived : Z }.
Record GuestStats := MkGuestStats {
  gs_Total : Z; gs_TotalHeadcount : Z; gs_Attending : Z; gs_Maybe : Z; gs_Declined : Z;
  gs_Pending : Z; gs_AvgPerEvent : spec_float }.
Record FeatureAdoption := MkFeatures {
  fa_OpenEnrollmentEvents : Z; fa_CohostedEvents : Z; fa_EventsWithQuestions : Z;
  fa_EventsWithCapacity : Z; fa_SeriesEvents : Z }.
Record NotificationStats := MkNotificationStats {
  ns_Total : Z; ns_Sent : Z; ns_Failed : Z; ns_Delivered : Z; ns_Opened : Z; ns_Bounced : Z;
  ns_Complained : Z }.
Record InstanceStats := MkStats {
  st_Events : EventStats; st_Guests : GuestStats; st_Users : Z; st_Features : FeatureAdoption;
  st_Notifications : NotificationStats }.

(** ** SQL aggregates *)

Definition values {R} (t : gmap string R) : list R := (map_to_list t).*2.
Definition occurrences {K} `{EqDecision K} (k : K) (keys : list K) : Z :=
  Z.of_nat (length (filter (fun x => x = k) keys)).
(** [SELECT key, COUNT( * ) ... GROUP BY key] *)
Definition tally {K} `{EqDecision K} (keys : list K) : list (K * Z) :=
  (fun k => (k, occurrences k keys)) <$> remove_dups keys.
(** [COUNT(DISTINCT key)] *)
Definition count_distinct {K} `{EqDecision K} (keys : list K) : Z :=
  Z.of_nat (length (remove_dups keys)).

(** [float64(n)] and the division of two of them. *)
Definition float64 (n : Z) : spec_float := binary_normalize 53 1024 n 0 false.
Definition float_div (x y : spec_float) : spec_float := SFdiv 53 1024 x y.

Section store.
Context `{E : Env}.

(** ** store.go *)

Definition add_event_group (out : EventStats) (group : string * Z) : EventStats :=
  let '(status, n) := group in
  let total := out.(es_Total) + n in
  let same := MkEventStats total out.(es_Draft) out.(es_Published) out.(es_Cancelled) out.(es_Archived) in
  if bool_decide (status = "draft") then
    MkEventStats total n out.(es_Published) out.(es_Cancelled) out.(es_Archived)
  else if bool_decide (status = "published") then
    MkEventStats total out.(es_Draft) n out.(es_Cancelled) out.(es_Archived)
  else if bool_decide (status = "cancelled") then
    MkEventStats total out.(es_Draft) out.(es_Published) n out.(es_Archived)
  else if bool_decide (status = "archived") then
    MkEventStats total out.(es_Draft) out.(es_Published) out.(es_Cancelled) n
  else same.
Definition loadEventStats : M EventStats :=
  groups <- query "event stats" (fun d => tally (e_status <$> values d.(events))) ;;
  ret (fold_left add_event_group groups (MkEventStats 0 0 0 0 0)).

(** The guests who are not removed, joined to their responses: one row a response,
    or one with NULL. *)
Definition active_guests (d : Database) : list (string * GuestRow) :=
  select (fun _ g => is_null g.(g_removed_at)) d.(guests).
Definition responses_of (d : Database) (guestID : string) : list string :=
  gr_attendance ∘ snd <$> select (fun _ r => bool_decide (r.(gr_guest_id) = guestID)) d.(guest_responses).
Definition guest_answers_joined (d : Database) : list string :=
  active_guests d ≫= (fun g => match responses_of d g.1 with [] => ["pending"] | l => l end).
Definition event_of_guest (d : Database) (g : GuestRow) : option string :=
  i_event_id <$> d.(invitations) !! g.(g_invitation_id).

Definition add_guest_group (out : GuestStats) (group : string * Z) : GuestStats :=
  let '(status, n) := group in
  let total := out.(gs_Total) + n in
  let heads := out.(gs_TotalHeadcount) + n in
  let avg := out.(gs_AvgPerEvent) in
  if bool_decide (status = "attending") then
    MkGuestStats total heads n out.(gs_Maybe) out.(gs_Declined) out.(gs_Pending) avg
  else if bool_decide (status = "maybe") then
    MkGuestStats total heads out.(gs_Attending) n out.(gs_Declined) out.(gs_Pending) avg
  else if bool_decide (status = "declined") then
    MkGuestStats total heads out.(gs_Attending) out.(gs_Maybe) n out.(gs_Pending) avg
  else if bool_decide (status = "pending") then
    MkGuestStats total heads out.(gs_Attending) out.(gs_Maybe) out.(gs_Declined) n avg
  else MkGuestStats total heads out.(gs_Attending) out.(gs_Maybe) out.(gs_Declined)
         out.(gs_Pending) avg.
Definition with_average (out : GuestStats) (eventsWithGuests : Z) : GuestStats :=
  if 0 <? eventsWithGuests then
    MkGuestStats out.(gs_Total) out.(gs_TotalHeadcount) out.(gs_Attending) out.(gs_Maybe)
      out.(gs_Declined) out.(gs_Pending) (float_div (float64 out.(gs_Total)) (float64 eventsWithGuests))
  else out.
Definition loadGuestStats : M GuestStats :=
  groups <- query "guest stats" (fun d => tally (guest_answers_joined d)) ;;
  n <- query "guest stats" (fun d =>
         count_distinct (omap (fun g => event_of_guest d g.2) (active_guests d))) ;;
  ret (with_average (fold_left add_guest_group groups (MkGuestStats 0 0 0 0 0 0 (float64 0))) n).

Definition loadUserStats : M Z :=
  query "user stats" (fun d => Z.of_nat (size d.(users))).

Definition loadFeatureAdoption : M FeatureAdoption :=
  openEnrollment <- query "feature stats" (fun d => count (fun _ r => r.(o_enabled)) d.(open_enrollments)) ;;
  cohosted <- query "feature stats" (fun d => count_distinct
                (em_event_id <$> filter (fun m => m.(em_role) = "cohost") (values d.(event_memberships)))) ;;
  questions <- query "feature stats" (fun d => count_distinct (q_event_id <$> values d.(event_questions))) ;;
  capacity <- query "feature stats" (fun d =>
                count (fun _ r => negb (bool_decide (r.(o_capacity) = None))) d.(open_enrollments)) ;;
  series <- query "feature stats" (fun d =>
              count (fun _ r => negb (bool_decide (r.(e_series_id) = None))) d.(events)) ;;
  ret (MkFeatures openEnrollment cohosted questions capacity series).

Definition add_notification_group (out : NotificationStats) (group : (string * string) * Z)
    : NotificationStats :=
  let '((status, delivery), n) := group in
  let by_one (b : bool) (x : Z) := if b then x + n else x in
  MkNotificationStats (out.(ns_Total) + n)
    (by_one (bool_decide (status = "sent")) out.(ns_Sent))
    (by_one (bool_decide (status = "failed")) out.(ns_Failed))
    (by_one (bool_decide (delivery = "delivered")) out.(ns_Delivered))
    (by_one (bool_decide (delivery = "opened")) out.(ns_Opened))
    (by_one (bool_decide (delivery = "bounced")) out.(ns_Bounced))
    (by_one (bool_decide (delivery = "complained")) out.(ns_Complained)).
Definition loadNotificationStats : M NotificationStats :=
  groups <- query "notification stats" (fun d =>
              tally ((fun l => (l.(l_status), l.(l_delivery_status))) <$> values d.(notification_log))) ;;
  ret (fold_left add_notification_group groups (MkNotificationStats 0 0 0 0 0 0 0)).

Definition Store_GetInstanceStats : M InstanceStats :=
  e <- loadEventStats ;;
  g <- loadGuestStats ;;
  u <- loadUserStats ;;
  f <- loadFeatureAdoption ;;
  n <- loadNotificationStats ;;
  ret (MkStats e g u f n).

(** ** service.go *)

Definition cacheTTL : Z := 5 * 60 * ns_per_sec.

(** The fields [cached] and [cachedAt], which the mutex guards. *)
Record Cache := MkCache { cached : option InstanceStats; cachedAt : time }.

Definition refresh (c : Cache) : M (res InstanceStats * Cache) :=
  r <- attempt Store_GetInstanceStats ;;
  match r with
  | Err e => ret (Err e, c)
  | Ok stats => t <- now ;; ret (Ok stats, MkCache (Some stats) t)
  end.
Definition GetInstanceStats (c : Cache) : M (res InstanceStats * Cache) :=
  match c.(cached) with
  | Some stats =>
      t <- now ;;
      if t - c.(cachedAt) <? cacheTTL then ret (Ok stats, c) else refresh c
  | None => refresh c
  end.

(** ** handler.go *)

Definition handleGetStats (c : Cache) : M (Resp InstanceStats * Cache) :=
  p <- GetInstanceStats c ;;
  match p.1 with
  | Err _ =>
      ref <- Ref ;;
      ret (MkResp 500 (JErrorOnly ("an internal error occurred (ref: " +:+ ref +:+ ")")) [], p.2)
  | Ok stats => ret (json 200 stats, p.2)
  end.
End store.

(** ** Groups *)

Section tally.
Context {K S : Type} `{EqDecision K} (f : S -> K * Z -> S) (m : S -> Z).

Lemma occurrences_cons (k x : K) keys :
  occurrences k (x :: keys) = (if decide (x = k) then 1 else 0) + occurrences k keys.
Proof. unfold occurrences. rewrite filter_cons. case_decide; simpl; lia. Qed.
Lemma occurrences_absent (k : K) keys : k ∉ keys -> occurrences k keys = 0.
Proof.
  induction keys as [|x keys IH]; [done|]. intros [Hx Hk]%not_elem_of_cons.
  rewrite occurrences_cons, decide_False by done. rewrite IH by done. done.
Qed.

(** The groups a predicate selects hold the keys it selects. *)
Definition selected (sel : K -> bool) (ks keys : list K) : Z :=
  foldr (fun k n => (if sel k then occurrences k keys else 0) + n) 0 ks.
Lemma selected_nil sel ks : selected sel ks [] = 0.
Proof. induction ks as [|k ks IH]; simpl; [done|]. rewrite IH. by destruct (sel k). Qed.
Lemma selected_absent sel ks x keys : x ∉ ks -> selected sel ks (x :: keys) = selected sel ks keys.
Proof.
  induction ks as [|k ks IH]; [done|]. intros [Hk Hx]%not_elem_of_cons. simpl.
  rewrite occurrences_cons, decide_False by done. by rewrite IH.
Qed.
Lemma selected_cons sel ks x keys :
  NoDup ks -> x ∈ ks -> selected sel ks (x :: keys) = (if sel x then 1 else 0) + selected sel ks keys.
Proof.
  intros Hn. revert x. induction Hn as [|k ks Hk Hn IH]; intros x Hx; [by apply not_elem_of_nil in Hx|].
  simpl. rewrite occurrences_cons. destruct (decide (x = k)) as [->|Hne].
  - rewrite selected_absent by done. destruct (sel k); lia.
  - apply elem_of_cons in Hx as [?|Hx]; [done|]. rewrite IH by done. destruct (sel k); lia.
Qed.
Lemma selected_all sel ks keys :
  NoDup ks -> (forall k, k ∈ keys -> k ∈ ks) ->
  selected sel ks keys = Z.of_nat (length (List.filter sel keys)).
Proof.
  intros Hn. induction keys as [|x keys IH]; intros Hin; [apply selected_nil|].
  rewrite selected_cons; [|done|apply Hin; left]. rewrite IH; [|intros; apply Hin; by right].
  simpl. destruct (sel x); simpl; lia.
Qed.

(** A counter that adds the groups of some keys counts those keys. *)
Lemma fold_tally (sel : K -> bool) keys s :
  (forall s k n, m (f s (k, n)) = m s + if sel k then n else 0) ->
  m (fold_left f (tally keys) s) = m s + Z.of_nat (length (List.filter sel keys)).
Proof.
  intros Hf. rewrite <- (selected_all sel (remove_dups keys));
    [|apply NoDup_remove_dups|intros; by apply elem_of_remove_dups].
  unfold tally. revert s. induction (remove_dups keys) as [|k ks IH]; intros s; simpl; [lia|].
  rewrite IH, Hf. lia.
Qed.
(** A column that a group sets holds the number of its key. *)
Lemma fold_assign key keys s :
  (forall s k n, m (f s (k, n)) = if bool_decide (k = key) then n else m s) -> m s = 0 ->
  m (fold_left f (tally keys) s) = occurrences key keys.
Proof.
  intros Hf Hs. unfold tally.
  assert (forall ks s, NoDup ks ->
    m (fold_left f ((fun k => (k, occurrences k keys)) <$> ks) s)
    = if bool_decide (key ∈ ks) then occurrences key keys else m s) as Hks.
  { clear s Hs. intros ks s Hn. revert s. induction Hn as [|k ks Hk Hn IH]; intros s; simpl; [done|].
    rewrite IH, Hf. destruct (bool_decide_reflect (k = key)) as [->|Hne].
    - rewrite (bool_decide_eq_false_2 _ Hk). by rewrite bool_decide_eq_true_2 by left.
    - assert (bool_decide (key ∈ k :: ks) = bool_decide (key ∈ ks)) as ->; [|done].
      apply bool_decide_ext. rewrite elem_of_cons. naive_solver. }
  rewrite Hks by apply NoDup_remove_dups. rewrite Hs. case_bool_decide as Hin; [done|].
  rewrite elem_of_remove_dups in Hin. by rewrite occurrences_absent.
Qed.
End tally.

Lemma filter_true {A} (l : list A) : List.filter (fun _ => true) l = l.
Proof. induction l as [|x l IH]; simpl; [done|by rewrite IH]. Qed.
Lemma length_values {R} (t : gmap string R) : length (values t) = size t.
Proof. unfold values. by rewrite length_fmap, length_map_to_list. Qed.
(** Keys among [ks] are all counted. *)
Lemma occurrences_partition {K} `{EqDecision K} (ks keys : list K) :
  NoDup ks -> (forall k, k ∈ keys -> k ∈ ks) ->
  foldr (fun k n => occurrences k keys + n) 0 ks = Z.of_nat (length keys).
Proof.
  intros Hn Hin. pose proof (selected_all (fun _ => true) ks keys Hn Hin) as H.
  by rewrite filter_true in H.
Qed.

(** ** The numbers *)

Section exact.
Context `{E : Env}.

Lemma event_groups keys :
  fold_left add_event_group (tally keys) (MkEventStats 0 0 0 0 0)
  = MkEventStats (Z.of_nat (length keys)) (occurrences "draft" keys) (occurrences "published" keys)
      (occurrences "cancelled" keys) (occurrences "archived" keys).
Proof.
  set (s := fold_left _ _ _).
  assert (s.(es_Total) = Z.of_nat (length keys)) as H0.
  { unfold s. rewrite (fold_tally add_event_group es_Total (fun _ => true)), filter_true; [done|].
    intros s0 k n. unfold add_event_group. repeat case_match; simpl; lia. }
  assert (forall col key, (forall s k n, col (add_event_group s (k, n)) =
    if bool_decide (k = key) then n else col s) -> col (MkEventStats 0 0 0 0 0) = 0 ->
    col s = occurrences key keys) as Hc by (intros; by apply fold_assign).
  pose proof (Hc es_Draft "draft") as H1. pose proof (Hc es_Published "published") as H2.
  pose proof (Hc es_Cancelled "cancelled") as H3. pose proof (Hc es_Archived "archived") as H4.
  clear Hc. destruct s as [t d p c a]; simpl in *.
  f_equal; (assumption || (apply H1 || apply H2 || apply H3 || apply H4); try done);
    intros s0 k n; unfold add_event_group;
    repeat (case_bool_decide; subst; try done).
Qed.

Lemma average_kept l g : gs_AvgPerEvent (fold_left add_guest_group l g) = gs_AvgPerEvent g.
Proof.
  revert g. induction l as [|[k n] l IH]; intros g; simpl; [done|]. rewrite IH.
  unfold add_guest_group. by repeat case_match.
Qed.
Lemma guest_groups keys avg :
  fold_left add_guest_group (tally keys) (MkGuestStats 0 0 0 0 0 0 avg)
  = MkGuestStats (Z.of_nat (length keys)) (Z.of_nat (length keys)) (occurrences "attending" keys)
      (occurrences "maybe" keys) (occurrences "declined" keys) (occurrences "pending" keys) avg.
Proof.
  set (s := fold_left _ _ _).
  assert (s.(gs_Total) = Z.of_nat (length keys) /\ s.(gs_TotalHeadcount) = Z.of_nat (length keys)) as [H0 H0'].
  { unfold s. rewrite (fold_tally add_guest_group gs_Total (fun _ => true)), filter_true,
      (fold_tally add_guest_group gs_TotalHeadcount (fun _ => true)), filter_true; [done|..];
      intros s0 k n; unfold add_guest_group; repeat case_match; simpl; lia. }
  assert (s.(gs_AvgPerEvent) = avg) as Ha by (unfold s; by rewrite average_kept).
  assert (forall col key, (forall s k n, col (add_guest_group s (k, n)) =
    if bool_decide (k = key) then n else col s) -> col (MkGuestStats 0 0 0 0 0 0 avg) = 0 ->
    col s = occurrences key keys) as Hc by (intros; by apply fold_assign).
  pose proof (Hc gs_Attending "attending") as H1. pose proof (Hc gs_Maybe "maybe") as H2.
  pose proof (Hc gs_Declined "declined") as H3. pose proof (Hc gs_Pending "pending") as H4.
  clear Hc. destruct s as [t h a m d p v]; simpl in *.
  f_equal; (assumption || (apply H1 || apply H2 || apply H3 || apply H4); try done);
    intros s0 k n; unfold add_guest_group; repeat (case_bool_decide; subst; try done).
Qed.

Lemma notification_groups keys :
  let s := fold_left add_notification_group (tally keys) (MkNotificationStats 0 0 0 0 0 0 0) in
  let number (P : string * string -> bool) := Z.of_nat (length (List.filter P keys)) in
  s = MkNotificationStats (Z.of_nat (length keys))
        (number (fun k => bool_decide (k.1 = "sent"))) (number (fun k => bool_decide (k.1 = "failed")))
        (number (fun k => bool_decide (k.2 = "delivered"))) (number (fun k => bool_decide (k.2 = "opened")))
        (number (fun k => bool_decide (k.2 = "bounced")))
        (number (fun k => bool_decide (k.2 = "complained"))).
Proof.
  intros s number.
  assert (forall (col : NotificationStats -> Z) (sel : string * string -> bool), (forall s k n, col (add_notification_group s (k, n)) = col s + if sel k then n else 0) ->
    col (MkNotificationStats 0 0 0 0 0 0 0) = 0 -> col s = number sel) as Hc.
  { intros col sel Hf H0. unfold s, number. rewrite (fold_tally _ col sel) by done. lia. }
  pose proof (Hc ns_Total (fun _ => true)) as H0. unfold number in H0. rewrite filter_true in H0.
  pose proof (Hc ns_Sent (fun k => bool_decide (k.1 = "sent"))) as H1.
  pose proof (Hc ns_Failed (fun k => bool_decide (k.1 = "failed"))) as H2.
  pose proof (Hc ns_Delivered (fun k => bool_decide (k.2 = "delivered"))) as H3.
  pose proof (Hc ns_Opened (fun k => bool_decide (k.2 = "opened"))) as H4.
  pose proof (Hc ns_Bounced (fun k => bool_decide (k.2 = "bounced"))) as H5.
  pose proof (Hc ns_Complained (fun k => bool_decide (k.2 = "complained"))) as H6.
  clear Hc. destruct s; simpl in *.
  f_equal; (apply H0 || apply H1 || apply H2 || apply H3 || apply H4 || apply H5 || apply H6); try done;
    intros s0 [a b] n; simpl; try lia; case_bool_decide; lia.
Qed.

Lemma with_average_same g n :
  let g' := with_average g n in
  g'.(gs_Total) = g.(gs_Total) /\ g'.(gs_TotalHeadcount) = g.(gs_TotalHeadcount) /\
  g'.(gs_Attending) = g.(gs_Attending) /\ g'.(gs_Maybe) = g.(gs_Maybe) /\
  g'.(gs_Declined) = g.(gs_Declined) /\ g'.(gs_Pending) = g.(gs_Pending).
Proof. unfold with_average. by destruct (0 <? n). Qed.
Lemma length_bind_one {A B} (f : A -> list B) l :
  (forall x, length (f x) = 1%nat) -> length (l ≫= f) = length l.
Proof. intros Hf. induction l as [|x l IH]; [done|]. rewrite bind_cons, length_app, IH, Hf. done. Qed.
Lemma bind_one {A B} (f : A -> list B) (h : A -> B) l : (forall x, f x = [h x]) -> l ≫= f = h <$> l.
Proof. intros Hf. induction l as [|x l IH]; [done|]. by rewrite bind_cons, fmap_cons, Hf, IH. Qed.
(** One answer a guest, when a guest has at most one response. *)
Definition answer_of (d : Database) (guest : string) : string :=
  match responses_of d guest with a :: _ => a | [] => "pending" end.
Lemma answer_cases d guest :
  uniq gr_guest_id d.(guest_responses) ->
  (responses_of d guest = [] /\ forall k r, d.(guest_responses) !! k = Some r -> r.(gr_guest_id) <> guest) \/
  exists k r, responses_of d guest = [r.(gr_attendance)] /\ d.(guest_responses) !! k = Some r /\
    r.(gr_guest_id) = guest /\
    forall k' r', d.(guest_responses) !! k' = Some r' -> r'.(gr_guest_id) = guest -> r' = r.
Proof.
  intros Hu. unfold responses_of. set (Q := fun (_ : string) r => bool_decide (gr_guest_id r = guest)).
  pose proof (NoDup_select Q (guest_responses d)) as Hn.
  assert (forall k r, (k, r) ∈ select Q (guest_responses d) <->
    d.(guest_responses) !! k = Some r /\ r.(gr_guest_id) = guest) as Hin.
  { intros k r. rewrite elem_of_select. unfold Q. by rewrite bool_decide_eq_true. }
  destruct (select Q _) as [|[k1 r1] [|[k2 r2] l']] eqn:Es.
  - left. split; [done|]. intros k r Hk Hg. by apply (not_elem_of_nil (k, r)), Hin.
  - right. exists k1, r1. destruct (Hin k1 r1) as [[Hk1 Hg1] _]; [left|]. split_and!; [done..|].
    intros k' r' Hk' Hg'. destruct (Hin k' r') as [_ H]. specialize (H (conj Hk' Hg')).
    apply list_elem_of_singleton in H. congruence.
  - exfalso. destruct (Hin k1 r1) as [[Hk1 Hg1] _]; [left|].
    destruct (Hin k2 r2) as [[Hk2 Hg2] _]; [right; left|]. simpl in Hn. apply NoDup_cons in Hn as [Hk _].
    apply Hk. rewrite (Hu _ _ _ _ Hk1 Hk2) by congruence. left.
Qed.
Lemma joined_answers d :
  uniq gr_guest_id d.(guest_responses) ->
  guest_answers_joined d = (fun g => answer_of d g.1) <$> active_guests d.
Proof.
  intros Hu. apply bind_one. intros g. unfold answer_of.
  by destruct (answer_cases d g.1 Hu) as [[-> _]|(k & r & -> & _)].
Qed.
Lemma joined_valid d :
  (forall k r, d.(guest_responses) !! k = Some r -> valid_attendance_col r.(gr_attendance) = true) ->
  forall a, a ∈ guest_answers_joined d -> a ∈ ["attending"; "maybe"; "declined"; "pending"].
Proof.
  intros Hv a. unfold guest_answers_joined. rewrite list_elem_of_bind. intros (g & Ha & _).
  assert (a ∈ responses_of d g.1 \/ a = "pending") as [H| ->]; [|..|set_solver].
  { destruct (responses_of d g.1); [right; by apply list_elem_of_singleton in Ha|by left]. }
  unfold responses_of in H. apply list_elem_of_fmap in H as ([k r] & -> & Hk%elem_of_select).
  destruct Hk as [Hk _]. specialize (Hv _ _ Hk). unfold valid_attendance_col in Hv. simpl.
  unfold one_of in Hv. apply bool_decide_eq_true in Hv. set_solver.
Qed.

(** [n] names satisfy [P]. *)
Definition number_of (P : string -> Prop) (n : Z) : Prop :=
  exists l, NoDup l /\ (forall x, x ∈ l <-> P x) /\ n = Z.of_nat (length l).
Definition rows {R} (t : gmap string R) (P : string -> R -> Prop) : Z -> Prop :=
  number_of (fun k => exists r, t !! k = Some r /\ P k r).

(** A guest who is not removed; what she answered, or nothing yet. *)
Definition takes_part (g : GuestRow) : Prop := g.(g_removed_at) = None.
Definition answered (d : Database) (guest attendance : string) : Prop :=
  exists k r, d.(guest_responses) !! k = Some r /\ r.(gr_guest_id) = guest /\ r.(gr_attendance) = attendance.
Definition unanswered (d : Database) (guest : string) : Prop :=
  forall k r, d.(guest_responses) !! k = Some r -> r.(gr_guest_id) = guest -> r.(gr_attendance) = "pending".
Definition has_guest (d : Database) (event : string) : Prop :=
  exists k g i, d.(guests) !! k = Some g /\ takes_part g /\
    d.(invitations) !! g.(g_invitation_id) = Some i /\ i.(i_event_id) = event.

(** What the statistics must say of a database, number by number. *)
Record StatsOf (d : Database) (s : InstanceStats) : Prop := {
  so_events : let e := s.(st_Events) in let status x n := rows d.(events) (fun _ r => r.(e_status) = x) n in
    rows d.(events) (fun _ _ => True) e.(es_Total) /\ status "draft" e.(es_Draft) /\
    status "published" e.(es_Published) /\ status "cancelled" e.(es_Cancelled) /\
    status "archived" e.(es_Archived) /\
    e.(es_Total) = e.(es_Draft) + e.(es_Published) + e.(es_Cancelled) + e.(es_Archived);
  so_guests : let g := s.(st_Guests) in
    let answer x n := rows d.(guests) (fun k r => takes_part r /\ answered d k x) n in
    rows d.(guests) (fun _ r => takes_part r) g.(gs_Total) /\ g.(gs_TotalHeadcount) = g.(gs_Total) /\
    answer "attending" g.(gs_Attending) /\ answer "maybe" g.(gs_Maybe) /\ answer "declined" g.(gs_Declined) /\
    rows d.(guests) (fun k r => takes_part r /\ unanswered d k) g.(gs_Pending) /\
    g.(gs_Total) = g.(gs_Attending) + g.(gs_Maybe) + g.(gs_Declined) + g.(gs_Pending);
  so_average : exists n, number_of (has_guest d) n /\
    s.(st_Guests).(gs_AvgPerEvent) =
      if 0 <? n then float_div (float64 s.(st_Guests).(gs_Total)) (float64 n) else float64 0;
  so_users : rows d.(users) (fun _ _ => True) s.(st_Users);
  so_features : let f := s.(st_Features) in
    rows d.(open_enrollments) (fun _ r => r.(o_enabled) = true) f.(fa_OpenEnrollmentEvents) /\
    number_of (fun ev => exists k r, d.(event_memberships) !! k = Some r /\
                 r.(em_event_id) = ev /\ r.(em_role) = "cohost") f.(fa_CohostedEvents) /\
    number_of (fun ev => exists k r, d.(event_questions) !! k = Some r /\ r.(q_event_id) = ev)
      f.(fa_EventsWithQuestions) /\
    rows d.(open_enrollments) (fun _ r => r.(o_capacity) <> None) f.(fa_EventsWithCapacity) /\
    rows d.(events) (fun _ r => r.(e_series_id) <> None) f.(fa_SeriesEvents);
  so_log : let n := s.(st_Notifications) in
    let status x m := rows d.(notification_log) (fun _ r => r.(l_status) = x) m in
    let delivery x m := rows d.(notification_log) (fun _ r => r.(l_delivery_status) = x) m in
    rows d.(notification_log) (fun _ _ => True) n.(ns_Total) /\ status "sent" n.(ns_Sent) /\
    status "failed" n.(ns_Failed) /\ delivery "delivered" n.(ns_Delivered) /\
    delivery "opened" n.(ns_Opened) /\ delivery "bounced" n.(ns_Bounced) /\
    delivery "complained" n.(ns_Complained) }.

Lemma number_of_iff P Q n : (forall x, P x <-> Q x) -> number_of P n -> number_of Q n.
Proof. intros H (l & Hn & Hl & ->). exists l. split_and!; [done| |done]. intros x. by rewrite Hl. Qed.
Lemma number_distinct (keys : list string) : number_of (fun x => x ∈ keys) (count_distinct keys).
Proof.
  exists (remove_dups keys). split_and!; [apply NoDup_remove_dups|intros; apply elem_of_remove_dups|done].
Qed.
Lemma rows_count {R} (t : gmap string R) (b : string -> R -> bool) P :
  (forall k r, t !! k = Some r -> b k r = true <-> P k r) -> rows t P (count b t).
Proof.
  intros Hb. exists ((select b t).*1). split_and!; [apply NoDup_select| |by rewrite length_fmap].
  intros k. rewrite list_elem_of_fmap. split.
  - intros ([k' r] & -> & [Hk Hr]%elem_of_select). exists r. split; [done|by apply (Hb k')].
  - intros (r & Hk & Hr). exists (k, r). split; [done|]. apply elem_of_select. split; [done|by apply (Hb k)].
Qed.
Lemma rows_size {R} (t : gmap string R) : rows t (fun _ _ => True) (Z.of_nat (size t)).
Proof.
  exists ((map_to_list t).*1). split_and!; [apply NoDup_fst_map_to_list| |by rewrite length_fmap, length_map_to_list].
  intros k. rewrite list_elem_of_fmap. split.
  - intros ([k' r] & -> & Hk%elem_of_map_to_list). by exists r.
  - intros (r & Hk & _). exists (k, r). split; [done|by apply elem_of_map_to_list].
Qed.

(** The groups of a column against the rows of a table. *)
Lemma length_filter_fmap {A B} (P : B -> bool) (f : A -> B) l :
  length (List.filter P (f <$> l)) = length (List.filter (fun x => P (f x)) l).
Proof.
  induction l as [|x l IH]; [done|]. rewrite fmap_cons. simpl.
  destruct (P (f x)); simpl; by rewrite IH.
Qed.
Lemma length_filter_values {R} (P : R -> bool) (t : gmap string R) :
  Z.of_nat (length (List.filter P (values t))) = count (fun _ => P) t.
Proof. unfold values. by rewrite length_filter_fmap. Qed.
Lemma occurrences_column {R} (col : R -> string) key (t : gmap string R) :
  occurrences key (col <$> values t) = count (fun _ r => bool_decide (col r = key)) t.
Proof.
  rewrite <- length_filter_values. unfold occurrences. f_equal.
  induction (values t) as [|r l IH]; [done|]. rewrite fmap_cons, filter_cons. simpl.
  case_decide; case_bool_decide; simpl; congruence.
Qed.

Lemma occurrences_select {R} (t : gmap string R) (b : string -> R -> bool) (h : string -> string) key P :
  (forall k r, t !! k = Some r -> (b k r = true /\ h k = key) <-> P k r) ->
  rows t P (occurrences key ((fun x => h x.1) <$> select b t)).
Proof.
  intros Hb.
  assert (occurrences key ((fun x => h x.1) <$> select b t)
          = count (fun k r => b k r && bool_decide (h k = key)) t) as ->.
  { unfold occurrences, count, select. f_equal. induction (map_to_list t) as [|[k r] l IH]; [done|].
    cbn [List.filter fst snd]. destruct (b k r); cbn [andb]; [|done].
    rewrite fmap_cons, filter_cons. cbn [fst]. destruct (decide (h k = key)).
    - rewrite bool_decide_eq_true_2 by done. cbn [length]. by rewrite IH.
    - by rewrite bool_decide_eq_false_2. }
  apply rows_count. intros k r Hk. rewrite <- Hb by done. by rewrite andb_true_iff, bool_decide_eq_true.
Qed.
Lemma rows_answered d x :
  uniq gr_guest_id d.(guest_responses) -> x <> "pending" ->
  rows d.(guests) (fun k r => takes_part r /\ answered d k x) (occurrences x (guest_answers_joined d)).
Proof.
  intros Hu Hx. rewrite joined_answers by done. apply occurrences_select. intros k g _.
  unfold is_null, takes_part. rewrite bool_decide_eq_true. apply and_iff_compat_l. unfold answer_of, answered.
  destruct (answer_cases d k Hu) as [[-> Hno]|(k' & r & -> & Hk & Hg & Hr)].
  - split; [by intros <-|]. intros (k' & r & Hk & Hg & _). by destruct (Hno _ _ Hk).
  - split; [intros <-; eauto|]. intros (k2 & r2 & Hk2 & Hg2 & <-). by rewrite (Hr _ _ Hk2 Hg2).
Qed.
Lemma rows_unanswered d :
  uniq gr_guest_id d.(guest_responses) ->
  rows d.(guests) (fun k r => takes_part r /\ unanswered d k) (occurrences "pending" (guest_answers_joined d)).
Proof.
  intros Hu. rewrite joined_answers by done. apply occurrences_select. intros k g _.
  unfold is_null, takes_part. rewrite bool_decide_eq_true. apply and_iff_compat_l. unfold answer_of, unanswered.
  destruct (answer_cases d k Hu) as [[-> Hno]|(k' & r & -> & Hk & Hg & Hr)].
  - split; [|done]. intros _ k' r Hk Hg. by destruct (Hno _ _ Hk).
  - split; [|by intros H; apply (H k')]. intros <- k2 r2 Hk2 Hg2. by rewrite (Hr _ _ Hk2 Hg2).
Qed.
Lemma number_distinct_col {R} (t : gmap string R) (col : R -> string) (b : R -> bool) P :
  (forall x, P x <-> exists k r, t !! k = Some r /\ col r = x /\ b r = true) ->
  number_of P (count_distinct (col <$> List.filter b (values t))).
Proof.
  intros HP. eapply number_of_iff; [|apply number_distinct]. intros x. rewrite HP, list_elem_of_fmap. split.
  - intros (r & -> & [Hr Hb]%list_elem_of_In%filter_In). apply list_elem_of_In, list_elem_of_fmap in Hr
      as ([k r'] & -> & Hk%elem_of_map_to_list). eauto.
  - intros (k & r & Hk & <- & Hb). exists r. split; [done|]. apply list_elem_of_In, filter_In. split; [|done].
    apply list_elem_of_In, list_elem_of_fmap. exists (k, r). split; [done|by apply elem_of_map_to_list].
Qed.
Lemma number_with_guest d :
  number_of (has_guest d) (count_distinct (omap (fun g => event_of_guest d g.2) (active_guests d))).
Proof.
  eapply number_of_iff; [|apply number_distinct]. intros x. rewrite list_elem_of_omap. unfold has_guest, event_of_guest.
  split.
  - intros ([k g] & [Hk Hp%bool_decide_eq_true]%elem_of_select & Hi). apply fmap_Some in Hi as (i & Hi & ->). eauto 10.
  - intros (k & g & i & Hk & Hp & Hi & <-). exists (k, g). split; [|simpl; by rewrite Hi].
    apply elem_of_select. split; [done|by apply bool_decide_eq_true].
Qed.
Lemma filter_list_filter {A} (P : A -> Prop) `{forall x, Decision (P x)} (l : list A) :
  filter P l = List.filter (fun x => bool_decide (P x)) l.
Proof. induction l as [|x l IH]; [done|]. rewrite filter_cons. simpl. rewrite <- IH. by destruct (decide (P x)); [rewrite bool_decide_eq_true_2|rewrite bool_decide_eq_false_2]. Qed.

(** The statuses the program gives events; the schema allows one more. *)
Definition event_statuses : list string := ["draft"; "published"; "cancelled"; "archived"].

Lemma Store_GetInstanceStats_ok w s w' :
  uniq gr_guest_id w.(w_db).(guest_responses) ->
  (forall k r, w.(w_db).(guest_responses) !! k = Some r -> valid_attendance_col r.(gr_attendance) = true) ->
  (forall k r, w.(w_db).(events) !! k = Some r -> r.(e_status) ∈ event_statuses) ->
  Store_GetInstanceStats w = (Ok s, w') -> StatsOf w.(w_db) s.
Proof.
  intros Hu Ha He H. unfold Store_GetInstanceStats, loadEventStats, loadGuestStats, loadUserStats,
    loadFeatureAdoption, loadNotificationStats in H. run_ok.
  repeat match goal with H : w_db _ = w_db _ |- _ => rewrite H in *; clear H end.
  rewrite event_groups, guest_groups, notification_groups.
  match goal with |- context [with_average ?g ?n] =>
    destruct (with_average_same g n) as (H0 & H1 & H2 & H3 & H4 & H5); simpl in H0, H1, H2, H3, H4, H5 end.
  split; cbv zeta; simpl; rewrite ?H0, ?H1, ?H2, ?H3, ?H4, ?H5.
  - rewrite length_fmap, length_values. split_and!; [apply rows_size|..].
    1-4: rewrite occurrences_column; apply rows_count; intros; apply bool_decide_eq_true.
    rewrite <- length_values, <- (length_fmap e_status), <- (occurrences_partition event_statuses);
      [simpl; lia|by apply (bool_decide_unpack _); vm_compute|].
    intros st (e & -> & Hin)%list_elem_of_fmap. apply list_elem_of_fmap in Hin as ([k r] & -> & Hk).
    apply elem_of_map_to_list in Hk. exact (He _ _ Hk).
  - split_and!; [|done|by apply rows_answered..|by apply rows_unanswered|].
    + rewrite joined_answers, length_fmap by done. apply rows_count. intros; apply bool_decide_eq_true.
    + rewrite <- (occurrences_partition ["attending"; "maybe"; "declined"; "pending"]);
        [simpl; lia|by apply (bool_decide_unpack _); vm_compute|by apply joined_valid].
  - eexists. split; [apply number_with_guest|]. unfold with_average. by destruct (0 <? _).
  - apply rows_size.
  - split_and!.
    + apply rows_count. done.
    + rewrite filter_list_filter. apply number_distinct_col. intros x.
      by setoid_rewrite bool_decide_eq_true.
    + rewrite <- (filter_true (values _)). apply number_distinct_col. naive_solver.
    + apply rows_count. intros k r _. by rewrite negb_true_iff, bool_decide_eq_false.
    + apply rows_count. intros k r _. by rewrite negb_true_iff, bool_decide_eq_false.
  - rewrite length_fmap, length_values. split_and!; [apply rows_size|..];
      rewrite length_filter_fmap, length_filter_values; apply rows_count; intros; apply bool_decide_eq_true.
Qed.
End exact.

(** ** The cache *)

Section cache.
Context `{E : Env}.

(** A request: the database it met, the clock before and after, the answer. *)
Record request := MkRequest {
  rq_db : Database; rq_start : nat; rq_end : nat; rq_answer : res InstanceStats }.

(** A run: before each request the rest of the program does what it likes. *)
Fixpoint serve (changes : list (World -> World)) (c : Cache) (w : World) : list request :=
  match changes with
  | [] => []
  | g :: l =>
      let w0 := g w in
      let '(r, w1) := GetInstanceStats c w0 in
      let p := match r with Ok p => p | Err e => (Err e, c) end in
      MkRequest w0.(w_db) w0.(w_clock) w1.(w_clock) p.1 :: serve l p.2 w1
  end.

Definition stats_ready (d : Database) : Prop :=
  uniq gr_guest_id d.(guest_responses) /\
  (forall k r, d.(guest_responses) !! k = Some r -> valid_attendance_col r.(gr_attendance) = true) /\
  (forall k r, d.(events) !! k = Some r -> r.(e_status) ∈ event_statuses).

(** What the cache holds was computed by a request of [past], at the time it says. *)
Definition filled (past : list request) (c : Cache) : Prop :=
  forall s, c.(cached) = Some s ->
    exists b n, b ∈ past /\ StatsOf b.(rq_db) s /\ c.(cachedAt) = clock n /\
      (b.(rq_start) <= n <= b.(rq_end))%nat.
(** An answer is the statistics of its own database or recent ones. *)
Definition recent (past : list request) (a : request) : Prop :=
  forall s, a.(rq_answer) = Ok s ->
    StatsOf a.(rq_db) s \/
    exists b n, b ∈ past /\ StatsOf b.(rq_db) s /\ (b.(rq_start) <= n <= b.(rq_end))%nat /\
      clock a.(rq_start) - clock n < 5 * 60 * ns_per_sec.

Lemma Store_GetInstanceStats_clock w s w' :
  Store_GetInstanceStats w = (Ok s, w') -> w'.(w_clock) = w.(w_clock).
Proof.
  unfold Store_GetInstanceStats, loadEventStats, loadGuestStats, loadUserStats, loadFeatureAdoption,
    loadNotificationStats. intros H. run_ok. congruence.
Qed.
Lemma refresh_ok c w a c' w' :
  stats_ready w.(w_db) -> refresh c w = (Ok (a, c'), w') ->
  (exists e, a = Err e /\ c' = c) \/
  exists s, a = Ok s /\ StatsOf w.(w_db) s /\ c' = MkCache (Some s) (clock w.(w_clock)) /\
    (w.(w_clock) <= w'.(w_clock))%nat.
Proof.
  intros (H1 & H2 & H3) H. unfold refresh in H. apply bind_ok in H as (r & w1 & Hr & H).
  unfold attempt in Hr. destruct (Store_GetInstanceStats w) as [r0 w0] eqn:Es. injection Hr as -> ->.
  destruct r as [s|e]; [|injection H as <- <- _; eauto]. right.
  apply bind_ok in H as (t & w2 & Ht & H). injection H as <- <- <-. exists s.
  pose proof (Store_GetInstanceStats_clock _ _ _ Es) as Hc.
  unfold now in Ht. injection Ht as <- <-. rewrite Hc. simpl.
  split_and!; [done|by eapply Store_GetInstanceStats_ok|done|lia].
Qed.
Lemma filled_more past b c : filled past c -> filled (past ++ [b]) c.
Proof.
  intros Hf s Hs. destruct (Hf s Hs) as (x & n & Hx & ?). exists x, n.
  split; [by apply elem_of_app; left|done].
Qed.
Lemma GetInstanceStats_ok past c w a c' w' :
  filled past c -> stats_ready w.(w_db) -> GetInstanceStats c w = (Ok (a, c'), w') ->
  let b := MkRequest w.(w_db) w.(w_clock) w'.(w_clock) a in
  filled (past ++ [b]) c' /\ recent past b.
Proof.
  intros Hf Hr H b. unfold GetInstanceStats in H.
  assert (forall w2, w2.(w_db) = w.(w_db) -> (w.(w_clock) <= w2.(w_clock))%nat ->
    refresh c w2 = (Ok (a, c'), w') -> filled (past ++ [b]) c' /\ recent past b) as Hfresh.
  { intros w2 Hd Hc Hx. apply refresh_ok in Hx as [(e & -> & ->)|(s & -> & Hs & -> & Hle)]; [..|by rewrite Hd].
    - split; [by apply filled_more|by intros s].
    - rewrite Hd in Hs. split; [|intros s' [= <-]; by left].
      intros s' [= <-]. exists b, (w_clock w2). split; [by apply elem_of_app; right; left|].
      split; [done|]. split; [done|]. simpl. lia. }
  destruct (cached c) as [s|] eqn:Ec; [|by apply (Hfresh w)].
  apply bind_ok in H as (t & w2 & Ht & H). unfold now in Ht. injection Ht as <- <-.
  destruct (Z.ltb_spec (clock (w_clock w) - cachedAt c) cacheTTL) as [Hlt|_];
    [|eapply Hfresh; [| |exact H]; simpl; [done|lia]].
  injection H as <- <- <-. split; [by apply filled_more|].
  intros s' [= <-]. right. destruct (Hf s Ec) as (x & n & Hx & Hs & Hn & Hle).
  exists x, n. rewrite Hn in Hlt. done.
Qed.

Lemma serve_recent changes past c w :
  filled past c -> Forall (fun a => stats_ready a.(rq_db)) (serve changes c w) ->
  forall i a, serve changes c w !! i = Some a -> recent (past ++ take i (serve changes c w)) a.
Proof.
  revert past c w. induction changes as [|g l IH]; intros past c w Hf Hr i a Hi; [done|]. simpl in *.
  destruct (GetInstanceStats c (g w)) as [[[x c']|e] w1] eqn:Eg; simpl in *;
    apply Forall_cons in Hr as [Hr Hrest].
  - destruct (GetInstanceStats_ok past c (g w) x c' w1 Hf Hr Eg) as [Hf' Hx].
    destruct i as [|i]; simpl in *; [injection Hi as <-; by rewrite app_nil_r|].
    pose proof (IH _ c' w1 Hf' Hrest i a Hi) as Ha. by rewrite <- (assoc_L (++)) in Ha.
  - destruct i as [|i]; simpl in *; [injection Hi as <-; by intros s|].
    pose proof (IH _ c w1 (filled_more past (MkRequest (g w).(w_db) (g w).(w_clock) w1.(w_clock) (Err e)) c Hf)
      Hrest i a Hi) as Ha. by rewrite <- (assoc_L (++)) in Ha.
Qed.

(** [C33] Where the databases the requests meet have one response a guest at most, no
    attendance but the four and no event status but the four, and the rest of the program
    writes between the requests and not between the queries of one: every number of every
    answer counts what it says it counts ([StatsOf]: events by status; guests not removed,
    by their answers, and their average an event that has any; users; the features used;
    the log by status and delivery) in the database of this request, or of one that an
    earlier request read less than five minutes before. *)
Theorem stats_answers changes w i a s :
  let run := serve changes (MkCache None 0) w in
  Forall (fun b => stats_ready b.(rq_db)) run ->
  run !! i = Some a -> a.(rq_answer) = Ok s ->
  StatsOf a.(rq_db) s \/
  exists b n, b ∈ take i run /\ StatsOf b.(rq_db) s /\ (b.(rq_start) <= n <= b.(rq_end))%nat /\
    clock a.(rq_start) - clock n < 5 * 60 * ns_per_sec.
Proof.
  intros run Hr Hi Hs. by apply (serve_recent changes [] (MkCache None 0) w).
Qed.
End cache.

(** ** Witness *)

#[local] Existing Instance demo_env.
(** Two requests; between them the users are gone. *)
Definition forget_users (w : World) : World := with_db (set_users (fun _ => ∅) w.(w_db)) w.
Definition demo_served : list request := serve [fun w => w; forget_users] (MkCache None 0) demo_world.

Lemma demo_ready d :
  d.(guest_responses) = demo_db.(guest_responses) ->
  d.(events) = demo_db.(events) -> stats_ready d.
Proof.
  intros Hg He. unfold stats_ready. rewrite He.
  assert (forall k r, d.(guest_responses) !! k = Some r -> k = "gr" /\ r = demo_guest_response) as Hd.
  { intros k r. rewrite Hg. simpl. by intros [<- <-]%lookup_singleton_Some. }
  split_and!.
  - intros k r k' r' [-> _]%Hd [-> _]%Hd _. done.
  - by intros k r [_ ->]%Hd.
  - simpl. intros k r [_ <-]%lookup_singleton_Some. vm_compute. set_solver.
Qed.
(** The second answer still counts the user. *)
Lemma stats_answers_witness :
  exists a s, demo_served !! 1%nat = Some a /\ a.(rq_answer) = Ok s /\
    s.(st_Users) = 1 /\
    (StatsOf a.(rq_db) s \/
     exists b n, b ∈ take 1 demo_served /\ StatsOf b.(rq_db) s /\ (b.(rq_start) <= n <= b.(rq_end))%nat /\
       clock a.(rq_start) - clock n < 5 * 60 * ns_per_sec).
Proof.
  destruct (demo_served !! 1%nat) as [a|] eqn:Ea; [|vm_compute in Ea; discriminate].
  destruct (rq_answer a) as [s|] eqn:Es; [|vm_compute in Ea; injection Ea as <-; discriminate].
  exists a, s. split; [reflexivity|]. split; [exact Es|]. split.
  - vm_compute in Ea. injection Ea as <-. simpl in Es. injection Es as <-. reflexivity.
  - apply (stats_answers [fun w => w; forget_users] demo_world 1 a s); [|exact Ea|exact Es].
    apply Forall_cons. split; [apply demo_ready; reflexivity|].
    apply Forall_cons. split; [apply demo_ready; reflexivity|]. apply Forall_nil. exact I.
Defined.
