(* ===== verification/Outbound.v ===== *)
(** * Providers of e-mail and text messages, and feedback (internal/notification/email,
    internal/notification/sms, internal/feedback)

    What the program sends to SMTP servers, SendGrid, Twilio, Vonage, SNS and GitHub,
    and how it reads their answers.  The HTTP client, [smtp.SendMail], the SNS client,
    JSON and the codecs of packages mime and net/mail are parameters ([OutEnv]). *)

From S2P Require Import Prelude.
From S2P Require Import GoStr.
From S2P Require Import GoTime.
From S2P Require Import Schema.
From S2P Require Import Eff.
From S2P Require Import Http.
From S2P Require Import Respect.
From S2P Require Import Demo.
From S2P Require Import Event.
From S2P Require Import Notification.

Local Open Scope Z_scope.

(** ** Requests *)

Record OutRequest := MkOut {
  oq_method : string; oq_url : string; oq_headers : list (string * string); oq_body : string }.
Record OutResponse := MkOutResponse {
  or_StatusCode : Z; or_body : string; or_header : string -> string }.

(** The JSON bodies. *)
Record SendGridAttachment := MkSGAttachment {
  sga_Content : string; sga_Type : string; sga_Filename : string; sga_Disposition : string }.
Record SendGridRequest := MkSendGrid {
  sg_To : list string; sg_From : string; sg_Subject : string; sg_Content : list (string * string);
  sg_Attachments : list SendGridAttachment }.
Record VonageRequest := MkVonage {
  vq_APIKey : string; vq_APISecret : string; vq_To : string; vq_From : string; vq_Text : string }.
Record VonageMessage := MkVonageMessage {
  vm_Status : string; vm_MessageID : string; vm_ErrorText : string }.
Record GithubIssue := MkIssue { gi_Title : string; gi_Body : string; gi_Labels : list string }.

Class OutEnv := {
  (** the error of [http.NewRequestWithContext] for a URL, and [client.Do] *)
  new_request_error : string -> option string;
  client_do : OutRequest -> M (string + OutResponse);
  sendgrid_json : SendGridRequest -> string;
  vonage_json : VonageRequest -> string;
  issue_json : GithubIssue -> string;
  (** [json.Decode] of the [sid] and of the [messages] *)
  twilio_decode : string -> option string;
  vonage_decode : string -> option (list VonageMessage);
  (** [sns.Client.Publish]: the error, or the message id, which may be nil *)
  sns_publish : string -> string -> string -> string -> string -> M (string + option string);
  sns_config_ok : string -> bool;
  (** [mail.ParseAddress] (name and address) and [Address.String] *)
  mail_parse : string -> option (string * string);
  address_string : string -> string -> string;
  (** [mime.QEncoding.Encode("utf-8", s)] and a [quotedprintable.Writer] *)
  q_encode : string -> string;
  quoted_printable : string -> string;
  (** [smtp.SendMail] with the credentials of [PlainAuth] *)
  smtp_send_mail : string -> option (string * string) -> string -> list string -> string -> M (option string);
  (** the HTML template of the feedback confirmation *)
  feedback_html : string -> bool -> option string }.

(** ** What the program uses of the standard library *)

(** [base64.StdEncoding] *)
Definition std_char (c : ascii) : ascii :=
  if bool_decide (c = "-"%char) then "+"%char
  else if bool_decide (c = "_"%char) then "/"%char else c.
Definition base64_bytes (s : string) : bytes :=
  let raw := map std_char (b64_go (to_bytes s)) in
  raw ++ replicate ((4 - length raw mod 4) mod 4) "="%char.
Definition base64_std (s : string) : string := of_bytes (base64_bytes s).
Definition basic_auth (user password : string) : string := "Basic " +:+ base64_std (user +:+ ":" +:+ password).

(** [url.QueryEscape] *)
Definition query_byte (c : ascii) : bytes :=
  let n := byte_val c in
  if is_digit c || ((65 <=? n) && (n <=? 90)) || ((97 <=? n) && (n <=? 122))
     || bool_decide (c ∈ ["-"; "_"; "."; "~"]%char)
  then [c]
  else if bool_decide (c = " "%char) then ["+"%char]
  else "%"%char :: [hex_upper_char (n / 16); hex_upper_char (n mod 16)].
Definition query_escape (s : string) : string := of_bytes (flat_map query_byte (to_bytes s)).
(** [url.Values.Encode] of keys in order *)
Definition form_encode (form : list (string * string)) : string :=
  join (map (fun x => query_escape x.1 +:+ "=" +:+ query_escape x.2) form) "&".
(** [net.JoinHostPort] *)
Definition join_host_port (host port : string) : string :=
  if contains host ":" || contains host "%" then "[" +:+ host +:+ "]:" +:+ port else host +:+ ":" +:+ port.
(** [Format(time.RFC1123Z)] in UTC *)
Definition weekday (days : Z) : string :=
  match (days + 4) mod 7 with
  | 0 => "Sun" | 1 => "Mon" | 2 => "Tue" | 3 => "Wed" | 4 => "Thu" | 5 => "Fri" | _ => "Sat"
  end.
Definition month_abbrev (m : Z) : string :=
  match m with
  | 1 => "Jan" | 2 => "Feb" | 3 => "Mar" | 4 => "Apr" | 5 => "May" | 6 => "Jun"
  | 7 => "Jul" | 8 => "Aug" | 9 => "Sep" | 10 => "Oct" | 11 => "Nov" | _ => "Dec"
  end.
Definition rfc1123z (t : time) : string :=
  let days := sec_of t / 86400 in
  let '(y, m, d) := civil days in
  weekday days +:+ ", " +:+ of_bytes (pad 2 d) +:+ " " +:+ month_abbrev m +:+ " " +:+ of_bytes (year_bytes y)
  +:+ " " +:+ of_bytes (clock_bytes (sec_of t mod 86400)) +:+ " +0000".

Definition cr : ascii := byte_of 13.
Definition lf : ascii := byte_of 10.
Definition eol : string := of_bytes [cr; lf].

Section providers.
Context `{E : Env, OE : OutEnv}.

(** The first bytes of a reply: [io.LimitReader(resp.Body, 4096)]. *)
Definition limited (s : string) : string := of_bytes (take 4096 (to_bytes s)).
Definition api_error (what : string) (resp : OutResponse) : string :=
  what +:+ " (status " +:+ itoa resp.(or_StatusCode) +:+ "): " +:+ limited resp.(or_body).
Definition accepted_status (resp : OutResponse) : bool :=
  (200 <=? resp.(or_StatusCode)) && (resp.(or_StatusCode) <? 300).
(** A request that is made and sent: the response, or the error with its context. *)
Definition perform (provider : string) (rq : OutRequest) : M (string + OutResponse) :=
  match new_request_error rq.(oq_url) with
  | Some e => ret (inl (provider +:+ " create request: " +:+ e))
  | None =>
      r <- client_do rq ;;
      ret (match r with inl e => inl (provider +:+ " request: " +:+ e) | inr resp => inr resp end)
  end.

Abbreviation Sent := (string + option SendResult)%type.
Definition sent (id : string) : Sent := inr (Some (MkSendResult id)).

(** [SendBatch] of every provider. *)
Fixpoint send_each (send : Message -> M Sent) (msgs : list Message)
    : M (list (option SendResult) * list (option string)) :=
  match msgs with
  | [] => ret ([], [])
  | m :: rest =>
      r <- send m ;;
      p <- send_each send rest ;;
      ret (match r with
           | inl e => (None :: p.1, Some e :: p.2)
           | inr o => (o :: p.1, None :: p.2)
           end)
  end.
Definition provider_of (name channel : string) (send : Message -> M Sent) : Provider :=
  MkProvider name channel send (send_each send).

(** ** sendgrid.go *)

Definition sendGridDefaultURL : string := "https://api.sendgrid.com/v3/mail/send".
(** The plain text part, when the message has one of its own. *)
Definition plain_part (msg : Message) : string :=
  if bool_decide (msg.(msg_Plain) = "") then msg.(msg_Body) else msg.(msg_Plain).
Definition has_html_part (msg : Message) : bool :=
  negb (bool_decide (msg.(msg_Body) = "")) && negb (bool_decide (msg.(msg_Body) = plain_part msg)).
Definition sendgrid_content (msg : Message) : list (string * string) :=
  let content :=
    (if bool_decide (plain_part msg = "") then [] else [("text/plain", plain_part msg)])
    ++ (if has_html_part msg then [("text/html", msg.(msg_Body))] else []) in
  match content with [] => [("text/plain", "")] | _ => content end.
Definition sendgrid_attachment (a : Attachment) : SendGridAttachment :=
  MkSGAttachment (base64_std a.(at_Data)) a.(at_ContentType) a.(at_Filename) "attachment".
Definition sendgrid_request (from : string) (msg : Message) : SendGridRequest :=
  MkSendGrid [msg.(msg_To)] from msg.(msg_Subject) (sendgrid_content msg)
    (map sendgrid_attachment msg.(msg_Attachments)).
Definition SendGrid_Send (apiKey from : string) (msg : Message) : M Sent :=
  r <- perform "sendgrid" (MkOut "POST" sendGridDefaultURL
         [("Authorization", "Bearer " +:+ apiKey); ("Content-Type", "application/json")]
         (sendgrid_json (sendgrid_request from msg))) ;;
  ret (match r with
       | inl e => inl e
       | inr resp =>
           if accepted_status resp then sent (resp.(or_header) "X-Message-Id")
           else inl (api_error "sendgrid api error" resp)
       end).
Definition NewSendGridProvider (apiKey from : string) : Provider :=
  provider_of "sendgrid" ChannelEmail (SendGrid_Send apiKey from).
Definition SendGrid_HealthCheck (apiKey : string) : option string :=
  if bool_decide (apiKey = "") then Some "sendgrid health check: api key is empty"
  else if negb (bytes_prefix (to_bytes "SG.") (to_bytes apiKey))
  then Some "sendgrid health check: api key does not start with 'SG.'"
  else if Z.of_nat (length (to_bytes apiKey)) <? 20
  then Some "sendgrid health check: api key appears too short" else None.

(** ** twilio.go *)

Definition twilioDefaultBaseURL : string := "https://api.twilio.com".
Definition Twilio_Send (accountSID authToken fromNumber : string) (msg : Message) : M Sent :=
  r <- perform "twilio" (MkOut "POST"
         (twilioDefaultBaseURL +:+ "/2010-04-01/Accounts/" +:+ accountSID +:+ "/Messages.json")
         [("Authorization", basic_auth accountSID authToken);
          ("Content-Type", "application/x-www-form-urlencoded")]
         (form_encode [("Body", msg.(msg_Body)); ("From", fromNumber); ("To", msg.(msg_To))])) ;;
  ret (match r with
       | inl e => inl e
       | inr resp =>
           if negb (accepted_status resp) then inl (api_error "twilio api error" resp)
           else match twilio_decode resp.(or_body) with Some sid => sent sid | None => sent "" end
       end).
Definition NewTwilioProvider (accountSID authToken fromNumber : string) : Provider :=
  provider_of "twilio" ChannelSMS (Twilio_Send accountSID authToken fromNumber).
Definition Twilio_HealthCheck (accountSID authToken : string) : M (option string) :=
  if bool_decide (accountSID = "") || bool_decide (authToken = "")
  then ret (Some "twilio health check: account SID or auth token is empty") else
  r <- perform "twilio health check" (MkOut "GET"
         (twilioDefaultBaseURL +:+ "/2010-04-01/Accounts/" +:+ accountSID +:+ ".json")
         [("Authorization", basic_auth accountSID authToken)] "") ;;
  ret (match r with
       | inl e => Some e
       | inr resp =>
           if resp.(or_StatusCode) =? 200 then None else Some (api_error "twilio health check failed" resp)
       end).

(** ** vonage.go *)

Definition vonageDefaultURL : string := "https://rest.nexmo.com/sms/json".
(** The status of every part; "0" is success. *)
Fixpoint vonage_parts (messageID : string) (ms : list VonageMessage) : Sent :=
  match ms with
  | [] => sent messageID
  | m :: rest =>
      if negb (bool_decide (m.(vm_Status) = "0"))
      then inl ("vonage message error (status " +:+ m.(vm_Status) +:+ "): " +:+ m.(vm_ErrorText))
      else vonage_parts (if bool_decide (m.(vm_MessageID) = "") then messageID else m.(vm_MessageID)) rest
  end.
Definition Vonage_Send (apiKey apiSecret from : string) (msg : Message) : M Sent :=
  r <- perform "vonage" (MkOut "POST" vonageDefaultURL [("Content-Type", "application/json")]
         (vonage_json (MkVonage apiKey apiSecret msg.(msg_To) from msg.(msg_Body)))) ;;
  ret (match r with
       | inl e => inl e
       | inr resp =>
           if negb (accepted_status resp) then inl (api_error "vonage api error" resp)
           else match vonage_decode resp.(or_body) with
                | None => inl "vonage decode response"
                | Some ms => vonage_parts "" ms
                end
       end).
Definition NewVonageProvider (apiKey apiSecret from : string) : Provider :=
  provider_of "vonage" ChannelSMS (Vonage_Send apiKey apiSecret from).
Definition Vonage_HealthCheck (apiKey apiSecret : string) : option string :=
  if bool_decide (apiKey = "") then Some "vonage health check: api key is empty"
  else if bool_decide (apiSecret = "") then Some "vonage health check: api secret is empty" else None.

(** ** sns.go *)

Definition SNS_Send (region accessKeyID secretAccessKey : string) (msg : Message) : M Sent :=
  r <- sns_publish region accessKeyID secretAccessKey msg.(msg_To) msg.(msg_Body) ;;
  ret (match r with
       | inl e => inl ("sns publish: " +:+ e)
       | inr id => sent (default "" id)
       end).
Definition NewSNSProvider (region accessKeyID secretAccessKey : string) : option Provider :=
  if sns_config_ok region
  then Some (provider_of "sns" ChannelSMS (SNS_Send region accessKeyID secretAccessKey)) else None.

(** ** smtp.go and ses.go *)

Record SMTPProvider := MkSMTP {
  sm_host : string; sm_port : string; sm_username : string; sm_password : string; sm_from : string }.

Definition not_break (c : ascii) : bool := negb (bool_decide (c = cr)) && negb (bool_decide (c = lf)).
Definition stripCRLF (s : string) : string := of_bytes (List.filter not_break (to_bytes s)).

(** The header and the envelope address. *)
Definition parseFromAddress (raw0 : string) : string + string * string :=
  let raw := stripCRLF (trim_space raw0) in
  if bool_decide (raw = "") then inl "SMTP from address is empty" else
  match mail_parse raw with
  | None => inl "parse SMTP from address"
  | Some (name, address) =>
      if bool_decide (name = "") then inr (address, address)
      else inr (address_string name address, address)
  end.

Definition quote : string := of_bytes [byte_of 34].
Definition line (s : string) : string := s +:+ eol.
Definition field (name value : string) : string := line (name +:+ ": " +:+ value).
Definition boundary_type (kind boundary : string) : string :=
  "multipart/" +:+ kind +:+ "; boundary=" +:+ quote +:+ boundary +:+ quote.

Definition text_part (kind boundary text : string) : string :=
  line ("--" +:+ boundary) +:+ field "Content-Type" ("text/" +:+ kind +:+ "; charset=" +:+ quote +:+ "utf-8" +:+ quote)
  +:+ field "Content-Transfer-Encoding" "quoted-printable" +:+ eol +:+ line (quoted_printable text).
Definition writeAlternativeParts (msg : Message) (boundary : string) : string :=
  text_part "plain" boundary (plain_part msg)
  +:+ (if has_html_part msg then text_part "html" boundary msg.(msg_Body) else "").

(** Lines of 76 characters; as many turns as there are characters. *)
Fixpoint wrap76 (fuel : nat) (l : bytes) : string :=
  match fuel with
  | O => ""
  | S fuel => match l with [] => "" | _ => line (of_bytes (take 76 l)) +:+ wrap76 fuel (drop 76 l) end
  end.
Definition attachment_part (boundary : string) (a : Attachment) : string :=
  let encoded := base64_bytes a.(at_Data) in
  line ("--" +:+ boundary)
  +:+ field "Content-Type" (a.(at_ContentType) +:+ "; name=" +:+ quote +:+ a.(at_Filename) +:+ quote)
  +:+ field "Content-Transfer-Encoding" "base64"
  +:+ field "Content-Disposition" ("attachment; filename=" +:+ quote +:+ a.(at_Filename) +:+ quote)
  +:+ eol +:+ wrap76 (length encoded) encoded.

Definition alt_boundary (t : time) : string := "==OwlInvites-alt==" +:+ itoa t +:+ "==".
Definition mixed_boundary (t : time) : string := "==OwlInvites-mix==" +:+ itoa t +:+ "==".
Definition alternative (msg : Message) (boundary : string) : string :=
  eol +:+ writeAlternativeParts msg boundary +:+ line ("--" +:+ boundary +:+ "--").

(** What the fields up to the date hold. *)
Definition mail_header (fromHeader : string) (msg : Message) (date : time) : string :=
  field "From" fromHeader
  +:+ field "To" (stripCRLF msg.(msg_To))
  +:+ field "Subject" (q_encode (stripCRLF msg.(msg_Subject)))
  +:+ field "MIME-Version" "1.0"
  +:+ field "Date" (rfc1123z date).
Definition mixed_body (msg : Message) (alt mixed : string) : string :=
  eol +:+ line ("--" +:+ mixed) +:+ field "Content-Type" (boundary_type "alternative" alt)
  +:+ alternative msg alt
  +:+ join (map (attachment_part mixed) msg.(msg_Attachments)) ""
  +:+ line ("--" +:+ mixed +:+ "--").
(** The text of a mail; the clock is read once for the date, once for each boundary. *)
Definition compose (fromHeader : string) (msg : Message) : M string :=
  date <- now ;;
  t <- now ;;
  match msg.(msg_Attachments) with
  | [] =>
      ret (mail_header fromHeader msg date +:+ field "Content-Type" (boundary_type "alternative" (alt_boundary t))
           +:+ alternative msg (alt_boundary t))
  | _ =>
      u <- now ;;
      ret (mail_header fromHeader msg date +:+ field "Content-Type" (boundary_type "mixed" (mixed_boundary u))
           +:+ mixed_body msg (alt_boundary t) (mixed_boundary u))
  end.
Definition SMTP_Send (p : SMTPProvider) (msg : Message) : M Sent :=
  let addr := join_host_port p.(sm_host) p.(sm_port) in
  match parseFromAddress p.(sm_from) with
  | inl e => ret (inl e)
  | inr (fromHeader, envelopeFrom) =>
      text <- compose fromHeader msg ;;
      let auth := if negb (bool_decide (p.(sm_username) = "")) && negb (bool_decide (p.(sm_password) = ""))
                  then Some (p.(sm_username), p.(sm_password)) else None in
      r <- smtp_send_mail addr auth envelopeFrom [msg.(msg_To)] text ;;
      ret (match r with Some e => inl ("smtp send: " +:+ e) | None => sent "" end)
  end.
Definition NewSMTPProvider (host port username password from : string) : Provider :=
  provider_of "smtp" ChannelEmail (SMTP_Send (MkSMTP host port username password from)).
Definition NewSESProvider (region username password from : string) : Provider :=
  provider_of "ses" ChannelEmail
    (SMTP_Send (MkSMTP ("email-smtp." +:+ region +:+ ".amazonaws.com") "587" username password from)).
End providers.

(** ** Feedback (internal/feedback: github.go, service.go, handler.go) *)

Record FeedbackService := MkFeedback {
  fb_githubToken : string; fb_githubRepo : string; fb_feedbackEmail : string;
  (** to, subject, HTML body, plain text: the text of an error *)
  fb_sendEmail : option (string -> string -> string -> string -> M (option string)) }.

Section feedback.
Context `{E : Env, OE : OutEnv}.

Definition createGitHubIssue (token repo title body : string) (labels : list string) : M (option string) :=
  let url := "https://api.github.com/repos/" +:+ repo +:+ "/issues" in
  match new_request_error url with
  | Some e => ret (Some ("create request: " +:+ e))
  | None =>
      r <- client_do (MkOut "POST" url
             [("Authorization", "Bearer " +:+ token); ("Accept", "application/vnd.github+json");
              ("Content-Type", "application/json")] (issue_json (MkIssue title body labels))) ;;
      ret (match r with
           | inl e => Some ("github api request: " +:+ e)
           | inr resp =>
               if resp.(or_StatusCode) =? 201 then None
               else Some ("github api returned status " +:+ itoa resp.(or_StatusCode))
           end)
  end.

(** The cut is at bytes. *)
Definition truncate (s : string) (maxLen : Z) : string :=
  if Z.of_nat (length (to_bytes s)) <=? maxLen then s
  else of_bytes (take (Z.to_nat maxLen) (to_bytes s)) +:+ "...".
Definition or_text (fallback s : string) : string := if bool_decide (s = "") then fallback else s.
Definition paragraph (label value : string) : string :=
  "<p><strong>" +:+ label +:+ ":</strong> " +:+ value +:+ "</p>".
Definition preformatted (text : string) : string := "<hr><pre>" +:+ text +:+ "</pre>".

(** templates.RenderFeedbackConfirmation *)
Definition RenderFeedbackConfirmation (feedbackType : string) (allowFollowUp : bool) : option (string * string) :=
  html ← feedback_html feedbackType allowFollowUp;
  Some (html,
        "Thanks for your feedback!" +:+ nl +:+ nl
        +:+ "We received your " +:+ feedbackType
        +:+ " submission and appreciate you taking the time to share it with us." +:+ nl +:+ nl
        +:+ (if allowFollowUp
             then "Since you opted in to follow-up contact, we may reach out to you if we have questions or updates related to your feedback." +:+ nl +:+ nl
             else "")
        +:+ "Your feedback helps make Owl Invites better for everyone." +:+ nl).

Variable s : FeedbackService.
Definition has_github : bool :=
  negb (bool_decide (s.(fb_githubToken) = "")) && negb (bool_decide (s.(fb_githubRepo) = "")).
Definition email_channel : option (string -> string -> string -> string -> M (option string)) :=
  if bool_decide (s.(fb_feedbackEmail) = "") then None else s.(fb_sendEmail).

Definition submitGitHub (organizerEmail feedbackType message : string) : M (option string) :=
  createGitHubIssue s.(fb_githubToken) s.(fb_githubRepo)
    ("[Feedback - " +:+ feedbackType +:+ "] " +:+ truncate message 80)
    ("**Type:** " +:+ feedbackType +:+ nl +:+ "**From:** " +:+ organizerEmail +:+ nl +:+ nl +:+ "---"
     +:+ nl +:+ nl +:+ message)
    ["feedback"; feedbackType].
(** The HTML body of the operator's mail. *)
Definition feedback_body (organizerEmail feedbackType message : string) : string :=
  paragraph "Type" (html_escape feedbackType) +:+ paragraph "From" (html_escape organizerEmail)
  +:+ preformatted (html_escape message).
Definition submitEmail (send : string -> string -> string -> string -> M (option string))
    (organizerEmail feedbackType message : string) : M (option string) :=
  send s.(fb_feedbackEmail)
    ("[Owl Invites Feedback - " +:+ feedbackType +:+ "] " +:+ truncate message 60)
    (feedback_body organizerEmail feedbackType message)
    ("Type: " +:+ feedbackType +:+ nl +:+ "From: " +:+ organizerEmail +:+ nl +:+ nl +:+ message).
Definition submitGuestGitHub (message contactEmail source : string) : M (option string) :=
  createGitHubIssue s.(fb_githubToken) s.(fb_githubRepo)
    ("[Guest Feedback] " +:+ truncate message 80)
    ("**From:** guest" +:+ nl +:+ "**Contact:** " +:+ or_text "(anonymous)" contactEmail +:+ nl
     +:+ "**Source:** " +:+ or_text "(unknown)" source +:+ nl +:+ nl +:+ "---" +:+ nl +:+ nl +:+ message)
    ["feedback"; "guest feedback"].
Definition guest_body (message contactEmail source : string) : string :=
  paragraph "From" "guest" +:+ paragraph "Contact" (html_escape (or_text "(anonymous)" contactEmail))
  +:+ paragraph "Source" (html_escape (or_text "(unknown)" source)) +:+ preformatted (html_escape message).
Definition submitGuestEmail (send : string -> string -> string -> string -> M (option string))
    (message contactEmail source : string) : M (option string) :=
  send s.(fb_feedbackEmail)
    ("[Owl Invites Guest Feedback] " +:+ truncate message 60)
    (guest_body message contactEmail source)
    ("From: guest" +:+ nl +:+ "Contact: " +:+ or_text "(anonymous)" contactEmail +:+ nl +:+ "Source: "
     +:+ or_text "(unknown)" source +:+ nl +:+ nl +:+ message).

(** The first channel that is configured takes the submission; without one it is only
    logged.  The result is [nil] ([None]) or an error. *)
Definition Submit (organizerEmail feedbackType message : string) (allowFollowUp : bool) : M (option string) :=
  submitErr <- (if has_github then submitGitHub organizerEmail feedbackType message
                else match email_channel with
                     | Some send => submitEmail send organizerEmail feedbackType message
                     | None => ret None
                     end) ;;
  match submitErr, s.(fb_sendEmail) with
  | Some e, _ => ret (Some e)
  | None, Some send =>
      if allowFollowUp && negb (bool_decide (organizerEmail = "")) then
        match RenderFeedbackConfirmation feedbackType true with
        | None => ret None
        | Some (html, plain) =>
            send organizerEmail ("We received your feedback " +:+ of_bytes [byte_of 226; byte_of 128; byte_of 148]
                                 +:+ " Owl Invites") html plain ;;;
            ret None
        end
      else ret None
  | None, None => ret None
  end.
Definition SubmitGuest (message contactEmail source : string) : M (option string) :=
  if has_github then submitGuestGitHub message contactEmail source
  else match email_channel with
       | Some send => submitGuestEmail send message contactEmail source
       | None => ret None
       end.

Record submitRequest := MkSubmit { sb_Type : string; sb_Message : string; sb_AllowFollowUp : bool }.
Record publicSubmitRequest := MkPublic { pb_Message : string; pb_Contact : string; pb_Source : string }.
Inductive FeedbackPayload := PSubmitted.

Definition longer (text : string) (n : Z) : bool := n <? Z.of_nat (length (to_bytes text)).
(** The check of a message, then of the other fields. *)
Definition message_error (message : string) : option string :=
  if bool_decide (message = "") then Some "message is required"
  else if longer message 2000 then Some "message must be 2000 characters or fewer" else None.
Definition submit_error (req : submitRequest) : option string :=
  if one_of req.(sb_Type) ["bug"; "feature"; "general"] then message_error req.(sb_Message)
  else Some "type must be bug, feature, or general".
Definition public_error (req : publicSubmitRequest) : option string :=
  match message_error req.(pb_Message) with
  | Some e => Some e
  | None =>
      if longer req.(pb_Contact) 254 then Some "contact must be 254 characters or fewer"
      else if longer req.(pb_Source) 512 then Some "source must be 512 characters or fewer" else None
  end.
Definition submitted (m : M (option string)) : M (Resp FeedbackPayload) :=
  e <- m ;;
  match e with
  | Some _ => internal_error
  | None => ret (json 201 PSubmitted)
  end.
(** [email] is what the context says of the signed-in organizer. *)
Definition handleSubmit (email : option string) (body : option submitRequest) : M (Resp FeedbackPayload) :=
  match email with
  | None => ret login_needed
  | Some email =>
      match body with
      | None => ret bad_body
      | Some req =>
          match submit_error req with
          | Some e => ret (bad_request e)
          | None => submitted (Submit email req.(sb_Type) req.(sb_Message) req.(sb_AllowFollowUp))
          end
      end
  end.
Definition handleSubmitPublic (body : option publicSubmitRequest) : M (Resp FeedbackPayload) :=
  match body with
  | None => ret bad_body
  | Some req =>
      match public_error req with
      | Some e => ret (bad_request e)
      | None => submitted (SubmitGuest req.(pb_Message) req.(pb_Contact) req.(pb_Source))
      end
  end.
End feedback.

(** As many turns as there are characters are enough. *)
Lemma wrap76_enough m n l : (length l <= m)%nat -> (length l <= n)%nat -> wrap76 m l = wrap76 n l.
Proof.
  revert n l. induction m as [|m IH]; intros [|n] [|c l] Hm Hn; simpl in Hm, Hn; try done; try lia.
  cbn [wrap76]. f_equal. apply IH; rewrite length_drop; simpl; lia.
Qed.

(** ** The markup of a feedback mail *)

Definition tags (s : string) : bytes :=
  List.filter (fun c => bool_decide (c = "<"%char) || bool_decide (c = ">"%char)) (to_bytes s).
Lemma tags_app s t : tags (s +:+ t) = tags s ++ tags t.
Proof. unfold tags. by rewrite to_bytes_app, List.filter_app. Qed.
Lemma tags_escaped s : tags (html_escape s) = [].
Proof.
  unfold tags, html_escape. rewrite to_of_bytes. induction (to_bytes s) as [|c l IH]; [done|].
  rewrite bind_cons, List.filter_app, IH, app_nil_r. unfold html_escape_byte.
  repeat (case_bool_decide; [done|]). simpl. by rewrite !bool_decide_eq_false_2.
Qed.

(** Whatever a guest or an organizer types, the markup of the mail the operator reads
    is that of the template. *)
Theorem feedback_escaped message message' a b a' b' :
  tags (guest_body message a b) = tags (guest_body message' a' b') /\
  tags (feedback_body a b message) = tags (feedback_body a' b' message').
Proof.
  unfold guest_body, feedback_body, paragraph, preformatted. by rewrite !tags_app, !tags_escaped.
Qed.

(** ** No field of a mail's header comes from the message *)

(** How a mail reader takes the header: up to the first empty line; a line that begins
    with a space or a tab goes on the line before it. *)
Definition is_wsp (c : ascii) : bool := bool_decide (c = " "%char) || bool_decide (c = byte_of 9).
Fixpoint header_fields (current : bytes) (l : bytes) : list bytes :=
  match l with
  | [] => []
  | c :: t =>
      match t with
      | d :: u =>
          if bool_decide (c = cr) && bool_decide (d = lf) then
            match current, u with
            | [], _ => []
            | _, e :: _ => if is_wsp e then header_fields (current ++ [cr; lf]) u
                           else current :: header_fields [] u
            | _, [] => [current]
            end
          else header_fields (current ++ [c]) t
      | [] => []
      end
  end.

(** A value whose line breaks are all followed by a space. *)
Fixpoint folded (l : bytes) : bool :=
  match l with
  | [] => true
  | c :: t =>
      if bool_decide (c = cr) then
        match t with
        | d :: ((e :: _) as u) => bool_decide (d = lf) && is_wsp e && folded u
        | _ => false
        end
      else negb (bool_decide (c = lf)) && folded t
  end.
(** Package mime folds with a space, and an address is written on one such line. *)
Class MailLaws `{OE : OutEnv} : Prop := {
  q_encode_folded s : forallb not_break (to_bytes s) = true -> folded (to_bytes (q_encode s)) = true;
  address_folded name address raw :
    mail_parse raw = Some (name, address) -> forallb not_break (to_bytes raw) = true ->
    folded (to_bytes (address_string name address)) = true /\ folded (to_bytes address) = true }.

Lemma unbroken_folded l : forallb not_break l = true -> folded l = true.
Proof.
  induction l as [|c l IH]; simpl; [done|]. intros [Hc Hl]%andb_true_iff. unfold not_break in Hc.
  apply andb_true_iff in Hc as [Hr%negb_true_iff Hn]. by rewrite Hr, Hn, IH.
Qed.
Lemma strip_unbroken s : forallb not_break (to_bytes (stripCRLF s)) = true.
Proof. unfold stripCRLF. rewrite to_of_bytes. apply forallb_forall. intros c Hc. by apply filter_In in Hc as [_ ?]. Qed.

Lemma header_step cur c d u : c <> cr -> header_fields cur (c :: d :: u) = header_fields (cur ++ [c]) (d :: u).
Proof. intros H. cbn [header_fields]. by rewrite (bool_decide_eq_false_2 (c = cr)). Qed.
(** One field is read up to its end. *)
Lemma read_value cur v rest : cur <> [] -> folded v = true ->
  match rest with e :: _ => is_wsp e = false | [] => True end ->
  header_fields cur (v ++ cr :: lf :: rest) = (cur ++ v) :: match rest with [] => [] | _ => header_fields [] rest end.
Proof.
  intros Hcur Hv Hrest. revert cur Hcur Hv.
  enough (forall n v cur, (length v <= n)%nat -> cur <> [] -> folded v = true ->
    header_fields cur (v ++ cr :: lf :: rest)
    = (cur ++ v) :: match rest with [] => [] | _ => header_fields [] rest end) as H
    by (intros; by eapply (H (length v))).
  intros n. induction n as [|n IH]; intros w cur Hlen Hcur Hv.
  - destruct w; simpl in Hlen; [|lia]. rewrite app_nil_r. simpl. rewrite ?bool_decide_eq_true_2 by done. simpl.
    destruct cur; [done|]. destruct rest; [done|]. by rewrite Hrest.
  - destruct w as [|c w].
    { rewrite app_nil_r. simpl. rewrite ?bool_decide_eq_true_2 by done. simpl.
      destruct cur; [done|]. destruct rest; [done|]. by rewrite Hrest. }
    simpl in Hv. case_bool_decide as Hc.
    + destruct w as [|d [|e w]]; try done. apply andb_true_iff in Hv as [Hde Hv].
      apply andb_true_iff in Hde as [Hd%bool_decide_eq_true He]. subst c d.
      change (header_fields cur ((cr :: lf :: e :: w) ++ cr :: lf :: rest))
        with (match cur with [] => [] | _ =>
                if is_wsp e then header_fields (cur ++ [cr; lf]) ((e :: w) ++ cr :: lf :: rest)
                else cur :: header_fields [] ((e :: w) ++ cr :: lf :: rest) end).
      destruct cur as [|x cur]; [done|]. rewrite He.
      rewrite IH; [|simpl in *; lia|by destruct cur|done]. by rewrite <- app_assoc.
    + apply andb_true_iff in Hv as [Hl%negb_true_iff Hv]. apply bool_decide_eq_false in Hl.
      assert (exists d u, w ++ cr :: lf :: rest = d :: u) as (d & u & Hw).
      { destruct w; simpl; eauto. }
      change ((c :: w) ++ cr :: lf :: rest) with (c :: (w ++ cr :: lf :: rest)).
      rewrite Hw, header_step, <- Hw by done.
      rewrite IH; [|simpl in *; lia|by destruct cur|done]. by rewrite <- app_assoc.
Qed.

(** A line that begins a field. *)
Definition field_line (s : string) : Prop :=
  exists c v, to_bytes s = c :: v /\ c <> cr /\ is_wsp c = false /\ folded v = true.
Fixpoint lines (ss : list string) : bytes :=
  match ss with [] => [] | s :: rest => to_bytes s ++ cr :: lf :: lines rest end.

Lemma lines_cons s rest : lines (s :: rest) = to_bytes s ++ [cr; lf] ++ lines rest.
Proof. done. Qed.

Lemma header_read ss more :
  Forall field_line ss -> header_fields [] (lines ss ++ cr :: lf :: more) = map to_bytes ss.
Proof.
  induction 1 as [|s ss (c & v & Hs & Hc & Hw & Hv) Hall IH]; [by destruct more|].
  simpl lines. rewrite Hs. change (((c :: v) ++ cr :: lf :: lines ss) ++ cr :: lf :: more)
    with (c :: ((v ++ cr :: lf :: lines ss) ++ cr :: lf :: more)).
  rewrite <- app_assoc. change ((cr :: lf :: lines ss) ++ cr :: lf :: more)
    with (cr :: lf :: (lines ss ++ cr :: lf :: more)).
  set (rest := lines ss ++ cr :: lf :: more) in *.
  assert (exists e u, rest = e :: u /\ is_wsp e = false) as (e & u & Hrest & He).
  { unfold rest. destruct Hall as [|s' ss' (c' & v' & Hs' & _ & Hw' & _) _]; [by eexists _, _|].
    simpl. rewrite Hs'. by eexists _, _. }
  assert (exists d t, v ++ cr :: lf :: rest = d :: t) as (d & t & Ht) by (destruct v; simpl; eauto).
  rewrite Ht, header_step, <- Ht by done. rewrite read_value; [|done|done|by rewrite Hrest].
  rewrite Hrest at 1. simpl map. rewrite Hs, <- IH. done.
Qed.

Lemma folded_app a b : forallb not_break a = true -> folded b = true -> folded (a ++ b) = true.
Proof.
  intros Ha Hb. induction a as [|c a IH]; simpl in *; [done|]. apply andb_true_iff in Ha as [Hc Ha].
  unfold not_break in Hc. apply andb_true_iff in Hc as [Hr%negb_true_iff Hn]. by rewrite Hr, Hn, IH.
Qed.
Definition unbroken (s : string) : Prop := forallb not_break (to_bytes s) = true.
Lemma unbroken_app s t : unbroken s -> unbroken t -> unbroken (s +:+ t).
Proof. unfold unbroken. rewrite to_bytes_app, forallb_app. by intros -> ->. Qed.
Lemma unbroken_digits l : forallb is_digit l = true -> unbroken (of_bytes l).
Proof.
  unfold unbroken. rewrite to_of_bytes, !forallb_forall. intros H c Hc. specialize (H c Hc).
  unfold not_break. rewrite andb_true_iff, !negb_true_iff, !bool_decide_eq_false.
  split; intros ->; vm_compute in H; discriminate H.
Qed.
Lemma named_line name value :
  unbroken name -> (exists c v, to_bytes name = c :: v /\ is_wsp c = false) ->
  folded (to_bytes value) = true -> field_line (name +:+ ": " +:+ value).
Proof.
  intros Hn (c & v & Hc & Hw) Hv. exists c, (v ++ to_bytes ": " ++ to_bytes value).
  unfold unbroken in Hn. rewrite Hc in Hn. simpl in Hn. apply andb_true_iff in Hn as [Hcb Hn].
  rewrite !to_bytes_app, Hc. split_and!; [done| |done|].
  - intros ->. done.
  - apply folded_app; [done|]. by apply folded_app.
Qed.

Lemma digit_unbroken c : is_digit c = true -> not_break c = true.
Proof.
  intros H. unfold not_break. rewrite andb_true_iff, !negb_true_iff, !bool_decide_eq_false.
  split; intros ->; vm_compute in H; discriminate H.
Qed.
Lemma unbroken_pad w n : unbroken (of_bytes (pad w n)).
Proof. apply unbroken_digits, forallb_pad. Qed.
Lemma unbroken_itoa n : unbroken (itoa n).
Proof.
  unfold unbroken, itoa. rewrite to_of_bytes, forallb_forall. intros c Hc%list_elem_of_In.
  apply itoa_bytes_chars in Hc as [->|Hc]; [done|by apply digit_unbroken].
Qed.
Lemma unbroken_bytes_app a b : unbroken (of_bytes a) -> unbroken (of_bytes b) -> unbroken (of_bytes (a ++ b)).
Proof. unfold unbroken. rewrite !to_of_bytes, forallb_app. by intros -> ->. Qed.
Lemma unbroken_year y : unbroken (of_bytes (year_bytes y)).
Proof.
  unfold year_bytes. case_match; [|apply unbroken_pad].
  apply (unbroken_bytes_app ["-"%char]); [done|apply unbroken_pad].
Qed.
Lemma unbroken_clock sod : unbroken (of_bytes (clock_bytes sod)).
Proof.
  unfold clock_bytes. apply unbroken_bytes_app; [apply unbroken_pad|].
  apply (unbroken_bytes_app [":"%char]); [done|]. apply unbroken_bytes_app; [apply unbroken_pad|].
  apply (unbroken_bytes_app [":"%char]); [done|apply unbroken_pad].
Qed.
Lemma unbroken_date t : unbroken (rfc1123z t).
Proof.
  unfold rfc1123z. destruct (civil _) as [[y m] d].
  repeat apply unbroken_app; try done; try apply unbroken_pad; try apply unbroken_year; try apply unbroken_clock.
  - unfold weekday. by repeat case_match.
  - unfold month_abbrev. by repeat case_match.
Qed.
Lemma unbroken_boundary kind b : unbroken kind -> unbroken b -> unbroken (boundary_type kind b).
Proof. intros Hk Hb. unfold boundary_type. by repeat apply unbroken_app. Qed.

Section header.
Context `{E : Env, OE : OutEnv, ML : !MailLaws}.

Lemma from_folded raw header envelope :
  parseFromAddress raw = inr (header, envelope) -> folded (to_bytes header) = true.
Proof.
  unfold parseFromAddress. set (r := stripCRLF _). case_bool_decide; [done|].
  destruct (mail_parse r) as [[name address]|] eqn:Hp; [|done].
  destruct (address_folded name address r Hp (strip_unbroken _)) as [H1 H2].
  case_bool_decide; by intros [= <- <-].
Qed.

(** The lines of the header. *)
Definition header_lines (fromHeader : string) (msg : Message) (date : time) (kind boundary : string) : list string :=
  ["From: " +:+ fromHeader; "To: " +:+ stripCRLF msg.(msg_To);
   "Subject: " +:+ q_encode (stripCRLF msg.(msg_Subject)); "MIME-Version: 1.0"; "Date: " +:+ rfc1123z date;
   "Content-Type: " +:+ boundary_type kind boundary].

Lemma header_field_lines from envelope raw msg date kind b :
  parseFromAddress raw = inr (from, envelope) -> unbroken kind -> unbroken b ->
  Forall field_line (header_lines from msg date kind b).
Proof.
  intros Hf%from_folded Hk Hb.
  assert (forall name value, unbroken name -> (exists c v, to_bytes name = c :: v /\ is_wsp c = false) ->
    folded (to_bytes value) = true -> field_line (name +:+ ": " +:+ value)) as Hline by exact named_line.
  repeat constructor.
  - by apply (Hline "From"); [done|by eexists _, _|].
  - apply (Hline "To"); [done|by eexists _, _|]. apply unbroken_folded, strip_unbroken.
  - apply (Hline "Subject"); [done|by eexists _, _|]. apply q_encode_folded, strip_unbroken.
  - apply (Hline "MIME-Version" "1.0"); [done|by eexists _, _|done].
  - apply (Hline "Date"); [done|by eexists _, _|]. apply unbroken_folded, unbroken_date.
  - apply (Hline "Content-Type"); [done|by eexists _, _|]. by apply unbroken_folded, unbroken_boundary.
Qed.

Lemma composed from msg w text w' :
  compose from msg w = (Ok text, w') ->
  exists date kind b more, unbroken kind /\ unbroken b /\
    to_bytes text = lines (header_lines from msg date kind b) ++ cr :: lf :: more.
Proof.
  unfold compose. intros H. apply bind_ok in H as (date & w1 & _ & H). apply bind_ok in H as (t & w2 & _ & H).
  exists date.
  assert (forall b, unbroken ("==OwlInvites-alt==" +:+ itoa b +:+ "==") /\
                    unbroken ("==OwlInvites-mix==" +:+ itoa b +:+ "==")) as Hb.
  { intros b. split; repeat apply unbroken_app; try done; apply unbroken_itoa. }
  assert (forall kind b more, to_bytes (mail_header from msg date +:+ field "Content-Type" (boundary_type kind b)
            +:+ eol +:+ more) = lines (header_lines from msg date kind b) ++ cr :: lf :: to_bytes more) as Htext.
  { intros kind b more. unfold mail_header, field, line, header_lines.
    rewrite !lines_cons, !to_bytes_app. change (to_bytes eol) with [cr; lf].
    rewrite <- !app_assoc. reflexivity. }
  destruct msg.(msg_Attachments) as [|a l] eqn:Ha.
  - apply ret_ok in H as [<- _]. exists "alternative", (alt_boundary t), (to_bytes
      (writeAlternativeParts msg (alt_boundary t) +:+ line ("--" +:+ alt_boundary t +:+ "--"))).
    split; [done|]. split; [apply (Hb t)|]. rewrite <- Htext. done.
  - apply bind_ok in H as (u & w3 & _ & H). apply ret_ok in H as [<- _].
    eexists "mixed", (mixed_boundary u), (to_bytes _).
    split; [done|]. split; [apply (Hb u)|]. rewrite <- Htext. done.
Qed.

(** [C30] Whatever recipient, subject, texts and attachments a message has, a reader of the
    mail finds these six header fields and no other, with the recipient and the subject
    as values. *)
Theorem mail_header_fixed p from envelope msg w text w' :
  parseFromAddress p.(sm_from) = inr (from, envelope) -> compose from msg w = (Ok text, w') ->
  exists date kind b,
    header_fields [] (to_bytes text) = map to_bytes (header_lines from msg date kind b).
Proof.
  intros Hf (date & kind & b & more & Hk & Hb & ->)%composed. exists date, kind, b.
  apply header_read. by eapply header_field_lines.
Qed.
End header.

(** ** What the providers leave alone *)

(** The clients do not write to the program's database. *)
Record clients_read `{E : Env, OE : OutEnv} : Prop := {
  cr_http rq : reads (client_do rq);
  cr_sns region key secret to body : reads (sns_publish region key secret to body);
  cr_smtp addr auth from to text : reads (smtp_send_mail addr auth from to text) }.

Section clients.
Context `{E : Env, OE : OutEnv} (Hc : clients_read).

Lemma perform_reads name rq : reads (perform name rq).
Proof. unfold perform. case_match; respect. apply (cr_http Hc). Qed.
Lemma SendGrid_reads key from m : reads (SendGrid_Send key from m).
Proof. unfold SendGrid_Send. respect. apply perform_reads. Qed.
Lemma Twilio_reads sid token from m : reads (Twilio_Send sid token from m).
Proof. unfold Twilio_Send. respect. apply perform_reads. Qed.
Lemma Vonage_reads key secret from m : reads (Vonage_Send key secret from m).
Proof. unfold Vonage_Send. respect. apply perform_reads. Qed.
Lemma SNS_reads region key secret m : reads (SNS_Send region key secret m).
Proof. unfold SNS_Send. respect. apply (cr_sns Hc). Qed.
Lemma compose_reads from m : reads (compose from m).
Proof. unfold compose. respect. Qed.
Lemma SMTP_reads p m : reads (SMTP_Send p m).
Proof.
  unfold SMTP_Send. destruct (parseFromAddress _) as [e|[h a]]; respect; [apply compose_reads|apply (cr_smtp Hc)].
Qed.
Lemma createGitHubIssue_reads token repo title body labels :
  reads (createGitHubIssue token repo title body labels).
Proof. unfold createGitHubIssue. case_match; respect. apply (cr_http Hc). Qed.

(** Feedback writes nothing to the database: it goes to GitHub or into mails. *)
Lemma Submit_reads s email kind message follow :
  (forall send to subject html plain, s.(fb_sendEmail) = Some send -> reads (send to subject html plain)) ->
  reads (Submit s email kind message follow).
Proof.
  intros Hs. unfold Submit, email_channel.
  apply respects_bind; [apply _| |intros [e|]; [respect|]].
  - case_match; [apply createGitHubIssue_reads|]. case_bool_decide; [respect|].
    destruct s.(fb_sendEmail) eqn:Hf; [|respect]. by apply Hs.
  - destruct s.(fb_sendEmail) eqn:Hf; [|respect]. repeat case_match; respect; by apply Hs.
Qed.
End clients.

(** ** Witnesses *)

#[local] Existing Instance demo_env.
(** Clients that accept everything; a codec that changes nothing. *)
Definition demo_out : OutEnv :=
  {| new_request_error _ := None; client_do _ := ret (inr (MkOutResponse 202 "" (fun _ => "m1")));
     sendgrid_json _ := ""; vonage_json _ := ""; issue_json _ := "";
     twilio_decode _ := None; vonage_decode _ := Some [];
     sns_publish _ _ _ _ _ := ret (inr None); sns_config_ok _ := true;
     mail_parse raw := Some ("", raw); address_string _ address := address;
     q_encode s := s; quoted_printable s := s; smtp_send_mail _ _ _ _ _ := ret None;
     feedback_html _ _ := Some "" |}.
#[local] Existing Instance demo_out.
#[local] Instance demo_mail : MailLaws.
Proof.
  split.
  - intros s. apply unbroken_folded.
  - intros name address raw [= <- <-] H. split; by apply unbroken_folded.
Qed.

Definition accepted {A} (r : res A) : bool := match r with Ok _ => true | Err _ => false end.
Definition mail_world : World := MkWorld empty_db [] 0 0 0.
(** A subject that tries to add a field, and an attachment. *)
Definition spoofed_message : Message :=
  MkMessage "a@b.c" ("Hello" +:+ eol +:+ "Bcc: x@y.z") "<p>Hi</p>" "Hi" [MkAttachment "invite.ics" "text/calendar" "BEGIN"].
Lemma mail_header_fixed_witness :
  exists text date kind b,
    (compose "owl@b.c" spoofed_message mail_world).1 = Ok text /\
    header_fields [] (to_bytes text) = map to_bytes (header_lines "owl@b.c" spoofed_message date kind b) /\
    stripCRLF spoofed_message.(msg_Subject) = "HelloBcc: x@y.z".
Proof.
  destruct (compose "owl@b.c" spoofed_message mail_world) as [[text|e] w'] eqn:Hw.
  2: { exfalso. assert (accepted (compose "owl@b.c" spoofed_message mail_world).1 = true) as H by (vm_compute; reflexivity).
       by rewrite Hw in H. }
  assert (parseFromAddress (sm_from (MkSMTP "mail.b.c" "587" "" "" "owl@b.c")) = inr ("owl@b.c", "owl@b.c")) as Hp
    by (vm_compute; reflexivity).
  destruct (mail_header_fixed (MkSMTP "mail.b.c" "587" "" "" "owl@b.c") "owl@b.c" "owl@b.c" spoofed_message
    mail_world text w' Hp Hw) as (date & kind & b & H).
  exists text, date, kind, b. split; [reflexivity|]. split; [exact H|]. vm_compute; reflexivity.
Defined.
