(* ===== verification/Server.v ===== *)
(** * How the server wires its parts (internal/server: server.go,
    notification_registry.go; internal/notification/templates/templates.go)

    The callbacks through which packages that do not know each other meet:
    sending, checking access, what publishing, cancelling and duplicating an event
    bring about, the registry of the providers ([Outbound]), and the table of routes
    (router.go and the [Routes] methods) with what the CSRF check exempts.  Package
    chi, the HTML templates and what a goroutine waits for are parameters.  Logging is
    left out; a [go] statement runs where it stands.  The uploads directory is not
    part of the world of the callbacks: the cards they copy go to events that have
    none, so that no file is touched. *)

From S2P Require Import Prelude.
From S2P Require Import GoStr.
From S2P Require Import GoTime.
From S2P Require Import Schema.
From S2P Require Import Eff.
From S2P Require Import Http.
From S2P Require Import Respect.
From S2P Require Import Demo.
From S2P Require Import Tables.
From S2P Require Import Capability.
From S2P Require Import InvModel.
From S2P Require Import InvStore.
From S2P Require Import History.
From S2P Require Import Csrf.
From S2P Require Import InvService.
From S2P Require Import Config.
From S2P Require Import Auth.
From S2P Require Import UserAdmin.
From S2P Require Import Event.
From S2P Require Import EventHandler.
From S2P Require Import Series.
From S2P Require Import AccountSteps.
From S2P Require Import EventSteps.
From S2P Require Import AccountSystem.
From S2P Require Import AccountFacts.
From S2P Require Import LoginFacts.
From S2P Require Import AccountDemo.
From S2P Require Import Reminders.
From S2P Require Import Cards.
From S2P Require Import Webhook.
From S2P Require Import Suppression.
From S2P Require Import Notification.
From S2P Require Import Cleanup.
From S2P Require Import CardFacts.
From S2P Require Import Outbound.

Local Open Scope Z_scope.

(** ** Dates of the e-mails *)

Definition month_name (m : Z) : string :=
  nth (Z.to_nat (m - 1)) ["January"; "February"; "March"; "April"; "May"; "June"; "July"; "August";
    "September"; "October"; "November"; "December"] "".
(** [January 2, 2006] *)
Definition format_day (t : time) : string :=
  let '(y, m, d) := date_of t in
  month_name m +:+ " " +:+ itoa d +:+ ", " +:+ of_bytes (year_bytes y).
(** [3:04 PM] *)
Definition format_clock (t : time) : string :=
  let minutes := second_of_day t / 60 in
  let h := minutes / 60 in
  let h12 := if h mod 12 =? 0 then 12 else h mod 12 in
  itoa h12 +:+ ":" +:+ of_bytes (pad 2 (minutes mod 60)) +:+ (if h <? 12 then " AM" else " PM").
Definition format_long (t : time) : string := format_day t +:+ " at " +:+ format_clock t.

(** ** templates.go *)

Class Templates := {
  cohost_html : string -> string -> string -> string -> string -> option string;
  retention_html : string -> string -> string -> option string }.

Section templates.
Context `{E : Env, !Templates}.

Definition RenderCoHostInvitation (eventTitle eventDate location addedByName dashboardURL : string)
    : res (string * string) :=
  match cohost_html eventTitle eventDate location addedByName dashboardURL with
  | None => Err (EInternal "render cohost invitation template")
  | Some html =>
      Ok (html,
          "You've Been Added as a Co-Host" +:+ nl +:+ nl
          +:+ addedByName +:+ " has added you as a co-host for " +:+ eventTitle +:+ "." +:+ nl +:+ nl
          +:+ "Event: " +:+ eventTitle +:+ nl +:+ "Date: " +:+ eventDate +:+ nl +:+ "Location: "
          +:+ location +:+ nl +:+ nl
          +:+ "View the event dashboard:" +:+ nl +:+ dashboardURL +:+ nl
          +:+ nl +:+ "Sent by Owl Invites." +:+ nl)
  end.
Definition RenderRetentionWarning (eventTitle expiresAt dashboardURL : string)
    : res (string * string) :=
  match retention_html eventTitle expiresAt dashboardURL with
  | None => Err (EInternal "render retention warning template")
  | Some html =>
      Ok (html,
          "Data Retention Notice" +:+ nl +:+ nl
          +:+ "Your event " +:+ go_quote eventTitle +:+ " is scheduled for automatic deletion on "
          +:+ expiresAt +:+ "." +:+ nl +:+ nl
          +:+ "After this date, all event data including invitations, guest responses, and invitation messages will be permanently deleted."
          +:+ nl +:+ nl
          +:+ (if bool_decide (dashboardURL = "") then ""
               else "To extend the retention period, visit:" +:+ nl +:+ dashboardURL +:+ nl)
          +:+ nl +:+ "This is an automated notice from Owl Invites." +:+ nl)
  end.
End templates.

(** ** notification_registry.go *)

Section registry.
Context `{E : Env, OE : OutEnv}.

Definition some_empty (l : list string) : bool := existsb (fun s => bool_decide (s = "")) l.
Definition email_provider (c : Config.Config) : option Provider :=
  let name := to_lower (trim_space c.(Config.NotificationEmailProvider)) in
  let from (s : string) := if bool_decide (s = "") then c.(Config.SMTPFrom) else s in
  if one_of name [""; "smtp"] then
    if bool_decide (c.(Config.SMTPHost) = "") then None
    else Some (NewSMTPProvider c.(Config.SMTPHost) (itoa c.(Config.SMTPPort)) c.(Config.SMTPUsername)
                 c.(Config.SMTPPassword) c.(Config.SMTPFrom))
  else if bool_decide (name = "sendgrid") then
    let from := from c.(Config.SendGridFrom) in
    if some_empty [c.(Config.SendGridAPIKey); from] then None
    else Some (NewSendGridProvider c.(Config.SendGridAPIKey) from)
  else if bool_decide (name = "ses") then
    let from := from c.(Config.SESFrom) in
    if some_empty [c.(Config.SESRegion); c.(Config.SESUsername); c.(Config.SESPassword); from] then None
    else Some (NewSESProvider c.(Config.SESRegion) c.(Config.SESUsername) c.(Config.SESPassword) from)
  else None.
Definition sms_provider (c : Config.Config) : option Provider :=
  let name := to_lower (trim_space c.(Config.NotificationSMSProvider)) in
  if one_of name [""; "none"] then None
  else if bool_decide (name = "twilio") then
    if some_empty [c.(Config.TwilioAccountSID); c.(Config.TwilioAuthToken); c.(Config.TwilioFromNumber)] then None
    else Some (NewTwilioProvider c.(Config.TwilioAccountSID) c.(Config.TwilioAuthToken) c.(Config.TwilioFromNumber))
  else if bool_decide (name = "vonage") then
    if some_empty [c.(Config.VonageAPIKey); c.(Config.VonageAPISecret); c.(Config.VonageFrom)] then None
    else Some (NewVonageProvider c.(Config.VonageAPIKey) c.(Config.VonageAPISecret) c.(Config.VonageFrom))
  else if bool_decide (name = "sns") then
    if some_empty [c.(Config.SNSRegion); c.(Config.SNSAccessKeyID); c.(Config.SNSSecretAccessKey)] then None
    else NewSNSProvider c.(Config.SNSRegion) c.(Config.SNSAccessKeyID) c.(Config.SNSSecretAccessKey)
  else None.
Definition register_if (p : option Provider) (r : Registry) : Registry :=
  match p with Some p => Register p r | None => r end.
Definition buildNotificationRegistry (c : Config.Config) : Registry :=
  register_if (sms_provider c) (register_if (email_provider c) NewRegistry).

(** The provider "none" registers nothing, and is told to the clients as enabled. *)
Lemma sms_none c : c.(Config.NotificationSMSProvider) = "none" -> sms_provider c = None /\ SMSEnabled c = true.
Proof. unfold sms_provider, SMSEnabled. by intros ->. Qed.

(** What can be registered only reads, when the clients do. *)
Lemma email_provider_reads c p m : clients_read -> email_provider c = Some p -> reads (p.(p_Send) m).
Proof.
  intros Hc. unfold email_provider.
  repeat case_match; intros [= <-]; simpl; first [by apply SMTP_reads|by apply SendGrid_reads].
Qed.
Lemma sms_provider_reads c p m : clients_read -> sms_provider c = Some p -> reads (p.(p_Send) m).
Proof.
  intros Hc. unfold sms_provider, NewSNSProvider.
  repeat case_match; intros [= <-]; simpl;
    first [by apply Twilio_reads|by apply Vonage_reads|by apply SNS_reads].
Qed.
Lemma registry_reads c ch p m :
  clients_read -> buildNotificationRegistry c !! ch = Some p -> reads (p.(p_Send) m).
Proof.
  intros Hc. unfold buildNotificationRegistry, register_if, Register, NewRegistry.
  destruct (sms_provider c) as [q|] eqn:Hq; destruct (email_provider c) as [r|] eqn:Hr; intros H;
    repeat (apply lookup_insert_Some in H as [[_ <-]|[_ H]]; [eauto using email_provider_reads, sms_provider_reads|]);
    by apply lookup_empty_Some in H.
Qed.

(** The part of the configuration that the services of identities read. *)
Definition auth_config (c : Config.Config) : Auth.Config :=
  {| Auth.BaseURL := c.(Config.BaseURL); Auth.InstanceName := c.(Config.InstanceName);
     Auth.DefaultTimezone := c.(Config.DefaultTimezone); Auth.AllowSignups := c.(Config.AllowSignups);
     Auth.MagicLinkExpiry := c.(Config.MagicLinkExpiry); Auth.SessionExpiry := c.(Config.SessionExpiry);
     Auth.AccountInviteExpiry := c.(Config.AccountInviteExpiry);
     Auth.MaxCoHostsPerEvent := c.(Config.MaxCoHostsPerEvent);
     Auth.IsDevelopment := Config.IsDevelopment c; Auth.BootstrapToken := c.(Config.BootstrapToken) |}.
End registry.

(** ** server.go: the callbacks *)

(** What [New] is given and builds first. *)
Record Parts := MkParts {
  pt_cfg : Auth.Config;
  pt_retentionDays : Z;
  pt_registry : Registry;
  pt_tracking : bool;                    (* [EmailOpenTrackingEnabled] *)
  pt_cancelled : M bool;                 (* of the notification service *)
  pt_retryWait : Z -> M bool;
  pt_webhooks : Client;
  pt_invitations : InvService.Service;   (* before its senders are set *)
  pt_uploadsDir : string }.

Section wiring.
Context `{E : Env, !Templates, !CardEnv} (p : Parts).

Definition checkEventOwner (eventID organizerID : string) : M () :=
  canManage <- CanManageEvent eventID organizerID ;;
  require canManage (EText "event not found").

Definition organizerLookupByEmail (email : string) : M (string * string) :=
  o <- FindOrganizerByEmail email ;;
  match o with
  | None => ret ("", "")
  | Some org => if is_active org then ret (org.(user_ID), org.(user_Name)) else ret ("", "")
  end.

Definition suppression_checker : SuppressionChecker :=
  MkChecker Suppression.IsSuppressed Suppression.GenerateUnsubscribeToken.
Definition notifService : Notification.Service :=
  MkNotification p.(pt_registry)
    (MkOptions p.(pt_cfg).(Auth.BaseURL) p.(pt_tracking) (Some suppression_checker))
    p.(pt_cancelled) p.(pt_retryWait).

(** [provider.Send] of the e-mail provider, as the auth and user administration
    services send. *)
Definition send_direct (to subject html plain : string) : M () :=
  provider <- of_res (Get ChannelEmail p.(pt_registry)) ;;
  r <- provider.(p_Send) (MkMessage to subject html plain []) ;;
  match r with inl e => fail (EText e) | inr _ => ret () end.
Definition auth_sender : option Auth.EmailSender :=
  if Has ChannelEmail p.(pt_registry) then Some send_direct else None.

Definition send_invitation (eventID invitationID to subject html plain : string) : M () :=
  suppressed <- Suppression.IsSuppressed to eventID ;;
  if suppressed : bool then fail ErrDeliverySuppressed
  else Send notifService eventID invitationID ChannelEmail (MkMessage to subject html plain []).
Definition send_text (eventID invitationID to body : string) : M () :=
  Send notifService eventID invitationID ChannelSMS (MkMessage to "" body "" []).
Definition invitationService : InvService.Service :=
  let s := p.(pt_invitations) in
  let s := if Has ChannelEmail p.(pt_registry) then InvService.SetEmailSender send_invitation s else s in
  if Has ChannelSMS p.(pt_registry) then InvService.SetSMSSender send_text s else s.

(** [SetNotifyCoHost]: every failure is only logged. *)
Definition notify_cohost (coHostEmail eventID addedBy : string) : M () :=
  e <- attempt (GetByID eventID) ;;
  match e with
  | Err _ => ret ()
  | Ok ev =>
      o <- attempt (findOrganizerByID addedBy) ;;
      match o with
      | Err _ | Ok None => ret ()
      | Ok (Some organizer) =>
          let location := if bool_decide (ev.(ev_Location) = "") then "TBD" else ev.(ev_Location) in
          match RenderCoHostInvitation ev.(ev_Title) (format_long ev.(ev_EventDate)) location
                  organizer.(user_Name) (p.(pt_cfg).(Auth.BaseURL) +:+ "/events/" +:+ eventID) with
          | Err _ => ret ()
          | Ok bodies =>
              ignore_err (Send notifService eventID addedBy ChannelEmail
                (MkMessage coHostEmail ("You've been added as a co-host — " +:+ ev.(ev_Title))
                   bodies.1 bodies.2 []))
          end
      end
  end.

(** The saved fields of a card as a request. *)
Definition request_of_card (c : InviteCard) : SaveInviteRequest :=
  MkSave c.(card_TemplateID) c.(card_Heading) c.(card_Body) c.(card_Footer) c.(card_PrimaryColor)
    c.(card_SecondaryColor) c.(card_Font) c.(card_CustomData).
Definition copy_card (card : InviteCard) (eventID : string) : M () :=
  ignore_err (Save p.(pt_uploadsDir) eventID (request_of_card card) None).
(** [SetOnDuplicate] *)
Definition on_duplicate (srcEventID newEventID : string) : M () :=
  r <- attempt (GetByEventID srcEventID) ;;
  match r with Err _ => ret () | Ok card => copy_card card newEventID end.

(** [go webhookDispatcher.Dispatch(...)]: the deliveries it starts run to their end. *)
Definition dispatch_event (e : Event) (eventType : string) : M () :=
  l <- Dispatch e.(ev_ID) eventType (json_object [("eventId", e.(ev_ID)); ("title", e.(ev_Title))]) ;;
  deliver_all p.(pt_webhooks) l.

Definition default_reminders (e : Event) : list (Z * string) :=
  [(7 * 24 * hour, "Reminder: " +:+ e.(ev_Title) +:+ " is in 1 week!");
   (3 * 24 * hour, "Reminder: " +:+ e.(ev_Title) +:+ " is in 3 days!")].
Definition create_default (e : Event) (now_ : time) (d : Z * string) : M () :=
  let remindAt := e.(ev_EventDate) - d.1 in
  if remindAt <? now_ then ret () else
  id <- new_uuid ;;
  ignore_err (ReminderStore_Create
    (MkReminder id e.(ev_ID) remindAt "all" d.2 "scheduled" zero_time zero_time)).
Definition schedule_defaults (e : Event) : M () :=
  t <- now ;; forM (default_reminders e) (create_default e t).
(** [SetOnPublish] *)
Definition on_publish (e : Event) : M () :=
  ignore_err (dispatch_event e "event.published") ;;; schedule_defaults e.

(** [SetOnCancel] *)
Definition cancel_message (e : Event) : MessageRequest :=
  MkMessageRequest "all" ("Event cancelled — " +:+ e.(ev_Title))
    "This event has been cancelled by the organizer.".
Definition on_cancel (e : Event) : M () :=
  ignore_err (dispatch_event e "event.cancelled") ;;;
  ignore_err (Broadcast invitationService e.(ev_ID) None (cancel_message e)).

(** What [NewReminderJob] delivers with. *)
Definition deliver_reminder : ReminderDeliveryFunc := fun eventID group subject body =>
  r <- Broadcast invitationService eventID None (MkMessageRequest group subject body) ;;
  match r.2 with Some e => fail e | None => ret r.1 end.

(** [SetRetentionNotify] *)
Definition notify_retention (organizerEmail eventTitle : string) (expiresAt : time) : M () :=
  match RenderRetentionWarning eventTitle (format_day expiresAt)
          (p.(pt_cfg).(Auth.BaseURL) +:+ "/events") with
  | Err _ => ret ()
  | Ok bodies =>
      ignore_err (send_direct organizerEmail ("Data Retention Notice — " +:+ eventTitle) bodies.1 bodies.2)
  end.

(** [SetOnDeleteEvent]: the files of the event in the uploads directory. *)
Definition remove_uploads (eventID : string) (disk : Disk) : Disk :=
  match disk with
  | None => None
  | Some files =>
      Some (filter (fun kv => ~ (has_prefix kv.1 (eventID +:+ "_") = true /\ removable kv.1 = true)) files)
  end.

(** [SetOnCreateOccurrence]: the card of the first other occurrence that has one. *)
Fixpoint copy_first_card (occurrenceID : string) (l : list Event) : M () :=
  match l with
  | [] => ret ()
  | e :: t =>
      if bool_decide (e.(ev_ID) = occurrenceID) then copy_first_card occurrenceID t else
      r <- attempt (GetByEventID e.(ev_ID)) ;;
      match r with
      | Err _ => copy_first_card occurrenceID t
      | Ok card => copy_card card occurrenceID
      end
  end.
Definition on_create_occurrence (seriesID occurrenceID : string) : M () :=
  r <- attempt (FindBySeriesID seriesID) ;;
  match r with Err _ | Ok [] => ret () | Ok l => copy_first_card occurrenceID l end.

(** ** server.go: the services *)

Definition if_email {A} (a : A) : option A :=
  if Has ChannelEmail p.(pt_registry) then Some a else None.

Definition authService : Auth.Service := MkAuthService p.(pt_cfg) auth_sender.
Definition eventService : Event.Service :=
  MkEventService p.(pt_retentionDays) (Some on_publish) (Some on_duplicate) (if_email on_cancel).
Definition seriesService : SeriesService :=
  MkSeriesService eventService p.(pt_retentionDays) (Some on_create_occurrence).
(** [SetCoHostSponsor] *)
Definition sponsor_cohost (ownerUserID eventID email : string) : M bool :=
  o <- findOrganizerByID ownerUserID ;;
  match o with
  | None => ret false
  | Some owner => InviteEventCohost authService (Some owner) eventID email
  end.
Definition eventHandler : EventHandler.Handler :=
  MkEventHandler eventService true (Some organizerLookupByEmail) (if_email notify_cohost)
    p.(pt_cfg).(MaxCoHostsPerEvent) (Some sponsor_cohost).
Definition cleanupJob (warned : gset string) : CleanupJob :=
  MkCleanupJob (if_email notify_retention) (Some (fun _ => ret ())) warned.

(** The scheduler's jobs, in the order of their registration; each iteration logs
    its error and goes on. *)
Definition run_jobs (warned : gset string) : M () :=
  executeJob (Reminders.Run (Some deliver_reminder)) ;;;
  executeJob (Cleanup_Run (cleanupJob warned)) ;;;
  executeJob (SeriesJob_Run seriesService).

(** The feedback service and its sender, which drops what the provider says besides
    an error. *)
Definition feedback_sender (to subject html plain : string) : M (option string) :=
  match Get ChannelEmail p.(pt_registry) with
  | Err e => ret (Some "no provider")
  | Ok provider =>
      r <- provider.(p_Send) (MkMessage to subject html plain []) ;;
      ret (match r with inl e => Some e | inr _ => None end)
  end.
Definition feedbackService (c : Config.Config) : FeedbackService :=
  MkFeedback c.(FeedbackGitHubToken) c.(FeedbackGitHubRepo) c.(Config.FeedbackEmail) (if_email feedback_sender).
(** Whether the server warns that submissions will be discarded. *)
Definition feedback_warns (c : Config.Config) : bool :=
  bool_decide (c.(FeedbackGitHubToken) = "") && bool_decide (c.(Config.FeedbackEmail) = "").

(** ** router.go *)

(** Whether [rejectDuringShutdown] lets a request through; else it answers 503. *)
Definition passes_shutdown (shuttingDown : bool) (path : string) : bool :=
  negb shuttingDown || one_of path ["/health"; "/health/ready"; "/api/v1/health"].
(** The status of [handleHealthReady]; [SELECT 1] may only fail in the driver. *)
Definition handleHealthReady (shuttingDown : bool) : M Z :=
  if shuttingDown then ret 503 else
  r <- attempt (query "health check" (fun _ => 1)) ;;
  ret match r with Ok _ => 200 | Err _ => 503 end.

Definition csrf_excluded : list string :=
  ["/api/v1/invitations/exchange"; "/api/v1/invitations/recovery/request";
   "/api/v1/invitations/recovery/exchange"; "/api/v1/invitations/open/inspect";
   "/api/v1/invitations/open/enroll"; "/api/v1/auth/magic-link"; "/api/v1/auth/verify";
   "/api/v1/auth/account-invites/accept"; "/api/v1/setup/bootstrap"; "/api/v1/feedback/public";
   "/api/v1/unsubscribe"].
End wiring.

(** ** What the wiring promises

    The theorems on accounts, memberships and events are proved for any callbacks
    that leave those tables alone; the callbacks the server sets are such, when the
    providers, the HTTP client of the webhooks and the waits do not write to the
    database.  So the theorems hold of the server as it is put together.  And what
    publishing an event schedules. *)

#[global] Instance quiet_preorder : PreOrder quiet.
Proof. split; [done|]. intros x y z [H1 H2] [H3 H4]. split; congruence. Qed.

(** What is outside the program does not write to its database. *)
Record outside_reads (p : Parts) : Prop := {
  or_provider ch pr m : p.(pt_registry) !! ch = Some pr -> reads (pr.(p_Send) m);
  or_cancelled : reads p.(pt_cancelled);
  or_wait n : reads (p.(pt_retryWait) n);
  or_request rq : reads (p.(pt_webhooks).(cl_do) rq);
  or_backoff n : reads (p.(pt_webhooks).(cl_wait) n) }.

(** A statement on a table that holds no accounts and no events. *)
Ltac other_table :=
  let H := fresh in intros H;
  first [ by injection H as <-
        | match type of H with ?f _ _ _ = Some _ => unfold f in H; insert_cases H; done end
        | unfold update_log, update_reminder in H; repeat case_match; simplify_eq; done ].

Section quiet.
Context `{E : Env, !Templates} {C : CardEnv} (p : Parts) (Ho : outside_reads p).

Lemma quiet_reads {A} (m : M A) : reads m -> respects quiet m.
Proof. apply reads_respects, _. Qed.
Lemma FindByEventID_quiet e : respects quiet (FindByEventID e).
Proof. apply quiet_reads, FindByEventID_reads. Qed.
Lemma Upsert_quiet c : respects quiet (Upsert c).
Proof. unfold Upsert. respect; [apply FindByEventID_quiet|other_table..]. Qed.
Lemma Save_quiet dir e req disk : respects quiet (Save dir e req disk).
Proof.
  unfold Save. respect; [apply quiet_reads, cleanupOldImage_reads|apply Upsert_quiet].
Qed.
Lemma copy_card_quiet c e : respects quiet (copy_card p c e).
Proof. unfold copy_card. respect. apply Save_quiet. Qed.
Lemma GetByEventID_quiet e : respects quiet (GetByEventID e).
Proof. unfold GetByEventID. respect. apply FindByEventID_quiet. Qed.
Lemma on_duplicate_quiet a b : respects quiet (on_duplicate p a b).
Proof. unfold on_duplicate. respect; [apply GetByEventID_quiet|apply copy_card_quiet]. Qed.
Lemma copy_first_card_quiet o l : respects quiet (copy_first_card p o l).
Proof.
  induction l as [|e l IH]; simpl; [by apply respects_ret, quiet_preorder|].
  respect; [apply GetByEventID_quiet|apply copy_card_quiet].
Qed.
Lemma on_create_occurrence_quiet a b : respects quiet (on_create_occurrence p a b).
Proof.
  unfold on_create_occurrence, FindBySeriesID, find_events. respect. apply copy_first_card_quiet.
Qed.

(** Webhooks *)
Lemma UpdateDelivery_quiet x : respects quiet (UpdateDelivery x).
Proof. unfold UpdateDelivery. respect. other_table. Qed.
Lemma CreateDelivery_quiet x : respects quiet (CreateDelivery x).
Proof. unfold CreateDelivery, now_text. respect. other_table. Qed.
Lemma attempt_turn_quiet wh n x payload : respects quiet (attempt_turn p.(pt_webhooks) wh n x payload).
Proof.
  unfold attempt_turn, send_attempt, record_and_return. respect;
    try apply UpdateDelivery_quiet; apply quiet_reads; apply Ho.
Qed.
Lemma deliver_loop_quiet fuel n wh x payload e :
  respects quiet (deliver_loop p.(pt_webhooks) fuel n wh x payload e).
Proof.
  revert n x e. induction fuel as [|fuel IH]; intros n x e; simpl; [by apply respects_ret, quiet_preorder|].
  respect; [apply UpdateDelivery_quiet|apply attempt_turn_quiet].
Qed.
Lemma dispatch_event_quiet e t : respects quiet (dispatch_event p e t).
Proof.
  unfold dispatch_event, Dispatch, deliver_all, deliver, record_delivery, FindEnabledByEventAndType.
  respect; try apply CreateDelivery_quiet; try apply deliver_loop_quiet.
Qed.
Lemma create_default_quiet e t d : respects quiet (create_default e t d).
Proof. unfold create_default, ReminderStore_Create, now_text. respect. other_table. Qed.
Lemma on_publish_quiet e : respects quiet (on_publish p e).
Proof. unfold on_publish, schedule_defaults. respect; [apply dispatch_event_quiet|apply create_default_quiet]. Qed.

(** Notifications *)
Lemma insertLog_quiet a b c d e f g h i j k : respects quiet (insertLog a b c d e f g h i j k).
Proof. unfold insertLog. respect. other_table. Qed.
Lemma updateLog_quiet a b c d e : respects quiet (updateLog a b c d e).
Proof. unfold updateLog. respect. other_table. Qed.
Lemma IsSuppressed_quiet a b : respects quiet (Suppression.IsSuppressed a b).
Proof. unfold Suppression.IsSuppressed, Store_IsSuppressed. respect. Qed.
Lemma GenerateUnsubscribeToken_quiet a b : respects quiet (Suppression.GenerateUnsubscribeToken a b).
Proof. unfold Suppression.GenerateUnsubscribeToken, CreateToken, now_text. respect. other_table. Qed.
Lemma send_attempts_quiet ch pr m n :
  p.(pt_registry) !! ch = Some pr -> respects quiet (send_attempts (notifService p) pr m n).
Proof.
  intros Hp. induction n as [|n IH]; simpl; respect; apply quiet_reads; simpl;
    eauto using or_provider, or_cancelled, or_wait.
Qed.
Lemma respects_of_ok {A B} R (a : A) (k : A -> M B) : respects R (k a) -> respects R (bind (of_res (Ok a)) k).
Proof. intros Hk w. exact (Hk w). Qed.
Lemma Send_quiet e i ch m : respects quiet (Send (notifService p) e i ch m).
Proof.
  unfold Send, get_provider, isSuppressedEmail, prepare, applyUnsubscribeFooter, embedOpenPixel,
    log_failed, log_sent, Get.
  change (nt_registry (notifService p)) with (pt_registry p).
  destruct (pt_registry p !! ch) as [pr|] eqn:Hp; [|by intros w]. apply respects_of_ok.
  change (op_Suppression (nt_opts (notifService p))) with (Some suppression_checker).
  unfold suppression_checker, sc_IsSuppressed, sc_GenerateUnsubscribeToken.
  respect; eauto using insertLog_quiet, updateLog_quiet, IsSuppressed_quiet,
    GenerateUnsubscribeToken_quiet, send_attempts_quiet.
Qed.
Lemma send_direct_quiet a b c d : respects quiet (send_direct p a b c d).
Proof.
  unfold send_direct, Get. destruct (pt_registry p !! ChannelEmail) as [pr|] eqn:Hp; [|by intros w].
  apply respects_of_ok. respect. apply quiet_reads. by eapply or_provider.
Qed.
Lemma send_invitation_quiet a b c d e f : respects quiet (send_invitation p a b c d e f).
Proof. unfold send_invitation. respect; [apply IsSuppressed_quiet|apply Send_quiet]. Qed.

(** A broadcast is as quiet as its sender. *)
Lemma respects_of_some {A B} R err_ (a : A) (k : A -> M B) :
  respects R (k a) -> respects R (bind (of_option err_ (Some a)) k).
Proof. intros Hk w. exact (Hk w). Qed.
Lemma quiet_of_none {A B} err_ (k : A -> M B) : respects quiet (bind (of_option err_ None) k).
Proof. by intros w. Qed.
Lemma CreateMessage_quiet m : respects quiet (CreateMessage m).
Proof. unfold CreateMessage. respect. other_table. Qed.
Lemma Broadcast_quiet s e u req :
  (forall f a b c d g h, s.(InvService.sendEmail) = Some f -> respects quiet (f a b c d g h)) ->
  respects quiet (Broadcast s e u req).
Proof.
  intros Hs. unfold Broadcast, BroadcastDetailed, broadcast_step, ListDeliveryTargets, scanInvitationRows.
  destruct (InvService.sendEmail s) as [f|];
    repeat first [apply respects_of_some | apply quiet_of_none | respect1]; eauto using CreateMessage_quiet with respects.
Qed.
Lemma invitation_sender_quiet f a b c d g h :
  (forall f a b c d g h, p.(pt_invitations).(InvService.sendEmail) = Some f -> respects quiet (f a b c d g h)) ->
  (invitationService p).(InvService.sendEmail) = Some f -> respects quiet (f a b c d g h).
Proof.
  intros Hp. unfold invitationService.
  destruct (Has ChannelEmail _), (Has ChannelSMS _); simpl; try apply Hp;
    intros [= <-]; apply send_invitation_quiet.
Qed.

Lemma if_email_some {A} (a b : A) : if_email p a = Some b -> b = a.
Proof. unfold if_email. destruct (Has _ _); [by intros [= <-]|done]. Qed.

Definition wired : Services := MkServices (authService p) (seriesService p) (eventHandler p).

Lemma wired_quiet : p.(pt_invitations).(InvService.sendEmail) = None -> quiet_services wired.
Proof.
  intros Hn. split.
  - intros f to subject html plain. unfold wired, authService, auth_sender. simpl.
    destruct (Has _ _); [|done]. intros [= <-]. apply send_direct_quiet.
  - split; simpl.
    + split; simpl.
      * intros f e [= <-]. apply on_publish_quiet.
      * intros f a b [= <-]. apply on_duplicate_quiet.
      * intros f e ->%if_email_some. unfold on_cancel. respect; [apply dispatch_event_quiet|].
        apply Broadcast_quiet. intros. eapply invitation_sender_quiet; [|done]. by rewrite Hn.
    + intros f a b [= <-]. apply on_create_occurrence_quiet.
Qed.
End quiet.


(** ** Feedback *)

(** A signed-in organizer's or a guest's feedback leaves the database as it was. *)
Lemma feedback_reads `{E : Env, OE : OutEnv, !Templates} (p : Parts) c email kind message follow :
  outside_reads p -> clients_read -> reads (Submit (feedbackService p c) email kind message follow).
Proof.
  intros Ho Hc. apply (Submit_reads Hc). intros send to subject html plain Hs. simpl in Hs.
  unfold if_email in Hs. case_match; [|done]. injection Hs as <-. unfold feedback_sender, Get.
  destruct (pt_registry p !! ChannelEmail) as [pr|] eqn:Hp; [|by intros w].
  respect. by apply (or_provider p Ho ChannelEmail).
Qed.
(** A GitHub token without a repository, and no address: nothing is sent and nothing
    warned, and the guest is told that the feedback was submitted. *)
Lemma feedback_dropped `{E : Env, OE : OutEnv, !Templates} (p : Parts) c message contact source :
  c.(FeedbackGitHubToken) <> "" -> c.(FeedbackGitHubRepo) = "" -> c.(Config.FeedbackEmail) = "" ->
  feedback_warns c = false /\
  submitted (SubmitGuest (feedbackService p c) message contact source) = ret (json 201 PSubmitted).
Proof.
  intros Ht Hr He. unfold feedback_warns, SubmitGuest, has_github, email_channel. simpl.
  rewrite Hr, He, (bool_decide_eq_false_2 _ Ht). done.
Qed.

(** ** What publishing schedules *)

Section schedule.
Context `{E : Env}.

(** The row of a default reminder of [e]. *)
Definition default_row (e : Event) (d : Z * string) (created : string) : ReminderRow :=
  {| rm_event_id := e.(ev_ID); rm_remind_at := format_rfc3339 (e.(ev_EventDate) - d.1);
     rm_group := "all"; rm_message := d.2; rm_status := "scheduled"; rm_created_at := created;
     rm_updated_at := created |}.
Definition not_past (e : Event) (t : time) (d : Z * string) : bool := t <=? e.(ev_EventDate) - d.1.

(** One turn of the loop on the table. *)
Definition adds (e : Event) (d : Z * string) (soon : bool) (t t' : gmap string ReminderRow) : Prop :=
  if soon then exists k created, t !! k = None /\ t' = <[k := default_row e d created]> t else t' = t.
Lemma adds_keeps e d c t t' k r : adds e d c t t' -> t !! k = Some r -> t' !! k = Some r.
Proof.
  unfold adds. destruct c; [|by intros ->]. intros (j & cr & Hj & ->) Hk.
  rewrite lookup_insert_ne; [done|congruence].
Qed.
Lemma adds_new e d t t' :
  adds e d true t t' -> exists k cr, t !! k = None /\ t' !! k = Some (default_row e d cr).
Proof. intros (k & cr & Hk & ->). exists k, cr. by rewrite lookup_insert_eq. Qed.
Lemma adds_inv e d c t t' k r :
  adds e d c t t' -> t' !! k = Some r -> t !! k = Some r \/ c = true /\ exists cr, r = default_row e d cr.
Proof.
  unfold adds. destruct c; [|intros ->; by left]. intros (j & cr & Hj & ->).
  rewrite lookup_insert_Some. intros [[_ <-]|[_ Hk]]; eauto.
Qed.

(** Ids still to come are free. *)
Definition fresh_from {R} (n : nat) (t : gmap string R) : Prop := forall m, (n <= m)%nat -> t !! uuid_v7 m = None.

Lemma create_default_run e t d w :
  w.(w_faults) = [] -> is_Some (w.(w_db).(events) !! e.(ev_ID)) ->
  fresh_from w.(w_uuids) w.(w_db).(reminders) -> (forall m n, uuid_v7 m = uuid_v7 n -> m = n) ->
  exists w', create_default e t d w = (Ok (), w') /\ w'.(w_faults) = [] /\
    w'.(w_db).(events) = w.(w_db).(events) /\
    fresh_from w'.(w_uuids) w'.(w_db).(reminders) /\
    adds e d (not_past e t d) w.(w_db).(reminders) w'.(w_db).(reminders).
Proof.
  intros Hf He Hfresh Hinj. unfold create_default, not_past.
  rewrite Z.leb_antisym. destruct (e.(ev_EventDate) - d.1 <? t) eqn:Et; simpl.
  { exists w. done. }
  set (k := uuid_v7 (w_uuids w)). set (created := format_rfc3339 (clock (w_clock w))).
  exists (MkWorld (set_reminders <[k := default_row e d created]> w.(w_db)) [] (S w.(w_clock))
    (S w.(w_uuids)) w.(w_draws)).
  assert (w.(w_db).(reminders) !! k = None) as Hk by (by apply Hfresh).
  split; [|split_and!; [done|done| |eauto]].
  - unfold new_uuid, ignore_err, ReminderStore_Create, now_text, exec, stmt, driver, now, bind, ret.
    simpl. rewrite Hf. simpl. unfold insert_reminder. simpl.
    fold k. unfold has. rewrite (bool_decide_eq_false_2 (is_Some (reminders (w_db w) !! k)))
      by (rewrite Hk; by intros [? ?]).
    rewrite bool_decide_eq_true_2 by done. done.
  - intros m Hm. simpl in *. rewrite lookup_insert_ne; [apply Hfresh; lia|].
    unfold k. intros Heq%Hinj. lia.
Qed.

(** Publishing an event when no statement fails: of the two default reminders, one
    week and three days before, those that are not past are stored, for all
    households and to be sent at their time; nothing else is. *)
Theorem publishing_schedules e w :
  w.(w_faults) = [] -> is_Some (w.(w_db).(events) !! e.(ev_ID)) ->
  fresh_from w.(w_uuids) w.(w_db).(reminders) -> (forall m n, uuid_v7 m = uuid_v7 n -> m = n) ->
  let t := clock w.(w_clock) in
  let w' := (schedule_defaults e w).2 in
  (schedule_defaults e w).1 = Ok () /\
  (forall d, d ∈ default_reminders e -> not_past e t d = true ->
     exists k created, w.(w_db).(reminders) !! k = None /\
       w'.(w_db).(reminders) !! k = Some (default_row e d created)) /\
  (forall k r, w'.(w_db).(reminders) !! k = Some r -> w.(w_db).(reminders) !! k = Some r \/
     exists d created, d ∈ default_reminders e /\ not_past e t d = true /\ r = default_row e d created).
Proof.
  intros Hf He Hfresh Hinj. cbv zeta. unfold schedule_defaults, default_reminders.
  set (d1 := (_, _ : string)). set (d2 := (3 * 24 * hour, _)).
  set (w0 := MkWorld w.(w_db) w.(w_faults) (S w.(w_clock)) w.(w_uuids) w.(w_draws)).
  destruct (create_default_run e (clock (w_clock w)) d1 w0) as (w1 & H1 & Hf1 & He1 & Hfr1 & Hr1); [done..|].
  destruct (create_default_run e (clock (w_clock w)) d2 w1) as (w2 & H2 & Hf2 & He2 & Hfr2 & Hr2);
    [done|by rewrite He1|done..|].
  assert ((t <- now ;; forM [d1; d2] (create_default e t)) w = (Ok (), w2)) as ->.
  { change ((t <- now ;; forM [d1; d2] (create_default e t)) w)
      with (forM [d1; d2] (create_default e (clock (w_clock w))) w0).
    unfold forM, foldM, bind. rewrite H1, H2. done. }
  simpl. split; [done|]. change (w_db w0) with (w_db w) in *. split.
  - intros d [-> |[-> |[]%not_elem_of_nil]%elem_of_cons]%elem_of_cons Hd; rewrite Hd in *.
    + apply adds_new in Hr1 as (k & cr & Hk & Hk'). exists k, cr. eauto using adds_keeps.
    + apply adds_new in Hr2 as (k & cr & Hk & Hk'). exists k, cr. split; [|done].
      destruct (w.(w_db).(reminders) !! k) eqn:Ek; [|done]. by rewrite (adds_keeps _ _ _ _ _ _ _ Hr1 Ek) in Hk.
  - intros k r Hk. apply (adds_inv _ _ _ _ _ _ _ Hr2) in Hk as [Hk|[Hc [cr ->]]].
    + apply (adds_inv _ _ _ _ _ _ _ Hr1) in Hk as [Hk|[Hc [cr ->]]]; [by left|right].
      exists d1, cr. split; [left|done].
    + right. exists d2, cr. split; [right; left|done].
Qed.
End schedule.

(** ** The routes (router.go and the [Routes] methods of the handlers)

    Package chi is a parameter: which route serves a request.  What is used of it is
    that the route's method and pattern are those of the request. *)

Inductive Segment := Seg (s : string) | Param | Rest.
Inductive Guard := RequireLogin | RequireAdmin | AuthLimit.
Record Route := MkRoute {
  rt_method : string; rt_pattern : list Segment; rt_guards : list Guard; rt_handler : string }.

Definition segment (s : string) : Segment :=
  if has_prefix s "{" then Param else if bool_decide (s = "*") then Rest else Seg s.
(** A pattern as it is written, with its leading slash. *)
Definition pattern (s : string) : list Segment := map segment (tail (split s "/"%char)).
Definition route (method path handler : string) : Route := MkRoute method (pattern path) [] handler.
Definition Use (guards : list Guard) (rs : list Route) : list Route :=
  map (fun r => MkRoute r.(rt_method) r.(rt_pattern) (guards ++ r.(rt_guards)) r.(rt_handler)) rs.
Definition Mount (path : string) (rs : list Route) : list Route :=
  map (fun r => MkRoute r.(rt_method) (pattern path ++ r.(rt_pattern)) r.(rt_guards) r.(rt_handler)) rs.
#[local] Abbreviation Get_ := (route "GET").
#[local] Abbreviation Post := (route "POST").
#[local] Abbreviation Put := (route "PUT").
#[local] Abbreviation Patch := (route "PATCH").
#[local] Abbreviation Delete_ := (route "DELETE").

Definition auth_routes : list Route :=
  Use [AuthLimit] [Post "/magic-link" "auth.handleMagicLink"; Post "/verify" "auth.handleVerify"]
  ++ [Post "/logout" "auth.handleLogout"]
  ++ Use [RequireLogin]
       [Get_ "/me" "auth.handleMe"; Patch "/me" "auth.handleUpdateMe"; Get_ "/me/export" "auth.handleExportMe";
        Delete_ "/me" "auth.handleDeleteMe"].
Definition user_routes : list Route :=
  Use [RequireLogin; RequireAdmin]
    [Get_ "/" "useradmin.handleListUsers"; Get_ "/invites" "useradmin.handleListInvites";
     Post "/invites" "useradmin.handleInviteUser"; Delete_ "/invites/{inviteID}" "useradmin.handleRevokeInvite";
     Patch "/{userID}/status" "useradmin.handleSetStatus"; Patch "/{userID}/role" "useradmin.handleSetRole"].
Definition audit_routes : list Route :=
  Use [RequireLogin; RequireAdmin] [Get_ "/" "useradmin.handleListAudit"].
Definition account_invite_routes : list Route :=
  Use [AuthLimit] [Post "/accept" "useradmin.handleAcceptInvite"].
Definition series_routes : list Route :=
  Use [RequireLogin]
    [Post "/" "event.handleCreateSeries"; Get_ "/" "event.handleListSeries"; Get_ "/{seriesId}" "event.handleGetSeries";
     Put "/{seriesId}" "event.handleUpdateSeries"; Post "/{seriesId}/stop" "event.handleStopSeries";
     Delete_ "/{seriesId}" "event.handleDeleteSeries"].
Definition invitation_routes : list Route :=
  Use [RequireLogin]
    [Get_ "/" "invitation.list"; Post "/" "invitation.create"; Get_ "/import/template" "invitation.importTemplate";
     Post "/import/preview" "invitation.previewImport"; Post "/import/commit" "invitation.commitImport";
     Get_ "/export" "invitation.exportCSV"; Get_ "/{invitationId}" "invitation.get";
     Put "/{invitationId}" "invitation.update"; Post "/{invitationId}/deliver" "invitation.deliver";
     Post "/{invitationId}/rotate" "invitation.rotate"; Post "/{invitationId}/revoke" "invitation.revoke";
     Post "/messages/preview" "invitation.previewMessage"; Post "/messages" "invitation.message"].
Definition open_enrollment_routes : list Route :=
  Use [RequireLogin]
    [Get_ "/" "invitation.getOpen"; Put "/" "invitation.configureOpen"; Post "/rotate" "invitation.rotateOpen"].
Definition public_invitation_routes : list Route :=
  [Post "/exchange" "invitation.exchange"; Get_ "/session" "invitation.session";
   Put "/session/response" "invitation.submit"; Post "/recovery/request" "invitation.requestRecovery";
   Post "/recovery/exchange" "invitation.exchangeRecovery"; Post "/open/inspect" "invitation.inspectOpen";
   Post "/open/enroll" "invitation.enrollOpen"].
Definition event_routes : list Route :=
  Use [RequireLogin]
    [Post "/" "event.handleCreate"; Get_ "/" "event.handleList"; Get_ "/{eventId}" "event.handleGet";
     Put "/{eventId}" "event.handleUpdate"; Post "/{eventId}/publish" "event.handlePublish";
     Post "/{eventId}/cancel" "event.handleCancel"; Post "/{eventId}/reopen" "event.handleReopen";
     Post "/{eventId}/duplicate" "event.handleDuplicate"; Delete_ "/{eventId}" "event.handleDelete";
     Get_ "/{eventId}/cohosts" "event.handleListCoHosts"; Post "/{eventId}/cohosts" "event.handleAddCoHost";
     Delete_ "/{eventId}/cohosts/{cohostId}" "event.handleRemoveCoHost"].
Definition question_routes : list Route :=
  Use [RequireLogin]
    [Get_ "/" "question.handleList"; Post "/" "question.handleCreate"; Put "/reorder" "question.handleReorder";
     Put "/{qId}" "question.handleUpdate"; Delete_ "/{qId}" "question.handleDelete"].
Definition card_routes : list Route :=
  Get_ "/templates" "invite.handleListTemplates"
  :: Use [RequireLogin]
       [Get_ "/event/{eventId}" "invite.handleGetByEvent"; Put "/event/{eventId}" "invite.handleSave";
        Get_ "/event/{eventId}/preview" "invite.handlePreview"; Post "/event/{eventId}/image" "invite.handleUploadImage"].
Definition reminder_routes : list Route :=
  Use [RequireLogin]
    [Post "/event/{eventId}" "scheduler.handleCreate"; Get_ "/event/{eventId}" "scheduler.handleListByEvent";
     Put "/{reminderId}" "scheduler.handleUpdate"; Delete_ "/{reminderId}" "scheduler.handleCancel"].
Definition feedback_routes : list Route :=
  Post "/public" "feedback.handleSubmitPublic" :: Use [RequireLogin] [Post "/" "feedback.handleSubmit"].
Definition webhook_routes : list Route :=
  Use [RequireLogin]
    [Post "/event/{eventId}" "webhook.handleCreate"; Get_ "/event/{eventId}" "webhook.handleList";
     Get_ "/{webhookId}" "webhook.handleGet"; Put "/{webhookId}" "webhook.handleUpdate";
     Delete_ "/{webhookId}" "webhook.handleDelete"; Post "/{webhookId}/rotate-secret" "webhook.handleRotateSecret";
     Get_ "/{webhookId}/deliveries" "webhook.handleGetDeliveries"; Post "/{webhookId}/test" "webhook.handleSendTest"].
Definition notification_routes : list Route :=
  Get_ "/track/open/{logId}" "notification.handleTrackOpen"
  :: Use [RequireLogin]
       [Get_ "/event/{eventId}/stats" "notification.handleGetStats"; Get_ "/event/{eventId}" "notification.handleGetLog"].
Definition eventadmin_routes : list Route :=
  Use [RequireLogin; RequireAdmin]
    [Post "/{eventID}/memberships/self" "eventadmin.handleAddSelf";
     Post "/{eventID}/ownership-transfer" "eventadmin.handleTransfer"].
Definition stats_routes : list Route := Use [RequireLogin; RequireAdmin] [Get_ "/stats" "stats.handleGetStats"].
Definition unsubscribe_routes : list Route :=
  [Get_ "/" "suppression.handleResolve"; Post "/" "suppression.handleUnsubscribe"].
Definition setup_routes : list Route :=
  Get_ "/status" "instanceconfig.handleStatus"
  :: Use [AuthLimit] [Post "/bootstrap" "instanceconfig.handleBootstrap"]
  ++ Use [RequireLogin; RequireAdmin]
       [Get_ "/config" "instanceconfig.handleGetConfig"; Post "/config" "instanceconfig.handleSaveConfig"].

(** The routes that router.go answers itself, then the handlers' in two parts. *)
Definition own_routes : list Route :=
  [Get_ "/health" "server.handleHealth"; Get_ "/openapi.json" "apidoc.ServeHTTP"; Get_ "/config" "server.config"].
Definition core_routes : list Route :=
  Mount "/auth/account-invites" account_invite_routes
  ++ Mount "/auth" auth_routes
  ++ Mount "/events/series" series_routes
  ++ Mount "/events/{eventId}/invitations" invitation_routes
  ++ Mount "/events/{eventId}/open-enrollment" open_enrollment_routes
  ++ Mount "/events" event_routes
  ++ Mount "/invitations" public_invitation_routes
  ++ Mount "/events/{eventId}/questions" question_routes
  ++ Mount "/invite" card_routes.
Definition upload_routes : list Route := [Get_ "/uploads/*" "server.uploads"].
Definition more_routes : list Route :=
  Mount "/reminders" reminder_routes
  ++ Mount "/feedback" feedback_routes
  ++ Mount "/webhooks" webhook_routes
  ++ Mount "/notifications" notification_routes
  ++ Mount "/admin/users" user_routes
  ++ Mount "/admin/audit" audit_routes
  ++ Mount "/admin/events" eventadmin_routes
  ++ Mount "/admin" stats_routes
  ++ Mount "/unsubscribe" unsubscribe_routes
  ++ Mount "/setup" setup_routes.
Definition api_routes : list Route := own_routes ++ core_routes ++ upload_routes ++ more_routes.
Definition routes : list Route :=
  [Get_ "/health" "server.handleHealth"; Get_ "/health/ready" "server.handleHealthReady"]
  ++ Mount "/api/v1" api_routes.

(** What GET /api/v1/config tells everybody. *)
Definition public_config (c : Config.Config) : string * string * bool * string :=
  (c.(Config.InstanceName), c.(Config.SupportEmail), Config.SMSEnabled c, c.(NotificationSMSSenderName)).
(** [filepath.Base] *)
Definition path_base (s : string) : string :=
  if bool_decide (s = "") then "." else
  default "/" (last (List.filter (fun x => negb (bool_decide (x = ""))) (split s "/"%char))).
(** The file of the uploads directory that an upload's path names, and the headers set. *)
Definition upload_name (path : string) : string := path_base (trim_prefix path "/api/v1/uploads/").
Definition upload_headers : list (string * string) :=
  [("X-Content-Type-Options", "nosniff"); ("Content-Security-Policy", "default-src 'none'");
   ("X-Frame-Options", "DENY")].

(** The frontend's files: whether a path is a directory.  The answer is a file with its
    cache header, the fallback page, or the JSON reply 404 when no frontend is built in. *)
Inductive StaticReply := SFile (path cache : string) | SFallback | SNotFound.
Definition static_reply (files : option (string -> option bool)) (path : string) : StaticReply :=
  match files with
  | None => SNotFound
  | Some files =>
      let name := of_bytes (tail (to_bytes path)) in
      match files (if bool_decide (name = "") then "index.html" else name) with
      | Some false =>
          SFile path (if has_prefix path "/_app/immutable/" then "public, max-age=31536000, immutable" else "no-cache")
      | _ => SFallback
      end
  end.

(** The name has no slash, so that the file is in the directory or the directory
    itself, which is listed, or its parent, which [http.ServeFile] refuses. *)
Lemma upload_name_flat path : "/"%char ∉ to_bytes (upload_name path) \/ upload_name path = "/".
Proof.
  unfold upload_name, path_base. case_bool_decide; [left; vm_compute; set_solver|].
  destruct (last _) as [x|] eqn:Hl; [left|by right]. simpl. apply last_Some_elem_of in Hl.
  apply list_elem_of_In, filter_In in Hl as [Hx _]. apply list_elem_of_In in Hx. unfold split in Hx.
  apply list_elem_of_fmap in Hx as (b & -> & Hb). rewrite to_of_bytes.
  destruct (split_bytes_inv "/"%char (to_bytes (trim_prefix path "/api/v1/uploads/")) _ eq_refl) as (Hall & _).
  rewrite Forall_forall in Hall. by apply Hall.
Qed.
Example uploads_listed : upload_name "/api/v1/uploads/" = "." /\ upload_name "/api/v1/uploads/../../etc/passwd" = "passwd".
Proof. vm_compute. split; reflexivity. Qed.

(** Whose cookie a route acts with. *)
Inductive Credential := NoSession | LoginSession | InvitationSession.
Definition acts_with (r : Route) : Credential :=
  if existsb (fun g => match g with RequireLogin => true | _ => false end) r.(rt_guards)
     || bool_decide (r.(rt_handler) = "auth.handleLogout") then LoginSession
  else if one_of r.(rt_handler) ["invitation.session"; "invitation.submit"] then InvitationSession
  else NoSession.

(** *** Patterns *)

(** chi's patterns: a parameter is any segment, and a mounted router answers at its
    path with and without a slash. *)
Fixpoint pattern_matches (pat : list Segment) (parts : list string) : bool :=
  match pat, parts with
  | [], [] => true
  | [Seg s], [] => bool_decide (s = "")
  | [Rest], _ :: _ => true
  | Seg s :: pat, x :: parts => bool_decide (s = x) && pattern_matches pat parts
  | Param :: pat, _ :: parts => pattern_matches pat parts
  | _, _ => false
  end.
(** [text] is the path, escaped or not, that chi looks at. *)
Definition route_matches (r : Route) (method text : string) : bool :=
  bool_decide (r.(rt_method) = method) &&
  match split text "/"%char with
  | first :: parts => bool_decide (first = "") && pattern_matches r.(rt_pattern) parts
  | [] => false
  end.
Class Chi := chi_serve : list Route -> string -> string -> option Route.
Class ChiLaws {C : Chi} : Prop :=
  chi_matches rs method text r : chi_serve rs method text = Some r -> r ∈ rs /\ route_matches r method text = true.

(** [url.URL]: the path is the escaped text with every %xx replaced. *)
Definition unhex (c : ascii) : option Z :=
  let n := byte_val c in
  if is_digit c then Some (n - 48)
  else if (65 <=? n) && (n <=? 70) then Some (n - 55)
  else if (97 <=? n) && (n <=? 102) then Some (n - 87) else None.
Fixpoint unescape (l : bytes) : option bytes :=
  match l with
  | [] => Some []
  | c :: t =>
      if bool_decide (c = "%"%char) then
        match t with
        | a :: b :: u =>
            match unhex a, unhex b with
            | Some x, Some y => cons (byte_of (16 * x + y)) <$> unescape u
            | _, _ => None
            end
        | _ => None
        end
      else cons c <$> unescape t
  end.
(** What chi looks at is the path of the URL or its escaped form. *)
Definition path_of (text path : string) : Prop :=
  text = path \/ unescape (to_bytes text) = Some (to_bytes path).

(** The text of a pattern up to its first parameter. *)
Fixpoint literal (pat : list Segment) : bytes :=
  match pat with
  | [] => []
  | [Seg s] => if bool_decide (s = "") then [] else "/"%char :: to_bytes s
  | Seg s :: pat => "/"%char :: to_bytes s ++ literal pat
  | _ => ["/"%char]
  end.
Definition static (pat : list Segment) : bool := forallb (fun x => match x with Seg _ => true | _ => false end) pat.
Definition slash_join (parts : list string) : bytes := concat (map (fun x => "/"%char :: to_bytes x) parts).

Lemma literal_prefix pat parts :
  pattern_matches pat parts = true -> exists rest, slash_join parts = literal pat ++ rest.
Proof.
  revert parts. induction pat as [|[s| |] pat IH]; intros [|x parts] Hm; simpl in Hm; try done.
  - by exists [].
  - destruct pat; [|done]. apply bool_decide_eq_true in Hm as ->. by exists [].
  - assert (s = x /\ (pattern_matches pat parts = true)) as [-> Hp].
    { destruct pat; apply andb_true_iff in Hm as [H1%bool_decide_eq_true H2]; done. }
    clear Hm.
    destruct (IH _ Hp) as [rest Hr]. unfold slash_join. simpl. destruct pat as [|y pat].
    + simpl. case_bool_decide; [eexists; reflexivity|]. eexists. rewrite app_comm_cons. reflexivity.
    + exists rest. unfold slash_join in Hr. by rewrite Hr, app_comm_cons, app_assoc.
  - eexists. reflexivity.
  - by destruct pat.
  - eexists. reflexivity.
Qed.
Lemma static_text pat parts :
  pattern_matches pat parts = true -> static pat = true ->
  slash_join parts = literal pat \/ slash_join parts = literal pat ++ ["/"%char].
Proof.
  revert parts. induction pat as [|[s| |] pat IH]; intros [|x parts] Hm Hs; simpl in Hm, Hs; try done.
  - by left.
  - destruct pat; [|done]. apply bool_decide_eq_true in Hm as ->. by left.
  - assert (s = x /\ (pattern_matches pat parts = true)) as [-> Hp].
    { destruct pat; apply andb_true_iff in Hm as [H1%bool_decide_eq_true H2]; done. }
    clear Hm.
    unfold slash_join. simpl. destruct pat as [|y pat].
    + destruct parts as [|z parts]; [|done]. simpl. rewrite app_nil_r. case_bool_decide; subst; [by right|by left].
    + destruct (IH _ Hp Hs) as [Hr|Hr]; unfold slash_join in Hr; rewrite Hr; [by left|right].
      by rewrite app_assoc.
Qed.
Lemma split_slash text first parts :
  split text "/"%char = first :: parts -> to_bytes text = to_bytes first ++ slash_join parts.
Proof.
  unfold split. intros H. destruct (split_bytes_inv "/"%char (to_bytes text) _ eq_refl) as (_ & h & t & Hp & Ht).
  rewrite Hp in H. simpl in H. injection H as <- <-. rewrite to_of_bytes, Ht. f_equal. unfold slash_join.
  f_equal. rewrite map_map. apply map_ext. intros x. by rewrite to_of_bytes.
Qed.

Lemma unescape_app l t : "%"%char ∉ l -> unescape (l ++ t) = app l <$> unescape t.
Proof.
  induction l as [|c l IH]; simpl; [by destruct (unescape t)|]. rewrite not_elem_of_cons. intros [Hc Hl].
  rewrite bool_decide_eq_false_2 by done. rewrite IH by done. by destruct (unescape t).
Qed.

(** What a path says of the route that serves it. *)
Lemma route_literal r method text path :
  route_matches r method text = true -> path_of text path -> "%"%char ∉ literal r.(rt_pattern) ->
  (exists rest, to_bytes path = literal r.(rt_pattern) ++ rest) /\
  (static r.(rt_pattern) = true -> to_bytes path = literal r.(rt_pattern) \/
     to_bytes path = literal r.(rt_pattern) ++ ["/"%char]).
Proof.
  unfold route_matches. intros [_ Hm]%andb_true_iff Hp Hl.
  destruct (split text "/"%char) as [|first parts] eqn:Ht; [done|]. apply andb_true_iff in Hm as [Hf Hm].
  apply bool_decide_eq_true in Hf as ->. apply split_slash in Ht. simpl in Ht. split.
  - destruct (literal_prefix _ _ Hm) as [rest Hr]. rewrite Hr in Ht. destruct Hp as [->|Hu]; [by eexists|].
    rewrite Ht, unescape_app in Hu by done. destruct (unescape rest) as [u|]; [|done].
    injection Hu as <-. by eexists.
  - intros Hs. destruct (static_text _ _ Hm Hs) as [Hr|Hr]; rewrite Hr in Ht; destruct Hp as [->|Hu]; auto.
    + left. rewrite Ht in Hu. rewrite <- (app_nil_r (literal _)), unescape_app in Hu by done.
      injection Hu as Hu. by rewrite <- Hu, app_nil_r.
    + right. rewrite Ht, unescape_app in Hu by done. by injection Hu as <-.
Qed.

(** No path of the pattern begins with [e]; every one does. *)
Definition clear (e : string) (r : Route) : bool :=
  let lit := literal r.(rt_pattern) in
  let e := to_bytes e in
  if static r.(rt_pattern) then negb (bytes_prefix e lit) && negb (bytes_prefix e (lit ++ ["/"%char]))
  else negb (bytes_prefix e lit) && negb (bytes_prefix lit e).
Definition plain_literal (r : Route) : bool := forallb (fun c => negb (bool_decide (c = "%"%char))) (literal r.(rt_pattern)).

Section served.
Context {C : Chi} {L : ChiLaws} (method text path : string) (r : Route).
Hypothesis served : chi_serve routes method text = Some r.
Hypothesis same_path : path_of text path.

Lemma served_literal :
  (exists rest, to_bytes path = literal r.(rt_pattern) ++ rest) /\
  (static r.(rt_pattern) = true -> to_bytes path = literal r.(rt_pattern) \/
     to_bytes path = literal r.(rt_pattern) ++ ["/"%char]).
Proof.
  destruct (chi_matches _ _ _ _ served) as [Hr Hm]. eapply route_literal; [done..|].
  assert (forallb plain_literal routes = true) as Hall by (vm_compute; reflexivity).
  rewrite forallb_forall in Hall. specialize (Hall r). rewrite <- list_elem_of_In in Hall. specialize (Hall Hr).
  unfold plain_literal in Hall. rewrite forallb_forall in Hall. intros Hc%list_elem_of_In%Hall. done.
Qed.
Lemma served_clear e : clear e r = true -> has_prefix path e = false.
Proof.
  destruct served_literal as [[rest Hp] Hs]. unfold clear, has_prefix. intros Hc.
  apply not_true_iff_false. intros [t Ht]%bytes_prefix_spec.
  destruct (static r.(rt_pattern)); apply andb_true_iff in Hc as [H1%negb_true_iff H2%negb_true_iff].
  - destruct (Hs eq_refl) as [He|He]; rewrite He in Ht.
    + apply not_true_iff_false in H1. apply H1, bytes_prefix_spec. by exists t.
    + apply not_true_iff_false in H2. apply H2, bytes_prefix_spec. by exists t.
  - rewrite Hp in Ht. symmetry in Ht. apply app_eq_inv in Ht as [(k & Hk & _)|(k & Hk & _)].
    + apply not_true_iff_false in H2. apply H2, bytes_prefix_spec. by exists k.
    + apply not_true_iff_false in H1. apply H1, bytes_prefix_spec. by exists k.
Qed.
Lemma served_begins e : bytes_prefix (to_bytes e) (literal r.(rt_pattern)) = true -> has_prefix path e = true.
Proof.
  destruct served_literal as [[rest Hp] _]. unfold has_prefix. intros [t Ht]%bytes_prefix_spec.
  apply bytes_prefix_spec. exists (t ++ rest). by rewrite Hp, Ht, app_assoc.
Qed.
Lemma served_checked (f : Route -> bool) : forallb f routes = true -> f r = true.
Proof.
  rewrite forallb_forall. intros H. apply H, list_elem_of_In. by destruct (chi_matches _ _ _ _ served).
Qed.
Lemma served_method : r.(rt_method) = method.
Proof. destruct (chi_matches _ _ _ _ served) as [_ [Hm%bool_decide_eq_true _]%andb_true_iff]. done. Qed.
End served.

(** The exemptions of a route, by its pattern. *)
Definition exemption_ok (r : Route) : bool :=
  is_safe_method r.(rt_method) ||
  match acts_with r with
  | NoSession => existsb (fun e => bytes_prefix (to_bytes e) (literal r.(rt_pattern))) csrf_excluded
  | _ => forallb (fun e => clear e r) csrf_excluded
  end.
Lemma exemptions_ok : forallb exemption_ok routes = true.
Proof. vm_compute. reflexivity. Qed.
Definition admin_only (r : Route) : bool :=
  match r.(rt_guards) with [RequireLogin; RequireAdmin] => true | _ => false end.
Lemma admin_only_spec r : admin_only r = true -> r.(rt_guards) = [RequireLogin; RequireAdmin].
Proof. unfold admin_only. by repeat case_match. Qed.

(** [C14] A mutation that a route serves is exempt from the CSRF check by its path exactly when
    the route acts with no session; otherwise it passes, unless it carries a bearer
    token, only with the same token in cookie and header, bound to its session. *)
Theorem session_mutations_guarded `{E : Env} {C : Chi} {L : ChiLaws} (key text : string) q r w c w' :
  chi_serve routes q.(cq_method) text = Some r -> path_of text q.(cq_path) ->
  is_safe_method q.(cq_method) = false ->
  (existsb (has_prefix q.(cq_path)) csrf_excluded = true <-> acts_with r = NoSession) /\
  (acts_with r <> NoSession -> has_prefix q.(cq_authorization) "Bearer " = false ->
   CSRFMiddleware key csrf_excluded q w = (Ok (Next, c), w') ->
   q.(cq_header) <> "" /\ q.(cq_csrf) = Some q.(cq_header) /\
   (session_value q <> "" -> bound_form key q.(cq_header) (session_value q))).
Proof.
  intros Hs Hp Hm.
  assert (existsb (has_prefix q.(cq_path)) csrf_excluded = true <-> acts_with r = NoSession) as He.
  { pose proof (served_method _ _ _ Hs) as Hmr.
    pose proof (served_checked _ _ _ Hs exemption_ok exemptions_ok) as Hok. unfold exemption_ok in Hok.
    rewrite Hmr, Hm, orb_false_l in Hok. destruct (acts_with r).
    - split; [done|]. intros _. apply existsb_exists in Hok as (e & Hin & He).
      apply existsb_exists. exists e. split; [done|]. by eapply served_begins.
    - split; [|done]. intros (e & Hin & He)%existsb_exists. rewrite forallb_forall in Hok.
      by rewrite (served_clear _ _ _ _ Hs Hp e (Hok e Hin)) in He.
    - split; [|done]. intros (e & Hin & He)%existsb_exists. rewrite forallb_forall in Hok.
      by rewrite (served_clear _ _ _ _ Hs Hp e (Hok e Hin)) in He. }
  split; [exact He|]. intros Ha Hb H. apply csrf_passed in H as (_ & _ & Hh & Hc & Hsv & _); [done| |done].
  unfold csrf_exempt. rewrite Hb, orb_false_r. apply not_true_iff_false. by rewrite He.
Qed.

(** Under /api/v1/admin every route is for administrators. *)
Theorem admin_routes_guarded {C : Chi} {L : ChiLaws} method text path r :
  chi_serve routes method text = Some r -> path_of text path -> has_prefix path "/api/v1/admin/" = true ->
  r.(rt_guards) = [RequireLogin; RequireAdmin].
Proof.
  intros Hs Hp Ha. assert (forallb (fun r => clear "/api/v1/admin/" r || admin_only r) routes = true) as H
    by (vm_compute; reflexivity).
  apply (served_checked _ _ _ Hs) in H. apply orb_true_iff in H as [H|H]; [|by apply admin_only_spec].
  by rewrite (served_clear _ _ _ _ Hs Hp _ H) in Ha.
Qed.

(** ** Witnesses *)

#[local] Existing Instance demo_env.
#[local] Existing Instance demo_cards.
#[local] Instance demo_http : HttpEnv := {| split_host_port _ := None |}.
#[local] Instance demo_templates : Templates :=
  {| cohost_html _ _ _ _ _ := Some ""; retention_html _ _ _ := Some "" |}.

(** A provider that accepts every message. *)
Definition demo_provider : Provider :=
  MkProvider "smtp" ChannelEmail (fun _ => ret (inr (Some (MkSendResult "id")))) (fun _ => ret ([], [])).
Definition demo_client : Client := MkClient (fun _ => None) (fun _ => ret (inl "refused")) (fun _ => ret true).
Definition demo_invitation_service : InvService.Service :=
  match NewService "0123456789abcdef0123456789abcdef" "https://owl.example" 3600 3600 with
  | Ok s => s | Err _ => InvService.MkService (Capability.MkSigner "") "" 0 0 None None "" end.
Definition demo_parts : Parts :=
  MkParts demo_cfg 30 (Register demo_provider NewRegistry) false (ret false) (fun _ => ret true) demo_client
    demo_invitation_service "/uploads".

Lemma demo_outside : outside_reads demo_parts.
Proof.
  split; try (intros; by intros ?).
  intros ch pr m. simpl. unfold Register, NewRegistry. intros [_ <-]%lookup_singleton_Some w. done.
Qed.


(** Publishing again schedules the reminders again, and cancelling the event leaves
    them scheduled. *)
Definition republished : World :=
  run_accounts (wired demo_parts)
    [OCancel "ev" "org" true; OReopen "ev" "org"; OPublish "ev" "org";
     OCancel "ev" "org" true; OReopen "ev" "org"; OPublish "ev" "org"; OCancel "ev" "org" true] staffed_world.
Example reminders_twice :
  (e_status <$> republished.(w_db).(events) !! "ev") = Some "cancelled" /\
  (fun kr => (kr.2.(rm_message), kr.2.(rm_status))) <$> map_to_list republished.(w_db).(reminders)
  = [("Reminder: Party is in 1 week!", "scheduled"); ("Reminder: Party is in 3 days!", "scheduled");
     ("Reminder: Party is in 3 days!", "scheduled"); ("Reminder: Party is in 1 week!", "scheduled")].
Proof. vm_compute. split; reflexivity. Qed.

(** The log entry of the e-mail to a new cohost names the organizer's id as that of an
    invitation: the statement fails, the mail is sent and nothing is logged. *)
Definition cohost_notified : World := (notify_cohost demo_parts "co@b.c" "ev" "org" staffed_world).2.
Example cohost_mail_not_logged :
  cohost_notified.(w_db).(notification_log) = ∅ /\
  (Send (notifService demo_parts) "ev" "inv" ChannelEmail (MkMessage "co@b.c" "s" "b" "" []) staffed_world).2
    .(w_db).(notification_log) <> ∅.
Proof. split; [vm_compute; reflexivity|]. intros H%(f_equal map_to_list). vm_compute in H. discriminate. Qed.

Definition party : Event :=
  MkEvent "ev" "org" "Party" "" (demo_start + 5 * ns_per_day) None "Home" "UTC" 30 "published" false false None
    None None false demo_start demo_start.
(** Five days before the event only one of the two reminders is still to come. *)
Lemma publishing_schedules_witness :
  exists k created,
    (schedule_defaults party demo_world).2.(w_db).(reminders) !! k
    = Some (default_row party (3 * 24 * hour, "Reminder: Party is in 3 days!") created).
Proof.
  destruct (publishing_schedules party demo_world) as (_ & H & _).
  - reflexivity.
  - by eexists.
  - intros m _. apply lookup_empty.
  - apply demo_uuids.
  - destruct (H (3 * 24 * hour, "Reminder: Party is in 3 days!")) as (k & cr & _ & Hk).
    + right. left.
    + vm_compute. reflexivity.
    + exists k, cr. exact Hk.
Defined.

(** A router that takes the first route that matches. *)
#[local] Instance first_match : Chi := fun rs method text => List.find (fun r => route_matches r method text) rs.
#[local] Instance first_match_laws : ChiLaws.
Proof.
  intros rs method text r H. apply List.find_some in H as [H1%list_elem_of_In H2]. done.
Qed.

Definition submission_request : CsrfRequest :=
  MkCsrfRequest "/api/v1/invitations/session/response" "PUT" "" None (Some "s1") (Some (demo_token "s1"))
    (demo_token "s1") false false "".
Lemma session_mutations_guarded_witness :
  exists r, chi_serve routes "PUT" "/api/v1/invitations/session/response" = Some r /\
    r.(rt_handler) = "invitation.submit" /\ bound_form "k" (demo_token "s1") "s1".
Proof.
  exists (MkRoute "PUT" (pattern "/api/v1/invitations/session/response") [] "invitation.submit").
  assert (chi_serve routes "PUT" "/api/v1/invitations/session/response"
          = Some (MkRoute "PUT" (pattern "/api/v1/invitations/session/response") [] "invitation.submit")) as Hs
    by (vm_compute; reflexivity).
  split; [exact Hs|]. split; [reflexivity|].
  destruct (session_mutations_guarded "k" "/api/v1/invitations/session/response" submission_request _
    staffed_world None staffed_world Hs (or_introl eq_refl) eq_refl) as [_ H].
  apply H; [discriminate|reflexivity|vm_compute; reflexivity|discriminate].
Defined.
(** An escaped slash does not reach a route with a session. *)
Example escaped_path : chi_serve routes "POST" "/api/v1/auth%2Flogout" = None.
Proof. vm_compute. reflexivity. Qed.
